(* ===== verification/_CoqProject ===== *)
-Q . S2P
Prelude.v
StateMachine.v
Router.v
Messaging.v
Host.v
Handlers.v
HostSpec.v
RefHost.v
Frame.v
Consensus.v
Requests.v
Responses.v
Timeouts.v
Invariants.v
ChildTrie.v
PalletTypes.v
PalletHost.v
PalletRefines.v
Pallet.v
PalletFrames.v
PalletProps.v
Validation.v
PalletDemo.v
SubstrateMachine.v
TwoChains.v
TwoChainsDemo.v
Apps.v
Hyperbridge.v
HyperbridgeMachine.v
HostExecutive.v
Fishermen.v
EvmKeys.v
Relayer.v
RelayerProps.v
Coprocessor.v
AppsDemo.v
DemoCodec.v
Grandpa.v
GrandpaClient.v
GrandpaProps.v
GrandpaDemo.v
EvmMachine.v
Rollups.v
EvmDemo.v
SyncCommittee.v
SyncProps.v
BeaconClient.v
BeaconDemo.v
Bsc.v
BscProps.v
BscDemo.v
Parachain.v
ParachainProps.v
ParachainDemo.v
TokenGateway.v
TokenGatewayProps.v
GatewayCustody.v
TokenDemo.v
Governor.v
GovernorProps.v
Nexus.v
NexusProps.v
ProxyProps.v
NexusDemo.v
Decompressor.v
Mmr.v
MmrProps.v
MmrGadget.v
MmrDemo.v
Tesseract.v
TesseractProps.v
RelayerDb.v
RelayTasks.v
TaskProps.v
EvmProvider.v
RelayDemo.v
Hyperclient.v
HyperclientProps.v
Provers.v
ProverProps.v
