(* ===== verification/Prelude.v ===== *)
(** * Hyperbridge: a verification development

    Hyperbridge is an interoperability protocol. Its core, ISMP, is a library of
    message handlers ([src/modules/ismp/core]) that run inside a chain, the host:
    they verify proofs about other chains and deliver the requests, responses and
    timeouts those proofs speak of to application modules. [pallet-ismp]
    ([src/modules/ismp/pallets/pallet]) is the host for Substrate chains: it keeps
    the protocol's data in its storage and in a child trie, dispatches outgoing
    messages, collects their fees, and exposes the handlers as calls. Further
    pallets are applications of it: fees for relayers, the fee collecting
    dispatcher, parameters of remote hosts, vetoes, answers to GET requests, the
    transfer of assets and its governance, compressed calls. Consensus clients and
    state machine clients verify what other chains claim. A tree of messages, a
    Merkle mountain range, commits to what hyperbridge has sent. Tesseract is the
    relayer that carries messages between the chains and claims the fees for it, the
    hyperclient a library with which applications follow their messages and time them out.
    This development models these parts and proves what makes them correct. Paths
    below are relative to [src/modules/ismp] unless they start with [modules],
    [parachain] or [tesseract].

    ** The program and its model

    The parts call each other as follows. A call of the pallet ([handle],
    [handle_unsigned]) gives each message of a batch to [handle_incoming_message],
    which selects a handler. A handler reads and writes the host through the trait
    [IsmpHost], asks a [ConsensusClient] or a [StateMachineClient] to verify a
    proof, and calls an [IsmpModule] found by the [IsmpRouter]. A module may dispatch
    new messages through the pallet's [IsmpDispatcher]. The pallet implements
    [IsmpHost] and wraps every module so that fees are refunded on a timeout. Off chain,
    the relayer watches a chain through its [IsmpProvider], turns the events it finds into
    messages, submits those that pay to another chain, records the deliveries in a database,
    and from the records proves to the relayer pallet what it is owed. The hyperclient polls
    the source, hyperbridge and the destination of a message, and an indexer, for its status.

    - [Prelude]: bytes, machine integers with their wrap-around or saturation,
      durations, [Result], the state monad [M] with its loops, and tactics; Rust's
      [BTreeMap] as a sorted association list, over a lawful order; the monad [V] of code
      that only computes: a result, or a panic.
    - [StateMachine]: the identifiers of [core/src/host.rs] with [Display] and
      [FromStr].
    - [Router]: requests and responses of [core/src/router.rs], their accessors,
      timeouts and the encodings that are hashed.
    - [Messaging]: [core/src/consensus.rs], [messaging.rs], [events.rs], [error.rs],
      [dispatcher.rs]; the commitments.
    - [Host]: the traits of [core/src/host.rs], [consensus.rs], [module.rs] and
      [router.rs] as the class [IsmpHost] and records of functions, with their
      provided methods ([consensus_client], [is_expired], [is_allowed_proxy], ...).
    - [Handlers]: [core/src/handlers.rs] and [handlers/{consensus, request, response,
      timeout}.rs], over any host.
    - [HostSpec]: the abstract state [AbsHost] of a host, a specification of each of
      its methods, and the class [HostModel] of the hosts that implement them.
    - [RefHost]: the host whose state is [AbsHost] itself, and a small configuration
      of it ([Demo]) on which the theorems are evaluated.
    - [Frame]: what a program may do to the abstract state, compositionally.
    - [Consensus], [Requests], [Responses], [Timeouts]: the theorems on the handlers.
    - [Invariants]: sequences of messages interleaved with the rest of the chain.
    - [ChildTrie]: [pallets/pallet/src/child_trie.rs]: typed tables in a raw map.
    - [PalletTypes]: the storage items, types and configuration of [lib.rs],
      [mmr.rs], [utils.rs], [events.rs], [errors.rs].
    - [PalletHost]: [host.rs] and the refunding module wrapper of [dispatcher.rs].
    - [PalletRefines]: the instance of [HostModel] for the pallet.
    - [Pallet]: [dispatcher.rs], [impls.rs], [events.rs], and the calls, hooks,
      queries and transaction validation of [lib.rs]; the no-op message tree of
      [modules/trees/mmr/primitives].
    - [PalletFrames]: what a program may do to the state of the pallet.
      [PalletProps], [Validation]: the theorems on the pallet.
    - [PalletDemo]: a concrete runtime on which they are evaluated.
    - [SubstrateMachine]: [state-machines/substrate]: membership and state proofs of
      Substrate chains, reading of header digests. [TwoChains] composes it with the
      handlers of one chain and the pallet of another; [TwoChainsDemo] evaluates it.
    - [Apps]: the storage of the application pallets, side by side in one runtime.
    - [Hyperbridge]: [pallets/hyperbridge]. [HyperbridgeMachine]:
      [state-machines/hyperbridge], the client that also checks payments.
    - [HostExecutive], [Fishermen]: [pallets/host-executive], [pallets/fishermen].
    - [EvmKeys]: storage keys of the EVM host, [clients/sync-committee/evm-common].
    - [Relayer], [RelayerProps]: [pallets/relayer]: accumulation and withdrawal.
    - [Coprocessor]: [pallets/state-coprocessor].
    - [AppsDemo], [DemoCodec]: concrete runs and concrete codecs.
    - [Grandpa]: [modules/consensus/grandpa/{primitives, verifier}].
      [GrandpaClient]: [clients/grandpa]. [GrandpaProps], [GrandpaDemo]: theorems and
      concrete proofs of finality.
    - [EvmMachine]: the rest of [clients/sync-committee/evm-common], the
      client for EVM chains, over a table of accounts with their storage.
    - [Rollups]: [clients/arbitrum], [clients/optimism] and
      [modules/consensus/geth-primitives]. [EvmDemo]: a concrete contract.
    - [SyncCommittee], [SyncProps]: [modules/consensus/sync-committee/{primitives,
      verifier}]. [BeaconClient]: [clients/sync-committee], client and
      pallet. [BeaconDemo]: concrete committees and updates.
    - [Bsc], [BscProps], [BscDemo]: [modules/consensus/bsc/verifier] and [clients/bsc].
    - [Parachain]: [clients/parachain/{client, inherent}]: the client of sibling
      parachains, its pallet and the inherents of block builders. [ParachainProps],
      [ParachainDemo]: theorems and a concrete relay chain.
    - [TokenGateway]: [pallets/token-gateway] with its primitives. [TokenGatewayProps],
      [GatewayCustody], [TokenDemo]: theorems and a concrete ledger.
    - [Governor]: [pallets/token-governor]; [GovernorProps].
    - [Nexus]: [pallets/token-gateway-inspector], [pallets/asset-gateway] and the proxy
      module of [parachain/runtimes/nexus/src/ismp.rs]; [NexusProps], [ProxyProps].
      [NexusDemo]: concrete assets, chains and requests.
    - [Decompressor]: [pallets/call-decompressor].
    - [Mmr]: [modules/trees/mmr/{primitives, pallet}]; [MmrProps]. [MmrGadget]:
      [modules/trees/mmr/gadget], the task of the node that moves final nodes to their
      canonical keys. [MmrDemo]: an implementation of the library of
      mountain ranges, proved to obey its laws, and a chain of blocks over it.
    - [Tesseract]: [tesseract/primitives] and [tesseract/messaging/src/events.rs]: costs,
      receipts, the interface of a chain, filters, profitability, the translation of
      events into messages; [TesseractProps].
    - [RelayerDb]: [tesseract/fees]: the tables of deliveries, withdrawals and messages
      for later, and the claims made from them.
    - [RelayTasks]: [tesseract/messaging/src/{lib, retries, get_requests}.rs],
      [tesseract/relayer/src/fees.rs], [tesseract/fisherman] and [byzantine.rs] of the two
      providers: the tasks of the relayer; [TaskProps].
    - [EvmProvider]: [tesseract/evm/src/{lib, provider, tx}.rs] and the proofs of
      [modules/trees/ethereum/src/storage_proof.rs].
    - [RelayDemo]: concrete chains, a codec of messages and a database.
    - [Hyperclient]: [modules/hyperclient/src/{types, indexing, internals}.rs] with
      [internals/{post_request, post_response, get_request}.rs]: the streams of statuses as
      state machines, and the status at one moment; [providers/{substrate, evm}.rs]: proofs,
      receipts, events and call data. [HyperclientProps]: theorems and a concrete run.
    - [Provers]: [modules/consensus/sync-committee/prover], with its middleware that
      switches between nodes, [modules/consensus/bsc/prover] and
      [modules/consensus/grandpa/prover]: how updates are made from the answers of nodes.
      [ProverProps]: theorems, with the verifiers, and concrete nodes.

    ** How Rust is represented

    A function that can change the state is a program of [M]: it takes a state and
    returns a value, or [None] for a panic, with a new state. A [Result] is an
    ordinary value, so the writes made before an early return stay, as in the source;
    [let?] is the [?] operator with its error conversion ([From]) and [let*] plain
    sequencing. [transactional] restores the state after an error or a panic, as the
    FRAME attribute does. Trait objects are records of functions, and traits are
    classes. Integers are [Z]. Where the source can leave the range of its type the
    model says what happens in a release build: the nonce and the timeout of a GET
    request wrap around, the timeout of a POST request saturates, a [Duration] is a
    number of nanoseconds. Loops are over lists and structural, with these exceptions.
    The decimal printers have as much fuel as the longest number of the width has
    digits (twenty, thirty-nine, seventy-eight). A wait of the relayer looks at the clock
    as often as its fuel says: once is enough when the clock runs
    ([challenge_period_observed]). The submission to an EVM chain has fuel for the number of
    times that the node asks to come back later, which nothing bounds. The gadget walks to the ancestors of a block with one
    step more than its number, which decreases on the way, and its catching up is nested
    no deeper than a parameter; [finalized_leaves_readable] holds for every depth but
    zero, since on a node that has the headers one level is enough. The walk up a chain of parent hashes ([ancestry])
    has one step more than there are headers; [Grandpa] proves that running out of
    it means that the parent hashes form a cycle, on which the source never returns,
    and [ancestry_decides] that without a cycle it always returns. Code that cannot
    change the state is a program of [V]; there, as in [M], [None] stands for a panic
    or for a loop that does not end. A call of a client by a handler is [ask]. A
    [BTreeMap] is a list sorted by its key when its order is observable, a [gmap]
    otherwise. The relayer's state is the world of the chains, its database, and what was
    put into its channels; what it does concurrently is done in the order of the list, a
    stream is the list of the items that arrived, and a task in the background runs when
    it is started. The streams of the hyperclient are unfolded for any number of items, and
    polls are repeated any number of times. The beacon prover searches as many blocks as its
    fuel says, and finds what is no further away; the search for the rotation block has fuel for
    two epochs, after which the remainders have all been seen.

    ** What is proved

    - Requests ([Requests]): a handled message had a registered, unfrozen client, an
      elapsed challenge period and a verified membership proof, and carried only new,
      unexpired requests for this host; when these are distinct, afterwards the accepted
      ones, and no others, have a receipt. A refused message changes nothing. A module runs only after the
      receipt is stored, and a failed callback leaves none.
    - Responses ([Responses]): likewise, and only requests this host has sent and that
      are unanswered are answered; GET answers carry exactly the proved values.
    - Timeouts ([Timeouts]): only messages this host has sent and that expired are timed
      out, with the variants for POST requests and responses only those that are proved to
      be undelivered; the commitment is gone when the module runs and
      is put back, with the receipt, when it fails.
    - Consensus ([Consensus]): [update_client] refines the pure function
      [ref_update]; it records only verified commitments, changes none, and never
      lowers the latest height. What creating and freezing a client do.
    - Histories ([Invariants]): along every sequence of messages and of sends by modules,
      without vetoes and administrative calls, commitments never change, heights never decrease, a frozen client
      is refused for ever, a delivered request is not delivered by another message.
    - Refinement ([PalletRefines]): the pallet is a [HostModel], so everything above
      holds of it, through the typed views of the child trie.
    - The pallet ([PalletProps], [Validation]): the effect of dispatching and funding
      messages, fees included; consecutive nonces; at most one response per request;
      batches are all or nothing; a validated batch executes without error; the tag of
      a batch does not depend on its order; events and module ids convert back and
      forth; a dispatched request is found again by its commitment.
    - Two chains ([TwoChains]): with the substrate client, requests that are accepted
      were sent by the other chain; a request that is timed out against the child trie
      of its destination is not delivered there, and never will be.
    - Fees ([RelayerProps], [Hyperbridge], [HyperbridgeMachine]): relayers are credited
      the proved fee of every listed message that is proved delivered by them and not yet
      claimed, and nothing else, and withdraw them once, with their signature; a request paid for at dispatch passes the
      payment check.
    - Other pallets ([HostExecutive], [Fishermen], [Coprocessor]): parameter updates are
      stored and sent; a vetoed commitment is no longer usable; GET requests are
      answered once and with proved values.
    - GRANDPA ([GrandpaProps]): ancestry is decided; an accepted finality proof advances
      the client along the chain of headers; parachain headers and commitments are
      those proved in finalised blocks; fraud proofs show a fork.
    - Ethereum ([SyncProps], [BeaconClient], [EvmMachine], [Rollups]): accepted updates
      are signed by two thirds of the right committee and make progress; the key that is
      verified is that of the members who signed; fork versions are those of the active
      fork; the client reports the proved execution payload and the configured rollups,
      whose states are those recorded by their contracts; membership and values are those
      of the storage of the contract.
    - BSC ([BscProps]): the extra data of a header is parsed into well-formed values; an
      accepted update has one valid signature of those validators in charge whose bits are
      set, with a quorum of bits, and reports the header they made final; along all updates the state
      stays well formed, the height grows and nothing is accepted twice.
    - Parachains ([ParachainProps]): an accepted update was checked
      against a state root of the relay chain and reports the proved heads of registered
      parachains; recorded roots are never replaced; with an honest relay chain the
      inherent of a block builder is accepted and all new heads become known.
    - Tokens ([TokenGatewayProps], [GatewayCustody]): what a message of a gateway releases
      and a teleport locks; a teleport that times out is refunded in full; amounts convert
      exactly; custody of assets other than the native one holds what left minus what came
      back, over all histories.
    - Hyperbridge's own modules ([GovernorProps], [NexusProps], [ProxyProps]): who registers an asset owns it for ever; the
      proxy relays exactly what passes inspection and is not committed, unaltered, and
      leaves nothing of the rest; no chain that is not an EVM chain sends on more of a
      foreign asset than it had and was credited.
    - Compressed calls ([Decompressor]): they do what the call inside does.
    - The message tree ([MmrProps], [MmrGadget]): a block appends the leaves pushed in
      it at the places announced, the chain keeps exactly the peaks, and the leaves of
      final blocks can be read when the node has followed the chain; the k-index is the number of a leaf in its mountain.
    - The relayer ([TesseractProps], [TaskProps]): what an update makes it submit, record
      and keep when chains and database work, and that nothing is relayed which does not pay; what a retry settles;
      that a withdrawal is only forgotten when it was delivered; that after the fishermen
      have seen all updates no forged commitment is left, and every honest one is.
    - Its database ([RelayerDb]): claims name exactly the recorded deliveries that are not
      paid, paid ones are deleted; heights and messages are found again.
    - The EVM provider ([EvmProvider]): its proofs are accepted by the EVM state machine
      client if and only if the contract stores the commitments, the keys asked for are those that the relayer
      pallet reads, all blocks are searched for events, calls follow the messages, and
      receipts are those of transactions that succeeded.
    - The hyperclient ([HyperclientProps]): the statuses of a stream go forward whatever is
      answered; each status of a POST request is backed by an answer of a chain; call data
      for a timeout carries a proof that can be verified; a delivery on an EVM chain is noticed.
    - The provers ([ProverProps]): from an honest node of one of the networks, what the
      beacon prover returns is accepted by the verifier when the committee has signed,
      and what the BSC prover returns when the validators have voted; on what the GRANDPA
      prover returns every check passes but perhaps that of the justification; the
      rotation block is found; a request is answered by the first node that can.
    - Text and encodings ([StateMachine], [Router]): round trip and injectivity.
    - Deviations from what the code means to do, as theorems: an expired POST request
      is timed out through a GET timeout without any proof
      ([post_timed_out_without_proof]); an answered GET request still times out
      ([answered_get_times_out]); a request listed twice in one message is delivered
      twice ([duplicate_in_batch_delivered_twice]); the fee of a timed-out request is
      not refunded ([timeout_keeps_fee]); parsing some names panics
      ([from_str_named_panics]); two requests can have the same encoding
      ([encode_post_ambiguous]); a commitment listed twice is paid twice
      ([duplicate_commitment_paid_twice]); a withdrawal to an EVM chain can panic
      ([evm_withdrawal_panics]); a GET request is answered from another chain
      ([answer_from_another_chain]); a delivered request or response is timed out by a
      proof of another trie or key ([delivered_request_times_out],
      [delivered_response_times_out]); a response paid for is refused
      ([paid_response_refused]); GRANDPA accepts only invalid signatures
      ([accepted_justification_unsigned], [valid_signature_refused]) and panics on some
      messages ([trusted_block_proof_panics]); on EVM chains a delivered request is timed
      out with an empty proof ([evm_timeout_without_proof]); the height of an Optimism
      state is not verified ([optimism_height_forged]); an update at the boundary of two
      periods stalls the light client ([boundary_update_stalls]); BSC counts votes of
      nobody ([phantom_votes_accepted]), its parser panics ([parse_extra_panics]) and its
      fraud proofs can be forged ([bsc_fraud_proof_forged]); any fraud proof freezes the
      parachain client ([any_fraud_proof_freezes]), one silent parachain blocks the others
      ([paused_parachain_blocks_updates]), and an upgrade resets its configuration
      ([upgrade_resets_slot_durations]); a deregistration is reported as a failure
      ([deregistration_reports_failure]) and a registration can be taken over
      ([registration_taken_over]); owners are not checked where they should be
      ([unsigned_registration], [remote_delisting_unchecked]); new gateways are announced
      to themselves ([new_instance_misrouted]); failed registrations leave traces
      ([failed_registration_leaves_traces]); a refused transfer is credited
      ([refused_transfer_covers_next]) and empty bodies panic ([empty_body_panics]);
      transfers of the XCM gateway are never refunded ([gateway_timeout_never_refunded]);
      the pool accepts compressed calls that cannot run ([decompressor_validation]); a
      block that the gadget skips is not made up for ([skipped_parent_lost]); a failed retry
      loses the messages ([retry_loses_messages]), and messages are fetched with the
      identifiers of others ([fetched_with_wrong_ids]); the hyperclient reports a GET request as
      timed out as long as it is not ([get_status_inverted]), and a response without a timeout
      as timed out ([response_without_timeout_expires]), and proves a timeout at the height of
      a block of another chain ([timeout_at_block_of_source]); the beacon prover makes updates
      at the start of a period that are refused ([beacon_prover_accepted]); the search for the
      rotation block may not end ([rotation_block_found]), nor the attempts to reach a node
      ([providers_tried]); an empty sender passes for the gateway of a chain that has none
      ([gateway_releases]).

    ** What is assumed

    Code outside the repository is a parameter. [Keccak256] is any function;
    [Codec] assumes that decoding undoes encoding; [HeightSort] that
    [sort_unstable_by] returns a sorted permutation; [Currency] what a transfer does
    to balances; [Mmr], [ErrorText], [ChildRoot] and [Config] assume nothing.
    [HeightKeys] says that the hashes of two heights differ. [RouterFrame] and
    [ModulesFrame] say that application modules do to the ISMP data only what the
    dispatcher lets them do: they add commitments and responded marks, and leave
    receipts, consensus data and the clock alone. In the theorems on handlers,
    consensus clients and state machine clients are arbitrary functions of the host's
    state: no theorem assumes that they verify anything. The application pallets and
    clients have parameters for the libraries they call, which assume nothing unless
    said here: [HyperbridgeEnv], [ParamsAbi], [Crypto] (signatures), [Rlp], [EthAbi],
    [HashOrder], [TrieDb] (the trie library), [SlotCodec], [HeaderT] (headers and their
    hash), [FinalityGrandpa] (vote counting), [VoteCrypto], [ConsensusLogCodec], [Twox],
    [DebugError], [EvmTrie], [RollupLib] (RLP and ABI), [Ssz], [Bls]. [TrieSound] and
    [EvmTrieSound] say that a value read from a proof against the root of a trie is the
    value in the trie; [BlsGroup] that public keys form a commutative group. [BscLib],
    [GatewayConfig], [BodyAbi], [Fungibles], [SolAbi], [GovernorEnv], [RuntimeAssets],
    [XcmEnv], [DecompressorEnv], [MmrHelpers], [MmrLib] and [GadgetLib] assume nothing.
    [FungiblesLaws] says what transfers of assets do to balances, [BodyAbiLaws] that
    decoding undoes encoding, [OffsetLaws], [RangeLaws], [MmrLaws] and [GadgetLaws] what
    is documented of mountain ranges. The relay chain node and the client of the gadget
    are records of functions, and so are the chains ([IsmpProvider], [EvmNode],
    [SubstrateNode], [HyperbridgeClaim]) to the relayer and the chains and the indexer
    ([Client], [SubstrateRpc], [EvmRpc], [Indexer]) to the hyperclient and the nodes
    ([BeaconNode], [BscNode], [GrandpaNode]) to the provers; [UrlLib] parses addresses, [SszProver]
    makes the proofs of the SSZ library, and [SszProverLaws] says that its proofs of the
    checkpoint, committee and payload of a state, and of three fields of a payload header,
    verify; to both [Timer] and [Hex] are the
    clock and a codec that [HexLaws] says round trips. Theorems on the relayer have the
    hypothesis that the chains give steady answers ([fixed_answers]) where they say what it
    does; [EvmTrieMono] says that more nodes prove no less, and
    [faithful_logs] that a range of blocks is answered with the events of its blocks. That the node is honest, or has the headers, is a hypothesis
    of the theorems on liveness. A GRANDPA client is given its table of supported
    chains as configuration, and so is the beacon client: the calls of the pallets that
    change the tables ([GrandpaClient], [BeaconClient]) are modelled apart. Each class has a concrete instance in a [Demo] file.

    ** What is not modelled

    Log lines, weights and benchmarks, the genesis configuration of most pallets, RPC,
    generated code and bindings, the BEEFY prover, whose proofs are verified by contracts, the methods of the XCM gateway that only forward to the adapter of
    XCM, the client of Polygon, which is written against an earlier interface and not part
    of the build, and the nodes and runtimes that only configure these parts. The histories of
    [Invariants] do not contain vetoes and administrative calls. Of the relayer, its command
    line and configuration, the spawning of its tasks, the prices of the gas oracle, the
    estimation of gas from traces, the polling behind notification streams, and the
    substrate provider but for its keys and its veto, all of which read what a node or a
    web service answers. Of the hyperclient, its bindings to JavaScript, the choice between the
    kinds of providers, and the queries that only forward to a node. *)

From Stdlib Require Export Strings.Byte Strings.String ZArith Lia.
From stdpp Require Export base gmap strings list sorting.

#[global] Open Scope Z_scope.
#[global] Generalizable All Variables.

(** ** Bytes *)

Abbreviation byte := Init.Byte.byte.
Abbreviation bytes := (list Init.Byte.byte).

#[global] Instance byte_eq_decision : EqDecision byte := Byte.byte_eq_dec.

#[global] Program Instance byte_countable : Countable byte :=
  inj_countable Byte.to_N Byte.of_N _.
Next Obligation. exact Byte.of_to_N. Qed.

(** A Rust byte-string or string literal: the UTF-8 bytes of the text. *)
Definition lit (s : string) : bytes := String.list_byte_of_string s.
Arguments lit : simpl never.

Definition byte_val (x : byte) : Z := Z.of_N (Byte.to_N x).

(** The low eight bits of [z], as a byte. *)
Definition byte_of_Z (z : Z) : byte :=
  default Byte.x00 (Byte.of_N (Z.to_N (z mod 256))).

Lemma byte_val_range x : 0 <= byte_val x < 256.
Proof.
  unfold byte_val. pose proof (Byte.to_N_bounded x). lia.
Qed.

Lemma byte_val_of_Z z : byte_val (byte_of_Z z) = z mod 256.
Proof.
  unfold byte_val, byte_of_Z.
  pose proof (Z.mod_pos_bound z 256 ltac:(lia)) as Hb.
  destruct (Byte.of_N (Z.to_N (z mod 256))) as [x|] eqn:E; simpl.
  - apply Byte.to_of_N in E. rewrite E. lia.
  - apply Byte.of_N_None_iff in E. lia.
Qed.

Lemma byte_val_inj x y : byte_val x = byte_val y -> x = y.
Proof.
  unfold byte_val. intros H. apply N2Z.inj in H.
  pose proof (Byte.of_to_N x). pose proof (Byte.of_to_N y). congruence.
Qed.

Lemma byte_of_Z_val x : byte_of_Z (byte_val x) = x.
Proof.
  apply byte_val_inj. rewrite byte_val_of_Z. apply Z.mod_small, byte_val_range.
Qed.

(** ** Machine integers

    [u32], [u64] and [u128] values are [Z]; the predicates below bound them and
    the operations write their wrap-around or saturation out. *)

Definition u32_max : Z := 2 ^ 32 - 1.
Definition u64_max : Z := 2 ^ 64 - 1.
Definition u128_max : Z := 2 ^ 128 - 1.

Definition is_u32 (z : Z) : Prop := 0 <= z <= u32_max.
Definition is_u64 (z : Z) : Prop := 0 <= z <= u64_max.
Definition is_u128 (z : Z) : Prop := 0 <= z <= u128_max.

Definition wrap64 (z : Z) : Z := z mod 2 ^ 64.
Definition saturating_add_u64 (x y : Z) : Z := Z.min (x + y) u64_max.

(** [to_be_bytes] of an unsigned integer of [n] bytes. *)
Fixpoint to_be_bytes (n : nat) (z : Z) : bytes :=
  match n with
  | O => []
  | S k => to_be_bytes k (z / 256) ++ [byte_of_Z z]
  end.

Fixpoint of_be_bytes (acc : Z) (l : bytes) : Z :=
  match l with
  | [] => acc
  | x :: r => of_be_bytes (acc * 256 + byte_val x) r
  end.

Lemma length_to_be_bytes n z : length (to_be_bytes n z) = n.
Proof.
  revert z; induction n as [|n IH]; intros z; [done|].
  cbn [to_be_bytes]. rewrite length_app, IH. simpl; lia.
Qed.

Lemma of_be_bytes_app acc l x :
  of_be_bytes acc (l ++ [x]) = of_be_bytes acc l * 256 + byte_val x.
Proof. revert acc; induction l as [|y l IH]; intros acc; simpl; auto. Qed.

Lemma of_to_be_bytes n z :
  0 <= z < 256 ^ Z.of_nat n -> of_be_bytes 0 (to_be_bytes n z) = z.
Proof.
  revert z; induction n as [|n IH]; intros z Hz; cbn [to_be_bytes of_be_bytes].
  - change (256 ^ Z.of_nat 0) with 1 in Hz. lia.
  - rewrite of_be_bytes_app, byte_val_of_Z, IH.
    + pose proof (Z.div_mod z 256). lia.
    + rewrite Nat2Z.inj_succ, Z.pow_succ_r in Hz by lia.
      split; [apply Z.div_pos; lia|].
      apply Z.div_lt_upper_bound; lia.
Qed.

Lemma to_be_bytes_inj n x y :
  0 <= x < 256 ^ Z.of_nat n -> 0 <= y < 256 ^ Z.of_nat n ->
  to_be_bytes n x = to_be_bytes n y -> x = y.
Proof.
  intros Hx Hy E.
  rewrite <- (of_to_be_bytes n x Hx), <- (of_to_be_bytes n y Hy). by rewrite E.
Qed.

(** The most significant byte of a [u64] below [2 ^ 56] is zero. *)
Lemma to_be_bytes_small z :
  0 <= z < 2 ^ 56 -> exists l, to_be_bytes 8 z = Byte.x00 :: l.
Proof.
  intros Hz. unfold to_be_bytes. rewrite !Z.div_div by lia.
  eexists. cbn [app]. f_equal. apply byte_val_inj. rewrite byte_val_of_Z.
  rewrite Z.div_small; [done|]. lia.
Qed.

#[global] Opaque to_be_bytes.

(** ** Durations

    [core::time::Duration] is a non-negative number of nanoseconds. *)

Abbreviation Duration := Z (only parsing).

Definition nanos_per_sec : Z := 10 ^ 9.
Definition from_secs (secs : Z) : Duration := secs * nanos_per_sec.
Definition as_secs (d : Duration) : Z := d / nanos_per_sec.
Definition saturating_sub (x y : Duration) : Duration := Z.max 0 (x - y).

Lemma as_secs_from_secs s : as_secs (from_secs s) = s.
Proof. unfold as_secs, from_secs. apply Z.div_mul. done. Qed.

Lemma from_secs_le x y : from_secs x <= from_secs y <-> x <= y.
Proof. unfold from_secs, nanos_per_sec. lia. Qed.

Lemma from_as_secs_le d : from_secs (as_secs d) <= d.
Proof.
  unfold from_secs, as_secs, nanos_per_sec.
  pose proof (Z.mul_div_le d (10 ^ 9)). lia.
Qed.

(** ** Results

    Rust's [Result] is an ordinary value. *)

Inductive result (E A : Type) : Type :=
| Ok (a : A)
| Err (e : E).

Arguments Ok {E A} _.
Arguments Err {E A} _.

#[global] Instance result_eq_dec `{EqDecision E, EqDecision A} :
  EqDecision (result E A).
Proof. solve_decision. Defined.

Definition is_ok {E A} (r : result E A) : bool :=
  match r with Ok _ => true | Err _ => false end.

Definition is_err {E A} (r : result E A) : bool := negb (is_ok r).

Definition ok {E A} (r : result E A) : option A :=
  match r with Ok a => Some a | Err _ => None end.

Definition ok_or {E A} (o : option A) (e : E) : result E A :=
  match o with Some a => Ok a | None => Err e end.

Definition result_map {E A B} (f : A -> B) (r : result E A) : result E B :=
  match r with Ok a => Ok (f a) | Err e => Err e end.

Definition map_err {E F A} (f : E -> F) (r : result E A) : result F A :=
  match r with Ok a => Ok a | Err e => Err (f e) end.

(** [collect::<Result<Vec<_>, _>>()] over values already computed. *)
Fixpoint collect_results {E A} (l : list (result E A)) : result E (list A) :=
  match l with
  | [] => Ok []
  | Err e :: _ => Err e
  | Ok a :: r =>
      match collect_results r with Ok v => Ok (a :: v) | Err e => Err e end
  end.

Lemma collect_results_ok {E A} (l : list (result E A)) v :
  collect_results l = Ok v <-> l = Ok <$> v.
Proof.
  revert v; induction l as [|[a|e] l IH]; intros v; simpl.
  - split; [by intros [= <-]|]. destruct v; simpl; [done|discriminate].
  - destruct (collect_results l) as [w|e].
    + split.
      * intros [= <-]. simpl. f_equal. by apply IH.
      * destruct v as [|b v]; [discriminate|]. simpl. intros [= <- Hl].
        apply IH in Hl. by injection Hl as ->.
    + split; [discriminate|]. destruct v as [|b v]; [discriminate|]. simpl.
      intros [= <- Hl]. apply IH in Hl. discriminate.
  - split; [discriminate|]. destruct v; discriminate.
Qed.

(** The error conversion the [?] operator inserts. *)
Class From (E F : Type) := from : E -> F.
#[global] Instance From_refl E : From E E := fun e => e.

Lemma ok_or_ok {E A} (o : option A) (e : E) a : ok_or o e = Ok a <-> o = Some a.
Proof. destruct o; simpl; naive_solver. Qed.

Lemma map_err_ok {E F A} (f : E -> F) (r : result E A) a : map_err f r = Ok a <-> r = Ok a.
Proof. destruct r; cbn; naive_solver. Qed.

Lemma ok_some {E A} (r : result E A) a : ok r = Some a <-> r = Ok a.
Proof. destruct r; simpl; naive_solver. Qed.

(** ** The state monad

    A stateful Rust function over a state [S] runs to a value and a new state.
    [None] is a panic, which nothing catches. [Result]s are values, so that the
    state reached before an early return is kept, as in the source. *)

Definition M (S A : Type) : Type := S -> option A * S.

Definition ret {S A} (a : A) : M S A := fun s => (Some a, s).
Definition panic {S A} : M S A := fun s => (None, s).

Definition bind {S A B} (m : M S A) (k : A -> M S B) : M S B :=
  fun s => match m s with
           | (Some a, s') => k a s'
           | (None, s') => (None, s')
           end.

(** [m?]: go on with the value, or return the converted error. *)
Definition try_bind {S A B E F} `{From E F}
    (m : M S (result E A)) (k : A -> M S (result F B)) : M S (result F B) :=
  bind m (fun r => match r with
                   | Ok a => k a
                   | Err e => ret (Err (from e))
                   end).

Definition gets {S A} (f : S -> A) : M S A := fun s => (Some (f s), s).
(** A read of the state that may panic. *)
Definition ask {S A} (f : S -> option A) : M S A := fun s => (f s, s).
Definition modify {S} (f : S -> S) : M S unit := fun s => (Some tt, f s).

(** The value of a computation that may panic. *)
Definition or_panic {S A} (o : option A) : M S A :=
  match o with Some a => ret a | None => panic end.

Declare Scope ismp_scope.
Delimit Scope ismp_scope with ismp.
#[global] Open Scope ismp_scope.

Notation "'let*' x ':=' m 'in' k" := (bind m (fun x => k))
  (at level 10, x pattern, m at level 100, k at level 200,
   format "'let*'  x  ':='  m  'in' '//' k") : ismp_scope.
Notation "'let?' x ':=' m 'in' k" := (try_bind m (fun x => k))
  (at level 10, x pattern, m at level 100, k at level 200,
   format "'let?'  x  ':='  m  'in' '//' k") : ismp_scope.

(** [Err(e)?] under a condition: the guards of the handlers. *)
Definition ensure_not {S E} (c : bool) (e : E) : M S (result E unit) :=
  ret (if c then Err e else Ok tt).

(** [for x in l { body }] where the body may return early. *)
Fixpoint for_each {S A E} (l : list A) (body : A -> M S (result E unit)) :
    M S (result E unit) :=
  match l with
  | [] => ret (Ok tt)
  | x :: r => let? _ := body x in for_each r body
  end.

(** [l.into_iter().map(f).collect::<Vec<_>>()] *)
Fixpoint map_m {S A B} (f : A -> M S B) (l : list A) : M S (list B) :=
  match l with
  | [] => ret []
  | x :: r => let* y := f x in let* ys := map_m f r in ret (y :: ys)
  end.

(** [l.into_iter().map(f).collect::<Result<Vec<_>, _>>()], which stops at the
    first error. *)
Fixpoint try_map_m {S A B E} (f : A -> M S (result E B)) (l : list A) :
    M S (result E (list B)) :=
  match l with
  | [] => ret (Ok [])
  | x :: r => let? y := f x in let? ys := try_map_m f r in ret (Ok (y :: ys))
  end.

(** A loop that threads a local variable and may return early. *)
Fixpoint try_fold_m {S A B E} (f : B -> A -> M S (result E B)) (b : B) (l : list A) :
    M S (result E B) :=
  match l with
  | [] => ret (Ok b)
  | x :: r => let? b' := f b x in try_fold_m f b' r
  end.

(** [r.map(f)] on a [Result] whose closure may panic. *)
Definition map_ok_m {S E A B} (r : result E A) (f : A -> M S B) : M S (result E B) :=
  match r with
  | Ok a => let* b := f a in ret (Ok b)
  | Err e => ret (Err e)
  end.

(** [iter.find_map(f)] *)
Fixpoint find_map {A B} (f : A -> option B) (l : list A) : option B :=
  match l with
  | [] => None
  | x :: r => match f x with Some y => Some y | None => find_map f r end
  end.

Lemma find_map_none {A B} (f : A -> option B) (l : list A) :
  find_map f l = None <-> Forall (fun x => f x = None) l.
Proof.
  induction l as [|x l IH]; simpl; [by split; auto|].
  rewrite Forall_cons, <- IH. destruct (f x); naive_solver.
Qed.

(** ** Running the monad *)

Lemma bind_some {S A B} (m : M S A) (k : A -> M S B) s a s' :
  m s = (Some a, s') -> bind m k s = k a s'.
Proof. unfold bind. by intros ->. Qed.

Lemma bind_inv {S A B} (m : M S A) (k : A -> M S B) s b s'' :
  bind m k s = (Some b, s'') <->
  exists a s', m s = (Some a, s') /\ k a s' = (Some b, s'').
Proof.
  unfold bind. destruct (m s) as [[a|] s']; split; naive_solver.
Qed.

Lemma try_ok {S A B E F} `{From E F} (m : M S (result E A))
    (k : A -> M S (result F B)) s a s' :
  m s = (Some (Ok a), s') -> try_bind m k s = k a s'.
Proof. unfold try_bind. intros E0. by rewrite (bind_some _ _ _ _ _ E0). Qed.

Lemma try_err {S A B E F} `{From E F} (m : M S (result E A))
    (k : A -> M S (result F B)) s e s' :
  m s = (Some (Err e), s') -> try_bind m k s = (Some (Err (from e)), s').
Proof. unfold try_bind. intros E0. by rewrite (bind_some _ _ _ _ _ E0). Qed.

(** A value returned by a [?]-sequence comes from an error of its first part or
    from its continuation. *)
Lemma try_inv {S A B E F} `{From E F} (m : M S (result E A))
    (k : A -> M S (result F B)) s r s'' :
  try_bind m k s = (Some r, s'') <->
  (exists e, m s = (Some (Err e), s'') /\ r = Err (from e)) \/
  (exists a s', m s = (Some (Ok a), s') /\ k a s' = (Some r, s'')).
Proof.
  unfold try_bind. rewrite bind_inv. split.
  - intros ([a|e] & s' & Hm & Hk); [right; eauto|left].
    injection Hk as <- <-. eauto.
  - intros [(e & Hm & ->)|(a & s' & Hm & Hk)].
    + exists (Err e), s''. by split.
    + exists (Ok a), s'. by split.
Qed.

Lemma try_ok_inv {S A B E F} `{From E F} (m : M S (result E A))
    (k : A -> M S (result F B)) s b s'' :
  try_bind m k s = (Some (Ok b), s'') <->
  exists a s', m s = (Some (Ok a), s') /\ k a s' = (Some (Ok b), s'').
Proof.
  rewrite try_inv. split; [|eauto].
  intros [(? & ? & ?)|?]; [discriminate|done].
Qed.

Lemma ret_inv {S A} (a b : A) (s s' : S) :
  ret a s = (Some b, s') <-> a = b /\ s = s'.
Proof. unfold ret. naive_solver. Qed.

Lemma gets_inv {S A} (f : S -> A) (b : A) (s s' : S) :
  gets f s = (Some b, s') <-> b = f s /\ s' = s.
Proof. unfold gets. naive_solver. Qed.

Lemma ask_inv {S A} (f : S -> option A) (b : A) (s s' : S) :
  ask f s = (Some b, s') <-> f s = Some b /\ s' = s.
Proof. unfold ask. split; [intros [=]; auto|intros [-> ->]; done]. Qed.

Lemma or_panic_inv {S A} (o : option A) (b : A) (s s' : S) :
  or_panic o s = (Some b, s') <-> o = Some b /\ s' = s.
Proof. destruct o; unfold or_panic, ret, panic; naive_solver. Qed.

Lemma ensure_not_ok {S E} (c : bool) (e : E) u (s s' : S) :
  ensure_not c e s = (Some (Ok u), s') <-> c = false /\ s' = s.
Proof. unfold ensure_not, ret. destruct c, u; naive_solver. Qed.

Lemma ensure_not_err {S E} (c : bool) (e e' : E) (s s' : S) :
  ensure_not c e s = (Some (Err e'), s') <-> c = true /\ e' = e /\ s' = s.
Proof. unfold ensure_not, ret. destruct c; naive_solver. Qed.

(** A [?]-sequence either stops at its first part or goes on. *)
Lemma try_split {S A B E F} `{From E F} (m : M S (result E A))
    (k : A -> M S (result F B)) s o s' :
  try_bind m k s = (o, s') ->
  (exists a s1, m s = (Some (Ok a), s1) /\ k a s1 = (o, s')) \/
  (exists o1, m s = (o1, s') /\ (forall a, o1 <> Some (Ok a)) /\ forall b, o <> Some (Ok b)).
Proof.
  unfold try_bind, bind. destruct (m s) as [[[a|e]|] s1] eqn:Em.
  - left. eauto.
  - intros [= <- <-]. right. eexists. split; [done|]. done.
  - intros [= <- <-]. right. eexists. split; [done|]. done.
Qed.

(** The value of a sequence whose last step wraps the result. *)
Lemma try_wrap {S A B E F} `{From E F} (m : M S (result E A)) (g : A -> B) s
    (o : option (result F B)) s' :
  try_bind m (fun a => ret (Ok (g a))) s = (o, s') ->
  exists o1 : option (result E A), m s = (o1, s') /\
    ((forall a, o1 <> Some (Ok a)) -> forall b, o <> Some (Ok b)) /\
    forall b, o = Some (Ok b) -> exists a, o1 = Some (Ok a) /\ b = g a.
Proof.
  intros [(a & s1 & Hm & Hr)|(o1 & Hm & Hn & Ho)]%try_split.
  - unfold ret in Hr. injection Hr as <- <-. exists (Some (Ok a)). split; [done|].
    split; [intros Hc; by destruct (Hc a)|]. intros b [= <-]. eauto.
  - exists o1. split; [done|]. split; [done|]. intros b Hb. by destruct (Ho b).
Qed.

Lemma bind_split {S A B} (m : M S A) (k : A -> M S B) s o s' :
  bind m k s = (o, s') ->
  (exists a s1, m s = (Some a, s1) /\ k a s1 = (o, s')) \/ (m s = (None, s') /\ o = None).
Proof.
  unfold bind. destruct (m s) as [[a|] s1] eqn:Em; [eauto|]. intros [= <- <-]. auto.
Qed.

(** A run is known from its outcome and the state it names. *)
Lemma run_eq {S A} (m : M S A) s o : fst (m s) = o -> m s = (o, snd (m s)).
Proof. intros <-. apply surjective_pairing. Defined.

(** ** Lists *)

(** Splitting an equation of concatenations at parts of equal length. *)
Lemma app_split_eq {A} (a b c d : list A) :
  length a = length c -> a ++ b = c ++ d -> a = c /\ b = d.
Proof. intros. by apply app_inj_1. Qed.

(** A filter that keeps every element. *)
Lemma omap_fmap_some {A B C} (f : B -> option C) (g : A -> B) (h : A -> C) (l : list A) :
  (forall x, f (g x) = Some (h x)) -> omap f (g <$> l) = h <$> l.
Proof. intros Hfg. induction l as [|x l IH]; [done|]. cbn. rewrite Hfg. by f_equal. Qed.

(** Two lists cut at their first element that satisfies [P]. *)
Lemma app_split_first {A} (P : A -> Prop) (a b c d : list A) x y :
  Forall (fun z => ~ P z) a -> Forall (fun z => ~ P z) c -> P x -> P y ->
  a ++ x :: b = c ++ y :: d -> a = c /\ x = y /\ b = d.
Proof.
  intros Ha; revert c; induction Ha as [|z a Hz Ha IH]; intros c Hc Hx Hy E.
  - destruct c as [|w c]; [by simplify_eq/=|].
    simplify_eq/=. by apply Forall_cons in Hc as [? _].
  - destruct c as [|w c]; simplify_eq/=; [done|].
    apply Forall_cons in Hc as [_ Hc].
    destruct (IH c Hc Hx Hy) as (-> & -> & ->); done.
Qed.

(** ** Tactics

    Each of these takes one step of a hypothesis [H] that says what a monadic
    program returned. *)

(** One step of a run that returned [Ok]: a read of the state, or a value. *)
Ltac step_gets H x Hx :=
  apply try_ok_inv in H as (x & ? & Hx & H); apply gets_inv in Hx as [Hx ->];
  symmetry in Hx.
Ltac step_ask H x Hx :=
  apply try_ok_inv in H as (x & ? & Hx & H); apply ask_inv in Hx as [Hx ->].
Ltac step_ret H x Hx :=
  apply try_ok_inv in H as (x & ? & Hx & H); apply ret_inv in Hx as [Hx <-].

(** The same for a plain binding, and for a guard. *)
Ltac bind_gets H :=
  let x := fresh "x" in let Hg := fresh "Hg" in
  apply bind_inv in H as (x & ? & Hg & H); apply gets_inv in Hg as [-> ->].
Ltac step_guard H G :=
  apply try_ok_inv in H as (? & ? & G & H); apply ensure_not_ok in G as [G ->].

(** One step of a run that returned [Err]: either the read failed, and the state
    is the one before it, which closes the goal, or the run goes on. *)
Ltac step_err H :=
  let Hg := fresh "Hg" in
  apply try_inv in H as [(? & Hg & _)|(? & ? & Hg & H)];
  [ unfold gets, ask, ret, ensure_not in Hg; by injection Hg as _ <-
  | unfold gets, ask, ret, ensure_not in Hg; injection Hg as ? <- ].

(** Close a goal whose hypotheses clash. *)
Ltac clash := exfalso; (congruence || naive_solver).

Create HintDb ismp discriminated.
Create Rewrite HintDb ismp.
#[export] Hint Resolve byte_val_range length_to_be_bytes : ismp.
#[export] Hint Rewrite @length_app @length_to_be_bytes as_secs_from_secs : ismp.

(** ** Orders and ordered maps

    The derived comparison of vectors, and [alloc::collections::BTreeMap] as the list of
    its entries in the order of the keys: what iterating over it yields. *)

(** ** Lexicographic order

    The derived order of vectors. *)

Fixpoint lex {A} (cmp : A -> A -> comparison) (a b : list A) : comparison :=
  match a, b with
  | [], [] => Eq
  | [], _ :: _ => Lt
  | _ :: _, [] => Gt
  | x :: a, y :: b => match cmp x y with Eq => lex cmp a b | c => c end
  end.

Definition compare_byte (x y : byte) : comparison := byte_val x ?= byte_val y.
(** The laws of a comparison that make its sorted lists unique. *)
Record lawful {A} (cmp : A -> A -> comparison) : Prop := {
  cmp_eq x y : cmp x y = Eq -> x = y;
  cmp_opp x y : cmp y x = CompOpp (cmp x y);
  cmp_trans x y z : cmp x y = Lt -> cmp y z = Lt -> cmp x z = Lt
}.

Lemma lawful_refl {A} (cmp : A -> A -> comparison) x : lawful cmp -> cmp x x = Eq.
Proof. intros [_ Ho _]. specialize (Ho x x). by destruct (cmp x x). Qed.

Lemma lex_lawful {A} (cmp : A -> A -> comparison) : lawful cmp -> lawful (lex cmp).
Proof.
  intros Hl. pose proof (fun x => lawful_refl cmp x Hl) as Hr. destruct Hl as [He Ho Ht]. split.
  - intros x. induction x as [|a x IH]; intros [|b y]; simpl; try done.
    destruct (cmp a b) eqn:E; try done. intros Hx. f_equal; auto.
  - intros x. induction x as [|a x IH]; intros [|b y]; simpl; try done.
    rewrite (Ho a b). destruct (cmp a b); simpl; auto.
  - intros x. induction x as [|a x IH]; intros [|b y] [|d z]; simpl; try done.
    destruct (cmp a b) eqn:E1; [|destruct (cmp b d) eqn:E2; try done|done].
    + apply He in E1 as ->. destruct (cmp b d); auto. apply IH.
    + apply He in E2 as ->. by rewrite E1.
    + by rewrite (Ht _ _ _ E1 E2).
Qed.

Lemma compare_byte_lawful : lawful compare_byte.
Proof.
  unfold compare_byte. split.
  - intros x y Hc%Z.compare_eq. by apply byte_val_inj.
  - intros x y. apply Z.compare_antisym.
  - intros x y z Hx Hy. rewrite Z.compare_lt_iff in *. lia.
Qed.

(** ** Maps

    [insert] overwrites, and [collect] inserts the entries one after the other. *)

Section btree.
Context {K V : Type} (cmp : K -> K -> comparison).

Fixpoint btree_insert (k : K) (v : V) (m : list (K * V)) : list (K * V) :=
  match m with
  | [] => [(k, v)]
  | (k', v') :: r =>
      match cmp k k' with
      | Lt => (k, v) :: (k', v') :: r
      | Eq => (k, v) :: r
      | Gt => (k', v') :: btree_insert k v r
      end
  end.

Definition btree_collect (l : list (K * V)) : list (K * V) :=
  foldl (fun m kv => btree_insert kv.1 kv.2 m) [] l.

Fixpoint btree_get (k : K) (m : list (K * V)) : option V :=
  match m with
  | [] => None
  | (k', v') :: r => match cmp k k' with Eq => Some v' | _ => btree_get k r end
  end.

(** [BTreeMap::remove], less the value it returns. *)
Definition btree_remove (k : K) (m : list (K * V)) : list (K * V) :=
  filter (fun e => cmp k e.1 <> Eq) m.

Context (Hcmp : lawful cmp).

Lemma btree_insert_elem k v m x :
  x ∈ btree_insert k v m -> x = (k, v) \/ x ∈ m.
Proof.
  induction m as [|[k' v'] m IH]; cbn; [rewrite list_elem_of_singleton; auto|].
  destruct (cmp k k'); rewrite !elem_of_cons; naive_solver.
Qed.

(** The entries of a collected map are entries of the list. *)
Lemma btree_collect_elem l x : x ∈ btree_collect l -> x ∈ l.
Proof.
  unfold btree_collect. enough (forall m, x ∈ foldl (fun m kv => btree_insert kv.1 kv.2 m) m l ->
    x ∈ m \/ x ∈ l) as He.
  { intros Hx. destruct (He [] Hx) as [[]%elem_of_nil|]; done. }
  induction l as [|[k v] l IH]; intros m; cbn; [auto|]. intros [Hx|Hx]%IH.
  - apply btree_insert_elem in Hx as [->|?]; [right; left|auto].
  - right. by right.
Qed.

Lemma btree_insert_keys k v m k' :
  k' ∈ (btree_insert k v m).*1 <-> k' = k \/ k' ∈ m.*1.
Proof.
  induction m as [|[k0 v0] m IH]; cbn; [rewrite list_elem_of_singleton, elem_of_nil; tauto|].
  destruct (cmp k k0) eqn:E; cbn; rewrite !elem_of_cons; [|tauto|rewrite IH; tauto].
  apply (cmp_eq _ Hcmp) in E as ->. tauto.
Qed.

(** A collected map has the keys of the list. *)
Lemma btree_collect_keys l k : k ∈ (btree_collect l).*1 <-> k ∈ l.*1.
Proof.
  unfold btree_collect. enough (forall m, k ∈ (foldl (fun m kv => btree_insert kv.1 kv.2 m) m l).*1 <->
    k ∈ m.*1 \/ k ∈ l.*1) as He.
  { rewrite He. cbn. rewrite elem_of_nil. tauto. }
  induction l as [|[k0 v0] l IH]; intros m; cbn; [rewrite elem_of_nil; tauto|].
  rewrite IH, btree_insert_keys, elem_of_cons. cbn. tauto.
Qed.

Lemma btree_get_elem k m v : btree_get k m = Some v -> (k, v) ∈ m.
Proof.
  induction m as [|[k' v'] m IH]; cbn; [done|]. destruct (cmp k k') eqn:E.
  - intros [= ->]. apply (cmp_eq _ Hcmp) in E as ->. left.
  - intros Hg. right. by apply IH.
  - intros Hg. right. by apply IH.
Qed.

(** Strictly increasing keys: what inserting keeps. *)
Definition btree_sorted (m : list (K * V)) : Prop := StronglySorted (fun a b => cmp a.1 b.1 = Lt) m.

Lemma btree_insert_sorted k v m : btree_sorted m -> btree_sorted (btree_insert k v m).
Proof.
  unfold btree_sorted. induction 1 as [|[k' v'] m Hs IH Hf]; cbn; [repeat constructor|].
  destruct (cmp k k') eqn:E.
  - apply (cmp_eq _ Hcmp) in E as <-. by constructor.
  - constructor; [by constructor|]. constructor; [done|]. eapply Forall_impl; [exact Hf|].
    intros x Hx. by eapply cmp_trans.
  - constructor; [done|]. apply Forall_forall. intros x [->|Hx]%btree_insert_elem.
    + cbn. by rewrite (cmp_opp _ Hcmp), E.
    + by apply (proj1 (Forall_forall _ _) Hf).
Qed.

Lemma btree_sorted_nodup m : btree_sorted m -> NoDup m.*1.
Proof.
  induction 1 as [|[k v] m Hs IH Hf]; cbn; constructor; [|done].
  intros (x & -> & Hx)%list_elem_of_fmap. pose proof (proj1 (Forall_forall _ _) Hf x Hx) as Hl.
  cbn in Hl. by rewrite (lawful_refl cmp _ Hcmp) in Hl.
Qed.

Lemma btree_insert_here k v m : (k, v) ∈ btree_insert k v m.
Proof. induction m as [|[k' v'] m IH]; cbn; [left|]. destruct (cmp k k'); try left. by right. Qed.

Lemma btree_insert_there k v m x : x ∈ m -> x.1 <> k -> x ∈ btree_insert k v m.
Proof.
  intros Hx Hne. induction m as [|[k' v'] m IH]; [by apply elem_of_nil in Hx|]. cbn.
  destruct (cmp k k') eqn:E; apply elem_of_cons in Hx as [->|Hx].
  - by apply (cmp_eq _ Hcmp) in E as <-.
  - by right.
  - right. left.
  - right. by right.
  - left.
  - right. by apply IH.
Qed.

(** The values of a map built from a function of the key. *)
Lemma btree_collect_fun (f : K -> V) ks :
  btree_collect ((fun k => (k, f k)) <$> ks) =
  (fun k => (k, f k)) <$> (btree_collect ((fun k => (k, f k)) <$> ks)).*1.
Proof.
  rewrite <- list_fmap_compose. symmetry. rewrite <- (list_fmap_id (btree_collect _)) at 2.
  apply list_fmap_ext. intros i [k v] Hi. cbn.
  apply list_elem_of_lookup_2, btree_collect_elem, list_elem_of_fmap in Hi as (k' & [= -> ->] & _).
  done.
Qed.

Lemma btree_collect_fun_elem (f : K -> V) ks x :
  x ∈ btree_collect ((fun k => (k, f k)) <$> ks) <-> x.1 ∈ ks /\ x.2 = f x.1.
Proof.
  rewrite btree_collect_fun, list_elem_of_fmap. split.
  - intros (k & -> & Hk). rewrite btree_collect_keys, <- list_fmap_compose in Hk.
    by rewrite list_fmap_id in Hk.
  - intros (Hx & E). exists x.1. split; [destruct x; cbn in *; by rewrite E|].
    rewrite btree_collect_keys, <- list_fmap_compose. by rewrite list_fmap_id.
Qed.

End btree.

Definition compare_bytes : bytes -> bytes -> comparison := lex compare_byte.

Lemma compare_bytes_lawful : lawful compare_bytes.
Proof. apply lex_lawful, compare_byte_lawful. Qed.

Lemma compare_Z_lawful : lawful Z.compare.
Proof.
  split.
  - intros x y. apply Z.compare_eq.
  - intros x y. apply Z.compare_antisym.
  - intros x y z. rewrite !Z.compare_lt_iff. lia.
Qed.

(** ** Code that only computes

    Verifiers take no state: they return a [Result], panic, or (on hostile input) do not
    return. [V] is the type of such a computation; [None] is a panic or a loop that does
    not end; [let!] is the [?] operator and [get!] takes a value that is missing after a
    panic. *)

Definition V (E A : Type) : Type := option (result E A).

Definition vret {E A} (a : A) : V E A := Some (Ok a).
Definition verr {E A} (e : E) : V E A := Some (Err e).
Definition vlift {E A} (r : result E A) : V E A := Some r.

Definition vtry {E F A B} `{From E F} (m : V E A) (k : A -> V F B) : V F B :=
  match m with
  | Some (Ok a) => k a
  | Some (Err e) => Some (Err (from e))
  | None => None
  end.

Notation "'let!' x ':=' m 'in' k" := (vtry m (fun x => k))
  (at level 10, x pattern, m at level 100, k at level 200,
   format "'let!'  x  ':='  m  'in' '//' k") : ismp_scope.

Definition vget {E A B} (o : option A) (k : A -> V E B) : V E B :=
  match o with Some a => k a | None => None end.

Notation "'get!' x ':=' m 'in' k" := (vget m (fun x => k))
  (at level 10, x pattern, m at level 100, k at level 200,
   format "'get!'  x  ':='  m  'in' '//' k") : ismp_scope.

(** [if c { Err(e)? }] *)
Definition vguard {E} (c : bool) (e : E) : V E unit := Some (if c then Err e else Ok tt).

(** [l.into_iter().map(f).collect::<Result<_, _>>()] *)
Fixpoint vmap {E A B} (f : A -> V E B) (l : list A) : V E (list B) :=
  match l with
  | [] => vret []
  | x :: r => let! y := f x in let! ys := vmap f r in vret (y :: ys)
  end.

(** A loop over [l] that updates a local variable and may return early. *)
Fixpoint vfold {E A B} (f : B -> A -> V E B) (b : B) (l : list A) : V E B :=
  match l with
  | [] => vret b
  | x :: r => let! b' := f b x in vfold f b' r
  end.

(** ** Running *)

Lemma vtry_ok {E F A B} `{From E F} (m : V E A) (k : A -> V F B) b :
  vtry m k = Some (Ok b) <-> exists a, m = Some (Ok a) /\ k a = Some (Ok b).
Proof. destruct m as [[a|e]|]; cbn; naive_solver. Qed.

Lemma vget_ok {E A B} (o : option A) (k : A -> V E B) b :
  vget o k = Some (Ok b) <-> exists a, o = Some a /\ k a = Some (Ok b).
Proof. destruct o; cbn; naive_solver. Qed.

Lemma vguard_ok {E} c (e : E) u : vguard c e = Some (Ok u) <-> c = false.
Proof. unfold vguard. destruct c, u; naive_solver. Qed.

Lemma vlift_ok {E A} (r : result E A) a : vlift r = Some (Ok a) <-> r = Ok a.
Proof. unfold vlift. naive_solver. Qed.

Lemma vret_ok {E A} (a b : A) : vret (E := E) a = Some (Ok b) <-> a = b.
Proof. unfold vret. naive_solver. Qed.

Lemma vmap_ok {E A B} (f : A -> V E B) l ys :
  vmap f l = Some (Ok ys) <-> Forall2 (fun x y => f x = Some (Ok y)) l ys.
Proof.
  revert ys; induction l as [|x l IH]; intros ys; cbn.
  - rewrite vret_ok. split; [intros <-; constructor|by inversion 1].
  - rewrite vtry_ok. split.
    + intros (y & Hy & (ys' & Hys & <-%vret_ok)%vtry_ok). constructor; [done|by apply IH].
    + inversion 1; subst. eexists. split; [done|]. apply vtry_ok. eexists.
      split; [by apply IH|done].
Qed.

(** A loop keeps what its body keeps. *)
Lemma vfold_inv {E A B} (P : B -> Prop) (f : B -> A -> V E B) l b b' :
  (forall b x b', x ∈ l -> P b -> f b x = Some (Ok b') -> P b') ->
  P b -> vfold f b l = Some (Ok b') -> P b'.
Proof.
  revert b; induction l as [|x l IH]; intros b Hf Hb; cbn.
  - rewrite vret_ok. by intros <-.
  - intros (b1 & H1 & H2)%vtry_ok. eapply IH; [|eapply Hf; [left|done|done]|done].
    intros ????. eapply Hf. by right.
Qed.

(** One step of a computation that returned [Ok]. *)
Ltac vstep H x Hx := apply vtry_ok in H as (x & Hx & H).
Ltac vcheck H G := apply vtry_ok in H as (? & G & H); apply vguard_ok in G.
