(* ===== verification/StateMachine.v ===== *)
(** * State machine identifiers

    The [StateMachine] enum of [ismp/core/src/host.rs] with its textual form:
    [Display], which every commitment hashes, and [FromStr]. A Rust string is the
    list of its UTF-8 bytes. [Display] can fail ([to_string] then panics) and
    [FromStr] can panic in [copy_from_slice]; both are [None] below. *)

From S2P Require Import Prelude.

(** [ConsensusStateId] and [ConsensusClientId] are [[u8; 4]]. *)
Definition Id4 : Type := byte * byte * byte * byte.
Definition ConsensusStateId : Type := Id4.
Definition ConsensusClientId : Type := Id4.

#[global] Instance Id4_eq_dec : EqDecision Id4 := _.
#[global] Instance Id4_countable : Countable Id4 := _.
#[global] Instance ConsensusStateId_eq_dec : EqDecision ConsensusStateId := _.
#[global] Instance ConsensusStateId_countable : Countable ConsensusStateId := _.
#[global] Instance ConsensusClientId_eq_dec : EqDecision ConsensusClientId := _.

Definition id4_bytes (i : Id4) : bytes :=
  let '(a, b, c, d) := i in [a; b; c; d].

(** [let mut id = [0u8; 4]; id.copy_from_slice(v)], which panics unless [v] has
    four bytes. *)
Definition id4_copy_from_slice (v : bytes) : option Id4 :=
  match v with
  | [a; b; c; d] => Some (a, b, c, d)
  | _ => None
  end.

Inductive StateMachine : Type :=
| Evm (id : Z)
| Polkadot (id : Z)
| Kusama (id : Z)
| Substrate (id : ConsensusStateId)
| Tendermint (id : ConsensusStateId).

#[global] Instance StateMachine_eq_dec : EqDecision StateMachine.
Proof. solve_decision. Defined.

#[global] Program Instance StateMachine_countable : Countable StateMachine :=
  inj_countable'
    (fun m => match m with
              | Evm i => inl (inl i)
              | Polkadot i => inl (inr i)
              | Kusama i => inr (inl i)
              | Substrate i => inr (inr (inl i))
              | Tendermint i => inr (inr (inr i))
              end)
    (fun x => match x with
              | inl (inl i) => Evm i
              | inl (inr i) => Polkadot i
              | inr (inl i) => Kusama i
              | inr (inr (inl i)) => Substrate i
              | inr (inr (inr i)) => Tendermint i
              end) _.
Next Obligation. by intros []. Qed.

(** The payload of the numeric variants is a [u32]. *)
Definition wf_StateMachine (m : StateMachine) : Prop :=
  match m with
  | Evm i | Polkadot i | Kusama i => is_u32 i
  | Substrate _ | Tendermint _ => True
  end.

Definition is_evm (m : StateMachine) : bool :=
  match m with Evm _ => true | _ => false end.

Definition is_substrate (m : StateMachine) : bool :=
  match m with
  | Polkadot _ | Kusama _ | Substrate _ => true
  | _ => false
  end.

(** The derived order of [StateMachine]: by variant, then by contents. *)
Definition variant_rank (m : StateMachine) : Z :=
  match m with Evm _ => 0 | Polkadot _ => 1 | Kusama _ => 2 | Substrate _ => 3 | Tendermint _ => 4 end.

Definition compare_StateMachine (a b : StateMachine) : comparison :=
  match a, b with
  | Evm x, Evm y | Polkadot x, Polkadot y | Kusama x, Kusama y => Z.compare x y
  | Substrate x, Substrate y | Tendermint x, Tendermint y =>
      compare_bytes (id4_bytes x) (id4_bytes y)
  | _, _ => Z.compare (variant_rank a) (variant_rank b)
  end.

(** ** Text: decimal numbers *)

Definition digit_byte (d : Z) : byte := byte_of_Z (48 + d).

Definition byte_digit (x : byte) : option Z :=
  if (48 <=? byte_val x) && (byte_val x <=? 57) then Some (byte_val x - 48) else None.

(** Decimal form of an unsigned integer; twenty digits are enough for [u64]. *)
Fixpoint show_dec_go (fuel : nat) (n : Z) (acc : bytes) : bytes :=
  match fuel with
  | O => acc
  | S k =>
      let acc' := digit_byte (n mod 10) :: acc in
      if n <? 10 then acc' else show_dec_go k (n / 10) acc'
  end.

Definition show_dec (n : Z) : bytes := show_dec_go 20 n [].

(** [u32::from_str]: an optional [+], at least one digit, no overflow. *)
Fixpoint parse_u32_go (acc : Z) (l : bytes) : option Z :=
  match l with
  | [] => Some acc
  | x :: r =>
      match byte_digit x with
      | Some d => let acc' := acc * 10 + d in
                  if acc' <=? u32_max then parse_u32_go acc' r else None
      | None => None
      end
  end.

Definition parse_u32 (l : bytes) : option Z :=
  match l with
  | [] => None
  | x :: r =>
      if decide (x = Byte.x2b)
      then match r with [] => None | _ => parse_u32_go 0 r end
      else parse_u32_go 0 l
  end.

(** ** Text: UTF-8 validity ([String::from_utf8]) *)

Definition in_range (lo hi : Z) (x : byte) : bool :=
  (lo <=? byte_val x) && (byte_val x <=? hi).
Definition cont (x : byte) : bool := in_range 128 191 x.

Fixpoint utf8_valid (l : bytes) : bool :=
  match l with
  | [] => true
  | a :: r =>
      if in_range 0 127 a then utf8_valid r
      else match r with
      | b :: r2 =>
          if in_range 194 223 a && cont b then utf8_valid r2
          else match r2 with
          | c :: r3 =>
              if ((in_range 224 224 a && in_range 160 191 b)
                  || (in_range 225 236 a && cont b)
                  || (in_range 237 237 a && in_range 128 159 b)
                  || (in_range 238 239 a && cont b)) && cont c
              then utf8_valid r3
              else match r3 with
              | d :: r4 =>
                  if ((in_range 240 240 a && in_range 144 191 b)
                      || (in_range 241 243 a && cont b)
                      || (in_range 244 244 a && in_range 128 143 b))
                     && cont c && cont d
                  then utf8_valid r4 else false
              | [] => false
              end
          | [] => false
          end
      | [] => false
      end
  end.

Definition from_utf8 (l : bytes) : option bytes :=
  if utf8_valid l then Some l else None.

(** ** [Display] and [FromStr] *)

(** [state_machine.to_string()]: [None] when [fmt] fails, on which [to_string]
    panics. *)
Definition to_string (m : StateMachine) : option bytes :=
  match m with
  | Evm id => Some (lit "EVM-" ++ show_dec id)
  | Polkadot id => Some (lit "POLKADOT-" ++ show_dec id)
  | Kusama id => Some (lit "KUSAMA-" ++ show_dec id)
  | Substrate id => app (lit "SUBSTRATE-") <$> from_utf8 (id4_bytes id)
  | Tendermint id => app (lit "TNDRMINT-") <$> from_utf8 (id4_bytes id)
  end.

Definition starts_with (p l : bytes) : bool := bool_decide (p `prefix_of` l).

(** [name.split('-').last()] *)
Fixpoint split_last (cur l : bytes) : bytes :=
  match l with
  | [] => cur
  | x :: r => if decide (x = Byte.x2d) then split_last [] r
              else split_last (cur ++ [x]) r
  end.

(** [None] is a panic of [copy_from_slice]. *)
Definition from_str (s : bytes) : option (result bytes StateMachine) :=
  let seg := split_last [] s in
  let invalid := Err (lit "invalid state machine: " ++ s) in
  let numeric (c : Z -> StateMachine) :=
    Some (match parse_u32 seg with Some id => Ok (c id) | None => invalid end) in
  let named (c : ConsensusStateId -> StateMachine) :=
    (fun id => Ok (c id)) <$> id4_copy_from_slice seg in
  if starts_with (lit "EVM-") s then numeric Evm
  else if starts_with (lit "POLKADOT-") s then numeric Polkadot
  else if starts_with (lit "KUSAMA-") s then numeric Kusama
  else if starts_with (lit "SUBSTRATE-") s then named Substrate
  else if starts_with (lit "TNDRMINT-") s then named Tendermint
  else Some (Err (lit "Unknown state machine: " ++ s)).

(** ** Lemmas *)

Lemma digit_byte_val d : 0 <= d < 10 -> byte_val (digit_byte d) = 48 + d.
Proof. intros. unfold digit_byte. rewrite byte_val_of_Z. apply Z.mod_small. lia. Qed.

Lemma byte_digit_digit d : 0 <= d < 10 -> byte_digit (digit_byte d) = Some d.
Proof.
  intros. unfold byte_digit. rewrite digit_byte_val by done.
  destruct (_ && _) eqn:E; [f_equal; lia|lia].
Qed.

Definition is_digit (x : byte) : bool := bool_decide (is_Some (byte_digit x)).

Lemma digit_byte_is_digit d : 0 <= d < 10 -> is_digit (digit_byte d).
Proof. intros. apply bool_decide_pack. rewrite byte_digit_digit by done. eauto. Qed.

Lemma show_dec_go_app fuel n acc :
  show_dec_go fuel n acc = show_dec_go fuel n [] ++ acc.
Proof.
  revert n acc; induction fuel as [|k IH]; intros n acc; cbn [show_dec_go]; [done|].
  destruct (n <? 10); [done|].
  rewrite IH, (IH _ [_]), <- app_assoc. done.
Qed.

Lemma show_dec_go_digits fuel n acc :
  0 <= n -> Forall is_digit acc -> Forall is_digit (show_dec_go fuel n acc).
Proof.
  revert n acc; induction fuel as [|k IH]; intros n acc Hn Ha; cbn [show_dec_go]; [done|].
  assert (Forall is_digit (digit_byte (n mod 10) :: acc)).
  { constructor; [|done]. apply digit_byte_is_digit. apply Z.mod_pos_bound. lia. }
  destruct (n <? 10); [done|]. apply IH; [|done]. apply Z.div_pos; lia.
Qed.

Lemma show_dec_digits n : 0 <= n -> Forall is_digit (show_dec n).
Proof. intros. by apply show_dec_go_digits. Qed.

Lemma show_dec_go_nonempty k n acc : show_dec_go (S k) n acc <> [].
Proof.
  cbn [show_dec_go]. destruct (n <? 10); [done|].
  rewrite show_dec_go_app. intros E. by apply app_eq_nil in E as [_ ?].
Qed.

Lemma show_dec_nonempty n : show_dec n <> [].
Proof. apply show_dec_go_nonempty. Qed.

Lemma parse_u32_go_app acc l x :
  parse_u32_go acc (l ++ [x]) = (parse_u32_go acc l) ≫= (fun v => parse_u32_go v [x]).
Proof.
  revert acc; induction l as [|y l IH]; intros acc; simpl; [done|].
  destruct (byte_digit y); [|done]. destruct (_ <=? _); [apply IH|done].
Qed.

Lemma parse_show_dec_go fuel n :
  0 <= n <= u32_max -> n < 10 ^ Z.of_nat fuel ->
  parse_u32_go 0 (show_dec_go fuel n []) = Some n.
Proof.
  revert n; induction fuel as [|k IH]; intros n Hn Hf.
  - change (10 ^ Z.of_nat 0) with 1 in Hf. cbn. f_equal; lia.
  - cbn [show_dec_go].
    assert (0 <= n mod 10 < 10) by (apply Z.mod_pos_bound; lia).
    destruct (Z.ltb_spec n 10).
    + cbn [parse_u32_go]. rewrite byte_digit_digit by done.
      rewrite Z.mod_small by lia. destruct (Z.leb_spec (0 * 10 + n) u32_max); [|lia].
      f_equal; lia.
    + rewrite show_dec_go_app, parse_u32_go_app.
      rewrite Nat2Z.inj_succ, Z.pow_succ_r in Hf by lia.
      pose proof (Z.div_mod n 10 ltac:(lia)) as Hdm.
      rewrite IH; [|lia|apply Z.div_lt_upper_bound; lia].
      cbn [mbind option_bind parse_u32_go]. rewrite byte_digit_digit by done.
      replace (n / 10 * 10 + n mod 10) with n by lia.
      destruct (Z.leb_spec n u32_max); [done|lia].
Qed.

Lemma digit_not_plus x : is_digit x -> x <> Byte.x2b.
Proof. intros H ->. by vm_compute in H. Qed.

Lemma digit_not_dash x : is_digit x -> x <> Byte.x2d.
Proof. intros H ->. by vm_compute in H. Qed.

Lemma parse_show_dec n : is_u32 n -> parse_u32 (show_dec n) = Some n.
Proof.
  intros Hn. pose proof (show_dec_digits n ltac:(unfold is_u32 in Hn; lia)) as Hd.
  assert (parse_u32_go 0 (show_dec n) = Some n) as Hp.
  { apply parse_show_dec_go; [done|]. unfold is_u32, u32_max in Hn. lia. }
  unfold parse_u32. destruct (show_dec n) as [|x l] eqn:E.
  - by apply show_dec_nonempty in E.
  - apply Forall_cons in Hd as [Hx _].
    rewrite decide_False by (by apply digit_not_plus). done.
Qed.

(** The segment after the last dash of [p-q] is [q] when [q] has no dash. *)
Lemma split_last_app cur p q :
  Byte.x2d ∉ q -> split_last cur (p ++ Byte.x2d :: q) = q.
Proof.
  intros Hq. revert cur; induction p as [|x p IH]; intros cur; cbn [app split_last].
  - rewrite decide_True by done.
    assert (forall c, split_last c q = c ++ q) as Hgo; [|by rewrite Hgo].
    induction q as [|y q IHq]; intros c; cbn [split_last].
    + by rewrite app_nil_r.
    + apply not_elem_of_cons in Hq as [Hy Hq].
      rewrite decide_False, IHq, <- app_assoc by done. done.
  - case_decide; apply IH.
Qed.

Lemma split_last_prefix p q :
  last p = Some Byte.x2d -> Byte.x2d ∉ q -> split_last [] (p ++ q) = q.
Proof.
  intros Hp Hq. destruct (last_Some p Byte.x2d) as [H _].
  destruct (H Hp) as [p' ->]. rewrite <- app_assoc. by apply split_last_app.
Qed.

(** With a dash in what follows a prefix, the last segment is shorter. *)
Lemma split_last_short cur p q :
  Byte.x2d ∈ q -> (length (split_last cur (p ++ q)) < length q)%nat.
Proof.
  intros (q1 & q2 & -> & Hq)%list_elem_of_split_r. rewrite app_assoc, split_last_app by done.
  rewrite length_app. cbn. lia.
Qed.

Lemma digits_no_dash l : Forall is_digit l -> Byte.x2d ∉ l.
Proof.
  intros Hl Hin. eapply Forall_forall in Hl; [|exact Hin].
  by apply digit_not_dash in Hl.
Qed.

Lemma from_utf8_some l v : from_utf8 l = Some v -> v = l.
Proof. unfold from_utf8. destruct (utf8_valid l); naive_solver. Qed.

Lemma starts_with_app p l : starts_with p (p ++ l) = true.
Proof. apply bool_decide_eq_true. by exists l. Qed.

Arguments show_dec : simpl never.

(** The identifier of a named variant, if any. *)
Definition named_id (m : StateMachine) : bytes :=
  match m with
  | Substrate i | Tendermint i => id4_bytes i
  | _ => []
  end.

Lemma id4_copy_bytes i : id4_copy_from_slice (id4_bytes i) = Some i.
Proof. by destruct i as [[[a b] c] d]. Qed.

Lemma id4_copy_none v : id4_copy_from_slice v = None <-> length v <> 4%nat.
Proof.
  destruct v as [|a [|b [|c [|d [|e v]]]]]; simpl; split; try done; lia.
Qed.

Lemma starts_with_inv p l : starts_with p l = true -> exists k, l = p ++ k.
Proof. intros H. by apply bool_decide_eq_true in H as [k ->]; exists k. Qed.

(** *** Numeric identifiers *)

Definition is_numeric (m : StateMachine) : bool :=
  match m with Evm _ | Polkadot _ | Kusama _ => true | _ => false end.

Definition family (m : StateMachine) : bytes :=
  match m with
  | Evm _ => lit "EVM"
  | Polkadot _ => lit "POLKADOT"
  | Kusama _ => lit "KUSAMA"
  | Substrate _ => lit "SUBSTRATE"
  | Tendermint _ => lit "TNDRMINT"
  end.

Definition numeric_id (m : StateMachine) : Z :=
  match m with Evm i | Polkadot i | Kusama i => i | _ => 0 end.

Lemma to_string_numeric m :
  is_numeric m -> to_string m = Some (family m ++ Byte.x2d :: show_dec (numeric_id m)).
Proof. by destruct m. Qed.

Lemma show_dec_inj x y : is_u32 x -> is_u32 y -> show_dec x = show_dec y -> x = y.
Proof.
  intros Hx Hy E. apply (f_equal parse_u32) in E.
  rewrite !parse_show_dec in E by done. by injection E.
Qed.

Lemma numeric_eq m m' :
  is_numeric m -> is_numeric m' -> family m = family m' ->
  numeric_id m = numeric_id m' -> m = m'.
Proof. destruct m, m'; try done; simpl; congruence. Qed.

(** No family name contains a dash, a digit or a zero byte. *)
Lemma family_bytes m :
  Forall (fun x => x <> Byte.x2d /\ is_digit x = false /\ x <> Byte.x00) (family m).
Proof. destruct m; apply (bool_decide_unpack _); vm_compute; exact I. Qed.

Lemma family_head m : exists x l, family m = x :: l /\ is_digit x = false.
Proof. by destruct m; eexists _, _. Qed.

Lemma is_digit_not_zero x : is_digit x -> x <> Byte.x00.
Proof. intros H ->. by vm_compute in H. Qed.

Lemma to_string_no_zero m s :
  is_numeric m -> wf_StateMachine m -> to_string m = Some s ->
  Forall (fun x => x <> Byte.x00) s.
Proof.
  intros Hn Hwf Hs. rewrite to_string_numeric in Hs by done. apply (inj Some) in Hs as <-.
  apply Forall_app; split; [|constructor; [done|]].
  - eapply Forall_impl; [apply family_bytes|]. by intros x (_ & _ & ?).
  - eapply Forall_impl; [apply show_dec_digits|by apply is_digit_not_zero].
    destruct m; try done; apply Hwf.
Qed.

(** Two numeric identifiers printed one after the other can be told apart. *)
Lemma to_string_pair_inj a b c d sa sb sc sd :
  is_numeric a -> is_numeric b -> is_numeric c -> is_numeric d ->
  wf_StateMachine a -> wf_StateMachine b -> wf_StateMachine c -> wf_StateMachine d ->
  to_string a = Some sa -> to_string b = Some sb ->
  to_string c = Some sc -> to_string d = Some sd ->
  sa ++ sb = sc ++ sd -> a = c /\ b = d.
Proof.
  intros Na Nb Nc Nd Wa Wb Wc Wd Ha Hb Hc Hd E.
  assert (forall m, is_numeric m -> wf_StateMachine m -> is_u32 (numeric_id m)) as Hid.
  { intros []; done. }
  rewrite to_string_numeric in Ha, Hb, Hc, Hd by done.
  apply (inj Some) in Ha as <-, Hb as <-, Hc as <-, Hd as <-.
  assert (forall m, Forall (fun x => ~ x = Byte.x2d) (family m)) as Hdash.
  { intros m. eapply Forall_impl; [apply family_bytes|]. by intros x (? & _). }
  assert (forall m, is_numeric m -> wf_StateMachine m ->
            Forall (fun x => ~ is_digit x = false) (show_dec (numeric_id m))) as Hdig.
  { intros m Hm Wm. eapply Forall_impl; [apply show_dec_digits, Hid; done|].
    intros x Hx Hf. simpl in Hx. by rewrite Hf in Hx. }
  rewrite <- !app_assoc in E. simpl in E.
  apply (app_split_first (fun x => x = Byte.x2d)) in E as (Fa & _ & E); [|done..].
  destruct (family_head b) as (x & l & Fb & Hx), (family_head d) as (y & k & Fd & Hy).
  rewrite Fb, Fd in E. cbn [app] in E.
  apply (app_split_first (fun x => is_digit x = false)) in E as (Ia & -> & E);
    [|by auto..].
  assert (family b ++ Byte.x2d :: show_dec (numeric_id b)
          = family d ++ Byte.x2d :: show_dec (numeric_id d)) as E'.
  { rewrite Fb, Fd. simpl. by rewrite E. }
  apply (app_split_first (fun x => x = Byte.x2d)) in E' as (Fbd & _ & Ib); [|done..].
  split; apply numeric_eq; auto using show_dec_inj.
Qed.

(** Display gives a string exactly when a named identifier is valid UTF-8. *)
Lemma to_string_some m :
  is_Some (to_string m) <-> utf8_valid (named_id m) = true.
Proof.
  destruct m as [i|i|i|i|i]; simpl; rewrite ?fmap_is_Some; unfold from_utf8;
    try (split; [done|eauto]).
  all: destruct (utf8_valid _); split; try discriminate; try (intros [? ?]; discriminate); eauto.
Qed.

(** ** Properties *)

(** C39: parsing the textual form of a state machine gives it back, for every
    numeric identifier that is a u32 and every named identifier that has a
    textual form and contains no dash. For a named identifier with a dash there is
    no round trip: parsing its textual form panics. *)
Theorem display_from_str_roundtrip m s :
  wf_StateMachine m -> to_string m = Some s ->
  from_str s = if decide (Byte.x2d ∈ named_id m) then None else Some (Ok m).
Proof.
  intros Hwf Hs. destruct m as [i|i|i|i|i]; cbn [wf_StateMachine to_string named_id] in Hwf, Hs |- *.
  1-3: rewrite decide_False by apply not_elem_of_nil; apply (inj Some) in Hs as <-; unfold from_str;
    rewrite split_last_prefix, parse_show_dec
      by (done || apply digits_no_dash, show_dec_digits, Hwf); done.
  all: apply fmap_Some in Hs as (v & Hv & ->); apply from_utf8_some in Hv as ->; unfold from_str; case_decide as Hd.
  2, 4: rewrite split_last_prefix, id4_copy_bytes by done; done.
  1: pose proof (split_last_short [] (lit "SUBSTRATE-") _ Hd) as Hl.
  2: pose proof (split_last_short [] (lit "TNDRMINT-") _ Hd) as Hl.
  all: set (seg := split_last [] _) in *; assert (id4_copy_from_slice seg = None) as E
    by (apply id4_copy_none; destruct i as [[[a b] c] d]; cbn in Hl; lia); cbn; by rewrite E.
Qed.

(** [from_str] never returns an error for an identifier that has the right
    family prefix of a named state machine: it parses a segment of four bytes and
    panics on every other one. *)
Theorem from_str_named_panics s :
  starts_with (lit "SUBSTRATE-") s || starts_with (lit "TNDRMINT-") s = true ->
  from_str s = None <-> length (split_last [] s) <> 4%nat.
Proof.
  intros Hp. rewrite <- id4_copy_none.
  apply orb_true_iff in Hp as [Hp|Hp]; apply starts_with_inv in Hp as [k ->].
  all: set (seg := split_last [] _); unfold from_str; fold seg.
  - change (starts_with (lit "SUBSTRATE-") (lit "SUBSTRATE-" ++ k)) with true.
    apply (fmap_None (fun id => Ok (Substrate id))).
  - change (starts_with (lit "TNDRMINT-") (lit "TNDRMINT-" ++ k)) with true.
    apply (fmap_None (fun id => Ok (Tendermint id))).
Qed.

(** Substrate(b"ab-c") prints but its text does not parse back: the parser
    panics. *)
Lemma from_str_named_panics_witness :
  from_str (lit "SUBSTRATE-ab-c") = None <->
  length (split_last [] (lit "SUBSTRATE-ab-c")) <> 4%nat.
Proof. apply from_str_named_panics. vm_compute. reflexivity. Defined.

Lemma display_from_str_roundtrip_witness :
  from_str (lit "SUBSTRATE-hybr") =
    Some (Ok (Substrate (Byte.x68, Byte.x79, Byte.x62, Byte.x72))).
Proof.
  rewrite (display_from_str_roundtrip (Substrate (Byte.x68, Byte.x79, Byte.x62, Byte.x72))); [reflexivity|done|reflexivity].
Defined.
