(* ===== verification/Router.v ===== *)
(** * Requests and responses

    The message types of [ismp/core/src/router.rs], their accessors, timeouts and
    the byte encoding that is hashed into commitments. [encode] prints state
    machine identifiers, which can panic: [None]. *)

From S2P Require Import Prelude StateMachine.

Record PostRequest : Type := mkPostRequest {
  post_source : StateMachine;
  post_dest : StateMachine;
  post_nonce : Z;
  post_from : bytes;
  post_to : bytes;
  post_timeout_timestamp : Z;
  post_body : bytes
}.

Record GetRequest : Type := mkGetRequest {
  get_source : StateMachine;
  get_dest : StateMachine;
  get_nonce : Z;
  get_from : bytes;
  get_keys : list bytes;
  get_height : Z;
  get_context : bytes;
  get_timeout_timestamp : Z
}.

Inductive Request : Type :=
| RequestPost (p : PostRequest)
| RequestGet (g : GetRequest).

Record PostResponse : Type := mkPostResponse {
  pr_post : PostRequest;
  pr_response : bytes;
  pr_timeout_timestamp : Z
}.

Record StorageValue : Type := mkStorageValue {
  sv_key : bytes;
  sv_value : option bytes
}.

Record GetResponse : Type := mkGetResponse {
  gr_get : GetRequest;
  gr_values : list StorageValue
}.

Inductive Response : Type :=
| ResponsePost (p : PostResponse)
| ResponseGet (g : GetResponse).

Inductive RequestResponse : Type :=
| RRRequest (l : list Request)
| RRResponse (l : list Response).

Inductive Timeout : Type :=
| TimeoutRequest (r : Request)
| TimeoutResponse (r : PostResponse).

#[global] Instance PostRequest_eq_dec : EqDecision PostRequest.
Proof. solve_decision. Defined.
#[global] Instance GetRequest_eq_dec : EqDecision GetRequest.
Proof. solve_decision. Defined.
#[global] Instance Request_eq_dec : EqDecision Request.
Proof. solve_decision. Defined.
#[global] Instance PostResponse_eq_dec : EqDecision PostResponse.
Proof. solve_decision. Defined.
#[global] Instance StorageValue_eq_dec : EqDecision StorageValue.
Proof. solve_decision. Defined.
#[global] Instance GetResponse_eq_dec : EqDecision GetResponse.
Proof. solve_decision. Defined.
#[global] Instance Response_eq_dec : EqDecision Response.
Proof. solve_decision. Defined.

(** ** Timeouts *)

(** Zero means no timeout. *)
Definition get_timeout (timeout_timestamp : Z) : Duration :=
  if timeout_timestamp =? 0 then from_secs u64_max else from_secs timeout_timestamp.

Definition post_timeout (p : PostRequest) : Duration :=
  get_timeout (post_timeout_timestamp p).
Definition post_timed_out (p : PostRequest) (proof_timestamp : Duration) : bool :=
  post_timeout p <=? proof_timestamp.

Definition get_request_timeout (g : GetRequest) : Duration :=
  get_timeout (get_timeout_timestamp g).

(** ** Requests *)

Definition request_source_chain (r : Request) : StateMachine :=
  match r with RequestGet g => get_source g | RequestPost p => post_source p end.

Definition request_source_module (r : Request) : bytes :=
  match r with RequestGet g => get_from g | RequestPost p => post_from p end.

Definition request_destination_module (r : Request) : bytes :=
  match r with RequestGet g => get_from g | RequestPost p => post_to p end.

Definition request_dest_chain (r : Request) : StateMachine :=
  match r with RequestGet g => get_dest g | RequestPost p => post_dest p end.

Definition request_nonce (r : Request) : Z :=
  match r with RequestGet g => get_nonce g | RequestPost p => post_nonce p end.

Definition request_body (r : Request) : option bytes :=
  match r with RequestGet _ => None | RequestPost p => Some (post_body p) end.

Definition request_keys (r : Request) : option (list bytes) :=
  match r with RequestPost _ => None | RequestGet g => Some (get_keys g) end.

Definition request_timeout (r : Request) : Duration :=
  get_timeout (match r with
               | RequestPost p => post_timeout_timestamp p
               | RequestGet g => get_timeout_timestamp g
               end).

Definition request_timed_out (r : Request) (proof_timestamp : Duration) : bool :=
  request_timeout r <=? proof_timestamp.

(** The encoding of a request: the state machine names, the integers big-endian
    on eight bytes, and the byte fields, one after the other. *)
Definition encode_request (r : Request) : option bytes :=
  match r with
  | RequestPost p =>
      src ← to_string (post_source p);
      dst ← to_string (post_dest p);
      Some (src ++ dst ++ to_be_bytes 8 (post_nonce p)
              ++ to_be_bytes 8 (post_timeout_timestamp p)
              ++ post_from p ++ post_to p ++ post_body p)
  | RequestGet g =>
      src ← to_string (get_source g);
      dst ← to_string (get_dest g);
      Some (src ++ dst ++ to_be_bytes 8 (get_nonce g)
              ++ to_be_bytes 8 (get_height g)
              ++ to_be_bytes 8 (get_timeout_timestamp g)
              ++ get_from g ++ concat (get_keys g) ++ get_context g)
  end.

(** ** Responses *)

Definition pr_request (r : PostResponse) : Request := RequestPost (pr_post r).
Definition pr_source_module (r : PostResponse) : bytes := post_to (pr_post r).
Definition pr_destination_module (r : PostResponse) : bytes := post_from (pr_post r).
Definition pr_source_chain (r : PostResponse) : StateMachine := post_dest (pr_post r).
Definition pr_dest_chain (r : PostResponse) : StateMachine := post_source (pr_post r).
Definition pr_nonce (r : PostResponse) : Z := post_nonce (pr_post r).
Definition pr_timeout (r : PostResponse) : Duration :=
  get_timeout (pr_timeout_timestamp r).
Definition pr_timed_out (r : PostResponse) (proof_timestamp : Duration) : bool :=
  pr_timeout r <=? proof_timestamp.

Definition encode_post_response (r : PostResponse) : option bytes :=
  let req := pr_post r in
  src ← to_string (post_source req);
  dst ← to_string (post_dest req);
  Some (src ++ dst ++ to_be_bytes 8 (post_nonce req)
          ++ to_be_bytes 8 (post_timeout_timestamp req)
          ++ post_from req ++ post_to req ++ post_body req
          ++ pr_response r ++ to_be_bytes 8 (pr_timeout_timestamp r)).

Definition encode_get_response (r : GetResponse) : option bytes :=
  request ← encode_request (RequestGet (gr_get r));
  let values :=
    foldl (fun acc v => acc ++ (sv_key v ++ default [] (sv_value v))) [] (gr_values r) in
  Some (request ++ values).

Definition response_request (r : Response) : Request :=
  match r with
  | ResponsePost p => RequestPost (pr_post p)
  | ResponseGet g => RequestGet (gr_get g)
  end.

Definition response_destination_module (r : Response) : bytes :=
  match r with
  | ResponseGet g => get_from (gr_get g)
  | ResponsePost p => post_from (pr_post p)
  end.

Definition response_source_chain (r : Response) : StateMachine :=
  match r with
  | ResponseGet g => get_dest (gr_get g)
  | ResponsePost p => post_dest (pr_post p)
  end.

Definition response_dest_chain (r : Response) : StateMachine :=
  match r with
  | ResponseGet g => get_source (gr_get g)
  | ResponsePost p => post_source (pr_post p)
  end.

Definition response_nonce (r : Response) : Z :=
  match r with
  | ResponseGet g => get_nonce (gr_get g)
  | ResponsePost p => post_nonce (pr_post p)
  end.

Definition response_timed_out (r : Response) (proof_timestamp : Duration) : bool :=
  match r with
  | ResponseGet g => get_request_timeout (gr_get g) <=? proof_timestamp
  | ResponsePost p => pr_timeout p <=? proof_timestamp
  end.

Definition response_response (r : Response) : option bytes :=
  match r with ResponseGet _ => None | ResponsePost p => Some (pr_response p) end.

Definition encode_response (r : Response) : option bytes :=
  match r with
  | ResponsePost p => encode_post_response p
  | ResponseGet g => encode_get_response g
  end.

(** The integer fields of a request are of their width. *)
Definition wf_PostRequest (p : PostRequest) : Prop :=
  wf_StateMachine (post_source p) /\ wf_StateMachine (post_dest p) /\
  is_u64 (post_nonce p) /\ is_u64 (post_timeout_timestamp p).

(** ** Lemmas *)

Lemma request_timed_out_mono r t t' :
  t <= t' -> request_timed_out r t = true -> request_timed_out r t' = true.
Proof. unfold request_timed_out. rewrite !Z.leb_le. lia. Qed.

Lemma get_timeout_nonneg t : is_u64 t -> 0 <= get_timeout t.
Proof.
  unfold get_timeout, from_secs, nanos_per_sec, is_u64, u64_max.
  destruct (t =? 0); lia.
Qed.

(** A request whose timeout field is zero times out at no earlier time than
    the end of the [u64] range of seconds. *)
Lemma get_timeout_zero d : (get_timeout 0 <=? d) = true <-> u64_max <= as_secs d.
Proof.
  unfold get_timeout. cbn [Z.eqb]. rewrite Z.leb_le. split; intros H.
  - unfold as_secs, from_secs in *. apply Z.div_le_lower_bound; [done|lia].
  - etransitivity; [|apply from_as_secs_le]. by apply from_secs_le.
Qed.

(** ** Properties *)

(** the encoding of a POST request determines every field of it, its two
    chains included, among the requests between chains with numeric identifiers,
    with nonces below [2 ^ 56] and module identifiers of the same lengths. *)
Theorem encode_post_injective p q :
  is_numeric (post_source p) -> is_numeric (post_dest p) ->
  is_numeric (post_source q) -> is_numeric (post_dest q) ->
  wf_PostRequest p -> wf_PostRequest q ->
  post_nonce p < 2 ^ 56 -> post_nonce q < 2 ^ 56 ->
  length (post_from p) = length (post_from q) ->
  length (post_to p) = length (post_to q) ->
  encode_request (RequestPost p) = encode_request (RequestPost q) -> p = q.
Proof.
  destruct p as [s d n f t ts b], q as [s' d' n' f' t' ts' b']; simpl.
  intros Ns Nd Ns' Nd' (Ws & Wd & Wn & Wt) (Ws' & Wd' & Wn' & Wt') Hn Hn' Hf Ht E.
  simpl in *.
  destruct (to_string s) as [ss|] eqn:Es; [|by rewrite to_string_numeric in Es].
  destruct (to_string d) as [sd|] eqn:Ed; [|by rewrite to_string_numeric in Ed].
  destruct (to_string s') as [ss'|] eqn:Es'; [|by rewrite to_string_numeric in Es'].
  destruct (to_string d') as [sd'|] eqn:Ed'; [|by rewrite to_string_numeric in Ed'].
  cbn in E. apply (inj Some) in E. unfold is_u64, u64_max in *.
  assert (ss ++ sd = ss' ++ sd') as Ep.
  { destruct (to_be_bytes_small n) as [l Hl]; [lia|].
    destruct (to_be_bytes_small n') as [l' Hl']; [lia|].
    rewrite Hl, Hl' in E. cbn [app] in E. rewrite !app_assoc in E.
    apply (app_split_first (fun x => x = Byte.x00)) in E as (? & _ & _); try done;
      apply Forall_app; split; by eapply to_string_no_zero; [| |eassumption]. }
  destruct (to_string_pair_inj s d s' d' ss sd ss' sd') as [-> ->]; try done.
  assert (ss = ss' /\ sd = sd') as [-> ->] by (split; congruence).
  do 2 apply (inj (app _)) in E.
  apply app_split_eq in E as [En E]; [|by rewrite !length_to_be_bytes].
  apply app_split_eq in E as [Ets E]; [|by rewrite !length_to_be_bytes].
  apply app_split_eq in E as [-> E]; [|done].
  apply app_split_eq in E as [-> ->]; [|done].
  apply to_be_bytes_inj in En as ->; [|lia..].
  apply to_be_bytes_inj in Ets as ->; [done|lia..].
Qed.

(** nothing separates the byte fields of the encoding: moving a byte from the
    receiving module's identifier to the body of a POST request gives a different
    request with the same encoding, hence the same commitment. *)
Theorem encode_post_ambiguous p x :
  let q := mkPostRequest (post_source p) (post_dest p) (post_nonce p) (post_from p)
             (post_to p) (post_timeout_timestamp p) (x :: post_body p) in
  let q' := mkPostRequest (post_source p) (post_dest p) (post_nonce p) (post_from p)
             (post_to p ++ [x]) (post_timeout_timestamp p) (post_body p) in
  q <> q' /\ encode_request (RequestPost q) = encode_request (RequestPost q').
Proof.
  intros q q'. split.
  - intros E. apply (f_equal (fun r => length (post_body r))) in E. simpl in E. lia.
  - simpl. destruct (to_string (post_source p)); [|done].
    destruct (to_string (post_dest p)); [|done]. cbn.
    by rewrite <- (app_assoc (post_to p)).
Qed.

Definition sample_post (body : bytes) : PostRequest :=
  mkPostRequest (Evm 1) (Polkadot 3367) 7 (lit "from") (lit "to") 0 body.

Lemma encode_post_injective_witness :
  sample_post (lit "a") = sample_post (lit "a").
Proof.
  apply encode_post_injective; try reflexivity; try exact I;
    try (unfold wf_PostRequest, is_u64, u64_max, wf_StateMachine, is_u32, u32_max;
         simpl; lia).
Defined.
