(* ===== verification/Messaging.v ===== *)
(** * Messages, events and errors

    The data of [ismp/core/src/consensus.rs], [messaging.rs], [events.rs],
    [error.rs], [dispatcher.rs] and [handlers.rs], and the commitments of
    [messaging.rs]: Keccak-256 of the encodings of [Router]. The hash function is
    a parameter, the [Keccak256] class. *)

From S2P Require Import Prelude StateMachine Router.

(** A 256-bit hash. *)
Abbreviation H256 := (list Init.Byte.byte) (only parsing).

(** ** State machines and their commitments ([consensus.rs]) *)

Record StateCommitment : Type := mkStateCommitment {
  sc_timestamp : Z;
  sc_overlay_root : option H256;
  sc_state_root : H256
}.

(** [StateCommitment::timestamp] *)
Definition commitment_timestamp (c : StateCommitment) : Duration :=
  from_secs (sc_timestamp c).

Record StateMachineId : Type := mkStateMachineId {
  smi_state_id : StateMachine;
  smi_consensus_state_id : ConsensusStateId
}.

Record StateMachineHeight : Type := mkStateMachineHeight {
  smh_id : StateMachineId;
  smh_height : Z
}.

Record IntermediateState : Type := mkIntermediateState {
  is_height : StateMachineHeight;
  is_commitment : StateCommitment
}.

Record StateCommitmentHeight : Type := mkStateCommitmentHeight {
  sch_commitment : StateCommitment;
  sch_height : Z
}.

(** [BTreeMap<StateMachine, Vec<StateCommitmentHeight>>] in key order. *)
Definition VerifiedCommitments : Type :=
  list (StateMachine * list StateCommitmentHeight).

#[global] Instance StateCommitment_eq_dec : EqDecision StateCommitment.
Proof. solve_decision. Defined.
#[global] Instance StateMachineId_eq_dec : EqDecision StateMachineId.
Proof. solve_decision. Defined.
#[global] Instance StateMachineHeight_eq_dec : EqDecision StateMachineHeight.
Proof. solve_decision. Defined.
#[global] Instance StateCommitmentHeight_eq_dec : EqDecision StateCommitmentHeight.
Proof. solve_decision. Defined.

#[global] Program Instance StateMachineId_countable : Countable StateMachineId :=
  inj_countable' (fun i => (smi_state_id i, smi_consensus_state_id i))
                 (fun x => mkStateMachineId x.1 x.2) _.
Next Obligation. by intros []. Qed.

#[global] Program Instance StateMachineHeight_countable : Countable StateMachineHeight :=
  inj_countable' (fun h => (smh_id h, smh_height h))
                 (fun x => mkStateMachineHeight x.1 x.2) _.
Next Obligation. by intros []. Qed.

(** ** Events ([events.rs]) *)

Record Meta : Type := mkMeta {
  meta_source : StateMachine;
  meta_dest : StateMachine;
  meta_nonce : Z
}.

Definition meta_of_request (r : Request) : Meta :=
  mkMeta (request_source_chain r) (request_dest_chain r) (request_nonce r).
Definition meta_of_response (r : Response) : Meta :=
  mkMeta (response_source_chain r) (response_dest_chain r) (response_nonce r).
Definition meta_of_post_response (r : PostResponse) : Meta :=
  mkMeta (pr_source_chain r) (pr_dest_chain r) (pr_nonce r).

Record StateMachineUpdated : Type := mkStateMachineUpdated {
  smu_state_machine_id : StateMachineId;
  smu_latest_height : Z
}.

Record StateCommitmentVetoed : Type := mkStateCommitmentVetoed {
  scv_height : StateMachineHeight;
  scv_fisherman : bytes
}.

Record RequestResponseHandled : Type := mkRequestResponseHandled {
  rrh_commitment : H256;
  rrh_relayer : bytes
}.

Record TimeoutHandled : Type := mkTimeoutHandled {
  th_commitment : H256;
  th_source : StateMachine;
  th_dest : StateMachine
}.

Inductive Event : Type :=
| EvStateMachineUpdated (e : StateMachineUpdated)
| EvStateCommitmentVetoed (e : StateCommitmentVetoed)
| EvPostRequest (p : PostRequest)
| EvPostResponse (p : PostResponse)
| EvGetResponse (g : GetResponse)
| EvGetRequest (g : GetRequest)
| EvPostRequestHandled (e : RequestResponseHandled)
| EvPostResponseHandled (e : RequestResponseHandled)
| EvPostRequestTimeoutHandled (e : TimeoutHandled)
| EvPostResponseTimeoutHandled (e : TimeoutHandled)
| EvGetRequestHandled (e : RequestResponseHandled)
| EvGetRequestTimeoutHandled (e : TimeoutHandled).

#[global] Instance Meta_eq_dec : EqDecision Meta.
Proof. solve_decision. Defined.

(** ** Errors ([error.rs]) *)

Inductive Error : Type :=
| UnbondingPeriodElapsed (consensus_state_id : ConsensusStateId)
| ChallengePeriodNotElapsed (state_machine_id : StateMachineId)
    (update_time current_time : Duration)
| ConsensusStateNotFound (consensus_state_id : ConsensusStateId)
| StateCommitmentNotFound (height : StateMachineHeight)
| FrozenConsensusClient (consensus_state_id : ConsensusStateId)
| RequestCommitmentNotFound (meta : Meta)
| RequestVerificationFailed (meta : Meta)
| RequestTimeoutNotElapsed (meta : Meta)
    (timeout_timestamp state_machine_time : Duration)
| RequestTimeoutVerificationFailed (meta : Meta)
| ResponseVerificationFailed (meta : Meta)
| ConsensusProofVerificationFailed (id : ConsensusClientId)
| ExpiredConsensusClient (id : ConsensusClientId)
| CannotHandleMessage
| MembershipProofVerificationFailed (msg : bytes)
| NonMembershipProofVerificationFailed (msg : bytes)
| Custom (msg : bytes)
| CannotCreateAlreadyExistingConsensusClient (id : ConsensusClientId)
| InsufficientProofHeight
| ModuleNotFound (id : bytes)
| ConsensusStateIdNotRecognized (consensus_state_id : ConsensusStateId)
| ChallengePeriodNotConfigured (state_machine : StateMachineId)
| DuplicateConsensusStateId (consensus_state_id : ConsensusStateId)
| UnnbondingPeriodNotConfigured (consensus_state_id : ConsensusStateId)
| ModuleDispatchError (msg : bytes) (meta : Meta)
| UnknownRequest (meta : Meta)
| UnknownResponse (meta : Meta)
| UnsolicitedResponse (meta : Meta)
| RequestTimeout (meta : Meta)
| ResponseTimeout (response : Meta)
| DuplicateRequest (meta : Meta)
| DuplicateResponse (meta : Meta)
| RequestProofMetadataNotValid (meta : Meta)
| RequestProxyProhibited (meta : Meta)
| ResponseProxyProhibited (meta : Meta)
| InvalidRequestDestination (meta : Meta)
| InvalidResponseDestination (meta : Meta)
| InvalidResponseType (meta : Meta).

(** [anyhow::Error]: an ISMP error, or any message of a module. *)
Inductive AnyError : Type :=
| IsmpError (e : Error)
| AnyMessage (msg : bytes).

(** [impl From<Error> for anyhow::Error] *)
#[global] Instance From_Error_AnyError : From Error AnyError := IsmpError.

#[global] Instance Error_eq_dec : EqDecision Error.
Proof. solve_decision. Defined.

(** ** The [Debug] forms that appear in messages *)

Fixpoint debug_list (l : bytes) : bytes :=
  match l with
  | [] => []
  | [x] => show_dec (byte_val x)
  | x :: r => show_dec (byte_val x) ++ lit ", " ++ debug_list r
  end.

Definition debug_id4 (i : Id4) : bytes := lit "[" ++ debug_list (id4_bytes i) ++ lit "]".

Definition debug_StateMachine (m : StateMachine) : bytes :=
  match m with
  | Evm i => lit "Evm(" ++ show_dec i ++ lit ")"
  | Polkadot i => lit "Polkadot(" ++ show_dec i ++ lit ")"
  | Kusama i => lit "Kusama(" ++ show_dec i ++ lit ")"
  | Substrate i => lit "Substrate(" ++ debug_id4 i ++ lit ")"
  | Tendermint i => lit "Tendermint(" ++ debug_id4 i ++ lit ")"
  end.

Definition debug_StateMachineHeight (h : StateMachineHeight) : bytes :=
  lit "StateMachineHeight { id: StateMachineId { state_id: "
    ++ debug_StateMachine (smi_state_id (smh_id h))
    ++ lit ", consensus_state_id: "
    ++ debug_id4 (smi_consensus_state_id (smh_id h))
    ++ lit " }, height: " ++ show_dec (smh_height h) ++ lit " }".

(** ** Messages ([messaging.rs]) *)

Record Proof_ : Type := mkProof {
  proof_height : StateMachineHeight;
  proof_bytes : bytes
}.

Record ConsensusMessage : Type := mkConsensusMessage {
  cm_consensus_proof : bytes;
  cm_consensus_state_id : ConsensusStateId;
  cm_signer : bytes
}.

Record FraudProofMessage : Type := mkFraudProofMessage {
  fpm_proof_1 : bytes;
  fpm_proof_2 : bytes;
  fpm_consensus_state_id : ConsensusStateId
}.

Record CreateConsensusState : Type := mkCreateConsensusState {
  ccs_consensus_state : bytes;
  ccs_consensus_client_id : ConsensusClientId;
  ccs_consensus_state_id : ConsensusStateId;
  ccs_unbonding_period : Z;
  ccs_challenge_periods : list (StateMachine * Z);
  ccs_state_machine_commitments : list (StateMachineId * StateCommitmentHeight)
}.

Record RequestMessage : Type := mkRequestMessage {
  rm_requests : list PostRequest;
  rm_proof : Proof_;
  rm_signer : bytes
}.

Record ResponseMessage : Type := mkResponseMessage {
  rsm_datagram : RequestResponse;
  rsm_proof : Proof_;
  rsm_signer : bytes
}.

Definition rsm_requests (m : ResponseMessage) : list Request :=
  match rsm_datagram m with
  | RRResponse responses => response_request <$> responses
  | RRRequest requests => requests
  end.

Inductive TimeoutMessage : Type :=
| TMPost (requests : list Request) (timeout_proof : Proof_)
| TMPostResponse (responses : list PostResponse) (timeout_proof : Proof_)
| TMGet (requests : list Request).

Definition tm_requests (m : TimeoutMessage) : list Request :=
  match m with
  | TMPost requests _ | TMGet requests => requests
  | TMPostResponse responses _ => pr_request <$> responses
  end.

Definition tm_timeout_proof (m : TimeoutMessage) : result Error Proof_ :=
  match m with
  | TMPost _ timeout_proof => Ok timeout_proof
  | _ => Err (Custom (lit "Method should not be called on Get request"))
  end.

Inductive Message : Type :=
| MsgConsensus (m : ConsensusMessage)
| MsgFraudProof (m : FraudProofMessage)
| MsgRequest (m : RequestMessage)
| MsgResponse (m : ResponseMessage)
| MsgTimeout (m : TimeoutMessage).

(** ** Handler results ([handlers.rs], [module.rs]) *)

Definition DispatchResult : Type := result AnyError Event.

Inductive MessageResult : Type :=
| ConsensusMessageResult (events : list Event)
| FrozenClient (id : ConsensusStateId)
| RequestResult (results : list DispatchResult)
| ResponseResult (results : list DispatchResult)
| TimeoutResult (results : list DispatchResult).

Record ConsensusClientCreatedResult : Type := mkConsensusClientCreatedResult {
  ccr_consensus_client_id : ConsensusClientId;
  ccr_consensus_state_id : ConsensusStateId
}.

(** ** Outgoing messages ([dispatcher.rs]) *)

Record DispatchPost : Type := mkDispatchPost {
  dp_dest : StateMachine;
  dp_from : bytes;
  dp_to : bytes;
  dp_timeout : Z;
  dp_body : bytes
}.

Record DispatchGet : Type := mkDispatchGet {
  dg_dest : StateMachine;
  dg_from : bytes;
  dg_keys : list bytes;
  dg_height : Z;
  dg_context : bytes;
  dg_timeout : Z
}.

Inductive DispatchRequest : Type :=
| DispatchPostRequest (p : DispatchPost)
| DispatchGetRequest (g : DispatchGet).

Record FeeMetadata (A B : Type) : Type := mkFeeMetadata {
  fm_payer : A;
  fm_fee : B
}.
Arguments mkFeeMetadata {A B}.
Arguments fm_payer {A B}.
Arguments fm_fee {A B}.

(** ** Commitments ([messaging.rs]) *)

Class Keccak256 : Type := keccak256 : bytes -> H256.

Section hashing.
Context `{Keccak256}.

Definition hash_request (r : Request) : option H256 := keccak256 <$> encode_request r.

Definition hash_post_response (r : PostResponse) : option H256 :=
  keccak256 <$> encode_post_response r.

Definition hash_get_response (r : GetResponse) : option H256 :=
  keccak256 <$> encode_get_response r.

Definition hash_response (r : Response) : option H256 :=
  match r with
  | ResponsePost p => hash_post_response p
  | ResponseGet g => hash_get_response g
  end.

(** A commitment exists exactly when both chains have a textual form. *)
Lemma hash_request_some r :
  is_Some (hash_request r) <->
  utf8_valid (named_id (request_source_chain r)) = true /\
  utf8_valid (named_id (request_dest_chain r)) = true.
Proof.
  rewrite <- !to_string_some. unfold hash_request. rewrite fmap_is_Some.
  destruct r as [p|g]; simpl.
  - destruct (to_string (post_source p)), (to_string (post_dest p)); simpl;
      split; try (intros [? ?]; done); try (intros [[? ?] [? ?]]; done); eauto.
  - destruct (to_string (get_source g)), (to_string (get_dest g)); simpl;
      split; try (intros [? ?]; done); try (intros [[? ?] [? ?]]; done); eauto.
Qed.

(** A response has a commitment when its request has one. *)
Lemma hash_response_some r :
  is_Some (hash_response r) <-> is_Some (hash_request (response_request r)).
Proof.
  unfold hash_response, hash_post_response, hash_get_response, hash_request.
  destruct r as [p|g]; rewrite !fmap_is_Some; simpl.
  - unfold encode_post_response.
    destruct (to_string (post_source (pr_post p))),
      (to_string (post_dest (pr_post p))); simpl; split; intros [? ?]; done || by eexists.
  - unfold encode_get_response. simpl.
    destruct (to_string (get_source (gr_get g))),
      (to_string (get_dest (gr_get g))); simpl; split; intros [? ?]; done || by eexists.
Qed.

End hashing.
