(* ===== verification/Host.v ===== *)
(** * The host interface

    The traits through which the ISMP handlers reach the chain they run on:
    [IsmpHost] ([host.rs]), [ConsensusClient] and [StateMachineClient]
    ([consensus.rs]), [IsmpModule] ([module.rs]) and [IsmpRouter] ([router.rs]).

    A host has a state [St]. What the trait reads through [&self] without side
    effects is a function of the state; the methods that write, and those that
    hash a message (and so can panic), are programs of the monad [M]. The host's
    configuration (its own identifier, its coprocessor, its consensus clients and
    its router) does not depend on the state. Trait objects are records of
    functions; [None] is a panic, or a verification that does not return. *)

From S2P Require Import Prelude StateMachine Router Messaging.

(** ** Clients, modules and routers *)

Record StateMachineClient (St : Type) : Type := mkStateMachineClient {
  verify_membership : St -> RequestResponse -> StateCommitment -> Proof_ ->
    option (result Error unit);
  receipts_state_trie_key : RequestResponse -> option (list bytes);
  verify_state_proof : St -> list bytes -> StateCommitment -> Proof_ ->
    option (result Error (list (bytes * option bytes)))
}.
Arguments verify_membership {St}.
Arguments receipts_state_trie_key {St}.
Arguments verify_state_proof {St}.

Record ConsensusClient (St : Type) : Type := mkConsensusClient {
  verify_consensus : St -> ConsensusStateId -> bytes -> bytes ->
    option (result Error (bytes * VerifiedCommitments));
  verify_fraud_proof : St -> bytes -> bytes -> bytes -> option (result Error unit);
  client_id : ConsensusClientId;
  state_machine : StateMachine -> result Error (StateMachineClient St)
}.
Arguments verify_consensus {St}.
Arguments verify_fraud_proof {St}.
Arguments client_id {St}.
Arguments state_machine {St}.

Record IsmpModule (St : Type) : Type := mkIsmpModule {
  on_accept : PostRequest -> M St (result AnyError unit);
  on_response : Response -> M St (result AnyError unit);
  on_timeout : Timeout -> M St (result AnyError unit)
}.
Arguments mkIsmpModule {St}.
Arguments on_accept {St}.
Arguments on_response {St}.
Arguments on_timeout {St}.

(** [module_for_id] *)
Definition IsmpRouter (St : Type) : Type := bytes -> result AnyError (IsmpModule St).

(** ** The host *)

Class IsmpHost (St : Type) `{Keccak256} : Type := {
  host_state_machine : StateMachine;
  allowed_proxy : option StateMachine;
  consensus_clients : list (ConsensusClient St);
  ismp_router : IsmpRouter St;

  timestamp : St -> Duration;
  latest_commitment_height : StateMachineId -> St -> result Error Z;
  state_machine_commitment : StateMachineHeight -> St -> result Error StateCommitment;
  consensus_update_time : ConsensusStateId -> St -> result Error Duration;
  state_machine_update_time : StateMachineHeight -> St -> result Error Duration;
  consensus_client_id : ConsensusStateId -> St -> option ConsensusClientId;
  consensus_state : ConsensusStateId -> St -> result Error bytes;
  is_consensus_client_frozen : ConsensusStateId -> St -> result Error unit;
  request_commitment : H256 -> St -> result Error unit;
  response_commitment : H256 -> St -> result Error unit;
  challenge_period : StateMachineId -> St -> option Duration;
  unbonding_period : ConsensusStateId -> St -> option Duration;

  next_nonce : M St Z;
  request_receipt : Request -> M St (option unit);
  response_receipt : Response -> M St (option unit);

  store_consensus_state_id : ConsensusStateId -> ConsensusClientId -> M St (result Error unit);
  store_consensus_state : ConsensusStateId -> bytes -> M St (result Error unit);
  store_unbonding_period : ConsensusStateId -> Z -> M St (result Error unit);
  store_consensus_update_time : ConsensusStateId -> Duration -> M St (result Error unit);
  store_state_machine_update_time : StateMachineHeight -> Duration -> M St (result Error unit);
  store_state_machine_commitment : StateMachineHeight -> StateCommitment -> M St (result Error unit);
  delete_state_commitment : StateMachineHeight -> M St (result Error unit);
  freeze_consensus_client : ConsensusStateId -> M St (result Error unit);
  store_latest_commitment_height : StateMachineHeight -> M St (result Error unit);
  store_challenge_period : StateMachineId -> Z -> M St (result Error unit);

  delete_request_commitment : Request -> M St (result Error bytes);
  delete_response_commitment : PostResponse -> M St (result Error bytes);
  delete_request_receipt : Request -> M St (result Error bytes);
  delete_response_receipt : Response -> M St (result Error bytes);
  store_request_receipt : Request -> bytes -> M St (result Error unit);
  store_response_receipt : Response -> bytes -> M St (result Error unit);
  store_request_commitment : Request -> bytes -> M St (result Error unit);
  store_response_commitment : PostResponse -> bytes -> M St (result Error unit)
}.

(** ** The methods the trait provides *)

Section provided.
Context `{Keccak256} {St : Type} `{!IsmpHost St}.

Definition consensus_client (id : ConsensusClientId) : result Error (ConsensusClient St) :=
  ok_or (snd <$> list_find (fun c => client_id c = id) consensus_clients)
    (Custom (lit "Consensus client for id " ++ debug_id4 id ++ lit " not found")).

Definition is_expired (id : ConsensusStateId) (s : St) : result Error unit :=
  match ok_or (unbonding_period id s) (UnnbondingPeriodNotConfigured id) with
  | Err e => Err e
  | Ok period =>
      match consensus_update_time id s with
      | Err e => Err e
      | Ok last_update =>
          if period <=? saturating_sub (timestamp s) last_update
          then Err (UnbondingPeriodElapsed id) else Ok tt
      end
  end.

Definition is_allowed_proxy (source : StateMachine) : bool :=
  match allowed_proxy with Some proxy => bool_decide (proxy = source) | None => false end.

Definition is_router : bool :=
  match allowed_proxy with
  | Some proxy => bool_decide (proxy = host_state_machine)
  | None => false
  end.

End provided.
