(* ===== verification/Handlers.v ===== *)
(** * The ISMP message handlers

    [ismp/core/src/handlers.rs] and [handlers/*.rs], for any host: the checks made
    on every proof, the consensus handlers, and the request, response and timeout
    handlers, statement by statement in the monad of [Prelude]. *)

From S2P Require Import Prelude StateMachine Router Messaging Host.

(** [sort_unstable_by] by height: some permutation in height order. Which one, for
    equal heights, is left open. *)
Class HeightSort : Type := {
  sort_heights : list StateCommitmentHeight -> list StateCommitmentHeight;
  sort_heights_perm : forall l, sort_heights l ≡ₚ l;
  sort_heights_sorted : forall l,
    StronglySorted (fun a b => sch_height a <= sch_height b) (sort_heights l)
}.

Section handlers.
Context `{Keccak256} {St : Type} `{!IsmpHost St} `{!HeightSort}.

(** ** Checks on a proof *)

Definition verify_delay_passed (proof_height : StateMachineHeight) :
    M St (result Error bool) :=
  let? update_time := gets (state_machine_update_time proof_height) in
  let? delay_period := gets (fun s => ok_or (challenge_period (smh_id proof_height) s)
      (ChallengePeriodNotConfigured (smh_id proof_height))) in
  let* current_timestamp := gets timestamp in
  ret (Ok ((as_secs delay_period =? 0)
           || (delay_period <? saturating_sub current_timestamp update_time))).

Definition validate_state_machine (proof_height : StateMachineHeight) :
    M St (result Error (StateMachineClient St)) :=
  let csid := smi_consensus_state_id (smh_id proof_height) in
  let? cid := gets (fun s => ok_or (consensus_client_id csid s)
      (ConsensusStateIdNotRecognized csid)) in
  let? client := ret (consensus_client cid) in
  let? _ := gets (is_consensus_client_frozen csid) in
  let? passed := verify_delay_passed proof_height in
  if negb passed then
    let* current_time := gets timestamp in
    let? update_time := gets (state_machine_update_time proof_height) in
    ret (Err (ChallengePeriodNotElapsed (smh_id proof_height) update_time current_time))
  else ret (state_machine client (smi_state_id (smh_id proof_height))).

(** No configured consensus client knows the state machine. *)
Definition check_state_machine_client (m : StateMachine) : bool :=
  match find_map (fun client : ConsensusClient St => ok (state_machine client m))
          consensus_clients with
  | Some _ => false
  | None => true
  end.

(** ** Consensus *)

(** The body of the loop over the commitments of one state machine. *)
Definition update_height (id : StateMachineId) (previous_latest_height : Z)
    (last_commitment_height : option StateMachineHeight) (c : StateCommitmentHeight) :
    M St (result AnyError (option StateMachineHeight)) :=
  let state_height := mkStateMachineHeight id (sch_height c) in
  if sch_height c <? previous_latest_height then ret (Ok last_commitment_height)
  else
    let* existing := gets (state_machine_commitment state_height) in
    if is_ok existing then ret (Ok last_commitment_height)
    else
      let? _ := store_state_machine_commitment state_height (sch_commitment c) in
      let* now := gets timestamp in
      let? _ := store_state_machine_update_time state_height now in
      ret (Ok (Some state_height)).

(** The body of the loop over the state machines of a consensus update. *)
Definition update_state_machine (csid : ConsensusStateId) (state_updates : list Event)
    (entry : StateMachine * list StateCommitmentHeight) :
    M St (result AnyError (list Event)) :=
  let commitment_heights := sort_heights entry.2 in
  let id := mkStateMachineId entry.1 csid in
  let? previous_latest_height := gets (latest_commitment_height id) in
  let? last_commitment_height :=
    try_fold_m (update_height id previous_latest_height) None commitment_heights in
  match last_commitment_height with
  | None => ret (Ok state_updates)
  | Some latest =>
      let latest_height := mkStateMachineHeight id (smh_height latest) in
      let? _ := store_latest_commitment_height latest_height in
      ret (Ok (state_updates
                 ++ [EvStateMachineUpdated (mkStateMachineUpdated id (smh_height latest_height))]))
  end.

Definition update_client (msg : ConsensusMessage) : M St (result AnyError MessageResult) :=
  let csid := cm_consensus_state_id msg in
  let? cid := gets (fun s => ok_or (consensus_client_id csid s)
      (ConsensusStateIdNotRecognized csid)) in
  let? client := ret (consensus_client cid) in
  let? trusted_state := gets (consensus_state csid) in
  let? _ := gets (is_consensus_client_frozen csid) in
  let? _ := gets (is_expired csid) in
  let? (new_state, intermediate_states) :=
    ask (fun s => verify_consensus client s csid trusted_state (cm_consensus_proof msg)) in
  let? _ := store_consensus_state csid new_state in
  let* now := gets timestamp in
  let? _ := store_consensus_update_time csid now in
  let? state_updates := try_fold_m (update_state_machine csid) [] intermediate_states in
  ret (Ok (ConsensusMessageResult state_updates)).

Definition create_client (message : CreateConsensusState) :
    M St (result AnyError ConsensusClientCreatedResult) :=
  let csid := ccs_consensus_state_id message in
  let? _ := ret (consensus_client (ccs_consensus_client_id message)) in
  let? _ := store_consensus_state csid (ccs_consensus_state message) in
  let? _ := store_unbonding_period csid (ccs_unbonding_period message) in
  let? _ := store_consensus_state_id csid (ccs_consensus_client_id message) in
  let? _ := for_each (ccs_challenge_periods message) (fun p =>
    store_challenge_period (mkStateMachineId p.1 csid) p.2) in
  let? _ := for_each (ccs_state_machine_commitments message) (fun p =>
    let height := mkStateMachineHeight p.1 (sch_height p.2) in
    let? _ := store_state_machine_commitment height (sch_commitment p.2) in
    let* now := gets timestamp in
    let? _ := store_state_machine_update_time height now in
    store_latest_commitment_height height) in
  let* now := gets timestamp in
  let? _ := store_consensus_update_time csid now in
  ret (Ok (mkConsensusClientCreatedResult (ccs_consensus_client_id message) csid)).

Definition freeze_client (msg : FraudProofMessage) : M St (result AnyError MessageResult) :=
  let csid := fpm_consensus_state_id msg in
  let? cid := gets (fun s => ok_or (consensus_client_id csid s)
      (Custom (lit "Unknown Consensus State Id"))) in
  let? _ := gets (is_consensus_client_frozen csid) in
  let? client := ret (consensus_client cid) in
  let? trusted_state := gets (consensus_state csid) in
  let? _ := ask (fun s => verify_fraud_proof client s trusted_state
      (fpm_proof_1 msg) (fpm_proof_2 msg)) in
  let? _ := freeze_consensus_client csid in
  let* now := gets timestamp in
  let? _ := store_consensus_update_time csid now in
  ret (Ok (FrozenClient csid)).

(** ** Requests *)

(** The body of the loop that checks each request of a message. *)
Definition check_request (proof : Proof_) (post : PostRequest) :
    M St (result AnyError unit) :=
  let req := RequestPost post in
  let proof_chain := smi_state_id (smh_id (proof_height proof)) in
  let* receipt := request_receipt req in
  let? _ := ensure_not (bool_decide (is_Some receipt))
      (DuplicateRequest (meta_of_request req)) in
  let* now := gets timestamp in
  let? _ := ensure_not (request_timed_out req now) (RequestTimeout (meta_of_request req)) in
  let? _ := ensure_not
      (negb (bool_decide (request_dest_chain req = host_state_machine)) && negb is_router)
      (InvalidRequestDestination (meta_of_request req)) in
  let? _ := ensure_not
      (negb (bool_decide (request_source_chain req = proof_chain)) &&
       negb (is_allowed_proxy proof_chain &&
             check_state_machine_client (request_source_chain req)))
      (RequestProxyProhibited (meta_of_request req)) in
  ret (Ok tt).

(** The closure that dispatches one request to its module. *)
Definition dispatch_post (signer : bytes) (request : PostRequest) : M St DispatchResult :=
  let wrapped_req := RequestPost request in
  let lambda : M St (result AnyError DispatchResult) :=
    let? cb := ret (ismp_router (post_to request)) in
    let? _ := store_request_receipt wrapped_req signer in
    let* accepted := on_accept cb request in
    let* res := map_ok_m accepted (fun _ =>
      let* commitment := or_panic (hash_request wrapped_req) in
      ret (EvPostRequestHandled (mkRequestResponseHandled commitment signer))) in
    if is_err res then
      let? _ := delete_request_receipt wrapped_req in ret (Ok res)
    else ret (Ok res) in
  let* r := lambda in
  ret (match r with Ok res => res | Err e => Err e end).

Definition handle_request (msg : RequestMessage) : M St (result AnyError MessageResult) :=
  let? client := validate_state_machine (proof_height (rm_proof msg)) in
  let? _ := for_each (rm_requests msg) (check_request (rm_proof msg)) in
  let? state := gets (state_machine_commitment (proof_height (rm_proof msg))) in
  let? _ := ask (fun s => verify_membership client s
      (RRRequest (RequestPost <$> rm_requests msg)) state (rm_proof msg)) in
  let* result := map_m (dispatch_post (rm_signer msg)) (rm_requests msg) in
  ret (Ok (RequestResult result)).

(** ** Responses *)

Definition check_response (proof : Proof_) (response : Response) :
    M St (result AnyError unit) :=
  let proof_chain := smi_state_id (smh_id (proof_height proof)) in
  let* commitment := or_panic (hash_request (response_request response)) in
  let* known := gets (request_commitment commitment) in
  let? _ := ensure_not (is_err known) (UnsolicitedResponse (meta_of_response response)) in
  let* receipt := response_receipt response in
  let? _ := ensure_not (bool_decide (is_Some receipt))
      (DuplicateResponse (meta_of_response response)) in
  let* now := gets timestamp in
  let? _ := ensure_not (response_timed_out response now)
      (ResponseTimeout (meta_of_response response)) in
  let? _ := ensure_not
      (negb (bool_decide (response_source_chain response = proof_chain)) &&
       negb (is_allowed_proxy proof_chain &&
             check_state_machine_client (response_source_chain response)))
      (ResponseProxyProhibited (meta_of_response response)) in
  ret (Ok tt).

Definition dispatch_response_to_module (signer : bytes) (response : Response) :
    M St (result AnyError DispatchResult) :=
  let? cb := ret (ismp_router (response_destination_module response)) in
  let? _ := store_response_receipt response signer in
  let* accepted := on_response cb response in
  let* res := map_ok_m accepted (fun _ =>
    let* commitment := or_panic (hash_response response) in
    ret (EvPostResponseHandled (mkRequestResponseHandled commitment signer))) in
  if is_err res then
    let? _ := delete_response_receipt response in ret (Ok res)
  else ret (Ok res).

(** The checks on the requests of a GET response; the loop collects the requests. *)
Definition check_get (proof : Proof_) (get_requests : list GetRequest) (req : Request) :
    M St (result AnyError (list GetRequest)) :=
  match req with
  | RequestPost _ => ret (Err (IsmpError (InvalidResponseType (meta_of_request req))))
  | RequestGet get =>
      let* now := gets timestamp in
      let? _ := ensure_not (request_timed_out req now)
          (RequestTimeout (meta_of_request req)) in
      let? _ := ensure_not
          (negb (bool_decide (request_dest_chain req
                              = smi_state_id (smh_id (proof_height proof)))))
          (RequestProofMetadataNotValid (meta_of_request req)) in
      let* commitment := or_panic (hash_request (RequestGet get)) in
      let* known := gets (request_commitment commitment) in
      let? _ := ensure_not (is_err known) (UnknownRequest (meta_of_request req)) in
      let res := ResponseGet (mkGetResponse get []) in
      let* receipt := response_receipt res in
      let? _ := ensure_not (bool_decide (is_Some receipt))
          (DuplicateResponse (meta_of_response res)) in
      ret (Ok (get_requests ++ [get]))
  end.

Definition dispatch_get_response (client : StateMachineClient St) (state : StateCommitment)
    (proof : Proof_) (signer : bytes) (request : GetRequest) :
    M St (result AnyError DispatchResult) :=
  let wrapped_req := RequestGet request in
  let? pairs := ask (fun s => verify_state_proof client s (get_keys request) state proof) in
  let values := (fun kv => mkStorageValue kv.1 kv.2) <$> pairs in
  let? cb := ret (ismp_router (get_from request)) in
  let response := ResponseGet (mkGetResponse request []) in
  let? _ := store_response_receipt response signer in
  let* accepted := on_response cb (ResponseGet (mkGetResponse request values)) in
  let* res := map_ok_m accepted (fun _ =>
    let* commitment := or_panic (hash_request wrapped_req) in
    ret (EvGetRequestHandled (mkRequestResponseHandled commitment signer))) in
  if is_err res then
    let? _ := delete_response_receipt response in ret (Ok res)
  else ret (Ok res).

Definition handle_response (msg : ResponseMessage) : M St (result AnyError MessageResult) :=
  let proof := rsm_proof msg in
  let? client := validate_state_machine (proof_height proof) in
  let? state := gets (state_machine_commitment (proof_height proof)) in
  let? result :=
    match rsm_datagram msg with
    | RRResponse responses =>
        let? _ := for_each responses (check_response proof) in
        let? _ := ask (fun s => verify_membership client s (RRResponse responses) state proof) in
        try_map_m (dispatch_response_to_module (rsm_signer msg)) responses
    | RRRequest requests =>
        let? get_requests := try_fold_m (check_get proof) [] requests in
        let? _ := ensure_not
            (negb (forallb (fun get => get_height get =? smh_height (proof_height proof))
                     get_requests)) InsufficientProofHeight in
        try_map_m (dispatch_get_response client state proof (rsm_signer msg)) get_requests
    end in
  ret (Ok (ResponseResult result)).

(** ** Timeouts *)

Definition check_post_timeout (proof : Proof_) (state : StateCommitment)
    (request : Request) : M St (result AnyError unit) :=
  let proof_chain := smi_state_id (smh_id (proof_height proof)) in
  let? _ := ensure_not
      (negb (bool_decide (request_dest_chain request = proof_chain)) &&
       negb (is_allowed_proxy proof_chain &&
             check_state_machine_client (request_dest_chain request)))
      (RequestProxyProhibited (meta_of_request request)) in
  let* commitment := or_panic (hash_request request) in
  let* known := gets (request_commitment commitment) in
  let? _ := ensure_not (is_err known) (UnknownRequest (meta_of_request request)) in
  let? _ := ensure_not (negb (request_timed_out request (commitment_timestamp state)))
      (RequestTimeoutNotElapsed (meta_of_request request) (request_timeout request)
         (commitment_timestamp state)) in
  ret (Ok tt).

Definition timeout_post (request : Request) : M St (result AnyError DispatchResult) :=
  let routed := negb (bool_decide (host_state_machine = request_source_chain request)) in
  let? cb := ret (ismp_router (request_source_module request)) in
  let? meta := delete_request_commitment request in
  let* signer := (if routed
                  then let* r := delete_request_receipt request in ret (ok r)
                  else ret None) in
  let* accepted := on_timeout cb (TimeoutRequest request) in
  let* res := map_ok_m accepted (fun _ =>
    let* commitment := or_panic (hash_request request) in
    ret (EvPostRequestTimeoutHandled (mkTimeoutHandled commitment
           (request_source_chain request) (request_dest_chain request)))) in
  if is_err res then
    let? _ := store_request_commitment request meta in
    match signer with
    | Some relayer =>
        if routed then let? _ := store_request_receipt request relayer in ret (Ok res)
        else ret (Ok res)
    | None => ret (Ok res)
    end
  else ret (Ok res).

Definition check_response_timeout (proof : Proof_) (state : StateCommitment)
    (response : PostResponse) : M St (result AnyError unit) :=
  let proof_chain := smi_state_id (smh_id (proof_height proof)) in
  let? _ := ensure_not
      (negb (bool_decide (pr_dest_chain response = proof_chain)) &&
       negb (is_allowed_proxy proof_chain &&
             check_state_machine_client (pr_dest_chain response)))
      (ResponseProxyProhibited (meta_of_response (ResponsePost response))) in
  let* commitment := or_panic (hash_post_response response) in
  let* known := gets (response_commitment commitment) in
  let? _ := ensure_not (is_err known)
      (UnknownResponse (meta_of_response (ResponsePost response))) in
  let? _ := ensure_not (commitment_timestamp state <? pr_timeout response)
      (RequestTimeoutNotElapsed (meta_of_post_response response) (pr_timeout response)
         (commitment_timestamp state)) in
  ret (Ok tt).

Definition timeout_response (response : PostResponse) : M St (result AnyError DispatchResult) :=
  let routed := negb (bool_decide (host_state_machine = pr_source_chain response)) in
  let? cb := ret (ismp_router (pr_source_module response)) in
  let? meta := delete_response_commitment response in
  let* signer := (if routed
                  then let* r := delete_response_receipt (ResponsePost response) in ret (ok r)
                  else ret None) in
  let* accepted := on_timeout cb (TimeoutResponse response) in
  let* res := map_ok_m accepted (fun _ =>
    let* commitment := or_panic (hash_post_response response) in
    ret (EvPostResponseTimeoutHandled (mkTimeoutHandled commitment
           (pr_source_chain response) (pr_dest_chain response)))) in
  if is_err res then
    let? _ := store_response_commitment response meta in
    match signer with
    | Some relayer =>
        if routed
        then let? _ := store_response_receipt (ResponsePost response) relayer in ret (Ok res)
        else ret (Ok res)
    | None => ret (Ok res)
    end
  else ret (Ok res).

Definition check_get_timeout (request : Request) : M St (result AnyError unit) :=
  let* commitment := or_panic (hash_request request) in
  let* known := gets (request_commitment commitment) in
  let? _ := ensure_not (is_err known) (UnknownRequest (meta_of_request request)) in
  let* now := gets timestamp in
  let? _ := ensure_not (negb (request_timed_out request now))
      (RequestTimeoutNotElapsed (meta_of_request request) (request_timeout request) now) in
  ret (Ok tt).

Definition timeout_get (request : Request) : M St (result AnyError DispatchResult) :=
  let? cb := ret (ismp_router (request_source_module request)) in
  let? meta := delete_request_commitment request in
  let* accepted := on_timeout cb (TimeoutRequest request) in
  let* res := map_ok_m accepted (fun _ =>
    let* commitment := or_panic (hash_request request) in
    ret (EvGetRequestTimeoutHandled (mkTimeoutHandled commitment
           (request_source_chain request) (request_dest_chain request)))) in
  if is_err res then
    let? _ := store_request_commitment request meta in ret (Ok res)
  else ret (Ok res).

(** Some key of a state proof has a value. *)
Definition any_delivered (values : list (bytes * option bytes)) : bool :=
  existsb (fun kv => bool_decide (is_Some kv.2)) values.

Definition handle_timeout (msg : TimeoutMessage) : M St (result AnyError MessageResult) :=
  let? results :=
    match msg with
    | TMPost requests timeout_proof =>
        let? client := validate_state_machine (proof_height timeout_proof) in
        let? state := gets (state_machine_commitment (proof_height timeout_proof)) in
        let? _ := for_each requests (check_post_timeout timeout_proof state) in
        let* keys := or_panic (receipts_state_trie_key client (RRRequest requests)) in
        let? values := ask (fun s => verify_state_proof client s keys state timeout_proof) in
        let? _ := ensure_not (any_delivered values)
            (Custom (lit "Some Requests in the batch have been delivered")) in
        try_map_m timeout_post requests
    | TMPostResponse responses timeout_proof =>
        let? client := validate_state_machine (proof_height timeout_proof) in
        let? state := gets (state_machine_commitment (proof_height timeout_proof)) in
        let? _ := for_each responses (check_response_timeout timeout_proof state) in
        let items := ResponsePost <$> responses in
        let* keys := or_panic (receipts_state_trie_key client (RRResponse items)) in
        let? values := ask (fun s => verify_state_proof client s keys state timeout_proof) in
        let? _ := ensure_not (any_delivered values)
            (Custom (lit "Some responses in the batch have been delivered")) in
        try_map_m timeout_response responses
    | TMGet requests =>
        let? _ := for_each requests check_get_timeout in
        try_map_m timeout_get requests
    end in
  ret (Ok (TimeoutResult results)).

(** ** The entry point *)

Definition handle_incoming_message (message : Message) : M St (result AnyError MessageResult) :=
  match message with
  | MsgConsensus consensus_message => update_client consensus_message
  | MsgFraudProof fraud_proof => freeze_client fraud_proof
  | MsgRequest req => handle_request req
  | MsgResponse resp => handle_response resp
  | MsgTimeout timeout => handle_timeout timeout
  end.

End handlers.
