(* ===== verification/HostSpec.v ===== *)
(** * What a host promises to the handlers

    The abstract state of a host: finite maps for the consensus data, finite maps
    for the messages, and the clock. Each writing method of the host interface has
    a specification as a function on this state. The class [HostModel] says that a
    host implements the specification: an abstraction function under which every
    method behaves like its specification. The theorems on the handlers are proved
    against this class, and [PalletRefines] discharges it for pallet-ismp. *)

From S2P Require Import Prelude StateMachine Router Messaging Host.

(** ** The abstract state *)

(** Consensus data, keyed by consensus state, state machine or height. *)
Record ConsensusStore : Type := mkConsensusStore {
  c_states : gmap ConsensusStateId bytes;
  c_clients : gmap ConsensusStateId ConsensusClientId;
  c_unbonding : gmap ConsensusStateId Z;
  c_challenge : gmap StateMachineId Z;
  c_frozen : gset ConsensusStateId;
  c_latest : gmap StateMachineId Z;
  c_updated : gmap ConsensusStateId Z;
  c_sm_updated : gmap StateMachineHeight Z;
  c_commitments : gmap StateMachineHeight StateCommitment
}.

(** Message data, keyed by commitment. Response receipts are keyed by the
    commitment of the request. *)
Record MessageStore : Type := mkMessageStore {
  m_req_commitments : gmap H256 bytes;
  m_res_commitments : gmap H256 bytes;
  m_req_receipts : gmap H256 bytes;
  m_res_receipts : gmap H256 (H256 * bytes);
  m_responded : gset H256;
  m_nonce : Z
}.

Record AbsHost : Type := mkAbsHost {
  a_cons : ConsensusStore;
  a_msgs : MessageStore;
  a_now : Duration
}.

(** ** Updates *)

Definition upd_cons (f : ConsensusStore -> ConsensusStore) (a : AbsHost) : AbsHost :=
  mkAbsHost (f (a_cons a)) (a_msgs a) (a_now a).
Definition upd_msgs (f : MessageStore -> MessageStore) (a : AbsHost) : AbsHost :=
  mkAbsHost (a_cons a) (f (a_msgs a)) (a_now a).

Definition set_states f c := mkConsensusStore (f (c_states c)) (c_clients c) (c_unbonding c)
  (c_challenge c) (c_frozen c) (c_latest c) (c_updated c) (c_sm_updated c) (c_commitments c).
Definition set_clients f c := mkConsensusStore (c_states c) (f (c_clients c)) (c_unbonding c)
  (c_challenge c) (c_frozen c) (c_latest c) (c_updated c) (c_sm_updated c) (c_commitments c).
Definition set_unbonding f c := mkConsensusStore (c_states c) (c_clients c) (f (c_unbonding c))
  (c_challenge c) (c_frozen c) (c_latest c) (c_updated c) (c_sm_updated c) (c_commitments c).
Definition set_challenge f c := mkConsensusStore (c_states c) (c_clients c) (c_unbonding c)
  (f (c_challenge c)) (c_frozen c) (c_latest c) (c_updated c) (c_sm_updated c) (c_commitments c).
Definition set_frozen f c := mkConsensusStore (c_states c) (c_clients c) (c_unbonding c)
  (c_challenge c) (f (c_frozen c)) (c_latest c) (c_updated c) (c_sm_updated c) (c_commitments c).
Definition set_latest f c := mkConsensusStore (c_states c) (c_clients c) (c_unbonding c)
  (c_challenge c) (c_frozen c) (f (c_latest c)) (c_updated c) (c_sm_updated c) (c_commitments c).
Definition set_updated f c := mkConsensusStore (c_states c) (c_clients c) (c_unbonding c)
  (c_challenge c) (c_frozen c) (c_latest c) (f (c_updated c)) (c_sm_updated c) (c_commitments c).
Definition set_sm_updated f c := mkConsensusStore (c_states c) (c_clients c) (c_unbonding c)
  (c_challenge c) (c_frozen c) (c_latest c) (c_updated c) (f (c_sm_updated c)) (c_commitments c).
Definition set_commitments f c := mkConsensusStore (c_states c) (c_clients c) (c_unbonding c)
  (c_challenge c) (c_frozen c) (c_latest c) (c_updated c) (c_sm_updated c) (f (c_commitments c)).

Definition set_req_commitments f m := mkMessageStore (f (m_req_commitments m))
  (m_res_commitments m) (m_req_receipts m) (m_res_receipts m) (m_responded m) (m_nonce m).
Definition set_res_commitments f m := mkMessageStore (m_req_commitments m)
  (f (m_res_commitments m)) (m_req_receipts m) (m_res_receipts m) (m_responded m) (m_nonce m).
Definition set_req_receipts f m := mkMessageStore (m_req_commitments m)
  (m_res_commitments m) (f (m_req_receipts m)) (m_res_receipts m) (m_responded m) (m_nonce m).
Definition set_res_receipts f m := mkMessageStore (m_req_commitments m)
  (m_res_commitments m) (m_req_receipts m) (f (m_res_receipts m)) (m_responded m) (m_nonce m).
Definition set_responded f m := mkMessageStore (m_req_commitments m)
  (m_res_commitments m) (m_req_receipts m) (m_res_receipts m) (f (m_responded m)) (m_nonce m).
Definition set_nonce f m := mkMessageStore (m_req_commitments m)
  (m_res_commitments m) (m_req_receipts m) (m_res_receipts m) (m_responded m) (f (m_nonce m)).

(** ** Specifications of the methods *)

Section spec.
Context `{Keccak256}.

(** A write that cannot fail. *)
Definition spec_write (f : AbsHost -> AbsHost) : M AbsHost (result Error unit) :=
  fun a => (Some (Ok tt), f a).

(** A program on the commitment of a message, which panics without one. *)
Definition on_hash {A} (o : option H256) (k : H256 -> M AbsHost A) : M AbsHost A :=
  bind (or_panic o) k.

Definition spec_next_nonce : M AbsHost Z := fun a =>
  (Some (m_nonce (a_msgs a)), upd_msgs (set_nonce (fun n => wrap64 (n + 1))) a).

Definition spec_request_receipt (r : Request) : M AbsHost (option unit) :=
  on_hash (hash_request r) (fun h =>
    gets (fun a => (fun _ => tt) <$> m_req_receipts (a_msgs a) !! h)).

Definition spec_response_receipt (r : Response) : M AbsHost (option unit) :=
  on_hash (hash_request (response_request r)) (fun h =>
    gets (fun a => (fun _ => tt) <$> m_res_receipts (a_msgs a) !! h)).

Definition spec_delete_state_commitment (h : StateMachineHeight) : M AbsHost (result Error unit) :=
  spec_write (upd_cons (fun c =>
    let c' := set_commitments (delete h) c in
    if decide (c_latest c !! smh_id h = Some (smh_height h))
    then set_latest <[smh_id h := 1]> c' else c')).

Definition spec_delete_request_commitment (r : Request) : M AbsHost (result Error bytes) :=
  on_hash (hash_request r) (fun h a =>
    match m_req_commitments (a_msgs a) !! h with
    | Some meta => (Some (Ok meta), upd_msgs (set_req_commitments (delete h)) a)
    | None => (Some (Err (Custom (lit "Request Commitment not found"))), a)
    end).

Definition spec_delete_response_commitment (r : PostResponse) : M AbsHost (result Error bytes) :=
  on_hash (hash_request (pr_request r)) (fun req =>
  on_hash (hash_post_response r) (fun h a =>
    match m_res_commitments (a_msgs a) !! h with
    | Some meta =>
        (Some (Ok meta),
         upd_msgs (fun m => set_responded (fun x => x ∖ {[req]})
                              (set_res_commitments (delete h) m)) a)
    | None => (Some (Err (Custom (lit "Response Commitment not found"))), a)
    end)).

Definition spec_delete_request_receipt (r : Request) : M AbsHost (result Error bytes) :=
  on_hash (hash_request r) (fun h a =>
    match m_req_receipts (a_msgs a) !! h with
    | Some relayer => (Some (Ok relayer), upd_msgs (set_req_receipts (delete h)) a)
    | None => (Some (Err (Custom (lit "Request receipt not found"))), a)
    end).

Definition spec_delete_response_receipt (r : Response) : M AbsHost (result Error bytes) :=
  on_hash (hash_request (response_request r)) (fun h a =>
    match m_res_receipts (a_msgs a) !! h with
    | Some receipt => (Some (Ok receipt.2), upd_msgs (set_res_receipts (delete h)) a)
    | None => (Some (Err (Custom (lit "Response receipt not found"))), a)
    end).

Definition spec_store_request_receipt (r : Request) (signer : bytes) :=
  on_hash (hash_request r) (fun h =>
    spec_write (upd_msgs (set_req_receipts <[h := signer]>))).

Definition spec_store_response_receipt (r : Response) (signer : bytes) :=
  on_hash (hash_request (response_request r)) (fun req =>
  on_hash (hash_response r) (fun h =>
    spec_write (upd_msgs (set_res_receipts <[req := (h, signer)]>)))).

Definition spec_store_request_commitment (r : Request) (meta : bytes) :=
  on_hash (hash_request r) (fun h =>
    spec_write (upd_msgs (set_req_commitments <[h := meta]>))).

Definition spec_store_response_commitment (r : PostResponse) (meta : bytes) :=
  on_hash (hash_post_response r) (fun h =>
  on_hash (hash_request (pr_request r)) (fun req =>
    spec_write (upd_msgs (fun m => set_responded (fun x => {[req]} ∪ x)
                                     (set_res_commitments <[h := meta]> m))))).

(** ** Hosts that meet the specification *)

(** Under the abstraction [abs], and as long as the invariant [inv] holds, [m]
    behaves like [f]; it keeps the invariant. *)
Definition implements {St A} (abs : St -> AbsHost) (inv : St -> Prop)
    (m : M St A) (f : M AbsHost A) : Prop :=
  forall s, inv s ->
    fst (m s) = fst (f (abs s)) /\ abs (snd (m s)) = snd (f (abs s)) /\ inv (snd (m s)).

Class HostModel (St : Type) `{!IsmpHost St} : Type := {
  abs : St -> AbsHost;
  inv : St -> Prop;
  (** Metadata in the form the host encodes it. *)
  meta_ok : bytes -> Prop;

  timestamp_abs s : timestamp s = a_now (abs s);
  latest_commitment_height_abs id s : inv s ->
    latest_commitment_height id s = Ok (default 0 (c_latest (a_cons (abs s)) !! id));
  state_machine_commitment_abs h s : inv s ->
    state_machine_commitment h s
    = ok_or (c_commitments (a_cons (abs s)) !! h) (StateCommitmentNotFound h);
  consensus_update_time_abs id s : inv s ->
    ok (consensus_update_time id s) = from_secs <$> c_updated (a_cons (abs s)) !! id;
  state_machine_update_time_abs h s : inv s ->
    ok (state_machine_update_time h s) = from_secs <$> c_sm_updated (a_cons (abs s)) !! h;
  consensus_client_id_abs id s : inv s ->
    consensus_client_id id s = c_clients (a_cons (abs s)) !! id;
  consensus_state_abs id s : inv s ->
    consensus_state id s = ok_or (c_states (a_cons (abs s)) !! id) (ConsensusStateNotFound id);
  is_consensus_client_frozen_abs id s : inv s ->
    is_consensus_client_frozen id s
    = if decide (id ∈ c_frozen (a_cons (abs s))) then Err (FrozenConsensusClient id) else Ok tt;
  request_commitment_abs h s : inv s ->
    is_ok (request_commitment h s) = bool_decide (is_Some (m_req_commitments (a_msgs (abs s)) !! h));
  response_commitment_abs h s : inv s ->
    is_ok (response_commitment h s) = bool_decide (is_Some (m_res_commitments (a_msgs (abs s)) !! h));
  challenge_period_abs id s : inv s ->
    challenge_period id s = from_secs <$> c_challenge (a_cons (abs s)) !! id;
  unbonding_period_abs id s : inv s ->
    unbonding_period id s = from_secs <$> c_unbonding (a_cons (abs s)) !! id;

  next_nonce_impl : implements abs inv next_nonce spec_next_nonce;
  request_receipt_impl r : implements abs inv (request_receipt r) (spec_request_receipt r);
  response_receipt_impl r : implements abs inv (response_receipt r) (spec_response_receipt r);
  store_consensus_state_id_impl id c :
    implements abs inv (store_consensus_state_id id c) (spec_write (upd_cons (set_clients <[id := c]>)));
  store_consensus_state_impl id b :
    implements abs inv (store_consensus_state id b) (spec_write (upd_cons (set_states <[id := b]>)));
  store_unbonding_period_impl id p :
    implements abs inv (store_unbonding_period id p) (spec_write (upd_cons (set_unbonding <[id := p]>)));
  store_consensus_update_time_impl id d :
    implements abs inv (store_consensus_update_time id d)
      (spec_write (upd_cons (set_updated <[id := as_secs d]>)));
  store_state_machine_update_time_impl h d :
    implements abs inv (store_state_machine_update_time h d)
      (spec_write (upd_cons (set_sm_updated <[h := as_secs d]>)));
  store_state_machine_commitment_impl h c :
    implements abs inv (store_state_machine_commitment h c)
      (spec_write (upd_cons (set_commitments <[h := c]>)));
  delete_state_commitment_impl h :
    implements abs inv (delete_state_commitment h) (spec_delete_state_commitment h);
  freeze_consensus_client_impl id :
    implements abs inv (freeze_consensus_client id)
      (spec_write (upd_cons (set_frozen (fun x => {[id]} ∪ x))));
  store_latest_commitment_height_impl h :
    implements abs inv (store_latest_commitment_height h)
      (spec_write (upd_cons (set_latest <[smh_id h := smh_height h]>)));
  store_challenge_period_impl id p :
    implements abs inv (store_challenge_period id p) (spec_write (upd_cons (set_challenge <[id := p]>)));
  delete_request_commitment_impl r :
    implements abs inv (delete_request_commitment r) (spec_delete_request_commitment r);
  delete_response_commitment_impl r :
    implements abs inv (delete_response_commitment r) (spec_delete_response_commitment r);
  delete_request_receipt_impl r :
    implements abs inv (delete_request_receipt r) (spec_delete_request_receipt r);
  delete_response_receipt_impl r :
    implements abs inv (delete_response_receipt r) (spec_delete_response_receipt r);
  store_request_receipt_impl r sg :
    implements abs inv (store_request_receipt r sg) (spec_store_request_receipt r sg);
  store_response_receipt_impl r sg :
    implements abs inv (store_response_receipt r sg) (spec_store_response_receipt r sg);
  store_request_commitment_impl r meta : meta_ok meta ->
    implements abs inv (store_request_commitment r meta) (spec_store_request_commitment r meta);
  store_response_commitment_impl r meta : meta_ok meta ->
    implements abs inv (store_response_commitment r meta) (spec_store_response_commitment r meta);

  req_commitments_meta_ok s h meta : inv s ->
    m_req_commitments (a_msgs (abs s)) !! h = Some meta -> meta_ok meta;
  res_commitments_meta_ok s h meta : inv s ->
    m_res_commitments (a_msgs (abs s)) !! h = Some meta -> meta_ok meta
}.

(** What is known of a run of a program that implements a specification. *)
Lemma implements_run {St A} (abs : St -> AbsHost) inv (m : M St A) f s o s' :
  implements abs inv m f -> inv s -> m s = (o, s') ->
  f (abs s) = (o, abs s') /\ inv s'.
Proof.
  intros Hi Hs E. destruct (Hi s Hs) as (H1 & H2 & H3). rewrite E in H1, H2, H3.
  simpl in *. destruct (f (abs s)); simpl in *; subst; auto.
Qed.

Lemma spec_write_inv f a r a' :
  spec_write f a = (Some r, a') <-> r = Ok tt /\ a' = f a.
Proof. unfold spec_write. naive_solver. Qed.

Lemma on_hash_inv {A} o (k : H256 -> M AbsHost A) a r a' :
  on_hash o k a = (Some r, a') <-> exists h, o = Some h /\ k h a = (Some r, a').
Proof.
  unfold on_hash. rewrite bind_inv. setoid_rewrite or_panic_inv. naive_solver.
Qed.

Lemma on_hash_none {A} o (k : H256 -> M AbsHost A) a a' :
  on_hash o k a = (None, a') ->
  (o = None /\ a' = a) \/ exists h, o = Some h /\ k h a = (None, a').
Proof.
  unfold on_hash, bind, or_panic. destruct o as [h|]; simpl.
  - right; eauto.
  - intros [= <-]. by left.
Qed.

End spec.
