(* ===== verification/RefHost.v ===== *)
(** * A reference host

    A host whose state is the abstract state itself and whose methods are the
    specifications of [HostSpec]: the smallest implementation of the interface,
    for any configuration. It shows that the promises of [HostModel] can be met
    together, and it runs, so that the theorems on the handlers can be evaluated on
    concrete messages. The [Demo] module is a concrete configuration: two chains
    and a few consensus clients and modules. *)

From S2P Require Import Prelude StateMachine Router Messaging Host HostSpec Handlers.

Section ref_host.
Context `{Keccak256}.
Context (host_id : StateMachine) (proxy : option StateMachine)
  (clients : list (ConsensusClient AbsHost)) (router : IsmpRouter AbsHost).

Definition ref_update_time_error (x : bytes) : Error :=
  Custom (lit "Update time not found for " ++ x).

Definition ref_host : IsmpHost AbsHost := {|
  host_state_machine := host_id;
  allowed_proxy := proxy;
  consensus_clients := clients;
  ismp_router := router;
  timestamp := a_now;
  latest_commitment_height id a := Ok (default 0 (c_latest (a_cons a) !! id));
  state_machine_commitment h a :=
    ok_or (c_commitments (a_cons a) !! h) (StateCommitmentNotFound h);
  consensus_update_time id a :=
    ok_or (from_secs <$> c_updated (a_cons a) !! id) (ref_update_time_error (debug_id4 id));
  state_machine_update_time h a :=
    ok_or (from_secs <$> c_sm_updated (a_cons a) !! h)
      (ref_update_time_error (debug_StateMachineHeight h));
  consensus_client_id id a := c_clients (a_cons a) !! id;
  consensus_state id a := ok_or (c_states (a_cons a) !! id) (ConsensusStateNotFound id);
  is_consensus_client_frozen id a :=
    if decide (id ∈ c_frozen (a_cons a)) then Err (FrozenConsensusClient id) else Ok tt;
  request_commitment h a :=
    ok_or ((fun _ => tt) <$> m_req_commitments (a_msgs a) !! h)
      (Custom (lit "Request commitment not found"));
  response_commitment h a :=
    ok_or ((fun _ => tt) <$> m_res_commitments (a_msgs a) !! h)
      (Custom (lit "Response commitment not found"));
  challenge_period id a := from_secs <$> c_challenge (a_cons a) !! id;
  unbonding_period id a := from_secs <$> c_unbonding (a_cons a) !! id;
  next_nonce := spec_next_nonce;
  request_receipt := spec_request_receipt;
  response_receipt := spec_response_receipt;
  store_consensus_state_id id c := spec_write (upd_cons (set_clients <[id := c]>));
  store_consensus_state id b := spec_write (upd_cons (set_states <[id := b]>));
  store_unbonding_period id p := spec_write (upd_cons (set_unbonding <[id := p]>));
  store_consensus_update_time id d := spec_write (upd_cons (set_updated <[id := as_secs d]>));
  store_state_machine_update_time h d :=
    spec_write (upd_cons (set_sm_updated <[h := as_secs d]>));
  store_state_machine_commitment h c := spec_write (upd_cons (set_commitments <[h := c]>));
  delete_state_commitment := spec_delete_state_commitment;
  freeze_consensus_client id := spec_write (upd_cons (set_frozen (fun x => {[id]} ∪ x)));
  store_latest_commitment_height h :=
    spec_write (upd_cons (set_latest <[smh_id h := smh_height h]>));
  store_challenge_period id p := spec_write (upd_cons (set_challenge <[id := p]>));
  delete_request_commitment := spec_delete_request_commitment;
  delete_response_commitment := spec_delete_response_commitment;
  delete_request_receipt := spec_delete_request_receipt;
  delete_response_receipt := spec_delete_response_receipt;
  store_request_receipt := spec_store_request_receipt;
  store_response_receipt := spec_store_response_receipt;
  store_request_commitment := spec_store_request_commitment;
  store_response_commitment := spec_store_response_commitment
|}.

Lemma implements_refl {A} (f : M AbsHost A) : implements (fun a => a) (fun _ => True) f f.
Proof. intros a _. done. Qed.

#[local] Existing Instance ref_host.

Program Definition ref_model : HostModel AbsHost := {|
  abs a := a;
  inv _ := True;
  meta_ok _ := True
|}.
Solve Obligations with (intros; done || apply implements_refl).
Next Obligation. simpl. intros id s _. by destruct (c_updated _ !! id). Qed.
Next Obligation. simpl. intros h s _. by destruct (c_sm_updated _ !! h). Qed.
Next Obligation. simpl. intros h s _. by destruct (m_req_commitments _ !! h). Qed.
Next Obligation. simpl. intros h s _. by destruct (m_res_commitments _ !! h). Qed.

End ref_host.

(** ** A concrete configuration *)

Module Demo.

(** For evaluation the commitment of a message is its encoding. *)
Definition keccak : Keccak256 := fun b => b.

(** Stable insertion by height. *)
Definition height_le (a b : StateCommitmentHeight) : Prop := sch_height a <= sch_height b.

#[local] Instance height_le_dec a b : Decision (height_le a b) := Z_le_dec _ _.
#[local] Instance height_le_trans : Transitive height_le.
Proof. unfold height_le. intros a b c. lia. Qed.
#[local] Instance height_le_total : Total height_le.
Proof. unfold height_le. intros a b. lia. Qed.

Program Definition sort : HeightSort := {| sort_heights := merge_sort height_le |}.
Next Obligation. apply merge_sort_Permutation. Qed.
Next Obligation. intros l. apply StronglySorted_merge_sort; apply _. Qed.

Definition csid : ConsensusStateId := (Byte.x42, Byte.x45, Byte.x45, Byte.x46).
Definition ccid : ConsensusClientId := (Byte.x50, Byte.x41, Byte.x52, Byte.x41).
Definition here : StateMachine := Polkadot 3367.
Definition there : StateMachine := Evm 1.

(** A state machine client that accepts the proof "ok" and reads every key as absent. *)
Definition smc {St} : StateMachineClient St := {|
  verify_membership _ _ _ p :=
    if decide (proof_bytes p = lit "ok") then Some (Ok tt)
    else Some (Err (MembershipProofVerificationFailed (lit "bad proof")));
  receipts_state_trie_key _ := Some [lit "key"];
  verify_state_proof _ keys _ p :=
    if decide (proof_bytes p = lit "ok") then Some (Ok ((fun k => (k, None)) <$> keys))
    else Some (Err (NonMembershipProofVerificationFailed (lit "bad proof")))
|}.

Definition commitment (t : Z) : StateCommitment := mkStateCommitment t None (lit "root").

(** A consensus client for [there] that verifies heights 5, 9 and 7. *)
Definition client {St} : ConsensusClient St := {|
  verify_consensus _ _ trusted proof :=
    if decide (proof = lit "ok")
    then Some (Ok (lit "next", [(there, [mkStateCommitmentHeight (commitment 50) 5;
                                   mkStateCommitmentHeight (commitment 90) 9;
                                   mkStateCommitmentHeight (commitment 70) 7])]))
    else Some (Err (ConsensusProofVerificationFailed ccid));
  verify_fraud_proof _ _ p1 p2 :=
    if decide (p1 = p2) then Some (Err (Custom (lit "no conflict"))) else Some (Ok tt);
  client_id := ccid;
  state_machine m := if decide (m = there) then Ok smc else Err (Custom (lit "unsupported"))
|}.

(** A module that counts its calls in the nonce, and one that fails. *)
Definition counting : M AbsHost (result AnyError unit) :=
  fun a => (Some (Ok tt), upd_msgs (set_nonce (fun n => n + 1)) a).
Definition failing : M AbsHost (result AnyError unit) :=
  ret (Err (AnyMessage (lit "no"))).

Definition router : IsmpRouter AbsHost := fun id =>
  if decide (id = lit "to") then
    Ok (mkIsmpModule (fun _ => counting) (fun _ => counting) (fun _ => counting))
  else if decide (id = lit "bad") then
    Ok (mkIsmpModule (fun _ => failing) (fun _ => failing) (fun _ => failing))
  else Err (IsmpError (ModuleNotFound id)).

Definition host : @IsmpHost AbsHost keccak := @ref_host keccak here (Some here) [client] router.
Definition model : @HostModel keccak AbsHost host :=
  @ref_model keccak here (Some here) [client] router.

Lemma inv_any a : @inv keccak AbsHost host model a.
Proof. exact I. Defined.

Definition there_id : StateMachineId := mkStateMachineId there csid.
Definition at_height (n : Z) : StateMachineHeight := mkStateMachineHeight there_id n.

(** At second 1000 the client knows height 3 of [there], recorded at second 100 with
    a challenge period of one minute. *)
Definition init : AbsHost := mkAbsHost
  (mkConsensusStore {[ csid := lit "state" ]} {[ csid := ccid ]} {[ csid := 100000 ]}
     {[ there_id := 60 ]} ∅ {[ there_id := 3 ]} {[ csid := 900 ]}
     {[ at_height 3 := 100 ]} {[ at_height 3 := commitment 30 ]})
  (mkMessageStore ∅ ∅ ∅ ∅ ∅ 0) (from_secs 1000).

Definition proof_ok : Proof_ := mkProof (at_height 3) (lit "ok").

Definition post (to : bytes) (nonce : Z) : PostRequest :=
  mkPostRequest there here nonce (lit "from") to 2000 (lit "body").

End Demo.
