(* ===== verification/Frame.v ===== *)
(** * Frames: what a program can do to the abstract state

    [keeps R m] says that every run of [m], whether it returns, fails or panics,
    keeps the host's invariant and relates the abstract states before and after by
    [R]. It composes along the monad for any preorder, which gives the frame of a
    whole handler from those of the host's methods and of the modules. *)

From S2P Require Import Prelude StateMachine Router Messaging Host Handlers HostSpec.

Section keeps.
Context `{Keccak256} {St : Type} `{!IsmpHost St} `{!HostModel St}.

Definition keeps (R : relation AbsHost) {A} (m : M St A) : Prop :=
  forall s o s', inv s -> m s = (o, s') -> inv s' /\ R (abs s) (abs s').

Section combinators.
Context (R : relation AbsHost) `{!PreOrder R}.

Lemma keeps_ret {A} (a : A) : keeps R (ret a).
Proof. intros s o s' Hs [= <- <-]. by split. Qed.

Lemma keeps_panic {A} : keeps R (panic (A := A)).
Proof. intros s o s' Hs [= <- <-]. by split. Qed.

Lemma keeps_or_panic {A} (o : option A) : keeps R (or_panic o).
Proof. destruct o; [apply keeps_ret|apply keeps_panic]. Qed.

Lemma keeps_gets {A} (f : St -> A) : keeps R (gets f).
Proof. intros s o s' Hs [= <- <-]. by split. Qed.

Lemma keeps_ask {A} (f : St -> option A) : keeps R (ask f).
Proof. intros s o s' Hs [= <- <-]. by split. Qed.

Lemma keeps_ensure_not {E} c (e : E) : keeps R (ensure_not c e).
Proof. apply keeps_ret. Qed.

Lemma keeps_bind {A B} (m : M St A) (k : A -> M St B) :
  keeps R m -> (forall a, keeps R (k a)) -> keeps R (bind m k).
Proof.
  intros Hm Hk s o s'' Hs. unfold bind. destruct (m s) as [[a|] s'] eqn:E.
  - destruct (Hm _ _ _ Hs E) as [Hs' HR]. intros Hrun.
    destruct (Hk _ _ _ _ Hs' Hrun). split; [done|]. by etransitivity.
  - intros [= <- <-]. by apply (Hm _ _ _ Hs E).
Qed.

Lemma keeps_try {A B E F} `{From E F} (m : M St (result E A))
    (k : A -> M St (result F B)) :
  keeps R m -> (forall a, keeps R (k a)) -> keeps R (try_bind m k).
Proof.
  intros. apply keeps_bind; [done|]. intros [a|e]; [done|apply keeps_ret].
Qed.

Lemma keeps_map_ok_m {E A B} (r : result E A) (f : A -> M St B) :
  (forall a, keeps R (f a)) -> keeps R (map_ok_m r f).
Proof.
  intros. destruct r; [apply keeps_bind; [done|]; intros|]; apply keeps_ret.
Qed.

Lemma keeps_for_each {A E} (l : list A) (body : A -> M St (result E unit)) :
  (forall x, keeps R (body x)) -> keeps R (for_each l body).
Proof.
  intros Hb. induction l; simpl; [apply keeps_ret|by apply keeps_try].
Qed.

Lemma keeps_map_m {A B} (f : A -> M St B) (l : list A) :
  (forall x, keeps R (f x)) -> keeps R (map_m f l).
Proof.
  intros Hf. induction l; simpl; [apply keeps_ret|].
  apply keeps_bind; [done|]. intros. apply keeps_bind; [done|].
  intros; apply keeps_ret.
Qed.

Lemma keeps_try_map_m {A B E} (f : A -> M St (result E B)) (l : list A) :
  (forall x, keeps R (f x)) -> keeps R (try_map_m f l).
Proof.
  intros Hf. induction l; simpl; [apply keeps_ret|].
  apply keeps_try; [done|]. intros. apply keeps_try; [done|].
  intros; apply keeps_ret.
Qed.

Lemma keeps_try_fold_m {A B E} (f : B -> A -> M St (result E B)) b (l : list A) :
  (forall b x, keeps R (f b x)) -> keeps R (try_fold_m f b l).
Proof.
  intros Hf. revert b. induction l; intros b; simpl; [apply keeps_ret|].
  by apply keeps_try.
Qed.

Lemma keeps_implements {A} (m : M St A) (f : M AbsHost A) :
  implements abs inv m f -> (forall a, R a (snd (f a))) -> keeps R m.
Proof.
  intros Hi HR s o s' Hs E. destruct (Hi s Hs) as (_ & Ha & Hv).
  rewrite E in Ha, Hv. simpl in Ha, Hv. by rewrite Ha.
Qed.

Lemma on_hash_rel {A} o (k : H256 -> M AbsHost A) a :
  (forall h, R a (snd (k h a))) -> R a (snd (on_hash o k a)).
Proof. intros Hk. destruct o; simpl; [apply Hk|done]. Qed.

End combinators.

Lemma keeps_weaken (R R' : relation AbsHost) {A} (m : M St A) :
  (forall a a', R a a' -> R' a a') -> keeps R m -> keeps R' m.
Proof. intros HR Hm s o s' Hs E. destruct (Hm _ _ _ Hs E). auto. Qed.

(** A read-only program ran in the same abstract state. *)
Lemma keeps_eq_run {A} (m : M St A) s o s' :
  keeps eq m -> inv s -> m s = (o, s') -> inv s' /\ abs s' = abs s.
Proof. intros Hm Hs E. destruct (Hm _ _ _ Hs E) as [? ->]. done. Qed.

(** ** Total runs

    [runs m s v a]: from [s], [m] returns [v] and reaches the abstract state [a]. *)

Definition runs {A} (m : M St A) (s : St) (v : A) (a : AbsHost) : Prop :=
  exists s', m s = (Some v, s') /\ inv s' /\ abs s' = a.

Lemma runs_ret {A} (v : A) s : inv s -> runs (ret v) s v (abs s).
Proof. intros. exists s. by repeat split. Qed.

Lemma runs_ret_at {A} (v : A) s a : inv s -> abs s = a -> runs (ret v) s v a.
Proof. intros ? <-. by apply runs_ret. Qed.

Lemma runs_gets {A} (f : St -> A) s v : inv s -> f s = v -> runs (gets f) s v (abs s).
Proof. intros ? <-. exists s. by repeat split. Qed.

Lemma runs_ask {A} (f : St -> option A) s v :
  inv s -> f s = Some v -> runs (ask f) s v (abs s).
Proof. intros ? Hf. exists s. unfold ask. by rewrite Hf. Qed.

Lemma runs_bind {A B} (m : M St A) (k : A -> M St B) s x a1 v a2 :
  runs m s x a1 ->
  (forall s1, inv s1 -> abs s1 = a1 -> runs (k x) s1 v a2) -> runs (bind m k) s v a2.
Proof.
  intros (s1 & E & Hi & Ha) Hk. destruct (Hk s1 Hi Ha) as (s2 & E2 & ? & ?).
  exists s2. by rewrite (bind_some _ _ _ _ _ E).
Qed.

Lemma runs_try {A B E F} `{From E F} (m : M St (result E A))
    (k : A -> M St (result F B)) s x a1 v a2 :
  runs m s (Ok x) a1 ->
  (forall s1, inv s1 -> abs s1 = a1 -> runs (k x) s1 v a2) -> runs (try_bind m k) s v a2.
Proof. intros Hm Hk. by apply (runs_bind _ _ _ (Ok x) a1). Qed.

Lemma runs_write m f s :
  implements abs inv m (spec_write f) -> inv s -> runs m s (Ok tt) (f (abs s)).
Proof.
  intros Hi Hs. destruct (Hi s Hs) as (H1 & H2 & H3).
  simpl in H1, H2. exists (snd (m s)). repeat split; [|done..].
  rewrite <- H1. apply surjective_pairing.
Qed.

Lemma runs_write_at m f s a :
  implements abs inv m (spec_write f) -> inv s -> f (abs s) = a -> runs m s (Ok tt) a.
Proof. intros Hi Hs <-. by apply runs_write. Qed.

Lemma runs_fun {A} (m : M St A) s v a o s' :
  runs m s v a -> m s = (o, s') -> o = Some v /\ inv s' /\ abs s' = a.
Proof. intros (s1 & E & Hi & Ha) E'. rewrite E in E'. by injection E' as <- <-. Qed.

(** A loop whose body always succeeds. *)
Lemma runs_for_each {A E} (body : A -> M St (result E unit)) (g : A -> AbsHost -> AbsHost)
    (P : AbsHost -> Prop) l s :
  (forall x a, P a -> P (g x a)) ->
  (forall x s, inv s -> P (abs s) -> runs (body x) s (Ok tt) (g x (abs s))) ->
  inv s -> P (abs s) ->
  runs (for_each l body) s (Ok tt) (foldl (fun a x => g x a) (abs s) l).
Proof.
  intros HP Hb. revert s. induction l as [|x l IH]; intros s Hs HPs; cbn [for_each foldl].
  - by apply runs_ret.
  - eapply runs_try; [by apply Hb|]. intros s1 Hs1 Ha1. rewrite <- Ha1.
    apply IH; [done|]. rewrite Ha1. auto.
Qed.

(** A loop that threads a value [b] and a function [h] of the abstract state. *)
Lemma runs_try_fold_m {A B E C} (f : B -> A -> M St (result E B))
    (g : B * C -> A -> B * C) (put : C -> AbsHost -> AbsHost) (get : AbsHost -> C)
    (P : AbsHost -> Prop) l b s :
  (forall a, put (get a) a = a) ->
  (forall c a, get (put c a) = c) ->
  (forall c c' a, put c (put c' a) = put c a) ->
  (forall c a, P a -> P (put c a)) ->
  (forall b x s, inv s -> P (abs s) ->
     runs (f b x) s (Ok (g (b, get (abs s)) x).1) (put (g (b, get (abs s)) x).2 (abs s))) ->
  inv s -> P (abs s) ->
  runs (try_fold_m f b l) s (Ok (foldl g (b, get (abs s)) l).1)
    (put (foldl g (b, get (abs s)) l).2 (abs s)).
Proof.
  intros Hid Hgp Hpp HP Hf. revert b s.
  induction l as [|x l IH]; intros b s Hs HPs; cbn [try_fold_m foldl].
  - cbn [fst snd]. rewrite Hid. by apply runs_ret.
  - eapply runs_try; [by apply Hf|]. intros s1 Hs1 Ha1.
    pose proof (IH (g (b, get (abs s)) x).1 s1 Hs1 ltac:(rewrite Ha1; auto)) as Hr.
    rewrite Ha1, Hgp, Hpp in Hr. by rewrite <- surjective_pairing in Hr.
Qed.

End keeps.

(** Frame rules for the combinators, applied in program order. *)
Ltac keeps_step :=
  lazymatch goal with
  | |- keeps _ (ret _) => apply keeps_ret; typeclasses eauto
  | |- keeps _ panic => apply keeps_panic; typeclasses eauto
  | |- keeps _ (or_panic _) => apply keeps_or_panic; typeclasses eauto
  | |- keeps _ (gets _) => apply keeps_gets; typeclasses eauto
  | |- keeps _ (ask _) => apply keeps_ask; typeclasses eauto
  | |- keeps _ (ensure_not _ _) => apply keeps_ensure_not; typeclasses eauto
  | |- keeps _ (bind _ _) => apply keeps_bind; [typeclasses eauto| |intros]
  | |- keeps _ (try_bind _ _) => apply keeps_try; [typeclasses eauto| |intros]
  | |- keeps _ (map_ok_m _ _) => apply keeps_map_ok_m; [typeclasses eauto|intros]
  | |- keeps _ (for_each _ _) => apply keeps_for_each; [typeclasses eauto|intros]
  | |- keeps _ (map_m _ _) => apply keeps_map_m; [typeclasses eauto|intros]
  | |- keeps _ (try_map_m _ _) => apply keeps_try_map_m; [typeclasses eauto|intros]
  | |- keeps _ (try_fold_m _ _ _) => apply keeps_try_fold_m; [typeclasses eauto|intros]
  | |- keeps _ (match ?x with _ => _ end) => destruct x
  | |- keeps _ (let _ := _ in _) => cbv zeta
  | |- keeps _ _ => solve [eauto with keeps]
  end.

Ltac keeps_solve := repeat keeps_step.

Create HintDb keeps discriminated.

(** ** Read-only programs *)

Section read_only.
Context `{Keccak256} {St : Type} `{!IsmpHost St} `{!HostModel St}.

Lemma request_receipt_keeps R `{!PreOrder R} r : keeps R (request_receipt r).
Proof.
  eapply keeps_implements; [apply request_receipt_impl|].
  intros a. unfold spec_request_receipt. apply on_hash_rel; [done|]. intros h. reflexivity.
Qed.

Lemma response_receipt_keeps R `{!PreOrder R} r : keeps R (response_receipt r).
Proof.
  eapply keeps_implements; [apply response_receipt_impl|].
  intros a. unfold spec_response_receipt. apply on_hash_rel; [done|]. intros h. reflexivity.
Qed.

End read_only.

#[export] Hint Extern 2 (keeps _ (request_receipt _)) =>
  apply request_receipt_keeps; typeclasses eauto : keeps.
#[export] Hint Extern 2 (keeps _ (response_receipt _)) =>
  apply response_receipt_keeps; typeclasses eauto : keeps.

Section checks.
Context `{Keccak256} {St : Type} `{!IsmpHost St} `{!HostModel St}.

Lemma validate_state_machine_keeps R `{!PreOrder R} h : keeps R (validate_state_machine h).
Proof. unfold validate_state_machine, verify_delay_passed. keeps_solve. Qed.

Lemma check_request_keeps R `{!PreOrder R} proof p : keeps R (check_request proof p).
Proof. unfold check_request. keeps_solve. Qed.

Lemma check_response_keeps R `{!PreOrder R} proof r : keeps R (check_response proof r).
Proof. unfold check_response. keeps_solve. Qed.

Lemma check_get_keeps R `{!PreOrder R} proof l r : keeps R (check_get proof l r).
Proof. unfold check_get. keeps_solve. Qed.

Lemma check_post_timeout_keeps R `{!PreOrder R} proof st r :
  keeps R (check_post_timeout proof st r).
Proof. unfold check_post_timeout. keeps_solve. Qed.

Lemma check_response_timeout_keeps R `{!PreOrder R} proof st r :
  keeps R (check_response_timeout proof st r).
Proof. unfold check_response_timeout. keeps_solve. Qed.

Lemma check_get_timeout_keeps R `{!PreOrder R} r : keeps R (check_get_timeout r).
Proof. unfold check_get_timeout. keeps_solve. Qed.

End checks.

Ltac keeps_check := first
  [ apply validate_state_machine_keeps | apply check_request_keeps
  | apply check_response_keeps | apply check_get_keeps | apply check_post_timeout_keeps
  | apply check_response_timeout_keeps | apply check_get_timeout_keeps ];
  typeclasses eauto.
#[export] Hint Extern 2 (keeps _ _) => keeps_check : keeps.

(** ** What modules may do

    A callback may dispatch new requests and responses (commitments, nonce, the set
    of answered requests) and change anything outside the ISMP store, but neither
    receipts nor consensus data. *)

Record callback_frame (a a' : AbsHost) : Prop := {
  cf_cons : a_cons a' = a_cons a;
  cf_now : a_now a' = a_now a;
  cf_req_receipts : m_req_receipts (a_msgs a') = m_req_receipts (a_msgs a);
  cf_res_receipts : m_res_receipts (a_msgs a') = m_res_receipts (a_msgs a);
  cf_req_commitments : m_req_commitments (a_msgs a) ⊆ m_req_commitments (a_msgs a');
  cf_res_commitments : m_res_commitments (a_msgs a) ⊆ m_res_commitments (a_msgs a')
}.

#[export] Instance callback_frame_preorder : PreOrder callback_frame.
Proof.
  split; [by split|]. intros a b c [] []. split; try congruence; by etransitivity.
Qed.

(** Consensus data and clock are those before. *)
Definition cons_frame (a a' : AbsHost) : Prop :=
  a_cons a' = a_cons a /\ a_now a' = a_now a.

#[export] Instance cons_frame_preorder : PreOrder cons_frame.
Proof. split; [by split|]. intros a b c [] []. split; congruence. Qed.

Class RouterFrame (St : Type) `{HostModel St} : Prop :=
  router_frame : forall id md, ismp_router id = Ok md ->
    (forall p, keeps callback_frame (on_accept md p)) /\
    (forall r, keeps callback_frame (on_response md r)) /\
    (forall t, keeps callback_frame (on_timeout md t)).

Section modules.
Context `{Keccak256} {St : Type} `{!IsmpHost St} `{!HostModel St}.

Lemma callback_cons_frame {A} (m : M St A) : keeps callback_frame m -> keeps cons_frame m.
Proof. apply keeps_weaken. intros a a' []. by split. Qed.

(** The message methods of the host leave the consensus data alone. *)
Ltac method_frame impl :=
  eapply keeps_implements; [by apply impl|]; intros ?;
  unfold spec_store_request_receipt, spec_store_response_receipt,
    spec_delete_request_receipt, spec_delete_response_receipt,
    spec_delete_request_commitment, spec_delete_response_commitment,
    spec_store_request_commitment, spec_store_response_commitment;
  repeat (apply on_hash_rel; [typeclasses eauto|]; intros ?);
  repeat case_match; by split.

Lemma store_request_receipt_frame r sg : keeps cons_frame (store_request_receipt r sg).
Proof. method_frame store_request_receipt_impl. Qed.
Lemma store_response_receipt_frame r sg : keeps cons_frame (store_response_receipt r sg).
Proof. method_frame store_response_receipt_impl. Qed.
Lemma delete_request_receipt_frame r : keeps cons_frame (delete_request_receipt r).
Proof. method_frame delete_request_receipt_impl. Qed.
Lemma delete_response_receipt_frame r : keeps cons_frame (delete_response_receipt r).
Proof. method_frame delete_response_receipt_impl. Qed.
Lemma delete_request_commitment_frame r : keeps cons_frame (delete_request_commitment r).
Proof. method_frame delete_request_commitment_impl. Qed.
Lemma delete_response_commitment_frame r : keeps cons_frame (delete_response_commitment r).
Proof. method_frame delete_response_commitment_impl. Qed.
Lemma store_request_commitment_frame r meta :
  meta_ok meta -> keeps cons_frame (store_request_commitment r meta).
Proof. intros. method_frame store_request_commitment_impl. Qed.
Lemma store_response_commitment_frame r meta :
  meta_ok meta -> keeps cons_frame (store_response_commitment r meta).
Proof. intros. method_frame store_response_commitment_impl. Qed.

(** ** Loops of checks *)

Lemma for_each_checks {A E} (body : A -> M St (result E unit)) l s u s' :
  (forall x, keeps eq (body x)) -> inv s -> for_each l body s = (Some (Ok u), s') ->
  inv s' /\ abs s' = abs s /\
  forall x, x ∈ l -> exists s1 s2, inv s1 /\ abs s1 = abs s /\ body x s1 = (Some (Ok tt), s2).
Proof.
  intros Hb. revert s. induction l as [|x l IH]; intros s Hs Hrun; cbn [for_each] in Hrun.
  - apply ret_inv in Hrun as [_ <-]. split; [done|]. split; [done|].
    intros x Hx. by apply not_elem_of_nil in Hx.
  - apply try_ok_inv in Hrun as ([] & s1 & Hx & Hrun).
    destruct (keeps_eq_run _ _ _ _ (Hb x) Hs Hx) as [Hs1 Ha1].
    destruct (IH s1 Hs1 Hrun) as (? & Ha & Hall).
    split; [done|]. split; [congruence|]. intros y [->|Hy]%elem_of_cons; [by exists s, s1|].
    destruct (Hall y Hy) as (t1 & t2 & ? & ? & ?). exists t1, t2. split; [done|].
    split; [congruence|done].
Qed.

(** A batch whose checks fail at some element is refused. *)
Lemma for_each_refuses {A E} (body : A -> M St (result E unit)) l x s o s' :
  (forall x, keeps eq (body x)) -> inv s -> x ∈ l ->
  (forall s1 s2, inv s1 -> abs s1 = abs s -> body x s1 <> (Some (Ok tt), s2)) ->
  for_each l body s = (o, s') -> forall u, o <> Some (Ok u).
Proof.
  intros Hb Hs Hx Hbad Hrun u ->. destruct (for_each_checks _ _ _ _ _ Hb Hs Hrun) as (_ & _ & Hall).
  destruct (Hall x Hx) as (s1 & s2 & ? & ? & E0). by eapply Hbad.
Qed.

End modules.

#[export] Hint Resolve store_request_receipt_frame store_response_receipt_frame
  delete_request_receipt_frame delete_response_receipt_frame
  delete_request_commitment_frame delete_response_commitment_frame
  store_request_commitment_frame store_response_commitment_frame : keeps.
