(* ===== verification/Consensus.v ===== *)
(** * The consensus handlers

    [handlers/consensus.rs]: updating, creating and freezing consensus clients.
    The storage effect of a consensus update is a pure function on the abstract
    consensus store, [ref_update]; [update_client] refines it, and the properties
    of the stored heights and commitments are proved on it. *)

From S2P Require Import Prelude StateMachine Router Messaging Host Handlers HostSpec RefHost Frame.

(** ** The reference update *)

Section reference.
Context `{!HeightSort}.
Context (now : Duration).

(** Record a commitment and the time it was made. *)
Definition ref_store (h : StateMachineHeight) (c : StateCommitment) (cs : ConsensusStore) :
    ConsensusStore :=
  set_sm_updated <[h := as_secs now]> (set_commitments <[h := c]> cs).

Definition ref_height (id : StateMachineId) (prev : Z)
    (acc : option StateMachineHeight * ConsensusStore) (c : StateCommitmentHeight) :
    option StateMachineHeight * ConsensusStore :=
  let h := mkStateMachineHeight id (sch_height c) in
  if sch_height c <? prev then acc
  else if decide (is_Some (c_commitments acc.2 !! h)) then acc
  else (Some h, ref_store h (sch_commitment c) acc.2).

Definition ref_machine (csid : ConsensusStateId) (acc : list Event * ConsensusStore)
    (entry : StateMachine * list StateCommitmentHeight) : list Event * ConsensusStore :=
  let id := mkStateMachineId entry.1 csid in
  let prev := default 0 (c_latest acc.2 !! id) in
  let res := foldl (ref_height id prev) (None, acc.2) (sort_heights entry.2) in
  match res.1 with
  | None => (acc.1, res.2)
  | Some h => (acc.1 ++ [EvStateMachineUpdated (mkStateMachineUpdated id (smh_height h))],
               set_latest <[id := smh_height h]> res.2)
  end.

Definition ref_update (csid : ConsensusStateId) (new_state : bytes)
    (states : VerifiedCommitments) (cs : ConsensusStore) : list Event * ConsensusStore :=
  foldl (ref_machine csid)
    ([], set_updated <[csid := as_secs now]> (set_states <[csid := new_state]> cs)) states.

(** *** One state machine *)

(** The effect on the commitments of a sequence of heights of one machine. *)
Record heights_spec (id : StateMachineId) (prev : Z) (l : list StateCommitmentHeight)
    (last : option StateMachineHeight) (cs cs' : ConsensusStore) : Prop := {
  hs_old : forall h c, c_commitments cs !! h = Some c -> c_commitments cs' !! h = Some c;
  hs_new : forall h c, c_commitments cs' !! h = Some c ->
    c_commitments cs !! h = Some c \/
    (smh_id h = id /\ prev <= smh_height h /\
     exists x, x ∈ l /\ sch_height x = smh_height h /\ sch_commitment x = c);
  hs_all : forall x, x ∈ l -> prev <= sch_height x ->
    is_Some (c_commitments cs' !! mkStateMachineHeight id (sch_height x));
  hs_time : forall h, c_sm_updated cs' !! h =
    if decide (c_commitments cs !! h = None /\ is_Some (c_commitments cs' !! h))
    then Some (as_secs now) else c_sm_updated cs !! h;
  hs_rest : c_states cs' = c_states cs /\ c_clients cs' = c_clients cs /\
    c_unbonding cs' = c_unbonding cs /\ c_challenge cs' = c_challenge cs /\
    c_frozen cs' = c_frozen cs /\ c_latest cs' = c_latest cs /\ c_updated cs' = c_updated cs;
  hs_last : match last with
    | None => c_commitments cs' = c_commitments cs
    | Some h => smh_id h = id /\ prev <= smh_height h /\
        c_commitments cs !! h = None /\ is_Some (c_commitments cs' !! h) /\
        forall h', c_commitments cs !! h' = None -> is_Some (c_commitments cs' !! h') ->
          smh_height h' <= smh_height h
    end
}.

Lemma decide_same_none {A B} (x : option A) (a b : B) :
  (if decide (x = None /\ is_Some x) then a else b) = b.
Proof. case_decide as Hd; [|done]. destruct Hd as [-> [? ?]]. done. Qed.

Lemma ref_height_snoc id prev l c last cs cs' :
  heights_spec id prev l last cs cs' ->
  (forall h, last = Some h -> smh_height h <= sch_height c) ->
  heights_spec id prev (l ++ [c]) (ref_height id prev (last, cs') c).1 cs
    (ref_height id prev (last, cs') c).2.
Proof.
  intros [Ho Hn Ha Ht Hr Hl] Hord. unfold ref_height. cbn [fst snd].
  set (hh := mkStateMachineHeight id (sch_height c)).
  destruct (Z.ltb_spec (sch_height c) prev) as [Hlt|Hge]; cbn [fst snd].
  { split; auto.
    - intros h x Hx. destruct (Hn h x Hx) as [?|(? & ? & y & ? & ?)]; [auto|right].
      set_solver.
    - intros x [Hx|Hx%list_elem_of_singleton]%elem_of_app Hp; [auto|subst; lia]. }
  case_decide as Hex; cbn [fst snd].
  { split; auto.
    - intros h x Hx. destruct (Hn h x Hx) as [?|(? & ? & y & ? & ?)]; [auto|right].
      set_solver.
    - intros x [Hx|Hx%list_elem_of_singleton]%elem_of_app Hp; [auto|by subst]. }
  apply eq_None_not_Some in Hex.
  assert (c_commitments cs !! hh = None) as Hnew.
  { destruct (c_commitments cs !! hh) eqn:E; [|done]. apply Ho in E. congruence. }
  split; cbn.
  - intros h x Hx. rewrite lookup_insert_ne; [auto|]. intros ->. congruence.
  - intros h x. rewrite lookup_insert. case_decide as Hh.
    + intros [= <-]. right. subst h. split; [done|]. split; [done|].
      exists c. set_solver.
    + intros Hx. destruct (Hn h x Hx) as [?|(? & ? & y & ? & ?)]; [auto|right].
      set_solver.
  - intros x Hx Hp. rewrite lookup_insert. case_decide; [eauto|].
    apply elem_of_app in Hx as [Hx|Hx%list_elem_of_singleton]; [auto|by subst].
  - intros h. rewrite !lookup_insert. destruct (decide (hh = h)) as [<-|Hh].
    + rewrite decide_True; eauto.
    + apply Ht.
  - done.
  - split; [done|]. split; [done|]. split; [done|].
    rewrite lookup_insert_eq. split; [eauto|]. intros h' Hh'. rewrite lookup_insert. case_decide as Hc; [by subst; intros _; simpl|].
    intros Hs. destruct last as [h|]; [|rewrite Hl, Hh' in Hs; by destruct Hs].
    destruct Hl as (_ & _ & _ & _ & Hmax). simpl.
    etransitivity; [by apply Hmax|by apply Hord].
Qed.

Lemma heights_spec_nil id prev cs : heights_spec id prev [] None cs cs.
Proof.
  split; auto.
  - intros x Hx. by apply not_elem_of_nil in Hx.
  - intros h. by rewrite decide_same_none.
  - repeat split.
Qed.

(** The heights recorded so far are those of the list walked so far. *)
Lemma ref_height_last_in id prev l cs h :
  (foldl (ref_height id prev) (None, cs) l).1 = Some h ->
  exists c, c ∈ l /\ smh_height h = sch_height c.
Proof.
  induction l as [|c l IH] using rev_ind; [done|]. rewrite foldl_app. cbn [foldl].
  set (acc := foldl _ _ _) in *. unfold ref_height.
  destruct (_ <? _); [intros E; destruct (IH E) as (x & ? & ?); exists x; set_solver|].
  case_decide; [intros E; destruct (IH E) as (x & ? & ?); exists x; set_solver|].
  intros [= <-]. exists c. set_solver.
Qed.

Lemma StronglySorted_snoc {A} (P : A -> A -> Prop) l c :
  StronglySorted P (l ++ [c]) -> StronglySorted P l /\ forall x, x ∈ l -> P x c.
Proof.
  induction l as [|y l IH]; cbn [app]; intros Hs.
  - split; [constructor|]. intros x Hx. by apply not_elem_of_nil in Hx.
  - apply StronglySorted_inv in Hs as [Hs Hf]. destruct (IH Hs) as [Hs' Hall].
    apply Forall_app in Hf as [Hf Hc%Forall_inv].
    split; [by constructor|]. intros x Hx.
    apply elem_of_cons in Hx as [->|Hx]; [done|by apply Hall].
Qed.

Lemma ref_heights_spec id prev l cs :
  StronglySorted (fun a b => sch_height a <= sch_height b) l ->
  let res := foldl (ref_height id prev) (None, cs) l in
  heights_spec id prev l res.1 cs res.2.
Proof.
  induction l as [|c l IH] using rev_ind; intros Hs.
  - apply heights_spec_nil.
  - rewrite foldl_app. cbn [foldl].
    apply StronglySorted_snoc in Hs as [Hs Hc]. specialize (IH Hs). cbv zeta in IH.
    destruct (foldl (ref_height id prev) (None, cs) l) as [last cs'] eqn:E.
    apply ref_height_snoc; [done|]. intros h Hh.
    destruct (ref_height_last_in id prev l cs h) as (x & Hx & ->); [by rewrite E|].
    by apply Hc.
Qed.

(** *** A whole update *)

(** What a consensus update may do to the consensus store: commitments, their
    times, latest heights and the configuration, compared before and after. *)
Record evolves_cons (cs cs' : ConsensusStore) : Prop := {
  ev_frozen : c_frozen cs ⊆ c_frozen cs';
  ev_commitments : c_commitments cs ⊆ c_commitments cs';
  ev_times : forall h, is_Some (c_commitments cs !! h) ->
    c_sm_updated cs' !! h = c_sm_updated cs !! h;
  ev_latest : forall id n, c_latest cs !! id = Some n ->
    exists n', c_latest cs' !! id = Some n' /\ n <= n';
  ev_default : forall id, default 0 (c_latest cs !! id) <= default 0 (c_latest cs' !! id);
  ev_clients : c_clients cs' = c_clients cs;
  ev_unbonding : c_unbonding cs' = c_unbonding cs;
  ev_challenge : c_challenge cs' = c_challenge cs
}.

#[export] Instance evolves_cons_preorder : PreOrder evolves_cons.
Proof.
  split.
  - intros cs. split; try done. intros id n Hn. exists n. split; [done|lia].
  - intros a b c [F1 C1 T1 L1 D1 K1 U1 P1] [F2 C2 T2 L2 D2 K2 U2 P2]. split; try congruence.
    + set_solver.
    + by etransitivity.
    + intros h Hh. rewrite T2, T1; auto. destruct Hh as [x Hx]. exists x.
      eapply lookup_weaken; eauto.
    + intros id n Hn. destruct (L1 _ _ Hn) as (n' & Hn' & ?).
      destruct (L2 _ _ Hn') as (n'' & ? & ?). exists n''. split; [done|lia].
    + intros id. specialize (D1 id). specialize (D2 id). lia.
Qed.

Lemma ref_machine_spec csid acc entry :
  let id := mkStateMachineId entry.1 csid in
  let prev := default 0 (c_latest acc.2 !! id) in
  exists last cs1, heights_spec id prev (sort_heights entry.2) last acc.2 cs1 /\
    match last with
    | None => ref_machine csid acc entry = (acc.1, cs1)
    | Some h => ref_machine csid acc entry
        = (acc.1 ++ [EvStateMachineUpdated (mkStateMachineUpdated id (smh_height h))],
           set_latest <[id := smh_height h]> cs1)
    end.
Proof.
  cbv zeta.
  pose proof (ref_heights_spec (mkStateMachineId entry.1 csid)
    (default 0 (c_latest acc.2 !! mkStateMachineId entry.1 csid))
    (sort_heights entry.2) acc.2 (sort_heights_sorted entry.2)) as Hs. cbv zeta in Hs.
  unfold ref_machine. cbv zeta. destruct (foldl _ _ _) as [last cs1]. cbn [fst snd] in *.
  exists last, cs1. split; [exact Hs|]. by destruct last.
Qed.

Lemma heights_spec_evolves id prev l last cs cs1 :
  heights_spec id prev l last cs cs1 -> evolves_cons cs cs1.
Proof.
  intros [Ho Hn Ha Ht (_ & Hc & Hu & Hp & Hf & Hl & _) _]. split; [by rewrite Hf| | | | |done..].
  - apply map_subseteq_spec. exact Ho.
  - intros h [x Hx]. rewrite Ht, decide_False; [done|]. intros [? _]. congruence.
  - intros i n Hi. exists n. rewrite Hl. split; [done|lia].
  - intros i. by rewrite Hl.
Qed.

Lemma ref_machine_evolves csid acc entry :
  evolves_cons acc.2 (ref_machine csid acc entry).2.
Proof.
  destruct (ref_machine_spec csid acc entry) as (last & cs1 & Hs & E).
  pose proof (heights_spec_evolves _ _ _ _ _ _ Hs) as Hev.
  destruct last as [h|]; rewrite E; [|done]. cbn [snd].
  destruct Hev as [F C T L D K U P].
  destruct Hs as [_ _ _ _ (_ & _ & _ & _ & _ & Hl & _) (_ & Hge & _)].
  split; try done; cbn.
  - intros id n Hn. rewrite lookup_insert. case_decide as Hid.
    + subst id. rewrite Hn in Hge. exists (smh_height h). split; [done|]. exact Hge.
    + exists n. rewrite Hl. split; [done|lia].
  - intros id. rewrite lookup_insert. case_decide as Hid; [by subst id|by rewrite Hl].
Qed.

Lemma ref_update_evolves csid new_state states cs :
  evolves_cons cs (ref_update csid new_state states cs).2.
Proof.
  unfold ref_update.
  assert (evolves_cons cs
    (set_updated <[csid := as_secs now]> (set_states <[csid := new_state]> cs))) as H0.
  { split; try done. intros id n Hn. exists n. split; [done|lia]. }
  revert H0. generalize (set_updated <[csid := as_secs now]>
    (set_states <[csid := new_state]> cs)) as cs0. generalize (@nil Event) as evs.
  induction states as [|e states IH]; intros evs cs0 H0; cbn [foldl]; [done|].
  pose proof (ref_machine_evolves csid (evs, cs0) e) as H1.
  destruct (ref_machine csid (evs, cs0) e) as [evs1 cs1]. apply IH.
  by etransitivity.
Qed.

(** *** Where new commitments come from, and the latest heights *)

Definition is_new (cs cs' : ConsensusStore) (h : StateMachineHeight) : Prop :=
  c_commitments cs !! h = None /\ is_Some (c_commitments cs' !! h).

(** The latest height of every machine is untouched, or is the greatest height
    newly recorded for it. *)
Definition latest_spec (cs cs' : ConsensusStore) : Prop :=
  forall id,
    (c_latest cs' !! id = c_latest cs !! id /\ forall h, is_new cs cs' h -> smh_id h <> id) \/
    (exists h, is_new cs cs' h /\ smh_id h = id /\ c_latest cs' !! id = Some (smh_height h) /\
       forall h', is_new cs cs' h' -> smh_id h' = id -> smh_height h' <= smh_height h).

(** Every new commitment is one of the verified ones, at no lower height than the
    latest known. *)
Definition provenance (csid : ConsensusStateId) (states : VerifiedCommitments)
    (cs cs' : ConsensusStore) : Prop :=
  forall h c, c_commitments cs' !! h = Some c ->
    c_commitments cs !! h = Some c \/
    (smi_consensus_state_id (smh_id h) = csid /\
     default 0 (c_latest cs !! smh_id h) <= smh_height h /\
     exists l x, (smi_state_id (smh_id h), l) ∈ states /\ x ∈ l /\
       sch_height x = smh_height h /\ sch_commitment x = c).

Lemma ref_machine_latest cs0 csid acc entry :
  evolves_cons cs0 acc.2 -> latest_spec cs0 acc.2 ->
  latest_spec cs0 (ref_machine csid acc entry).2.
Proof.
  intros Hev0 Hl0 id. specialize (Hl0 id).
  destruct (ref_machine_spec csid acc entry) as (last & cs1 & Hs & E).
  pose proof (ev_commitments _ _ Hev0) as Hsub. rewrite map_subseteq_spec in Hsub.
  destruct Hs as [Ho Hn _ _ (_ & _ & _ & _ & _ & Hlat & _) Hlast].
  destruct last as [h|]; rewrite E; cbn [snd].
  2: { unfold is_new in *. rewrite Hlat, Hlast. exact Hl0. }
  destruct Hlast as (Hid & Hge & Hnone & Hsome & Hmax).
  assert (forall h', is_new cs0 cs1 h' -> is_new cs0 acc.2 h' \/
            (smh_id h' = mkStateMachineId entry.1 csid /\ smh_height h' <= smh_height h)) as Hsplit.
  { intros h' [H0 [c Hc]]. destruct (c_commitments acc.2 !! h') eqn:Ea.
    - left. split; [done|]. by rewrite Ea.
    - right. split; [|apply Hmax; eauto].
      destruct (Hn _ _ Hc) as [?|(? & _)]; [congruence|done]. }
  assert (forall h', c_commitments acc.2 !! h' = None -> c_commitments cs0 !! h' = None) as Hback.
  { intros h' Ha. destruct (c_commitments cs0 !! h') eqn:E0; [|done].
    apply Hsub in E0. congruence. }
  destruct (decide (id = mkStateMachineId entry.1 csid)) as [->|Hne].
  - right. exists h. split; [by split; [apply Hback|]|]. split; [done|].
    split; [apply lookup_insert_eq|]. intros h' Hnew Hid'.
    destruct (Hsplit h' Hnew) as [Hold|[_ ?]]; [|done].
    destruct Hl0 as [[_ Hno]|(h0 & _ & _ & Hlat0 & Hmax0)]; [by destruct (Hno _ Hold)|].
    rewrite Hlat0 in Hge. simpl in Hge. specialize (Hmax0 h' Hold Hid'). lia.
  - destruct Hl0 as [[HL Hno]|(h0 & [Hn0 [c0 Hc0]] & Hi0 & Hlat0 & Hmax0)]; [left|right].
    + split; [cbn; rewrite lookup_insert_ne by done; by rewrite Hlat|]. intros h' Hnew.
      destruct (Hsplit h' Hnew) as [?|[Hi _]]; [by apply Hno|congruence].
    + exists h0. split; [split; [done|]; exists c0; by apply Ho|]. split; [done|].
      split; [cbn; rewrite lookup_insert_ne by done; by rewrite Hlat|]. intros h' Hnew Hid'.
      destruct (Hsplit h' Hnew) as [?|[Hi _]]; [by apply Hmax0|congruence].
Qed.

Lemma ref_machine_provenance cs0 csid acc entry states :
  evolves_cons cs0 acc.2 -> entry ∈ states -> provenance csid states cs0 acc.2 ->
  provenance csid states cs0 (ref_machine csid acc entry).2.
Proof.
  intros Hev Hin Hp h c Hc.
  destruct (ref_machine_spec csid acc entry) as (last & cs1 & Hs & E).
  assert (c_commitments cs1 !! h = Some c) as Hc1 by (by destruct last; rewrite E in Hc).
  destruct (hs_new _ _ _ _ _ _ Hs h c Hc1) as [Ha|(Hid & Hge & x & Hx & Hh & Hxc)];
    [by apply Hp|].
  right. rewrite Hid. split; [done|]. split.
  - etransitivity; [apply (ev_default _ _ Hev)|exact Hge].
  - exists entry.2, x. rewrite sort_heights_perm in Hx. by destruct entry.
Qed.

Lemma ref_update_facts csid new_state states cs :
  let cs' := (ref_update csid new_state states cs).2 in
  latest_spec cs cs' /\ provenance csid states cs cs' /\
  c_states cs' = <[csid := new_state]> (c_states cs) /\
  c_updated cs' = <[csid := as_secs now]> (c_updated cs) /\ c_frozen cs' = c_frozen cs.
Proof.
  cbv zeta. unfold ref_update.
  set (cs0 := set_updated _ _).
  assert (evolves_cons cs cs0) as Hev0.
  { split; try done. intros id n Hn. exists n. split; [done|lia]. }
  assert (forall evs cs1 l, l ⊆ states -> evolves_cons cs cs1 -> latest_spec cs cs1 ->
    provenance csid states cs cs1 ->
    let cs' := (foldl (ref_machine csid) (evs, cs1) l).2 in
    latest_spec cs cs' /\ provenance csid states cs cs' /\ c_states cs' = c_states cs1 /\
    c_updated cs' = c_updated cs1 /\ c_frozen cs' = c_frozen cs1) as Hgo.
  { intros evs cs1 l. revert evs cs1. induction l as [|e l IH]; intros evs cs1 Hl Hev Hla Hp;
      cbn [foldl]; [done|].
    pose proof (ref_machine_evolves csid (evs, cs1) e) as Hev1.
    pose proof (ref_machine_latest cs csid (evs, cs1) e Hev Hla) as Hla1.
    pose proof (ref_machine_provenance cs csid (evs, cs1) e states Hev
                  ltac:(apply Hl; left) Hp) as Hp1.
    destruct (ref_machine_spec csid (evs, cs1) e) as (last & cs2 & Hs & E).
    destruct Hs as [_ _ _ _ (Hst & _ & _ & _ & Hfr & _ & Hup) _].
    destruct (ref_machine csid (evs, cs1) e) as [evs' cs1'].
    cbn [snd] in *. destruct (IH evs' cs1') as (? & ? & E1 & E2 & E3);
      [by intros x Hx; apply Hl; right|by etransitivity|done|done|].
    split; [done|]. split; [done|]. rewrite E1, E2, E3.
    by destruct last; injection E as _ ->. }
  apply (Hgo [] cs0 states); [done|done| |].
  - intros id. left. split; [done|]. intros h [? [? ?]]. cbn in *. congruence.
  - intros h c Hc. by left.
Qed.

Lemma foldl_ref_machine_evolves csid l acc :
  evolves_cons acc.2 (foldl (ref_machine csid) acc l).2.
Proof.
  revert acc; induction l as [|e l IH]; intros acc; cbn [foldl]; [done|].
  etransitivity; [apply ref_machine_evolves|apply IH].
Qed.

Lemma ref_machine_latest_other csid acc e m :
  e.1 <> m ->
  c_latest (ref_machine csid acc e).2 !! mkStateMachineId m csid
  = c_latest acc.2 !! mkStateMachineId m csid.
Proof.
  intros Hne. destruct (ref_machine_spec csid acc e) as (last & cs1 & Hs & E).
  destruct Hs as [_ _ _ _ (_ & _ & _ & _ & _ & Hl & _) _].
  destruct last; rewrite E; cbn; rewrite ?lookup_insert_ne, Hl; congruence.
Qed.

(** Every verified commitment at no lower height than the latest known is recorded. *)
Lemma ref_update_complete csid new_state states cs m l x :
  NoDup states.*1 -> (m, l) ∈ states -> x ∈ l ->
  default 0 (c_latest cs !! mkStateMachineId m csid) <= sch_height x ->
  is_Some (c_commitments (ref_update csid new_state states cs).2
             !! mkStateMachineHeight (mkStateMachineId m csid) (sch_height x)).
Proof.
  unfold ref_update. set (cs0 := set_updated _ _).
  change (c_latest cs) with (c_latest cs0). generalize cs0 as cs1, (@nil Event) as evs.
  clear cs0. intros cs1 evs Hnd Hin Hx. revert evs cs1 Hnd Hin.
  induction states as [|e states IH]; intros evs cs1 Hnd Hin Hle;
    [by apply not_elem_of_nil in Hin|]. cbn [foldl].
  cbn in Hnd. apply NoDup_cons in Hnd as [Hni Hnd].
  apply elem_of_cons in Hin as [<-|Hin].
  - destruct (ref_machine_spec csid (evs, cs1) (m, l)) as (last & cs2 & Hs & E).
    destruct (hs_all _ _ _ _ _ _ Hs x) as [c Hc]; [by rewrite sort_heights_perm|done|].
    exists c. eapply lookup_weaken; [|apply (ev_commitments _ _ (foldl_ref_machine_evolves _ _ _))].
    by destruct last; rewrite E.
  - pose proof (ref_machine_latest_other csid (evs, cs1) e m) as Ho.
    destruct (ref_machine csid (evs, cs1) e) as [evs1 cs2]. apply IH; [done..|].
    cbn [snd] in Ho. rewrite Ho; [done|]. intros <-. apply Hni.
    by apply (list_elem_of_fmap_2 fst) in Hin.
Qed.

End reference.

(** ** The handlers *)

Section consensus.
Context `{Keccak256} {St : Type} `{!IsmpHost St} `{!HeightSort} `{!HostModel St}.

Definition put_cons (cs : ConsensusStore) (a : AbsHost) : AbsHost :=
  mkAbsHost cs (a_msgs a) (a_now a).

Lemma put_cons_id a : put_cons (a_cons a) a = a.
Proof. by destruct a. Qed.

Lemma update_height_refines now id prev last c s :
  inv s -> a_now (abs s) = now ->
  let r := ref_height now id prev (last, a_cons (abs s)) c in
  runs (update_height id prev last c) s (Ok r.1) (put_cons r.2 (abs s)).
Proof.
  intros Hs Hnow. cbv zeta. unfold update_height, ref_height. cbn [fst snd].
  destruct (sch_height c <? prev); cbn [fst snd].
  { rewrite put_cons_id. by apply runs_ret. }
  eapply runs_bind; [by apply runs_gets, eq_refl|]. intros s1 Hs1 Ha1.
  rewrite state_machine_commitment_abs by done. rewrite <- Ha1.
  destruct (c_commitments (a_cons (abs s1)) !! _) eqn:E; cbn [is_ok ok_or].
  { rewrite decide_True by eauto. cbn [fst snd]. rewrite put_cons_id. by apply runs_ret. }
  rewrite decide_False by (by intros []). cbn [fst snd].
  eapply runs_try; [apply runs_write; [apply store_state_machine_commitment_impl|done]|].
  intros s2 Hs2 Ha2.
  eapply runs_bind; [by apply runs_gets, eq_refl|]. intros s3 Hs3 Ha3.
  eapply runs_try; [apply runs_write; [apply store_state_machine_update_time_impl|done]|].
  intros s4 Hs4 Ha4.
  apply runs_ret_at; [done|]. rewrite Ha4, Ha3, timestamp_abs, Ha2. unfold upd_cons. cbn.
  by rewrite <- Hnow, Ha1.
Qed.

Lemma update_heights_refines now id prev last l s :
  inv s -> a_now (abs s) = now ->
  let r := foldl (ref_height now id prev) (last, a_cons (abs s)) l in
  runs (try_fold_m (update_height id prev) last l) s (Ok r.1) (put_cons r.2 (abs s)).
Proof.
  intros Hs Hnow. cbv zeta.
  apply (runs_try_fold_m _ _ put_cons a_cons (fun a => a_now a = now));
    auto using put_cons_id. intros. by apply update_height_refines.
Qed.

Lemma update_state_machine_refines now csid evs entry s :
  inv s -> a_now (abs s) = now ->
  let r := ref_machine now csid (evs, a_cons (abs s)) entry in
  runs (update_state_machine csid evs entry) s (Ok r.1) (put_cons r.2 (abs s)).
Proof.
  intros Hs Hnow. cbv zeta. unfold update_state_machine, ref_machine. cbn [fst snd].
  eapply runs_try; [apply runs_gets; [done|by apply latest_commitment_height_abs]|].
  intros s1 Hs1 Ha1.
  eapply runs_try; [by apply (update_heights_refines now); [|congruence]|].
  intros s2 Hs2 Ha2. rewrite Ha1 in Ha2 |- *.
  destruct (foldl _ _ _) as [[h|] cs1]; cbn [fst snd] in *.
  - eapply runs_try; [apply runs_write; [apply store_latest_commitment_height_impl|done]|].
    intros s3 Hs3 Ha3.
    apply runs_ret_at; [done|]. by rewrite Ha3, Ha2.
  - rewrite <- Ha2. by apply runs_ret.
Qed.

Lemma update_states_refines now csid evs states s :
  inv s -> a_now (abs s) = now ->
  let r := foldl (ref_machine now csid) (evs, a_cons (abs s)) states in
  runs (try_fold_m (update_state_machine csid) evs states) s (Ok r.1)
    (put_cons r.2 (abs s)).
Proof.
  intros Hs Hnow. cbv zeta.
  apply (runs_try_fold_m _ _ put_cons a_cons (fun a => a_now a = now));
    auto using put_cons_id. intros. by apply update_state_machine_refines.
Qed.

(** *** Updating *)

(** A client that verifies a consensus proof for a state that is neither frozen
    nor expired. *)
Definition consensus_verified (msg : ConsensusMessage) (s : St) (new_state : bytes)
    (states : VerifiedCommitments) : Prop :=
  let csid := cm_consensus_state_id msg in
  let cs := a_cons (abs s) in
  exists cid client trusted period last,
    c_clients cs !! csid = Some cid /\ consensus_client cid = Ok client /\
    c_states cs !! csid = Some trusted /\ csid ∉ c_frozen cs /\
    c_unbonding cs !! csid = Some period /\ c_updated cs !! csid = Some last /\
    saturating_sub (a_now (abs s)) (from_secs last) < from_secs period /\
    verify_consensus client s csid trusted (cm_consensus_proof msg) = Some (Ok (new_state, states)).

Lemma is_expired_ok id s :
  inv s -> is_expired id s = Ok tt <->
  exists period last, c_unbonding (a_cons (abs s)) !! id = Some period /\
    c_updated (a_cons (abs s)) !! id = Some last /\
    saturating_sub (a_now (abs s)) (from_secs last) < from_secs period.
Proof.
  intros Hs. unfold is_expired. rewrite unbonding_period_abs, timestamp_abs by done.
  pose proof (consensus_update_time_abs id s Hs) as Ht.
  destruct (c_unbonding _ !! id) as [p|]; simpl; [|naive_solver].
  destruct (consensus_update_time id s) as [t|e]; simpl in Ht;
    destruct (c_updated _ !! id) as [l|]; try discriminate; simpl in *; [|naive_solver].
  injection Ht as ->. destruct (Z.leb_spec (from_secs p)
    (saturating_sub (a_now (abs s)) (from_secs l))); naive_solver lia.
Qed.

Lemma frozen_ok id s :
  inv s -> is_consensus_client_frozen id s = Ok tt <-> id ∉ c_frozen (a_cons (abs s)).
Proof.
  intros Hs. rewrite is_consensus_client_frozen_abs by done.
  case_decide; naive_solver.
Qed.

(** The writes of an update, once the proof is verified. *)
Lemma update_client_writes csid new_state states s :
  inv s ->
  let u := ref_update (a_now (abs s)) csid new_state states (a_cons (abs s)) in
  runs (let? _ := store_consensus_state csid new_state in
        let* now := gets timestamp in
        let? _ := store_consensus_update_time csid now in
        let? state_updates := try_fold_m (update_state_machine csid) [] states in
        ret (Ok (ConsensusMessageResult state_updates)))
    s (Ok (E := AnyError) (ConsensusMessageResult u.1)) (put_cons u.2 (abs s)).
Proof.
  intros Hs. cbv zeta.
  eapply runs_try; [apply runs_write; [apply store_consensus_state_impl|done]|].
  intros s1 Hs1 Ha1. eapply runs_bind; [by apply runs_gets, eq_refl|].
  intros s2 Hs2 Ha2.
  eapply runs_try; [apply runs_write; [apply store_consensus_update_time_impl|done]|].
  intros s3 Hs3 Ha3.
  assert (abs s3 = put_cons (set_updated <[csid := as_secs (a_now (abs s))]>
    (set_states <[csid := new_state]> (a_cons (abs s)))) (abs s)) as Hc.
  { rewrite Ha3, Ha2, timestamp_abs, Ha1. done. }
  eapply runs_try; [apply (update_states_refines (a_now (abs s))); [done|by rewrite Hc]|].
  intros s4 Hs4 Ha4. rewrite Hc in Ha4 |- *.
  unfold ref_update. cbn [a_cons put_cons] in *.
  apply runs_ret_at; [done|]. by rewrite Ha4.
Qed.

Lemma update_client_ok msg s r s' :
  inv s -> update_client msg s = (Some (Ok r), s') ->
  exists new_state states, consensus_verified msg s new_state states /\
    let u := ref_update (a_now (abs s)) (cm_consensus_state_id msg) new_state states
               (a_cons (abs s)) in
    r = ConsensusMessageResult u.1 /\ inv s' /\ abs s' = put_cons u.2 (abs s).
Proof.
  intros Hs Hrun. unfold update_client in Hrun.
  step_gets Hrun cid Hcid. step_ret Hrun client Hclient. step_gets Hrun trusted Htr.
  step_gets Hrun u Hfr. step_gets Hrun u' Hex. step_ask Hrun p Hv.
  destruct p as [new_state states], u, u'. exists new_state, states. split.
  { apply ok_or_ok in Hcid. rewrite consensus_client_id_abs in Hcid by done.
    rewrite consensus_state_abs in Htr by done. apply ok_or_ok in Htr.
    apply frozen_ok in Hfr; [|done]. apply is_expired_ok in Hex as (p & l & ? & ? & ?); [|done].
    by exists cid, client, trusted, p, l. }
  cbv zeta. pose proof (update_client_writes (cm_consensus_state_id msg) new_state states s Hs) as Hw.
  destruct (runs_fun _ _ _ _ _ _ Hw Hrun) as (E & ? & ?). by injection E as ->.
Qed.

(** Conversely, a verified update is carried out. *)
Lemma update_client_runs msg s new_state states :
  inv s -> consensus_verified msg s new_state states ->
  let u := ref_update (a_now (abs s)) (cm_consensus_state_id msg) new_state states (a_cons (abs s)) in
  runs (update_client msg) s (Ok (ConsensusMessageResult u.1)) (put_cons u.2 (abs s)).
Proof.
  intros Hs (cid & client & trusted & period & last & Hcid & Hcl & Htr & Hfr & Hun & Hup & Hex & Hv).
  cbv zeta. unfold update_client.
  destruct (update_client_writes (cm_consensus_state_id msg) new_state states s Hs) as (s' & Hrun & Hs').
  exists s'. split; [|done].
  erewrite try_ok; [|unfold gets; by rewrite consensus_client_id_abs, Hcid].
  erewrite try_ok; [|by rewrite Hcl].
  erewrite try_ok; [|unfold gets; by rewrite consensus_state_abs, Htr].
  erewrite try_ok; [|unfold gets; by rewrite (proj2 (frozen_ok _ _ Hs) Hfr)].
  erewrite try_ok; [|unfold gets; rewrite (proj2 (is_expired_ok _ _ Hs)); [done|by exists period, last]].
  erewrite try_ok; [|unfold ask; by rewrite Hv]. exact Hrun.
Qed.

(** An update that is refused changes nothing. *)
Lemma update_client_err msg s e s' :
  inv s -> update_client msg s = (Some (Err e), s') -> inv s' /\ abs s' = abs s.
Proof.
  intros Hs Hrun. unfold update_client in Hrun.
  do 6 step_err Hrun.
  lazymatch type of Hrun with
  | context [match ?p with (_, _) => _ end] => destruct p as [new_state states]
  end.
  pose proof (update_client_writes (cm_consensus_state_id msg) new_state states s Hs) as Hw.
  by destruct (runs_fun _ _ _ _ _ _ Hw Hrun) as (E & _ & _).
Qed.

(** *** Freezing *)

Lemma freeze_client_ok msg s r s' :
  inv s -> freeze_client msg s = (Some (Ok r), s') ->
  let csid := fpm_consensus_state_id msg in
  r = FrozenClient csid /\ inv s' /\
  (exists cid client trusted, c_clients (a_cons (abs s)) !! csid = Some cid /\
     consensus_client cid = Ok client /\ c_states (a_cons (abs s)) !! csid = Some trusted /\
     csid ∉ c_frozen (a_cons (abs s)) /\
     verify_fraud_proof client s trusted (fpm_proof_1 msg) (fpm_proof_2 msg) = Some (Ok tt)) /\
  abs s' = upd_cons (fun c => set_updated <[csid := as_secs (a_now (abs s))]>
                                (set_frozen (fun x => {[csid]} ∪ x) c)) (abs s).
Proof.
  intros Hs Hrun csid. unfold freeze_client in Hrun.
  step_gets Hrun cid Hcid. step_gets Hrun u Hfr. step_ret Hrun client Hclient.
  step_gets Hrun trusted Htr. step_ask Hrun u' Hv. destruct u, u'.
  apply ok_or_ok in Hcid. rewrite consensus_client_id_abs in Hcid by done.
  rewrite consensus_state_abs in Htr by done. apply ok_or_ok in Htr.
  apply frozen_ok in Hfr; [|done].
  eapply (runs_fun _ _ (Ok (FrozenClient csid))) in Hrun as (E & ? & Ha).
  { injection E as ->. split; [done|]. split; [done|]. split; [by exists cid, client, trusted|].
    exact Ha. }
  eapply runs_try; [apply runs_write; [apply freeze_consensus_client_impl|done]|].
  intros s1 Hs1 Ha1. eapply runs_bind; [by apply runs_gets, eq_refl|]. intros s2 Hs2 Ha2.
  eapply runs_try; [apply runs_write; [apply store_consensus_update_time_impl|done]|].
  intros s3 Hs3 Ha3. apply runs_ret_at; [done|].
  by rewrite Ha3, Ha2, timestamp_abs, Ha1.
Qed.

(** *** Creating *)

Definition ref_commitment (now : Duration) (cs : ConsensusStore)
    (p : StateMachineId * StateCommitmentHeight) : ConsensusStore :=
  set_latest <[p.1 := sch_height p.2]>
    (ref_store now (mkStateMachineHeight p.1 (sch_height p.2)) (sch_commitment p.2) cs).

Definition ref_create (now : Duration) (m : CreateConsensusState) (cs : ConsensusStore) :
    ConsensusStore :=
  let csid := ccs_consensus_state_id m in
  let base := set_clients <[csid := ccs_consensus_client_id m]>
    (set_unbonding <[csid := ccs_unbonding_period m]>
       (set_states <[csid := ccs_consensus_state m]> cs)) in
  let with_periods := foldl (fun cs p => set_challenge <[mkStateMachineId p.1 csid := p.2]> cs)
    base (ccs_challenge_periods m) in
  set_updated <[csid := as_secs now]>
    (foldl (ref_commitment now) with_periods (ccs_state_machine_commitments m)).

Lemma foldl_put_cons {A} (g : ConsensusStore -> A -> ConsensusStore) l a :
  foldl (fun a x => put_cons (g (a_cons a) x) a) a l = put_cons (foldl g (a_cons a) l) a.
Proof.
  revert a; induction l as [|x l IH]; intros a; cbn [foldl]; [by rewrite put_cons_id|].
  by rewrite IH.
Qed.

Lemma foldl_frozen {A} (g : ConsensusStore -> A -> ConsensusStore) l cs :
  (forall c x, c_frozen (g c x) = c_frozen c) -> c_frozen (foldl g cs l) = c_frozen cs.
Proof.
  intros Hg. revert cs; induction l as [|x l IH]; intros cs; cbn [foldl]; [done|].
  by rewrite IH, Hg.
Qed.

Lemma create_client_runs m s c :
  inv s -> consensus_client (ccs_consensus_client_id m) = Ok c ->
  runs (create_client m) s
    (Ok (mkConsensusClientCreatedResult (ccs_consensus_client_id m) (ccs_consensus_state_id m)))
    (put_cons (ref_create (a_now (abs s)) m (a_cons (abs s))) (abs s)).
Proof.
  intros Hs Hc. unfold create_client, ref_create. set (csid := ccs_consensus_state_id m).
  eapply runs_try; [rewrite Hc; by apply runs_ret|]. intros s0 Hs0 Ha0.
  eapply runs_try; [apply runs_write; [apply store_consensus_state_impl|done]|].
  intros s1 Hs1 Ha1.
  eapply runs_try; [apply runs_write; [apply store_unbonding_period_impl|done]|].
  intros s2 Hs2 Ha2.
  eapply runs_try; [apply runs_write; [apply store_consensus_state_id_impl|done]|].
  intros s3 Hs3 Ha3. rewrite Ha2, Ha1, Ha0 in Ha3.
  eapply runs_try.
  { apply (runs_for_each _ (fun p a => put_cons
      (set_challenge <[mkStateMachineId p.1 csid := p.2]> (a_cons a)) a) (fun _ => True));
      [done| |done|done]. intros x s' Hs' _.
    by eapply runs_write_at; [apply store_challenge_period_impl|..]. }
  intros s4 Hs4 Ha4.
  rewrite (foldl_put_cons (fun cs p => set_challenge <[mkStateMachineId p.1 csid := p.2]> cs))
    in Ha4.
  eapply runs_try.
  { apply (runs_for_each _ (fun p a => put_cons (ref_commitment (a_now (abs s)) (a_cons a) p) a)
      (fun a => a_now a = a_now (abs s))); [done| |done|by rewrite Ha4, Ha3].
    intros x s' Hs' Hn.
    eapply runs_try; [apply runs_write; [apply store_state_machine_commitment_impl|done]|].
    intros s5 Hs5 Ha5. eapply runs_bind; [by apply runs_gets, eq_refl|]. intros s6 Hs6 Ha6.
    eapply runs_try; [apply runs_write; [apply store_state_machine_update_time_impl|done]|].
    intros s7 Hs7 Ha7.
    eapply runs_write_at; [apply store_latest_commitment_height_impl|done|].
    rewrite Ha7, Ha6, timestamp_abs, Ha5. unfold ref_commitment, ref_store, put_cons, upd_cons.
    cbn. by rewrite Hn. }
  intros s5 Hs5 Ha5. rewrite (foldl_put_cons (ref_commitment (a_now (abs s)))) in Ha5.
  eapply runs_bind; [by apply runs_gets, eq_refl|]. intros s6 Hs6 Ha6.
  eapply runs_try; [apply runs_write; [apply store_consensus_update_time_impl|done]|].
  intros s7 Hs7 Ha7. apply runs_ret_at; [done|].
  rewrite Ha7, Ha6, timestamp_abs, Ha5, Ha4, Ha3. done.
Qed.

End consensus.

(** ** Properties *)

Section properties.
Context `{Keccak256} {St : Type} `{!IsmpHost St} `{!HeightSort} `{!HostModel St}.

(** C4: a consensus update that is accepted was verified by the client registered
    for its consensus state, which is neither frozen nor expired. It changes no
    state commitment that is already recorded and adds only verified commitments at a
    height that is the latest known for their machine or greater; the code allows the
    latest height itself, of which its comment says that it is not allowed. When no
    machine is listed twice there is a commitment at each such height afterwards.
    Messages are untouched. *)
Theorem update_client_commitments msg s r s' :
  inv s -> update_client msg s = (Some (Ok r), s') ->
  exists new_state states, consensus_verified msg s new_state states /\
    let csid := cm_consensus_state_id msg in
    let cs := a_cons (abs s) in
    let cs' := a_cons (abs s') in
    c_commitments cs ⊆ c_commitments cs' /\
    provenance csid states cs cs' /\
    (NoDup states.*1 -> forall m l x, (m, l) ∈ states -> x ∈ l ->
       default 0 (c_latest cs !! mkStateMachineId m csid) <= sch_height x ->
       is_Some (c_commitments cs'
                  !! mkStateMachineHeight (mkStateMachineId m csid) (sch_height x))) /\
    c_states cs' = <[csid := new_state]> (c_states cs) /\
    a_msgs (abs s') = a_msgs (abs s).
Proof.
  intros Hs Hrun. destruct (update_client_ok _ _ _ _ Hs Hrun) as (n & states & Hv & _ & _ & Ha).
  exists n, states. split; [done|]. cbv zeta. rewrite Ha. cbn [put_cons a_cons a_msgs].
  pose proof (ref_update_facts (a_now (abs s)) (cm_consensus_state_id msg) n states
    (a_cons (abs s))) as (_ & Hp & Hst & _).
  split; [apply ev_commitments, ref_update_evolves|]. split; [exact Hp|].
  split; [intros; by eapply ref_update_complete|]. by split.
Qed.

(** after an accepted consensus update the latest height of every state machine
    is the one it was, when no height was recorded for the machine, and otherwise
    the greatest of the newly recorded heights; it never decreases. *)
Theorem update_client_latest msg s r s' :
  inv s -> update_client msg s = (Some (Ok r), s') ->
  latest_spec (a_cons (abs s)) (a_cons (abs s')) /\
  forall id, default 0 (c_latest (a_cons (abs s)) !! id)
             <= default 0 (c_latest (a_cons (abs s')) !! id).
Proof.
  intros Hs Hrun. destruct (update_client_ok _ _ _ _ Hs Hrun) as (n & states & _ & _ & _ & Ha).
  rewrite Ha. split.
  - apply ref_update_facts.
  - intros id. apply ev_default, ref_update_evolves.
Qed.

(** a consensus message that is refused leaves the host as it was. *)
Theorem update_client_refused msg s e s' :
  inv s -> update_client msg s = (Some (Err e), s') -> abs s' = abs s.
Proof. intros Hs Hrun. by apply (update_client_err _ _ _ _ Hs Hrun). Qed.

(** creating a consensus client succeeds exactly when the client type is
    configured; it then stores the given state, periods and commitments, whether or
    not the identifier was in use, and leaves frozen identifiers frozen. *)
Theorem create_client_functional m s :
  inv s ->
  (forall c, consensus_client (ccs_consensus_client_id m) = Ok c ->
     exists s', create_client m s
       = (Some (Ok (mkConsensusClientCreatedResult (ccs_consensus_client_id m)
                      (ccs_consensus_state_id m))), s') /\
     abs s' = put_cons (ref_create (a_now (abs s)) m (a_cons (abs s))) (abs s) /\
     c_frozen (a_cons (abs s')) = c_frozen (a_cons (abs s))) /\
  (forall e, consensus_client (ccs_consensus_client_id m) = Err e ->
     create_client m s = (Some (Err (IsmpError e)), s)).
Proof.
  intros Hs. split.
  - intros c Hc. destruct (create_client_runs m s c Hs Hc) as (s' & E & _ & Ha).
    exists s'. split; [done|]. split; [done|]. rewrite Ha. cbn. unfold ref_create. cbn.
    rewrite (foldl_frozen (ref_commitment _)), foldl_frozen by done. done.
  - intros e He. unfold create_client. by rewrite (try_err _ _ s e s); [|rewrite He].
Qed.

(** a fraud proof that is accepted was verified by the registered client against
    the stored consensus state, of a client that was not frozen before, and it
    freezes that client and no other. *)
Theorem freeze_client_functional msg s r s' :
  inv s -> freeze_client msg s = (Some (Ok r), s') ->
  let csid := fpm_consensus_state_id msg in
  r = FrozenClient csid /\
  (exists cid client trusted, c_clients (a_cons (abs s)) !! csid = Some cid /\
     consensus_client cid = Ok client /\ c_states (a_cons (abs s)) !! csid = Some trusted /\
     csid ∉ c_frozen (a_cons (abs s)) /\
     verify_fraud_proof client s trusted (fpm_proof_1 msg) (fpm_proof_2 msg) = Some (Ok tt)) /\
  c_frozen (a_cons (abs s')) = {[csid]} ∪ c_frozen (a_cons (abs s)) /\
  c_commitments (a_cons (abs s')) = c_commitments (a_cons (abs s)).
Proof.
  intros Hs Hrun csid. destruct (freeze_client_ok _ _ _ _ Hs Hrun) as (-> & _ & Hex & Ha).
  split; [done|]. split; [done|]. by rewrite Ha.
Qed.

End properties.

(** ** Witnesses *)

Module ConsensusWitnesses.

#[local] Existing Instances Demo.keccak Demo.host Demo.sort Demo.model.

Definition update : ConsensusMessage := mkConsensusMessage (lit "ok") Demo.csid (lit "relayer").
Definition bad_update : ConsensusMessage := mkConsensusMessage (lit "no") Demo.csid (lit "relayer").
Definition updated : AbsHost := snd (update_client update Demo.init).
Definition event : Event := EvStateMachineUpdated (mkStateMachineUpdated Demo.there_id 9).

Lemma update_client_commitments_witness :
  exists new_state states, consensus_verified update Demo.init new_state states.
Proof.
  destruct (update_client_commitments update Demo.init
    (ConsensusMessageResult [event]) updated (Demo.inv_any _)) as (n & states & Hv & _).
  - apply (run_eq (update_client update) Demo.init). vm_compute. reflexivity.
  - by exists n, states.
Defined.

Lemma update_client_latest_witness :
  c_latest (a_cons updated) !! Demo.there_id = Some 9 /\
  latest_spec (a_cons Demo.init) (a_cons updated).
Proof.
  split; [vm_compute; reflexivity|].
  apply (update_client_latest update Demo.init (ConsensusMessageResult [event]) updated (Demo.inv_any _)).
  apply (run_eq (update_client update) Demo.init). vm_compute. reflexivity.
Defined.

Lemma update_client_refused_witness :
  snd (update_client bad_update Demo.init) = Demo.init.
Proof.
  apply (update_client_refused bad_update Demo.init
    (IsmpError (ConsensusProofVerificationFailed Demo.ccid))
    (snd (update_client bad_update Demo.init)) (Demo.inv_any _)).
  apply (run_eq (update_client bad_update) Demo.init). vm_compute. reflexivity.
Defined.

Definition creation : CreateConsensusState :=
  mkCreateConsensusState (lit "s0") Demo.ccid Demo.csid 7 [(Demo.there, 5)]
    [(Demo.there_id, mkStateCommitmentHeight (Demo.commitment 1) 1)].

Lemma create_client_functional_witness :
  exists s', create_client creation Demo.init
    = (Some (Ok (mkConsensusClientCreatedResult Demo.ccid Demo.csid)), s').
Proof.
  destruct (create_client_functional creation Demo.init (Demo.inv_any _)) as [Hok _].
  destruct (Hok Demo.client) as (s' & E & _); [reflexivity|].
  by exists s'.
Defined.

Definition fraud : FraudProofMessage := mkFraudProofMessage (lit "a") (lit "b") Demo.csid.

Lemma freeze_client_functional_witness :
  c_frozen (a_cons (snd (freeze_client fraud Demo.init))) = {[Demo.csid]} ∪ ∅.
Proof.
  apply (freeze_client_functional fraud Demo.init (FrozenClient Demo.csid)
    (snd (freeze_client fraud Demo.init)) (Demo.inv_any _)).
  apply (run_eq (freeze_client fraud) Demo.init). vm_compute. reflexivity.
Defined.

End ConsensusWitnesses.
