(* ===== verification/Requests.v ===== *)
(** * The request handler

    [handlers/request.rs] and the checks on proofs of [handlers.rs]: what must hold
    for a request to be dispatched, what a delivery leaves behind, and that no
    request is delivered by two messages. *)

From S2P Require Import Prelude StateMachine Router Messaging Host Handlers HostSpec RefHost Frame.

Section proofs.
Context `{Keccak256} {St : Type} `{!IsmpHost St} `{!HeightSort} `{!HostModel St}.

(** ** Proofs *)

(** The conditions on a proof at [h]: its consensus state is known and not frozen,
    the height was recorded long enough ago, and the client knows the machine. *)
Definition proof_valid (a : AbsHost) (h : StateMachineHeight) (client : StateMachineClient St) :
    Prop :=
  let csid := smi_consensus_state_id (smh_id h) in
  exists cid c t p,
    c_clients (a_cons a) !! csid = Some cid /\ consensus_client cid = Ok c /\
    csid ∉ c_frozen (a_cons a) /\
    c_sm_updated (a_cons a) !! h = Some t /\ c_challenge (a_cons a) !! smh_id h = Some p /\
    (p = 0 \/ from_secs p < saturating_sub (a_now a) (from_secs t)) /\
    state_machine c (smi_state_id (smh_id h)) = Ok client.

Lemma verify_delay_passed_ok h s b s' :
  inv s -> verify_delay_passed h s = (Some (Ok b), s') <->
  s' = s /\ exists t p, c_sm_updated (a_cons (abs s)) !! h = Some t /\
    c_challenge (a_cons (abs s)) !! smh_id h = Some p /\
    b = ((p =? 0) || (from_secs p <? saturating_sub (a_now (abs s)) (from_secs t))).
Proof.
  intros Hs. unfold verify_delay_passed.
  pose proof (state_machine_update_time_abs h s Hs) as Ht.
  pose proof (challenge_period_abs (smh_id h) s Hs) as Hp. split.
  - intros Hrun. step_gets Hrun t Et. step_gets Hrun p Ep. bind_gets Hrun.
    apply ret_inv in Hrun as [Hb <-]. injection Hb as <-. split; [done|].
    rewrite Et in Ht. simpl in Ht. symmetry in Ht. apply fmap_Some in Ht as (t' & Ht' & ->).
    rewrite Hp in Ep. apply ok_or_ok, fmap_Some in Ep as (p' & Hp' & ->).
    exists t', p'. rewrite timestamp_abs, as_secs_from_secs. done.
  - intros (-> & t & p & Et & Ep & ->). rewrite Et in Ht. rewrite Ep in Hp.
    apply ok_some in Ht. simpl in Hp.
    erewrite try_ok; [|unfold gets; by rewrite Ht].
    erewrite try_ok; [|unfold gets; by rewrite Hp].
    unfold bind, gets, ret. by rewrite timestamp_abs, as_secs_from_secs.
Qed.

Lemma validate_state_machine_ok h s client s' :
  inv s -> validate_state_machine h s = (Some (Ok client), s') <->
  s' = s /\ proof_valid (abs s) h client.
Proof.
  intros Hs. unfold validate_state_machine, proof_valid.
  set (csid := smi_consensus_state_id (smh_id h)).
  pose proof (consensus_client_id_abs csid s Hs) as Hci.
  pose proof (is_consensus_client_frozen_abs csid s Hs) as Hfr. split.
  - intros Hrun. step_gets Hrun cid Hcid. step_ret Hrun c Hc. step_gets Hrun u Hf.
    apply try_ok_inv in Hrun as (b & s1 & Hd & Hrun).
    apply verify_delay_passed_ok in Hd as (-> & t & p & Et & Ep & ->); [|done].
    rewrite Hci in Hcid. apply ok_or_ok in Hcid. rewrite Hfr in Hf.
    case_decide as Hin; [done|].
    destruct ((p =? 0) || _) eqn:Eb; cbn [negb] in Hrun.
    + apply ret_inv in Hrun as [Hsm <-]. split; [done|]. exists cid, c, t, p.
      repeat (split; [done|]). split; [|done]. lia.
    + exfalso. bind_gets Hrun. step_gets Hrun x Hx. by apply ret_inv in Hrun as [? _].
  - intros (-> & cid & c & t & p & Hcid & Hc & Hf & Et & Ep & Hor & Hsm).
    erewrite try_ok; [|unfold gets; by rewrite Hci, Hcid].
    erewrite try_ok; [|unfold ret; by rewrite Hc].
    erewrite try_ok; [|unfold gets; by rewrite Hfr, decide_False].
    erewrite try_ok; [|by apply verify_delay_passed_ok; eauto 10].
    replace ((p =? 0) || _) with true by lia. cbn [negb]. unfold ret. by rewrite Hsm.
Qed.

(** ** One request *)

Definition post_hash (p : PostRequest) : option H256 := hash_request (RequestPost p).

Definition proof_chain (proof : Proof_) : StateMachine :=
  smi_state_id (smh_id (proof_height proof)).

(** A message of chain [m] can be proved by [proof]: the proof is about [m], or it is
    about the coprocessor and no configured client knows [m]. *)
Definition provable_by (proof : Proof_) (m : StateMachine) : Prop :=
  m = proof_chain proof \/
  (is_allowed_proxy (proof_chain proof) = true /\ check_state_machine_client m = true).

(** The request is new, not expired, addressed to this host (or the host routes
    messages) and comes from a chain the proof can speak for. *)
Record acceptable (a : AbsHost) (proof : Proof_) (p : PostRequest) : Prop := {
  acc_new : exists h, post_hash p = Some h /\ m_req_receipts (a_msgs a) !! h = None;
  acc_time : request_timed_out (RequestPost p) (a_now a) = false;
  acc_dest : post_dest p = host_state_machine \/ is_router = true;
  acc_source : provable_by proof (post_source p)
}.

Lemma provable_by_guard proof m :
  negb (bool_decide (m = proof_chain proof)) &&
  negb (is_allowed_proxy (proof_chain proof) && check_state_machine_client m) = false <->
  provable_by proof m.
Proof.
  unfold provable_by. destruct (is_allowed_proxy _), (check_state_machine_client m);
    case_bool_decide; simpl; naive_solver.
Qed.

Lemma request_receipt_run r s o s' :
  inv s -> request_receipt r s = (Some o, s') ->
  inv s' /\ abs s' = abs s /\ exists h, hash_request r = Some h /\
    o = ((fun _ => tt) <$> m_req_receipts (a_msgs (abs s)) !! h).
Proof.
  intros Hs Hrun. destruct (implements_run _ _ _ _ _ _ _ (request_receipt_impl r) Hs Hrun) as [E Hi].
  unfold spec_request_receipt in E. apply on_hash_inv in E as (h & Eh & E).
  apply gets_inv in E as [-> ->]. eauto.
Qed.

Lemma check_request_ok proof p s u s' :
  inv s -> check_request proof p s = (Some (Ok u), s') -> acceptable (abs s) proof p.
Proof.
  intros Hs Hrun. unfold check_request in Hrun.
  apply bind_inv in Hrun as (o & s1 & Hr & Hrun).
  destruct (request_receipt_run _ _ _ _ Hs Hr) as (Hs1 & Ha1 & h & Eh & ->).
  step_guard Hrun G1. bind_gets Hrun. step_guard Hrun G2. step_guard Hrun G3. step_guard Hrun G4.
  rewrite timestamp_abs, Ha1 in G2. split.
  - exists h. split; [done|]. apply bool_decide_eq_false in G1.
    destruct (m_req_receipts _ !! h); [|done]. by destruct G1; eauto.
  - done.
  - apply andb_false_iff in G3 as [G3|G3]; apply negb_false_iff in G3; [left|by right].
    by apply bool_decide_eq_true in G3.
  - by apply provable_by_guard.
Qed.

(** A request that is not acceptable is refused. *)
Lemma check_request_refuses proof p s u s' :
  inv s -> check_request proof p s = (Some (Ok u), s') ->
  forall h, post_hash p = Some h -> m_req_receipts (a_msgs (abs s)) !! h = None.
Proof.
  intros Hs Hrun h Hh. destruct (check_request_ok _ _ _ _ _ Hs Hrun) as [(h' & Eh & ?) _ _ _].
  congruence.
Qed.

(** ** Dispatching one request *)

Lemma hashed_write_run {A} (m : M St A) s o s' (h0 : option H256) (k : H256 -> M AbsHost A) :
  implements abs inv m (on_hash h0 k) -> inv s -> m s = (Some o, s') ->
  exists h, h0 = Some h /\ k h (abs s) = (Some o, abs s') /\ inv s'.
Proof.
  intros Hi Hs Hrun. destruct (implements_run _ _ _ _ _ _ _ Hi Hs Hrun) as [E ?].
  apply on_hash_inv in E as (h & ? & ?). eauto.
Qed.

(** What dispatching a request does: no module, a module that accepts, or a module
    that fails. The module runs in a state that already holds the receipt. *)
Inductive dispatched (signer : bytes) (p : PostRequest) (s s' : St) : DispatchResult -> Prop :=
| dispatched_no_module e :
    ismp_router (post_to p) = Err e -> s' = s -> dispatched signer p s s' (Err e)
| dispatched_accepted md h s1 :
    ismp_router (post_to p) = Ok md -> post_hash p = Some h -> inv s1 ->
    abs s1 = upd_msgs (set_req_receipts <[h := signer]>) (abs s) ->
    on_accept md p s1 = (Some (Ok tt), s') ->
    dispatched signer p s s' (Ok (EvPostRequestHandled (mkRequestResponseHandled h signer)))
| dispatched_failed md h s1 s2 e :
    ismp_router (post_to p) = Ok md -> post_hash p = Some h -> inv s1 ->
    abs s1 = upd_msgs (set_req_receipts <[h := signer]>) (abs s) ->
    on_accept md p s1 = (Some (Err e), s2) -> inv s2 ->
    m_req_receipts (a_msgs (abs s2)) !! h = Some signer ->
    abs s' = upd_msgs (set_req_receipts (delete h)) (abs s2) ->
    dispatched signer p s s' (Err e).

Context `{!RouterFrame St}.

Lemma dispatch_post_run signer p s r s' :
  inv s -> dispatch_post signer p s = (Some r, s') -> inv s' /\ dispatched signer p s s' r.
Proof.
  intros Hs Hrun. unfold dispatch_post in Hrun.
  apply bind_inv in Hrun as (r0 & s0 & Hl & Hrun). apply ret_inv in Hrun as [<- <-].
  apply try_inv in Hl as [(e & Hr & ->)|(md & s1 & Hr & Hl)].
  { apply ret_inv in Hr as [Er <-]. split; [done|]. by constructor. }
  apply ret_inv in Hr as [Er <-].
  apply try_inv in Hl as [(e & Hst & _)|(u & s1 & Hst & Hl)].
  { eapply hashed_write_run in Hst as (h & _ & E & _);
      [|apply store_request_receipt_impl|done]. by apply spec_write_inv in E as [? _]. }
  eapply hashed_write_run in Hst as (h & Eh & E & Hs1);
    [|apply store_request_receipt_impl|done]. apply spec_write_inv in E as [_ Ha1].
  apply bind_inv in Hl as (acc & s2 & Hacc & Hl).
  destruct (router_frame _ _ Er) as (Hfr & _ & _).
  destruct (Hfr p _ _ _ Hs1 Hacc) as [Hs2 Hcf].
  apply bind_inv in Hl as (res & s3 & Hm & Hl). destruct acc as [[]|e]; cbn [map_ok_m] in Hm.
  - apply bind_inv in Hm as (ev & s4 & Hh & Hm). apply ret_inv in Hm as [<- <-].
    apply bind_inv in Hh as (h' & s5 & Hh & He). apply or_panic_inv in Hh as [Hh' ->].
    apply ret_inv in He as [<- <-]. cbn [is_err is_ok negb] in Hl.
    apply ret_inv in Hl as [<- <-]. split; [done|].
    assert (h' = h) as -> by congruence. by apply (dispatched_accepted _ _ _ _ md h s1).
  - apply ret_inv in Hm as [<- <-]. cbn [is_err is_ok negb] in Hl.
    assert (m_req_receipts (a_msgs (abs s2)) !! h = Some signer) as Hrec.
    { rewrite (cf_req_receipts _ _ Hcf), Ha1. apply lookup_insert_eq. }
    apply try_inv in Hl as [(e' & Hd & _)|(x & s4 & Hd & Hl)];
      eapply hashed_write_run in Hd as (h' & Eh' & E & Hs4);
      try (apply delete_request_receipt_impl); try done;
      assert (h' = h) as -> by (unfold post_hash in *; congruence);
      rewrite Hrec in E; [done|].
    injection E as _ Ha4. apply ret_inv in Hl as [<- <-]. split; [done|].
    by apply (dispatched_failed _ _ _ _ md h s1 s2).
Qed.

(** The effect of a dispatch on the receipts, for a request without one. *)
Lemma dispatched_receipts signer p s s' r h :
  inv s -> dispatched signer p s s' r -> post_hash p = Some h ->
  m_req_receipts (a_msgs (abs s)) !! h = None ->
  cons_frame (abs s) (abs s') /\
  match r with
  | Ok ev => ev = EvPostRequestHandled (mkRequestResponseHandled h signer) /\
      m_req_receipts (a_msgs (abs s')) = <[h := signer]> (m_req_receipts (a_msgs (abs s)))
  | Err _ => m_req_receipts (a_msgs (abs s')) = m_req_receipts (a_msgs (abs s))
  end.
Proof.
  intros Hs Hd Hh Hnone. destruct Hd as [e Er ->|md h' s1 Er Eh Hs1 Ha1 Hacc
    |md h' s1 s2 e Er Eh Hs1 Ha1 Hacc Hs2 Hrec Ha].
  - done.
  - assert (h' = h) as -> by congruence. destruct (router_frame _ _ Er) as (Hfr & _ & _).
    destruct (Hfr p _ _ _ Hs1 Hacc) as [_ [Hc Hn Hr _ _ _]]. unfold cons_frame.
    rewrite Hc, Hn, Hr, Ha1. done.
  - assert (h' = h) as -> by congruence. destruct (router_frame _ _ Er) as (Hfr & _ & _).
    destruct (Hfr p _ _ _ Hs1 Hacc) as [_ [Hc Hn Hr _ _ _]]. unfold cons_frame. rewrite Ha. cbn.
    rewrite Hc, Hn, Hr, Ha1. cbn. by rewrite delete_insert_eq, delete_id.
Qed.

(** ** A batch *)

(** The outcome of one request of a batch, seen in the final state. *)
Definition delivered (signer : bytes) (a' : AbsHost) (p : PostRequest) (r : DispatchResult) :
    Prop :=
  exists h, post_hash p = Some h /\
    match r with
    | Ok ev => ev = EvPostRequestHandled (mkRequestResponseHandled h signer) /\
               m_req_receipts (a_msgs a') !! h = Some signer
    | Err _ => m_req_receipts (a_msgs a') !! h = None
    end.

(** The receipts of messages outside a batch are those before. *)
Definition receipts_outside (l : list PostRequest) (a a' : AbsHost) : Prop :=
  forall h, (forall p, p ∈ l -> post_hash p <> Some h) ->
    m_req_receipts (a_msgs a') !! h = m_req_receipts (a_msgs a) !! h.

Lemma dispatch_batch signer l s rs s' :
  inv s -> NoDup (post_hash <$> l) ->
  (forall p, p ∈ l -> exists h, post_hash p = Some h /\ m_req_receipts (a_msgs (abs s)) !! h = None) ->
  map_m (dispatch_post signer) l s = (Some rs, s') ->
  inv s' /\ cons_frame (abs s) (abs s') /\ Forall2 (delivered signer (abs s')) l rs /\
  receipts_outside l (abs s) (abs s').
Proof.
  revert s rs. induction l as [|p l IH]; intros s rs Hs Hnd Hnew Hrun; cbn [map_m] in Hrun.
  { apply ret_inv in Hrun as [<- <-]. split; [done|]. split; [done|]. by split; [constructor|]. }
  apply bind_inv in Hrun as (r & s1 & Hd & Hrun).
  apply bind_inv in Hrun as (rs' & s2 & Hl & Hrun). apply ret_inv in Hrun as [<- <-].
  rewrite fmap_cons in Hnd. apply NoDup_cons in Hnd as [Hni Hnd].
  destruct (dispatch_post_run _ _ _ _ _ Hs Hd) as [Hs1 Hdd].
  destruct (Hnew p ltac:(left)) as (h & Eh & Hh).
  destruct (dispatched_receipts _ _ _ _ _ _ Hs Hdd Eh Hh) as [Hcf Hrec].
  assert (forall q, q ∈ l -> post_hash q <> Some h) as Hother.
  { intros q Hq E. apply Hni. rewrite Eh, <- E. by apply list_elem_of_fmap_2. }
  assert (forall h', h' <> h -> m_req_receipts (a_msgs (abs s1)) !! h'
                     = m_req_receipts (a_msgs (abs s)) !! h') as Hsame.
  { intros h' Hne. destruct r; [destruct Hrec as [_ ->]|by rewrite Hrec].
    by rewrite lookup_insert_ne. }
  destruct (IH s1 rs' Hs1 Hnd) as (Hs2 & Hcf2 & Hall & Hout); [|done|].
  { intros q Hq. destruct (Hnew q ltac:(by right)) as (h' & Eh' & Hh'). exists h'.
    split; [done|]. rewrite Hsame; [done|]. intros ->. by apply (Hother q). }
  split; [done|]. split; [by etransitivity|]. split.
  - constructor; [|done]. exists h. split; [done|]. rewrite (Hout h Hother).
    destruct r; [|by rewrite Hrec]. destruct Hrec as [-> ->]. by rewrite lookup_insert_eq.
  - intros h' Hh'. rewrite Hout by (intros q Hq; apply Hh'; by right). apply Hsame.
    intros ->. by apply (Hh' p ltac:(left)).
Qed.

(** What a message must satisfy for its requests to be dispatched. *)
Record request_message_valid (msg : RequestMessage) (s : St) : Prop := {
  rmv_proof : exists client c s1,
    proof_valid (abs s) (proof_height (rm_proof msg)) client /\
    c_commitments (a_cons (abs s)) !! proof_height (rm_proof msg) = Some c /\
    abs s1 = abs s /\
    verify_membership client s1 (RRRequest (RequestPost <$> rm_requests msg)) c (rm_proof msg)
      = Some (Ok tt);
  rmv_requests : forall p, p ∈ rm_requests msg -> acceptable (abs s) (rm_proof msg) p
}.

Lemma handle_request_ok msg s r s' :
  inv s -> handle_request msg s = (Some (Ok r), s') ->
  request_message_valid msg s /\
  exists rs s1, r = RequestResult rs /\ inv s1 /\ abs s1 = abs s /\
    map_m (dispatch_post (rm_signer msg)) (rm_requests msg) s1 = (Some rs, s').
Proof.
  intros Hs Hrun. unfold handle_request in Hrun.
  apply try_ok_inv in Hrun as (client & s1 & Hv & Hrun).
  apply validate_state_machine_ok in Hv as [-> Hv]; [|done].
  apply try_ok_inv in Hrun as (u & s1 & Hc & Hrun).
  destruct (for_each_checks _ _ _ _ _ (check_request_keeps eq (rm_proof msg)) Hs Hc)
    as (Hs1 & Ha1 & Hall).
  step_gets Hrun c Hcm. step_ask Hrun u' Hm. destruct u'.
  rewrite state_machine_commitment_abs in Hcm by done. apply ok_or_ok in Hcm.
  apply bind_inv in Hrun as (rs & s2 & Hd & Hrun). apply ret_inv in Hrun as [E <-].
  injection E as <-. split; [split|by exists rs, s1].
  - exists client, c, s1. rewrite <- Ha1 at 2. by split.
  - intros p Hp. destruct (Hall p Hp) as (t1 & t2 & Ht & <- & Hchk).
    by eapply check_request_ok.
Qed.

(** A message that is not dispatched leaves the host as it was. *)
Lemma handle_request_stopped msg s o s' :
  inv s -> handle_request msg s = (o, s') -> (forall r, o <> Some (Ok r)) ->
  (abs s' = abs s) \/ (o = None /\ request_message_valid msg s).
Proof.
  intros Hs Hrun Ho. unfold handle_request in Hrun.
  apply try_split in Hrun as [(client & s1 & Hv & Hrun)|(o1 & Hv & _ & _)].
  2: { left. by eapply keeps_eq_run; [apply (validate_state_machine_keeps eq)| |]. }
  apply validate_state_machine_ok in Hv as [-> Hv]; [|done].
  apply try_split in Hrun as [(u & s1 & Hc & Hrun)|(o1 & Hc & _ & _)].
  2: { left. eapply keeps_eq_run; [|exact Hs|exact Hc].
       apply keeps_for_each; [typeclasses eauto|]. intros. apply (check_request_keeps eq). }
  destruct (for_each_checks _ _ _ _ _ (check_request_keeps eq (rm_proof msg)) Hs Hc)
    as (Hs1 & Ha1 & Hall).
  apply try_split in Hrun as [(c & s2 & Hcm & Hrun)|(o1 & Hcm & _ & _)].
  2: { left. unfold gets in Hcm. by injection Hcm as _ <-. }
  apply gets_inv in Hcm as [Hcm ->]. symmetry in Hcm.
  apply try_split in Hrun as [(u' & s2 & Hm & Hrun)|(o1 & Hm & _ & _)].
  2: { left. unfold ask in Hm. by injection Hm as _ <-. }
  apply ask_inv in Hm as [Hm ->]. destruct u'. right.
  rewrite state_machine_commitment_abs in Hcm by done. apply ok_or_ok in Hcm.
  split.
  - apply bind_split in Hrun as [(rs & s2 & Hd & Hrun)|[_ ->]]; [|done].
    unfold ret in Hrun. injection Hrun as <- <-. by destruct (Ho (RequestResult rs)).
  - split.
    + exists client, c, s1. rewrite <- Ha1 at 2. by split.
    + intros p Hp. destruct (Hall p Hp) as (t1 & t2 & Ht & <- & Hchk).
      by eapply check_request_ok.
Qed.

(** A request with a receipt keeps its whole message from being dispatched. *)
Lemma request_replay_refused msg p h x s o s' :
  inv s -> p ∈ rm_requests msg -> post_hash p = Some h ->
  m_req_receipts (a_msgs (abs s)) !! h = Some x ->
  handle_request msg s = (o, s') ->
  abs s' = abs s /\ forall r, o <> Some (Ok r).
Proof.
  intros Hs Hp Hh Hx Hrun.
  assert (~ request_message_valid msg s) as Hnv.
  { intros [_ Hall]. destruct (Hall p Hp) as [(h' & ? & ?) _ _ _]. congruence. }
  assert (forall r, o <> Some (Ok r)) as Ho.
  { intros r ->. apply Hnv. by eapply handle_request_ok. }
  split; [|done]. by destruct (handle_request_stopped _ _ _ _ Hs Hrun Ho) as [?|[_ ?]].
Qed.

End proofs.

(** ** Properties *)

Section properties.
Context `{Keccak256} {St : Type} `{!IsmpHost St} `{!HeightSort} `{!HostModel St}
  `{!RouterFrame St}.

(** C1: a request message that is handled had a valid proof at a recorded height,
    past its challenge period and by a client that is not frozen, and each of its
    requests was new, unexpired, rightly addressed and from a chain the proof speaks
    for. When the commitments of the batch are distinct, every request that its
    module accepted has a receipt by the relayer and its event, every other request
    of the batch has none, and no other request receipt and no consensus data changed;
    the modules may send and answer messages meanwhile. Without distinct commitments a
    request can be dispatched twice, see [duplicate_in_batch_delivered_twice]. *)
Theorem handle_request_delivers msg s r s' :
  inv s -> handle_request msg s = (Some (Ok r), s') ->
  request_message_valid msg s /\
  (NoDup (post_hash <$> rm_requests msg) ->
   exists rs, r = RequestResult rs /\
     Forall2 (delivered (rm_signer msg) (abs s')) (rm_requests msg) rs /\
     receipts_outside (rm_requests msg) (abs s) (abs s') /\
     cons_frame (abs s) (abs s')).
Proof.
  intros Hs Hrun.
  destruct (handle_request_ok _ _ _ _ Hs Hrun) as (Hv & rs & s1 & -> & Hs1 & Ha1 & Hd).
  split; [done|]. intros Hnd. exists rs. split; [done|].
  destruct (dispatch_batch (rm_signer msg) (rm_requests msg) s1 rs s' Hs1 Hnd)
    as (_ & ? & ? & ?).
  - intros p Hp. rewrite Ha1. by apply (rmv_requests _ _ Hv).
  - exact Hd.
  - by rewrite <- Ha1.
Qed.

(** a request message that is refused with an error leaves the host as it was:
    all checks precede all effects. *)
Theorem handle_request_refused msg s e s' :
  inv s -> handle_request msg s = (Some (Err e), s') -> abs s' = abs s.
Proof.
  intros Hs Hrun.
  by destruct (handle_request_stopped _ _ _ _ Hs Hrun) as [?|[? _]].
Qed.

(** a message that carries a request which already has a receipt is never
    handled and has no effect: no request is delivered by two messages. *)
Theorem handle_request_no_replay msg p h x s o s' :
  inv s -> p ∈ rm_requests msg -> post_hash p = Some h ->
  m_req_receipts (a_msgs (abs s)) !! h = Some x ->
  handle_request msg s = (o, s') ->
  abs s' = abs s /\ forall r, o <> Some (Ok r).
Proof.
  apply request_replay_refused.
Qed.

(** the receipt comes first. Whenever a request is dispatched to a module, the
    module runs in a state that already holds the receipt of the request, so that a
    callback which hands the same request in again is refused; and a failed callback
    leaves no receipt. *)
Theorem dispatch_post_receipt_first signer p md s r s' :
  inv s -> ismp_router (post_to p) = Ok md -> dispatch_post signer p s = (Some r, s') ->
  exists h s1 acc s2, post_hash p = Some h /\
    on_accept md p s1 = (Some acc, s2) /\ is_ok acc = is_ok r /\
    m_req_receipts (a_msgs (abs s1)) !! h = Some signer /\
    (is_ok r = false -> m_req_receipts (a_msgs (abs s')) !! h = None).
Proof.
  intros Hs Hr Hrun. destruct (dispatch_post_run _ _ _ _ _ Hs Hrun) as [_ Hd].
  destruct Hd as [e Er|md' h s1 Er Eh Hs1 Ha1 Hacc|md' h s1 s2 e Er Eh Hs1 Ha1 Hacc _ _ Ha].
  - congruence.
  - assert (md' = md) as -> by congruence. exists h, s1, (Ok tt), s'.
    rewrite Ha1. repeat (split; [done|]). split; [apply lookup_insert_eq|done].
  - assert (md' = md) as -> by congruence. exists h, s1, (Err e), s2.
    rewrite Ha1, Ha. repeat (split; [done|]). split; [apply lookup_insert_eq|].
    intros _. apply lookup_delete_eq.
Qed.

End properties.

(** ** Witnesses *)

Module RequestWitnesses.

#[local] Existing Instances Demo.keccak Demo.host Demo.sort Demo.model.

#[export] Instance demo_frame : RouterFrame AbsHost.
Proof.
  assert (keeps callback_frame Demo.counting) as Hc.
  { intros s o s' _ E. injection E as <- <-. by split. }
  assert (keeps callback_frame Demo.failing) as Hf.
  { intros s o s' _ E. injection E as <- <-. by split. }
  intros id md E. change (Demo.router id = Ok md) in E. unfold Demo.router in E.
  case_decide; [|case_decide]; [..|done]; injection E as <-; by auto.
Qed.

Definition msg (l : list PostRequest) : RequestMessage :=
  mkRequestMessage l Demo.proof_ok (lit "relayer").
Definition good : PostRequest := Demo.post (lit "to") 1.
Definition bad : PostRequest := Demo.post (lit "bad") 2.
Definition hash_of (p : PostRequest) : H256 := default [] (post_hash p).
Definition after (l : list PostRequest) : AbsHost := snd (handle_request (msg l) Demo.init).

Lemma good_run :
  handle_request (msg [good; bad]) Demo.init
  = (Some (Ok (RequestResult
        [Ok (EvPostRequestHandled (mkRequestResponseHandled (hash_of good) (lit "relayer")));
         Err (AnyMessage (lit "no"))])), after [good; bad]).
Proof. apply (run_eq (handle_request (msg [good; bad])) Demo.init). vm_compute. reflexivity. Defined.

Lemma handle_request_delivers_witness :
  Forall2 (delivered (lit "relayer") (after [good; bad])) [good; bad]
    [Ok (EvPostRequestHandled (mkRequestResponseHandled (hash_of good) (lit "relayer")));
     Err (AnyMessage (lit "no"))].
Proof.
  destruct (handle_request_delivers _ _ _ _ (Demo.inv_any _) good_run) as [_ Hd].
  destruct Hd as (rs & E & Hall & _); [apply (bool_decide_unpack _); vm_compute; exact I|].
  injection E as <-. exact Hall.
Defined.

Definition forged : RequestMessage :=
  mkRequestMessage [good] (mkProof (Demo.at_height 3) (lit "forged")) (lit "relayer").

Lemma handle_request_refused_witness :
  snd (handle_request forged Demo.init) = Demo.init.
Proof.
  apply (handle_request_refused forged Demo.init
    (IsmpError (MembershipProofVerificationFailed (lit "bad proof")))
    (snd (handle_request forged Demo.init)) (Demo.inv_any _)).
  apply (run_eq (handle_request forged) Demo.init). vm_compute. reflexivity.
Defined.

Lemma handle_request_no_replay_witness :
  snd (handle_request (msg [good]) (after [good])) = after [good].
Proof.
  refine (proj1 (handle_request_no_replay (msg [good]) good (hash_of good) (lit "relayer")
    (after [good]) (fst (handle_request (msg [good]) (after [good])))
    (snd (handle_request (msg [good]) (after [good]))) (Demo.inv_any _) _ _ _ _)).
  - left.
  - vm_compute. reflexivity.
  - vm_compute. reflexivity.
  - apply (run_eq (handle_request (msg [good])) (after [good])). reflexivity.
Defined.

Lemma dispatch_post_receipt_first_witness :
  exists h, m_req_receipts (a_msgs (snd (dispatch_post (lit "relayer") bad Demo.init))) !! h = None.
Proof.
  destruct (dispatch_post_receipt_first (lit "relayer") bad
    (mkIsmpModule (fun _ => Demo.failing) (fun _ => Demo.failing) (fun _ => Demo.failing))
    Demo.init (Err (AnyMessage (lit "no")))
    (snd (dispatch_post (lit "relayer") bad Demo.init)) (Demo.inv_any _))
    as (h & s1 & acc & s2 & _ & _ & _ & _ & Hn).
  - reflexivity.
  - apply (run_eq (dispatch_post (lit "relayer") bad) Demo.init). vm_compute. reflexivity.
  - exists h. by apply Hn.
Defined.

End RequestWitnesses.

(** ** A request twice in one batch *)

Section duplicates.
#[local] Existing Instances Demo.keccak Demo.host Demo.sort Demo.model.

(** the receipts are checked for the whole batch before any request of it is
    dispatched, so a request that occurs twice in one message is delivered to its
    module twice (the module of the example counts two calls, and both deliveries are
    reported handled), although a receipt is meant to rule a second delivery out. *)
Theorem duplicate_in_batch_delivered_twice :
  let ev := Ok (EvPostRequestHandled (mkRequestResponseHandled
              (RequestWitnesses.hash_of RequestWitnesses.good) (lit "relayer"))) in
  let run := handle_request
    (RequestWitnesses.msg [RequestWitnesses.good; RequestWitnesses.good]) Demo.init in
  fst run = Some (Ok (RequestResult [ev; ev])) /\ m_nonce (a_msgs (snd run)) = 2.
Proof. split; vm_compute; reflexivity. Qed.

End duplicates.
