(* ===== verification/Responses.v ===== *)
(** * The response handler

    [handlers/response.rs]: POST responses and the answers to GET requests. What
    must hold for a response to be dispatched, what a delivery leaves behind, and
    that no request is answered by two messages. Response receipts are kept under the
    commitment of the request, so they rule out a second, different answer too. *)

From S2P Require Import Prelude StateMachine Router Messaging Host Handlers HostSpec RefHost Frame Requests.

Section responses.
Context `{Keccak256} {St : Type} `{!IsmpHost St} `{!HeightSort} `{!HostModel St}.

(** The commitment of the request a response answers. *)
Definition answers (r : Response) : option H256 := hash_request (response_request r).

Definition get_hash (g : GetRequest) : option H256 := hash_request (RequestGet g).

(** The request that has the commitment [h] was sent by this host and is unanswered. *)
Definition awaited (a : AbsHost) (h : H256) : Prop :=
  is_Some (m_req_commitments (a_msgs a) !! h) /\ m_res_receipts (a_msgs a) !! h = None.

(** The response answers an awaited request, is not expired, and comes from a chain
    the proof can speak for. *)
Record response_acceptable (a : AbsHost) (proof : Proof_) (r : Response) : Prop := {
  racc_awaited : exists h, answers r = Some h /\ awaited a h;
  racc_time : response_timed_out r (a_now a) = false;
  racc_source : provable_by proof (response_source_chain r)
}.

(** The GET request is awaited, not expired, and addressed to the chain of the proof
    at the height of the proof. *)
Record get_acceptable (a : AbsHost) (proof : Proof_) (g : GetRequest) : Prop := {
  gacc_awaited : exists h, get_hash g = Some h /\ awaited a h;
  gacc_time : request_timed_out (RequestGet g) (a_now a) = false;
  gacc_dest : get_dest g = proof_chain proof;
  gacc_height : get_height g = smh_height (proof_height proof)
}.

(** ** The checks *)

Lemma response_receipt_run r s o s' :
  inv s -> response_receipt r s = (Some o, s') ->
  inv s' /\ abs s' = abs s /\ exists h, answers r = Some h /\
    o = ((fun _ => tt) <$> m_res_receipts (a_msgs (abs s)) !! h).
Proof.
  intros Hs Hrun. destruct (implements_run _ _ _ _ _ _ _ (response_receipt_impl r) Hs Hrun) as [E Hi].
  unfold spec_response_receipt in E. apply on_hash_inv in E as (h & Eh & E).
  apply gets_inv in E as [-> ->]. eauto.
Qed.

Lemma no_receipt {A} (o : option A) :
  bool_decide (is_Some ((fun _ => tt) <$> o)) = false -> o = None.
Proof. intros Hb%bool_decide_eq_false. destruct o; [|done]. by destruct Hb; eauto. Qed.

Lemma known_commitment h s :
  inv s -> is_err (request_commitment h s) = false -> is_Some (m_req_commitments (a_msgs (abs s)) !! h).
Proof.
  intros Hs Hk. apply negb_false_iff in Hk. rewrite request_commitment_abs in Hk by done.
  by apply bool_decide_eq_true in Hk.
Qed.

Lemma check_response_ok proof r s u s' :
  inv s -> check_response proof r s = (Some (Ok u), s') -> response_acceptable (abs s) proof r.
Proof.
  intros Hs Hrun. unfold check_response in Hrun.
  apply bind_inv in Hrun as (h & s1 & Hh & Hrun). apply or_panic_inv in Hh as [Hh ->].
  bind_gets Hrun. step_guard Hrun G1.
  apply bind_inv in Hrun as (o & s1 & Hr & Hrun).
  destruct (response_receipt_run _ _ _ _ Hs Hr) as (Hs1 & Ha1 & h' & Eh & ->).
  step_guard Hrun G2. bind_gets Hrun. step_guard Hrun G3. step_guard Hrun G4.
  rewrite timestamp_abs, Ha1 in G3. split; [|done|by apply provable_by_guard].
  exists h. split; [done|]. split; [by apply known_commitment|].
  assert (h' = h) as -> by (unfold answers in *; congruence). by apply no_receipt.
Qed.

Lemma check_get_ok proof l r s l' s' :
  inv s -> check_get proof l r s = (Some (Ok l'), s') ->
  exists g, r = RequestGet g /\ l' = l ++ [g] /\
    (get_height g = smh_height (proof_height proof) -> get_acceptable (abs s) proof g).
Proof.
  intros Hs Hrun. destruct r as [p|g]; cbn [check_get] in Hrun; [done|].
  bind_gets Hrun. step_guard Hrun G1. step_guard Hrun G2.
  apply bind_inv in Hrun as (h & s1 & Hh & Hrun). apply or_panic_inv in Hh as [Hh ->].
  bind_gets Hrun. step_guard Hrun G3. cbv zeta in Hrun.
  apply bind_inv in Hrun as (o & s1 & Hr & Hrun).
  destruct (response_receipt_run _ _ _ _ Hs Hr) as (Hs1 & Ha1 & h' & Eh & ->).
  step_guard Hrun G4. apply ret_inv in Hrun as [E <-]. injection E as <-.
  exists g. split; [done|]. split; [done|]. intros Hheight.
  rewrite timestamp_abs in G1. split; [|done| |done].
  - exists h. split; [done|]. split; [by apply known_commitment|].
    assert (h' = h) as -> by (unfold answers in *; cbn in *; congruence). by apply no_receipt.
  - apply negb_false_iff, bool_decide_eq_true in G2. exact G2.
Qed.

(** The loop over the GET requests collects them in order. *)
Lemma check_gets_ok proof l0 reqs s gets0 s' :
  inv s -> try_fold_m (check_get proof) l0 reqs s = (Some (Ok gets0), s') ->
  inv s' /\ abs s' = abs s /\ exists l, gets0 = l0 ++ l /\ reqs = RequestGet <$> l /\
    forall g, g ∈ l -> get_height g = smh_height (proof_height proof) ->
      get_acceptable (abs s) proof g.
Proof.
  revert l0 s. induction reqs as [|r reqs IH]; intros l0 s Hs Hrun; cbn [try_fold_m] in Hrun.
  - apply ret_inv in Hrun as [E <-]. injection E as <-. split; [done|]. split; [done|].
    exists []. rewrite app_nil_r. split; [done|]. split; [done|].
    intros g Hg. by apply not_elem_of_nil in Hg.
  - apply try_ok_inv in Hrun as (l1 & s1 & Hc & Hrun).
    destruct (keeps_eq_run _ _ _ _ (check_get_keeps eq proof l0 r) Hs Hc) as [Hs1 Ha1].
    apply check_get_ok in Hc as (g & -> & -> & Hg); [|done].
    destruct (IH _ _ Hs1 Hrun) as (Hs' & Ha' & l & -> & -> & Hall).
    split; [done|]. split; [congruence|]. exists (g :: l).
    rewrite <- app_assoc. split; [done|]. split; [done|].
    intros x [->|Hx]%elem_of_cons Hh; [by apply Hg|]. rewrite <- Ha1. by apply Hall.
Qed.

(** ** One delivery *)

(** What the two dispatching closures share: store the receipt of [resp], call the
    module, and take the receipt back when the call fails. *)
Definition receipt_call (resp : Response) (signer : bytes)
    (callback : M St (result AnyError unit)) (oh : option H256) (ev : H256 -> Event) :
    M St (result AnyError DispatchResult) :=
  let? _ := store_response_receipt resp signer in
  let* accepted := callback in
  let* res := map_ok_m accepted (fun _ =>
    let* commitment := or_panic oh in ret (ev commitment)) in
  if is_err res then
    let? _ := delete_response_receipt resp in ret (Ok res)
  else ret (Ok res).

(** The effect on the receipts of a delivery of [resp] that had none. *)
Definition answered (resp : Response) (signer : bytes) (oh : option H256) (ev : H256 -> Event)
    (a a' : AbsHost) (r : DispatchResult) : Prop :=
  exists req h, answers resp = Some req /\ hash_response resp = Some h /\
    match r with
    | Ok e => (exists c, oh = Some c /\ e = ev c) /\
        m_res_receipts (a_msgs a') = <[req := (h, signer)]> (m_res_receipts (a_msgs a))
    | Err _ => m_res_receipts (a_msgs a') = m_res_receipts (a_msgs a)
    end.

Lemma receipt_stored resp signer s o s' :
  inv s -> store_response_receipt resp signer s = (Some o, s') ->
  exists req h, answers resp = Some req /\ hash_response resp = Some h /\ o = Ok tt /\ inv s' /\
    abs s' = upd_msgs (set_res_receipts <[req := (h, signer)]>) (abs s).
Proof.
  intros Hs Hst. eapply hashed_write_run in Hst as (req & Ereq & E & Hs1);
    [|apply store_response_receipt_impl|done].
  apply on_hash_inv in E as (h & Eh & E). apply spec_write_inv in E as [-> ->].
  exists req, h. done.
Qed.

Lemma receipt_call_run resp signer cb oh ev s res s' :
  keeps callback_frame cb -> inv s ->
  (exists h, answers resp = Some h /\ m_res_receipts (a_msgs (abs s)) !! h = None) ->
  receipt_call resp signer cb oh ev s = (Some res, s') ->
  inv s' /\ cons_frame (abs s) (abs s') /\
  exists r, res = Ok r /\ answered resp signer oh ev (abs s) (abs s') r.
Proof.
  intros Hcb Hs (req0 & Ereq0 & Hnone) Hrun. unfold receipt_call in Hrun.
  apply try_inv in Hrun as [(e & Hst & _)|(u & s1 & Hst & Hrun)].
  { by apply receipt_stored in Hst as (? & ? & _ & _ & ? & _). }
  apply receipt_stored in Hst as (req & h & Ereq & Eh & _ & Hs1 & Ha1); [|done].
  assert (req0 = req) as -> by congruence.
  apply bind_inv in Hrun as (acc & s2 & Hacc & Hrun).
  destruct (Hcb _ _ _ Hs1 Hacc) as [Hs2 [Hc Hn _ Hr _ _]]. rewrite Ha1 in Hc, Hn, Hr. cbn in Hc, Hn, Hr.
  apply bind_inv in Hrun as (r & s3 & Hm & Hrun). destruct acc as [[]|e]; cbn [map_ok_m] in Hm.
  - apply bind_inv in Hm as (ev0 & s4 & Hh & Hm). apply ret_inv in Hm as [<- <-].
    apply bind_inv in Hh as (c & s5 & Hh & He). apply or_panic_inv in Hh as [Hc' ->].
    apply ret_inv in He as [<- <-]. apply ret_inv in Hrun as [<- <-].
    split; [done|]. split; [done|]. exists (Ok (ev c)). split; [done|]. exists req, h.
    split; [done|]. split; [done|]. split; [by exists c|exact Hr].
  - apply ret_inv in Hm as [<- <-]. cbn [is_err is_ok negb] in Hrun.
    apply try_inv in Hrun as [(e' & Hd & _)|(x & s4 & Hd & Hl)];
      eapply hashed_write_run in Hd as (h' & Eh' & E & Hs4);
      try (apply delete_response_receipt_impl); try done;
      assert (h' = req) as -> by (unfold answers in *; congruence);
      rewrite Hr, lookup_insert_eq in E; [done|].
    injection E as _ Ha4. apply ret_inv in Hl as [<- <-]. split; [done|].
    unfold cons_frame. rewrite <- Ha4. cbn. split; [done|]. exists (Err e). split; [done|].
    exists req, h. split; [done|]. split; [done|]. cbn.
    by rewrite Hr, delete_insert_eq, delete_id.
Qed.

(** ** A batch of deliveries *)

(** The outcome of one response of a batch, seen in the final state. *)
Definition response_delivered (signer : bytes) (a' : AbsHost) (resp : Response)
    (r : DispatchResult) : Prop :=
  exists req h, answers resp = Some req /\ hash_response resp = Some h /\
    if is_ok r then m_res_receipts (a_msgs a') !! req = Some (h, signer)
    else m_res_receipts (a_msgs a') !! req = None.

Definition answers_outside (l : list Response) (a a' : AbsHost) : Prop :=
  forall h, (forall r, r ∈ l -> answers r <> Some h) ->
    m_res_receipts (a_msgs a') !! h = m_res_receipts (a_msgs a) !! h.

Section batch.
Context {A : Type} (resp : A -> Response) (signer : bytes) (oh : A -> option H256)
  (ev : H256 -> Event) (f : A -> M St (result AnyError DispatchResult)).
Hypothesis Hf : forall x s r s', inv s ->
  (exists h, answers (resp x) = Some h /\ m_res_receipts (a_msgs (abs s)) !! h = None) ->
  f x s = (Some (Ok r), s') ->
  inv s' /\ cons_frame (abs s) (abs s') /\ answered (resp x) signer (oh x) ev (abs s) (abs s') r.

Lemma response_batch l s rs s' :
  inv s -> NoDup (answers <$> (resp <$> l)) ->
  (forall x, x ∈ l -> exists h, answers (resp x) = Some h /\
     m_res_receipts (a_msgs (abs s)) !! h = None) ->
  try_map_m f l s = (Some (Ok rs), s') ->
  inv s' /\ cons_frame (abs s) (abs s') /\
  Forall2 (response_delivered signer (abs s')) (resp <$> l) rs /\
  answers_outside (resp <$> l) (abs s) (abs s') /\
  Forall2 (fun x r => exists s1 s2, inv s1 /\ cons_frame (abs s) (abs s1) /\
    f x s1 = (Some (Ok r), s2)) l rs.
Proof.
  revert s rs. induction l as [|x l IH]; intros s rs Hs Hnd Hnew Hrun; cbn [try_map_m] in Hrun.
  { apply ret_inv in Hrun as [E <-]. injection E as <-.
    split; [done|]. split; [done|]. split; [constructor|]. by split; [|constructor]. }
  apply try_ok_inv in Hrun as (r & s1 & Hd & Hrun).
  apply try_ok_inv in Hrun as (rs' & s2 & Hl & Hrun). apply ret_inv in Hrun as [E <-].
  injection E as <-. rewrite !fmap_cons in Hnd. apply NoDup_cons in Hnd as [Hni Hnd].
  destruct (Hnew x ltac:(left)) as (h & Eh & Hh).
  destruct (Hf x s r s1 Hs ltac:(eauto) Hd) as (Hs1 & Hcf & req & hr & Ereq & Ehr & Hrec).
  assert (req = h) as -> by congruence.
  assert (forall q, q ∈ resp <$> l -> answers q <> Some h) as Hother.
  { intros q Hq E. apply Hni. rewrite Eh, <- E. by apply list_elem_of_fmap_2. }
  assert (forall h', h' <> h -> m_res_receipts (a_msgs (abs s1)) !! h'
                     = m_res_receipts (a_msgs (abs s)) !! h') as Hsame.
  { intros h' Hne. destruct r; [destruct Hrec as [_ ->]|by rewrite Hrec].
    by rewrite lookup_insert_ne. }
  destruct (IH s1 rs' Hs1 Hnd) as (Hs2 & Hcf2 & Hall & Hout & Hruns); [|done|].
  { intros q Hq. destruct (Hnew q ltac:(by right)) as (h' & Eh' & Hh'). exists h'.
    split; [done|]. rewrite Hsame; [done|]. intros ->.
    apply (Hother (resp q)); [by apply list_elem_of_fmap_2|done]. }
  split; [done|]. split; [by etransitivity|]. split; [|split].
  - constructor; [|done]. exists h, hr. split; [done|]. split; [done|].
    rewrite (Hout h Hother).
    destruct r; cbn [is_ok]; [destruct Hrec as [_ ->]; by rewrite lookup_insert_eq|by rewrite Hrec].
  - intros h' Hh'. rewrite Hout by (intros q Hq; apply Hh'; by right). apply Hsame.
    intros ->. by apply (Hh' (resp x) ltac:(left)).
  - constructor; [by exists s, s1|]. eapply Forall2_impl; [exact Hruns|].
    intros y ry (t1 & t2 & ? & ? & ?). exists t1, t2. split; [done|]. by split; [etransitivity|].
Qed.

End batch.

(** ** The closures of the handler *)

Definition empty_answer (g : GetRequest) : Response := ResponseGet (mkGetResponse g []).

Definition read_values (pairs : list (bytes * option bytes)) : list StorageValue :=
  (fun kv => mkStorageValue kv.1 kv.2) <$> pairs.

Context `{!RouterFrame St}.

Lemma dispatch_response_run signer resp s r s' :
  inv s -> (exists h, answers resp = Some h /\ m_res_receipts (a_msgs (abs s)) !! h = None) ->
  dispatch_response_to_module signer resp s = (Some (Ok r), s') ->
  inv s' /\ cons_frame (abs s) (abs s') /\
  answered resp signer (hash_response resp)
    (fun c => EvPostResponseHandled (mkRequestResponseHandled c signer)) (abs s) (abs s') r.
Proof.
  intros Hs Hnew Hrun. apply try_ok_inv in Hrun as (md & s1 & Hr & Hrun).
  apply ret_inv in Hr as [Er <-]. destruct (router_frame _ _ Er) as (_ & Hfr & _).
  destruct (receipt_call_run resp signer (on_response md resp) (hash_response resp)
    (fun c => EvPostResponseHandled (mkRequestResponseHandled c signer)) s _ s'
    (Hfr resp) Hs Hnew Hrun) as (? & ? & r' & E & ?). by injection E as <-.
Qed.

Lemma dispatch_get_inv client c proof signer g s r s' :
  dispatch_get_response client c proof signer g s = (Some (Ok r), s') ->
  exists pairs md, verify_state_proof client s (get_keys g) c proof = Some (Ok pairs) /\
    ismp_router (get_from g) = Ok md /\
    receipt_call (empty_answer g) signer
      (on_response md (ResponseGet (mkGetResponse g (read_values pairs)))) (get_hash g)
      (fun c => EvGetRequestHandled (mkRequestResponseHandled c signer)) s = (Some (Ok r), s').
Proof.
  intros Hrun. unfold dispatch_get_response in Hrun. step_ask Hrun pairs Hp.
  cbv zeta in Hrun. step_ret Hrun md Er. by exists pairs, md.
Qed.

Lemma dispatch_get_run client c proof signer g s r s' :
  inv s ->
  (exists h, answers (empty_answer g) = Some h /\ m_res_receipts (a_msgs (abs s)) !! h = None) ->
  dispatch_get_response client c proof signer g s = (Some (Ok r), s') ->
  inv s' /\ cons_frame (abs s) (abs s') /\
  answered (empty_answer g) signer (get_hash g)
    (fun c => EvGetRequestHandled (mkRequestResponseHandled c signer)) (abs s) (abs s') r.
Proof.
  intros Hs Hnew Hrun. apply dispatch_get_inv in Hrun as (pairs & md & _ & Er & Hrun).
  destruct (router_frame _ _ Er) as (_ & Hfr & _).
  destruct (receipt_call_run _ signer _ _ _ s _ s' (Hfr _) Hs Hnew Hrun) as (? & ? & r' & E & ?).
  by injection E as <-.
Qed.

(** ** The message *)

(** The responses a message delivers; a GET response is identified by its request. *)
Definition answers_of (msg : ResponseMessage) : list Response :=
  match rsm_datagram msg with
  | RRResponse l => l
  | RRRequest l => omap (fun r => match r with
                                  | RequestGet g => Some (empty_answer g)
                                  | RequestPost _ => None
                                  end) l
  end.

(** What a message must satisfy for its responses to be dispatched. *)
Record response_message_valid (msg : ResponseMessage) (s : St) : Prop := {
  rsv_proof : exists client c, proof_valid (abs s) (proof_height (rsm_proof msg)) client /\
    c_commitments (a_cons (abs s)) !! proof_height (rsm_proof msg) = Some c /\
    forall l, rsm_datagram msg = RRResponse l -> exists s1, abs s1 = abs s /\
      verify_membership client s1 (RRResponse l) c (rsm_proof msg) = Some (Ok tt);
  rsv_items :
    match rsm_datagram msg with
    | RRResponse l => forall r, r ∈ l -> response_acceptable (abs s) (rsm_proof msg) r
    | RRRequest l => exists gs, l = RequestGet <$> gs /\
        forall g, g ∈ gs -> get_acceptable (abs s) (rsm_proof msg) g
    end
}.

Lemma answers_of_gets msg gs :
  rsm_datagram msg = RRRequest (RequestGet <$> gs) -> answers_of msg = empty_answer <$> gs.
Proof.
  intros E. unfold answers_of. rewrite E. by apply omap_fmap_some.
Qed.

Lemma response_valid_awaited msg s r :
  response_message_valid msg s -> r ∈ answers_of msg ->
  exists h, answers r = Some h /\ awaited (abs s) h.
Proof.
  intros [_ Hit] Hr. destruct (rsm_datagram msg) as [l|l] eqn:Ed.
  - destruct Hit as (gs & -> & Hall). rewrite (answers_of_gets _ _ Ed) in Hr.
    apply list_elem_of_fmap in Hr as (g & -> & Hg). by apply (gacc_awaited _ _ _ (Hall g Hg)).
  - unfold answers_of in Hr. rewrite Ed in Hr. by apply (racc_awaited _ _ _ (Hit r Hr)).
Qed.

(** The handler either stops at a check, which leaves the host as it was, or reaches
    the deliveries with a valid message. *)
Lemma handle_response_checked msg s o s' :
  inv s -> handle_response msg s = (o, s') ->
  ((forall r, o <> Some (Ok r)) /\ abs s' = abs s) \/
  (response_message_valid msg s /\ exists client c o1 s1,
     proof_valid (abs s) (proof_height (rsm_proof msg)) client /\
     c_commitments (a_cons (abs s)) !! proof_height (rsm_proof msg) = Some c /\
     inv s1 /\ abs s1 = abs s /\
     (match rsm_datagram msg with
      | RRResponse l => try_map_m (dispatch_response_to_module (rsm_signer msg)) l
      | RRRequest l => try_map_m (dispatch_get_response client c (rsm_proof msg) (rsm_signer msg))
          (omap (fun r => match r with RequestGet g => Some g | RequestPost _ => None end) l)
      end) s1 = (o1, s') /\
     (forall r, o = Some (Ok r) -> exists rs, o1 = Some (Ok rs) /\ r = ResponseResult rs)).
Proof.
  intros Hs Hrun. unfold handle_response in Hrun. cbv zeta in Hrun.
  apply try_split in Hrun as [(client & s1 & Hv & Hrun)|(o1 & Hv & _ & Ho)].
  2: { left. split; [done|]. by eapply keeps_eq_run; [apply (validate_state_machine_keeps eq)| |]. }
  apply validate_state_machine_ok in Hv as [-> Hv]; [|done].
  apply try_split in Hrun as [(c & s1 & Hcm & Hrun)|(o1 & Hcm & _ & Ho)].
  2: { left. split; [done|]. unfold gets in Hcm. by injection Hcm as _ <-. }
  apply gets_inv in Hcm as [Hcm ->]. symmetry in Hcm.
  rewrite state_machine_commitment_abs in Hcm by done. apply ok_or_ok in Hcm.
  apply try_wrap in Hrun as (o1 & Hbody & Hno & Hres).
  destruct (rsm_datagram msg) as [l|l] eqn:Ed.
  - apply try_split in Hbody as [(gs & s1 & Hc & Hbody)|(o2 & Hc & _ & Ho)].
    2: { left. split; [auto|]. eapply keeps_eq_run; [|exact Hs|exact Hc].
         apply keeps_try_fold_m; [typeclasses eauto|]. intros. apply (check_get_keeps eq). }
    destruct (check_gets_ok _ _ _ _ _ _ Hs Hc) as (Hs1 & Ha1 & l1 & -> & -> & Hall).
    apply try_split in Hbody as [(u & s2 & Hg & Hbody)|(o2 & Hg & _ & Ho)].
    2: { left. split; [auto|]. unfold ensure_not, ret in Hg. by injection Hg as _ <-. }
    apply ensure_not_ok in Hg as [Hg ->]. apply negb_false_iff in Hg.
    rewrite forallb_forall in Hg. right. split.
    + split.
      * exists client, c. split; [done|]. split; [done|]. intros l2 E. by rewrite Ed in E.
      * rewrite Ed. exists l1. split; [done|]. intros g Hin. apply Hall; [done|].
        apply Z.eqb_eq, Hg. by apply list_elem_of_In.
    + exists client, c, o1, s1. do 4 (split; [done|]). split; [|done].
      cbn [app] in Hbody. rewrite (omap_fmap_some _ _ (fun g => g)) by done.
      by rewrite list_fmap_id.
  - apply try_split in Hbody as [(u & s1 & Hc & Hbody)|(o2 & Hc & _ & Ho)].
    2: { left. split; [auto|]. eapply keeps_eq_run; [|exact Hs|exact Hc].
         apply keeps_for_each; [typeclasses eauto|]. intros. apply (check_response_keeps eq). }
    destruct (for_each_checks _ _ _ _ _ (check_response_keeps eq (rsm_proof msg)) Hs Hc)
      as (Hs1 & Ha1 & Hall).
    apply try_split in Hbody as [(u' & s2 & Hm & Hbody)|(o2 & Hm & _ & Ho)].
    2: { left. split; [auto|]. unfold ask in Hm. by injection Hm as _ <-. }
    apply ask_inv in Hm as [Hm ->]. destruct u'. right. split.
    + split.
      * exists client, c. split; [done|]. split; [done|]. intros l2 E. rewrite Ed in E.
        injection E as <-. by exists s1.
      * rewrite Ed. intros r Hr. destruct (Hall r Hr) as (t1 & t2 & Ht & <- & Hchk).
        by eapply check_response_ok.
    + by exists client, c, o1, s1.
Qed.

End responses.

(** ** Properties *)

Section properties.
Context `{Keccak256} {St : Type} `{!IsmpHost St} `{!HeightSort} `{!HostModel St}
  `{!RouterFrame St}.

(** the answer to a GET request that reaches a module carries exactly the keys
    and values that the state proof established at the height of the request, and the
    module runs in a state that already holds the receipt of the answer. *)
Theorem get_response_values client c proof signer g s r s' :
  inv s -> dispatch_get_response client c proof signer g s = (Some (Ok r), s') ->
  exists pairs md req h s1 acc s2,
    verify_state_proof client s (get_keys g) c proof = Some (Ok pairs) /\
    ismp_router (get_from g) = Ok md /\
    get_hash g = Some req /\ hash_response (empty_answer g) = Some h /\
    abs s1 = upd_msgs (set_res_receipts <[req := (h, signer)]>) (abs s) /\
    on_response md (ResponseGet (mkGetResponse g (read_values pairs))) s1 = (Some acc, s2) /\
    is_ok acc = is_ok r.
Proof.
  intros Hs Hrun. apply dispatch_get_inv in Hrun as (pairs & md & Hp & Er & Hrun).
  apply try_ok_inv in Hrun as (u & s1 & Hst & Hrun).
  apply receipt_stored in Hst as (req & h & Ereq & Eh & _ & Hs1 & Ha1); [|done].
  apply bind_inv in Hrun as (acc & s2 & Hacc & Hrun).
  exists pairs, md, req, h, s1, acc, s2. repeat (split; [done|]).
  apply bind_inv in Hrun as (res & s3 & Hm & Hrun). destruct acc as [[]|e]; cbn [map_ok_m] in Hm.
  - apply bind_inv in Hm as (ev & s4 & _ & Hm). apply ret_inv in Hm as [<- <-].
    apply ret_inv in Hrun as [E _]. by injection E as <-.
  - apply ret_inv in Hm as [<- <-]. cbn [is_err is_ok negb] in Hrun.
    apply try_ok_inv in Hrun as (? & ? & _ & Hrun).
    apply ret_inv in Hrun as [E _]. by injection E as <-.
Qed.

#[local] Instance RequestGet_inj : Inj eq eq RequestGet.
Proof. by intros ?? [= ->]. Qed.

(** A GET request that was answered from the state that its proof established at the
    recorded height, by the client in charge, whatever its module did with the answer. *)
Definition read_proved (proof : Proof_) (signer : bytes) (a : AbsHost) (g : GetRequest)
    (r : DispatchResult) : Prop :=
  exists client c s pairs md req h s1 acc s2,
    proof_valid a (proof_height proof) client /\
    c_commitments (a_cons a) !! proof_height proof = Some c /\ cons_frame a (abs s) /\
    verify_state_proof client s (get_keys g) c proof = Some (Ok pairs) /\
    ismp_router (get_from g) = Ok md /\
    get_hash g = Some req /\ hash_response (empty_answer g) = Some h /\
    m_res_receipts (a_msgs (abs s1)) !! req = Some (h, signer) /\
    on_response md (ResponseGet (mkGetResponse g (read_values pairs))) s1 = (Some acc, s2) /\
    is_ok acc = is_ok r.

(** C6: a response message that is handled had a proof at a recorded height, past its
    challenge period, of a client that is not frozen, and the responses to POST requests
    were verified with it; and each of its responses answers a request this host
    sent and that nobody had answered, in time and from a chain the proof speaks for.
    When the requests answered are distinct, every response its module accepted has a
    receipt with its commitment and the relayer, every other has none, no other response
    receipt and no consensus data changed, and the values handed to the module of a GET
    request are those its state proof established. The modules may send and answer
    messages meanwhile. *)
Theorem handle_response_delivers msg s r s' :
  inv s -> handle_response msg s = (Some (Ok r), s') ->
  response_message_valid msg s /\
  (NoDup (answers <$> answers_of msg) ->
   exists rs, r = ResponseResult rs /\
     Forall2 (response_delivered (rsm_signer msg) (abs s')) (answers_of msg) rs /\
     answers_outside (answers_of msg) (abs s) (abs s') /\
     cons_frame (abs s) (abs s') /\
     (forall gs, rsm_datagram msg = RRRequest (RequestGet <$> gs) ->
        Forall2 (read_proved (rsm_proof msg) (rsm_signer msg) (abs s)) gs rs)).
Proof.
  intros Hs Hrun.
  destruct (handle_response_checked _ _ _ _ Hs Hrun)
    as [[Ho _]|(Hv & client & c & o1 & s1 & Hpv & Hcm & Hs1 & Ha1 & Hd & Hres)]; [by destruct (Ho r)|].
  split; [done|]. intros Hnd. destruct (Hres r eq_refl) as (rs & -> & ->). exists rs.
  split; [done|]. rewrite <- Ha1 in *. pose proof (rsv_items _ _ Hv) as Hit.
  pose proof (fun x => response_valid_awaited _ _ x Hv) as Haw.
  destruct (rsm_datagram msg) as [l|l] eqn:Ed.
  - destruct Hit as (gs & -> & Hall). rewrite (answers_of_gets _ _ Ed) in *.
    rewrite (omap_fmap_some _ _ (fun g => g)), list_fmap_id in Hd by done.
    destruct (response_batch empty_answer (rsm_signer msg) get_hash _ _
      (fun g s r s' Hs => dispatch_get_run client c (rsm_proof msg) (rsm_signer msg) g s r s' Hs)
      gs s1 rs s' Hs1 Hnd) as (_ & ? & ? & ? & Hruns); [|exact Hd|].
    { intros g Hg. destruct (Haw (empty_answer g)) as (h & ? & _ & ?);
        [by apply list_elem_of_fmap_2|]. exists h. by rewrite Ha1. }
    split; [done|]. split; [done|]. split; [done|]. intros gs' E.
    injection E as <-%(inj (fmap RequestGet)).
    eapply Forall2_impl; [exact Hruns|]. intros g rg (t1 & t2 & Ht & Hcf & Hg).
    apply get_response_values in Hg as (pairs & md & req & h & t3 & acc & t4 & ? & ? & ? & ? & Hst & ? & ?);
      [|done].
    exists client, c, t1, pairs, md, req, h, t3, acc, t4. repeat (split; [done|]).
    split; [|done]. rewrite Hst. apply lookup_insert_eq.
  - unfold answers_of in *. rewrite Ed in *. rewrite <- (list_fmap_id l) in Hnd.
    destruct (response_batch (fun r => r) (rsm_signer msg) hash_response _ _
      (fun x s r s' Hs => dispatch_response_run (rsm_signer msg) x s r s' Hs)
      l s1 rs s' Hs1 Hnd) as (_ & Hcf & Hall & Hout & _); [|exact Hd|].
    + intros x Hx. destruct (Haw x Hx) as (h & ? & _ & ?). exists h. by rewrite Ha1.
    + by rewrite list_fmap_id in Hall, Hout.
Qed.

(** a message with a response to a request that already has an answer, or that
    this host never sent, is never handled and has no effect. *)
Theorem handle_response_only_awaited msg r h s o s' :
  inv s -> r ∈ answers_of msg -> answers r = Some h -> ~ awaited (abs s) h ->
  handle_response msg s = (o, s') ->
  abs s' = abs s /\ forall x, o <> Some (Ok x).
Proof.
  intros Hs Hr Hh Hna Hrun.
  destruct (handle_response_checked _ _ _ _ Hs Hrun) as [[Ho Ha]|(Hv & _)]; [done|].
  destruct (response_valid_awaited _ _ _ Hv Hr) as (h' & E & Haw).
  by assert (h' = h) as -> by congruence.
Qed.

End properties.

(** ** Witnesses *)

Module ResponseWitnesses.

#[local] Existing Instances Demo.keccak Demo.host Demo.sort Demo.model RequestWitnesses.demo_frame.

(** A request this host sent, its answer, and a GET request. *)
Definition sent : PostRequest :=
  mkPostRequest Demo.here Demo.there 7 (lit "to") (lit "them") 2000 (lit "ping").
Definition answer : Response := ResponsePost (mkPostResponse sent (lit "pong") 2000).
Definition query : GetRequest :=
  mkGetRequest Demo.here Demo.there 8 (lit "to") [lit "key"] 3 (lit "context") 2000.

(** A host that awaits both answers. *)
Definition waiting : AbsHost :=
  upd_msgs (set_req_commitments (fun m =>
    <[default [] (hash_request (RequestPost sent)) := lit "meta"]>
      (<[default [] (get_hash query) := lit "meta"]> m))) Demo.init.

Definition message (d : RequestResponse) : ResponseMessage :=
  mkResponseMessage d Demo.proof_ok (lit "relayer").
Definition answer_msg : ResponseMessage := message (RRResponse [answer]).

Definition done_event : Event :=
  EvPostResponseHandled (mkRequestResponseHandled (default [] (hash_response answer)) (lit "relayer")).

Lemma handle_response_delivers_witness :
  Forall2 (response_delivered (lit "relayer") (snd (handle_response answer_msg waiting)))
    [answer] [Ok done_event].
Proof.
  destruct (handle_response_delivers answer_msg waiting (ResponseResult [Ok done_event])
    (snd (handle_response answer_msg waiting)) (Demo.inv_any _)) as [_ Hd].
  - apply (run_eq (handle_response answer_msg) waiting). vm_compute. reflexivity.
  - destruct Hd as (rs & E & Hall & _); [apply (bool_decide_unpack _); vm_compute; exact I|].
    injection E as <-. exact Hall.
Defined.

Lemma handle_response_only_awaited_witness :
  snd (handle_response answer_msg Demo.init) = Demo.init.
Proof.
  refine (proj1 (handle_response_only_awaited answer_msg answer (default [] (answers answer))
    Demo.init (fst (handle_response answer_msg Demo.init))
    (snd (handle_response answer_msg Demo.init)) (Demo.inv_any _) _ _ _ _)).
  - left.
  - vm_compute. reflexivity.
  - intros [[x Hx] _]. vm_compute in Hx. discriminate.
  - apply (run_eq (handle_response answer_msg) Demo.init). reflexivity.
Defined.

Lemma get_response_values_witness :
  exists pairs, verify_state_proof Demo.smc waiting (get_keys query) (Demo.commitment 30) Demo.proof_ok
    = Some (Ok pairs).
Proof.
  destruct (get_response_values Demo.smc (Demo.commitment 30) Demo.proof_ok (lit "relayer") query
    waiting (Ok (EvGetRequestHandled (mkRequestResponseHandled (default [] (get_hash query))
      (lit "relayer"))))
    (snd (dispatch_get_response Demo.smc (Demo.commitment 30) Demo.proof_ok (lit "relayer") query
      waiting)) (Demo.inv_any _)) as (pairs & _ & _ & _ & _ & _ & _ & Hp & _).
  - apply (run_eq (dispatch_get_response Demo.smc (Demo.commitment 30) Demo.proof_ok
      (lit "relayer") query) waiting). vm_compute. reflexivity.
  - by exists pairs.
Defined.

End ResponseWitnesses.
