(* ===== verification/Timeouts.v ===== *)
(** * The timeout handler

    [handlers/timeout.rs]: when a request or a response that this host sent may be
    timed out, what its module sees, and that a failed callback puts everything back. *)

From S2P Require Import Prelude StateMachine Router Messaging Host Handlers HostSpec RefHost Frame Requests Responses.

(** ** Forgetting and restoring a message *)

(** The commitment of a request is taken out, and so is its receipt when the request
    was routed through this host. *)
Definition forget_request (routed : bool) (h : H256) (a : AbsHost) : AbsHost :=
  upd_msgs (fun m =>
    let m' := set_req_commitments (delete h) m in
    if routed then set_req_receipts (delete h) m' else m') a.

Definition restore_request (h : H256) (meta : bytes) (receipt : option bytes) (a : AbsHost) :
    AbsHost :=
  upd_msgs (fun m =>
    let m' := set_req_commitments <[h := meta]> m in
    match receipt with Some x => set_req_receipts <[h := x]> m' | None => m' end) a.

(** The receipt that a routing host gives up. *)
Definition receipt_if (routed : bool) (h : H256) (a : AbsHost) : option bytes :=
  if routed then m_req_receipts (a_msgs a) !! h else None.

(** The same for a response [h] to the request [req]. *)
Definition forget_response (routed : bool) (h req : H256) (a : AbsHost) : AbsHost :=
  upd_msgs (fun m =>
    let m' := set_responded (fun x => x ∖ {[req]}) (set_res_commitments (delete h) m) in
    if routed then set_res_receipts (delete req) m' else m') a.

Definition restore_response (h req : H256) (meta : bytes) (receipt : option bytes)
    (a : AbsHost) : AbsHost :=
  upd_msgs (fun m =>
    let m' := set_responded (fun x => {[req]} ∪ x) (set_res_commitments <[h := meta]> m) in
    match receipt with Some x => set_res_receipts <[req := (h, x)]> m' | None => m' end) a.

Definition response_receipt_if (routed : bool) (req : H256) (a : AbsHost) : option bytes :=
  if routed then snd <$> m_res_receipts (a_msgs a) !! req else None.

Lemma restore_forget_request routed h meta a :
  m_req_commitments (a_msgs a) !! h = Some meta ->
  restore_request h meta (receipt_if routed h a) (forget_request routed h a) = a.
Proof.
  intros Hm. destruct a as [c [qc sc qr sr rs n] now]. cbn in Hm.
  unfold restore_request, forget_request, receipt_if, upd_msgs. cbn.
  destruct routed; cbn.
  - destruct (qr !! h) as [x|] eqn:Hr; cbn; unfold set_req_receipts, set_req_commitments; cbn;
      by rewrite ?insert_delete_id, ?delete_id by done.
  - unfold set_req_commitments; cbn. by rewrite insert_delete_id.
Qed.

Lemma restore_forget_response routed h req meta a :
  m_res_commitments (a_msgs a) !! h = Some meta -> req ∈ m_responded (a_msgs a) ->
  (forall h' x, m_res_receipts (a_msgs a) !! req = Some (h', x) -> h' = h) ->
  restore_response h req meta (response_receipt_if routed req a) (forget_response routed h req a) = a.
Proof.
  intros Hm Hin Hr. destruct a as [c [qc sc qr sr rs n] now]. cbn in Hm, Hin, Hr.
  assert ({[req]} ∪ rs ∖ {[req]} = rs) as Hset by (symmetry; apply union_difference_singleton_L; done).
  unfold restore_response, forget_response, response_receipt_if, upd_msgs. cbn. destruct routed; cbn.
  - destruct (sr !! req) as [[h' x]|] eqn:Er; cbn;
      unfold set_res_receipts, set_responded, set_res_commitments; cbn; rewrite Hset;
      [assert (h' = h) as -> by eauto|]; by rewrite ?insert_delete_id, ?delete_id by done.
  - unfold set_responded, set_res_commitments; cbn. by rewrite Hset, insert_delete_id.
Qed.

Section timeouts.
Context `{Keccak256} {St : Type} `{!IsmpHost St} `{!HeightSort} `{!HostModel St}
  `{!RouterFrame St}.

(** ** One timeout *)

(** What timing a request out does. The module runs in a state without the commitment;
    its failure restores the commitment, its metadata and the receipt. *)
Inductive request_timed (routed : bool) (ev : H256 -> Event) (r : Request) (s s' : St) :
    DispatchResult -> Prop :=
| request_timed_ok md h meta s1 :
    ismp_router (request_source_module r) = Ok md -> hash_request r = Some h ->
    m_req_commitments (a_msgs (abs s)) !! h = Some meta ->
    inv s1 -> abs s1 = forget_request routed h (abs s) ->
    on_timeout md (TimeoutRequest r) s1 = (Some (Ok tt), s') ->
    request_timed routed ev r s s' (Ok (ev h))
| request_timed_failed md h meta s1 s2 e :
    ismp_router (request_source_module r) = Ok md -> hash_request r = Some h ->
    m_req_commitments (a_msgs (abs s)) !! h = Some meta ->
    inv s1 -> abs s1 = forget_request routed h (abs s) ->
    on_timeout md (TimeoutRequest r) s1 = (Some (Err e), s2) ->
    abs s' = restore_request h meta (receipt_if routed h (abs s)) (abs s2) ->
    request_timed routed ev r s s' (Err e).

Lemma delete_request_commitment_run r s o s' :
  inv s -> delete_request_commitment r s = (Some (Ok o), s') ->
  exists h, hash_request r = Some h /\ m_req_commitments (a_msgs (abs s)) !! h = Some o /\
    meta_ok o /\ inv s' /\ abs s' = forget_request false h (abs s).
Proof.
  intros Hs Hrun. eapply hashed_write_run in Hrun as (h & Eh & E & Hs1);
    [|apply delete_request_commitment_impl|done].
  cbv beta in E. destruct (m_req_commitments _ !! h) as [meta|] eqn:Em; [|done].
  injection E as -> <-. exists h. repeat (split; [done|]).
  split; [by apply (req_commitments_meta_ok s h)|done].
Qed.

Lemma store_request_commitment_run r meta s o s' h :
  inv s -> meta_ok meta -> hash_request r = Some h ->
  store_request_commitment r meta s = (Some o, s') ->
  o = Ok tt /\ inv s' /\ abs s' = restore_request h meta None (abs s).
Proof.
  intros Hs Hmeta Hh Hrun. eapply hashed_write_run in Hrun as (h' & Eh & E & Hs1);
    [|by apply store_request_commitment_impl|done].
  assert (h' = h) as -> by congruence. by apply spec_write_inv in E as [-> ->].
Qed.

Lemma store_request_receipt_run r x s o s' h :
  inv s -> hash_request r = Some h -> store_request_receipt r x s = (Some o, s') ->
  o = Ok tt /\ inv s' /\ abs s' = upd_msgs (set_req_receipts <[h := x]>) (abs s).
Proof.
  intros Hs Hh Hrun. eapply hashed_write_run in Hrun as (h' & Eh & E & Hs1);
    [|by apply store_request_receipt_impl|done].
  assert (h' = h) as -> by congruence. by apply spec_write_inv in E as [-> ->].
Qed.

(** Taking the receipt out, whether there is one or not. *)
Lemma delete_request_receipt_run r s o s' h :
  inv s -> hash_request r = Some h -> delete_request_receipt r s = (Some o, s') ->
  ok o = m_req_receipts (a_msgs (abs s)) !! h /\ inv s' /\
  abs s' = upd_msgs (set_req_receipts (delete h)) (abs s).
Proof.
  intros Hs Hh Hrun. eapply hashed_write_run in Hrun as (h' & Eh & E & Hs1);
    [|by apply delete_request_receipt_impl|done].
  assert (h' = h) as -> by congruence.
  cbv beta in E. destruct (m_req_receipts _ !! h) as [x|] eqn:Ex; injection E as <- <-;
    (split; [done|]); (split; [done|]); [done|].
  destruct (abs s) as [c [] now]. cbn in Ex. unfold upd_msgs, set_req_receipts; cbn.
  by rewrite delete_id.
Qed.

(** The event of a successful callback. *)
Lemma event_run {E} (acc : result E unit) (oh : option H256) (ev : H256 -> Event) (s : St) res s' :
  map_ok_m acc (fun _ => let* c := or_panic oh in ret (ev c)) s = (Some res, s') ->
  s' = s /\ match acc with
            | Ok _ => exists c, oh = Some c /\ res = Ok (ev c)
            | Err e => res = Err e
            end.
Proof.
  intros Hm. destruct acc as [[]|e]; cbn [map_ok_m] in Hm.
  - apply bind_inv in Hm as (ev0 & s4 & Hh & Hm). apply ret_inv in Hm as [<- <-].
    apply bind_inv in Hh as (c & s5 & Hh & He). apply or_panic_inv in Hh as [Hc' ->].
    apply ret_inv in He as [<- <-]. eauto.
  - by apply ret_inv in Hm as [<- <-].
Qed.

Definition is_routed (r : Request) : bool :=
  negb (bool_decide (host_state_machine = request_source_chain r)).

Definition post_timeout_event (r : Request) (c : H256) : Event :=
  EvPostRequestTimeoutHandled (mkTimeoutHandled c (request_source_chain r) (request_dest_chain r)).
Definition get_timeout_event (r : Request) (c : H256) : Event :=
  EvGetRequestTimeoutHandled (mkTimeoutHandled c (request_source_chain r) (request_dest_chain r)).

(** The commitment, and for a routed request the receipt, are taken out before the
    module is called. *)
Lemma forget_request_run (routed : bool) r s o s' h :
  inv s -> hash_request r = Some h ->
  (if routed then let* x := delete_request_receipt r in ret (ok x) else ret None) s = (Some o, s') ->
  o = receipt_if routed h (abs s) /\ inv s' /\
  abs s' = upd_msgs (fun m => if routed then set_req_receipts (delete h) m else m) (abs s).
Proof.
  intros Hs Hh Hrun. destruct routed.
  - apply bind_inv in Hrun as (x & s1 & Hd & Hrun). apply ret_inv in Hrun as [<- <-].
    by apply (delete_request_receipt_run r s x s1 h) in Hd as (-> & ? & ?).
  - apply ret_inv in Hrun as [<- <-]. split; [done|]. split; [done|]. by destruct (abs s).
Qed.

Lemma timeout_post_run r s res s' :
  inv s -> timeout_post r s = (Some (Ok res), s') ->
  inv s' /\ request_timed (is_routed r) (post_timeout_event r) r s s' res.
Proof.
  intros Hs Hrun. unfold timeout_post in Hrun. cbv zeta in Hrun. fold (is_routed r) in Hrun.
  step_ret Hrun md Er. apply try_ok_inv in Hrun as (meta & s1 & Hd & Hrun).
  apply delete_request_commitment_run in Hd as (h & Hh & Hm & Hmeta & Hs1 & Ha1); [|done].
  apply bind_inv in Hrun as (o & s2 & Hf & Hrun).
  apply (forget_request_run _ _ _ _ _ h) in Hf as (-> & Hs2 & Ha2); [|done..].
  assert (abs s2 = forget_request (is_routed r) h (abs s)) as Ha.
  { rewrite Ha2, Ha1. by destruct (is_routed r). }
  assert (receipt_if (is_routed r) h (abs s1) = receipt_if (is_routed r) h (abs s)) as Hrec
    by by rewrite Ha1.
  rewrite Hrec in Hrun. apply bind_inv in Hrun as (acc & s3 & Hacc & Hrun).
  destruct (router_frame _ _ Er) as (_ & _ & Hfr).
  destruct (Hfr (TimeoutRequest r) _ _ _ Hs2 Hacc) as [Hs3 _].
  apply bind_inv in Hrun as (res0 & s4 & Hev & Hrun). apply event_run in Hev as [-> Hev].
  destruct acc as [[]|e].
  - destruct Hev as (c & Hc & ->). assert (c = h) as -> by congruence.
    apply ret_inv in Hrun as [E <-]. injection E as <-. split; [done|].
    by apply (request_timed_ok _ (post_timeout_event r) _ _ _ md h meta s2).
  - subst res0. cbn [is_err is_ok negb] in Hrun.
    apply try_ok_inv in Hrun as (u & s5 & Hst & Hrun).
    apply (store_request_commitment_run _ _ _ _ _ h) in Hst as (_ & Hs5 & Ha5); [|done..].
    assert (res = Err e /\ inv s' /\ abs s' = restore_request h meta
      (receipt_if (is_routed r) h (abs s)) (abs s3)) as (-> & Hs' & Ha').
    { destruct (receipt_if _ _ _) as [x|] eqn:Ex.
      - unfold receipt_if in Ex. destruct (is_routed r); [|done].
        apply try_ok_inv in Hrun as (u' & s6 & Hsr & Hrun).
        apply (store_request_receipt_run _ _ _ _ _ h) in Hsr as (_ & Hs6 & Ha6); [|done..].
        apply ret_inv in Hrun as [E <-]. injection E as <-. by rewrite Ha6, Ha5.
      - apply ret_inv in Hrun as [E <-]. by injection E as <-. }
    split; [done|]. by apply (request_timed_failed _ _ _ _ _ md h meta s2 s3).
Qed.

Lemma timeout_get_run r s res s' :
  inv s -> timeout_get r s = (Some (Ok res), s') ->
  inv s' /\ request_timed false (get_timeout_event r) r s s' res.
Proof.
  intros Hs Hrun. unfold timeout_get in Hrun.
  step_ret Hrun md Er. apply try_ok_inv in Hrun as (meta & s1 & Hd & Hrun).
  apply delete_request_commitment_run in Hd as (h & Hh & Hm & Hmeta & Hs1 & Ha1); [|done].
  apply bind_inv in Hrun as (acc & s3 & Hacc & Hrun).
  destruct (router_frame _ _ Er) as (_ & _ & Hfr).
  destruct (Hfr (TimeoutRequest r) _ _ _ Hs1 Hacc) as [Hs3 _].
  apply bind_inv in Hrun as (res0 & s4 & Hev & Hrun). apply event_run in Hev as [-> Hev].
  destruct acc as [[]|e].
  - destruct Hev as (c & Hc & ->). assert (c = h) as -> by congruence.
    apply ret_inv in Hrun as [E <-]. injection E as <-. split; [done|].
    by apply (request_timed_ok _ (get_timeout_event r) _ _ _ md h meta s1).
  - subst res0. cbn [is_err is_ok negb] in Hrun.
    apply try_ok_inv in Hrun as (u & s5 & Hst & Hrun).
    apply (store_request_commitment_run _ _ _ _ _ h) in Hst as (_ & Hs5 & Ha5); [|done..].
    apply ret_inv in Hrun as [E <-]. injection E as <-. split; [done|].
    by apply (request_timed_failed _ _ _ _ _ md h meta s1 s3).
Qed.

(** A callback that fails and leaves the ISMP data alone is undone completely. *)
Lemma request_timed_undone routed ev r s s' e :
  request_timed routed ev r s s' (Err e) ->
  (forall md s1 s2 x, ismp_router (request_source_module r) = Ok md ->
     on_timeout md (TimeoutRequest r) s1 = (Some (Err x), s2) -> abs s2 = abs s1) ->
  abs s' = abs s.
Proof.
  intros Hd Hcb. inversion Hd as [|md h meta s1 s2 e' Er Hh Hm Hs1 Ha1 Hacc Ha]; subst.
  rewrite Ha, (Hcb _ _ _ _ Er Hacc), Ha1. by apply restore_forget_request.
Qed.

(** ** One response timeout *)

Definition response_routed (r : PostResponse) : bool :=
  negb (bool_decide (host_state_machine = pr_source_chain r)).

Definition response_timeout_event (r : PostResponse) (c : H256) : Event :=
  EvPostResponseTimeoutHandled (mkTimeoutHandled c (pr_source_chain r) (pr_dest_chain r)).

Inductive response_timed (r : PostResponse) (s s' : St) : DispatchResult -> Prop :=
| response_timed_ok md h req meta s1 :
    ismp_router (pr_source_module r) = Ok md -> hash_post_response r = Some h ->
    hash_request (pr_request r) = Some req ->
    m_res_commitments (a_msgs (abs s)) !! h = Some meta ->
    inv s1 -> abs s1 = forget_response (response_routed r) h req (abs s) ->
    on_timeout md (TimeoutResponse r) s1 = (Some (Ok tt), s') ->
    response_timed r s s' (Ok (response_timeout_event r h))
| response_timed_failed md h req meta s1 s2 e :
    ismp_router (pr_source_module r) = Ok md -> hash_post_response r = Some h ->
    hash_request (pr_request r) = Some req ->
    m_res_commitments (a_msgs (abs s)) !! h = Some meta ->
    inv s1 -> abs s1 = forget_response (response_routed r) h req (abs s) ->
    on_timeout md (TimeoutResponse r) s1 = (Some (Err e), s2) ->
    abs s' = restore_response h req meta (response_receipt_if (response_routed r) req (abs s))
               (abs s2) ->
    response_timed r s s' (Err e).

Lemma delete_response_commitment_run r s o s' :
  inv s -> delete_response_commitment r s = (Some (Ok o), s') ->
  exists h req, hash_post_response r = Some h /\ hash_request (pr_request r) = Some req /\
    m_res_commitments (a_msgs (abs s)) !! h = Some o /\
    meta_ok o /\ inv s' /\ abs s' = forget_response false h req (abs s).
Proof.
  intros Hs Hrun. eapply hashed_write_run in Hrun as (req & Ereq & E & Hs1);
    [|apply delete_response_commitment_impl|done].
  apply on_hash_inv in E as (h & Eh & E). cbv beta in E.
  destruct (m_res_commitments _ !! h) as [meta|] eqn:Em; [|done].
  injection E as -> <-. exists h, req. repeat (split; [done|]).
  split; [by apply (res_commitments_meta_ok s h)|done].
Qed.

Lemma store_response_commitment_run r meta s o s' h req :
  inv s -> meta_ok meta -> hash_post_response r = Some h -> hash_request (pr_request r) = Some req ->
  store_response_commitment r meta s = (Some o, s') ->
  o = Ok tt /\ inv s' /\ abs s' = restore_response h req meta None (abs s).
Proof.
  intros Hs Hmeta Hh Hreq Hrun. eapply hashed_write_run in Hrun as (h' & Eh & E & Hs1);
    [|by apply store_response_commitment_impl|done].
  apply on_hash_inv in E as (req' & Ereq & E).
  assert (h' = h) as -> by congruence. assert (req' = req) as -> by congruence.
  by apply spec_write_inv in E as [-> ->].
Qed.

Lemma delete_response_receipt_run r s o s' req :
  inv s -> answers r = Some req -> delete_response_receipt r s = (Some o, s') ->
  ok o = snd <$> m_res_receipts (a_msgs (abs s)) !! req /\ inv s' /\
  abs s' = upd_msgs (set_res_receipts (delete req)) (abs s).
Proof.
  intros Hs Hh Hrun. eapply hashed_write_run in Hrun as (h' & Eh & E & Hs1);
    [|by apply delete_response_receipt_impl|done].
  assert (h' = req) as -> by (unfold answers in *; congruence).
  cbv beta in E. destruct (m_res_receipts _ !! req) as [x|] eqn:Ex; injection E as <- <-;
    (split; [done|]); (split; [done|]); [done|].
  destruct (abs s) as [c [] now]. cbn in Ex. unfold upd_msgs, set_res_receipts; cbn.
  by rewrite delete_id.
Qed.

Lemma forget_response_run (routed : bool) r s o s' req :
  inv s -> answers r = Some req ->
  (if routed then let* x := delete_response_receipt r in ret (ok x) else ret None) s = (Some o, s') ->
  o = response_receipt_if routed req (abs s) /\ inv s' /\
  abs s' = upd_msgs (fun m => if routed then set_res_receipts (delete req) m else m) (abs s).
Proof.
  intros Hs Hh Hrun. destruct routed.
  - apply bind_inv in Hrun as (x & s1 & Hd & Hrun). apply ret_inv in Hrun as [<- <-].
    by apply (delete_response_receipt_run r s x s1 req) in Hd as (-> & ? & ?).
  - apply ret_inv in Hrun as [<- <-]. split; [done|]. split; [done|]. by destruct (abs s).
Qed.

Lemma timeout_response_run r s res s' :
  inv s -> timeout_response r s = (Some (Ok res), s') -> inv s' /\ response_timed r s s' res.
Proof.
  intros Hs Hrun. unfold timeout_response in Hrun. cbv zeta in Hrun.
  fold (response_routed r) in Hrun.
  step_ret Hrun md Er. apply try_ok_inv in Hrun as (meta & s1 & Hd & Hrun).
  apply delete_response_commitment_run in Hd as (h & req & Hh & Hreq & Hm & Hmeta & Hs1 & Ha1);
    [|done].
  apply bind_inv in Hrun as (o & s2 & Hf & Hrun).
  apply (forget_response_run _ _ _ _ _ req) in Hf as (-> & Hs2 & Ha2); [|done..].
  assert (abs s2 = forget_response (response_routed r) h req (abs s)) as Ha.
  { rewrite Ha2, Ha1. by destruct (response_routed r). }
  assert (response_receipt_if (response_routed r) req (abs s1)
          = response_receipt_if (response_routed r) req (abs s)) as Hrec by by rewrite Ha1.
  rewrite Hrec in Hrun. apply bind_inv in Hrun as (acc & s3 & Hacc & Hrun).
  destruct (router_frame _ _ Er) as (_ & _ & Hfr).
  destruct (Hfr (TimeoutResponse r) _ _ _ Hs2 Hacc) as [Hs3 _].
  apply bind_inv in Hrun as (res0 & s4 & Hev & Hrun). apply event_run in Hev as [-> Hev].
  destruct acc as [[]|e].
  - destruct Hev as (c & Hc & ->). assert (c = h) as -> by congruence.
    apply ret_inv in Hrun as [E <-]. injection E as <-. split; [done|].
    by apply (response_timed_ok _ _ _ md h req meta s2).
  - subst res0. cbn [is_err is_ok negb] in Hrun.
    apply try_ok_inv in Hrun as (u & s5 & Hst & Hrun).
    apply (store_response_commitment_run _ _ _ _ _ h req) in Hst as (_ & Hs5 & Ha5); [|done..].
    assert (res = Err e /\ inv s' /\ abs s' = restore_response h req meta
      (response_receipt_if (response_routed r) req (abs s)) (abs s3)) as (-> & Hs' & Ha').
    { destruct (response_receipt_if _ _ _) as [x|] eqn:Ex.
      - unfold response_receipt_if in Ex. destruct (response_routed r); [|done].
        apply try_ok_inv in Hrun as (u' & s6 & Hsr & Hrun).
        apply receipt_stored in Hsr as (req' & h' & Ereq & Eh & _ & Hs6 & Ha6); [|done].
        assert (req' = req) as -> by (unfold answers in *; cbn in *; congruence).
        assert (h' = h) as -> by (cbn in *; congruence).
        apply ret_inv in Hrun as [E <-]. injection E as <-. by rewrite Ha6, Ha5.
      - apply ret_inv in Hrun as [E <-]. by injection E as <-. }
    split; [done|]. by apply (response_timed_failed _ _ _ md h req meta s2 s3).
Qed.

(** ** The checks *)

(** The request was sent by this host, its destination is a chain the proof can speak
    for, and it expired by the time of the proven state. *)
Record post_timeoutable (a : AbsHost) (proof : Proof_) (c : StateCommitment) (r : Request) :
    Prop := {
  pt_sent : exists h, hash_request r = Some h /\ is_Some (m_req_commitments (a_msgs a) !! h);
  pt_dest : provable_by proof (request_dest_chain r);
  pt_time : request_timed_out r (commitment_timestamp c) = true
}.

Record response_timeoutable (a : AbsHost) (proof : Proof_) (c : StateCommitment)
    (r : PostResponse) : Prop := {
  rt_sent : exists h, hash_post_response r = Some h /\ is_Some (m_res_commitments (a_msgs a) !! h);
  rt_dest : provable_by proof (pr_dest_chain r);
  rt_time : pr_timeout r <= commitment_timestamp c
}.

(** The request was sent by this host and expired by the host's own clock. *)
Record get_timeoutable (a : AbsHost) (r : Request) : Prop := {
  gt_sent : exists h, hash_request r = Some h /\ is_Some (m_req_commitments (a_msgs a) !! h);
  gt_time : request_timed_out r (a_now a) = true
}.

Lemma check_post_timeout_ok proof c r s u s' :
  inv s -> check_post_timeout proof c r s = (Some (Ok u), s') ->
  post_timeoutable (abs s) proof c r.
Proof.
  intros Hs Hrun. unfold check_post_timeout in Hrun. cbv zeta in Hrun. step_guard Hrun G1.
  apply bind_inv in Hrun as (h & s1 & Hh & Hrun). apply or_panic_inv in Hh as [Hh ->].
  bind_gets Hrun. step_guard Hrun G2. step_guard Hrun G3. split.
  - exists h. split; [done|]. by apply known_commitment.
  - by apply provable_by_guard.
  - by apply negb_false_iff.
Qed.

Lemma check_response_timeout_ok proof c r s u s' :
  inv s -> check_response_timeout proof c r s = (Some (Ok u), s') ->
  response_timeoutable (abs s) proof c r.
Proof.
  intros Hs Hrun. unfold check_response_timeout in Hrun. cbv zeta in Hrun. step_guard Hrun G1.
  apply bind_inv in Hrun as (h & s1 & Hh & Hrun). apply or_panic_inv in Hh as [Hh ->].
  bind_gets Hrun. step_guard Hrun G2. step_guard Hrun G3. split.
  - exists h. split; [done|]. apply negb_false_iff in G2.
    rewrite response_commitment_abs in G2 by done. by apply bool_decide_eq_true in G2.
  - by apply provable_by_guard.
  - lia.
Qed.

Lemma check_get_timeout_ok r s u s' :
  inv s -> check_get_timeout r s = (Some (Ok u), s') -> get_timeoutable (abs s) r.
Proof.
  intros Hs Hrun. unfold check_get_timeout in Hrun.
  apply bind_inv in Hrun as (h & s1 & Hh & Hrun). apply or_panic_inv in Hh as [Hh ->].
  bind_gets Hrun. step_guard Hrun G2. bind_gets Hrun. step_guard Hrun G3. split.
  - exists h. split; [done|]. by apply known_commitment.
  - rewrite <- timestamp_abs. by apply negb_false_iff.
Qed.

(** ** The message *)

(** A state proof that answers [keys] with no value: nothing was delivered. *)
Definition not_delivered (a : AbsHost) (proof : Proof_) (client : StateMachineClient St)
    (c : StateCommitment) (items : RequestResponse) : Prop :=
  exists s keys values, abs s = a /\ receipts_state_trie_key client items = Some keys /\
    verify_state_proof client s keys c proof = Some (Ok values) /\
    Forall (fun kv => kv.2 = None) values.

Definition timeout_message_valid (msg : TimeoutMessage) (a : AbsHost) : Prop :=
  match msg with
  | TMPost requests proof => exists client c,
      proof_valid a (proof_height proof) client /\
      c_commitments (a_cons a) !! proof_height proof = Some c /\
      (forall r, r ∈ requests -> post_timeoutable a proof c r) /\
      not_delivered a proof client c (RRRequest requests)
  | TMPostResponse responses proof => exists client c,
      proof_valid a (proof_height proof) client /\
      c_commitments (a_cons a) !! proof_height proof = Some c /\
      (forall r, r ∈ responses -> response_timeoutable a proof c r) /\
      not_delivered a proof client c (RRResponse (ResponsePost <$> responses))
  | TMGet requests => forall r, r ∈ requests -> get_timeoutable a r
  end.

(** The dispatching part of the handler. *)
Definition run_timeouts (msg : TimeoutMessage) : M St (result AnyError (list DispatchResult)) :=
  match msg with
  | TMPost requests _ => try_map_m timeout_post requests
  | TMPostResponse responses _ => try_map_m timeout_response responses
  | TMGet requests => try_map_m timeout_get requests
  end.

Lemma any_delivered_false values :
  any_delivered values = false -> Forall (fun kv => kv.2 = None) values.
Proof.
  unfold any_delivered. intros Hd. apply Forall_forall. intros kv Hkv.
  apply not_true_iff_false in Hd. destruct kv.2 as [x|] eqn:Ev; [|done]. exfalso. apply Hd.
  apply existsb_exists. exists kv. split; [by apply list_elem_of_In|].
  rewrite Ev. apply bool_decide_eq_true. eauto.
Qed.

(** The proof-carrying part shared by the POST and the response branch: it stops in
    the state it started from, or all its checks hold. *)
Lemma proof_part_checked {A} (items : list A) (check : StateCommitment -> A -> M St (result AnyError unit))
    (to_rr : RequestResponse) proof err (k : M St (result AnyError (list DispatchResult))) s o s' :
  (forall c x, keeps eq (check c x)) -> inv s ->
  (let? client := validate_state_machine (proof_height proof) in
   let? state := gets (state_machine_commitment (proof_height proof)) in
   let? _ := for_each items (check state) in
   let* keys := or_panic (receipts_state_trie_key client to_rr) in
   let? values := ask (fun s => verify_state_proof client s keys state proof) in
   let? _ := ensure_not (any_delivered values) (Custom err) in k) s = (o, s') ->
  ((forall r, o <> Some (Ok r)) /\ abs s' = abs s) \/
  exists client c s1, proof_valid (abs s) (proof_height proof) client /\
    c_commitments (a_cons (abs s)) !! proof_height proof = Some c /\
    (forall x, x ∈ items -> exists t1 t2, inv t1 /\ abs t1 = abs s /\ check c x t1 = (Some (Ok tt), t2)) /\
    not_delivered (abs s) proof client c to_rr /\
    inv s1 /\ abs s1 = abs s /\ k s1 = (o, s').
Proof.
  intros Hk Hs Hrun.
  apply try_split in Hrun as [(client & s1 & Hv & Hrun)|(o1 & Hv & _ & Ho)].
  2: { left. split; [done|]. by eapply keeps_eq_run; [apply (validate_state_machine_keeps eq)| |]. }
  apply validate_state_machine_ok in Hv as [-> Hv]; [|done].
  apply try_split in Hrun as [(c & s1 & Hcm & Hrun)|(o1 & Hcm & _ & Ho)].
  2: { left. split; [done|]. unfold gets in Hcm. by injection Hcm as _ <-. }
  apply gets_inv in Hcm as [Hcm ->]. symmetry in Hcm.
  rewrite state_machine_commitment_abs in Hcm by done. apply ok_or_ok in Hcm.
  apply try_split in Hrun as [(u & s1 & Hc & Hrun)|(o1 & Hc & _ & Ho)].
  2: { left. split; [done|]. eapply keeps_eq_run; [|exact Hs|exact Hc].
       apply keeps_for_each; [typeclasses eauto|]. intros. apply Hk. }
  destruct (for_each_checks _ _ _ _ _ (Hk c) Hs Hc) as (Hs1 & Ha1 & Hall).
  apply bind_split in Hrun as [(keys & s2 & Hkeys & Hrun)|[Hkeys ->]].
  2: { left. split; [done|]. destruct (receipts_state_trie_key client to_rr); [done|].
       unfold or_panic, panic in Hkeys. by injection Hkeys as <-. }
  apply or_panic_inv in Hkeys as [Hkeys ->].
  apply try_split in Hrun as [(vs & s2 & Hvs & Hrun)|(o1 & Hvs & _ & Ho)].
  2: { left. split; [done|]. unfold ask in Hvs. by injection Hvs as _ <-. }
  apply ask_inv in Hvs as [Hvs ->].
  apply try_split in Hrun as [(u' & s2 & Hd & Hrun)|(o1 & Hd & _ & Ho)].
  2: { left. split; [done|]. unfold ensure_not, ret in Hd. by injection Hd as _ <-. }
  apply ensure_not_ok in Hd as [Hd ->]. right. exists client, c, s1.
  split; [done|]. split; [done|]. split; [done|]. split; [|done].
  exists s1, keys, vs. split; [done|]. split; [done|]. split; [done|].
  by apply any_delivered_false.
Qed.

Lemma handle_timeout_checked msg s o s' :
  inv s -> handle_timeout msg s = (o, s') ->
  ((forall r, o <> Some (Ok r)) /\ abs s' = abs s) \/
  (timeout_message_valid msg (abs s) /\ exists o1 s1, inv s1 /\ abs s1 = abs s /\
     run_timeouts msg s1 = (o1, s') /\
     forall r, o = Some (Ok r) -> exists rs, o1 = Some (Ok rs) /\ r = TimeoutResult rs).
Proof.
  intros Hs Hrun. apply try_wrap in Hrun as (o1 & Hbody & Hno & Hres).
  destruct msg as [reqs proof|ress proof|reqs].
  - destruct (proof_part_checked _ _ _ _ _ _ _ _ _
      (fun c x => check_post_timeout_keeps eq proof c x) Hs Hbody)
      as [[Ho Ha]|(client & c & s1 & Hv & Hc & Hall & Hnd & Hs1 & Ha1 & Hk)]; [left; auto|].
    right. split; [|by exists o1, s1]. exists client, c. split; [done|]. split; [done|].
    split; [|done]. intros r Hr. destruct (Hall r Hr) as (t1 & t2 & Ht & <- & Hchk).
    by eapply check_post_timeout_ok.
  - destruct (proof_part_checked _ _ _ _ _ _ _ _ _
      (fun c x => check_response_timeout_keeps eq proof c x) Hs Hbody)
      as [[Ho Ha]|(client & c & s1 & Hv & Hc & Hall & Hnd & Hs1 & Ha1 & Hk)]; [left; auto|].
    right. split; [|by exists o1, s1]. exists client, c. split; [done|]. split; [done|].
    split; [|done]. intros r Hr. destruct (Hall r Hr) as (t1 & t2 & Ht & <- & Hchk).
    by eapply check_response_timeout_ok.
  - apply try_split in Hbody as [(u & s1 & Hc & Hbody)|(o2 & Hc & _ & Ho)].
    2: { left. split; [auto|]. eapply keeps_eq_run; [|exact Hs|exact Hc].
         apply keeps_for_each; [typeclasses eauto|]. intros. apply (check_get_timeout_keeps eq). }
    destruct (for_each_checks _ _ _ _ _ (check_get_timeout_keeps eq) Hs Hc) as (Hs1 & Ha1 & Hall).
    right. split; [|by exists o1, s1].
    intros r Hr. destruct (Hall r Hr) as (t1 & t2 & Ht & <- & Hchk).
    by eapply check_get_timeout_ok.
Qed.

(** Items processed one after the other, each from the state its predecessor left. *)
Inductive in_turn {A} (P : A -> St -> St -> DispatchResult -> Prop) :
    list A -> St -> St -> list DispatchResult -> Prop :=
| in_turn_nil s : in_turn P [] s s []
| in_turn_cons x l s s1 s' r rs :
    P x s s1 r -> in_turn P l s1 s' rs -> in_turn P (x :: l) s s' (r :: rs).

Lemma try_map_in_turn {A} (P : A -> St -> St -> DispatchResult -> Prop)
    (f : A -> M St (result AnyError DispatchResult)) l s rs s' :
  (forall x s r s', inv s -> f x s = (Some (Ok r), s') -> inv s' /\ P x s s' r) ->
  inv s -> try_map_m f l s = (Some (Ok rs), s') -> in_turn P l s s' rs.
Proof.
  intros Hf. revert s rs. induction l as [|x l IH]; intros s rs Hs Hrun; cbn [try_map_m] in Hrun.
  - apply ret_inv in Hrun as [E <-]. injection E as <-. constructor.
  - apply try_ok_inv in Hrun as (r & s1 & Hd & Hrun).
    apply try_ok_inv in Hrun as (rs' & s2 & Hl & Hrun). apply ret_inv in Hrun as [E <-].
    injection E as <-. destruct (Hf _ _ _ _ Hs Hd) as [Hs1 HP].
    econstructor; [exact HP|]. by apply IH.
Qed.

(** The timeouts of a message, in turn. *)
Definition timeouts_in_turn (msg : TimeoutMessage) (s s' : St) (rs : list DispatchResult) : Prop :=
  match msg with
  | TMPost requests _ =>
      in_turn (fun r => request_timed (is_routed r) (post_timeout_event r) r) requests s s' rs
  | TMPostResponse responses _ => in_turn response_timed responses s s' rs
  | TMGet requests => in_turn (fun r => request_timed false (get_timeout_event r) r) requests s s' rs
  end.

Lemma run_timeouts_in_turn msg s rs s' :
  inv s -> run_timeouts msg s = (Some (Ok rs), s') -> timeouts_in_turn msg s s' rs.
Proof.
  intros Hs Hrun. destruct msg; (eapply try_map_in_turn; [|exact Hs|exact Hrun]); intros x t r t' Ht Hx.
  - by apply timeout_post_run.
  - by apply timeout_response_run.
  - by apply timeout_get_run.
Qed.

(** A message that names a request or a response this host has no commitment of. *)
Definition names_unknown (msg : TimeoutMessage) (a : AbsHost) : Prop :=
  match msg with
  | TMPost l _ | TMGet l => exists r h, r ∈ l /\ hash_request r = Some h /\
      m_req_commitments (a_msgs a) !! h = None
  | TMPostResponse l _ => exists r h, r ∈ l /\ hash_post_response r = Some h /\
      m_res_commitments (a_msgs a) !! h = None
  end.

Lemma timeout_valid_known msg a : timeout_message_valid msg a -> ~ names_unknown msg a.
Proof.
  intros Hv Hu. destruct msg; destruct Hu as (r & h & Hr & Hh & Hn); simpl in Hv.
  - destruct Hv as (client & c & _ & _ & Hall & _).
    destruct (pt_sent _ _ _ _ (Hall r Hr)) as (h' & ? & [x Hx]). congruence.
  - destruct Hv as (client & c & _ & _ & Hall & _).
    destruct (rt_sent _ _ _ _ (Hall r Hr)) as (h' & ? & [x Hx]). congruence.
  - destruct (gt_sent _ _ (Hv r Hr)) as (h' & ? & [x Hx]). congruence.
Qed.

End timeouts.

(** ** Properties *)

Section properties.
Context `{Keccak256} {St : Type} `{!IsmpHost St} `{!HeightSort} `{!HostModel St}
  `{!RouterFrame St}.


(** a timeout message that names a request or response without a commitment on
    this host, because it was never sent or is timed out already, is refused and has
    no effect. *)
Theorem handle_timeout_unknown_refused msg s o s' :
  inv s -> names_unknown msg (abs s) -> handle_timeout msg s = (o, s') ->
  abs s' = abs s /\ forall r, o <> Some (Ok r).
Proof.
  intros Hs Hu Hrun.
  destruct (handle_timeout_checked _ _ _ _ Hs Hrun) as [[Ho Ha]|(Hv & _)]; [done|].
  by destruct (timeout_valid_known _ _ Hv).
Qed.

(** a POST timeout whose module fails without touching the ISMP data leaves the
    host exactly as it was, commitment, fee metadata and routed receipt included, so it
    can be tried again. *)
Theorem timeout_post_failed_undone r s e s' :
  inv s -> timeout_post r s = (Some (Ok (Err e)), s') ->
  (forall md s1 s2 x, ismp_router (request_source_module r) = Ok md ->
     on_timeout md (TimeoutRequest r) s1 = (Some (Err x), s2) -> abs s2 = abs s1) ->
  abs s' = abs s.
Proof.
  intros Hs Hrun Hcb. apply timeout_post_run in Hrun as [_ Hd]; [|done].
  by eapply request_timed_undone.
Qed.

(** the same for the timeout of a response, on a host where the request is marked
    as answered and a routed receipt of its answer is that of this response. *)
Theorem timeout_response_failed_undone r h req s e s' :
  inv s -> hash_post_response r = Some h -> hash_request (pr_request r) = Some req ->
  req ∈ m_responded (a_msgs (abs s)) ->
  (forall h' x, m_res_receipts (a_msgs (abs s)) !! req = Some (h', x) -> h' = h) ->
  timeout_response r s = (Some (Ok (Err e)), s') ->
  (forall md s1 s2 x, ismp_router (pr_source_module r) = Ok md ->
     on_timeout md (TimeoutResponse r) s1 = (Some (Err x), s2) -> abs s2 = abs s1) ->
  abs s' = abs s.
Proof.
  intros Hs Hh Hreq Hin Hrec Hrun Hcb. apply timeout_response_run in Hrun as [_ Hd]; [|done].
  inversion Hd as [|md h' req' meta s1 s2 e' Er Hh' Hreq' Hm Hs1 Ha1 Hacc Ha]; subst.
  assert (h' = h) as -> by congruence. assert (req' = req) as -> by congruence.
  rewrite Ha, (Hcb _ _ _ _ Er Hacc), Ha1. by apply restore_forget_response.
Qed.

End properties.

(** ** Witnesses *)

Module TimeoutWitnesses.
Import ResponseWitnesses.

#[local] Existing Instances Demo.keccak Demo.host Demo.sort Demo.model RequestWitnesses.demo_frame.

Definition set_now (d : Duration) (a : AbsHost) : AbsHost := mkAbsHost (a_cons a) (a_msgs a) d.

(** At second 3000 the host knows a state of [there] of second 2500, at height 4. *)
Definition expired : AbsHost :=
  set_now (from_secs 3000)
    (upd_cons (fun c => set_commitments <[Demo.at_height 4 := Demo.commitment 2500]>
                          (set_sm_updated <[Demo.at_height 4 := 2600]> c)) waiting).

(** A request of the failing module and its response, both known to the host. *)
Definition sent_bad : Request :=
  RequestPost (mkPostRequest Demo.here Demo.there 9 (lit "bad") (lit "them") 2000 (lit "ping")).
Definition reply_bad : PostResponse :=
  mkPostResponse (mkPostRequest Demo.there Demo.here 9 (lit "them") (lit "bad") 2000 (lit "ping"))
    (lit "pong") 2000.
Definition expired_bad : AbsHost :=
  upd_msgs (fun m =>
    set_responded (fun x => {[default [] (hash_request (pr_request reply_bad))]} ∪ x)
      (set_res_commitments <[default [] (hash_post_response reply_bad) := lit "meta"]>
        (set_req_commitments <[default [] (hash_request sent_bad) := lit "meta"]> m))) expired.

Definition post_msg : TimeoutMessage :=
  TMPost [RequestPost sent] (mkProof (Demo.at_height 4) (lit "ok")).


(** A second timeout of the same request is refused. *)
Lemma handle_timeout_unknown_refused_witness :
  snd (handle_timeout post_msg (snd (handle_timeout post_msg expired)))
  = snd (handle_timeout post_msg expired).
Proof.
  refine (proj1 (handle_timeout_unknown_refused post_msg (snd (handle_timeout post_msg expired))
    (fst (handle_timeout post_msg (snd (handle_timeout post_msg expired))))
    (snd (handle_timeout post_msg (snd (handle_timeout post_msg expired)))) (Demo.inv_any _) _ _)).
  - exists (RequestPost sent), (default [] (hash_request (RequestPost sent))).
    split; [left|]. split; vm_compute; reflexivity.
  - apply (run_eq (handle_timeout post_msg) _). reflexivity.
Defined.

Lemma failing_callback (r : Timeout) id md (s1 s2 : AbsHost) x :
  id = lit "bad" -> @ismp_router _ Demo.keccak Demo.host id = Ok md ->
  on_timeout md r s1 = (Some (Err x), s2) -> s2 = s1.
Proof.
  intros -> E. vm_compute in E. injection E as <-. cbn. intros [= _ <-]. done.
Defined.

Lemma timeout_post_failed_undone_witness :
  snd (timeout_post sent_bad expired_bad) = expired_bad.
Proof.
  apply (timeout_post_failed_undone sent_bad expired_bad (AnyMessage (lit "no"))
    (snd (timeout_post sent_bad expired_bad)) (Demo.inv_any _)).
  - apply (run_eq (timeout_post sent_bad) expired_bad). vm_compute. reflexivity.
  - intros md s1 s2 x. by apply (failing_callback (TimeoutRequest sent_bad)).
Defined.

Lemma timeout_response_failed_undone_witness :
  snd (timeout_response reply_bad expired_bad) = expired_bad.
Proof.
  apply (timeout_response_failed_undone reply_bad (default [] (hash_post_response reply_bad))
    (default [] (hash_request (pr_request reply_bad))) expired_bad (AnyMessage (lit "no"))
    (snd (timeout_response reply_bad expired_bad)) (Demo.inv_any _)).
  - vm_compute. reflexivity.
  - vm_compute. reflexivity.
  - apply (bool_decide_unpack _). vm_compute. exact I.
  - intros h' x E. vm_compute in E. discriminate.
  - apply (run_eq (timeout_response reply_bad) expired_bad). vm_compute. reflexivity.
  - intros md s1 s2 x. by apply (failing_callback (TimeoutResponse reply_bad)).
Defined.

End TimeoutWitnesses.

(** ** Timeouts without a proof *)

Section unproved.
Import ResponseWitnesses TimeoutWitnesses.
#[local] Existing Instances Demo.keccak Demo.host Demo.sort Demo.model.

(** a GET timeout message carries whole requests and the handler does not check
    that they are GET requests. A POST request is timed out by one as soon as it has
    expired on the sender's clock, with no proof that it was not delivered: the handler
    accepts, reports a GET timeout and calls the module. *)
Theorem post_timed_out_without_proof :
  let run := handle_timeout (TMGet [RequestPost sent]) expired in
  fst run = Some (Ok (TimeoutResult [Ok (get_timeout_event (RequestPost sent)
                        (default [] (hash_request (RequestPost sent))))])) /\
  m_nonce (a_msgs (snd run)) = 1.
Proof. split; vm_compute; reflexivity. Qed.

(** delivering the answer of a GET request leaves its commitment in place and the
    timeout handler does not look at response receipts, so an answered GET request
    still times out: its module gets the answer and then the timeout. *)
Theorem answered_get_times_out :
  let answered_state := snd (handle_response (message (RRRequest [RequestGet query])) waiting) in
  let run := handle_timeout (TMGet [RequestGet query]) (set_now (from_secs 3000) answered_state) in
  is_Some (m_res_receipts (a_msgs answered_state) !! default [] (get_hash query)) /\
  fst run = Some (Ok (TimeoutResult [Ok (get_timeout_event (RequestGet query)
                        (default [] (get_hash query)))])) /\
  m_nonce (a_msgs (snd run)) = 2.
Proof.
  cbv zeta. split; [apply (bool_decide_unpack _); vm_compute; exact I|].
  split; vm_compute; reflexivity.
Qed.

End unproved.
