(* ===== verification/Invariants.v ===== *)
(** * Histories of a host

    The host as a state machine: a step handles one message, with any outcome, or lets
    the rest of the chain run. Along every history the consensus data only evolves,
    a frozen client stays frozen and useless, and a delivered request stays delivered. *)

From S2P Require Import Prelude StateMachine Router Messaging Host Handlers HostSpec RefHost Frame Consensus Requests Responses Timeouts.

Section frames.
Context `{Keccak256} {St : Type} `{!IsmpHost St} `{!HeightSort} `{!HostModel St}
  `{!RouterFrame St}.

(** ** More frame rules *)

(** The continuation may use what is known of the value. *)
Lemma keeps_try_val (P : AbsHost -> AbsHost -> Prop) `{!PreOrder P} {A B E F} `{From E F}
    (Q : A -> Prop) (m : M St (result E A)) (k : A -> M St (result F B)) :
  keeps P m -> (forall s a s', inv s -> m s = (Some (Ok a), s') -> Q a) ->
  (forall a, Q a -> keeps P (k a)) -> keeps P (try_bind m k).
Proof.
  intros Hm HQ Hk s o s'' Hs Hrun.
  apply try_split in Hrun as [(a & s1 & Em & Hrun)|(o1 & Em & _ & _)]; [|by eapply Hm].
  destruct (Hm _ _ _ Hs Em) as [Hs1 HP]. destruct (Hk a (HQ _ _ _ Hs Em) _ _ _ Hs1 Hrun).
  split; [done|]. by etransitivity.
Qed.

(** A module found by the router is a known one. *)
Lemma keeps_router R `{!PreOrder R} {B} id (k : IsmpModule St -> M St (result AnyError B)) :
  (forall md, ismp_router id = Ok md -> keeps R (k md)) ->
  keeps R (let? md := ret (ismp_router id) in k md).
Proof.
  intros Hk. apply (keeps_try_val R (fun md => ismp_router id = Ok md));
    [apply keeps_ret; typeclasses eauto| |done].
  intros s a s' _ E. by apply ret_inv in E as [? _].
Qed.

Lemma keeps_accept R id md p : (forall a a', callback_frame a a' -> R a a') ->
  ismp_router id = Ok md -> keeps R (on_accept md p).
Proof. intros HR E. eapply keeps_weaken; [exact HR|]. apply (router_frame _ _ E). Qed.
Lemma keeps_response R id md p : (forall a a', callback_frame a a' -> R a a') ->
  ismp_router id = Ok md -> keeps R (on_response md p).
Proof. intros HR E. eapply keeps_weaken; [exact HR|]. apply (router_frame _ _ E). Qed.
Lemma keeps_timeout R id md p : (forall a a', callback_frame a a' -> R a a') ->
  ismp_router id = Ok md -> keeps R (on_timeout md p).
Proof. intros HR E. eapply keeps_weaken; [exact HR|]. apply (router_frame _ _ E). Qed.

Lemma deleted_request_meta r s meta s' :
  inv s -> delete_request_commitment r s = (Some (Ok meta), s') -> meta_ok meta.
Proof. intros Hs Hd. by apply delete_request_commitment_run in Hd as (? & _ & _ & ? & _). Qed.
Lemma deleted_response_meta r s meta s' :
  inv s -> delete_response_commitment r s = (Some (Ok meta), s') -> meta_ok meta.
Proof. intros Hs Hd. by apply delete_response_commitment_run in Hd as (? & ? & _ & _ & _ & ? & _). Qed.

Section message_frames.
Context (R : relation AbsHost) `{!PreOrder R}.
Hypothesis Rcallback : forall a a', callback_frame a a' -> R a a'.

Ltac modules :=
  lazymatch goal with
  | |- keeps _ (try_bind (ret (ismp_router _)) _) =>
      apply keeps_router; [typeclasses eauto|]; intros ? ?
  | |- keeps _ (try_bind (delete_request_commitment _) _) =>
      apply (keeps_try_val R meta_ok); [eauto|intros; by eapply deleted_request_meta|intros ? ?]
  | |- keeps _ (try_bind (delete_response_commitment _) _) =>
      apply (keeps_try_val R meta_ok); [eauto|intros; by eapply deleted_response_meta|intros ? ?]
  | |- keeps _ (on_accept _ _) => by eapply keeps_accept
  | |- keeps _ (on_response _ _) => by eapply keeps_response
  | |- keeps _ (on_timeout _ _) => by eapply keeps_timeout
  | |- keeps _ _ => first [keeps_step | solve [auto]]
  end.

Lemma dispatch_post_frame signer p :
  keeps R (store_request_receipt (RequestPost p) signer) ->
  keeps R (delete_request_receipt (RequestPost p)) -> keeps R (dispatch_post signer p).
Proof. intros. unfold dispatch_post. repeat modules. Qed.

Lemma dispatch_response_frame signer r :
  keeps R (store_response_receipt r signer) -> keeps R (delete_response_receipt r) ->
  keeps R (dispatch_response_to_module signer r).
Proof. intros. unfold dispatch_response_to_module. repeat modules. Qed.

Lemma dispatch_get_frame client c proof signer g :
  keeps R (store_response_receipt (empty_answer g) signer) ->
  keeps R (delete_response_receipt (empty_answer g)) ->
  keeps R (dispatch_get_response client c proof signer g).
Proof. intros. unfold dispatch_get_response. repeat modules. Qed.

Lemma timeout_post_frame r :
  keeps R (delete_request_commitment r) ->
  (forall meta, meta_ok meta -> keeps R (store_request_commitment r meta)) ->
  (is_routed r = true -> keeps R (delete_request_receipt r)) ->
  (forall x, is_routed r = true -> keeps R (store_request_receipt r x)) -> keeps R (timeout_post r).
Proof.
  intros ? ? Hd Hst. unfold timeout_post. cbv zeta. fold (is_routed r).
  destruct (is_routed r); repeat modules.
Qed.

Lemma timeout_response_frame r :
  keeps R (delete_response_commitment r) ->
  (forall meta, meta_ok meta -> keeps R (store_response_commitment r meta)) ->
  keeps R (delete_response_receipt (ResponsePost r)) ->
  (forall x, keeps R (store_response_receipt (ResponsePost r) x)) -> keeps R (timeout_response r).
Proof. intros. unfold timeout_response. repeat modules. Qed.

Lemma timeout_get_frame r :
  keeps R (delete_request_commitment r) ->
  (forall meta, meta_ok meta -> keeps R (store_request_commitment r meta)) -> keeps R (timeout_get r).
Proof. intros. unfold timeout_get. repeat modules. Qed.

End message_frames.

(** ** Frames of the handlers *)

Section handlers.
Context (R : relation AbsHost) `{!PreOrder R}.

Lemma keeps_map_m_in {A B} (f : A -> M St B) (l : list A) :
  (forall x, x ∈ l -> keeps R (f x)) -> keeps R (map_m f l).
Proof.
  induction l as [|x l IH]; intros Hf; simpl; [by apply keeps_ret|].
  apply keeps_bind; [done|apply Hf; left|]. intros. apply keeps_bind; [done| |].
  - apply IH. intros y Hy. apply Hf. by right.
  - intros. by apply keeps_ret.
Qed.

Lemma keeps_try_map_m_in {A B E} (f : A -> M St (result E B)) (l : list A) :
  (forall x, x ∈ l -> keeps R (f x)) -> keeps R (try_map_m f l).
Proof.
  induction l as [|x l IH]; intros Hf; simpl; [by apply keeps_ret|].
  apply keeps_try; [done|apply Hf; left|]. intros. apply keeps_try; [done| |].
  - apply IH. intros y Hy. apply Hf. by right.
  - intros. by apply keeps_ret.
Qed.

Lemma handle_request_frame msg :
  (forall p, p ∈ rm_requests msg -> keeps R (dispatch_post (rm_signer msg) p)) ->
  keeps R (handle_request msg).
Proof.
  intros Hp. unfold handle_request.
  do 4 (apply keeps_try; [done|solve [keeps_solve]|intros ?]).
  apply keeps_bind; [done|by apply keeps_map_m_in|]. intros. by apply keeps_ret.
Qed.

Lemma handle_response_frame msg :
  (forall l r, rsm_datagram msg = RRResponse l -> r ∈ l ->
     keeps R (dispatch_response_to_module (rsm_signer msg) r)) ->
  (forall client c g, keeps R (dispatch_get_response client c (rsm_proof msg) (rsm_signer msg) g)) ->
  keeps R (handle_response msg).
Proof.
  intros Hr Hg. unfold handle_response. cbv zeta.
  do 2 (apply keeps_try; [done|solve [keeps_solve]|intros ?]).
  apply keeps_try; [done| |intros; by apply keeps_ret].
  destruct (rsm_datagram msg) as [l|l];
    do 2 (apply keeps_try; [done|solve [keeps_solve]|intros ?]); apply keeps_try_map_m_in; eauto.
Qed.

Lemma handle_timeout_frame msg :
  match msg with
  | TMPost l _ => forall r, r ∈ l -> keeps R (timeout_post r)
  | TMPostResponse l _ => forall r, r ∈ l -> keeps R (timeout_response r)
  | TMGet l => forall r, r ∈ l -> keeps R (timeout_get r)
  end -> keeps R (handle_timeout msg).
Proof.
  intros Hm. unfold handle_timeout. apply keeps_try; [done| |intros; by apply keeps_ret].
  destruct msg; repeat first
    [ by apply keeps_try_map_m_in
    | apply keeps_try; [done|solve [keeps_solve]|intros ?]
    | apply keeps_bind; [done|solve [keeps_solve]|intros ?] ].
Qed.

End handlers.

(** ** Consensus data *)

(** Consensus data evolves and the clock stands still. *)
Definition evolves (a a' : AbsHost) : Prop :=
  evolves_cons (a_cons a) (a_cons a') /\ a_now a' = a_now a.

#[export] Instance evolves_preorder : PreOrder evolves.
Proof.
  split; [by split|]. intros a b c [H1 E1] [H2 E2]. split; [by etransitivity|congruence].
Qed.

Lemma cons_frame_evolves a a' : cons_frame a a' -> evolves a a'.
Proof. intros [E1 E2]. split; [by rewrite E1|done]. Qed.

Lemma callback_frame_cons a a' : callback_frame a a' -> cons_frame a a'.
Proof. intros []. by split. Qed.

Lemma message_handlers_cons msg :
  keeps cons_frame (handle_incoming_message msg) \/
  (exists m, msg = MsgConsensus m) \/ (exists m, msg = MsgFraudProof m).
Proof.
  destruct msg as [m|m|m|m|m]; eauto; left; cbn [handle_incoming_message].
  - apply handle_request_frame; [typeclasses eauto|]. intros p _.
    apply dispatch_post_frame; auto using callback_frame_cons with keeps; typeclasses eauto.
  - apply handle_response_frame; [typeclasses eauto|intros l r _ _|intros client c g].
    + apply dispatch_response_frame; auto using callback_frame_cons with keeps; typeclasses eauto.
    + apply dispatch_get_frame; auto using callback_frame_cons with keeps; typeclasses eauto.
  - apply handle_timeout_frame; [typeclasses eauto|]. destruct m; intros r _.
    + apply timeout_post_frame; auto using callback_frame_cons with keeps; typeclasses eauto.
    + apply timeout_response_frame; auto using callback_frame_cons with keeps; typeclasses eauto.
    + apply timeout_get_frame; auto using callback_frame_cons with keeps; typeclasses eauto.
Qed.

Lemma write_evolves m f :
  implements abs inv m (spec_write f) -> (forall a, evolves a (f a)) -> keeps evolves m.
Proof. intros Hi Hf. by eapply keeps_implements. Qed.

Lemma update_client_evolves msg : keeps evolves (update_client msg).
Proof.
  unfold update_client. cbv zeta.
  do 6 (apply keeps_try; [typeclasses eauto|solve [keeps_solve]|intros ?]).
  lazymatch goal with
  | |- context [match ?p with (_, _) => _ end] => destruct p as [new_state states]
  end.
  intros s o s' Hs Hrun.
  pose proof (update_client_writes (cm_consensus_state_id msg) new_state states s Hs) as Hw.
  destruct (runs_fun _ _ _ _ _ _ Hw Hrun) as (_ & Hs' & Ha). split; [done|]. rewrite Ha.
  split; [apply ref_update_evolves|done].
Qed.

Lemma set_updated_evolves f a : evolves a (upd_cons (set_updated f) a).
Proof. split; [|done]. split; try done. intros id n Hn. exists n. split; [done|lia]. Qed.

Lemma freeze_evolves csid a : evolves a (upd_cons (set_frozen (fun x => {[csid]} ∪ x)) a).
Proof.
  split; [|done]. split; try done; [set_solver|]. intros id n Hn. exists n. split; [done|lia].
Qed.

Lemma freeze_client_evolves msg : keeps evolves (freeze_client msg).
Proof.
  unfold freeze_client. cbv zeta.
  do 5 (apply keeps_try; [typeclasses eauto|solve [keeps_solve]|intros ?]).
  apply keeps_try; [typeclasses eauto| |intros ?].
  { eapply write_evolves; [apply freeze_consensus_client_impl|apply freeze_evolves]. }
  apply keeps_bind; [typeclasses eauto|solve [keeps_solve]|intros ?].
  apply keeps_try; [typeclasses eauto| |intros ?; solve [keeps_solve]].
  eapply write_evolves; [apply store_consensus_update_time_impl|apply set_updated_evolves].
Qed.

Lemma handle_incoming_message_evolves msg : keeps evolves (handle_incoming_message msg).
Proof.
  destruct (message_handlers_cons msg) as [Hk|[[m ->]|[m ->]]].
  - eapply keeps_weaken; [apply cons_frame_evolves|done].
  - apply update_client_evolves.
  - apply freeze_client_evolves.
Qed.

(** ** Receipts *)

(** A receipt for [h], once there, stays. *)
Definition receipt_stays (h : H256) (x : bytes) (a a' : AbsHost) : Prop :=
  m_req_receipts (a_msgs a) !! h = Some x -> m_req_receipts (a_msgs a') !! h = Some x.

#[export] Instance receipt_stays_preorder h x : PreOrder (receipt_stays h x).
Proof. unfold receipt_stays. split; [by intros a|]. intros a b c; auto. Qed.

Lemma callback_receipt_stays h x a a' : callback_frame a a' -> receipt_stays h x a a'.
Proof. intros [_ _ Hr _ _ _]. unfold receipt_stays. by rewrite Hr. Qed.

(** Only the methods on request receipts of [h] itself touch it. *)
Ltac receipt_method impl :=
  eapply keeps_implements; [by apply impl|]; intros ?;
  unfold spec_store_request_receipt, spec_store_response_receipt,
    spec_delete_request_receipt, spec_delete_response_receipt,
    spec_delete_request_commitment, spec_delete_response_commitment,
    spec_store_request_commitment, spec_store_response_commitment;
  repeat (apply on_hash_rel; [typeclasses eauto|]; intros ?);
  repeat case_match; by intros ?.

Section receipt_stays.
Context (h : H256) (x : bytes).

Lemma store_response_receipt_stays r sg : keeps (receipt_stays h x) (store_response_receipt r sg).
Proof. receipt_method store_response_receipt_impl. Qed.
Lemma delete_response_receipt_stays r : keeps (receipt_stays h x) (delete_response_receipt r).
Proof. receipt_method delete_response_receipt_impl. Qed.
Lemma delete_request_commitment_stays r : keeps (receipt_stays h x) (delete_request_commitment r).
Proof. receipt_method delete_request_commitment_impl. Qed.
Lemma delete_response_commitment_stays r : keeps (receipt_stays h x) (delete_response_commitment r).
Proof. receipt_method delete_response_commitment_impl. Qed.
Lemma store_request_commitment_stays r meta :
  meta_ok meta -> keeps (receipt_stays h x) (store_request_commitment r meta).
Proof. intros. receipt_method store_request_commitment_impl. Qed.
Lemma store_response_commitment_stays r meta :
  meta_ok meta -> keeps (receipt_stays h x) (store_response_commitment r meta).
Proof. intros. receipt_method store_response_commitment_impl. Qed.

Lemma store_request_receipt_stays r sg :
  hash_request r <> Some h -> keeps (receipt_stays h x) (store_request_receipt r sg).
Proof.
  intros Hne. eapply keeps_implements; [apply store_request_receipt_impl|]. intros a.
  unfold spec_store_request_receipt, on_hash, bind, or_panic.
  destruct (hash_request r) as [h'|]; cbn; [|done]. unfold receipt_stays; cbn.
  intros Hx. by rewrite lookup_insert_ne by congruence.
Qed.

Lemma delete_request_receipt_stays r :
  hash_request r <> Some h -> keeps (receipt_stays h x) (delete_request_receipt r).
Proof.
  intros Hne. eapply keeps_implements; [apply delete_request_receipt_impl|]. intros a.
  unfold spec_delete_request_receipt, on_hash, bind, or_panic.
  destruct (hash_request r) as [h'|]; cbn; [|done].
  destruct (m_req_receipts _ !! h'); cbn; [|done]. unfold receipt_stays; cbn.
  intros Hx. by rewrite lookup_delete_ne by congruence.
Qed.

End receipt_stays.

(** The message does not time the routed request [h] out. *)
Definition spares (h : H256) (msg : Message) : Prop :=
  forall l proof r, msg = MsgTimeout (TMPost l proof) -> r ∈ l -> is_routed r = true ->
    hash_request r <> Some h.

(** The consensus handlers leave the messages alone. *)
Definition msgs_frame (a a' : AbsHost) : Prop := a_msgs a' = a_msgs a.

#[export] Instance msgs_frame_preorder : PreOrder msgs_frame.
Proof. unfold msgs_frame. split; [done|]. intros a b c; congruence. Qed.

Lemma update_client_msgs msg : keeps msgs_frame (update_client msg).
Proof.
  unfold update_client. cbv zeta.
  do 6 (apply keeps_try; [typeclasses eauto|solve [keeps_solve]|intros ?]).
  lazymatch goal with
  | |- context [match ?p with (_, _) => _ end] => destruct p as [new_state states]
  end.
  intros s o s' Hs Hrun.
  pose proof (update_client_writes (cm_consensus_state_id msg) new_state states s Hs) as Hw.
  destruct (runs_fun _ _ _ _ _ _ Hw Hrun) as (_ & Hs' & Ha). split; [done|]. by rewrite Ha.
Qed.

Lemma freeze_client_msgs msg : keeps msgs_frame (freeze_client msg).
Proof.
  unfold freeze_client. cbv zeta.
  do 5 (apply keeps_try; [typeclasses eauto|solve [keeps_solve]|intros ?]).
  apply keeps_try; [typeclasses eauto| |intros ?].
  { by eapply keeps_implements; [apply freeze_consensus_client_impl|]. }
  apply keeps_bind; [typeclasses eauto|solve [keeps_solve]|intros ?].
  apply keeps_try; [typeclasses eauto| |intros ?; solve [keeps_solve]].
  by eapply keeps_implements; [apply store_consensus_update_time_impl|].
Qed.

Lemma msgs_frame_receipt h x a a' : msgs_frame a a' -> receipt_stays h x a a'.
Proof. unfold msgs_frame, receipt_stays. by intros ->. Qed.

Lemma receipt_kept h x msg s o s' :
  inv s -> spares h msg -> m_req_receipts (a_msgs (abs s)) !! h = Some x ->
  handle_incoming_message msg s = (o, s') -> m_req_receipts (a_msgs (abs s')) !! h = Some x.
Proof.
  intros Hs Hsp Hx Hrun.
  assert (keeps (receipt_stays h x) (handle_incoming_message msg) \/ abs s' = abs s) as [Hk|Ha];
    [|by apply (Hk _ _ _ Hs Hrun)|by rewrite Ha].
  pose proof (callback_receipt_stays h x) as Hcb.
  destruct msg as [m|m|m|m|m]; cbn [handle_incoming_message] in *.
  - left. eapply keeps_weaken; [apply msgs_frame_receipt|apply update_client_msgs].
  - left. eapply keeps_weaken; [apply msgs_frame_receipt|apply freeze_client_msgs].
  - destruct (decide (Some h ∈ post_hash <$> rm_requests m)) as [Hin|Hni].
    + right. apply list_elem_of_fmap in Hin as (p & Ep & Hp).
      by eapply (request_replay_refused m p h x).
    + left. apply handle_request_frame; [typeclasses eauto|]. intros p Hp.
      assert (hash_request (RequestPost p) <> Some h).
      { intros E. apply Hni. rewrite <- E. by apply (list_elem_of_fmap_2 post_hash). }
      apply dispatch_post_frame;
        auto using store_request_receipt_stays, delete_request_receipt_stays; typeclasses eauto.
  - left. apply handle_response_frame; [typeclasses eauto|intros l r _ _|intros client c g].
    + apply dispatch_response_frame;
        auto using store_response_receipt_stays, delete_response_receipt_stays; typeclasses eauto.
    + apply dispatch_get_frame;
        auto using store_response_receipt_stays, delete_response_receipt_stays; typeclasses eauto.
  - left. apply handle_timeout_frame; [typeclasses eauto|]. destruct m as [l proof|l proof|l]; intros r Hr.
    + apply timeout_post_frame;
        eauto using delete_request_commitment_stays, store_request_commitment_stays,
          delete_request_receipt_stays, store_request_receipt_stays; typeclasses eauto.
    + apply timeout_response_frame;
        auto using delete_response_commitment_stays, store_response_commitment_stays,
          delete_response_receipt_stays, store_response_receipt_stays; typeclasses eauto.
    + apply timeout_get_frame;
        auto using delete_request_commitment_stays, store_request_commitment_stays; typeclasses eauto.
Qed.

End frames.

(** ** Frozen clients *)

Section frozen.
Context `{Keccak256} {St : Type} `{!IsmpHost St} `{!HeightSort} `{!HostModel St}
  `{!RouterFrame St}.

(** The consensus state a message relies on; GET timeouts rely on none. *)
Definition relies_on (msg : Message) : option ConsensusStateId :=
  match msg with
  | MsgConsensus m => Some (cm_consensus_state_id m)
  | MsgFraudProof m => Some (fpm_consensus_state_id m)
  | MsgRequest m => Some (smi_consensus_state_id (smh_id (proof_height (rm_proof m))))
  | MsgResponse m => Some (smi_consensus_state_id (smh_id (proof_height (rsm_proof m))))
  | MsgTimeout (TMPost _ proof) | MsgTimeout (TMPostResponse _ proof) =>
      Some (smi_consensus_state_id (smh_id (proof_height proof)))
  | MsgTimeout (TMGet _) => None
  end.

(** A read that precedes the frozen check: it stops the run or leaves the state. *)
Ltac read_or_stop H E :=
  let Hg := fresh in
  apply try_split in H as [(? & ? & Hg & H)|(? & Hg & _ & ?)];
  unfold gets, ret in Hg; injection Hg as E <-; [|by split].

Lemma update_client_frozen msg s o s' :
  inv s -> cm_consensus_state_id msg ∈ c_frozen (a_cons (abs s)) ->
  update_client msg s = (o, s') -> abs s' = abs s /\ forall r, o <> Some (Ok r).
Proof.
  intros Hs Hf Hrun. unfold update_client in Hrun. read_or_stop Hrun E1. read_or_stop Hrun E2.
  read_or_stop Hrun E3. read_or_stop Hrun E4.
  rewrite is_consensus_client_frozen_abs, decide_True in E4 by done. discriminate.
Qed.

Lemma freeze_client_frozen msg s o s' :
  inv s -> fpm_consensus_state_id msg ∈ c_frozen (a_cons (abs s)) ->
  freeze_client msg s = (o, s') -> abs s' = abs s /\ forall r, o <> Some (Ok r).
Proof.
  intros Hs Hf Hrun. unfold freeze_client in Hrun. read_or_stop Hrun E1. read_or_stop Hrun E2.
  rewrite is_consensus_client_frozen_abs, decide_True in E2 by done. discriminate.
Qed.

Lemma proof_valid_not_frozen a h (client : StateMachineClient St) :
  proof_valid a h client -> smi_consensus_state_id (smh_id h) ∉ c_frozen (a_cons a).
Proof. by intros (? & ? & ? & ? & _ & _ & ? & _). Qed.

Lemma frozen_refuses csid msg s o s' :
  inv s -> csid ∈ c_frozen (a_cons (abs s)) -> relies_on msg = Some csid ->
  handle_incoming_message msg s = (o, s') -> abs s' = abs s /\ forall r, o <> Some (Ok r).
Proof.
  intros Hs Hf Hr Hrun.
  destruct msg as [m|m|m|m|m]; cbn [handle_incoming_message relies_on] in *.
  - injection Hr as <-. by eapply update_client_frozen.
  - injection Hr as <-. by eapply freeze_client_frozen.
  - injection Hr as <-.
    assert (~ request_message_valid m s) as Hnv.
    { intros [(client & c & s1 & Hv & _) _]. by apply proof_valid_not_frozen in Hv. }
    assert (forall r, o <> Some (Ok r)) as Ho.
    { intros r ->. apply Hnv. by eapply handle_request_ok. }
    split; [|done]. by destruct (handle_request_stopped _ _ _ _ Hs Hrun Ho) as [?|[_ ?]].
  - injection Hr as <-.
    destruct (handle_response_checked _ _ _ _ Hs Hrun) as [[Ho Ha]|([(client & c & Hv & _) _] & _)];
      [done|]. by apply proof_valid_not_frozen in Hv.
  - destruct (handle_timeout_checked _ _ _ _ Hs Hrun) as [[Ho Ha]|(Hv & _)]; [done|].
    destruct m as [l proof|l proof|l]; [| |done]; injection Hr as <-;
      destruct Hv as (client & c & Hv & _); by apply proof_valid_not_frozen in Hv.
Qed.

End frozen.

(** ** Histories *)

Section histories.
Context `{Keccak256} {St : Type} `{!IsmpHost St} `{!HeightSort} `{!HostModel St}
  `{!RouterFrame St}.

(** What the rest of the chain does between messages: time passes and modules send
    messages, as in a callback. Vetoes of commitments and administrative calls are not
    part of it. *)
Record environment (a a' : AbsHost) : Prop := {
  en_cons : a_cons a' = a_cons a;
  en_now : a_now a <= a_now a';
  en_req_receipts : m_req_receipts (a_msgs a') = m_req_receipts (a_msgs a)
}.

(** One step, labelled with the message it handles. A message may succeed, fail or
    panic; the effects before a failure are kept. *)
Inductive step : option Message -> St -> St -> Prop :=
| step_message msg s o s' : handle_incoming_message msg s = (o, s') -> step (Some msg) s s'
| step_environment s s' : inv s' -> environment (abs s) (abs s') -> step None s s'.

Inductive history : list (option Message) -> St -> St -> Prop :=
| history_nil s : history [] s s
| history_snoc l m s s1 s' : history l s s1 -> step m s1 s' -> history (l ++ [m]) s s'.

Lemma step_evolves m s s' :
  inv s -> step m s s' ->
  inv s' /\ evolves_cons (a_cons (abs s)) (a_cons (abs s')) /\ a_now (abs s) <= a_now (abs s').
Proof.
  intros Hs Hstep. destruct Hstep as [msg s o s' Hrun|s s' Hs' [Hc Hn _]].
  - destruct (handle_incoming_message_evolves msg _ _ _ Hs Hrun) as [Hs' [He Hn]].
    split; [done|]. split; [done|]. lia.
  - rewrite Hc. by split.
Qed.

Lemma history_evolves l s s' :
  inv s -> history l s s' ->
  inv s' /\ evolves_cons (a_cons (abs s)) (a_cons (abs s')) /\ a_now (abs s) <= a_now (abs s').
Proof.
  intros Hs Hh. induction Hh as [s|l m s s1 s' _ IH Hstep]; [by split|].
  destruct (IH Hs) as (Hs1 & He1 & Hn1).
  destruct (step_evolves _ _ _ Hs1 Hstep) as (? & ? & ?).
  split; [done|]. split; [by etransitivity|lia].
Qed.

Lemma history_receipt h x l s s' :
  inv s -> history l s s' -> Forall (fun m => forall msg, m = Some msg -> spares h msg) l ->
  m_req_receipts (a_msgs (abs s)) !! h = Some x -> m_req_receipts (a_msgs (abs s')) !! h = Some x.
Proof.
  intros Hs Hh. induction Hh as [s|l m s s1 s' Hh IH Hstep]; intros Hsp Hx; [done|].
  apply Forall_app in Hsp as [Hsp Hm]. apply Forall_cons in Hm as [Hm _].
  specialize (IH Hs Hsp Hx). destruct (history_evolves _ _ _ Hs Hh) as (Hs1 & _).
  destruct Hstep as [msg s0 o s2 Hrun|s0 s2 _ [_ _ Hr]].
  - eapply receipt_kept; [done|by apply Hm|done|done].
  - by rewrite Hr.
Qed.

(** ** Properties *)

(** C7: along every history made of ISMP messages, passing time and messages that modules
    send and answer, whatever messages arrive and whether they succeed, fail or panic, a
    recorded state commitment and its time never change,
    latest heights never decrease, frozen clients stay frozen, and client, unbonding
    and challenge settings stay as they are. Vetoes by fishermen and administrative calls,
    which delete commitments, lower latest heights and change settings, are not part of
    such histories. *)
Theorem history_consensus_monotone l s s' :
  inv s -> history l s s' ->
  inv s' /\ evolves_cons (a_cons (abs s)) (a_cons (abs s')) /\ a_now (abs s) <= a_now (abs s').
Proof. apply history_evolves. Qed.

(** C8: once a consensus client is frozen, no later message that relies on it, in any
    history, is handled or has an effect: consensus updates, fraud proofs, requests,
    responses and proved timeouts are refused for good. *)
Theorem frozen_client_refuses_forever csid l msg s s1 o s2 :
  inv s -> csid ∈ c_frozen (a_cons (abs s)) -> history l s s1 -> relies_on msg = Some csid ->
  handle_incoming_message msg s1 = (o, s2) ->
  abs s2 = abs s1 /\ forall r, o <> Some (Ok r).
Proof.
  intros Hs Hf Hh Hr Hrun. destruct (history_evolves _ _ _ Hs Hh) as (Hs1 & He & _).
  apply (frozen_refuses csid msg s1 o s2); [done| |done|done].
  by apply (ev_frozen _ _ He).
Qed.

(** C2: a request that has been delivered stays delivered. In any history that does
    not time it out as a routed request, its receipt keeps the relayer who delivered
    it, and every later message that carries the request is refused without effect. *)
Theorem delivered_at_most_once h x l p msg s s1 o s2 :
  inv s -> m_req_receipts (a_msgs (abs s)) !! h = Some x -> history l s s1 ->
  Forall (fun m => forall msg, m = Some msg -> spares h msg) l ->
  p ∈ rm_requests msg -> post_hash p = Some h ->
  handle_incoming_message (MsgRequest msg) s1 = (o, s2) ->
  m_req_receipts (a_msgs (abs s1)) !! h = Some x /\ abs s2 = abs s1 /\ forall r, o <> Some (Ok r).
Proof.
  intros Hs Hx Hh Hsp Hp Hhash Hrun. destruct (history_evolves _ _ _ Hs Hh) as (Hs1 & _).
  pose proof (history_receipt _ _ _ _ _ Hs Hh Hsp Hx) as Hx1.
  split; [done|]. by eapply request_replay_refused.
Qed.

End histories.

(** ** Witnesses *)

Module HistoryWitnesses.
Import RequestWitnesses ConsensusWitnesses.

#[local] Existing Instances Demo.keccak Demo.host Demo.sort Demo.model demo_frame.

(** Deliver a request, update the client, then freeze it. *)
Definition s1 : AbsHost := after [good].
Definition s2 : AbsHost := snd (handle_incoming_message (MsgConsensus update) s1).
Definition s3 : AbsHost := snd (handle_incoming_message (MsgFraudProof fraud) s2).

Lemma message_step m s :
  step (Some m) s (snd (handle_incoming_message m s)).
Proof. apply (step_message m s (fst (handle_incoming_message m s))), surjective_pairing. Defined.

Lemma two_messages : history ([] ++ [Some (MsgConsensus update)] ++ [Some (MsgFraudProof fraud)]) s1 s3.
Proof.
  rewrite (assoc_L (++)). apply (history_snoc _ _ _ s2).
  - apply (history_snoc [] _ _ s1); [apply history_nil|apply message_step].
  - apply message_step.
Defined.

Lemma history_consensus_monotone_witness : evolves_cons (a_cons s1) (a_cons s3).
Proof.
  exact (proj1 (proj2 (history_consensus_monotone _ s1 s3 (Demo.inv_any _) two_messages))).
Defined.

Lemma frozen_client_refuses_forever_witness :
  abs (snd (handle_incoming_message (MsgRequest (msg [bad])) s3)) = abs s3.
Proof.
  refine (proj1 (frozen_client_refuses_forever Demo.csid [] (MsgRequest (msg [bad])) s3 s3
    (fst (handle_incoming_message (MsgRequest (msg [bad])) s3))
    (snd (handle_incoming_message (MsgRequest (msg [bad])) s3)) (Demo.inv_any _) _ (history_nil s3) _ _)).
  - apply (bool_decide_unpack _). vm_compute. exact I.
  - reflexivity.
  - apply surjective_pairing.
Defined.

Lemma delivered_at_most_once_witness :
  abs (snd (handle_incoming_message (MsgRequest (msg [good])) s3)) = abs s3.
Proof.
  refine (proj1 (proj2 (delivered_at_most_once (hash_of good) (lit "relayer") _ good (msg [good]) s1 s3
    (fst (handle_incoming_message (MsgRequest (msg [good])) s3))
    (snd (handle_incoming_message (MsgRequest (msg [good])) s3))
    (Demo.inv_any _) _ two_messages _ _ _ _))).
  - vm_compute. reflexivity.
  - repeat constructor; intros m [= <-] l proof r E; discriminate.
  - left.
  - vm_compute. reflexivity.
  - apply surjective_pairing.
Defined.

End HistoryWitnesses.
