(* ===== verification/ChildTrie.v ===== *)
(** * The child trie of pallet-ismp

    [pallets/pallet/src/child_trie.rs] and the types of [mmr.rs], [dispatcher.rs] and
    [utils.rs] it stores. The child trie is a raw map from keys to encoded values; the
    five typed tables live in it under their prefixes. [table] gives the typed view of
    a prefix as a finite map, and the lemmas of this file say that each operation acts
    on its own table only. *)

From S2P Require Import Prelude StateMachine Router Messaging.

(** ** Codecs

    [Encode] and [Decode] are those of parity-scale-codec: a parameter, of which only
    that decoding undoes encoding is used. *)

Class Codec (A : Type) : Type := {
  encode : A -> bytes;
  decode : bytes -> option A;
  decode_encode x : decode (encode x) = Some x
}.

(** ** Stored types *)

(** [mmr.rs] *)
Record LeafIndexAndPos : Type := mkLeafIndexAndPos {
  leaf_index : Z;
  pos : Z
}.

(** [dispatcher.rs]: [T::AccountId] and [T::Balance] are [bytes] and [Z]. *)
Record RequestMetadata : Type := mkRequestMetadata {
  rmeta_mmr : LeafIndexAndPos;
  rmeta_fee : FeeMetadata bytes Z;
  rmeta_claimed : bool
}.

(** [utils.rs] *)
Record ResponseReceipt : Type := mkResponseReceipt {
  receipt_response : H256;
  receipt_relayer : bytes
}.

(** The codecs of everything the pallet stores in the child trie. *)
Class Codecs : Type := {
  codec_metadata :: Codec RequestMetadata;
  codec_receipt :: Codec ResponseReceipt;
  codec_bytes :: Codec bytes;
  codec_commitment :: Codec StateCommitment;
  codec_height :: Codec StateMachineHeight
}.

(** ** Keys *)

Definition CHILD_TRIE_PREFIX : bytes := lit "ISMP".
Definition STATE_COMMITMENTS_KEY : bytes := lit "state".

Definition request_commitment_storage_key (key : H256) : bytes := lit "RequestCommitments" ++ key.
Definition response_commitment_storage_key (key : H256) : bytes := lit "ResponseCommitments" ++ key.
Definition request_receipt_storage_key (key : H256) : bytes := lit "RequestReceipts" ++ key.
Definition response_receipt_storage_key (key : H256) : bytes := lit "ResponseReceipts" ++ key.

Definition state_commitment_storage_key `{Keccak256, Codecs} (height : StateMachineHeight) : bytes :=
  STATE_COMMITMENTS_KEY ++ keccak256 (encode height).

(** ** The trie and its primitive operations

    [frame_support::storage::child]: [get] of a value that does not decode is [None]. *)

Abbreviation Trie := (gmap bytes bytes).

Section child.
Context {A : Type} `{!Codec A}.

Definition child_get (k : bytes) (t : Trie) : option A := (t !! k) ≫= decode.
Definition child_put (k : bytes) (v : A) (t : Trie) : Trie := <[k := encode v]> t.
End child.

Definition child_kill (k : bytes) (t : Trie) : Trie := delete k t.
Definition child_exists (k : bytes) (t : Trie) : bool := bool_decide (is_Some (t !! k)).

(** ** The four message tables *)

Module RequestCommitments.
Section ops.
Context `{Codecs}.

Definition get (key : H256) (t : Trie) : option RequestMetadata :=
  child_get (request_commitment_storage_key key) t.
Definition insert (key : H256) (meta : RequestMetadata) (t : Trie) : Trie :=
  child_put (request_commitment_storage_key key) meta t.
Definition remove (key : H256) (t : Trie) : Trie :=
  child_kill (request_commitment_storage_key key) t.
Definition contains_key (key : H256) (t : Trie) : bool :=
  child_exists (request_commitment_storage_key key) t.
End ops.
End RequestCommitments.

Module ResponseCommitments.
Section ops.
Context `{Codecs}.

Definition get (key : H256) (t : Trie) : option RequestMetadata :=
  child_get (response_commitment_storage_key key) t.
Definition insert (key : H256) (meta : RequestMetadata) (t : Trie) : Trie :=
  child_put (response_commitment_storage_key key) meta t.
Definition remove (key : H256) (t : Trie) : Trie :=
  child_kill (response_commitment_storage_key key) t.
Definition contains_key (key : H256) (t : Trie) : bool :=
  child_exists (response_commitment_storage_key key) t.
End ops.
End ResponseCommitments.

Module RequestReceipts.
Section ops.
Context `{Codecs}.

Definition get (key : H256) (t : Trie) : option bytes :=
  child_get (request_receipt_storage_key key) t.
Definition insert (key : H256) (relayer : bytes) (t : Trie) : Trie :=
  child_put (request_receipt_storage_key key) relayer t.
Definition remove (key : H256) (t : Trie) : Trie :=
  child_kill (request_receipt_storage_key key) t.
Definition contains_key (key : H256) (t : Trie) : bool :=
  child_exists (request_receipt_storage_key key) t.
End ops.
End RequestReceipts.

Module ResponseReceipts.
Section ops.
Context `{Codecs}.

Definition get (key : H256) (t : Trie) : option ResponseReceipt :=
  child_get (response_receipt_storage_key key) t.
Definition insert (key : H256) (receipt : ResponseReceipt) (t : Trie) : Trie :=
  child_put (response_receipt_storage_key key) receipt t.
Definition remove (key : H256) (t : Trie) : Trie :=
  child_kill (response_receipt_storage_key key) t.
Definition contains_key (key : H256) (t : Trie) : bool :=
  child_exists (response_receipt_storage_key key) t.
End ops.
End ResponseReceipts.

(** ** Typed views *)

(** What follows the prefix [p] in a key. *)
Definition strip (p k : bytes) : option bytes :=
  if starts_with p k then Some (drop (length p) k) else None.

(** The table under the prefix [p], its values read by [f]. *)
Definition table {A} (p : bytes) (f : bytes -> option A) (t : Trie) : gmap bytes A :=
  list_to_map (omap (fun kv => k ← strip p kv.1; v ← f kv.2; Some (k, v)) (map_to_list t)).

Lemma strip_app p k : strip p (p ++ k) = Some k.
Proof. unfold strip. by rewrite starts_with_app, drop_app_length. Qed.

Lemma strip_some p k h : strip p k = Some h <-> k = p ++ h.
Proof.
  split; [|intros ->; apply strip_app]. unfold strip.
  destruct (starts_with p k) eqn:E; [|done]. intros [= <-].
  apply starts_with_inv in E as [r ->]. by rewrite drop_app_length.
Qed.

Lemma table_elem {A} (p : bytes) (f : bytes -> option A) (t : Trie) (h : bytes) v :
  (h, v) ∈ omap (fun kv => k ← strip p kv.1; v ← f kv.2; Some (k, v)) (map_to_list t) <->
  (t !! (p ++ h)) ≫= f = Some v.
Proof.
  rewrite list_elem_of_omap. split.
  - intros ([k b] & Hin & E). simpl in E.
    apply bind_Some in E as (h' & Hs & E). apply bind_Some in E as (v' & Hv & E).
    injection E as -> ->. apply strip_some in Hs as ->.
    apply elem_of_map_to_list in Hin. by rewrite Hin.
  - intros (b & Hb & Hv)%bind_Some. exists (p ++ h, b).
    split; [by apply elem_of_map_to_list|]. simpl. by rewrite strip_app, Hv.
Qed.

Lemma lookup_table {A} (p : bytes) (f : bytes -> option A) (t : Trie) (h : bytes) :
  table p f t !! h = (t !! (p ++ h)) ≫= f.
Proof.
  unfold table. destruct ((t !! (p ++ h)) ≫= f) as [v|] eqn:E.
  - apply elem_of_list_to_map'.
    + intros v' _ Hv'%table_elem. congruence.
    + by apply table_elem.
  - apply not_elem_of_list_to_map. intros Hin.
    apply list_elem_of_fmap in Hin as ([h' v] & -> & Hin). simpl in E.
    apply table_elem in Hin. congruence.
Qed.

(** Writes under a prefix, seen in its table and in every other. *)
Section writes.
Context {A B : Type} `{!Codec B} (p : bytes) (f : bytes -> option A).

Lemma table_put h (v : B) a t :
  f (encode v) = Some a -> table p f (child_put (p ++ h) v t) = <[h := a]> (table p f t).
Proof.
  intros Hf. apply map_eq. intros h'. unfold child_put. rewrite lookup_table.
  destruct (decide (h' = h)) as [->|Hne].
  - by rewrite !lookup_insert_eq.
  - rewrite !lookup_insert_ne, lookup_table; [done|congruence|].
    intros E%app_inv_head. congruence.
Qed.

Lemma table_kill h t : table p f (child_kill (p ++ h) t) = delete h (table p f t).
Proof.
  apply map_eq. intros h'. unfold child_kill. rewrite lookup_table.
  destruct (decide (h' = h)) as [->|Hne].
  - by rewrite !lookup_delete_eq.
  - rewrite !lookup_delete_ne, lookup_table; [done|congruence|].
    intros E%app_inv_head. congruence.
Qed.

(** No key under [p] is [k]. *)
Definition outside (k : bytes) : Prop := forall h, p ++ h <> k.

Lemma table_put_other k (v : B) t : outside k -> table p f (child_put k v t) = table p f t.
Proof.
  intros Hk. apply map_eq. intros h. unfold child_put. rewrite !lookup_table.
  by rewrite lookup_insert_ne by (symmetry; apply Hk).
Qed.

Lemma table_kill_other k t : outside k -> table p f (child_kill k t) = table p f t.
Proof.
  intros Hk. apply map_eq. intros h. unfold child_kill. rewrite !lookup_table.
  by rewrite lookup_delete_ne by (symmetry; apply Hk).
Qed.
End writes.

(** The prefixes differ before either ends, whatever the lengths of the keys. *)
Ltac prefixes :=
  intros; let h := fresh in let E := fresh in
  intros h E; unfold request_commitment_storage_key, response_commitment_storage_key,
    request_receipt_storage_key, response_receipt_storage_key, state_commitment_storage_key,
    STATE_COMMITMENTS_KEY in E;
  cbv [lit String.list_byte_of_string Ascii.byte_of_ascii] in E; simpl in E; discriminate.

#[export] Hint Extern 1 (outside _ _) => solve [prefixes] : ismp.

(** ** Well-typed tables *)

(** Every value under the prefix [p] decodes. *)
Definition typed (p : bytes) (A : Type) `{!Codec A} (t : Trie) : Prop :=
  forall h b, t !! (p ++ h) = Some b -> is_Some (decode (A := A) b).

Section typed.
Context {A : Type} `{!Codec A} (p : bytes).

Lemma typed_put h (v : A) t : typed p A t -> typed p A (child_put (p ++ h) v t).
Proof.
  intros Ht h' b. unfold child_put. destruct (decide (h' = h)) as [->|Hne].
  - rewrite lookup_insert_eq. intros [= <-]. rewrite decode_encode. eauto.
  - rewrite lookup_insert_ne; [apply Ht|]. intros E%app_inv_head. congruence.
Qed.

Lemma typed_put_other {B} `{!Codec B} k (v : B) t :
  outside p k -> typed p A t -> typed p A (child_put k v t).
Proof.
  intros Hk Ht h b. unfold child_put. rewrite lookup_insert_ne; [apply Ht|symmetry; apply Hk].
Qed.

Lemma typed_kill k t : typed p A t -> typed p A (child_kill k t).
Proof. intros Ht h b. unfold child_kill. intros [_ Hb]%lookup_delete_Some. by eapply Ht. Qed.

Lemma typed_exists h t :
  typed p A t -> child_exists (p ++ h) t = bool_decide (is_Some (child_get (A := A) (p ++ h) t)).
Proof.
  intros Ht. unfold child_exists, child_get. apply bool_decide_ext.
  destruct (t !! (p ++ h)) as [b|] eqn:E; simpl; [|done].
  split; [intros _; by eapply Ht|eauto].
Qed.
End typed.
