(* ===== verification/PalletTypes.v ===== *)
(** * The storage of pallet-ismp

    The storage items of [pallets/pallet/src/lib.rs], the pallet's own types
    ([utils.rs], [mmr.rs], [events.rs], [errors.rs]) and its configuration. The
    currency and the message tree are parameters of the pallet ([T::Currency] and
    [T::Mmr]), here classes. *)

From S2P Require Import Prelude StateMachine Router Messaging Host ChildTrie.

(** ** Types of [mmr.rs] and [utils.rs] *)

Inductive Leaf : Type :=
| LeafRequest (r : Request)
| LeafResponse (r : Response).

(** [FullLeaf::preimage] *)
Definition preimage (l : Leaf) : option bytes :=
  match l with
  | LeafRequest req => encode_request req
  | LeafResponse res => encode_response res
  end.

Inductive ProofKeys : Type :=
| ProofRequests (commitments : list H256)
| ProofResponses (commitments : list H256).

Record MmrProof : Type := mkMmrProof {
  leaf_indices_and_pos : list LeafIndexAndPos;
  leaf_count : Z;
  items : list H256
}.

(** The challenge periods are a [BTreeMap], given by its entries in key order. *)
Record UpdateConsensusState : Type := mkUpdateConsensusState {
  ucs_consensus_state_id : ConsensusStateId;
  ucs_unbonding_period : option Z;
  ucs_challenge_periods : list (StateMachine * Z)
}.

Inductive MessageCommitment : Type :=
| CommitmentRequest (commitment : H256)
| CommitmentResponse (commitment : H256).

Record FundMessageParams : Type := mkFundMessageParams {
  fmp_commitment : MessageCommitment;
  fmp_amount : Z
}.

Record ConsensusDigest : Type := mkConsensusDigest {
  cd_mmr_root : H256;
  cd_child_trie_root : H256
}.

Inductive ModuleId : Type :=
| ModulePallet (id : bytes)
| ModuleContract (id : bytes)
| ModuleEvm (id : bytes).

(** The arrays behind the three variants have 8, 32 and 20 bytes. *)
Definition wf_ModuleId (m : ModuleId) : Prop :=
  match m with
  | ModulePallet id => length id = 8%nat
  | ModuleContract id => length id = 32%nat
  | ModuleEvm id => length id = 20%nat
  end.

Definition module_to_bytes (m : ModuleId) : bytes :=
  match m with
  | ModulePallet pallet_id => pallet_id
  | ModuleContract account_id => account_id
  | ModuleEvm account_id => account_id
  end.

Definition module_from_bytes (b : bytes) : result bytes ModuleId :=
  if (length b =? 8)%nat then Ok (ModulePallet b)
  else if (length b =? 32)%nat then Ok (ModuleContract b)
  else if (length b =? 20)%nat then Ok (ModuleEvm b)
  else Err (lit "Unknown Module ID format").

(** ** Errors and events *)

(** [errors.rs]: the text of an error, cut at 1000 bytes. *)
Definition HandlingError : Type := bytes.

Inductive PalletError : Type :=
| InvalidMessage
| MessageNotFound
| ConsensusClientCreationFailed
| UnbondingPeriodUpdateFailed
| ChallengePeriodUpdateFailed.

(** [DispatchError]: an error of the pallet, of the origin check, or of the currency. *)
Inductive DispatchError : Type :=
| ModuleError (e : PalletError)
| BadOrigin
| CurrencyError (text : bytes).

Inductive PalletEvent : Type :=
| PEStateMachineUpdated (state_machine_id : StateMachineId) (latest_height : Z)
| PEStateCommitmentVetoed (height : StateMachineHeight) (fisherman : bytes)
| PEConsensusClientCreated (consensus_client_id : ConsensusClientId)
| PEConsensusClientFrozen (consensus_client_id : ConsensusClientId)
| PEResponse (dest_chain source_chain : StateMachine) (request_nonce : Z)
    (commitment req_commitment : H256)
| PERequest (dest_chain source_chain : StateMachine) (request_nonce : Z) (commitment : H256)
| PEErrors (errors : list HandlingError)
| PEPostRequestHandled (ev : RequestResponseHandled)
| PEPostResponseHandled (ev : RequestResponseHandled)
| PEGetRequestHandled (ev : RequestResponseHandled)
| PEPostRequestTimeoutHandled (ev : TimeoutHandled)
| PEPostResponseTimeoutHandled (ev : TimeoutHandled)
| PEGetRequestTimeoutHandled (ev : TimeoutHandled).

(** [From<ismp::events::Event> for Event<T>]: [None] is the [unimplemented!] of the
    events that only dispatching deposits. A fisherman is a bounded vector of at most
    32 bytes. *)
Definition pallet_event_of (event : Event) : option PalletEvent :=
  match event with
  | EvPostRequestHandled handled => Some (PEPostRequestHandled handled)
  | EvPostResponseHandled handled => Some (PEPostResponseHandled handled)
  | EvPostRequestTimeoutHandled handled => Some (PEPostRequestTimeoutHandled handled)
  | EvPostResponseTimeoutHandled handled => Some (PEPostResponseTimeoutHandled handled)
  | EvGetRequestHandled handled => Some (PEGetRequestHandled handled)
  | EvGetRequestTimeoutHandled handled => Some (PEGetRequestTimeoutHandled handled)
  | EvStateMachineUpdated ev =>
      Some (PEStateMachineUpdated (smu_state_machine_id ev) (smu_latest_height ev))
  | EvStateCommitmentVetoed ev =>
      Some (PEStateCommitmentVetoed (scv_height ev) (take 32 (scv_fisherman ev)))
  | EvPostRequest _ | EvPostResponse _ | EvGetRequest _ | EvGetResponse _ => None
  end.

(** ** Parameters of the pallet *)

(** [fungible::Mutate]: a transfer with [Preservation::Expendable], which may also sweep
    the dust that is left of the source account. The error is given by its text. *)
Class Currency (Bank : Type) : Type := {
  balance : bytes -> Bank -> Z;
  transfer : bytes -> bytes -> Z -> Bank -> result bytes Bank;
  transfer_moves a b n k k' : a <> b -> transfer a b n k = Ok k' ->
    balance b k' = balance b k + n /\ balance a k' <= balance a k - n /\
    forall c, c <> a -> c <> b -> balance c k' = balance c k
}.

(** [MerkleMountainRangeTree], and the off-chain database the leaves end up in. Pushing
    a leaf hashes it, which may panic. *)
Class Mmr (Tree : Type) : Type := {
  mmr_push : Leaf -> M Tree LeafIndexAndPos;
  mmr_get_leaf : Z -> Tree -> result bytes (option Leaf);
  mmr_generate_proof : list Z -> Tree -> result bytes (list Leaf * (Z * list H256));
  mmr_finalize : M Tree (result bytes H256);
  local_storage_get : bytes -> Tree -> option bytes
}.

(** The origin of a call, as the pallet distinguishes it. *)
Inductive Origin : Type :=
| OriginRoot
| OriginSigned (who : bytes)
| OriginNone.

(** ** State *)

(** The storage items of the pallet; [st_child] is the child trie. *)
Record Storage : Type := mkStorage {
  st_child : Trie;
  StateCommitments : gmap StateMachineHeight StateCommitment;
  ConsensusStates : gmap ConsensusStateId bytes;
  ConsensusStateClient : gmap ConsensusStateId ConsensusClientId;
  UnbondingPeriod : gmap ConsensusStateId Z;
  ChallengePeriod : gmap StateMachineId Z;
  FrozenConsensusClients : gmap ConsensusStateId bool;
  LatestStateMachineHeight : gmap StateMachineId Z;
  ConsensusClientUpdateTime : gmap ConsensusStateId Z;
  StateMachineUpdateTime : gmap StateMachineHeight Z;
  Responded : gmap H256 bool;
  Nonce : Z;
  ChildTrieRoot : H256
}.

(** What the pallet uses of the rest of the chain: the clock, balances, the message
    tree, and the events and consensus logs of the block. *)
Record Chain (Bank Tree : Type) : Type := mkChain {
  storage : Storage;
  now : Duration;
  bank : Bank;
  tree : Tree;
  events : list PalletEvent;
  logs : list ConsensusDigest
}.
Arguments mkChain {Bank Tree}.
Arguments storage {Bank Tree}.
Arguments now {Bank Tree}.
Arguments bank {Bank Tree}.
Arguments tree {Bank Tree}.
Arguments events {Bank Tree}.
Arguments logs {Bank Tree}.

(** [Config]: the constants, the clients and the modules of a runtime, and the account
    that [RELAYER_FEE_ACCOUNT] stands for. *)
Class Config (Bank Tree : Type) : Type := {
  HostStateMachine : StateMachine;
  Coprocessor : option StateMachine;
  ConsensusClients : list (ConsensusClient (Chain Bank Tree));
  Router : IsmpRouter (Chain Bank Tree);
  AdminOrigin : Origin -> bool;
  relayer_fee_account : bytes
}.

Section updates.
Context {Bank Tree : Type}.
Implicit Types c : Chain Bank Tree.

Definition upd_storage (f : Storage -> Storage) c : Chain Bank Tree :=
  mkChain (f (storage c)) (now c) (bank c) (tree c) (events c) (logs c).
Definition upd_bank (f : Bank -> Bank) c : Chain Bank Tree :=
  mkChain (storage c) (now c) (f (bank c)) (tree c) (events c) (logs c).
Definition upd_tree (f : Tree -> Tree) c : Chain Bank Tree :=
  mkChain (storage c) (now c) (bank c) (f (tree c)) (events c) (logs c).

Definition deposit_event (e : PalletEvent) : M (Chain Bank Tree) unit :=
  modify (fun c => mkChain (storage c) (now c) (bank c) (tree c) (events c ++ [e]) (logs c)).
Definition deposit_log (d : ConsensusDigest) : M (Chain Bank Tree) unit :=
  modify (fun c => mkChain (storage c) (now c) (bank c) (tree c) (events c) (logs c ++ [d])).

Definition modify_storage (f : Storage -> Storage) : M (Chain Bank Tree) unit :=
  modify (upd_storage f).
End updates.

Definition on_child (f : Trie -> Trie) s := mkStorage (f (st_child s)) (StateCommitments s)
  (ConsensusStates s) (ConsensusStateClient s) (UnbondingPeriod s) (ChallengePeriod s)
  (FrozenConsensusClients s) (LatestStateMachineHeight s) (ConsensusClientUpdateTime s)
  (StateMachineUpdateTime s) (Responded s) (Nonce s) (ChildTrieRoot s).
Definition on_StateCommitments f s := mkStorage (st_child s) (f (StateCommitments s))
  (ConsensusStates s) (ConsensusStateClient s) (UnbondingPeriod s) (ChallengePeriod s)
  (FrozenConsensusClients s) (LatestStateMachineHeight s) (ConsensusClientUpdateTime s)
  (StateMachineUpdateTime s) (Responded s) (Nonce s) (ChildTrieRoot s).
Definition on_ConsensusStates f s := mkStorage (st_child s) (StateCommitments s)
  (f (ConsensusStates s)) (ConsensusStateClient s) (UnbondingPeriod s) (ChallengePeriod s)
  (FrozenConsensusClients s) (LatestStateMachineHeight s) (ConsensusClientUpdateTime s)
  (StateMachineUpdateTime s) (Responded s) (Nonce s) (ChildTrieRoot s).
Definition on_ConsensusStateClient f s := mkStorage (st_child s) (StateCommitments s)
  (ConsensusStates s) (f (ConsensusStateClient s)) (UnbondingPeriod s) (ChallengePeriod s)
  (FrozenConsensusClients s) (LatestStateMachineHeight s) (ConsensusClientUpdateTime s)
  (StateMachineUpdateTime s) (Responded s) (Nonce s) (ChildTrieRoot s).
Definition on_UnbondingPeriod f s := mkStorage (st_child s) (StateCommitments s)
  (ConsensusStates s) (ConsensusStateClient s) (f (UnbondingPeriod s)) (ChallengePeriod s)
  (FrozenConsensusClients s) (LatestStateMachineHeight s) (ConsensusClientUpdateTime s)
  (StateMachineUpdateTime s) (Responded s) (Nonce s) (ChildTrieRoot s).
Definition on_ChallengePeriod f s := mkStorage (st_child s) (StateCommitments s)
  (ConsensusStates s) (ConsensusStateClient s) (UnbondingPeriod s) (f (ChallengePeriod s))
  (FrozenConsensusClients s) (LatestStateMachineHeight s) (ConsensusClientUpdateTime s)
  (StateMachineUpdateTime s) (Responded s) (Nonce s) (ChildTrieRoot s).
Definition on_FrozenConsensusClients f s := mkStorage (st_child s) (StateCommitments s)
  (ConsensusStates s) (ConsensusStateClient s) (UnbondingPeriod s) (ChallengePeriod s)
  (f (FrozenConsensusClients s)) (LatestStateMachineHeight s) (ConsensusClientUpdateTime s)
  (StateMachineUpdateTime s) (Responded s) (Nonce s) (ChildTrieRoot s).
Definition on_LatestStateMachineHeight f s := mkStorage (st_child s) (StateCommitments s)
  (ConsensusStates s) (ConsensusStateClient s) (UnbondingPeriod s) (ChallengePeriod s)
  (FrozenConsensusClients s) (f (LatestStateMachineHeight s)) (ConsensusClientUpdateTime s)
  (StateMachineUpdateTime s) (Responded s) (Nonce s) (ChildTrieRoot s).
Definition on_ConsensusClientUpdateTime f s := mkStorage (st_child s) (StateCommitments s)
  (ConsensusStates s) (ConsensusStateClient s) (UnbondingPeriod s) (ChallengePeriod s)
  (FrozenConsensusClients s) (LatestStateMachineHeight s) (f (ConsensusClientUpdateTime s))
  (StateMachineUpdateTime s) (Responded s) (Nonce s) (ChildTrieRoot s).
Definition on_StateMachineUpdateTime f s := mkStorage (st_child s) (StateCommitments s)
  (ConsensusStates s) (ConsensusStateClient s) (UnbondingPeriod s) (ChallengePeriod s)
  (FrozenConsensusClients s) (LatestStateMachineHeight s) (ConsensusClientUpdateTime s)
  (f (StateMachineUpdateTime s)) (Responded s) (Nonce s) (ChildTrieRoot s).
Definition on_Responded f s := mkStorage (st_child s) (StateCommitments s)
  (ConsensusStates s) (ConsensusStateClient s) (UnbondingPeriod s) (ChallengePeriod s)
  (FrozenConsensusClients s) (LatestStateMachineHeight s) (ConsensusClientUpdateTime s)
  (StateMachineUpdateTime s) (f (Responded s)) (Nonce s) (ChildTrieRoot s).
Definition on_Nonce f s := mkStorage (st_child s) (StateCommitments s)
  (ConsensusStates s) (ConsensusStateClient s) (UnbondingPeriod s) (ChallengePeriod s)
  (FrozenConsensusClients s) (LatestStateMachineHeight s) (ConsensusClientUpdateTime s)
  (StateMachineUpdateTime s) (Responded s) (f (Nonce s)) (ChildTrieRoot s).
Definition on_ChildTrieRoot f s := mkStorage (st_child s) (StateCommitments s)
  (ConsensusStates s) (ConsensusStateClient s) (UnbondingPeriod s) (ChallengePeriod s)
  (FrozenConsensusClients s) (LatestStateMachineHeight s) (ConsensusClientUpdateTime s)
  (StateMachineUpdateTime s) (Responded s) (Nonce s) (f (ChildTrieRoot s)).
