(* ===== verification/PalletHost.v ===== *)
(** * pallet-ismp as a host

    [pallets/pallet/src/host.rs], with the module wrapper of [dispatcher.rs] that the
    host's router installs, and the abstraction of the pallet's storage to the state of
    [HostSpec]: the typed views of the child trie beside the storage maps. *)

From S2P Require Import Prelude StateMachine Router Messaging Host HostSpec ChildTrie PalletTypes.

Section pallet_host.
Context `{Keccak256, Codecs} {Bank Tree : Type} `{!Currency Bank, !Mmr Tree, !Config Bank Tree}.

Abbreviation St := (Chain Bank Tree).

(** ** State commitments: the child trie with the storage map as a fallback *)

Definition state_commitments_get (key : StateMachineHeight) (s : Storage) : option StateCommitment :=
  match child_get (state_commitment_storage_key key) (st_child s) with
  | Some c => Some c
  | None => StateCommitments s !! key
  end.
Definition state_commitments_insert (key : StateMachineHeight) (meta : StateCommitment)
    (s : Storage) : Storage :=
  on_child (child_put (state_commitment_storage_key key) meta)
    (on_StateCommitments <[key := meta]> s).
Definition state_commitments_remove (key : StateMachineHeight) (s : Storage) : Storage :=
  on_child (child_kill (state_commitment_storage_key key))
    (on_StateCommitments (delete key) s).
Definition state_commitments_contains_key (key : StateMachineHeight) (s : Storage) : bool :=
  child_exists (state_commitment_storage_key key) (st_child s).

(** ** Refunding modules *)

Definition currency_transfer (from to : bytes) (amount : Z) : M St (result bytes unit) :=
  fun c => match transfer from to amount (bank c) with
           | Ok b => (Some (Ok tt), upd_bank (fun _ => b) c)
           | Err e => (Some (Err e), c)
           end.

(** A failed transfer as an ISMP error. *)
Definition fee_error (e : bytes) : AnyError :=
  IsmpError (Custom (lit "Error withdrawing request fees: " ++ e)).

(** The fee metadata the refund is read from. *)
Definition refund_metadata (timeout : Timeout) : M St (option (FeeMetadata bytes Z)) :=
  match timeout with
  | TimeoutRequest request =>
      let* commitment := or_panic (hash_request request) in
      gets (fun c => rmeta_fee <$> RequestCommitments.get commitment (st_child (storage c)))
  | TimeoutResponse response =>
      let* commitment := or_panic (hash_post_response response) in
      gets (fun c => rmeta_fee <$> ResponseCommitments.get commitment (st_child (storage c)))
  end.

Definition refunding_on_timeout (inner : IsmpModule St) (timeout : Timeout) :
    M St (result AnyError unit) :=
  let* result := on_timeout inner timeout in
  if is_ok result then
    let* fee_metadata := refund_metadata timeout in
    match fee_metadata with
    | Some fee =>
        if 0 <? fm_fee fee then
          let* r := currency_transfer relayer_fee_account (fm_payer fee) (fm_fee fee) in
          match r with
          | Ok _ => ret result
          | Err e => ret (Err (fee_error e))
          end
        else ret result
    | None => ret result
    end
  else ret result.

Definition RefundingModule (inner : IsmpModule St) : IsmpModule St := {|
  on_accept request := on_accept inner request;
  on_response response := on_response inner response;
  on_timeout timeout := refunding_on_timeout inner timeout
|}.

Definition RefundingRouter (inner : IsmpRouter St) : IsmpRouter St := fun id =>
  match inner id with
  | Ok module => Ok (RefundingModule module)
  | Err e => Err e
  end.

(** ** The host *)

Definition read {A} (f : Storage -> A) (c : St) : A := f (storage c).

Definition write (f : Storage -> Storage) : M St (result Error unit) :=
  let* _ := modify_storage f in ret (Ok tt).

Definition pallet_delete_state_commitment (height : StateMachineHeight) : M St (result Error unit) :=
  let* _ := modify_storage (state_commitments_remove height) in
  let* latest := gets (read (fun s => LatestStateMachineHeight s !! smh_id height)) in
  match latest with
  | Some latest =>
      if latest =? smh_height height then
        let* _ := modify_storage (on_LatestStateMachineHeight <[smh_id height := 1]>) in ret (Ok tt)
      else ret (Ok tt)
  | None => ret (Ok tt)
  end.

Definition pallet_delete_request_commitment (req : Request) : M St (result Error bytes) :=
  let* hash := or_panic (hash_request req) in
  let? meta := gets (read (fun s => ok_or (RequestCommitments.get hash (st_child s))
      (Custom (lit "Request Commitment not found")))) in
  let* _ := modify_storage (on_child (RequestCommitments.remove hash)) in
  ret (Ok (encode meta)).

Definition pallet_delete_response_commitment (res : PostResponse) : M St (result Error bytes) :=
  let* req_commitment := or_panic (hash_request (pr_request res)) in
  let* hash := or_panic (hash_post_response res) in
  let? meta := gets (read (fun s => ok_or (ResponseCommitments.get hash (st_child s))
      (Custom (lit "Response Commitment not found")))) in
  let* _ := modify_storage (on_child (ResponseCommitments.remove hash)) in
  let* _ := modify_storage (on_Responded (delete req_commitment)) in
  ret (Ok (encode meta)).

Definition pallet_delete_request_receipt (req : Request) : M St (result Error bytes) :=
  let* req_commitment := or_panic (hash_request req) in
  let? relayer := gets (read (fun s => ok_or (RequestReceipts.get req_commitment (st_child s))
      (Custom (lit "Request receipt not found")))) in
  let* _ := modify_storage (on_child (RequestReceipts.remove req_commitment)) in
  ret (Ok relayer).

Definition pallet_delete_response_receipt (res : Response) : M St (result Error bytes) :=
  let* hash := or_panic (hash_request (response_request res)) in
  let? meta := gets (read (fun s => ok_or (ResponseReceipts.get hash (st_child s))
      (Custom (lit "Response receipt not found")))) in
  let* _ := modify_storage (on_child (ResponseReceipts.remove hash)) in
  ret (Ok (receipt_relayer meta)).

Definition pallet_store_request_receipt (req : Request) (signer : bytes) : M St (result Error unit) :=
  let* hash := or_panic (hash_request req) in
  let* _ := modify_storage (on_child (RequestReceipts.insert hash signer)) in ret (Ok tt).

Definition pallet_store_response_receipt (res : Response) (signer : bytes) : M St (result Error unit) :=
  let* hash := or_panic (hash_request (response_request res)) in
  let* response := or_panic (hash_response res) in
  let* _ := modify_storage (on_child
    (ResponseReceipts.insert hash (mkResponseReceipt response signer))) in
  ret (Ok tt).

Definition metadata_error : Error := Custom (lit "Failed to decode leaf metadata").

Definition pallet_store_request_commitment (req : Request) (meta : bytes) : M St (result Error unit) :=
  let* hash := or_panic (hash_request req) in
  let? leaf_meta := ret (ok_or (decode meta) metadata_error) in
  let* _ := modify_storage (on_child (RequestCommitments.insert hash leaf_meta)) in
  ret (Ok tt).

Definition pallet_store_response_commitment (res : PostResponse) (meta : bytes) :
    M St (result Error unit) :=
  let* hash := or_panic (hash_post_response res) in
  let* req_commitment := or_panic (hash_request (pr_request res)) in
  let? leaf_meta := ret (ok_or (decode meta) metadata_error) in
  let* _ := modify_storage (on_child (ResponseCommitments.insert hash leaf_meta)) in
  let* _ := modify_storage (on_Responded <[req_commitment := true]>) in
  ret (Ok tt).

Definition pallet_next_nonce : M St Z :=
  let* nonce := gets (read Nonce) in
  let* _ := modify_storage (on_Nonce (fun _ => wrap64 (nonce + 1))) in
  ret nonce.

#[export] Instance pallet_host : IsmpHost St := {|
  host_state_machine := HostStateMachine;
  allowed_proxy := Coprocessor;
  consensus_clients := ConsensusClients;
  ismp_router := RefundingRouter Router;

  timestamp := now;
  latest_commitment_height id :=
    read (fun s => Ok (default 0 (LatestStateMachineHeight s !! id)));
  state_machine_commitment height :=
    read (fun s => ok_or (state_commitments_get height s) (StateCommitmentNotFound height));
  consensus_update_time id := read (fun s =>
    ok_or (from_secs <$> ConsensusClientUpdateTime s !! id)
      (Custom (lit "Update time not found for " ++ debug_id4 id)));
  state_machine_update_time height := read (fun s =>
    ok_or (from_secs <$> StateMachineUpdateTime s !! height)
      (Custom (lit "Update time not found for " ++ debug_StateMachineHeight height)));
  consensus_client_id id := read (fun s => ConsensusStateClient s !! id);
  consensus_state id := read (fun s => ok_or (ConsensusStates s !! id) (ConsensusStateNotFound id));
  is_consensus_client_frozen client := read (fun s =>
    if default false (FrozenConsensusClients s !! client)
    then Err (FrozenConsensusClient client) else Ok tt);
  request_commitment commitment := read (fun s =>
    result_map (fun _ => tt) (ok_or (RequestCommitments.get commitment (st_child s))
      (Custom (lit "Request commitment not found"))));
  response_commitment commitment := read (fun s =>
    result_map (fun _ => tt) (ok_or (ResponseCommitments.get commitment (st_child s))
      (Custom (lit "Response commitment not found"))));
  challenge_period id := read (fun s => from_secs <$> ChallengePeriod s !! id);
  unbonding_period id := read (fun s => from_secs <$> UnbondingPeriod s !! id);

  next_nonce := pallet_next_nonce;
  request_receipt req :=
    let* commitment := or_panic (hash_request req) in
    gets (read (fun s => (fun _ => tt) <$> RequestReceipts.get commitment (st_child s)));
  response_receipt res :=
    let* commitment := or_panic (hash_request (response_request res)) in
    gets (read (fun s => (fun _ => tt) <$> ResponseReceipts.get commitment (st_child s)));

  store_consensus_state_id id client := write (on_ConsensusStateClient <[id := client]>);
  store_consensus_state id state := write (on_ConsensusStates <[id := state]>);
  store_unbonding_period id period := write (on_UnbondingPeriod <[id := period]>);
  store_consensus_update_time id t := write (on_ConsensusClientUpdateTime <[id := as_secs t]>);
  store_state_machine_update_time h t := write (on_StateMachineUpdateTime <[h := as_secs t]>);
  store_state_machine_commitment h state := write (state_commitments_insert h state);
  delete_state_commitment := pallet_delete_state_commitment;
  freeze_consensus_client client := write (on_FrozenConsensusClients <[client := true]>);
  store_latest_commitment_height h :=
    write (on_LatestStateMachineHeight <[smh_id h := smh_height h]>);
  store_challenge_period id period := write (on_ChallengePeriod <[id := period]>);

  delete_request_commitment := pallet_delete_request_commitment;
  delete_response_commitment := pallet_delete_response_commitment;
  delete_request_receipt := pallet_delete_request_receipt;
  delete_response_receipt := pallet_delete_response_receipt;
  store_request_receipt := pallet_store_request_receipt;
  store_response_receipt := pallet_store_response_receipt;
  store_request_commitment := pallet_store_request_commitment;
  store_response_commitment := pallet_store_response_commitment
|}.

(** ** The abstraction *)

(** Metadata is abstracted to its encoding. *)
Definition canonical (b : bytes) : option bytes := encode <$> decode (A := RequestMetadata) b.

Definition receipt_pair (b : bytes) : option (H256 * bytes) :=
  (fun r => (receipt_response r, receipt_relayer r)) <$> decode b.

Definition frozen_set (m : gmap ConsensusStateId bool) : gset ConsensusStateId :=
  dom (filter (fun kv => kv.2 = true) m).

Definition abs_cons (s : Storage) : ConsensusStore :=
  mkConsensusStore (ConsensusStates s) (ConsensusStateClient s) (UnbondingPeriod s)
    (ChallengePeriod s) (frozen_set (FrozenConsensusClients s)) (LatestStateMachineHeight s)
    (ConsensusClientUpdateTime s) (StateMachineUpdateTime s) (StateCommitments s).

Definition abs_msgs (s : Storage) : MessageStore :=
  mkMessageStore (table (lit "RequestCommitments") canonical (st_child s))
    (table (lit "ResponseCommitments") canonical (st_child s))
    (table (lit "RequestReceipts") decode (st_child s))
    (table (lit "ResponseReceipts") receipt_pair (st_child s))
    (dom (Responded s)) (Nonce s).

Definition pallet_abs (c : St) : AbsHost := mkAbsHost (abs_cons (storage c)) (abs_msgs (storage c)) (now c).

(** The two copies of the state commitments agree, and everything decodes. *)
Record storage_ok (s : Storage) : Prop := {
  ok_commitments h : child_get (state_commitment_storage_key h) (st_child s) = StateCommitments s !! h;
  ok_req_commitments : typed (lit "RequestCommitments") RequestMetadata (st_child s);
  ok_res_commitments : typed (lit "ResponseCommitments") RequestMetadata (st_child s);
  ok_req_receipts : typed (lit "RequestReceipts") bytes (st_child s);
  ok_res_receipts : typed (lit "ResponseReceipts") ResponseReceipt (st_child s)
}.

Definition pallet_inv (c : St) : Prop := storage_ok (storage c).

(** Bytes that are the encoding of some metadata. *)
Definition metadata_ok (b : bytes) : Prop := exists m : RequestMetadata, b = encode m.

End pallet_host.
