(* ===== verification/PalletRefines.v ===== *)
(** * The pallet refines the host specification

    The instance of [HostModel] for pallet-ismp. The only assumption is that the keys
    under which the child trie keeps state commitments, hashes of encoded heights, do
    not collide. *)

From S2P Require Import Prelude StateMachine Router Messaging Host HostSpec ChildTrie PalletTypes PalletHost.

(** Distinct heights have distinct keys in the child trie. *)
Class HeightKeys `{Keccak256, Codecs} : Prop :=
  height_key_inj : Inj (=) (=) (fun h : StateMachineHeight => keccak256 (encode h)).

Section refinement.
Context `{Keccak256, Codecs} {Bank Tree : Type} `{!Currency Bank, !Mmr Tree, !Config Bank Tree}.
Context `{!HeightKeys}.

(** ** State commitments in the trie *)

Lemma state_key_inj h h' :
  state_commitment_storage_key h = state_commitment_storage_key h' -> h = h'.
Proof. unfold state_commitment_storage_key. intros E%app_inv_head. by apply height_key_inj. Qed.

Lemma child_get_put {A} `{!Codec A} k (v : A) t : child_get k (child_put k v t) = Some v.
Proof. unfold child_get, child_put. rewrite lookup_insert_eq. apply decode_encode. Qed.

Lemma child_get_put_ne {A B} `{!Codec A, !Codec B} k k' (v : B) t :
  k <> k' -> child_get (A := A) k (child_put k' v t) = child_get k t.
Proof. intros Hne. unfold child_get, child_put. by rewrite lookup_insert_ne. Qed.

Lemma child_get_kill {A} `{!Codec A} k t : child_get (A := A) k (child_kill k t) = None.
Proof. unfold child_get, child_kill. by rewrite lookup_delete_eq. Qed.

Lemma child_get_kill_ne {A} `{!Codec A} k k' t :
  k <> k' -> child_get (A := A) k (child_kill k' t) = child_get k t.
Proof. intros Hne. unfold child_get, child_kill. by rewrite lookup_delete_ne. Qed.

Lemma state_key_outside h k :
  outside STATE_COMMITMENTS_KEY k -> state_commitment_storage_key h <> k.
Proof. intros Hk. apply Hk. Qed.

(** ** The invariant under writes to the trie *)

(** Well-typed tables survive a write of the right type and any removal. *)
Lemma storage_ok_insert k {A} `{!Codec A} (v : A) s :
  outside STATE_COMMITMENTS_KEY k ->
  (typed (lit "RequestCommitments") RequestMetadata (st_child s) ->
   typed (lit "RequestCommitments") RequestMetadata (child_put k v (st_child s))) ->
  (typed (lit "ResponseCommitments") RequestMetadata (st_child s) ->
   typed (lit "ResponseCommitments") RequestMetadata (child_put k v (st_child s))) ->
  (typed (lit "RequestReceipts") bytes (st_child s) ->
   typed (lit "RequestReceipts") bytes (child_put k v (st_child s))) ->
  (typed (lit "ResponseReceipts") ResponseReceipt (st_child s) ->
   typed (lit "ResponseReceipts") ResponseReceipt (child_put k v (st_child s))) ->
  storage_ok s -> storage_ok (on_child (child_put k v) s).
Proof.
  intros Hk ? ? ? ? [Hc K1 K2 K3 K4]. split; cbn; auto.
  intros h. rewrite child_get_put_ne; [done|]. by apply state_key_outside.
Qed.

Lemma storage_ok_remove k s :
  outside STATE_COMMITMENTS_KEY k -> storage_ok s -> storage_ok (on_child (child_kill k) s).
Proof.
  intros Hk [Hc K1 K2 K3 K4]. split; cbn; auto using typed_kill.
  intros h. rewrite child_get_kill_ne; [done|]. by apply state_key_outside.
Qed.

Lemma storage_ok_Responded f s : storage_ok s -> storage_ok (on_Responded f s).
Proof. by intros []. Qed.

Lemma ok_insert_rc h m s : storage_ok s -> storage_ok (on_child (RequestCommitments.insert h m) s).
Proof.
  apply storage_ok_insert; [auto with ismp|by apply typed_put|..]; apply typed_put_other; auto with ismp.
Qed.
Lemma ok_insert_sc h m s : storage_ok s -> storage_ok (on_child (ResponseCommitments.insert h m) s).
Proof.
  apply storage_ok_insert; [auto with ismp| |by apply typed_put|..]; apply typed_put_other; auto with ismp.
Qed.
Lemma ok_insert_rr h m s : storage_ok s -> storage_ok (on_child (RequestReceipts.insert h m) s).
Proof.
  apply storage_ok_insert; [auto with ismp| | |by apply typed_put|]; apply typed_put_other; auto with ismp.
Qed.
Lemma ok_insert_sr h m s : storage_ok s -> storage_ok (on_child (ResponseReceipts.insert h m) s).
Proof.
  apply storage_ok_insert; [auto with ismp| | | |by apply typed_put]; apply typed_put_other; auto with ismp.
Qed.

Lemma ok_state_insert h c s : storage_ok s -> storage_ok (state_commitments_insert h c s).
Proof.
  intros [Hc K1 K2 K3 K4]. split; cbn; try (apply typed_put_other; auto with ismp; done).
  intros h'. destruct (decide (h' = h)) as [->|Hne].
  - by rewrite child_get_put, lookup_insert_eq.
  - rewrite child_get_put_ne, lookup_insert_ne; [done|congruence|].
    intros E%state_key_inj. congruence.
Qed.

Lemma ok_state_remove h s : storage_ok s -> storage_ok (state_commitments_remove h s).
Proof.
  intros [Hc K1 K2 K3 K4]. split; cbn; auto using typed_kill.
  intros h'. destruct (decide (h' = h)) as [->|Hne].
  - by rewrite child_get_kill, lookup_delete_eq.
  - rewrite child_get_kill_ne, lookup_delete_ne; [done|congruence|].
    intros E%state_key_inj. congruence.
Qed.

(** ** The abstraction of writes *)

Lemma canonical_encode (m : RequestMetadata) : canonical (encode m) = Some (encode m).
Proof. unfold canonical. by rewrite decode_encode. Qed.

Lemma receipt_pair_encode h x :
  receipt_pair (encode (mkResponseReceipt h x)) = Some (h, x).
Proof. unfold receipt_pair. by rewrite decode_encode. Qed.

(** Rewriting the four tables after a write or a removal in one of them. *)
Ltac other p :=
  rewrite ?(table_put_other p) by auto with ismp; rewrite ?(table_kill_other p) by auto with ismp.

Ltac tables :=
  unfold abs_msgs; cbn [st_child Responded Nonce on_child on_Responded];
  unfold RequestCommitments.insert, ResponseCommitments.insert, RequestReceipts.insert,
    ResponseReceipts.insert, RequestCommitments.remove, ResponseCommitments.remove,
    RequestReceipts.remove, ResponseReceipts.remove;
  other (lit "RequestCommitments"); other (lit "ResponseCommitments");
  other (lit "RequestReceipts"); other (lit "ResponseReceipts").

Lemma abs_insert_rc h m s :
  abs_msgs (on_child (RequestCommitments.insert h m) s)
  = set_req_commitments <[h := encode m]> (abs_msgs s).
Proof.
  tables. unfold request_commitment_storage_key.
  by rewrite (table_put _ _ h (m) (encode m)) by apply canonical_encode.
Qed.
Lemma abs_insert_sc h m s :
  abs_msgs (on_child (ResponseCommitments.insert h m) s)
  = set_res_commitments <[h := encode m]> (abs_msgs s).
Proof.
  tables. unfold response_commitment_storage_key.
  by rewrite (table_put _ _ h (m) (encode m)) by apply canonical_encode.
Qed.
Lemma abs_insert_rr h x s :
  abs_msgs (on_child (RequestReceipts.insert h x) s) = set_req_receipts <[h := x]> (abs_msgs s).
Proof.
  tables. unfold request_receipt_storage_key.
  by rewrite (table_put _ _ h (x) (x)) by apply decode_encode.
Qed.
Lemma abs_insert_sr h r x s :
  abs_msgs (on_child (ResponseReceipts.insert h (mkResponseReceipt r x)) s)
  = set_res_receipts <[h := (r, x)]> (abs_msgs s).
Proof.
  tables. unfold response_receipt_storage_key.
  by rewrite (table_put _ _ h (mkResponseReceipt r x) ((r, x))) by apply receipt_pair_encode.
Qed.
Lemma abs_remove_rc h s :
  abs_msgs (on_child (RequestCommitments.remove h) s) = set_req_commitments (delete h) (abs_msgs s).
Proof. tables. unfold request_commitment_storage_key. by rewrite table_kill. Qed.
Lemma abs_remove_sc h s :
  abs_msgs (on_child (ResponseCommitments.remove h) s) = set_res_commitments (delete h) (abs_msgs s).
Proof. tables. unfold response_commitment_storage_key. by rewrite table_kill. Qed.
Lemma abs_remove_rr h s :
  abs_msgs (on_child (RequestReceipts.remove h) s) = set_req_receipts (delete h) (abs_msgs s).
Proof. tables. unfold request_receipt_storage_key. by rewrite table_kill. Qed.
Lemma abs_remove_sr h s :
  abs_msgs (on_child (ResponseReceipts.remove h) s) = set_res_receipts (delete h) (abs_msgs s).
Proof. tables. unfold response_receipt_storage_key. by rewrite table_kill. Qed.

Lemma abs_state_insert h c s : abs_msgs (state_commitments_insert h c s) = abs_msgs s.
Proof. unfold state_commitments_insert. tables. done. Qed.
Lemma abs_state_remove h s : abs_msgs (state_commitments_remove h s) = abs_msgs s.
Proof. unfold state_commitments_remove. tables. done. Qed.

Lemma abs_lookup_rc h s :
  m_req_commitments (abs_msgs s) !! h = encode <$> RequestCommitments.get h (st_child s).
Proof. cbn. rewrite lookup_table. unfold RequestCommitments.get, child_get, canonical.
  unfold request_commitment_storage_key. by destruct (st_child s !! _). Qed.
Lemma abs_lookup_sc h s :
  m_res_commitments (abs_msgs s) !! h = encode <$> ResponseCommitments.get h (st_child s).
Proof. cbn. rewrite lookup_table. unfold ResponseCommitments.get, child_get, canonical.
  unfold response_commitment_storage_key. by destruct (st_child s !! _). Qed.
Lemma abs_lookup_rr h s : m_req_receipts (abs_msgs s) !! h = RequestReceipts.get h (st_child s).
Proof. cbn. by rewrite lookup_table. Qed.
Lemma abs_lookup_sr h s :
  m_res_receipts (abs_msgs s) !! h
  = (fun r => (receipt_response r, receipt_relayer r)) <$> ResponseReceipts.get h (st_child s).
Proof. cbn. rewrite lookup_table. unfold ResponseReceipts.get, child_get, receipt_pair.
  unfold response_receipt_storage_key. by destruct (st_child s !! _). Qed.

Lemma frozen_set_in m id : id ∈ frozen_set m <-> default false (m !! id) = true.
Proof.
  unfold frozen_set. rewrite elem_of_dom. unfold is_Some.
  setoid_rewrite map_lookup_filter_Some. simpl.
  destruct (m !! id); simpl; naive_solver.
Qed.

Lemma frozen_set_insert m id : frozen_set (<[id := true]> m) = {[id]} ∪ frozen_set m.
Proof.
  apply set_eq. intros x. rewrite elem_of_union, elem_of_singleton, !frozen_set_in.
  destruct (decide (x = id)) as [->|Hne].
  - rewrite lookup_insert_eq. naive_solver.
  - rewrite lookup_insert_ne by congruence. naive_solver.
Qed.

(** ** The methods *)

Abbreviation St := (Chain Bank Tree).
Abbreviation impl := (implements (St := St) pallet_abs pallet_inv).

(** A program that starts with the hash of a message. *)
Lemma impl_on_hash {A} o (k : H256 -> M St A) k' :
  (forall h, impl (k h) (k' h)) -> impl (let* h := or_panic o in k h) (on_hash o k').
Proof. intros Hk s Hs. destruct o as [h|]; [by apply Hk|]. done. Qed.

(** A write given by its effect on the two halves of the abstract state. *)
Lemma impl_write f g :
  (forall s, storage_ok s -> storage_ok (f s)) ->
  (forall s n, mkAbsHost (abs_cons (f s)) (abs_msgs (f s)) n = g (mkAbsHost (abs_cons s) (abs_msgs s) n)) ->
  impl (write f) (spec_write g).
Proof. intros Hok Hg s Hs. split; [done|]. split; [apply Hg|by apply Hok]. Qed.

(** A write outside the trie and the state commitments. *)
Lemma ok_same s s' :
  st_child s' = st_child s -> StateCommitments s' = StateCommitments s ->
  storage_ok s -> storage_ok s'.
Proof. intros E1 E2 []. split; rewrite ?E1, ?E2; auto. Qed.

Lemma delete_state_commitment_refines h :
  impl (pallet_delete_state_commitment h) (spec_delete_state_commitment h).
Proof.
  intros s Hs. unfold pallet_delete_state_commitment, spec_delete_state_commitment.
  pose proof (ok_state_remove h _ Hs) as Hok.
  unfold bind, modify_storage, modify, gets, read, ret, spec_write, upd_cons; cbn.
  destruct (LatestStateMachineHeight (storage s) !! smh_id h) as [n|] eqn:En; cbn.
  - destruct (Z.eqb_spec n (smh_height h)) as [->|Hne]; cbn.
    + rewrite decide_True by congruence. split; [done|]. split; [|by eapply ok_same; [| |exact Hok]].
      unfold pallet_abs; cbn. by rewrite <- (abs_state_remove h (storage s)).
    + rewrite decide_False by congruence. split; [done|]. split; [|done].
      unfold pallet_abs; cbn. by rewrite abs_state_remove.
  - rewrite decide_False by congruence. split; [done|]. split; [|done].
    unfold pallet_abs; cbn. by rewrite abs_state_remove.
Qed.

(** A removal that returns what was there. *)
Lemma impl_remove {A} (get : Storage -> option A) (out : A -> bytes) rm look (e : Error) g :
  (forall s, storage_ok s -> storage_ok (rm s)) ->
  (forall s n, look (mkAbsHost (abs_cons s) (abs_msgs s) n) = out <$> get s) ->
  (forall s n, mkAbsHost (abs_cons (rm s)) (abs_msgs (rm s)) n = g (mkAbsHost (abs_cons s) (abs_msgs s) n)) ->
  impl (let? x := gets (read (fun s => ok_or (get s) e)) in
        let* _ := modify_storage rm in ret (Ok (out x)))
    (fun a => match look a with
              | Some b => (Some (Ok b), g a)
              | None => (Some (Err e), a)
              end).
Proof.
  intros Hok Hl Hg s Hs. specialize (Hl (storage s) (now s)).
  change (mkAbsHost _ _ _) with (pallet_abs s) in Hl. rewrite Hl.
  unfold try_bind, bind, gets, read, modify_storage, modify, ret.
  destruct (get (storage s)) as [x|]; cbn; [|done].
  split; [done|]. split; [apply Hg|by apply Hok].
Qed.

Lemma delete_request_commitment_refines r :
  impl (pallet_delete_request_commitment r) (spec_delete_request_commitment r).
Proof.
  apply impl_on_hash. intros h. apply (impl_remove (fun s => RequestCommitments.get h (st_child s)) encode
    (on_child (RequestCommitments.remove h)) (fun a => m_req_commitments (a_msgs a) !! h) _
    (upd_msgs (set_req_commitments (delete h)))).
  - intros s. apply storage_ok_remove. auto with ismp.
  - intros s n. apply abs_lookup_rc.
  - intros s n. by rewrite abs_remove_rc.
Qed.

Lemma delete_request_receipt_refines r :
  impl (pallet_delete_request_receipt r) (spec_delete_request_receipt r).
Proof.
  apply impl_on_hash. intros h. apply (impl_remove (fun s => RequestReceipts.get h (st_child s)) (fun x => x)
    (on_child (RequestReceipts.remove h)) (fun a => m_req_receipts (a_msgs a) !! h) _
    (upd_msgs (set_req_receipts (delete h)))).
  - intros s. apply storage_ok_remove. auto with ismp.
  - intros s n. rewrite option_fmap_id. apply abs_lookup_rr.
  - intros s n. by rewrite abs_remove_rr.
Qed.

Lemma delete_response_receipt_refines r :
  impl (pallet_delete_response_receipt r) (spec_delete_response_receipt r).
Proof.
  apply impl_on_hash. intros h s Hs.
  pose proof (impl_remove (fun s => ResponseReceipts.get h (st_child s)) receipt_relayer
    (on_child (ResponseReceipts.remove h)) (fun a => snd <$> m_res_receipts (a_msgs a) !! h)
    (Custom (lit "Response receipt not found"))
    (upd_msgs (set_res_receipts (delete h)))) as Hi.
  destruct (Hi) with (s := s) as (E1 & E2 & E3); [..|done|].
  - intros s'. apply storage_ok_remove. auto with ismp.
  - intros s' n. cbn [a_msgs]. rewrite abs_lookup_sr. by destruct (ResponseReceipts.get h _).
  - intros s' n. by rewrite abs_remove_sr.
  - rewrite E1, E2. cbv beta. by destruct (m_res_receipts (a_msgs (pallet_abs s)) !! h).
Qed.

Lemma delete_response_commitment_refines r :
  impl (pallet_delete_response_commitment r) (spec_delete_response_commitment r).
Proof.
  apply impl_on_hash. intros req. apply impl_on_hash. intros h.
  apply (impl_remove (fun s => ResponseCommitments.get h (st_child s)) encode
    (fun s => on_Responded (delete req) (on_child (ResponseCommitments.remove h) s))
    (fun a => m_res_commitments (a_msgs a) !! h) _
    (upd_msgs (fun m => set_responded (fun x => x ∖ {[req]}) (set_res_commitments (delete h) m)))).
  - intros s Hs. apply storage_ok_Responded, storage_ok_remove; auto with ismp.
  - intros s n. apply abs_lookup_sc.
  - intros s n. unfold upd_msgs; cbn [a_cons a_msgs a_now]. f_equal.
    rewrite <- (abs_remove_sc h s). unfold set_responded, abs_msgs; cbn. f_equal.
    apply dom_delete_L.
Qed.

Lemma store_request_receipt_refines r x :
  impl (pallet_store_request_receipt r x) (spec_store_request_receipt r x).
Proof.
  apply impl_on_hash. intros h. apply (impl_write (on_child (RequestReceipts.insert h x))).
  - apply ok_insert_rr.
  - intros s n. by rewrite abs_insert_rr.
Qed.

Lemma store_response_receipt_refines r x :
  impl (pallet_store_response_receipt r x) (spec_store_response_receipt r x).
Proof.
  apply impl_on_hash. intros req. apply impl_on_hash. intros h.
  apply (impl_write (on_child (ResponseReceipts.insert req (mkResponseReceipt h x)))).
  - apply ok_insert_sr.
  - intros s n. by rewrite abs_insert_sr.
Qed.

Lemma store_request_commitment_refines r b :
  metadata_ok b -> impl (pallet_store_request_commitment r b) (spec_store_request_commitment r b).
Proof.
  intros [m ->]. apply impl_on_hash. intros h s Hs.
  rewrite decode_encode. refine (impl_write (on_child (RequestCommitments.insert h m))
    (upd_msgs (set_req_commitments <[h := encode m]>)) _ _ s Hs).
  - apply ok_insert_rc.
  - intros s' n. by rewrite abs_insert_rc.
Qed.

Lemma store_response_commitment_refines r b :
  metadata_ok b -> impl (pallet_store_response_commitment r b) (spec_store_response_commitment r b).
Proof.
  intros [m ->]. apply impl_on_hash. intros h. apply impl_on_hash. intros req s Hs.
  rewrite decode_encode. refine (impl_write (fun s => on_Responded <[req := true]>
    (on_child (ResponseCommitments.insert h m) s))
    (upd_msgs (fun x => set_responded (fun y => {[req]} ∪ y)
                          (set_res_commitments <[h := encode m]> x))) _ _ s Hs).
  - intros s' Hs'. by apply storage_ok_Responded, ok_insert_sc.
  - intros s' n. unfold upd_msgs; cbn [a_cons a_msgs a_now]. f_equal.
    rewrite <- (abs_insert_sc h m s'). unfold set_responded, abs_msgs; cbn. f_equal.
    apply dom_insert_L.
Qed.

Lemma next_nonce_refines : impl pallet_next_nonce spec_next_nonce.
Proof. intros s Hs. split; [done|]. split; [done|]. by eapply ok_same; [| |exact Hs]. Qed.

(** A read of the trie after a hash. *)
Lemma read_refines {A} (f : Storage -> A) g :
  (forall s n, f s = g (mkAbsHost (abs_cons s) (abs_msgs s) n)) -> impl (gets (read f)) (gets g).
Proof. intros Hf s Hs. split; [|done]. cbn. unfold read. f_equal. apply Hf. Qed.

Lemma request_receipt_refines r : impl (request_receipt r) (spec_request_receipt r).
Proof. apply impl_on_hash. intros h. apply read_refines. intros s n. cbn [a_msgs]. by rewrite abs_lookup_rr. Qed.

Lemma response_receipt_refines r : impl (response_receipt r) (spec_response_receipt r).
Proof.
  apply impl_on_hash. intros h. apply read_refines. intros s n. cbn [a_msgs].
  rewrite abs_lookup_sr. by destruct (ResponseReceipts.get h (st_child s)).
Qed.

(** Writes of the consensus data. *)
Ltac cons_write :=
  apply impl_write; [intros ? ?; by eapply ok_same; [| |eassumption]|done].

Lemma state_commitments_get_ok h s : storage_ok s -> state_commitments_get h s = StateCommitments s !! h.
Proof.
  intros Hs. unfold state_commitments_get. rewrite (ok_commitments _ Hs).
  by destruct (StateCommitments s !! h).
Qed.

Lemma is_ok_ok_or {E A} (o : option A) (e : E) :
  is_ok (result_map (fun _ => tt) (ok_or o e)) = bool_decide (is_Some o).
Proof. destruct o; symmetry; [apply bool_decide_eq_true_2|apply bool_decide_eq_false_2]; eauto. Qed.

Lemma is_Some_fmap_decide {A B} (f : A -> B) (o : option A) :
  bool_decide (is_Some (f <$> o)) = bool_decide (is_Some o).
Proof. apply bool_decide_ext. apply fmap_is_Some. Qed.

#[export] Program Instance pallet_model : HostModel St := {|
  abs := pallet_abs;
  inv := pallet_inv;
  meta_ok := metadata_ok
|}.
Next Obligation. done. Qed.
Next Obligation. done. Qed.
Next Obligation. intros h s Hs. cbn. unfold read. by rewrite state_commitments_get_ok. Qed.
Next Obligation. intros id s Hs. cbn. unfold read. by destruct (ConsensusClientUpdateTime _ !! id). Qed.
Next Obligation. intros h s Hs. cbn. unfold read. by destruct (StateMachineUpdateTime _ !! h). Qed.
Next Obligation. done. Qed.
Next Obligation. done. Qed.
Next Obligation.
  intros id s Hs. cbn. unfold read. pose proof (frozen_set_in (FrozenConsensusClients (storage s)) id).
  destruct (default false _); case_decide; naive_solver.
Qed.
Next Obligation.
  intros h s Hs. cbn [request_commitment pallet_host a_msgs pallet_abs]. unfold read.
  rewrite is_ok_ok_or. rewrite (abs_lookup_rc h (storage s)). by rewrite is_Some_fmap_decide.
Qed.
Next Obligation.
  intros h s Hs. cbn [response_commitment pallet_host a_msgs pallet_abs]. unfold read.
  rewrite is_ok_ok_or. rewrite (abs_lookup_sc h (storage s)). by rewrite is_Some_fmap_decide.
Qed.
Next Obligation. done. Qed.
Next Obligation. done. Qed.
Next Obligation. apply next_nonce_refines. Qed.
Next Obligation. apply request_receipt_refines. Qed.
Next Obligation. apply response_receipt_refines. Qed.
Next Obligation. intros. cons_write. Qed.
Next Obligation. intros. cons_write. Qed.
Next Obligation. intros. cons_write. Qed.
Next Obligation. intros. cons_write. Qed.
Next Obligation. intros. cons_write. Qed.
Next Obligation.
  intros h c. apply impl_write; [apply ok_state_insert|].
  intros s n. by rewrite abs_state_insert.
Qed.
Next Obligation. apply delete_state_commitment_refines. Qed.
Next Obligation.
  intros id. apply impl_write; [intros ? ?; by eapply ok_same; [| |eassumption]|].
  intros s n. unfold upd_cons, set_frozen, abs_cons; cbn. by rewrite frozen_set_insert.
Qed.
Next Obligation. intros. cons_write. Qed.
Next Obligation. intros. cons_write. Qed.
Next Obligation. apply delete_request_commitment_refines. Qed.
Next Obligation. apply delete_response_commitment_refines. Qed.
Next Obligation. apply delete_request_receipt_refines. Qed.
Next Obligation. apply delete_response_receipt_refines. Qed.
Next Obligation. apply store_request_receipt_refines. Qed.
Next Obligation. apply store_response_receipt_refines. Qed.
Next Obligation. intros. by apply store_request_commitment_refines. Qed.
Next Obligation. intros. by apply store_response_commitment_refines. Qed.
Next Obligation.
  intros s h b Hs Hb. cbn [a_msgs pallet_abs] in Hb. rewrite (abs_lookup_rc h (storage s)) in Hb.
  apply fmap_Some in Hb as (m & _ & ->). by exists m.
Qed.
Next Obligation.
  intros s h b Hs Hb. cbn [a_msgs pallet_abs] in Hb. rewrite (abs_lookup_sc h (storage s)) in Hb.
  apply fmap_Some in Hb as (m & _ & ->). by exists m.
Qed.

(** What the reads of the trait return on a host with these data. *)
Definition reads_as (s : St) (a : AbsHost) : Prop :=
  timestamp s = a_now a /\
  (forall id, latest_commitment_height id s = Ok (default 0 (c_latest (a_cons a) !! id))) /\
  (forall h, state_machine_commitment h s = ok_or (c_commitments (a_cons a) !! h) (StateCommitmentNotFound h)) /\
  (forall id, ok (consensus_update_time id s) = from_secs <$> c_updated (a_cons a) !! id) /\
  (forall h, ok (state_machine_update_time h s) = from_secs <$> c_sm_updated (a_cons a) !! h) /\
  (forall id, consensus_client_id id s = c_clients (a_cons a) !! id) /\
  (forall id, consensus_state id s = ok_or (c_states (a_cons a) !! id) (ConsensusStateNotFound id)) /\
  (forall id, is_consensus_client_frozen id s
     = if decide (id ∈ c_frozen (a_cons a)) then Err (FrozenConsensusClient id) else Ok tt) /\
  (forall h, is_ok (request_commitment h s) = bool_decide (is_Some (m_req_commitments (a_msgs a) !! h))) /\
  (forall h, is_ok (response_commitment h s) = bool_decide (is_Some (m_res_commitments (a_msgs a) !! h))) /\
  (forall id, challenge_period id s = from_secs <$> c_challenge (a_cons a) !! id) /\
  (forall id, unbonding_period id s = from_secs <$> c_unbonding (a_cons a) !! id).

Lemma pallet_reads s : pallet_inv s -> reads_as s (pallet_abs s).
Proof.
  intros Hs. unfold reads_as. split_and!; intros.
  - apply (timestamp_abs (HostModel := pallet_model)).
  - by apply (latest_commitment_height_abs (HostModel := pallet_model)).
  - by apply (state_machine_commitment_abs (HostModel := pallet_model)).
  - by apply (consensus_update_time_abs (HostModel := pallet_model)).
  - by apply (state_machine_update_time_abs (HostModel := pallet_model)).
  - by apply (consensus_client_id_abs (HostModel := pallet_model)).
  - by apply (consensus_state_abs (HostModel := pallet_model)).
  - by apply (is_consensus_client_frozen_abs (HostModel := pallet_model)).
  - by apply (request_commitment_abs (HostModel := pallet_model)).
  - by apply (response_commitment_abs (HostModel := pallet_model)).
  - by apply (challenge_period_abs (HostModel := pallet_model)).
  - by apply (unbonding_period_abs (HostModel := pallet_model)).
Qed.

(** C35: the pallet implements the specification of a host. Through the typed views of
    the child trie and the storage maps, as long as the invariant of the storage holds,
    every method of the trait that reads the storage returns what the abstract data say
    (of the metadata of a sent message, whether there are any), and every method that
    writes it returns what its specification returns, changes exactly what that changes,
    and keeps the invariant; metadata are to be in the encoding of the pallet. In
    particular [store_consensus_state_id] replaces the client of an identifier that is
    already there, where the documentation of the trait asks for an error. *)
Theorem pallet_refines_host :
  (forall s, pallet_inv s -> reads_as s (pallet_abs s)) /\
  impl next_nonce spec_next_nonce /\
  (forall r, impl (request_receipt r) (spec_request_receipt r)) /\
  (forall r, impl (response_receipt r) (spec_response_receipt r)) /\
  (forall r, impl (delete_request_commitment r) (spec_delete_request_commitment r)) /\
  (forall r, impl (delete_response_commitment r) (spec_delete_response_commitment r)) /\
  (forall r, impl (delete_request_receipt r) (spec_delete_request_receipt r)) /\
  (forall r, impl (delete_response_receipt r) (spec_delete_response_receipt r)) /\
  (forall r x, impl (store_request_receipt r x) (spec_store_request_receipt r x)) /\
  (forall r x, impl (store_response_receipt r x) (spec_store_response_receipt r x)) /\
  (forall r b, metadata_ok b ->
     impl (store_request_commitment r b) (spec_store_request_commitment r b)) /\
  (forall r b, metadata_ok b ->
     impl (store_response_commitment r b) (spec_store_response_commitment r b)) /\
  (forall id c, impl (store_consensus_state_id id c) (spec_write (upd_cons (set_clients <[id := c]>)))) /\
  (forall id b, impl (store_consensus_state id b) (spec_write (upd_cons (set_states <[id := b]>)))) /\
  (forall id p, impl (store_unbonding_period id p) (spec_write (upd_cons (set_unbonding <[id := p]>)))) /\
  (forall id p, impl (store_challenge_period id p) (spec_write (upd_cons (set_challenge <[id := p]>)))) /\
  (forall id d, impl (store_consensus_update_time id d)
     (spec_write (upd_cons (set_updated <[id := as_secs d]>)))) /\
  (forall h d, impl (store_state_machine_update_time h d)
     (spec_write (upd_cons (set_sm_updated <[h := as_secs d]>)))) /\
  (forall h, impl (store_latest_commitment_height h)
     (spec_write (upd_cons (set_latest <[smh_id h := smh_height h]>)))) /\
  (forall h x, impl (store_state_machine_commitment h x)
     (spec_write (upd_cons (set_commitments <[h := x]>)))) /\
  (forall h, impl (delete_state_commitment h) (spec_delete_state_commitment h)) /\
  (forall id, impl (freeze_consensus_client id)
     (spec_write (upd_cons (set_frozen (fun x => {[id]} ∪ x))))).
Proof.
  split; [apply pallet_reads|].
  split; [apply next_nonce_refines|]. split; [apply request_receipt_refines|].
  split; [apply response_receipt_refines|]. split; [apply delete_request_commitment_refines|].
  split; [apply delete_response_commitment_refines|]. split; [apply delete_request_receipt_refines|].
  split; [apply delete_response_receipt_refines|]. split; [apply store_request_receipt_refines|].
  split; [apply store_response_receipt_refines|]. split; [apply store_request_commitment_refines|].
  split; [apply store_response_commitment_refines|].
  split; [apply (@store_consensus_state_id_impl _ St pallet_host pallet_model)|].
  split; [apply (@store_consensus_state_impl _ St pallet_host pallet_model)|].
  split; [apply (@store_unbonding_period_impl _ St pallet_host pallet_model)|].
  split; [apply (@store_challenge_period_impl _ St pallet_host pallet_model)|].
  split; [apply (@store_consensus_update_time_impl _ St pallet_host pallet_model)|].
  split; [apply (@store_state_machine_update_time_impl _ St pallet_host pallet_model)|].
  split; [apply (@store_latest_commitment_height_impl _ St pallet_host pallet_model)|].
  split; [apply (@store_state_machine_commitment_impl _ St pallet_host pallet_model)|].
  split; [apply delete_state_commitment_refines|].
  apply (@freeze_consensus_client_impl _ St pallet_host pallet_model).
Qed.

End refinement.
