(* ===== verification/Pallet.v ===== *)
(** * The calls and hooks of pallet-ismp

    [dispatcher.rs], [impls.rs], [events.rs], and the calls, hooks and transaction
    validation of [lib.rs]. *)

From S2P Require Import Prelude StateMachine Router Messaging Host Handlers ChildTrie PalletTypes PalletHost.

(** The text of an [anyhow::Error], and the root of the child trie: both computed by
    library code. *)
Class ErrorText : Type := error_text : AnyError -> bytes.
Class ChildRoot : Type := child_root : Trie -> H256.

(** [#[transactional]]: an error rolls the storage back. A panic ends the call. *)
Definition transactional {S E A} (m : M S (result E A)) : M S (result E A) := fun s =>
  match m s with
  | (Some (Ok a), s') => (Some (Ok a), s')
  | (Some (Err e), _) => (Some (Err e), s)
  | (None, _) => (None, s)
  end.

(** The derived order of [Vec<Vec<H256>>], which [sort] uses. *)
Definition compare_ids : list H256 -> list H256 -> comparison := lex (lex compare_byte).

Definition ids_le (a b : list H256) : Prop := compare_ids a b <> Gt.

#[export] Instance ids_le_dec a b : Decision (ids_le a b).
Proof. unfold ids_le. destruct (compare_ids a b); [left|left|right]; congruence. Defined.

(** [requests.sort()] *)
Definition sort_ids (l : list (list H256)) : list (list H256) := merge_sort ids_le l.

Section pallet.
Context `{Keccak256, Codecs, !HeightSort, !ErrorText, !ChildRoot} `{!Codec Leaf}.
Context {Bank Tree : Type} `{!Currency Bank, !Mmr Tree, !Config Bank Tree}.

Abbreviation St := (Chain Bank Tree).
Abbreviation Fee := (FeeMetadata bytes Z).

(** ** Dispatching ([impls.rs]) *)

Definition push_leaf (leaf : Leaf) : M St LeafIndexAndPos := fun c =>
  match mmr_push leaf (tree c) with
  | (Some l, t) => (Some l, upd_tree (fun _ => t) c)
  | (None, t) => (None, upd_tree (fun _ => t) c)
  end.

Definition pallet_dispatch_request (request : Request) (meta : Fee) : M St (result Error H256) :=
  let* commitment := or_panic (hash_request request) in
  let* duplicate := gets (read (fun s => RequestCommitments.contains_key commitment (st_child s))) in
  let? _ := ensure_not duplicate (Custom (lit "Duplicate request")) in
  let* leaf_index_and_pos := push_leaf (LeafRequest request) in
  let* _ := deposit_event (PERequest (request_dest_chain request) (request_source_chain request)
      (request_nonce request) commitment) in
  let* _ := modify_storage (on_child (RequestCommitments.insert commitment
      (mkRequestMetadata leaf_index_and_pos meta false))) in
  ret (Ok commitment).

Definition pallet_dispatch_response (response : Response) (meta : Fee) : M St (result Error H256) :=
  let* req_commitment := or_panic (hash_request (response_request response)) in
  let* responded := gets (read (fun s => bool_decide (is_Some (Responded s !! req_commitment)))) in
  let? _ := ensure_not responded (Custom (lit "Request has been responded to")) in
  let* commitment := or_panic (hash_response response) in
  let* leaf_index_and_pos := push_leaf (LeafResponse response) in
  let* _ := deposit_event (PEResponse (response_dest_chain response)
      (response_source_chain response) (response_nonce response) commitment req_commitment) in
  let* _ := modify_storage (on_child (ResponseCommitments.insert commitment
      (mkRequestMetadata leaf_index_and_pos meta false))) in
  let* _ := modify_storage (on_Responded <[req_commitment := true]>) in
  ret (Ok commitment).

(** ** The dispatcher ([dispatcher.rs]) *)

(** The payment for a message, moved to the relayer fee account. *)
Definition collect_fee (fee : Fee) : M St (result AnyError unit) :=
  if negb (fm_fee fee =? 0) then
    let* r := currency_transfer (fm_payer fee) relayer_fee_account (fm_fee fee) in
    ret (map_err fee_error r)
  else ret (Ok tt).

(** The request that is sent. The timeout of a GET request is added with wrap-around,
    that of a POST request saturates. *)
Definition make_request (request : DispatchRequest) : M St Request :=
  match request with
  | DispatchGetRequest dispatch_get =>
      let* nonce := next_nonce in
      let* t := gets now in
      ret (RequestGet (mkGetRequest host_state_machine (dg_dest dispatch_get) nonce
        (dg_from dispatch_get) (dg_keys dispatch_get) (dg_height dispatch_get)
        (dg_context dispatch_get)
        (if dg_timeout dispatch_get =? 0 then 0 else wrap64 (as_secs t + dg_timeout dispatch_get))))
  | DispatchPostRequest dispatch_post =>
      let* nonce := next_nonce in
      let* t := gets now in
      ret (RequestPost (mkPostRequest host_state_machine (dp_dest dispatch_post) nonce
        (dp_from dispatch_post) (dp_to dispatch_post)
        (if dp_timeout dispatch_post =? 0 then 0
         else saturating_add_u64 (as_secs t) (dp_timeout dispatch_post))
        (dp_body dispatch_post)))
  end.

Definition dispatch_request (request : DispatchRequest) (fee : Fee) : M St (result AnyError H256) :=
  let? _ := collect_fee fee in
  let* request := make_request request in
  let? commitment := pallet_dispatch_request request fee in
  ret (Ok commitment).

Definition dispatch_response (response : PostResponse) (fee : Fee) : M St (result AnyError H256) :=
  let? _ := collect_fee fee in
  let* req_commitment := or_panic (hash_request (pr_request response)) in
  let* known := gets (read (fun s => RequestReceipts.contains_key req_commitment (st_child s))) in
  let? _ := ensure_not (negb known) (UnknownRequest (mkMeta
      (request_source_chain (pr_request response)) (request_dest_chain (pr_request response))
      (request_nonce (pr_request response)))) in
  let? commitment := pallet_dispatch_response (ResponsePost response) fee in
  ret (Ok commitment).

(** ** Handling messages *)

(** [From<anyhow::Error> for HandlingError] *)
Definition handling_error (e : AnyError) : HandlingError := take 1000 (error_text e).

(** The dispatch results of a message. *)
Definition message_results (r : MessageResult) : list DispatchResult :=
  match r with
  | RequestResult results | ResponseResult results | TimeoutResult results => results
  | ConsensusMessageResult evs => Ok <$> evs
  | FrozenClient _ => []
  end.

Definition deposit_ismp_event (event : Event) : M St unit :=
  let* e := or_panic (pallet_event_of event) in deposit_event e.

Definition handle_messages (messages : list Message) : M St (result DispatchError unit) :=
  let* results := try_map_m handle_incoming_message messages in
  let evs := match results with
             | Ok results => collect_results (concat (message_results <$> results))
             | Err err => Err err
             end in
  match evs with
  | Ok evs =>
      let* _ := map_m deposit_ismp_event evs in ret (Ok tt)
  | Err err =>
      let* _ := deposit_event (PEErrors [handling_error err]) in
      ret (Err (ModuleError InvalidMessage))
  end.

(** ** Calls ([lib.rs]) *)

Definition ensure_none (o : Origin) : result DispatchError unit :=
  match o with OriginNone => Ok tt | _ => Err BadOrigin end.
Definition ensure_signed (o : Origin) : result DispatchError bytes :=
  match o with OriginSigned who => Ok who | _ => Err BadOrigin end.
Definition ensure_admin (o : Origin) : result DispatchError unit :=
  if AdminOrigin o then Ok tt else Err BadOrigin.

Definition handle_unsigned (origin : Origin) (messages : list Message) : M St (result DispatchError unit) :=
  transactional (let? _ := ret (ensure_none origin) in handle_messages messages).

Definition handle (origin : Origin) (messages : list Message) : M St (result DispatchError unit) :=
  transactional (let? _ := ret (ensure_signed origin) in handle_messages messages).

Definition create_consensus_client (origin : Origin) (message : CreateConsensusState) :
    M St (result DispatchError unit) :=
  let? _ := ret (ensure_admin origin) in
  let* created := create_client message in
  let? result := ret (map_err (fun _ => ModuleError ConsensusClientCreationFailed) created) in
  let* _ := deposit_event (PEConsensusClientCreated (ccr_consensus_client_id result)) in
  ret (Ok tt).

Definition update_consensus_state (origin : Origin) (message : UpdateConsensusState) :
    M St (result DispatchError unit) :=
  let? _ := ret (ensure_admin origin) in
  let failed {A} (r : result Error A) := map_err (fun _ => ModuleError UnbondingPeriodUpdateFailed) r in
  let? _ := match ucs_unbonding_period message with
            | Some unbonding_period =>
                let* r := store_unbonding_period (ucs_consensus_state_id message) unbonding_period in
                ret (failed r)
            | None => ret (Ok tt)
            end in
  for_each (ucs_challenge_periods message) (fun p =>
    let* r := store_challenge_period (mkStateMachineId p.1 (ucs_consensus_state_id message)) p.2 in
    ret (failed r)).

Definition add_fee (amount : Z) (m : RequestMetadata) : RequestMetadata :=
  mkRequestMetadata (rmeta_mmr m)
    (mkFeeMetadata (fm_payer (rmeta_fee m)) (fm_fee (rmeta_fee m) + amount)) (rmeta_claimed m).

Definition fund_message (origin : Origin) (message : FundMessageParams) : M St (result DispatchError unit) :=
  let? account := ret (ensure_signed origin) in
  let* metadata := gets (read (fun s =>
    match fmp_commitment message with
    | CommitmentRequest commitment => RequestCommitments.get commitment (st_child s)
    | CommitmentResponse commitment => ResponseCommitments.get commitment (st_child s)
    end)) in
  match metadata with
  | None => ret (Err (ModuleError MessageNotFound))
  | Some metadata =>
      let* r := currency_transfer account relayer_fee_account (fmp_amount message) in
      let? _ := ret (map_err CurrencyError r) in
      let* _ := modify_storage (on_child
        match fmp_commitment message with
        | CommitmentRequest commitment =>
            RequestCommitments.insert commitment (add_fee (fmp_amount message) metadata)
        | CommitmentResponse commitment =>
            ResponseCommitments.insert commitment (add_fee (fmp_amount message) metadata)
        end) in
      ret (Ok tt)
  end.

(** ** Hooks *)

Definition finalize_tree : M St (result bytes H256) := fun c =>
  match mmr_finalize (tree c) with
  | (o, t) => (o, upd_tree (fun _ => t) c)
  end.

Definition on_finalize : M St unit :=
  let* child_trie_root := gets (read (fun s => child_root (st_child s))) in
  let* _ := modify_storage (on_ChildTrieRoot (fun _ => child_trie_root)) in
  let* finalized := finalize_tree in
  match finalized with
  | Ok root => deposit_log (mkConsensusDigest root child_trie_root)
  | Err _ => ret tt
  end.

(** ** Off-chain queries *)

(** [NoOpTree::offchain_key] *)
Definition offchain_key (commitment : H256) : bytes := lit "no_op" ++ commitment.

(** A leaf from the off-chain database. *)
Definition offchain_leaf (commitment : H256) (c : St) : option Leaf :=
  elem ← local_storage_get (offchain_key commitment) (tree c); decode elem.

Definition request (commitment : H256) (c : St) : option Request :=
  meta ← RequestCommitments.get commitment (st_child (storage c));
  match mmr_get_leaf (pos (rmeta_mmr meta)) (tree c) with
  | Ok (Some (LeafRequest req)) => Some req
  | _ => match offchain_leaf commitment c with
         | Some (LeafRequest req) => Some req
         | _ => None
         end
  end.

Definition response (commitment : H256) (c : St) : option Response :=
  meta ← ResponseCommitments.get commitment (st_child (storage c));
  match mmr_get_leaf (pos (rmeta_mmr meta)) (tree c) with
  | Ok (Some (LeafResponse res)) => Some res
  | _ => match offchain_leaf commitment c with
         | Some (LeafResponse res) => Some res
         | _ => None
         end
  end.

Definition requests (commitments : list H256) (c : St) : list Request :=
  omap (fun cm => request cm c) commitments.
Definition responses (commitments : list H256) (c : St) : list Response :=
  omap (fun cm => response cm c) commitments.

Definition generate_proof (keys : ProofKeys) (c : St) : result bytes (list Leaf * MmrProof) :=
  let leaf get commitment :=
    ok_or (rmeta_mmr <$> get commitment (st_child (storage c))) (lit "LeafNotFound") in
  let leaves := match keys with
                | ProofRequests l => collect_results (leaf RequestCommitments.get <$> l)
                | ProofResponses l => collect_results (leaf ResponseCommitments.get <$> l)
                end in
  match leaves with
  | Err e => Err e
  | Ok leaves =>
      match mmr_generate_proof (leaf_index <$> leaves) (tree c) with
      | Err e => Err e
      | Ok (ls, (count, its)) => Ok (ls, mkMmrProof leaves count its)
      end
  end.

(** [TryFrom<Event<T>> for ismp::events::Event] *)
Definition ismp_event_of (event : PalletEvent) (c : St) : result unit Event :=
  match event with
  | PEStateMachineUpdated id height => Ok (EvStateMachineUpdated (mkStateMachineUpdated id height))
  | PEResponse _ _ _ commitment _ =>
      match response commitment c with
      | Some (ResponsePost r) => Ok (EvPostResponse r)
      | Some (ResponseGet r) => Ok (EvGetResponse r)
      | None => Err tt
      end
  | PERequest _ _ _ commitment =>
      match request commitment c with
      | Some (RequestPost p) => Ok (EvPostRequest p)
      | Some (RequestGet g) => Ok (EvGetRequest g)
      | None => Err tt
      end
  | PEGetRequestTimeoutHandled handled => Ok (EvGetRequestTimeoutHandled handled)
  | PEGetRequestHandled handled => Ok (EvGetRequestHandled handled)
  | PEPostRequestHandled handled => Ok (EvPostRequestHandled handled)
  | PEPostResponseHandled handled => Ok (EvPostResponseHandled handled)
  | PEPostRequestTimeoutHandled handled => Ok (EvPostRequestTimeoutHandled handled)
  | PEPostResponseTimeoutHandled handled => Ok (EvPostResponseTimeoutHandled handled)
  | PEStateCommitmentVetoed height fisherman =>
      Ok (EvStateCommitmentVetoed (mkStateCommitmentVetoed height fisherman))
  | PEConsensusClientCreated _ | PEConsensusClientFrozen _ | PEErrors _ => Err tt
  end.

Definition block_events (c : St) : list Event := omap (fun e => ok (ismp_event_of e c)) (events c).

(** ** Validation of unsigned transactions *)

Inductive Call : Type :=
| CallHandleUnsigned (messages : list Message)
| CallOther.

Inductive TransactionValidityError : Type :=
| InvalidCall
| BadProof.

Record ValidTransaction : Type := mkValidTransaction {
  priority : Z;
  requires : list bytes;
  provides : list bytes;
  longevity : Z;
  propagate : bool
}.

(** The results that must all be [Ok]. *)
Definition validated_results (r : MessageResult) : list (result AnyError unit) :=
  match r with
  | RequestResult results | ResponseResult results | TimeoutResult results =>
      result_map (fun _ => tt) <$> results
  | ConsensusMessageResult _ | FrozenClient _ => [Ok tt]
  end.

(** The hashes that identify a message in the transaction pool. *)
Definition message_hashes (message : Message) : option (list H256) :=
  match message with
  | MsgConsensus m => Some [keccak256 (cm_consensus_proof m)]
  | MsgFraudProof m => Some [keccak256 (fpm_proof_1 m); keccak256 (fpm_proof_2 m)]
  | MsgRequest m => mapM (fun post => hash_request (RequestPost post)) (rm_requests m)
  | MsgResponse m => mapM hash_request (rsm_requests m)
  | MsgTimeout m => mapM hash_request (tm_requests m)
  end.

(** The tag a batch provides: the hash of its sorted identifiers. *)
Definition batch_tag `{!Codec (list (list H256))} (ids : list (list H256)) : bytes :=
  keccak256 (encode (sort_ids ids)).

Definition validate_unsigned `{!Codec (list (list H256))} (call : Call) :
    M St (result TransactionValidityError ValidTransaction) :=
  match call with
  | CallOther => ret (Err InvalidCall)
  | CallHandleUnsigned messages =>
      let* handled := try_map_m handle_incoming_message messages in
      let? results := ret (map_err (fun _ => BadProof) handled) in
      let? _ := ret (map_err (fun _ => BadProof)
          (collect_results (concat (validated_results <$> results)))) in
      let* ids := or_panic (mapM message_hashes messages) in
      ret (Ok (mkValidTransaction 100 [] [batch_tag ids] 25 true))
  end.

End pallet.

(** * The no-op message tree

    [trees/mmr/primitives/src/lib.rs]: the tree of runtimes that keep no Merkle mountain
    range. Leaves go straight to the off-chain database under their commitment. *)

(** The off-chain database. *)
Abbreviation OffchainDb := (gmap bytes bytes).

Section noop.
Context `{Keccak256} `{!Codec Leaf}.

Definition noop_leaf_count : Z := 0.

Definition noop_generate_proof (indices : list Z) (t : OffchainDb) :
    result bytes (list Leaf * (Z * list H256)) := Err (lit "GenerateProof").

Definition noop_push (leaf : Leaf) : M OffchainDb LeafIndexAndPos :=
  let* encoded := or_panic (preimage leaf) in
  let commitment := keccak256 encoded in
  let* _ := modify (S := OffchainDb) <[offchain_key commitment := encode leaf]> in
  ret (mkLeafIndexAndPos 0 0).

(** [H256::default()] *)
Definition noop_finalize : M OffchainDb (result bytes H256) := ret (Ok (replicate 32 Byte.x00)).

Definition noop_get_leaf (position : Z) (t : OffchainDb) : result bytes (option Leaf) := Ok None.

#[export] Instance NoOpTree : Mmr OffchainDb := {|
  mmr_push := noop_push;
  mmr_get_leaf := noop_get_leaf;
  mmr_generate_proof := noop_generate_proof;
  mmr_finalize := noop_finalize;
  local_storage_get k (t : OffchainDb) := t !! k
|}.

End noop.
