(* ===== verification/PalletFrames.v ===== *)
(** * What pallet-ismp's own programs do to the ISMP data

    Frames of the pallet's programs, in the sense of [Frame]: transfers leave the ISMP
    data alone, the refunding wrapper keeps what its module keeps, and dispatching a
    message is something a callback may do. *)

From S2P Require Import Prelude StateMachine Router Messaging Host Handlers HostSpec Frame ChildTrie PalletTypes PalletHost PalletRefines Pallet.

(** The modules of the runtime keep to what a callback may do. *)
Class ModulesFrame `{Keccak256, Codecs} {Bank Tree : Type} `{!Currency Bank, !Mmr Tree, !Config Bank Tree}
    `{!HeightKeys} : Prop :=
  modules_frame : forall id md, Router id = Ok md ->
    (forall p, keeps callback_frame (on_accept md p)) /\
    (forall r, keeps callback_frame (on_response md r)) /\
    (forall t, keeps callback_frame (on_timeout md t)).

Section frames.
Context `{Keccak256, Codecs} {Bank Tree : Type} `{!Currency Bank, !Mmr Tree, !Config Bank Tree}.
Context `{!HeightKeys, !HeightSort, !ErrorText, !ChildRoot}.

Abbreviation St := (Chain Bank Tree).
Implicit Types c : St.

(** A program that leaves storage and clock as they are. *)
Definition silent {A} (m : M St A) : Prop :=
  forall c o c', m c = (o, c') -> storage c' = storage c /\ now c' = now c.

Lemma silent_keeps R `{!PreOrder R} {A} (m : M St A) : silent m -> keeps R m.
Proof.
  intros Hm c o c' Hc E. destruct (Hm _ _ _ E) as [E1 E2]. cbn. unfold pallet_inv, pallet_abs.
  by rewrite E1, E2.
Qed.

Lemma transfer_silent a b n : silent (currency_transfer a b n).
Proof.
  intros c o c'. unfold currency_transfer. destruct (transfer a b n (bank c)); by intros [= <- <-].
Qed.

Lemma push_leaf_silent l : silent (push_leaf l).
Proof. intros c o c'. unfold push_leaf. destruct (mmr_push l (tree c)) as [[|] t]; by intros [= <- <-]. Qed.

Lemma deposit_event_silent e : silent (deposit_event e).
Proof. intros c o c'. unfold deposit_event, modify. by intros [= <- <-]. Qed.

Lemma refund_metadata_keeps R `{!PreOrder R} t : keeps R (refund_metadata t).
Proof. destruct t; unfold refund_metadata; keeps_solve. Qed.

Lemma refunding_keeps R `{!PreOrder R} md t :
  keeps R (on_timeout md t) -> keeps R (refunding_on_timeout md t).
Proof.
  intros Hm. unfold refunding_on_timeout.
  apply keeps_bind; [done|done|]. intros r. destruct (is_ok r); [|by apply keeps_ret].
  apply keeps_bind; [done|by apply refund_metadata_keeps|]. intros [fee|]; [|by apply keeps_ret].
  destruct (0 <? fm_fee fee); [|by apply keeps_ret].
  apply keeps_bind; [done|apply silent_keeps; [done|apply transfer_silent]|].
  intros [u|e]; by apply keeps_ret.
Qed.

#[export] Instance pallet_router_frame `{!ModulesFrame} : RouterFrame St.
Proof.
  intros id md E. cbn in E. unfold RefundingRouter in E.
  destruct (Router id) as [inner|e] eqn:Er; [|done]. injection E as <-.
  destruct (modules_frame _ _ Er) as (Ha & Hr & Ht). split; [done|]. split; [done|].
  intros t. cbn. apply refunding_keeps; [typeclasses eauto|done].
Qed.

(** ** Dispatching is a callback's business *)

Lemma collect_fee_keeps R `{!PreOrder R} fee : keeps R (collect_fee fee).
Proof.
  unfold collect_fee. destruct (negb _); [|by apply keeps_ret].
  apply keeps_bind; [done|apply silent_keeps; [done|apply transfer_silent]|].
  intros. by apply keeps_ret.
Qed.

Lemma contains_request h c :
  pallet_inv c -> RequestCommitments.contains_key h (st_child (storage c)) = false ->
  RequestCommitments.get h (st_child (storage c)) = None.
Proof.
  intros Hc. unfold RequestCommitments.contains_key, RequestCommitments.get.
  unfold request_commitment_storage_key.
  rewrite (typed_exists (A := RequestMetadata)) by apply Hc.
  intros Hb%bool_decide_eq_false. destruct (child_get _ _); [|done]. by destruct Hb; eauto.
Qed.

Lemma contains_receipt h c :
  pallet_inv c ->
  RequestReceipts.contains_key h (st_child (storage c))
  = bool_decide (is_Some (m_req_receipts (a_msgs (pallet_abs c)) !! h)).
Proof.
  intros Hc. cbn [a_msgs pallet_abs]. rewrite abs_lookup_rr.
  unfold RequestReceipts.contains_key, RequestReceipts.get, request_receipt_storage_key.
  by rewrite (typed_exists (A := bytes)) by apply Hc.
Qed.

(** ** Runs of the dispatching functions *)

Record request_dispatched (req : Request) (fee : FeeMetadata bytes Z) (h : H256) c c' : Prop := {
  rd_hash : hash_request req = Some h;
  rd_new : RequestCommitments.get h (st_child (storage c)) = None;
  rd_stored : exists leaf t, mmr_push (LeafRequest req) (tree c) = (Some leaf, t) /\
    c' = mkChain (on_child (RequestCommitments.insert h (mkRequestMetadata leaf fee false)) (storage c))
           (now c) (bank c) t
           (events c ++ [PERequest (request_dest_chain req) (request_source_chain req)
                           (request_nonce req) h]) (logs c)
}.

Lemma pallet_dispatch_request_run req fee c r c' :
  pallet_inv c -> pallet_dispatch_request req fee c = (Some r, c') ->
  (exists h, r = Ok h /\ request_dispatched req fee h c c') \/
  (r = Err (Custom (lit "Duplicate request")) /\ c' = c).
Proof.
  intros Hc Hrun. unfold pallet_dispatch_request in Hrun.
  apply bind_inv in Hrun as (h & c1 & Hh & Hrun). apply or_panic_inv in Hh as [Hh ->].
  bind_gets Hrun. apply try_inv in Hrun as [(e & Hd & ->)|(u & c1 & Hd & Hrun)].
  { apply ensure_not_err in Hd as (_ & -> & ->). by right. }
  apply ensure_not_ok in Hd as [Hd ->]. left. exists h.
  apply bind_inv in Hrun as (leaf & c1 & Hp & Hrun). unfold push_leaf in Hp.
  destruct (mmr_push (LeafRequest req) (tree c)) as [[l|] t] eqn:Et; [|done].
  injection Hp as -> <-. cbn in Hrun. unfold bind, deposit_event, modify_storage, modify, ret in Hrun.
  injection Hrun as <- <-. split; [done|]. split; [done|by apply contains_request|].
  exists leaf, t. done.
Qed.

Lemma request_dispatched_abs req fee h c c' :
  pallet_inv c -> request_dispatched req fee h c c' ->
  pallet_inv c' /\ exists leaf, pallet_abs c' = upd_msgs (set_req_commitments
    <[h := encode (mkRequestMetadata leaf fee false)]>) (pallet_abs c).
Proof.
  intros Hc [_ _ (leaf & t & _ & ->)]. split; [by apply ok_insert_rc|]. exists leaf.
  unfold pallet_abs, upd_msgs; cbn [storage now a_cons a_msgs a_now]. by rewrite abs_insert_rc.
Qed.

Lemma pallet_dispatch_request_frame req fee : keeps callback_frame (pallet_dispatch_request req fee).
Proof.
  intros c [r|] c' Hc Hrun.
  - destruct (pallet_dispatch_request_run _ _ _ _ _ Hc Hrun) as [(h & -> & Hd)|[-> ->]]; [|by split].
    destruct (request_dispatched_abs _ _ _ _ _ Hc Hd) as (Hc' & leaf & Ha).
    split; [done|]. change (callback_frame (pallet_abs c) (pallet_abs c')). rewrite Ha.
    split; try done. cbn [upd_msgs a_msgs set_req_commitments m_req_commitments].
    apply insert_subseteq. cbn [pallet_abs a_msgs]. by rewrite abs_lookup_rc, (rd_new _ _ _ _ _ Hd).
  - unfold pallet_dispatch_request in Hrun.
    apply bind_split in Hrun as [(h & c1 & Hh & Hrun)|[Hh _]].
    2: { destruct (hash_request req); [done|]. unfold or_panic, panic in Hh. injection Hh as <-. by split. }
    apply or_panic_inv in Hh as [_ ->].
    apply bind_split in Hrun as [(d & c1 & Hd & Hrun)|[Hd _]]; [|done].
    apply gets_inv in Hd as [_ ->].
    apply try_split in Hrun as [(u & c1 & Hu & Hrun)|(o1 & Hu & _ & Ho)].
    2: { unfold ensure_not, ret in Hu. injection Hu as <- <-. by split. }
    apply ensure_not_ok in Hu as [_ ->].
    apply bind_split in Hrun as [(l & c1 & Hl & Hrun)|[Hl _]].
    + unfold bind, deposit_event, modify_storage, modify, ret in Hrun. discriminate.
    + apply push_leaf_silent in Hl as [E1 E2]. cbn. unfold pallet_inv, pallet_abs.
      rewrite E1, E2. by split.
Qed.

End frames.

(** * Frames on the state itself

    [moves R m]: every run of [m], panics included, goes from a state to one related to it
    by [R]. [Frame] says the same about the abstract state of a host; here [R] speaks of the
    state as it is, so that it covers what the abstraction forgets. *)

Definition moves {S A} (R : relation S) (m : M S A) : Prop :=
  forall s o s', m s = (o, s') -> R s s'.

Section moves.
Context {S : Type} (R : relation S) `{!PreOrder R}.

Lemma moves_ret {A} (a : A) : moves R (ret a).
Proof. intros s o s' [= _ <-]. done. Qed.
Lemma moves_panic {A} : moves R (panic (A := A)).
Proof. intros s o s' [= _ <-]. done. Qed.
Lemma moves_or_panic {A} (o : option A) : moves R (or_panic o).
Proof. destruct o; [apply moves_ret|apply moves_panic]. Qed.
Lemma moves_gets {A} (f : S -> A) : moves R (gets f).
Proof. intros s o s' [= _ <-]. done. Qed.
Lemma moves_ask {A} (f : S -> option A) : moves R (ask f).
Proof. intros s o s' [= _ <-]. done. Qed.
Lemma moves_ensure_not {E} c (e : E) : moves R (ensure_not c e).
Proof. apply moves_ret. Qed.
Lemma moves_modify (f : S -> S) : (forall s, R s (f s)) -> moves R (modify f).
Proof. intros Hf s o s' [= _ <-]. apply Hf. Qed.

Lemma moves_bind {A B} (m : M S A) (k : A -> M S B) :
  moves R m -> (forall a, moves R (k a)) -> moves R (bind m k).
Proof.
  intros Hm Hk s o s' [(a & s1 & E1 & E2)|[E1 _]]%bind_split; [|by eapply Hm].
  etransitivity; [by eapply Hm|by eapply Hk].
Qed.

Lemma moves_try {A B E F} `{From E F} (m : M S (result E A)) (k : A -> M S (result F B)) :
  moves R m -> (forall a, moves R (k a)) -> moves R (try_bind m k).
Proof. intros Hm Hk. apply moves_bind; [done|]. intros [a|e]; [apply Hk|apply moves_ret]. Qed.

Lemma moves_map_m {A B} (f : A -> M S B) l :
  (forall x, x ∈ l -> moves R (f x)) -> moves R (map_m f l).
Proof.
  induction l as [|x l IH]; intros Hf; cbn [map_m]; [apply moves_ret|].
  apply moves_bind; [apply Hf; left|]. intros y. apply moves_bind; [|intros; apply moves_ret].
  apply IH. intros. apply Hf. by right.
Qed.

Lemma moves_try_map_m {A B E} (f : A -> M S (result E B)) l :
  (forall x, moves R (f x)) -> moves R (try_map_m f l).
Proof.
  intros Hf. induction l as [|x l IH]; cbn [try_map_m]; [apply moves_ret|].
  apply moves_try; [apply Hf|]. intros y. apply moves_try; [apply IH|]. intros. apply moves_ret.
Qed.

Lemma moves_try_fold_m {A B E} (f : B -> A -> M S (result E B)) b l :
  (forall b x, moves R (f b x)) -> moves R (try_fold_m f b l).
Proof.
  intros Hf. revert b; induction l as [|x l IH]; intros b; cbn [try_fold_m]; [apply moves_ret|].
  apply moves_try; [apply Hf|]. intros. apply IH.
Qed.

Lemma moves_for_each {A E} (l : list A) (body : A -> M S (result E unit)) :
  (forall x, moves R (body x)) -> moves R (for_each l body).
Proof.
  intros Hf. induction l as [|x l IH]; cbn [for_each]; [apply moves_ret|].
  apply moves_try; [apply Hf|]. intros. apply IH.
Qed.

Lemma moves_transactional {A E} (m : M S (result E A)) : moves R m -> moves R (transactional m).
Proof.
  intros Hm s o s'. unfold transactional. destruct (m s) as [[[a|e]|] s1] eqn:Em; intros [= _ <-]; [|done|done].
  by eapply Hm.
Qed.

End moves.

(** A call that succeeds is its body; one that does not leaves the state alone. *)
Lemma transactional_ok {S A E} (m : M S (result E A)) s a s' :
  transactional m s = (Some (Ok a), s') -> m s = (Some (Ok a), s').
Proof. unfold transactional. destruct (m s) as [[[b|e]|] s1]; naive_solver. Qed.

Lemma transactional_fails {S A E} (m : M S (result E A)) s o s' :
  transactional m s = (o, s') -> (forall a, o <> Some (Ok a)) -> s' = s.
Proof. unfold transactional. destruct (m s) as [[[b|e]|] s1]; naive_solver. Qed.

Create HintDb moves discriminated.

(** The rules, applied in program order. *)
Ltac moves_step :=
  lazymatch goal with
  | |- moves _ (ret _) => apply moves_ret; typeclasses eauto
  | |- moves _ panic => apply moves_panic; typeclasses eauto
  | |- moves _ (or_panic _) => apply moves_or_panic; typeclasses eauto
  | |- moves _ (gets _) => apply moves_gets; typeclasses eauto
  | |- moves _ (ask _) => apply moves_ask; typeclasses eauto
  | |- moves _ (ensure_not _ _) => apply moves_ensure_not; typeclasses eauto
  | |- moves _ (modify _) => apply moves_modify; intros
  | |- moves _ (bind _ _) => apply moves_bind; [typeclasses eauto| |intros]
  | |- moves _ (try_bind _ _) => apply moves_try; [typeclasses eauto| |intros]
  | |- moves _ (map_m _ _) => apply moves_map_m; [typeclasses eauto|intros]
  | |- moves _ (try_map_m _ _) => apply moves_try_map_m; [typeclasses eauto|intros]
  | |- moves _ (try_fold_m _ _ _) => apply moves_try_fold_m; [typeclasses eauto|intros]
  | |- moves _ (transactional _) => apply moves_transactional; [typeclasses eauto|]
  | |- moves _ (for_each _ _) => apply moves_for_each; [typeclasses eauto|intros]
  | |- moves _ (match ?x with _ => _ end) => destruct x
  | |- moves _ (let _ := _ in _) => cbv zeta
  | |- moves _ _ => solve [eauto with moves]
  end.
Ltac moves_solve := repeat moves_step.
