(* ===== verification/PalletProps.v ===== *)
(** * Correctness of pallet-ismp

    Dispatching, fees, nonces, batches of messages, transaction validation and the
    conversions of the pallet. *)

From S2P Require Import Prelude StateMachine Router Messaging Host Handlers HostSpec Frame Requests ChildTrie PalletTypes PalletHost PalletRefines Pallet PalletFrames.

Section properties.
Context `{Keccak256, Codecs} `{!Codec Leaf} {Bank Tree : Type} `{!Currency Bank, !Mmr Tree, !Config Bank Tree}.
Context `{!HeightKeys, !HeightSort, !ErrorText, !ChildRoot}.

Abbreviation St := (Chain Bank Tree).
Implicit Types c : St.

(** ** Fees *)

(** What collecting [fee] does to the balances. *)
Definition fee_collected (fee : FeeMetadata bytes Z) (b b' : Bank) : Prop :=
  if fm_fee fee =? 0 then b' = b
  else transfer (fm_payer fee) relayer_fee_account (fm_fee fee) b = Ok b'.

Lemma collect_fee_run fee c r c' :
  collect_fee fee c = (Some r, c') ->
  (r = Ok tt /\ exists b, fee_collected fee (bank c) b /\ c' = upd_bank (fun _ => b) c) \/
  (is_ok r = false /\ c' = c).
Proof.
  unfold collect_fee, fee_collected. destruct (fm_fee fee =? 0); cbn [negb].
  - intros [<- <-]%ret_inv. left. split; [done|]. exists (bank c). split; [done|]. by destruct c.
  - intros (x & c1 & Ht & Hr)%bind_inv. apply ret_inv in Hr as [<- <-].
    unfold currency_transfer in Ht. destruct (transfer _ _ _ _) as [b|e] eqn:E; injection Ht as <- <-.
    + left. split; [done|]. by exists b.
    + by right.
Qed.

Lemma fee_collected_balance fee b b' :
  fm_payer fee <> relayer_fee_account -> fee_collected fee b b' ->
  balance relayer_fee_account b' = balance relayer_fee_account b + fm_fee fee.
Proof.
  unfold fee_collected. intros Hne. destruct (Z.eqb_spec (fm_fee fee) 0) as [->|_].
  - intros ->. lia.
  - intros E. by apply transfer_moves in E as [? _].
Qed.

(** ** Requests *)

(** The request [d] asks for, with the host's source, nonce and clock. *)
Definition requested (d : DispatchRequest) (nonce : Z) (t : Duration) : Request :=
  match d with
  | DispatchGetRequest g =>
      RequestGet (mkGetRequest HostStateMachine (dg_dest g) nonce (dg_from g) (dg_keys g)
        (dg_height g) (dg_context g)
        (if dg_timeout g =? 0 then 0 else wrap64 (as_secs t + dg_timeout g)))
  | DispatchPostRequest p =>
      RequestPost (mkPostRequest HostStateMachine (dp_dest p) nonce (dp_from p) (dp_to p)
        (if dp_timeout p =? 0 then 0 else saturating_add_u64 (as_secs t) (dp_timeout p)) (dp_body p))
  end.

Lemma requested_source d n t : request_source_chain (requested d n t) = HostStateMachine.
Proof. by destruct d. Qed.
Lemma requested_nonce d n t : request_nonce (requested d n t) = n.
Proof. by destruct d. Qed.

Lemma make_request_run d c :
  make_request d c
  = (Some (requested d (Nonce (storage c)) (now c)),
     upd_storage (on_Nonce (fun n => wrap64 (n + 1))) c).
Proof. by destruct d. Qed.

Lemma dispatch_request_run d fee c h c' :
  pallet_inv c -> dispatch_request d fee c = (Some (Ok h), c') ->
  let req := requested d (Nonce (storage c)) (now c) in
  exists b, fee_collected fee (bank c) b /\
    request_dispatched req fee h
      (upd_storage (on_Nonce (fun n => wrap64 (n + 1))) (upd_bank (fun _ => b) c)) c'.
Proof.
  intros Hc Hrun req. unfold dispatch_request in Hrun.
  apply try_ok_inv in Hrun as (u & c1 & Hf & Hrun).
  apply collect_fee_run in Hf as [(_ & b & Hb & ->)|[? _]]; [|done]. exists b. split; [done|].
  apply bind_inv in Hrun as (req' & c2 & Hm & Hrun). rewrite make_request_run in Hm.
  injection Hm as <- <-. apply try_ok_inv in Hrun as (h' & c3 & Hd & Hrun).
  apply ret_inv in Hrun as [E <-]. injection E as ->.
  apply pallet_dispatch_request_run in Hd as [(h' & E & Hd)|[? _]]; [|done|].
  - injection E as <-. exact Hd.
  - by eapply ok_same; [| |exact Hc].
Qed.

(** A successful dispatch, seen in the abstract state. *)
Lemma dispatch_request_abs d fee c h c' :
  pallet_inv c -> dispatch_request d fee c = (Some (Ok h), c') ->
  pallet_inv c' /\ exists leaf, pallet_abs c'
    = upd_msgs (fun m => set_req_commitments <[h := encode (mkRequestMetadata leaf fee false)]>
        (set_nonce (fun n => wrap64 (n + 1)) m)) (pallet_abs c).
Proof.
  intros Hc Hrun. destruct (dispatch_request_run _ _ _ _ _ Hc Hrun) as (b & _ & Hd).
  eapply request_dispatched_abs in Hd as (? & leaf & Ha); [by split; [|exists leaf]|].
  by eapply ok_same; [| |exact Hc].
Qed.

(** a request that is dispatched gets the host as its source and the next nonce,
    and a timeout relative to the host's clock; its commitment was not in use and is
    recorded with the fee, unclaimed; the event of the dispatch is deposited; exactly
    the fee arrives on the relayer fee account; receipts and consensus data stay. *)
Theorem dispatch_request_functional d fee c h c' :
  pallet_inv c -> dispatch_request d fee c = (Some (Ok h), c') ->
  let req := requested d (Nonce (storage c)) (now c) in
  pallet_inv c' /\ hash_request req = Some h /\
  RequestCommitments.get h (st_child (storage c)) = None /\
  (exists leaf, pallet_abs c'
     = upd_msgs (fun m => set_req_commitments <[h := encode (mkRequestMetadata leaf fee false)]>
         (set_nonce (fun n => wrap64 (n + 1)) m)) (pallet_abs c)) /\
  events c' = events c ++ [PERequest (request_dest_chain req) HostStateMachine
                             (Nonce (storage c)) h] /\
  (fm_payer fee <> relayer_fee_account ->
   balance relayer_fee_account (bank c') = balance relayer_fee_account (bank c) + fm_fee fee).
Proof.
  intros Hc Hrun. cbv zeta. destruct (dispatch_request_abs _ _ _ _ _ Hc Hrun) as [Hc' Ha].
  destruct (dispatch_request_run _ _ _ _ _ Hc Hrun) as (b & Hb & [Hh Hn (leaf & t & _ & ->)]).
  split; [done|]. split; [done|]. split; [done|]. split; [done|]. split.
  - cbn. by rewrite requested_source, requested_nonce.
  - intros Hne. cbn. by apply fee_collected_balance.
Qed.

(** ** Nonces *)

Lemma dispatch_request_nonce d fee c h c' :
  pallet_inv c -> dispatch_request d fee c = (Some (Ok h), c') ->
  Nonce (storage c') = wrap64 (Nonce (storage c) + 1).
Proof.
  intros Hc Hrun. destruct (dispatch_request_run _ _ _ _ _ Hc Hrun) as (b & _ & [_ _ (leaf & t & _ & ->)]).
  done.
Qed.

(** the requests of successive dispatches carry consecutive nonces, as long as the
    64-bit counter does not wrap around; in particular no two of them are equal. *)
Theorem dispatch_nonces_consecutive l c hs c' :
  pallet_inv c -> 0 <= Nonce (storage c) -> Nonce (storage c) + Z.of_nat (length l) <= u64_max ->
  try_map_m (fun d => dispatch_request d.1 d.2) l c = (Some (Ok hs), c') ->
  exists reqs, mapM hash_request reqs = Some hs /\
    request_nonce <$> reqs = seqZ (Nonce (storage c)) (Z.of_nat (length l)) /\
    Forall (fun r => request_source_chain r = HostStateMachine) reqs.
Proof.
  revert c hs. induction l as [|[d fee] l IH]; intros c hs Hc H0' Hmax Hrun; cbn [try_map_m] in Hrun.
  - apply ret_inv in Hrun as [E <-]. injection E as <-. by exists [].
  - apply try_ok_inv in Hrun as (h & c1 & Hd & Hrun).
    apply try_ok_inv in Hrun as (hs' & c2 & Hl & Hrun). apply ret_inv in Hrun as [E <-].
    injection E as <-. cbn [fst snd] in Hd.
    pose proof (dispatch_request_nonce _ _ _ _ _ Hc Hd) as Hn.
    destruct (dispatch_request_abs _ _ _ _ _ Hc Hd) as [Hc1 _].
    destruct (dispatch_request_run _ _ _ _ _ Hc Hd) as (b & _ & [Hh _ _]).
    cbn [length] in Hmax. unfold u64_max in Hmax.
    unfold wrap64 in Hn. rewrite Z.mod_small in Hn by lia.
    destruct (IH c1 hs') as (reqs & Hm & Hns & Hsrc); [done|lia|unfold u64_max; lia|done|].
    exists (requested d (Nonce (storage c)) (now c) :: reqs). split; [cbn; by rewrite Hh, Hm|]. split.
    + cbn [length]. rewrite seqZ_cons by lia. rewrite fmap_cons, requested_nonce, Hns, Hn.
      f_equal. f_equal; lia.
    + constructor; [apply requested_source|done].
Qed.

(** ** Responses *)

Lemma pallet_dispatch_response_run r fee c h c' :
  pallet_inv c -> dispatch_response r fee c = (Some (Ok h), c') ->
  exists req leaf b t, hash_request (pr_request r) = Some req /\ hash_post_response r = Some h /\
    is_Some (m_req_receipts (a_msgs (pallet_abs c)) !! req) /\
    Responded (storage c) !! req = None /\ fee_collected fee (bank c) b /\
    c' = mkChain (on_Responded <[req := true]>
             (on_child (ResponseCommitments.insert h (mkRequestMetadata leaf fee false)) (storage c)))
           (now c) b t
           (events c ++ [PEResponse (pr_dest_chain r) (pr_source_chain r) (pr_nonce r) h req]) (logs c).
Proof.
  intros Hc Hrun. unfold dispatch_response in Hrun.
  apply try_ok_inv in Hrun as (u & c1 & Hf & Hrun).
  apply collect_fee_run in Hf as [(_ & b & Hb & ->)|[? _]]; [|done].
  apply bind_inv in Hrun as (req & c2 & Hq & Hrun). apply or_panic_inv in Hq as [Hq ->].
  bind_gets Hrun. step_guard Hrun G1. apply negb_false_iff in G1.
  change (read _ (upd_bank (fun _ => b) c)) with
    (RequestReceipts.contains_key req (st_child (storage c))) in G1.
  rewrite contains_receipt in G1 by done. apply bool_decide_eq_true in G1.
  apply try_ok_inv in Hrun as (h' & c3 & Hd & Hrun). apply ret_inv in Hrun as [E <-].
  injection E as ->. unfold pallet_dispatch_response in Hd.
  apply bind_inv in Hd as (req' & c4 & Hq' & Hd). apply or_panic_inv in Hq' as [Hq' ->].
  change (hash_request (pr_request r) = Some req') in Hq'.
  assert (req' = req) as -> by congruence.
  bind_gets Hd. step_guard Hd G2. apply bool_decide_eq_false, eq_None_not_Some in G2.
  apply bind_inv in Hd as (h' & c4 & Hh & Hd). apply or_panic_inv in Hh as [Hh ->].
  apply bind_inv in Hd as (leaf & c4 & Hp & Hd). unfold push_leaf in Hp.
  destruct (mmr_push _ _) as [[l|] t] eqn:Et; [|done]. injection Hp as -> <-.
  unfold bind, deposit_event, modify_storage, modify, ret in Hd. injection Hd as <- <-.
  exists req, leaf, b, t. done.
Qed.

(** a response is dispatched only to a request this host has received and not
    answered; it is recorded with its fee, the request is marked as answered, and from
    then on every further dispatch of a response to that request fails. *)
Theorem dispatch_response_once r fee c h c' r2 fee2 h2 c2 :
  pallet_inv c -> dispatch_response r fee c = (Some (Ok h), c') ->
  pallet_inv c' /\
  (exists req leaf, hash_request (pr_request r) = Some req /\ hash_post_response r = Some h /\
    is_Some (m_req_receipts (a_msgs (pallet_abs c)) !! req) /\
    req ∉ m_responded (a_msgs (pallet_abs c)) /\
    pallet_abs c' = upd_msgs (fun m => set_responded (fun x => {[req]} ∪ x)
      (set_res_commitments <[h := encode (mkRequestMetadata leaf fee false)]> m)) (pallet_abs c)) /\
  (pr_request r2 = pr_request r -> dispatch_response r2 fee2 c' <> (Some (Ok h2), c2)).
Proof.
  intros Hc Hrun.
  destruct (pallet_dispatch_response_run _ _ _ _ _ Hc Hrun) as
    (req & leaf & b & t & Hq & Hh & Hrec & Hn & _ & ->).
  assert (pallet_inv (mkChain (on_Responded <[req := true]>
    (on_child (ResponseCommitments.insert h (mkRequestMetadata leaf fee false)) (storage c)))
    (now c) b t (events c ++ [PEResponse (pr_dest_chain r) (pr_source_chain r) (pr_nonce r) h req])
    (logs c))) as Hc' by by apply storage_ok_Responded, ok_insert_sc.
  split; [done|]. split.
  - exists req, leaf. split; [done|]. split; [done|]. split; [done|]. split.
    + cbn. by apply not_elem_of_dom.
    + unfold pallet_abs, upd_msgs; cbn [storage now a_cons a_msgs a_now]. f_equal.
      rewrite <- abs_insert_sc. unfold set_responded, abs_msgs; cbn. f_equal. apply dom_insert_L.
  - intros E2 Hrun2. destruct (pallet_dispatch_response_run _ _ _ _ _ Hc' Hrun2) as
      (req2 & _ & _ & _ & Hq2 & _ & _ & Hn2 & _). cbn in Hn2.
    assert (req2 = req) as -> by congruence. by rewrite lookup_insert_eq in Hn2.
Qed.

(** ** Refunds *)

Definition timeout_commitment (t : Timeout) : option H256 :=
  match t with
  | TimeoutRequest r => hash_request r
  | TimeoutResponse r => hash_post_response r
  end.

Definition commitment_stored (t : Timeout) (h : H256) c : bool :=
  match t with
  | TimeoutRequest _ => bool_decide (is_Some (RequestCommitments.get h (st_child (storage c))))
  | TimeoutResponse _ => bool_decide (is_Some (ResponseCommitments.get h (st_child (storage c))))
  end.

(** the refund reads the fee from the commitment of the message. When the inner
    module returns in a state that does not hold it, the wrapper refunds nothing: it
    does exactly what the inner module did. The timeout handlers always call the module
    after they have deleted the commitment. *)
Theorem refund_needs_commitment md t h c x c1 :
  timeout_commitment t = Some h -> on_timeout md t c = (Some x, c1) ->
  commitment_stored t h c1 = false ->
  refunding_on_timeout md t c = (Some x, c1).
Proof.
  intros Hh Hrun Hst. unfold refunding_on_timeout. rewrite (bind_some _ _ _ _ _ Hrun).
  destruct x as [[]|e]; [|done]. cbn [is_ok].
  assert (refund_metadata t c1 = (Some None, c1)) as Hm.
  { destruct t as [r|r]; cbn in Hh, Hst |- *; rewrite Hh; cbn;
      apply bool_decide_eq_false, eq_None_not_Some in Hst; unfold gets; by rewrite Hst. }
  by rewrite (bind_some _ _ _ _ _ Hm).
Qed.

(** ** Batches of messages *)

Definition add_events (l : list PalletEvent) c : St :=
  mkChain (storage c) (now c) (bank c) (tree c) (events c ++ l) (logs c).

Lemma deposit_events_run evs c us c' :
  map_m deposit_ismp_event evs c = (Some us, c') ->
  exists l, mapM pallet_event_of evs = Some l /\ c' = add_events l c.
Proof.
  revert c us. induction evs as [|e evs IH]; intros c us Hrun; cbn [map_m] in Hrun.
  - apply ret_inv in Hrun as [<- <-]. exists []. split; [done|]. unfold add_events.
    rewrite app_nil_r. by destruct c.
  - apply bind_inv in Hrun as (u & c1 & He & Hrun). apply bind_inv in Hrun as (us' & c2 & Hl & Hrun).
    apply ret_inv in Hrun as [<- <-]. unfold deposit_ismp_event in He.
    apply bind_inv in He as (pe & c3 & Hp & He). apply or_panic_inv in Hp as [Hp ->].
    unfold deposit_event, modify in He. injection He as <- <-.
    destruct (IH _ _ Hl) as (l & Hm & ->). exists (pe :: l). split; [cbn; by rewrite Hp, Hm|].
    unfold add_events; cbn. by rewrite <- app_assoc.
Qed.

(** What a successful signed call did. *)
Lemma handle_run origin msgs c c' :
  handle origin msgs c = (Some (Ok tt), c') ->
  exists who results evs l c1, origin = OriginSigned who /\
    try_map_m handle_incoming_message msgs c = (Some (Ok results), c1) /\
    concat (message_results <$> results) = Ok <$> evs /\
    mapM pallet_event_of evs = Some l /\ c' = add_events l c1.
Proof.
  unfold handle, transactional. destruct (try_bind _ _ c) as [[[[]|e]|] c1] eqn:Hrun; [|done|done].
  intros [= <-]. apply try_ok_inv in Hrun as (who & c2 & Ho & Hrun).
  apply ret_inv in Ho as [Ho <-]. destruct origin as [|w|]; try done. injection Ho as ->.
  unfold handle_messages in Hrun. apply bind_inv in Hrun as (results & c2 & Hm & Hrun).
  destruct results as [results|e]; [|by apply bind_inv in Hrun as (? & ? & _ & [? _]%ret_inv)].
  cbv zeta in Hrun. destruct (collect_results _) as [evs|e] eqn:Ec;
    [|by apply bind_inv in Hrun as (? & ? & _ & [? _]%ret_inv)].
  apply collect_results_ok in Ec.
  apply bind_inv in Hrun as (us & c3 & Hd & Hrun). apply ret_inv in Hrun as [_ <-].
  apply deposit_events_run in Hd as (l & Hl & ->).
  by exists who, results, evs, l, c2.
Qed.

(** a batch of messages is handled completely or not at all. If the call fails,
    the chain is exactly as before, its events included; if it succeeds, every message
    was handled, every module accepted its requests, responses and timeouts, and
    the events of all of them are deposited in order. *)
Theorem handle_all_or_nothing origin msgs c r c' :
  handle origin msgs c = (Some r, c') ->
  match r with
  | Err _ => c' = c
  | Ok _ => exists who results evs l c1, origin = OriginSigned who /\
      try_map_m handle_incoming_message msgs c = (Some (Ok results), c1) /\
      concat (message_results <$> results) = Ok <$> evs /\
      mapM pallet_event_of evs = Some l /\ c' = add_events l c1
  end.
Proof.
  intros Hrun. destruct r as [[]|e]; [by apply handle_run|].
  unfold handle, transactional in Hrun. destruct (try_bind _ _ c) as [[[[]|e']|] c1]; try done.
  by injection Hrun as _ <-.
Qed.

(** when a signed call with one request message succeeds, every request of the
    message has its receipt in the child trie under the relayer's name, and the event
    that it was handled is deposited, provided the commitments of the message are
    distinct and the modules keep to what a callback may do. *)
Theorem handle_delivers_requests `{!ModulesFrame} origin m c c' :
  pallet_inv c -> NoDup (post_hash <$> rm_requests m) ->
  handle origin [MsgRequest m] c = (Some (Ok tt), c') ->
  forall p, p ∈ rm_requests m -> exists h, post_hash p = Some h /\
    RequestReceipts.get h (st_child (storage c')) = Some (rm_signer m) /\
    PEPostRequestHandled (mkRequestResponseHandled h (rm_signer m)) ∈ events c'.
Proof.
  intros Hc Hnd Hrun p Hp.
  destruct (handle_run _ _ _ _ Hrun) as (who & results & evs & l & c1 & _ & Hm & Hev & Hl & ->).
  cbn [try_map_m] in Hm. apply try_ok_inv in Hm as (r & c2 & Hh & Hm).
  apply ret_inv in Hm as [E <-]. injection E as <-. cbn [handle_incoming_message] in Hh.
  pose proof (handle_request_ok (St := St) m c r c2) as Hok.
  destruct (Hok Hc Hh) as (Hv & rs & c3 & -> & Hc3 & Ha3 & Hd).
  destruct (dispatch_batch (rm_signer m) (rm_requests m) c3 rs c2 Hc3 Hnd) as (_ & _ & Hall & _);
    [intros q Hq; rewrite Ha3; by apply (rmv_requests _ _ Hv)|exact Hd|].
  cbn in Hev. rewrite app_nil_r in Hev. subst rs.
  apply list_elem_of_lookup in Hp as [i Hi].
  destruct (Forall2_lookup_l _ _ _ _ _ Hall Hi) as (x & Hx & h & Hph & Hx').
  apply list_lookup_fmap_Some in Hx as (ev & -> & Hi'). destruct Hx' as [-> Hrec].
  exists h. split; [done|]. split.
  - cbn [add_events storage]. by rewrite <- abs_lookup_rr.
  - cbn. apply elem_of_app. right. apply mapM_Some in Hl.
    destruct (Forall2_lookup_l _ _ _ _ _ Hl Hi') as (pe & Hpe & E). injection E as <-.
    by apply list_elem_of_lookup_2 in Hpe.
Qed.

(** ** Funding *)

Definition stored_metadata (m : MessageCommitment) c : option RequestMetadata :=
  match m with
  | CommitmentRequest h => RequestCommitments.get h (st_child (storage c))
  | CommitmentResponse h => ResponseCommitments.get h (st_child (storage c))
  end.

Definition put_metadata (m : MessageCommitment) (x : RequestMetadata) (s : MessageStore) : MessageStore :=
  match m with
  | CommitmentRequest h => set_req_commitments <[h := encode x]> s
  | CommitmentResponse h => set_res_commitments <[h := encode x]> s
  end.

(** funding a message that this host has sent moves exactly the amount from the
    signer to the relayer fee account and adds it to the recorded fee, and changes
    nothing else of the ISMP data; an unknown message, an unsigned origin or a failed
    transfer leave the chain as it was. *)
Theorem fund_message_functional origin p c r c' :
  pallet_inv c -> fund_message origin p c = (Some r, c') ->
  match r with
  | Err _ => c' = c
  | Ok _ => exists account m, origin = OriginSigned account /\
      stored_metadata (fmp_commitment p) c = Some m /\
      transfer account relayer_fee_account (fmp_amount p) (bank c) = Ok (bank c') /\
      pallet_inv c' /\
      pallet_abs c' = upd_msgs (put_metadata (fmp_commitment p) (add_fee (fmp_amount p) m)) (pallet_abs c)
  end.
Proof.
  intros Hc Hrun. unfold fund_message in Hrun. destruct origin as [|account|];
    try (injection Hrun as <- <-; done).
  apply try_inv in Hrun as [(e & Ho & _)|(a & c1 & Ho & Hrun)]; [done|].
  apply ret_inv in Ho as [Ho <-]. injection Ho as <-. bind_gets Hrun.
  fold (stored_metadata (fmp_commitment p) c) in Hrun. change (read _ c) with
    (stored_metadata (fmp_commitment p) c) in Hrun.
  destruct (stored_metadata (fmp_commitment p) c) as [m|] eqn:Em;
    [|apply ret_inv in Hrun as [<- <-]; done].
  apply bind_inv in Hrun as (x & c1 & Ht & Hrun). unfold currency_transfer in Ht.
  destruct (transfer _ _ _ _) as [b|e] eqn:Et; injection Ht as <- <-.
  2: { apply try_inv in Hrun as [(e' & Hr & ->)|(? & ? & Hr & _)];
         apply ret_inv in Hr as [Hr <-]; done. }
  apply try_inv in Hrun as [(e' & Hr & ->)|(u & c2 & Hr & Hrun)];
    apply ret_inv in Hr as [Hr <-]; [done|].
  apply bind_inv in Hrun as (v & c3 & Hw & Hrun). apply ret_inv in Hrun as [<- <-].
  unfold modify_storage, modify in Hw. injection Hw as _ <-. exists account, m.
  split; [done|]. split; [done|]. split; [done|]. destruct (fmp_commitment p) as [h|h]; split.
  - by apply ok_insert_rc.
  - unfold pallet_abs, upd_msgs; cbn [upd_storage upd_bank storage now a_cons a_msgs a_now put_metadata].
    by rewrite abs_insert_rc.
  - by apply ok_insert_sc.
  - unfold pallet_abs, upd_msgs; cbn [upd_storage upd_bank storage now a_cons a_msgs a_now put_metadata].
    by rewrite abs_insert_sc.
Qed.

(** ** Events *)

(** the event the pallet deposits for an event of the handlers is read back as the
    same event, except that a fisherman's address is cut at 32 bytes. *)
Theorem pallet_event_roundtrip ev pe c :
  pallet_event_of ev = Some pe ->
  (forall v, ev = EvStateCommitmentVetoed v -> (length (scv_fisherman v) <= 32)%nat) ->
  ismp_event_of pe c = Ok ev.
Proof.
  intros He Hv. destruct ev as [[id h]|[h f]|[]|[]|[]|[]|[]|[]|[]|[]|[]|[]]; cbn in He; try done;
    injection He as <-; cbn; try done.
  specialize (Hv _ eq_refl). cbn in Hv. by rewrite take_ge.
Qed.

End properties.

(** ** Module identifiers *)

(** a module id is read back from its bytes, and any bytes that are read as a
    module id are the bytes of that id. *)
Theorem module_id_roundtrip m b :
  (wf_ModuleId m -> module_from_bytes (module_to_bytes m) = Ok m) /\
  (module_from_bytes b = Ok m -> wf_ModuleId m /\ module_to_bytes m = b).
Proof.
  unfold module_from_bytes. split.
  - destruct m; cbn; by intros ->.
  - destruct (Nat.eqb_spec (length b) 8); [by intros [= <-]|].
    destruct (Nat.eqb_spec (length b) 32); [by intros [= <-]|].
    destruct (Nat.eqb_spec (length b) 20); [by intros [= <-]|done].
Qed.

(** ** The no-op tree *)

Section noop.
Context `{Keccak256, Codecs} `{!Codec Leaf} {Bank : Type} `{!Currency Bank, !Config Bank OffchainDb}.
Context `{!HeightKeys}.

(** with the no-op tree, a dispatched request is found again in the off-chain
    database by the commitment that dispatching returned, and so is its event. *)
Theorem noop_request_roundtrip (d : DispatchRequest) (fee : FeeMetadata bytes Z) (c : Chain Bank OffchainDb)
    (h : H256) (c' : Chain Bank OffchainDb) :
  pallet_inv c -> dispatch_request d fee c = (Some (Ok h), c') ->
  let req := requested d (Nonce (storage c)) (now c) in
  request h c' = Some req /\
  ismp_event_of (PERequest (request_dest_chain req) HostStateMachine (Nonce (storage c)) h) c'
  = Ok (match req with RequestPost p => EvPostRequest p | RequestGet g => EvGetRequest g end).
Proof.
  intros Hc Hrun req. destruct (dispatch_request_run _ _ _ _ _ Hc Hrun)
    as (b & _ & [Hh _ (leaf & t & Hp & Ec)]). fold req in Hh, Hp.
  assert (request h c' = Some req) as Hreq.
  { rewrite Ec. unfold request, offchain_leaf, RequestCommitments.get, RequestCommitments.insert.
    cbn [storage st_child on_child tree]. rewrite child_get_put. cbn.
    unfold hash_request in Hh. cbn in Hp. unfold noop_push in Hp. cbn [preimage] in Hp.
    destruct (encode_request req) as [e|]; [|done]. injection Hh as <-.
    unfold bind, or_panic, ret, modify in Hp. injection Hp as _ <-.
    rewrite lookup_insert_eq. cbn. by rewrite decode_encode. }
  split; [exact Hreq|]. cbn [ismp_event_of]. rewrite Hreq. by destruct req.
Qed.

End noop.
