(* ===== verification/Validation.v ===== *)
(** * Validation of unsigned batches

    [validate_unsigned] of [lib.rs]: a batch that the transaction pool accepts is
    handled when it is executed on the same state, and the tag under which the pool
    knows a batch does not depend on the order of its messages. *)

From S2P Require Import Prelude StateMachine Router Messaging Host Handlers HostSpec ChildTrie PalletTypes PalletHost Pallet PalletProps.

(** ** What programs return

    [yields P m]: every value [m] returns satisfies [P]. *)

Section yields.
Context {S : Type}.

Definition yields {A} (P : A -> Prop) (m : M S A) : Prop :=
  forall s a s', m s = (Some a, s') -> P a.

Lemma yields_ret {A} (P : A -> Prop) a : P a -> yields P (ret a).
Proof. intros HP s b s' [<- _]%ret_inv. done. Qed.

Lemma yields_bind {A B} (P : A -> Prop) (Q : B -> Prop) (m : M S A) (k : A -> M S B) :
  yields P m -> (forall a, P a -> yields Q (k a)) -> yields Q (bind m k).
Proof. intros Hm Hk s b s' (a & s1 & E1 & E2)%bind_inv. eapply Hk; eauto. Qed.

Lemma yields_any {A} (m : M S A) : yields (fun _ => True) m.
Proof. by intros s a s' _. Qed.

(** Errors are not constrained. *)
Definition on_ok {E A} (P : A -> Prop) (r : result E A) : Prop :=
  match r with Ok a => P a | Err _ => True end.

Lemma yields_try {A B E F} `{From E F} (P : A -> Prop) (Q : B -> Prop)
    (m : M S (result E A)) (k : A -> M S (result F B)) :
  yields (on_ok P) m -> (forall a, P a -> yields (on_ok Q) (k a)) -> yields (on_ok Q) (try_bind m k).
Proof.
  intros Hm Hk. eapply yields_bind; [exact Hm|]. intros [a|e] Ha; [by apply Hk|by apply yields_ret].
Qed.

Lemma yields_try_any {A B E F} `{From E F} (Q : B -> Prop)
    (m : M S (result E A)) (k : A -> M S (result F B)) :
  (forall a, yields (on_ok Q) (k a)) -> yields (on_ok Q) (try_bind m k).
Proof.
  intros Hk. apply (yields_try (fun _ => True)); [|auto]. intros s [] s' _; done.
Qed.

Lemma yields_try_map {A B E} (P : B -> Prop) (f : A -> M S (result E B)) l :
  (forall x, yields (on_ok P) (f x)) -> yields (on_ok (Forall P)) (try_map_m f l).
Proof.
  intros Hf. induction l as [|x l IH]; cbn [try_map_m]; [by apply yields_ret; constructor|].
  eapply yields_try; [apply Hf|]. intros y Hy. eapply yields_try; [apply IH|].
  intros ys Hys. apply yields_ret. by constructor.
Qed.

Lemma yields_map {A B} (P : B -> Prop) (f : A -> M S B) l :
  (forall x, yields P (f x)) -> yields (Forall P) (map_m f l).
Proof.
  intros Hf. induction l as [|x l IH]; cbn [map_m]; [by apply yields_ret; constructor|].
  eapply yields_bind; [apply Hf|]. intros y Hy. eapply yields_bind; [apply IH|].
  intros ys Hys. apply yields_ret. by constructor.
Qed.

Lemma yields_try_fold {A B E} (P : B -> Prop) (f : B -> A -> M S (result E B)) b l :
  P b -> (forall b x, P b -> yields (on_ok P) (f b x)) -> yields (on_ok P) (try_fold_m f b l).
Proof.
  intros Hb Hf. revert b Hb. induction l as [|x l IH]; intros b Hb; cbn [try_fold_m];
    [by apply yields_ret|]. eapply yields_try; [by apply Hf|]. apply IH.
Qed.
End yields.

(** ** The events of the handlers *)

Section events.
Context `{Keccak256} {St : Type} `{!IsmpHost St} `{!HeightSort}.

(** The pallet has an event for it. *)
Definition depositable (ev : Event) : Prop := is_Some (pallet_event_of ev).

(** The tail all dispatching closures share. *)
Lemma finish_yields (acc : result AnyError unit) (oh : option H256) (ev : H256 -> Event)
    (undo : DispatchResult -> M St (result AnyError DispatchResult)) :
  (forall h, depositable (ev h)) ->
  (forall res, on_ok depositable res -> yields (on_ok (on_ok depositable)) (undo res)) ->
  yields (on_ok (on_ok depositable))
    (let* res := map_ok_m acc (fun _ => let* c := or_panic oh in ret (ev c)) in
     if is_err res then undo res else ret (Ok res)).
Proof.
  intros Hev Hun. apply (yields_bind (on_ok depositable)).
  - destruct acc; cbn [map_ok_m]; [|by apply yields_ret].
    apply (yields_bind depositable); [|intros; by apply yields_ret].
    apply (yields_bind (fun _ => True)); [apply yields_any|]. intros h _. by apply yields_ret.
  - intros res Hres. destruct (is_err res); [by apply Hun|by apply yields_ret].
Qed.

Ltac handled := intros; unfold depositable; cbn; eauto.
Ltac restored := intros; repeat (case_match || (apply yields_try_any; intros)); by apply yields_ret.

Lemma dispatch_post_yields signer p : yields (on_ok depositable) (dispatch_post signer p).
Proof.
  unfold dispatch_post. apply (yields_bind (on_ok (on_ok depositable))).
  - apply yields_try_any. intros md. apply yields_try_any. intros _.
    apply (yields_bind (fun _ => True)); [apply yields_any|]. intros acc _.
    apply (finish_yields acc _ _ (fun res => let? _ := delete_request_receipt (RequestPost p) in ret (Ok res)));
      [handled|restored].
  - intros [r|e] Hr; by apply yields_ret.
Qed.

Lemma dispatch_response_yields signer r :
  yields (on_ok (on_ok depositable)) (dispatch_response_to_module signer r).
Proof.
  unfold dispatch_response_to_module. apply yields_try_any. intros md. apply yields_try_any. intros _.
  apply (yields_bind (fun _ => True)); [apply yields_any|]. intros acc _.
  apply (finish_yields acc _ _ (fun res => let? _ := delete_response_receipt r in ret (Ok res)));
    [handled|restored].
Qed.

Lemma dispatch_get_yields client st proof signer g :
  yields (on_ok (on_ok depositable)) (dispatch_get_response client st proof signer g).
Proof.
  unfold dispatch_get_response. apply yields_try_any. intros pairs. cbv zeta.
  apply yields_try_any. intros md. apply yields_try_any. intros _.
  apply (yields_bind (fun _ => True)); [apply yields_any|]. intros acc _.
  apply (finish_yields acc _ _ (fun res => let? _ := delete_response_receipt
    (ResponseGet (mkGetResponse g [])) in ret (Ok res))); [handled|restored].
Qed.

Lemma timeout_post_yields r : yields (on_ok (on_ok depositable)) (timeout_post r).
Proof.
  unfold timeout_post. cbv zeta. apply yields_try_any. intros md. apply yields_try_any. intros meta.
  apply (yields_bind (fun _ => True)); [apply yields_any|]. intros x _.
  apply (yields_bind (fun _ => True)); [apply yields_any|]. intros acc _.
  apply (finish_yields acc _ _ (fun res =>
    let? _ := store_request_commitment r meta in
    match x with
    | Some relayer =>
        if negb (bool_decide (host_state_machine = request_source_chain r))
        then let? _ := store_request_receipt r relayer in ret (Ok res) else ret (Ok res)
    | None => ret (Ok res)
    end)); [handled|restored].
Qed.

Lemma timeout_response_yields r : yields (on_ok (on_ok depositable)) (timeout_response r).
Proof.
  unfold timeout_response. cbv zeta. apply yields_try_any. intros md. apply yields_try_any. intros meta.
  apply (yields_bind (fun _ => True)); [apply yields_any|]. intros x _.
  apply (yields_bind (fun _ => True)); [apply yields_any|]. intros acc _.
  apply (finish_yields acc _ _ (fun res =>
    let? _ := store_response_commitment r meta in
    match x with
    | Some relayer =>
        if negb (bool_decide (host_state_machine = pr_source_chain r))
        then let? _ := store_response_receipt (ResponsePost r) relayer in ret (Ok res) else ret (Ok res)
    | None => ret (Ok res)
    end)); [handled|restored].
Qed.

Lemma timeout_get_yields r : yields (on_ok (on_ok depositable)) (timeout_get r).
Proof.
  unfold timeout_get. apply yields_try_any. intros md. apply yields_try_any. intros meta.
  apply (yields_bind (fun _ => True)); [apply yields_any|]. intros acc _.
  apply (finish_yields acc _ _ (fun res => let? _ := store_request_commitment r meta in ret (Ok res)));
    [handled|restored].
Qed.

Lemma update_client_yields msg :
  yields (on_ok (fun r => Forall (on_ok depositable) (message_results r))) (update_client msg).
Proof.
  unfold update_client. cbv zeta. do 6 (apply yields_try_any; intros ?).
  lazymatch goal with
  | |- context [match ?p with (_, _) => _ end] => destruct p as [new_state states]
  end.
  apply yields_try_any; intros ?. apply (yields_bind (fun _ => True)); [apply yields_any|]. intros t _.
  apply yields_try_any; intros ?. apply (yields_try (Forall depositable)).
  - apply yields_try_fold; [constructor|]. intros evs e Hevs. unfold update_state_machine. cbv zeta.
    apply yields_try_any; intros ?. apply yields_try_any; intros [latest|]; [|by apply yields_ret].
    apply yields_try_any; intros ?. apply yields_ret. apply Forall_app. split; [done|].
    constructor; [handled|constructor].
  - intros evs Hevs. apply yields_ret. cbn. by apply Forall_fmap.
Qed.

Lemma handle_incoming_message_yields msg :
  yields (on_ok (fun r => Forall (on_ok depositable) (message_results r))) (handle_incoming_message msg).
Proof.
  destruct msg as [m|m|m|m|m]; cbn [handle_incoming_message].
  - apply update_client_yields.
  - unfold freeze_client. cbv zeta. do 6 (apply yields_try_any; intros ?).
    apply (yields_bind (fun _ => True)); [apply yields_any|]. intros t _.
    apply yields_try_any; intros ?. apply yields_ret. constructor.
  - unfold handle_request. do 4 (apply yields_try_any; intros ?).
    apply (yields_bind (Forall (on_ok depositable))); [apply yields_map, dispatch_post_yields|].
    intros rs Hrs. by apply yields_ret.
  - unfold handle_response. cbv zeta. do 2 (apply yields_try_any; intros ?).
    apply (yields_try (Forall (on_ok depositable))); [|intros rs Hrs; by apply yields_ret].
    destruct (rsm_datagram m); do 2 (apply yields_try_any; intros ?); apply yields_try_map; intros.
    + apply dispatch_get_yields.
    + apply dispatch_response_yields.
  - unfold handle_timeout. apply (yields_try (Forall (on_ok depositable))); [|intros rs Hrs; by apply yields_ret].
    destruct m;
      repeat first [apply yields_try_map; intros;
                      solve [apply timeout_post_yields|apply timeout_response_yields|apply timeout_get_yields]
                   |apply yields_try_any; intros ?
                   |apply (yields_bind (fun _ => True)); [apply yields_any|]; intros ? _].
Qed.

End events.

(** ** Sorting the identifiers of a batch *)

Lemma compare_ids_lawful : lawful compare_ids.
Proof. apply lex_lawful, lex_lawful, compare_byte_lawful. Qed.

#[export] Instance ids_le_total : Total ids_le.
Proof.
  intros x y. unfold ids_le. rewrite (cmp_opp _ compare_ids_lawful x y).
  destruct (compare_ids x y); simpl; auto; by left.
Qed.

#[export] Instance ids_le_trans : Transitive ids_le.
Proof.
  intros x y z. unfold ids_le. intros Hx Hy.
  destruct (compare_ids x y) eqn:E1; [apply (cmp_eq _ compare_ids_lawful) in E1 as ->; done| |done].
  destruct (compare_ids y z) eqn:E2; [apply (cmp_eq _ compare_ids_lawful) in E2 as <-; congruence| |done].
  by rewrite (cmp_trans _ compare_ids_lawful _ _ _ E1 E2).
Qed.

#[export] Instance ids_le_antisymm : AntiSymm (=) ids_le.
Proof.
  intros x y. unfold ids_le. rewrite (cmp_opp _ compare_ids_lawful x y). intros Hx Hy.
  destruct (compare_ids x y) eqn:E; simpl in *; [by apply (cmp_eq _ compare_ids_lawful)|done|done].
Qed.

Lemma sort_ids_perm l l' : l ≡ₚ l' -> sort_ids l = sort_ids l'.
Proof.
  intros Hp. unfold sort_ids. apply (StronglySorted_unique ids_le).
  - apply StronglySorted_merge_sort; typeclasses eauto.
  - apply StronglySorted_merge_sort; typeclasses eauto.
  - by rewrite !merge_sort_Permutation.
Qed.

(** ** Validation and execution *)

Lemma collect_ok_forall {E A} (l : list (result E A)) :
  (exists v, collect_results l = Ok v) <-> Forall (fun r => is_ok r = true) l.
Proof.
  split.
  - intros [v Hv]. apply collect_results_ok in Hv as ->. apply Forall_fmap. by apply Forall_true.
  - induction 1 as [|[a|e] l Ha _ (v & IH)]; [by exists []| |done].
    exists (a :: v). apply collect_results_ok in IH as ->. by apply collect_results_ok.
Qed.

(** Validation looks at the same results as execution. *)
Lemma validated_results_ok (results : list MessageResult) v :
  collect_results (concat (validated_results <$> results)) = Ok v ->
  exists evs, collect_results (concat (message_results <$> results)) = Ok evs.
Proof.
  intros Hv. apply collect_ok_forall. assert (exists v, collect_results
    (concat (validated_results <$> results)) = Ok v) as Hall by eauto.
  apply collect_ok_forall in Hall. clear Hv. revert Hall. rewrite !Forall_concat, !Forall_fmap.
  intros Hall. eapply Forall_impl; [exact Hall|]. intros r Hr. destruct r; cbn in Hr |- *;
    try (apply Forall_fmap in Hr; eapply Forall_impl; [exact Hr|]; by intros []).
  - apply Forall_fmap. by apply Forall_true.
  - constructor.
Qed.

Section validation.
Context `{Keccak256, Codecs} `{!Codec Leaf} {Bank Tree : Type} `{!Currency Bank, !Mmr Tree, !Config Bank Tree}.
Context `{!HeightSort, !ErrorText, !ChildRoot, !Codec (list (list H256))}.

Abbreviation St := (Chain Bank Tree).

Lemma depositable_all (results : list MessageResult) evs :
  Forall (fun r => Forall (on_ok depositable) (message_results r)) results ->
  collect_results (concat (message_results <$> results)) = Ok evs -> Forall depositable evs.
Proof.
  intros Hd Hc. apply collect_results_ok in Hc.
  assert (Forall (on_ok depositable) (concat (message_results <$> results))) as Hall
    by by rewrite Forall_concat, Forall_fmap.
  rewrite Hc, Forall_fmap in Hall. exact Hall.
Qed.

Lemma deposit_all (evs : list Event) (c : St) :
  Forall depositable evs -> exists us c', map_m deposit_ismp_event evs c = (Some us, c').
Proof.
  intros Hd. revert c. induction Hd as [|e evs [pe He] _ IH]; intros c; [by eexists _, _|].
  cbn [map_m]. destruct (deposit_event pe c) as [[[]|] c1] eqn:E1; [|done].
  destruct (IH c1) as (us & c2 & E2). exists (tt :: us), c2.
  erewrite bind_some; [|unfold deposit_ismp_event; by rewrite He]. unfold deposit_event in E1.
  rewrite (bind_some _ _ _ _ _ E2). done.
Qed.

(** The tag of an accepted batch. *)
Lemma validated_tag msgs (c : St) v c1 :
  validate_unsigned (CallHandleUnsigned msgs) c = (Some (Ok v), c1) ->
  exists ids, mapM message_hashes msgs = Some ids /\ v = mkValidTransaction 100 [] [batch_tag ids] 25 true.
Proof.
  intros Hrun. cbn [validate_unsigned] in Hrun.
  apply bind_inv in Hrun as (handled & c2 & _ & Hrun).
  do 2 apply try_ok_inv in Hrun as (? & ? & _ & Hrun).
  apply bind_inv in Hrun as (ids & c3 & Hi & Hrun). apply or_panic_inv in Hi as [Hi ->].
  apply ret_inv in Hrun as [E _]. injection E as <-. eauto.
Qed.

Lemma message_hashes_fmap l ids :
  mapM message_hashes l = Some ids -> ids = (fun m => default [] (message_hashes m)) <$> l.
Proof.
  intros Hm%mapM_Some. induction Hm as [|m h l ids Hh _ IH]; [done|].
  rewrite fmap_cons, Hh, <- IH. done.
Qed.

Lemma validated_batch_handled msgs (c : St) v c1 :
  validate_unsigned (CallHandleUnsigned msgs) c = (Some (Ok v), c1) ->
  exists c', handle_unsigned OriginNone msgs c = (Some (Ok tt), c').
Proof.
  intros Hrun. cbn [validate_unsigned] in Hrun.
  apply bind_inv in Hrun as (handled & c2 & Hm & Hrun).
  apply try_ok_inv in Hrun as (results & c3 & Hr & Hrun). apply ret_inv in Hr as [Hr <-].
  destruct handled as [rs|e]; [|done]. injection Hr as ->.
  apply try_ok_inv in Hrun as (us & c3 & Hv & _). apply ret_inv in Hv as [Hv <-].
  destruct (collect_results _) as [x|e] eqn:Ec in Hv; [|done].
  destruct (validated_results_ok _ _ Ec) as [evs Hevs].
  assert (Forall depositable evs) as Hd.
  { eapply depositable_all; [|exact Hevs].
    by apply (yields_try_map _ _ msgs (fun m => handle_incoming_message_yields m) _ _ _ Hm). }
  destruct (deposit_all evs c2 Hd) as (us' & c' & Hdep). exists c'.
  unfold handle_unsigned, transactional, handle_messages. cbn [ensure_none].
  erewrite try_ok by done. erewrite bind_some by exact Hm. cbv beta iota zeta. rewrite Hevs.
  by erewrite bind_some by exact Hdep.
Qed.

(** C36: a batch that transaction validation accepts on some state is handled by an
    unsigned call on that state: it does not fail and does not panic. *)
Theorem validate_unsigned_predicts msgs (c : St) v c1 :
  validate_unsigned (CallHandleUnsigned msgs) c = (Some (Ok v), c1) ->
  exists c', handle_unsigned OriginNone msgs c = (Some (Ok tt), c').
Proof. apply validated_batch_handled. Qed.

(** the tag of an accepted batch does not depend on the order of its messages, so
    that the pool recognises a batch that is only rearranged. *)
Theorem validate_unsigned_tag_order msgs msgs' (c1 c2 : St) v1 v2 c1' c2' :
  msgs ≡ₚ msgs' ->
  validate_unsigned (CallHandleUnsigned msgs) c1 = (Some (Ok v1), c1') ->
  validate_unsigned (CallHandleUnsigned msgs') c2 = (Some (Ok v2), c2') ->
  provides v1 = provides v2.
Proof.
  intros Hp H1' H2'. apply validated_tag in H1' as (ids & Hi & ->).
  apply validated_tag in H2' as (ids' & Hi' & ->). cbn. f_equal. unfold batch_tag. do 2 f_equal.
  apply sort_ids_perm. apply message_hashes_fmap in Hi as ->, Hi' as ->. by rewrite Hp.
Qed.

End validation.
