(* ===== verification/PalletDemo.v ===== *)
(** * A concrete runtime

    A configuration of the pallet that can be evaluated: balances in a finite map, the
    no-op tree, a codec built from countability, the client of [RefHost], a module that
    accepts everything and one that fails. The theorems on the pallet are applied to it. *)

From S2P Require Import Prelude StateMachine Router Messaging Host Handlers HostSpec RefHost Frame Timeouts ChildTrie PalletTypes PalletHost PalletRefines Pallet PalletFrames PalletProps Validation.

Module PalletDemo.

(** ** Codecs *)

Fixpoint pos_bytes (p : positive) : bytes :=
  match p with
  | xH => []
  | xO p => Byte.x00 :: pos_bytes p
  | xI p => Byte.x01 :: pos_bytes p
  end.

Fixpoint bytes_pos (b : bytes) : option positive :=
  match b with
  | [] => Some xH
  | Byte.x00 :: r => xO <$> bytes_pos r
  | Byte.x01 :: r => xI <$> bytes_pos r
  | _ => None
  end.

Lemma bytes_pos_bytes p : bytes_pos (pos_bytes p) = Some p.
Proof. induction p; cbn; by rewrite ?IHp. Qed.

Program Definition countable_codec {A} `{Countable A} : Codec A := {|
  encode x := pos_bytes (countable.encode x);
  decode b := p ← bytes_pos b; countable.decode p
|}.
Next Obligation. intros. cbn. rewrite bytes_pos_bytes. apply countable.decode_encode. Qed.

#[local] Instance StateCommitment_countable : Countable StateCommitment.
Proof.
  refine (inj_countable' (fun c => (sc_timestamp c, sc_overlay_root c, sc_state_root c))
    (fun x => mkStateCommitment x.1.1 x.1.2 x.2) _). by intros [].
Defined.
#[local] Instance ResponseReceipt_eq_dec : EqDecision ResponseReceipt.
Proof. solve_decision. Defined.
#[local] Instance ResponseReceipt_countable : Countable ResponseReceipt.
Proof.
  refine (inj_countable' (fun r => (receipt_response r, receipt_relayer r))
    (fun x => mkResponseReceipt x.1 x.2) _). by intros [].
Defined.
#[local] Instance LeafIndexAndPos_eq_dec : EqDecision LeafIndexAndPos.
Proof. solve_decision. Defined.
#[local] Instance FeeMetadata_eq_dec : EqDecision (FeeMetadata bytes Z).
Proof. solve_decision. Defined.
#[local] Instance RequestMetadata_eq_dec : EqDecision RequestMetadata.
Proof. solve_decision. Defined.
#[local] Instance RequestMetadata_countable : Countable RequestMetadata.
Proof.
  refine (inj_countable' (fun m => (leaf_index (rmeta_mmr m), pos (rmeta_mmr m),
      fm_payer (rmeta_fee m), fm_fee (rmeta_fee m), rmeta_claimed m))
    (fun x => mkRequestMetadata (mkLeafIndexAndPos x.1.1.1.1 x.1.1.1.2)
      (mkFeeMetadata x.1.1.2 x.1.2) x.2) _). by intros [[] [] ].
Defined.

Program Definition bytes_codec : Codec bytes := {| encode b := b; decode b := Some b |}.
Solve Obligations with done.

Definition codecs : Codecs := {|
  codec_metadata := countable_codec;
  codec_receipt := countable_codec;
  codec_bytes := bytes_codec;
  codec_commitment := countable_codec;
  codec_height := countable_codec
|}.

#[local] Existing Instances Demo.keccak Demo.sort codecs.

#[local] Instance height_keys : HeightKeys.
Proof.
  intros h h' E. change (encode h = encode h') in E.
  apply (inj Some). by rewrite <- (decode_encode h), E, decode_encode.
Defined.

(** Requests, responses and leaves are countable. *)
#[local] Instance PostRequest_countable : Countable PostRequest.
Proof.
  refine (inj_countable' (fun p => (post_source p, post_dest p, (post_nonce p, post_from p,
      (post_to p, post_timeout_timestamp p, post_body p))))
    (fun x => mkPostRequest x.1.1 x.1.2 x.2.1.1 x.2.1.2 x.2.2.1.1 x.2.2.1.2 x.2.2.2) _). by intros [].
Defined.
#[local] Instance GetRequest_countable : Countable GetRequest.
Proof.
  refine (inj_countable' (fun g => (get_source g, get_dest g, (get_nonce g, get_from g,
      (get_keys g, get_height g, (get_context g, get_timeout_timestamp g)))))
    (fun x => mkGetRequest x.1.1 x.1.2 x.2.1.1 x.2.1.2 x.2.2.1.1 x.2.2.1.2 x.2.2.2.1 x.2.2.2.2) _).
  by intros [].
Defined.
#[local] Instance Request_countable : Countable Request.
Proof.
  refine (inj_countable' (fun r => match r with RequestPost p => inl p | RequestGet g => inr g end)
    (fun x => match x with inl p => RequestPost p | inr g => RequestGet g end) _). by intros [].
Defined.
#[local] Instance PostResponse_countable : Countable PostResponse.
Proof.
  refine (inj_countable' (fun r => (pr_post r, pr_response r, pr_timeout_timestamp r))
    (fun x => mkPostResponse x.1.1 x.1.2 x.2) _). by intros [].
Defined.
#[local] Instance StorageValue_countable : Countable StorageValue.
Proof.
  refine (inj_countable' (fun v => (sv_key v, sv_value v)) (fun x => mkStorageValue x.1 x.2) _).
  by intros [].
Defined.
#[local] Instance GetResponse_countable : Countable GetResponse.
Proof.
  refine (inj_countable' (fun r => (gr_get r, gr_values r)) (fun x => mkGetResponse x.1 x.2) _).
  by intros [].
Defined.
#[local] Instance Response_countable : Countable Response.
Proof.
  refine (inj_countable' (fun r => match r with ResponsePost p => inl p | ResponseGet g => inr g end)
    (fun x => match x with inl p => ResponsePost p | inr g => ResponseGet g end) _). by intros [].
Defined.
#[local] Instance Leaf_eq_dec : EqDecision Leaf.
Proof. solve_decision. Defined.
#[local] Instance Leaf_countable : Countable Leaf.
Proof.
  refine (inj_countable' (fun r => match r with LeafRequest p => inl p | LeafResponse g => inr g end)
    (fun x => match x with inl p => LeafRequest p | inr g => LeafResponse g end) _). by intros [].
Defined.

#[local] Instance leaf_codec : Codec Leaf := countable_codec.
#[local] Instance ids_codec : Codec (list (list H256)) := countable_codec.

(** ** Balances *)

Abbreviation Bank := (gmap bytes Z).

Definition demo_transfer (a b : bytes) (n : Z) (k : Bank) : result bytes Bank :=
  let from := default 0 (k !! a) in
  if from <? n then Err (lit "FundsUnavailable")
  else let k' := <[a := from - n]> k in Ok (<[b := default 0 (k' !! b) + n]> k').

#[local] Program Instance currency : Currency Bank := {|
  balance a k := default 0 (k !! a);
  transfer := demo_transfer
|}.
Next Obligation.
  intros a b n k k' Hne E. cbn in *. unfold demo_transfer in E.
  destruct (_ <? _); [done|]. injection E as <-. split.
  - by rewrite lookup_insert_eq, lookup_insert_ne.
  - split; [rewrite lookup_insert_ne, lookup_insert_eq by done; cbn; lia|].
    intros c Ha Hb. by rewrite !lookup_insert_ne.
Qed.

(** ** The runtime *)

Abbreviation St := (Chain Bank OffchainDb).

Definition accepting : IsmpModule St :=
  mkIsmpModule (fun _ => ret (Ok tt)) (fun _ => ret (Ok tt)) (fun _ => ret (Ok tt)).
Definition refusing : IsmpModule St :=
  let no {A} (_ : A) : M St (result AnyError unit) := ret (Err (AnyMessage (lit "no"))) in
  mkIsmpModule no no no.

#[local] Instance config : Config Bank OffchainDb := {|
  HostStateMachine := Demo.here;
  Coprocessor := Some Demo.here;
  ConsensusClients := [Demo.client];
  Router id := if decide (id = lit "to") then Ok accepting
               else if decide (id = lit "bad") then Ok refusing
               else Err (IsmpError (ModuleNotFound id));
  AdminOrigin o := match o with OriginRoot => true | _ => false end;
  relayer_fee_account := lit "fees"
|}.

#[local] Instance text : ErrorText := fun _ => lit "error".
#[local] Instance root : ChildRoot := fun _ => lit "root".

#[local] Instance modules : ModulesFrame.
Proof.
  intros id md E. cbn in E.
  case_decide; [|case_decide]; [..|done]; injection E as <-;
    (split; [|split]); intros ?; apply keeps_ret; typeclasses eauto.
Defined.

(** ** A state *)

Definition empty : Storage := mkStorage ∅ ∅ ∅ ∅ ∅ ∅ ∅ ∅ ∅ ∅ ∅ 0 (lit "root").

(** The client knows two heights of [Demo.there], of seconds 30 and 2500. *)
Definition consensus (s : Storage) : Storage :=
  state_commitments_insert (Demo.at_height 4) (Demo.commitment 2500)
    (state_commitments_insert (Demo.at_height 3) (Demo.commitment 30)
      (on_StateMachineUpdateTime (fun _ => <[Demo.at_height 4 := 100]> {[ Demo.at_height 3 := 100 ]})
        (on_ChallengePeriod (fun _ => {[ Demo.there_id := 60 ]})
          (on_ConsensusStateClient (fun _ => {[ Demo.csid := Demo.ccid ]}) s)))).

Definition chain (t : Duration) : St :=
  mkChain (consensus empty) t {[ lit "payer" := 1000 ]} ∅ [] [].
Definition init : St := chain (from_secs 1000).

Lemma empty_ok : storage_ok empty.
Proof.
  split; try (intros h b; cbn; by rewrite lookup_empty).
  intros h. unfold child_get. cbn. by rewrite !lookup_empty.
Defined.

Lemma init_ok : pallet_inv init.
Proof.
  apply ok_state_insert, ok_state_insert. by eapply ok_same; [| |apply empty_ok].
Defined.

(** ** Witnesses *)

Definition fee : FeeMetadata bytes Z := mkFeeMetadata (lit "payer") 100.
Definition ping : DispatchRequest :=
  DispatchPostRequest (mkDispatchPost Demo.there (lit "to") (lit "them") 500 (lit "ping")).
Definition ping_request : Request := requested ping 0 (from_secs 1000).
Definition hash (r : Request) : H256 := default [] (hash_request r).

Definition sent : St := snd (dispatch_request ping fee init).

Lemma sent_run : dispatch_request ping fee init = (Some (Ok (hash ping_request)), sent).
Proof. apply (run_eq (dispatch_request ping fee) init). vm_compute. reflexivity. Defined.

Lemma pallet_refines_host_witness :
  implements pallet_abs pallet_inv (request_receipt ping_request) (spec_request_receipt ping_request).
Proof. exact (proj1 (proj2 (proj2 (pallet_refines_host (Bank := Bank) (Tree := OffchainDb)))) ping_request). Defined.

Lemma dispatch_request_functional_witness :
  balance (lit "fees") (bank sent) = balance (lit "fees") (bank init) + 100.
Proof.
  destruct (dispatch_request_functional ping fee init (hash ping_request) sent init_ok sent_run)
    as (_ & _ & _ & _ & _ & Hb).
  apply Hb. discriminate.
Defined.

Lemma dispatch_nonces_consecutive_witness :
  exists reqs, request_nonce <$> reqs = [0; 1].
Proof.
  destruct (dispatch_nonces_consecutive [(ping, fee); (ping, fee)] init
    [hash ping_request; hash (requested ping 1 (from_secs 1000))]
    (snd (try_map_m (fun d => dispatch_request d.1 d.2) [(ping, fee); (ping, fee)] init)) init_ok)
    as (reqs & _ & Hn & _).
  - vm_compute. discriminate.
  - vm_compute. discriminate.
  - apply (run_eq (try_map_m (fun d => dispatch_request d.1 d.2) [(ping, fee); (ping, fee)]) init).
    vm_compute. reflexivity.
  - exists reqs. exact Hn.
Defined.

(** An incoming request, delivered and answered. *)
Definition incoming : PostRequest := Demo.post (lit "to") 1.
Definition request_msg : RequestMessage :=
  mkRequestMessage [incoming] Demo.proof_ok (lit "relayer").
Definition received : St := snd (handle (OriginSigned (lit "payer")) [MsgRequest request_msg] init).

Lemma received_run :
  handle (OriginSigned (lit "payer")) [MsgRequest request_msg] init = (Some (Ok tt), received).
Proof.
  apply (run_eq (handle (OriginSigned (lit "payer")) [MsgRequest request_msg]) init).
  vm_compute. reflexivity.
Defined.

Lemma handle_delivers_requests_witness :
  exists h, RequestReceipts.get h (st_child (storage received)) = Some (lit "relayer").
Proof.
  destruct (handle_delivers_requests (OriginSigned (lit "payer")) request_msg init received init_ok)
    with (p := incoming) as (h & _ & Hr & _).
  - apply (bool_decide_unpack _). vm_compute. exact I.
  - exact received_run.
  - left.
  - exists h. exact Hr.
Defined.

Lemma handle_all_or_nothing_witness :
  exists results, fst (try_map_m handle_incoming_message [MsgRequest request_msg] init)
    = Some (Ok results).
Proof.
  destruct (handle_all_or_nothing (OriginSigned (lit "payer")) [MsgRequest request_msg] init
    (Ok tt) received received_run) as (who & results & evs & l & c1 & _ & Hm & _).
  exists results. by rewrite Hm.
Defined.

Definition reply : PostResponse := mkPostResponse incoming (lit "pong") 2000.
Definition reply_hash : H256 := default [] (hash_post_response reply).

(** The chain with the receipt of the incoming request. *)
Definition with_receipt : St :=
  upd_storage (on_child (RequestReceipts.insert (hash (RequestPost incoming)) (lit "relayer"))) init.

Lemma with_receipt_ok : pallet_inv with_receipt.
Proof. apply ok_insert_rr, init_ok. Defined.

Definition replied : St := snd (dispatch_response reply fee with_receipt).

Lemma dispatch_response_once_witness :
  dispatch_response reply fee replied <> (Some (Ok reply_hash), replied).
Proof.
  refine (proj2 (proj2 (dispatch_response_once reply fee with_receipt reply_hash replied reply fee
    reply_hash replied with_receipt_ok _)) eq_refl).
  apply (run_eq (dispatch_response reply fee) with_receipt). vm_compute. reflexivity.
Defined.

Lemma refund_needs_commitment_witness :
  refunding_on_timeout accepting (TimeoutRequest ping_request) init = (Some (Ok tt), init).
Proof.
  apply (refund_needs_commitment accepting (TimeoutRequest ping_request) (hash ping_request)).
  - vm_compute. reflexivity.
  - reflexivity.
  - vm_compute. reflexivity.
Defined.

Definition funding : FundMessageParams := mkFundMessageParams (CommitmentRequest (hash ping_request)) 50.
Definition funded : St := snd (fund_message (OriginSigned (lit "payer")) funding sent).

Lemma fund_message_functional_witness :
  exists m, stored_metadata (CommitmentRequest (hash ping_request)) sent = Some m.
Proof.
  destruct (fund_message_functional (OriginSigned (lit "payer")) funding sent (Ok tt) funded
    (proj1 (dispatch_request_abs ping fee init _ sent init_ok sent_run))) as (a & m & _ & Hm & _).
  - apply (run_eq (fund_message (OriginSigned (lit "payer")) funding) sent). vm_compute. reflexivity.
  - exists m. exact Hm.
Defined.

Lemma pallet_event_roundtrip_witness :
  ismp_event_of (PEStateMachineUpdated Demo.there_id 9) init
  = Ok (EvStateMachineUpdated (mkStateMachineUpdated Demo.there_id 9)).
Proof.
  apply (pallet_event_roundtrip (EvStateMachineUpdated (mkStateMachineUpdated Demo.there_id 9))).
  - reflexivity.
  - intros v E. discriminate.
Defined.

Lemma noop_request_roundtrip_witness : request (hash ping_request) sent = Some ping_request.
Proof.
  exact (proj1 (noop_request_roundtrip ping fee init (hash ping_request) sent init_ok sent_run)).
Defined.

Lemma validate_unsigned_predicts_witness :
  exists c', handle_unsigned OriginNone [MsgRequest request_msg] init = (Some (Ok tt), c').
Proof.
  apply (validate_unsigned_predicts [MsgRequest request_msg] init
    (mkValidTransaction 100 [] [batch_tag [[hash (RequestPost incoming)]]] 25 true)
    (snd (validate_unsigned (CallHandleUnsigned [MsgRequest request_msg]) init))).
  apply (run_eq (validate_unsigned (CallHandleUnsigned [MsgRequest request_msg])) init).
  vm_compute. reflexivity.
Defined.

Definition other_msg : RequestMessage :=
  mkRequestMessage [Demo.post (lit "to") 2] Demo.proof_ok (lit "relayer").
Definition batch1 : list Message := [MsgRequest request_msg; MsgRequest other_msg].
Definition batch2 : list Message := [MsgRequest other_msg; MsgRequest request_msg].
Definition ids1 : list (list H256) :=
  [[hash (RequestPost incoming)]; [hash (RequestPost (Demo.post (lit "to") 2))]].
Definition ids2 : list (list H256) := reverse ids1.

Lemma validate_unsigned_tag_order_witness : [batch_tag ids1] = [batch_tag ids2].
Proof.
  apply (validate_unsigned_tag_order batch1 batch2 init init
    (mkValidTransaction 100 [] [batch_tag ids1] 25 true)
    (mkValidTransaction 100 [] [batch_tag ids2] 25 true)
    (snd (validate_unsigned (CallHandleUnsigned batch1) init))
    (snd (validate_unsigned (CallHandleUnsigned batch2) init))).
  - apply Permutation_swap.
  - apply (run_eq (validate_unsigned (CallHandleUnsigned batch1)) init). vm_compute. reflexivity.
  - apply (run_eq (validate_unsigned (CallHandleUnsigned batch2)) init). vm_compute. reflexivity.
Defined.

(** ** Refunds *)

(** The chain after the request has expired at its destination. *)
Definition later : St :=
  mkChain (storage sent) (from_secs 3000) (bank sent) (tree sent) (events sent) (logs sent).
Definition timed_out_run : option (result DispatchError unit) * St :=
  handle (OriginSigned (lit "payer"))
    [MsgTimeout (TMPost [ping_request] (mkProof (Demo.at_height 4) (lit "ok")))] later.

(** a dispatched request is paid for, expires and is timed out successfully, and
    its fee stays on the relayer fee account: the payer is not refunded, although the
    router wraps every module to refund relayer fees on a timeout. *)
Theorem timeout_keeps_fee :
  balance (lit "payer") (bank init) = 1000 /\
  fst timed_out_run = Some (Ok tt) /\
  balance (lit "payer") (bank (snd timed_out_run)) = 900 /\
  balance (lit "fees") (bank (snd timed_out_run)) = 100.
Proof. split; [|split; [|split]]; vm_compute; reflexivity. Qed.

End PalletDemo.
