(* ===== verification/SubstrateMachine.v ===== *)
(** * State proofs of Substrate chains

    [state-machines/substrate/src/lib.rs]: the [StateMachineClient] that checks Merkle
    proofs of the child trie of pallet-ismp, and the reading of a header's digest. The trie
    itself is the library [sp_trie]. *)

From S2P Require Import Prelude StateMachine Router Messaging Host ChildTrie PalletTypes.

(** ** Data *)

Inductive HashAlgorithm : Type := Keccak | Blake2.

Record StateMachineProof : Type := mkStateMachineProof {
  smp_hasher : HashAlgorithm;
  smp_storage_proof : list bytes
}.

Inductive SubstrateStateProof : Type :=
| OverlayProof (p : StateMachineProof)
| StateProof (p : StateMachineProof).

Definition proof_hasher (p : SubstrateStateProof) : HashAlgorithm :=
  match p with OverlayProof p => smp_hasher p | StateProof p => smp_hasher p end.

Definition storage_proof (p : SubstrateStateProof) : list bytes :=
  match p with OverlayProof p => smp_storage_proof p | StateProof p => smp_storage_proof p end.

(** ** The library *)

(** Reading a trie with the given root from the nodes of a proof ([sp_trie], [LayoutV0]),
    whether the root is among the nodes, and the texts of the errors: of a read, and of
    decoding the given bytes. *)
Class TrieDb : Type := {
  trie_get : HashAlgorithm -> list bytes -> H256 -> bytes -> result bytes (option bytes);
  trie_contains : HashAlgorithm -> list bytes -> H256 -> bool;
  decode_text : bytes -> bytes
}.

(** [{:?}] of a [Vec<u8>]. *)
Definition debug_vec (l : bytes) : bytes := lit "[" ++ debug_list l ++ lit "]".

(** ** The client *)

Section client.
Context `{Keccak256} `{!Codec SubstrateStateProof} `{!TrieDb} {St : Type}.

(** [T::Coprocessor] *)
Variable Coprocessor : option StateMachine.

Definition no_child_root : Error :=
  Custom (lit "Child trie root is not available for provided state commitment").

Definition decode_state_proof (proof : Proof_) : result Error SubstrateStateProof :=
  ok_or (decode (proof_bytes proof))
    (Custom (lit "failed to decode proof: " ++ decode_text (proof_bytes proof))).

(** The root of the child trie: on hyperbridge it is the state root of the commitment. *)
Definition overlay_proof_root (state : StateCommitment) (proof : Proof_) : result Error H256 :=
  if bool_decide (Coprocessor = Some (smi_state_id (smh_id (proof_height proof))))
  then Ok (sc_state_root state)
  else ok_or (sc_overlay_root state) no_child_root.

(** The keys of the commitments; hashing an item may panic. *)
Definition membership_keys (item : RequestResponse) : option (list bytes) :=
  match item with
  | RRRequest requests =>
      mapM (fun r => request_commitment_storage_key <$> hash_request r) requests
  | RRResponse responses =>
      mapM (fun r => response_commitment_storage_key <$> hash_response r) responses
  end.

Definition read_error (e : bytes) : Error := Custom (lit "Error reading state proof: " ++ e).

Definition read_member (p : SubstrateStateProof) (root : H256) (key : bytes) :
    V Error (bytes * bytes) :=
  let! value := vlift (map_err read_error (trie_get (proof_hasher p) (storage_proof p) root key)) in
  let! value := vlift (ok_or value (Custom
      (lit "Every key in a membership proof should have a value, found a key " ++ debug_vec key
         ++ lit " with None"))) in
  vret (key, value).

Definition substrate_verify_membership (item : RequestResponse) (state : StateCommitment)
    (proof : Proof_) : V Error unit :=
  let! state_proof := vlift (decode_state_proof proof) in
  let! _ := vguard (match state_proof with OverlayProof _ => false | StateProof _ => true end)
      (Custom (lit "Expected Overlay Proof")) in
  let! root := vlift (overlay_proof_root state proof) in
  get! keys := membership_keys item in
  let! _ := vmap (read_member state_proof root) keys in
  vret tt.

(** The key of a receipt: only POST messages have one. *)
Definition substrate_receipts_state_trie_key (items : RequestResponse) : option (list bytes) :=
  (fun ks : list (list bytes) => concat ks) <$>
  match items with
  | RRRequest requests =>
      mapM (fun req =>
        match req with
        | RequestPost _ => commitment ← hash_request req; Some [request_receipt_storage_key commitment]
        | RequestGet _ => Some []
        end) requests
  | RRResponse responses =>
      mapM (fun res =>
        match res with
        | ResponsePost post_response =>
            commitment ← hash_post_response post_response;
            Some [response_receipt_storage_key commitment]
        | ResponseGet _ => Some []
        end) responses
  end.

Definition read_value (p : SubstrateStateProof) (root : H256) (key : bytes) :
    V Error (bytes * option bytes) :=
  let! value := vlift (map_err read_error (trie_get (proof_hasher p) (storage_proof p) root key)) in
  vret (key, value).

Definition state_proof_root (p : SubstrateStateProof) (root : StateCommitment) (proof : Proof_) :
    result Error H256 :=
  match p with
  | OverlayProof _ => overlay_proof_root root proof
  | StateProof _ => Ok (sc_state_root root)
  end.

Definition substrate_verify_state_proof (keys : list bytes) (root : StateCommitment)
    (proof : Proof_) : V Error (list (bytes * option bytes)) :=
  let! state_proof := vlift (decode_state_proof proof) in
  let! root := vlift (state_proof_root state_proof root proof) in
  let! data := vmap (read_value state_proof root) keys in
  vret (btree_collect compare_bytes data).

Definition substrate_state_machine : StateMachineClient St := {|
  verify_membership _ := substrate_verify_membership;
  receipts_state_trie_key := substrate_receipts_state_trie_key;
  verify_state_proof _ := substrate_verify_state_proof
|}.

End client.

(** [read_proof_check]: the values under the keys, decoded as byte strings. *)
Definition read_proof_check `{!TrieDb, !Codec bytes} (alg : HashAlgorithm) (root : H256)
    (proof : list bytes) (keys : list bytes) : V Error (list (bytes * option bytes)) :=
  let! _ := vguard (negb (trie_contains alg proof root)) (Custom (lit "Invalid Proof")) in
  let! result := vmap (fun key =>
    let! value := vlift (map_err (fun e => Custom (lit "Error reading from trie: " ++ e))
        (trie_get alg proof root key)) in
    vret (key, value ≫= decode)) keys in
  vret (btree_collect compare_bytes result).

(** ** Digests *)

(** [sp_runtime::DigestItem] *)
Inductive DigestItem : Type :=
| PreRuntime (consensus_engine_id value : bytes)
| DigestConsensus (consensus_engine_id value : bytes)
| DigestSeal (consensus_engine_id value : bytes)
| DigestOther (value : bytes)
| RuntimeEnvironmentUpdated.

Definition AURA_ENGINE_ID : bytes := lit "aura".
Definition BABE_ENGINE_ID : bytes := lit "BABE".
Definition ISMP_ID : bytes := lit "ISMP".

(** The slot of an Aura and of a Babe pre-digest. *)
Class SlotCodec : Type := {
  decode_aura_slot : bytes -> option Z;
  decode_babe_slot : bytes -> option Z
}.

Record DigestResult : Type := mkDigestResult {
  dr_timestamp : Z;
  dr_ismp_digest : ConsensusDigest
}.

Definition digest_default : DigestResult :=
  mkDigestResult 0 (mkConsensusDigest (replicate 32 Byte.x00) (replicate 32 Byte.x00)).

(** [Duration::from_millis(slot * slot_duration).as_secs()] on 64-bit integers. *)
Definition slot_time (slot slot_duration : Z) : Z := wrap64 (slot * slot_duration) / 1000.

Section digest.
Context `{!TrieDb, !SlotCodec, !Codec ConsensusDigest}.

Definition read_digest_item (slot_duration : Z) (digest_result : DigestResult) (item : DigestItem) :
    V Error DigestResult :=
  match item with
  | PreRuntime id value =>
      if bool_decide (id = AURA_ENGINE_ID) then
        let! slot := vlift (ok_or (decode_aura_slot value)
            (Custom (lit "Cannot slot: " ++ decode_text value))) in
        vret (mkDigestResult (slot_time slot slot_duration) (dr_ismp_digest digest_result))
      else if bool_decide (id = BABE_ENGINE_ID) then
        let! slot := vlift (ok_or (decode_babe_slot value)
            (Custom (lit "Cannot slot: " ++ decode_text value))) in
        vret (mkDigestResult (slot_time slot slot_duration) (dr_ismp_digest digest_result))
      else vret digest_result
  | DigestConsensus id value =>
      if bool_decide (id = ISMP_ID) then
        let! digest := vlift (ok_or (decode value)
            (Custom (lit "Failed to decode digest: " ++ decode_text value))) in
        vret (mkDigestResult (dr_timestamp digest_result) digest)
      else vret digest_result
  | _ => vret digest_result
  end.

Definition fetch_overlay_root_and_timestamp (digest : list DigestItem) (slot_duration : Z) :
    V Error DigestResult :=
  vfold (read_digest_item slot_duration) digest_default digest.

End digest.
