(* ===== verification/TwoChains.v ===== *)
(** * Two chains

    What a host may conclude about another chain that runs pallet-ismp, when it verifies
    that chain's proofs with the Substrate client: the composition of the handlers, the
    client ([SubstrateMachine]) and the child trie of the pallet. The Merkle tries are
    assumed to be sound: what a proof shows under a root is what the trie with that root
    holds. *)

From S2P Require Import Prelude StateMachine Router Messaging Host Handlers HostSpec Frame Requests Responses Timeouts ChildTrie PalletTypes PalletHost PalletRefines SubstrateMachine.

(** [commits root t]: [root] is the root of the trie [t]. *)
Class TrieSound `{!TrieDb} (commits : H256 -> Trie -> Prop) : Prop :=
  trie_get_sound alg nodes root t key v :
    commits root t -> trie_get alg nodes root key = Ok v -> v = t !! key.

(** ** The client *)

Section client.
Context `{Keccak256} `{!Codec SubstrateStateProof} `{!TrieDb}.
Context (commits : H256 -> Trie -> Prop) `{!TrieSound commits}.
Variable Coprocessor : option StateMachine.

(** The root at which [proof] is read is that of the trie [t]. *)
Definition reads_trie (c : StateCommitment) (proof : Proof_) (t : Trie) : Prop :=
  forall sp root, decode_state_proof proof = Ok sp ->
    state_proof_root Coprocessor sp c proof = Ok root -> commits root t.

Lemma read_value_ok p root key kv t :
  commits root t -> read_value p root key = Some (Ok kv) -> kv = (key, t !! key).
Proof.
  intros Hc Hr. unfold read_value in Hr. vstep Hr v Hv. apply vret_ok in Hr as <-.
  apply vlift_ok, map_err_ok in Hv. f_equal. by eapply trie_get_sound.
Qed.

Lemma read_member_ok p root key kv t :
  commits root t -> read_member p root key = Some (Ok kv) -> t !! key = Some kv.2.
Proof.
  intros Hc Hr. unfold read_member in Hr. vstep Hr v Hv. vstep Hr b Hb. apply vret_ok in Hr as <-.
  apply vlift_ok, map_err_ok in Hv. apply vlift_ok, ok_or_ok in Hb as ->. cbn. symmetry.
  by eapply trie_get_sound.
Qed.

(** A verified membership proof: every key is in the trie. *)
Lemma membership_sound item c proof t keys :
  substrate_verify_membership Coprocessor item c proof = Some (Ok tt) -> reads_trie c proof t ->
  membership_keys item = Some keys -> Forall (fun key => is_Some (t !! key)) keys.
Proof.
  intros Hv Hr Hk. unfold substrate_verify_membership in Hv.
  vstep Hv sp Hsp. apply vlift_ok in Hsp. vcheck Hv Ho. vstep Hv root Hroot. apply vlift_ok in Hroot.
  apply vget_ok in Hv as (keys' & Hk' & Hv). rewrite Hk in Hk'. injection Hk' as <-.
  vstep Hv vs Hvs. apply vmap_ok in Hvs.
  assert (commits root t) as Hc.
  { apply (Hr sp); [done|]. by destruct sp. }
  clear - Hvs Hc TrieSound0. induction Hvs as [|k kv ks vs Hk _ IH]; constructor; [|done].
  rewrite (read_member_ok _ _ _ _ _ Hc Hk). eauto.
Qed.

(** A verified state proof: the values are those of the trie. *)
Lemma state_proof_sound keys c proof t values :
  substrate_verify_state_proof Coprocessor keys c proof = Some (Ok values) -> reads_trie c proof t ->
  forall key, key ∈ keys -> (key, t !! key) ∈ values.
Proof.
  intros Hv Hr key Hkey. unfold substrate_verify_state_proof in Hv.
  vstep Hv sp Hsp. apply vlift_ok in Hsp. vstep Hv root Hroot. apply vlift_ok in Hroot.
  vstep Hv data Hd. apply vret_ok in Hv as <-. apply vmap_ok in Hd.
  pose proof (Hr _ _ Hsp Hroot) as Hc.
  assert (data = (fun k => (k, t !! k)) <$> keys) as ->.
  { clear - Hd Hc TrieSound0. induction Hd as [|k kv ks vs Hk _ IH]; [done|].
    cbn. rewrite (read_value_ok _ _ _ _ _ Hc Hk). by f_equal. }
  rewrite btree_collect_fun by apply compare_bytes_lawful.
  apply list_elem_of_fmap. exists key. split; [done|].
  apply btree_collect_keys; [apply compare_bytes_lawful|]. rewrite <- list_fmap_compose.
  apply list_elem_of_fmap. by exists key.
Qed.

End client.

(** ** A host and a chain *)

Section two_chains.
Context `{Keccak256, Codecs} `{!Codec SubstrateStateProof} `{!TrieDb}.
Context (commits : H256 -> Trie -> Prop) `{!TrieSound commits}.
Context {A : Type} `{!IsmpHost A} `{!HeightSort} `{!HostModel A} `{!RouterFrame A}.
Context {Bank Tree : Type} `{!Currency Bank, !Mmr Tree, !Config Bank Tree, !HeightKeys}.
Variable Coprocessor : option StateMachine.

Abbreviation B := (Chain Bank Tree).

(** The host [s] verifies proofs at the height with the Substrate client, and the
    commitment it has recorded there is of the state [b] of the other chain. *)
Record observes (s : A) (proof : Proof_) (b : B) : Prop := {
  obs_client client : proof_valid (abs s) (proof_height proof) client ->
    client = substrate_state_machine Coprocessor;
  obs_root c : c_commitments (a_cons (abs s)) !! proof_height proof = Some c ->
    reads_trie commits Coprocessor c proof (st_child (storage b))
}.

Lemma mapM_elem {X Y} (f : X -> option Y) l k x :
  mapM f l = Some k -> x ∈ l -> exists y, f x = Some y /\ y ∈ k.
Proof.
  intros Hm Hx. apply mapM_Some_1 in Hm. induction Hm as [|a y l k Hy _ IH].
  - by apply elem_of_nil in Hx.
  - apply elem_of_cons in Hx as [->|Hx]; [exists y; by split; [|left]|].
    destruct (IH Hx) as (z & ? & ?). exists z. by split; [|right].
Qed.

(** The keys of the receipts of a list of requests. *)
Lemma receipt_keys_elem requests keys p h :
  substrate_receipts_state_trie_key (RRRequest requests) = Some keys ->
  RequestPost p ∈ requests -> post_hash p = Some h -> request_receipt_storage_key h ∈ keys.
Proof.
  intros Hk Hp Hh. unfold substrate_receipts_state_trie_key in Hk. apply fmap_Some in Hk as (ks & Hk & ->).
  destruct (mapM_elem _ _ _ _ Hk Hp) as (y & Hy & Hin).
  unfold post_hash in Hh. rewrite Hh in Hy. injection Hy as <-.
  apply list_elem_of_In, in_concat. eexists. split; [by apply list_elem_of_In|]. by left.
Qed.

(** The trie and the abstract tables of the pallet. *)
Lemma req_commitment_in_trie (b : B) h :
  pallet_inv b -> is_Some (st_child (storage b) !! request_commitment_storage_key h) ->
  is_Some (m_req_commitments (a_msgs (pallet_abs b)) !! h).
Proof.
  intros Hb [v Hv]. cbn. rewrite lookup_table.
  change (lit "RequestCommitments" ++ h) with (request_commitment_storage_key h). rewrite Hv. cbn.
  unfold canonical. apply fmap_is_Some. by eapply (ok_req_commitments _ Hb).
Qed.

Lemma req_receipt_not_in_trie (b : B) h :
  st_child (storage b) !! request_receipt_storage_key h = None ->
  m_req_receipts (a_msgs (pallet_abs b)) !! h = None.
Proof.
  intros Hn. cbn. rewrite lookup_table.
  change (lit "RequestReceipts" ++ h) with (request_receipt_storage_key h). by rewrite Hn.
Qed.

(** C20: requests that a host accepts from another chain were dispatched there: each has
    a commitment in the state of the chain that the proof is about. *)
Theorem handled_requests_were_sent msg (s : A) r s' (b : B) :
  inv s -> pallet_inv b -> handle_request msg s = (Some (Ok r), s') -> observes s (rm_proof msg) b ->
  forall p, p ∈ rm_requests msg ->
    exists h, post_hash p = Some h /\ is_Some (m_req_commitments (a_msgs (pallet_abs b)) !! h).
Proof.
  intros Hs Hb Hrun [Hcl Hroot] p Hp.
  destruct (handle_request_ok _ _ _ _ Hs Hrun) as (Hv & _).
  destruct (rmv_proof _ _ Hv) as (client & c & s1 & Hpv & Hc & _ & Hm).
  rewrite (Hcl _ Hpv) in Hm. cbn [verify_membership substrate_state_machine] in Hm.
  destruct (rmv_requests _ _ Hv p Hp) as [(h & Hh & _) _ _ _].
  exists h. split; [done|].
  destruct (membership_keys (RRRequest (RequestPost <$> rm_requests msg))) as [keys|] eqn:Hk.
  - pose proof (membership_sound commits _ _ _ _ _ _ Hm (Hroot _ Hc) Hk) as Hall.
    unfold membership_keys in Hk. destruct (mapM_elem _ _ _ (RequestPost p) Hk) as (key & Hkey & Hin).
    { by apply list_elem_of_fmap_2. }
    unfold post_hash in Hh. rewrite Hh in Hkey. injection Hkey as <-.
    apply req_commitment_in_trie; [done|]. by eapply Forall_forall in Hall.
  - exfalso. unfold substrate_verify_membership in Hm.
    vstep Hm sp Hsp. vcheck Hm Ho. vstep Hm root Hr. by rewrite Hk in Hm.
Qed.

(** C3: a POST request is timed out or delivered, not both. When a host times requests
    out with a proof of the destination's child trie, then in that state of the
    destination none of them has a receipt, and the destination refuses every message
    that carries one of them from then on, without any effect: whenever its clock is not
    behind the time of that state. *)
Theorem timed_out_never_delivered requests proof (s : A) r s' (b : B) c :
  inv s -> pallet_inv b -> handle_timeout (TMPost requests proof) s = (Some (Ok r), s') ->
  observes s proof b -> c_commitments (a_cons (abs s)) !! proof_height proof = Some c ->
  forall p, RequestPost p ∈ requests ->
    (exists h, post_hash p = Some h /\ m_req_receipts (a_msgs (pallet_abs b)) !! h = None) /\
    forall (b' : B) msg o b'', pallet_inv b' -> commitment_timestamp c <= timestamp b' ->
      p ∈ rm_requests msg -> handle_request msg b' = (o, b'') ->
      pallet_abs b'' = pallet_abs b' /\ forall x, o <> Some (Ok x).
Proof.
  intros Hs Hb Hrun [Hcl Hroot] Hc p Hp.
  destruct (handle_timeout_checked _ _ _ _ Hs Hrun) as [[Ho _]|(Hv & _)]; [by destruct (Ho r)|].
  destruct Hv as (client & c' & Hpv & Hc' & Hall & (s1 & keys & values & _ & Hkeys & Hvs & Hnone)).
  rewrite Hc in Hc'. injection Hc' as <-. rewrite (Hcl _ Hpv) in Hkeys, Hvs.
  cbn [verify_state_proof receipts_state_trie_key substrate_state_machine] in Hkeys, Hvs.
  destruct (Hall _ Hp) as [(h & Hh & _) _ Htime]. split.
  - exists h. split; [done|]. apply req_receipt_not_in_trie.
    pose proof (state_proof_sound commits _ _ _ _ _ _ Hvs (Hroot _ Hc) (request_receipt_storage_key h)
      (receipt_keys_elem _ _ _ _ Hkeys Hp Hh)) as Hin.
    eapply Forall_forall in Hnone; [|exact Hin]. done.
  - intros b' msg o b'' Hb' Hle Hin Hreq. assert (inv b') as Hi by exact Hb'.
    assert (~ request_message_valid msg b') as Hnv.
    { intros Hv. destruct (rmv_requests _ _ Hv p Hin) as [_ Ht _ _].
      pose proof (request_timed_out_mono _ _ _ Hle Htime) as Hlate.
      rewrite (timestamp_abs b') in Hlate. by rewrite Hlate in Ht. }
    assert (forall x, o <> Some (Ok x)) as Hno.
    { intros x ->. by destruct (handle_request_ok _ _ _ _ Hi Hreq) as (Hv & _). }
    split; [|done]. destruct (handle_request_stopped _ _ _ _ Hi Hreq Hno)
      as [Ha|[_ Hv]]; [exact Ha|done].
Qed.

End two_chains.
