(* ===== verification/TwoChainsDemo.v ===== *)
(** * Two concrete chains

    The runtime of [PalletDemo], and a reference host that verifies its proofs with the
    Substrate client. The trie library is instantiated by a table of roots. The theorems
    of [TwoChains] are applied to them, and two ways around them are shown. *)

From S2P Require Import Prelude StateMachine Router Messaging Host Handlers HostSpec RefHost Frame Requests Responses Timeouts ChildTrie PalletTypes PalletHost PalletRefines Pallet PalletDemo SubstrateMachine TwoChains.

Module TwoChainsDemo.
Import PalletDemo.
#[local] Existing Instances Demo.keccak Demo.sort PalletDemo.codecs PalletDemo.height_keys PalletDemo.currency PalletDemo.config PalletDemo.text PalletDemo.root PalletDemo.leaf_codec.

(** ** The trie library *)

Definition child_label : H256 := lit "child root".
Definition state_label : H256 := lit "state root".

(** The two tries of a chain: its child trie, and its state trie, which holds no key of
    the child trie. *)
Definition tries (child : Trie) : TrieDb := {|
  trie_get _ _ root key :=
    if decide (root = child_label) then Ok (child !! key)
    else if decide (root = state_label) then Ok None
    else Err (lit "unknown root");
  trie_contains _ _ root := bool_decide (root = child_label \/ root = state_label);
  decode_text _ := lit "error"
|}.

Definition root_of (child : Trie) (root : H256) (t : Trie) : Prop :=
  (root = child_label /\ t = child) \/ (root = state_label /\ t = ∅).

Lemma tries_sound child : @TrieSound (tries child) (root_of child).
Proof.
  intros alg nodes root t key v [[-> ->]|[-> ->]]; cbn; intros [= <-]; [done|].
  by rewrite lookup_empty.
Defined.

#[local] Instance HashAlgorithm_eq_dec : EqDecision HashAlgorithm.
Proof. solve_decision. Defined.
#[local] Instance StateMachineProof_eq_dec : EqDecision StateMachineProof.
Proof. solve_decision. Defined.
#[local] Instance SubstrateStateProof_eq_dec : EqDecision SubstrateStateProof.
Proof. solve_decision. Defined.
#[local] Instance SubstrateStateProof_countable : Countable SubstrateStateProof.
Proof.
  refine (inj_countable' (fun p => (match p with OverlayProof _ => true | StateProof _ => false end,
      match proof_hasher p with Keccak => true | Blake2 => false end, storage_proof p))
    (fun x => let q := mkStateMachineProof (if x.1.2 then Keccak else Blake2) x.2 in
      if x.1.1 then OverlayProof q else StateProof q) _). by intros [[[] ?]|[[] ?]].
Defined.
#[local] Instance proof_codec : Codec SubstrateStateProof := countable_codec.

(** ** The host *)

Section host.
Context (child : Trie).
#[local] Existing Instance tries.
#[local] Instance lib : TrieDb := tries child.

Definition client : ConsensusClient AbsHost := {|
  verify_consensus _ _ _ _ := Some (Err (ConsensusProofVerificationFailed Demo.ccid));
  verify_fraud_proof _ _ _ _ := Some (Err (Custom (lit "no conflict")));
  client_id := Demo.ccid;
  state_machine m := if decide (m = Demo.here) then Ok (substrate_state_machine None)
                     else Err (Custom (lit "unsupported"))
|}.

Definition host : IsmpHost AbsHost := ref_host Demo.there None [client] Demo.router.
Definition model : @HostModel Demo.keccak AbsHost host :=
  @ref_model Demo.keccak Demo.there None [client] Demo.router.

#[local] Existing Instances host model.

#[local] Instance frame : RouterFrame AbsHost.
Proof.
  intros id md E. change (Demo.router id = Ok md) in E. unfold Demo.router in E.
  case_decide; [|case_decide]; [..|done]; injection E as <-; (split; [|split]); intros ?;
    intros s o s' _ Er; injection Er as <- <-; by split.
Defined.
End host.

Lemma host_inv child a : @inv Demo.keccak AbsHost (host child) (model child) a.
Proof. exact I. Defined.

Definition here_id : StateMachineId := mkStateMachineId Demo.here Demo.csid.
Definition height : StateMachineHeight := mkStateMachineHeight here_id 7.

(** The host at second [u] knows a state of the chain of second [t]; [msgs] are its
    messages. *)
Definition knowing (u t : Z) (msgs : MessageStore) : AbsHost := mkAbsHost
  (mkConsensusStore {[ Demo.csid := lit "state" ]} {[ Demo.csid := Demo.ccid ]}
     {[ Demo.csid := 100000 ]} {[ here_id := 60 ]} ∅ {[ here_id := 7 ]} {[ Demo.csid := 900 ]}
     {[ height := 100 ]}
     {[ height := mkStateCommitment t (Some child_label) state_label ]})
  msgs (from_secs u).

Definition overlay : Proof_ :=
  mkProof height (encode (OverlayProof (mkStateMachineProof Blake2 []))).
Definition state_trie : Proof_ :=
  mkProof height (encode (StateProof (mkStateMachineProof Blake2 []))).

Lemma overlay_reads child c :
  sc_overlay_root c = Some child_label ->
  @reads_trie _ (tries child) (root_of child) None c overlay child.
Proof.
  intros Ho sp root Hsp Hr. unfold decode_state_proof, overlay in Hsp. cbn [proof_bytes] in Hsp.
  rewrite decode_encode in Hsp. injection Hsp as <-. unfold state_proof_root, overlay_proof_root in Hr.
  rewrite bool_decide_eq_false_2, Ho in Hr by done. injection Hr as <-. by left.
Defined.

(** The client of the host for the height is the Substrate client. *)
Lemma knowing_client child v t msgs cl :
  @proof_valid _ _ (host child) (knowing v t msgs) height cl ->
  cl = @substrate_state_machine _ _ (tries child) AbsHost None.
Proof.
  intros (cid & c & u & p & Hcid & Hc & _ & _ & _ & _ & Hm).
  change (c_clients (a_cons (knowing v t msgs)) !! _ = Some cid) with
    (({[ Demo.csid := Demo.ccid ]} : gmap ConsensusStateId ConsensusClientId) !! Demo.csid = Some cid) in Hcid.
  rewrite lookup_singleton_eq in Hcid. injection Hcid as <-.
  unfold consensus_client in Hc. cbn in Hc. injection Hc as <-. cbn in Hm. by injection Hm as <-.
Defined.

Lemma knowing_observes (child : Trie) (v t : Z) (msgs : MessageStore) (b : St) :
  st_child (storage b) = child ->
  @observes _ _ (tries child) (root_of child) AbsHost (host child) (model child) _ _ None
    (knowing v t msgs) overlay b.
Proof.
  intros Hb. split; [apply knowing_client|]. intros c Hc. rewrite Hb. apply overlay_reads.
  change (({[ height := mkStateCommitment t (Some child_label) state_label ]} :
    gmap StateMachineHeight StateCommitment) !! height = Some c) in Hc.
  rewrite lookup_singleton_eq in Hc. by injection Hc as <-.
Defined.

(** ** A request of the chain, delivered at the host *)

Definition ping_post : PostRequest :=
  match ping_request with RequestPost p => p | RequestGet _ => Demo.post [] 0 end.
Definition delivery : RequestMessage := mkRequestMessage [ping_post] overlay (lit "relayer").
Definition no_messages : MessageStore := mkMessageStore ∅ ∅ ∅ ∅ ∅ 0.
Definition unaware : AbsHost := knowing 1400 1200 no_messages.

Definition sent_child : Trie := st_child (storage sent).

Lemma sent_ok : pallet_inv sent.
Proof. exact (proj1 (PalletProps.dispatch_request_abs ping fee init _ sent init_ok sent_run)). Defined.

Section delivered.
#[local] Instance lib1 : TrieDb := tries sent_child.
#[local] Instance sound1 : TrieSound (root_of sent_child) := tries_sound sent_child.
#[local] Instance host1 : IsmpHost AbsHost := host sent_child.
#[local] Instance model1 : HostModel AbsHost := model sent_child.

Lemma handled_requests_were_sent_witness :
  exists h, is_Some (m_req_commitments (a_msgs (pallet_abs sent)) !! h).
Proof.
  destruct (handled_requests_were_sent (root_of sent_child) None delivery unaware
    (RequestResult [Err (IsmpError (ModuleNotFound (lit "them")))])
    (snd (handle_request delivery unaware)) sent (host_inv sent_child unaware) sent_ok) with (p := ping_post) as (h & _ & Hc).
  - apply (run_eq (handle_request delivery) unaware). vm_compute. reflexivity.
  - exact (knowing_observes sent_child 1400 1200 no_messages sent eq_refl).
  - left.
  - exists h. exact Hc.
Defined.
End delivered.

(** ** A request of the host, timed out *)

Definition asked : PostRequest :=
  mkPostRequest Demo.there Demo.here 1 (lit "to") (lit "to") 2000 (lit "body").
Definition asked_hash : H256 := hash (RequestPost asked).
Definition waiting : AbsHost :=
  knowing 3000 2500 (mkMessageStore {[ asked_hash := lit "meta" ]} ∅ ∅ ∅ ∅ 1).
Definition expiry (proof : Proof_) : TimeoutMessage := TMPost [RequestPost asked] proof.
Definition init_child : Trie := st_child (storage init).

Section timed_out.
#[local] Instance lib2 : TrieDb := tries init_child.
#[local] Instance sound2 : TrieSound (root_of init_child) := tries_sound init_child.
#[local] Instance host2 : IsmpHost AbsHost := host init_child.
#[local] Instance model2 : HostModel AbsHost := model init_child.

Definition expired_chain : St := chain (from_secs 2600).
Definition request_late : RequestMessage := mkRequestMessage [asked] Demo.proof_ok (lit "relayer").

Lemma timed_out_never_delivered_witness :
  pallet_abs (snd (handle_request request_late expired_chain)) = pallet_abs expired_chain /\
  ~ exists x, fst (handle_request request_late expired_chain) = Some (Ok x).
Proof.
  refine ((fun H => conj (proj1 H) (fun '(ex_intro _ x Hx) => proj2 H x Hx)) (proj2 (timed_out_never_delivered (root_of init_child) None [RequestPost asked] overlay
    waiting (default (FrozenClient Demo.csid) (fst (handle_timeout (expiry overlay) waiting) ≫= ok))
    (snd (handle_timeout (expiry overlay) waiting)) init
    (mkStateCommitment 2500 (Some child_label) state_label) (host_inv init_child waiting) init_ok _ _ _ asked _)
    expired_chain request_late _ (snd (handle_request request_late expired_chain)) _ _ _ _)).
  - apply (run_eq (handle_timeout (expiry overlay)) waiting). vm_compute. reflexivity.
  - exact (knowing_observes init_child 3000 2500 _ init eq_refl).
  - vm_compute. reflexivity.
  - left.
  - exact init_ok.
  - vm_compute. discriminate.
  - left.
  - apply (run_eq (handle_request request_late) expired_chain). reflexivity.
Defined.
End timed_out.

(** ** Ways around *)

(** The chain receives the request, and the response of the host to its own request. *)
Definition asked_msg : RequestMessage := mkRequestMessage [asked] Demo.proof_ok (lit "relayer").
Definition got_request : St := snd (handle_request asked_msg init).

Definition knock : PostRequest :=
  mkPostRequest Demo.here Demo.there 0 (lit "to") (lit "to") 1500 (lit "knock").
Definition knocked : St := snd (dispatch_request
  (DispatchPostRequest (mkDispatchPost Demo.there (lit "to") (lit "to") 500 (lit "knock"))) fee init).
Definition answer : PostResponse := mkPostResponse knock (lit "come in") 2000.
Definition answer_hash : H256 := default [] (hash_post_response answer).
Definition answer_msg : ResponseMessage :=
  mkResponseMessage (RRResponse [ResponsePost answer]) Demo.proof_ok (lit "relayer").
Definition got_answer : St := snd (handle_response answer_msg knocked).

(** The host after it sent the response. *)
Definition answered : AbsHost :=
  knowing 3000 2500 (mkMessageStore ∅ {[ answer_hash := lit "meta" ]} ∅ ∅ ∅ 0).

(** a delivered request is timed out. The receipts of the destination are in its
    child trie, but the client lets the relayer choose the trie: with a proof of the kind
    [StateProof] the keys of the receipts are looked up in the state trie, where they never
    are, and the handler concludes that the request was not delivered. *)
Theorem delivered_request_times_out :
  let child := st_child (storage got_request) in
  let run := @handle_timeout _ _ (host child) (expiry state_trie) waiting in
  RequestReceipts.get asked_hash child = Some (lit "relayer") /\
  fst run = Some (Ok (TimeoutResult [Ok (post_timeout_event (RequestPost asked) asked_hash)])) /\
  m_nonce (a_msgs (snd run)) = 2.
Proof. cbv zeta. split; [|split]; vm_compute; reflexivity. Qed.

(** a delivered response is timed out. The pallet keeps the receipt of a response
    under the commitment of its request, but the client looks for it under the commitment
    of the response, and does not find it in the child trie either. *)
Theorem delivered_response_times_out :
  let child := st_child (storage got_answer) in
  let run := @handle_timeout _ _ (host child) (TMPostResponse [answer] overlay) answered in
  ResponseReceipts.get (hash (RequestPost knock)) child = Some (mkResponseReceipt answer_hash (lit "relayer")) /\
  exists e, fst run = Some (Ok (TimeoutResult [Ok e])).
Proof. cbv zeta. split; [vm_compute; reflexivity|]. eexists. vm_compute. reflexivity. Qed.

End TwoChainsDemo.
