(* ===== verification/Apps.v ===== *)
(** * The pallets built on pallet-ismp: data and storage

    The types of [pallets/hyperbridge], [pallets/host-executive], [pallets/relayer] and
    [pallets/fishermen], and the storage these pallets keep beside pallet-ismp. The
    accounts of the runtime and that storage make up [Apps], which takes the place of
    the [Bank] of [PalletTypes]: it has a currency as soon as the accounts have one. *)

From S2P Require Import Prelude StateMachine Router Messaging Host ChildTrie PalletTypes.

(** ** Wide integers

    [U256] of primitive-types panics when an addition overflows. *)

Definition u256_max : Z := 2 ^ 256 - 1.
Definition u256_add (x y : Z) : option Z := if x + y <=? u256_max then Some (x + y) else None.
Definition low_u128 (x : Z) : Z := x mod 2 ^ 128.

(** [u128] arithmetic in a release build. *)
Definition wrap128 (x : Z) : Z := x mod 2 ^ 128.

Lemma u256_add_some x y z : u256_add x y = Some z <-> z = x + y /\ x + y <= u256_max.
Proof. unfold u256_add. destruct (Z.leb_spec (x + y) u256_max); naive_solver lia. Qed.

(** ** pallet-hyperbridge *)

Record SubstrateHostParams : Type := mkSubstrateHostParams {
  shp_default_per_byte_fee : Z;
  shp_per_byte_fees : gmap StateMachine Z;
  shp_asset_registration_fee : Z
}.

Inductive VersionedHostParams : Type :=
| V1 (params : SubstrateHostParams).

Definition v1_params (v : VersionedHostParams) : SubstrateHostParams :=
  match v with V1 params => params end.

Record WithdrawalRequest : Type := mkWithdrawalRequest {
  wr_amount : Z;
  wr_account : bytes
}.

Inductive HyperbridgeMessage : Type :=
| UpdateHostParams (params : VersionedHostParams)
| WithdrawProtocolFees (request : WithdrawalRequest)
| WithdrawRelayerFees (request : WithdrawalRequest).

(** ** The host executive *)

Abbreviation H160 := (list Init.Byte.byte) (only parsing).

Record PerByteFee : Type := mkPerByteFee {
  pbf_state_id : H256;
  pbf_per_byte_fee : Z
}.

Record EvmHostParam : Type := mkEvmHostParam {
  ehp_default_timeout : Z;
  ehp_default_per_byte_fee : Z;
  ehp_state_commitment_fee : Z;
  ehp_fee_token : H160;
  ehp_admin : H160;
  ehp_handler : H160;
  ehp_host_manager : H160;
  ehp_uniswap_v2 : H160;
  ehp_un_staking_period : Z;
  ehp_challenge_period : Z;
  ehp_consensus_client : H160;
  ehp_state_machines : list Z;
  ehp_per_byte_fees : list PerByteFee;
  ehp_hyperbridge : bytes
}.

Record EvmHostParamUpdate : Type := mkEvmHostParamUpdate {
  ehu_default_timeout : option Z;
  ehu_default_per_byte_fee : option Z;
  ehu_fee_token : option H160;
  ehu_state_commitment_fee : option Z;
  ehu_admin : option H160;
  ehu_handler : option H160;
  ehu_host_manager : option H160;
  ehu_uniswap_v2 : option H160;
  ehu_un_staking_period : option Z;
  ehu_challenge_period : option Z;
  ehu_consensus_client : option H160;
  ehu_state_machines : option (list Z);
  ehu_per_byte_fees : option (list PerByteFee);
  ehu_hyperbridge : option bytes
}.

Inductive HostParam : Type :=
| HPSubstrate (params : VersionedHostParams)
| HPEvm (params : EvmHostParam).

Inductive HostParamUpdate : Type :=
| HUSubstrate (params : VersionedHostParams)
| HUEvm (update : EvmHostParamUpdate).

(** ** The relayer pallet ([withdrawal.rs]) *)

Inductive Key : Type :=
| KeyRequest (commitment : H256)
| KeyResponse (request_commitment response_commitment : H256).

Record WithdrawalProof : Type := mkWithdrawalProof {
  wp_commitments : list Key;
  wp_source_proof : Proof_;
  wp_dest_proof : Proof_
}.

Inductive Signature : Type :=
| SigEvm (address signature : bytes)
| SigSr25519 (public_key signature : bytes)
| SigEd25519 (public_key signature : bytes).

Record WithdrawalInputData : Type := mkWithdrawalInputData {
  wd_signature : Signature;
  wd_dest_chain : StateMachine
}.

Record WithdrawalParams : Type := mkWithdrawalParams {
  wpar_beneficiary_address : bytes;
  wpar_amount : Z;
  wpar_native : bool
}.

(** ** Events and storage *)

Inductive AppEvent : Type :=
| AEHyperbridgeParamsUpdated (old new : VersionedHostParams)
| AERelayerFeeWithdrawn (amount : Z) (account : bytes)
| AEProtocolRevenueWithdrawn (amount : Z) (account : bytes)
| AEHostParamsUpdated (state_machine : StateMachine) (old new : HostParam)
| AEHostParamsSet (state_machine : StateMachine) (params : HostParam)
| AEHostAddressSet (state_machine : StateMachine) (address : H160)
| AEHostAddressUpdated (state_machine : StateMachine) (old_address new_address : H160)
| AEAccumulateFees (address : bytes) (state_machine : StateMachine) (amount : Z)
| AEWithdraw (address : bytes) (state_machine : StateMachine) (amount : Z)
| AEAdded (account : bytes)
| AERemoved (account : bytes)
| AEStateCommitmentVetoed (height : StateMachineHeight) (commitment : StateCommitment).

(** The storage items are named after their pallet: [Fees], [Nonce] and
    [MinimumWithdrawalAmount] of the relayer pallet, [HostParams] and [EvmHosts] of the
    host executive, [HostParams] of pallet-hyperbridge, [Fishermen]. *)
Record Apps (Acc : Type) : Type := mkApps {
  accounts : Acc;
  hb_HostParams : VersionedHostParams;
  hx_HostParams : gmap StateMachine HostParam;
  hx_EvmHosts : gmap StateMachine H160;
  rl_Fees : gmap (StateMachine * bytes) Z;
  rl_Nonce : gmap (bytes * StateMachine) Z;
  rl_MinimumWithdrawalAmount : option Z;
  fm_Fishermen : gset bytes;
  app_events : list AppEvent
}.
Arguments mkApps {Acc}.
Arguments accounts {Acc}.
Arguments hb_HostParams {Acc}.
Arguments hx_HostParams {Acc}.
Arguments hx_EvmHosts {Acc}.
Arguments rl_Fees {Acc}.
Arguments rl_Nonce {Acc}.
Arguments rl_MinimumWithdrawalAmount {Acc}.
Arguments fm_Fishermen {Acc}.
Arguments app_events {Acc}.

(** The balances are those of the accounts. *)
#[export] Program Instance apps_currency {Acc} `{!Currency Acc} : Currency (Apps Acc) := {|
  balance a k := balance a (accounts k);
  transfer a b n k :=
    result_map (fun acc => mkApps acc (hb_HostParams k) (hx_HostParams k) (hx_EvmHosts k)
      (rl_Fees k) (rl_Nonce k) (rl_MinimumWithdrawalAmount k) (fm_Fishermen k) (app_events k))
      (transfer a b n (accounts k))
|}.
Next Obligation.
  intros Acc HC a b n k k' Hne E. cbn in *. destruct (transfer a b n (accounts k)) eqn:Et; [|done].
  injection E as <-. cbn. by apply transfer_moves.
Qed.

Section updates.
Context {Acc : Type}.
Implicit Types k : Apps Acc.

Definition on_hb_HostParams f k := mkApps (accounts k) (f (hb_HostParams k)) (hx_HostParams k)
  (hx_EvmHosts k) (rl_Fees k) (rl_Nonce k) (rl_MinimumWithdrawalAmount k) (fm_Fishermen k)
  (app_events k).
Definition on_hx_HostParams f k := mkApps (accounts k) (hb_HostParams k) (f (hx_HostParams k))
  (hx_EvmHosts k) (rl_Fees k) (rl_Nonce k) (rl_MinimumWithdrawalAmount k) (fm_Fishermen k)
  (app_events k).
Definition on_hx_EvmHosts f k := mkApps (accounts k) (hb_HostParams k) (hx_HostParams k)
  (f (hx_EvmHosts k)) (rl_Fees k) (rl_Nonce k) (rl_MinimumWithdrawalAmount k) (fm_Fishermen k)
  (app_events k).
Definition on_rl_Fees f k := mkApps (accounts k) (hb_HostParams k) (hx_HostParams k)
  (hx_EvmHosts k) (f (rl_Fees k)) (rl_Nonce k) (rl_MinimumWithdrawalAmount k) (fm_Fishermen k)
  (app_events k).
Definition on_rl_Nonce f k := mkApps (accounts k) (hb_HostParams k) (hx_HostParams k)
  (hx_EvmHosts k) (rl_Fees k) (f (rl_Nonce k)) (rl_MinimumWithdrawalAmount k) (fm_Fishermen k)
  (app_events k).
Definition on_rl_Minimum f k := mkApps (accounts k) (hb_HostParams k) (hx_HostParams k)
  (hx_EvmHosts k) (rl_Fees k) (rl_Nonce k) (f (rl_MinimumWithdrawalAmount k)) (fm_Fishermen k)
  (app_events k).
Definition on_fm_Fishermen f k := mkApps (accounts k) (hb_HostParams k) (hx_HostParams k)
  (hx_EvmHosts k) (rl_Fees k) (rl_Nonce k) (rl_MinimumWithdrawalAmount k) (f (fm_Fishermen k))
  (app_events k).
Definition on_app_events f k := mkApps (accounts k) (hb_HostParams k) (hx_HostParams k)
  (hx_EvmHosts k) (rl_Fees k) (rl_Nonce k) (rl_MinimumWithdrawalAmount k) (fm_Fishermen k)
  (f (app_events k)).

Context {Tree : Type}.

Definition app_read {A} (f : Apps Acc -> A) (c : Chain (Apps Acc) Tree) : A := f (bank c).
Definition modify_app (f : Apps Acc -> Apps Acc) : M (Chain (Apps Acc) Tree) unit :=
  modify (upd_bank f).
Definition app_event (e : AppEvent) : M (Chain (Apps Acc) Tree) unit :=
  modify_app (on_app_events (fun es => es ++ [e])).
End updates.

(** ** Calls

    The error of a call is that of its origin check or one of its pallet. *)

Inductive CallError (E : Type) : Type :=
| CallBadOrigin
| CallFailed (e : E).
Arguments CallBadOrigin {E}.
Arguments CallFailed {E} _.

#[export] Instance From_CallFailed {E} : From E (CallError E) := CallFailed.

Definition call_none {E} (o : Origin) : result (CallError E) unit :=
  match o with OriginNone => Ok tt | _ => Err CallBadOrigin end.
Definition call_signed {E} (o : Origin) : result (CallError E) bytes :=
  match o with OriginSigned who => Ok who | _ => Err CallBadOrigin end.
Definition call_admin {E Bank Tree} `{!Config Bank Tree} (o : Origin) : result (CallError E) unit :=
  if AdminOrigin o then Ok tt else Err CallBadOrigin.

(** The account that fees of zero are charged to: [[0u8; 32]]. *)
Definition no_payer : FeeMetadata bytes Z := mkFeeMetadata (replicate 32 Byte.x00) 0.
