(* ===== verification/Hyperbridge.v ===== *)
(** * pallet-hyperbridge

    [pallets/hyperbridge/src/lib.rs] and [child_trie.rs]: a dispatcher that charges a
    protocol fee per byte and records the payment in the child trie of pallet-ismp, and
    the module through which hyperbridge changes the fees and pays revenue out. Its
    [IsmpHost] is pallet-ismp, as in the runtimes that use it. *)

From S2P Require Import Prelude StateMachine Router Messaging Host Handlers HostSpec Frame ChildTrie PalletTypes PalletHost PalletRefines Pallet PalletFrames PalletProps Apps.

(** [PALLET_HYPERBRIDGE] and the account derived from it, and the text of an error of
    the codec on the given bytes. *)
Definition PALLET_HYPERBRIDGE : bytes := lit "HYPR-FEE".

Class HyperbridgeEnv : Type := {
  hyperbridge_account : bytes;
  decode_error : bytes -> bytes
}.

(** ** The payment tables *)

Definition request_payment_storage_key (key : H256) : bytes := lit "RequestPayment" ++ key.
Definition response_payment_storage_key (key : H256) : bytes := lit "ResponsePayment" ++ key.

Module RequestPayments.
Section ops.
Context `{!Codec Z}.

Definition get (key : H256) (t : Trie) : option Z := child_get (request_payment_storage_key key) t.
Definition insert (key : H256) (meta : Z) (t : Trie) : Trie :=
  child_put (request_payment_storage_key key) meta t.
Definition remove (key : H256) (t : Trie) : Trie := child_kill (request_payment_storage_key key) t.
Definition contains_key (key : H256) (t : Trie) : bool :=
  child_exists (request_payment_storage_key key) t.
End ops.
End RequestPayments.

Module ResponsePayments.
Section ops.
Context `{!Codec Z}.

Definition get (key : H256) (t : Trie) : option Z := child_get (response_payment_storage_key key) t.
Definition insert (key : H256) (meta : Z) (t : Trie) : Trie :=
  child_put (response_payment_storage_key key) meta t.
Definition remove (key : H256) (t : Trie) : Trie := child_kill (response_payment_storage_key key) t.
Definition contains_key (key : H256) (t : Trie) : bool :=
  child_exists (response_payment_storage_key key) t.
End ops.
End ResponsePayments.

Section hyperbridge.
Context `{Keccak256, Codecs, !HeightSort, !ErrorText, !ChildRoot} `{!Codec Z, !Codec HyperbridgeMessage}.
Context {Acc Tree : Type} `{!Currency Acc, !Mmr Tree, !Config (Apps Acc) Tree, !HyperbridgeEnv}.

Abbreviation St := (Chain (Apps Acc) Tree).
Abbreviation Fee := (FeeMetadata bytes Z).

(** ** The dispatcher *)

(** The fee for [len] bytes to [dest]; 32 bytes are the minimum. *)
Definition protocol_fee (params : SubstrateHostParams) (dest : StateMachine) (len : nat) : Z :=
  let per_byte_fee := default (shp_default_per_byte_fee params) (shp_per_byte_fees params !! dest) in
  if (len <? 32)%nat then wrap128 (per_byte_fee * 32) else wrap128 (per_byte_fee * Z.of_nat len).

Definition collect_protocol_fee (payer : bytes) (fees : Z) : M St (result AnyError unit) :=
  if negb (fees =? 0) then
    let* r := currency_transfer payer hyperbridge_account fees in
    ret (map_err fee_error r)
  else ret (Ok tt).

Definition hyperbridge_dispatch_request (request : DispatchRequest) (fee : Fee) :
    M St (result AnyError H256) :=
  let? fees :=
    match request with
    | DispatchPostRequest post =>
        let* params := gets (app_read hb_HostParams) in
        let fees := protocol_fee (v1_params params) (dp_dest post) (length (dp_body post)) in
        let? _ := collect_protocol_fee (fm_payer fee) fees in
        ret (Ok fees)
    | DispatchGetRequest _ => ret (Ok 0)
    end in
  let? commitment := dispatch_request request fee in
  let* _ := modify_storage (on_child (RequestPayments.insert commitment fees)) in
  ret (Ok commitment).

Definition hyperbridge_dispatch_response (response : PostResponse) (fee : Fee) :
    M St (result AnyError H256) :=
  let* params := gets (app_read hb_HostParams) in
  let fees := protocol_fee (v1_params params) (pr_dest_chain response) (length (pr_response response)) in
  let? _ := collect_protocol_fee (fm_payer fee) fees in
  let? commitment := dispatch_response response fee in
  let* _ := modify_storage (on_child (ResponsePayments.insert commitment fees)) in
  ret (Ok commitment).

(** ** The module *)

(** A payment out of an account of the protocol. *)
Definition pay_out (account : bytes) (request : WithdrawalRequest) : M St (result AnyError unit) :=
  let* r := currency_transfer account (wr_account request) (wr_amount request) in
  ret (map_err (fun e => IsmpError (Custom (lit "Error withdrawing protocol fees: " ++ e))) r).

Definition hyperbridge_on_accept (request : PostRequest) : M St (result AnyError unit) :=
  let source := post_source request in
  if negb (bool_decide (Some source = Coprocessor)) then
    let* text := or_panic (to_string source) in
    ret (Err (IsmpError (Custom (lit "Invalid request source: " ++ text))))
  else
    let? message := ret (ok_or (decode (A := HyperbridgeMessage) (post_body request))
        (Custom (lit "Failed to decode per-byte fee: " ++ decode_error (post_body request)))) in
    match message with
    | UpdateHostParams new =>
        let* old := gets (app_read hb_HostParams) in
        let* _ := modify_app (on_hb_HostParams (fun _ => new)) in
        let* _ := app_event (AEHyperbridgeParamsUpdated old new) in
        ret (Ok tt)
    | WithdrawProtocolFees request =>
        let? _ := pay_out hyperbridge_account request in
        let* _ := app_event (AEProtocolRevenueWithdrawn (wr_amount request) (wr_account request)) in
        ret (Ok tt)
    | WithdrawRelayerFees request =>
        let? _ := pay_out relayer_fee_account request in
        let* _ := app_event (AERelayerFeeWithdrawn (wr_amount request) (wr_account request)) in
        ret (Ok tt)
    end.

Definition hyperbridge_module : IsmpModule St := {|
  on_accept := hyperbridge_on_accept;
  on_response _ := ret (Err (IsmpError CannotHandleMessage));
  on_timeout _ := ret (Err (IsmpError CannotHandleMessage))
|}.

End hyperbridge.

(** ** Payments are beside the tables of pallet-ismp *)

Ltac payment_prefixes :=
  intros; let h := fresh in let E := fresh in
  intros h E; unfold request_payment_storage_key, response_payment_storage_key,
    STATE_COMMITMENTS_KEY in E;
  cbv [lit String.list_byte_of_string Ascii.byte_of_ascii] in E; simpl in E; discriminate.

#[local] Hint Extern 1 (outside _ _) => solve [payment_prefixes] : ismp.

Section payments.
Context `{Keccak256, Codecs} {A : Type} `{!Codec A}.

(** A key under no prefix of pallet-ismp. *)
Definition foreign (k : bytes) : Prop :=
  Forall (fun p => outside p k) [STATE_COMMITMENTS_KEY; lit "RequestCommitments";
    lit "ResponseCommitments"; lit "RequestReceipts"; lit "ResponseReceipts"].

Lemma request_payment_foreign h : foreign (request_payment_storage_key h).
Proof. repeat (constructor; [auto with ismp|]). constructor. Qed.
Lemma response_payment_foreign h : foreign (response_payment_storage_key h).
Proof. repeat (constructor; [auto with ismp|]). constructor. Qed.

(** Writing under such a key is invisible to pallet-ismp. *)
Lemma foreign_put k (v : A) s :
  foreign k -> storage_ok s ->
  storage_ok (on_child (child_put k v) s) /\ abs_msgs (on_child (child_put k v) s) = abs_msgs s.
Proof.
  unfold foreign. rewrite !Forall_cons. intros (K0 & K1 & K2 & K3 & K4 & _) Hs. split.
  - apply storage_ok_insert; [done|..|done]; by apply typed_put_other.
  - unfold abs_msgs. cbn [st_child on_child Responded Nonce]. by rewrite !table_put_other.
Qed.
End payments.

Section properties.
Context `{Keccak256, Codecs, !HeightKeys, !HeightSort, !ErrorText, !ChildRoot}.
Context `{!Codec Z, !Codec HyperbridgeMessage}.
Context {Acc Tree : Type} `{!Currency Acc, !Mmr Tree, !Config (Apps Acc) Tree, !HyperbridgeEnv}.

Abbreviation St := (Chain (Apps Acc) Tree).
Implicit Types c : St.

Lemma foreign_put_chain {A} `{!Codec A} k (v : A) c :
  foreign k -> pallet_inv c ->
  pallet_inv (upd_storage (on_child (child_put k v)) c) /\
  pallet_abs (upd_storage (on_child (child_put k v)) c) = pallet_abs c.
Proof.
  intros Hk Hc. destruct (foreign_put k v _ Hk Hc) as [F1 F2]. split; [done|].
  unfold pallet_abs. cbn [upd_storage storage now]. by rewrite F2.
Qed.

(** ** Dispatching *)

(** What collecting the protocol fee does to the balances. *)
Definition protocol_fee_collected (payer : bytes) (fees : Z) (b b' : Apps Acc) : Prop :=
  if fees =? 0 then b' = b else transfer payer hyperbridge_account fees b = Ok b'.

Lemma collect_protocol_fee_ok payer fees c u c' :
  collect_protocol_fee payer fees c = (Some (Ok u), c') ->
  exists b, protocol_fee_collected payer fees (bank c) b /\ c' = upd_bank (fun _ => b) c.
Proof.
  unfold collect_protocol_fee, protocol_fee_collected. destruct (fees =? 0); cbn [negb].
  - intros [_ <-]%ret_inv. exists (bank c). split; [done|]. by destruct c.
  - intros (x & c1 & Ht & Hr)%bind_inv. apply ret_inv in Hr as [Hx <-].
    unfold currency_transfer in Ht. destruct (transfer _ _ _ _) as [b|e] eqn:E; injection Ht as <- <-.
    + by exists b.
    + discriminate.
Qed.

(** A transfer that is skipped when there is nothing to pay. *)
Lemma paid_moves (a d : bytes) n (b b' : Apps Acc) :
  a <> d -> (if n =? 0 then b' = b else transfer a d n b = Ok b') ->
  balance d b' = balance d b + n /\ balance a b' <= balance a b - n /\
  forall x, x <> a -> x <> d -> balance x b' = balance x b.
Proof.
  intros Hne. destruct (Z.eqb_spec n 0) as [->|_].
  - intros ->. split; [lia|]. split; [lia|done].
  - by apply transfer_moves.
Qed.

(** The fee is the rate of the destination times the bytes, at least 32 of them. *)
Lemma protocol_fee_exact params dest len :
  let rate := default (shp_default_per_byte_fee params) (shp_per_byte_fees params !! dest) in
  0 <= rate -> rate * Z.max 32 (Z.of_nat len) < 2 ^ 128 ->
  protocol_fee params dest len = rate * Z.max 32 (Z.of_nat len).
Proof.
  cbv zeta. intros Hr0 Hb. unfold protocol_fee, wrap128.
  destruct (Nat.ltb_spec len 32).
  - rewrite Z.max_l in Hb |- * by lia. apply Z.mod_small. lia.
  - rewrite Z.max_r in Hb |- * by lia. apply Z.mod_small. nia.
Qed.

Lemma hyperbridge_request_run post fee c h c' :
  pallet_inv c -> hyperbridge_dispatch_request (DispatchPostRequest post) fee c = (Some (Ok h), c') ->
  let fees := protocol_fee (v1_params (hb_HostParams (bank c))) (dp_dest post) (length (dp_body post)) in
  exists b c1, protocol_fee_collected (fm_payer fee) fees (bank c) b /\
    dispatch_request (DispatchPostRequest post) fee (upd_bank (fun _ => b) c) = (Some (Ok h), c1) /\
    c' = upd_storage (on_child (RequestPayments.insert h fees)) c1.
Proof.
  intros Hc Hrun fees. unfold hyperbridge_dispatch_request in Hrun.
  apply try_ok_inv in Hrun as (fees' & c1 & Hf & Hrun). bind_gets Hf.
  apply try_ok_inv in Hf as (u & c2 & Hf & Hr).
  apply ret_inv in Hr as [Hr <-]. injection Hr as <-.
  apply collect_protocol_fee_ok in Hf as (b & Hb & ->). exists b.
  apply try_ok_inv in Hrun as (h' & c3 & Hd & Hrun).
  unfold bind, modify_storage, modify, ret in Hrun. injection Hrun as -> <-. by exists c3.
Qed.

(** What is recorded of a request dispatched through the pallet. *)
Lemma hyperbridge_request_recorded post fee c h c' :
  pallet_inv c -> hyperbridge_dispatch_request (DispatchPostRequest post) fee c = (Some (Ok h), c') ->
  pallet_inv c' /\
  hash_request (requested (DispatchPostRequest post) (Nonce (storage c)) (now c)) = Some h /\
  (exists leaf, pallet_abs c'
     = upd_msgs (fun m => set_req_commitments <[h := encode (mkRequestMetadata leaf fee false)]>
         (set_nonce (fun n => wrap64 (n + 1)) m)) (pallet_abs c)) /\
  RequestPayments.get h (st_child (storage c')) = Some
    (protocol_fee (v1_params (hb_HostParams (bank c))) (dp_dest post) (length (dp_body post))).
Proof.
  intros Hc Hrun. apply hyperbridge_request_run in Hrun as (b & c1 & Hb & Hd & ->); [|done].
  set (fees := protocol_fee _ _ _) in *.
  assert (Hc0 : pallet_inv (upd_bank (fun _ => b) c)) by done.
  destruct (dispatch_request_abs _ _ _ _ _ Hc0 Hd) as (Hc1 & leaf & Ha).
  destruct (dispatch_request_run _ _ _ _ _ Hc0 Hd) as (b1 & Hb1 & [Hh _ _]).
  destruct (foreign_put_chain _ fees _ (request_payment_foreign h) Hc1) as [F1 F2].
  split; [exact F1|]. split; [done|]. split; [|apply child_get_put].
  exists leaf. etransitivity; [exact F2|exact Ha].
Qed.

(** a POST request dispatched through pallet-hyperbridge has paid for itself. The
    payer is charged the protocol fee, the rate of the destination times the length of
    the body and at least that of 32 bytes, and the relayer fee; each arrives on its
    account. The request is committed by pallet-ismp exactly as without the protocol
    fee, and the payment is recorded under its commitment, where hyperbridge looks for
    it. *)
Theorem hyperbridge_request_paid post fee c h c' :
  pallet_inv c ->
  fm_payer fee <> hyperbridge_account -> fm_payer fee <> relayer_fee_account ->
  hyperbridge_account <> relayer_fee_account ->
  hyperbridge_dispatch_request (DispatchPostRequest post) fee c = (Some (Ok h), c') ->
  let params := v1_params (hb_HostParams (bank c)) in
  let rate := default (shp_default_per_byte_fee params) (shp_per_byte_fees params !! dp_dest post) in
  let bytes := Z.max 32 (Z.of_nat (length (dp_body post))) in
  pallet_inv c' /\
  hash_request (requested (DispatchPostRequest post) (Nonce (storage c)) (now c)) = Some h /\
  (exists leaf, pallet_abs c'
     = upd_msgs (fun m => set_req_commitments <[h := encode (mkRequestMetadata leaf fee false)]>
         (set_nonce (fun n => wrap64 (n + 1)) m)) (pallet_abs c)) /\
  exists fees, RequestPayments.get h (st_child (storage c')) = Some fees /\
    (0 <= rate -> rate * bytes < 2 ^ 128 -> fees = rate * bytes) /\
    balance hyperbridge_account (bank c') = balance hyperbridge_account (bank c) + fees /\
    balance relayer_fee_account (bank c') = balance relayer_fee_account (bank c) + fm_fee fee /\
    balance (fm_payer fee) (bank c') <= balance (fm_payer fee) (bank c) - fees - fm_fee fee.
Proof.
  intros Hc N1 N2 N3 Hrun. cbv zeta.
  destruct (hyperbridge_request_recorded _ _ _ _ _ Hc Hrun) as (Hc' & Hh & Ha & Hp).
  apply hyperbridge_request_run in Hrun as (b & c1 & Hb & Hd & ->); [|done].
  set (fees := protocol_fee _ _ _) in *.
  assert (Hc0 : pallet_inv (upd_bank (fun _ => b) c)) by done.
  destruct (dispatch_request_run _ _ _ _ _ Hc0 Hd) as (b1 & Hb1 & [_ _ (l & t & _ & ->)]).
  pose proof (paid_moves _ _ _ _ _ N1 Hb) as (P1 & P2 & P3).
  pose proof (paid_moves _ _ _ _ _ N2 Hb1) as (Q1 & Q2 & Q3).
  split; [exact Hc'|]. split; [done|]. split; [exact Ha|].
  exists fees. split; [exact Hp|]. cbn [upd_storage upd_bank bank storage st_child on_child] in *.
  split; [intros; by apply protocol_fee_exact|].
  rewrite Q3 by done. rewrite P1. split; [done|]. rewrite Q1, P3 by done. split; [done|lia].
Qed.

(** ** The module *)

Lemma modify_app_silent f : silent (modify_app f : M St unit).
Proof. intros c o c'. unfold modify_app, modify. by intros [= <- <-]. Qed.

Lemma pay_out_run account r c o c' :
  pay_out account r c = (o, c') ->
  (o = Some (Ok tt) /\ exists b, transfer account (wr_account r) (wr_amount r) (bank c) = Ok b /\
     c' = upd_bank (fun _ => b) c) \/
  (exists e, o = Some (Err e)) /\ c' = c.
Proof.
  unfold pay_out, bind, currency_transfer. destruct (transfer _ _ _ _) as [b|e]; cbn;
    intros [= <- <-]; [left|right]; eauto.
Qed.

(** What a message from hyperbridge does to the storage of the other pallets. *)
Definition hyperbridge_effect (m : HyperbridgeMessage) (b b' : Apps Acc) : Prop :=
  match m with
  | UpdateHostParams new =>
      b' = on_app_events (fun es => es ++ [AEHyperbridgeParamsUpdated (hb_HostParams b) new])
             (on_hb_HostParams (fun _ => new) b)
  | WithdrawProtocolFees r => exists b1,
      transfer hyperbridge_account (wr_account r) (wr_amount r) b = Ok b1 /\
      b' = on_app_events (fun es => es ++ [AEProtocolRevenueWithdrawn (wr_amount r) (wr_account r)]) b1
  | WithdrawRelayerFees r => exists b1,
      transfer relayer_fee_account (wr_account r) (wr_amount r) b = Ok b1 /\
      b' = on_app_events (fun es => es ++ [AERelayerFeeWithdrawn (wr_amount r) (wr_account r)]) b1
  end.

(** Paying out and depositing the event. *)
Lemma withdrawal_run account r ev c (o : option (result AnyError unit)) c' :
  (let? _ := pay_out account r in let* _ := app_event ev in ret (Ok tt)) c = (o, c') ->
  (o = Some (Ok tt) /\ exists b, transfer account (wr_account r) (wr_amount r) (bank c) = Ok b /\
     c' = upd_bank (fun _ => on_app_events (fun es => es ++ [ev]) b) c) \/
  (exists e, o = Some (Err e)) /\ c' = c.
Proof.
  unfold try_bind at 1. intros [(x & c1 & Hp & Hk)|[Hp ->]]%bind_split.
  - apply pay_out_run in Hp as [(Hx & b & Hb & ->)|[[e He] ->]].
    + injection Hx as ->. unfold bind, app_event, modify_app, modify, ret in Hk.
      injection Hk as <- <-. left. eauto.
    + injection He as ->. unfold ret in Hk. injection Hk as <- <-. right. eauto.
  - apply pay_out_run in Hp as [(? & _)|[[? ?] _]]; discriminate.
Qed.

Lemma hyperbridge_on_accept_run p c o c' :
  hyperbridge_on_accept p c = (o, c') ->
  (o = Some (Ok tt) /\ Some (post_source p) = Coprocessor /\
   exists m b', decode (post_body p) = Some m /\ hyperbridge_effect m (bank c) b' /\
     c' = upd_bank (fun _ => b') c) \/
  (o <> Some (Ok tt) /\ c' = c).
Proof.
  unfold hyperbridge_on_accept. case_bool_decide as Hs; cbn [negb].
  2: { intros [(t & c1 & Ht & Hr)|[Ht ->]]%bind_split.
       - apply or_panic_inv in Ht as [_ ->]. unfold ret in Hr. injection Hr as <- <-. by right.
       - right. split; [done|]. destruct (to_string _); unfold or_panic, panic, ret in Ht; congruence. }
  destruct (decode (post_body p)) as [m|] eqn:Em; cbn [ok_or].
  2: { unfold try_bind, bind, ret. intros [= <- <-]. by right. }
  unfold try_bind at 1, bind at 1, ret at 1. cbv beta iota. destruct m as [new|r|r].
  - unfold bind, gets, modify_app, app_event, modify, ret. intros [= <- <-]. left.
    split; [done|]. split; [done|]. exists (UpdateHostParams new). eexists. split; [done|]. split; done.
  - intros [(Ho & b & Hb & ->)|[[e ->] ->]]%withdrawal_run; [left|by right].
    split; [done|]. split; [done|]. eexists (WithdrawProtocolFees r), _. split; [done|]. split; [by exists b|done].
  - intros [(Ho & b & Hb & ->)|[[e ->] ->]]%withdrawal_run; [left|by right].
    split; [done|]. split; [done|]. eexists (WithdrawRelayerFees r), _. split; [done|]. split; [by exists b|done].
Qed.

(** The module keeps to what a callback may do: it never touches the ISMP data. *)
Lemma hyperbridge_module_frame :
  (forall p, keeps callback_frame (on_accept hyperbridge_module p : M St _)) /\
  (forall r, keeps callback_frame (on_response hyperbridge_module r : M St _)) /\
  (forall t, keeps callback_frame (on_timeout hyperbridge_module t : M St _)).
Proof.
  split; [|by split; intros; apply keeps_ret, _].
  intros p. apply silent_keeps; [apply _|]. intros c o c' Hrun. cbn in Hrun.
  by apply hyperbridge_on_accept_run in Hrun as [(_ & _ & m & b' & _ & _ & ->)|[_ ->]].
Qed.

(** pallet-hyperbridge obeys the coprocessor only. A request is accepted only if
    hyperbridge sent it and its body decodes to a message; then exactly that message is
    carried out: new host parameters, or one transfer out of the account of the protocol
    revenue or of the relayer fees, with its event. Every other request, every response
    and every timeout is refused without effect. *)
Theorem hyperbridge_obeys_coprocessor c o c' p r t :
  (on_accept hyperbridge_module p c = (o, c') ->
   (o = Some (Ok tt) /\ Some (post_source p) = Coprocessor /\
    exists m b', decode (post_body p) = Some m /\ hyperbridge_effect m (bank c) b' /\
      c' = upd_bank (fun _ => b') c) \/
   (o <> Some (Ok tt) /\ c' = c)) /\
  on_response hyperbridge_module r c = (Some (Err (IsmpError CannotHandleMessage)), c) /\
  on_timeout hyperbridge_module t c = (Some (Err (IsmpError CannotHandleMessage)), c).
Proof. split; [apply hyperbridge_on_accept_run|done]. Qed.

End properties.
