(* ===== verification/HyperbridgeMachine.v ===== *)
(** * State proofs of chains that pay a protocol fee

    [state-machines/hyperbridge/src/lib.rs]: the [StateMachineClient] hyperbridge uses for
    Substrate chains. Besides the commitment of a message it looks for the payment that
    pallet-hyperbridge recorded on the source chain, and compares it with the fee of the
    chain's host parameters. *)

From S2P Require Import Prelude StateMachine Router Messaging Host HostSpec Handlers ChildTrie PalletTypes PalletHost PalletRefines Pallet PalletProps Apps Hyperbridge SubstrateMachine.

Section machine.
Context `{Keccak256} `{!Codec SubstrateStateProof, !Codec Z} `{!TrieDb}.
Context {Acc Tree : Type}.

Abbreviation St := (Chain (Apps Acc) Tree).

(** The [state_machine] whose proofs are verified, and [T::Coprocessor] for the inner
    client. *)
Variable state_machine : StateMachine.
Variable Coprocessor : option StateMachine.

(** A message to verify: the keys of its commitment and of its payment, its size, and the
    chain it is charged for; GET requests are not charged. *)
Record Charged : Type := mkCharged {
  ch_commitment_key : bytes;
  ch_payment_key : bytes;
  ch_size : Z;
  ch_dest : option StateMachine
}.

Definition charged_request (request : Request) : option Charged :=
  commitment ← hash_request request;
  Some (mkCharged (request_commitment_storage_key commitment)
    (request_payment_storage_key commitment)
    (Z.of_nat (length (default [] (request_body request))))
    (match request with RequestPost req => Some (post_dest req) | RequestGet _ => None end)).

Definition charged_response (response : Response) : option Charged :=
  commitment ← hash_response response;
  encoded ← encode_response response;
  Some (mkCharged (response_commitment_storage_key commitment)
    (response_payment_storage_key commitment)
    (Z.of_nat (length encoded)) (Some (response_dest_chain response))).

Definition charged_items (item : RequestResponse) : option (list Charged) :=
  match item with
  | RRRequest requests => mapM charged_request requests
  | RRResponse responses => mapM charged_response responses
  end.

Definition not_present (text : bytes) (key : bytes) : Error :=
  Custom (text ++ lit " not present in path: " ++ debug_vec key).

Definition commitment_text (alg : HashAlgorithm) : bytes :=
  match alg with Keccak => lit "Request commitment" | Blake2 => lit "Response commitment" end.

(** The payment read from the proof. *)
Definition read_payment (p : SubstrateStateProof) (root : H256) (key : bytes) : V Error Z :=
  let! value := vlift (map_err read_error (trie_get (proof_hasher p) (storage_proof p) root key)) in
  let! paid :=
    match value with
    | Some value =>
        let! paid := vlift (ok_or (decode (A := Z) value)
            (Custom (lit "Failed to decode payment receipt: " ++ decode_text value))) in
        vret (Some paid)
    | None => vret None
    end in
  vlift (ok_or paid (not_present (lit "Request payment") key)).

(** A 128-bit integer has at most 39 digits. *)
Definition show_u128 (n : Z) : bytes := show_dec_go 39 n [].

(** The fee of [size] bytes; 32 bytes are the minimum. *)
Definition cost_of (size per_byte_fee : Z) : Z :=
  if size <? 32 then wrap128 (32 * per_byte_fee) else wrap128 (size * per_byte_fee).

Definition verify_charged (params : SubstrateHostParams) (p : SubstrateStateProof) (root : H256)
    (item : Charged) : V Error unit :=
  let! value := vlift (map_err read_error
      (trie_get (proof_hasher p) (storage_proof p) root (ch_commitment_key item))) in
  let! _ := vlift (ok_or value (not_present (commitment_text (proof_hasher p)) (ch_commitment_key item))) in
  match ch_dest item with
  | None => vret tt
  | Some dest =>
      let per_byte_fee :=
        default (shp_default_per_byte_fee params) (shp_per_byte_fees params !! dest) in
      if 0 <? per_byte_fee then
        let! paid := read_payment p root (ch_payment_key item) in
        let cost := cost_of (ch_size item) per_byte_fee in
        vguard (paid <? cost) (Custom (lit "Insufficient payment for request. Expected: "
          ++ show_u128 cost ++ lit ", got: " ++ show_u128 paid))
      else vret tt
  end.

Definition hyperbridge_verify_membership (c : St) (item : RequestResponse)
    (state : StateCommitment) (proof : Proof_) : V Error unit :=
  let! state_proof := vlift (decode_state_proof proof) in
  let! _ := vguard (match state_proof with OverlayProof _ => false | StateProof _ => true end)
      (Custom (lit "Expected Overlay Proof")) in
  let! root := vlift (ok_or (sc_overlay_root state) no_child_root) in
  get! commitments := charged_items item in
  match app_read hx_HostParams c !! state_machine with
  | Some (HPSubstrate params) =>
      let! _ := vmap (verify_charged (v1_params params) state_proof root) commitments in
      vret tt
  | _ =>
      get! text := to_string state_machine in
      verr (Custom (lit "State machine host params not found for " ++ text))
  end.

Definition hyperbridge_client_machine : StateMachineClient St := {|
  verify_membership := hyperbridge_verify_membership;
  receipts_state_trie_key := substrate_receipts_state_trie_key;
  verify_state_proof _ := substrate_verify_state_proof Coprocessor
|}.

End machine.

(** ** Payments and their verification *)

Section composition.
Context `{Keccak256, Codecs, !HeightKeys, !HeightSort, !ErrorText, !ChildRoot}.
Context `{!Codec Z, !Codec HyperbridgeMessage, !Codec SubstrateStateProof} `{!TrieDb}.
Context {Acc Tree : Type} `{!Currency Acc, !Mmr Tree, !Config (Apps Acc) Tree, !HyperbridgeEnv}.

(** The verifier charges what the dispatcher charged. *)
Lemma cost_of_protocol_fee params dest n :
  cost_of (Z.of_nat n) (default (shp_default_per_byte_fee params) (shp_per_byte_fees params !! dest))
  = protocol_fee params dest n.
Proof.
  unfold cost_of, protocol_fee. destruct (Z.ltb_spec (Z.of_nat n) 32), (Nat.ltb_spec n 32);
    (lia || (f_equal; lia)).
Qed.

(** The nodes of [sp] are a complete proof of the trie [t] under [root]. *)
Definition proves_trie (sp : SubstrateStateProof) (root : H256) (t : Trie) : Prop :=
  forall key, trie_get (proof_hasher sp) (storage_proof sp) root key = Ok (t !! key).

Lemma verify_charged_ok params sp root t item fees :
  proves_trie sp root t -> is_Some (t !! ch_commitment_key item) ->
  child_get (ch_payment_key item) t = Some fees ->
  (forall dest, ch_dest item = Some dest -> cost_of (ch_size item)
     (default (shp_default_per_byte_fee params) (shp_per_byte_fees params !! dest)) <= fees) ->
  verify_charged params sp root item = Some (Ok tt).
Proof.
  intros Hp [v Hv] Hpay Hcost. unfold verify_charged. rewrite Hp, Hv. cbn.
  destruct (ch_dest item) as [dest|]; [|done]. destruct (0 <? _); [|done].
  unfold read_payment. rewrite Hp. unfold child_get in Hpay.
  apply bind_Some in Hpay as (b & -> & Hb). cbn. rewrite Hb. cbn.
  apply vguard_ok, Z.ltb_ge. by apply Hcost.
Qed.

(** what pallet-hyperbridge charges is what hyperbridge asks for. A POST request
    dispatched on a chain through pallet-hyperbridge passes the verification on
    hyperbridge, commitment and payment, with any complete proof of the chain's child
    trie, when hyperbridge knows the chain's current fee parameters. *)
Theorem paid_request_verifies post fee (c c' d : Chain (Apps Acc) Tree) h m state proof sp root :
  pallet_inv c ->
  hyperbridge_dispatch_request (DispatchPostRequest post) fee c = (Some (Ok h), c') ->
  hx_HostParams (bank d) !! m = Some (HPSubstrate (hb_HostParams (bank c))) ->
  sc_overlay_root state = Some root -> decode (proof_bytes proof) = Some (OverlayProof sp) ->
  proves_trie (OverlayProof sp) root (st_child (storage c')) ->
  hyperbridge_verify_membership m d
    (RRRequest [requested (DispatchPostRequest post) (Nonce (storage c)) (now c)]) state proof
  = Some (Ok tt).
Proof.
  intros Hc Hrun Hd Hs Hdec Hp.
  destruct (hyperbridge_request_recorded _ _ _ _ _ Hc Hrun) as (Hc' & Hh & (leaf & Ha) & Hpay).
  unfold hyperbridge_verify_membership, decode_state_proof. rewrite Hdec, Hs. cbn [ok_or vlift vtry vguard].
  cbn [charged_items mapM]. unfold charged_request. rewrite Hh. cbn [mbind option_bind mret option_ret vget].
  unfold app_read. rewrite Hd. cbn [vmap]. erewrite verify_charged_ok; [done|exact Hp| |exact Hpay|].
  - assert (is_Some (m_req_commitments (a_msgs (pallet_abs c')) !! h)) as [x Hx].
    { rewrite Ha. cbn. rewrite lookup_insert_eq. eauto. }
    cbn in Hx. rewrite lookup_table in Hx. apply bind_Some in Hx as (b & Hb & _). by exists b.
  - intros dest [= <-]. cbn. by rewrite cost_of_protocol_fee.
Qed.

End composition.
