(* ===== verification/HostExecutive.v ===== *)
(** * The host executive

    [pallets/host-executive/src/lib.rs] and [params.rs]: the parameters of the ISMP hosts
    on the connected chains, changed by governance and sent to those chains. *)

From S2P Require Import Prelude StateMachine Router Messaging Host Handlers HostSpec Frame ChildTrie PalletTypes PalletHost PalletRefines Pallet PalletFrames PalletProps Apps Hyperbridge.

Inductive ExecutiveError : Type :=
| DispatchFailed
| UnknownStateMachine
| MismatchedHostParams.

(** [PALLET_ID.to_bytes()] *)
Definition HOST_EXECUTIVE_ID : bytes := lit "hostexec".

(** The Solidity encoding of the parameters, by alloy: each number as a [uint256], the
    addresses and the lists as they are. *)
Class ParamsAbi : Type := params_abi_encode : EvmHostParam -> bytes.

(** [EvmHostParamsAbi::encode]: the variant of the host manager's request comes first. *)
Definition encode_params `{!ParamsAbi} (p : EvmHostParam) : bytes := Byte.x01 :: params_abi_encode p.

(** [EvmHostParam::update]: a field changes when the update has a value for it. *)
Definition evm_params_update (p : EvmHostParam) (u : EvmHostParamUpdate) : EvmHostParam := {|
  ehp_default_timeout := default (ehp_default_timeout p) (ehu_default_timeout u);
  ehp_default_per_byte_fee := default (ehp_default_per_byte_fee p) (ehu_default_per_byte_fee u);
  ehp_state_commitment_fee := default (ehp_state_commitment_fee p) (ehu_state_commitment_fee u);
  ehp_fee_token := default (ehp_fee_token p) (ehu_fee_token u);
  ehp_admin := default (ehp_admin p) (ehu_admin u);
  ehp_handler := default (ehp_handler p) (ehu_handler u);
  ehp_host_manager := default (ehp_host_manager p) (ehu_host_manager u);
  ehp_uniswap_v2 := default (ehp_uniswap_v2 p) (ehu_uniswap_v2 u);
  ehp_un_staking_period := default (ehp_un_staking_period p) (ehu_un_staking_period u);
  ehp_challenge_period := default (ehp_challenge_period p) (ehu_challenge_period u);
  ehp_consensus_client := default (ehp_consensus_client p) (ehu_consensus_client u);
  ehp_state_machines := default (ehp_state_machines p) (ehu_state_machines u);
  ehp_per_byte_fees := default (ehp_per_byte_fees p) (ehu_per_byte_fees u);
  ehp_hyperbridge := default (ehp_hyperbridge p) (ehu_hyperbridge u)
|}.

Section executive.
Context `{Keccak256, Codecs} `{!Codec HyperbridgeMessage, !ParamsAbi}.
Context {Acc Tree : Type} `{!Currency Acc, !Mmr Tree, !Config (Apps Acc) Tree}.

Abbreviation St := (Chain (Apps Acc) Tree).

(** The parameters are a [BTreeMap], given by its entries in key order. *)
Definition set_host_params (origin : Origin) (params : list (StateMachine * HostParam)) :
    M St (result (CallError ExecutiveError) unit) :=
  let? _ := ret (call_admin origin) in
  let* _ := map_m (fun p =>
    let* _ := modify_app (on_hx_HostParams <[p.1 := p.2]>) in
    app_event (AEHostParamsSet p.1 p.2)) params in
  ret (Ok tt).

(** The request that tells the chain, and the updated parameters. *)
Definition host_params_request (state_machine : StateMachine) (params : HostParam)
    (update : HostParamUpdate) : option (DispatchPost * HostParam) :=
  match params, update with
  | HPEvm inner, HUEvm update =>
      let inner := evm_params_update inner update in
      Some (mkDispatchPost state_machine HOST_EXECUTIVE_ID (ehp_host_manager inner) 0
              (encode_params inner), HPEvm inner)
  | HPSubstrate _, HUSubstrate update =>
      Some (mkDispatchPost state_machine HOST_EXECUTIVE_ID PALLET_HYPERBRIDGE 0
              (encode (UpdateHostParams update)), HPSubstrate update)
  | _, _ => None
  end.

Definition update_host_params (origin : Origin) (state_machine : StateMachine)
    (update : HostParamUpdate) : M St (result (CallError ExecutiveError) unit) :=
  let? _ := ret (call_admin origin) in
  let? params := gets (app_read (fun k =>
    ok_or (hx_HostParams k !! state_machine) UnknownStateMachine)) in
  let? (post, updated) :=
    ret (ok_or (host_params_request state_machine params update) MismatchedHostParams) in
  let* dispatched := dispatch_request (DispatchPostRequest post) no_payer in
  let? _ := ret (map_err (fun _ => DispatchFailed) dispatched) in
  let* _ := modify_app (on_hx_HostParams <[state_machine := updated]>) in
  let* _ := app_event (AEHostParamsUpdated state_machine params updated) in
  ret (Ok tt).

Definition update_evm_hosts (origin : Origin) (params : list (StateMachine * H160)) :
    M St (result (CallError ExecutiveError) unit) :=
  let? _ := ret (call_admin origin) in
  let* _ := map_m (fun p =>
    let* old := gets (app_read (fun k => hx_EvmHosts k !! p.1)) in
    let* _ := modify_app (on_hx_EvmHosts <[p.1 := p.2]>) in
    match old with
    | Some old_address => app_event (AEHostAddressUpdated p.1 old_address p.2)
    | None => app_event (AEHostAddressSet p.1 p.2)
    end) params in
  ret (Ok tt).

End executive.

(** ** Properties *)

Section properties.
Context `{Keccak256, Codecs, !HeightKeys} `{!Codec HyperbridgeMessage, !ParamsAbi}.
Context {Acc Tree : Type} `{!Currency Acc, !Mmr Tree, !Config (Apps Acc) Tree}.

Abbreviation St := (Chain (Apps Acc) Tree).
Implicit Types c : St.

(** A message that costs nothing leaves the accounts alone. *)
Lemma free_dispatch_run d c h c' :
  pallet_inv c -> dispatch_request d no_payer c = (Some (Ok h), c') ->
  pallet_inv c' /\ bank c' = bank c /\
  hash_request (requested d (Nonce (storage c)) (now c)) = Some h /\
  (exists leaf, pallet_abs c'
     = upd_msgs (fun m => set_req_commitments <[h := encode (mkRequestMetadata leaf no_payer false)]>
         (set_nonce (fun n => wrap64 (n + 1)) m)) (pallet_abs c)) /\
  events c' = events c ++ [PERequest (request_dest_chain (requested d (Nonce (storage c)) (now c)))
                             HostStateMachine (Nonce (storage c)) h].
Proof.
  intros Hc Hrun. destruct (dispatch_request_abs _ _ _ _ _ Hc Hrun) as [Hc' Ha].
  destruct (dispatch_request_run _ _ _ _ _ Hc Hrun) as (b & Hb & [Hh _ (leaf & t & _ & ->)]).
  split; [done|]. split; [exact Hb|]. split; [done|]. split; [done|].
  cbn. by rewrite requested_source, requested_nonce.
Qed.

(** a successful change of host parameters was ordered by the admin origin for a
    chain whose parameters are known and of the same kind. The fields the update sets
    get their new values and the others stay; the new parameters are recorded, for this
    chain alone; a request with them, free of charge and without timeout, is committed
    for the chain, and both events are deposited. *)
Theorem update_host_params_functional origin m update c c' :
  pallet_inv c -> update_host_params origin m update c = (Some (Ok tt), c') ->
  AdminOrigin origin = true /\
  exists old post new h, hx_HostParams (bank c) !! m = Some old /\
    host_params_request m old update = Some (post, new) /\
    dp_dest post = m /\ dp_timeout post = 0 /\
    match old, update with
    | HPEvm p, HUEvm u => new = HPEvm (evm_params_update p u)
    | _, HUSubstrate v => new = HPSubstrate v
    | _, _ => False
    end /\
    bank c' = on_app_events (fun es => es ++ [AEHostParamsUpdated m old new])
                (on_hx_HostParams <[m := new]> (bank c)) /\
    hash_request (requested (DispatchPostRequest post) (Nonce (storage c)) (now c)) = Some h /\
    is_Some (m_req_commitments (a_msgs (pallet_abs c')) !! h) /\
    events c' = events c ++ [PERequest m HostStateMachine (Nonce (storage c)) h] /\
    pallet_inv c'.
Proof.
  intros Hc Hrun. unfold update_host_params in Hrun. step_ret Hrun u Ho.
  split; [unfold call_admin in Ho; by destruct (AdminOrigin origin)|].
  step_gets Hrun old Hold. unfold app_read in Hold. apply ok_or_ok in Hold.
  step_ret Hrun pn Hreq. destruct pn as [post new]. apply ok_or_ok in Hreq.
  apply bind_inv in Hrun as (r & c1 & Hd & Hrun). step_ret Hrun h Hr. destruct r as [h'|e]; [|done].
  injection Hr as ->. destruct (free_dispatch_run _ _ _ _ Hc Hd) as (Hc1 & Hb & Hh & [leaf Ha] & He).
  unfold bind, app_event, modify_app, modify, ret in Hrun. injection Hrun as <-.
  exists old, post, new, h. split; [done|]. split; [done|].
  assert (dp_dest post = m /\ dp_timeout post = 0) as [Hm Ht].
  { destruct old, update; simpl in Hreq; by simplify_eq. }
  split; [done|]. split; [done|]. split; [destruct old, update; simpl in Hreq; by simplify_eq|].
  split; [cbn; by rewrite Hb|]. split; [done|]. split; [|split; [|done]].
  - change (is_Some (m_req_commitments (a_msgs (pallet_abs c1)) !! h)). rewrite Ha. cbn.
    rewrite lookup_insert_eq. eauto.
  - cbn. rewrite He. cbn. by rewrite Hm.
Qed.

(** An update that sets nothing changes nothing, and repeating an update adds nothing. *)
Lemma evm_params_update_again p u :
  evm_params_update (evm_params_update p u) u = evm_params_update p u /\
  evm_params_update p (mkEvmHostParamUpdate None None None None None None None None None None
    None None None None) = p.
Proof.
  split; [|by destruct p]. unfold evm_params_update. cbn. f_equal; by destruct (_ u).
Qed.

End properties.
