(* ===== verification/Fishermen.v ===== *)
(** * pallet-fishermen

    [pallets/fishermen/src/lib.rs]: accounts on a list may veto a state commitment. A
    vetoed commitment is gone, and nothing can be proved with it any more. *)

From S2P Require Import Prelude StateMachine Router Messaging Host Handlers HostSpec Frame Requests Responses Timeouts ChildTrie PalletTypes PalletHost PalletRefines Pallet PalletFrames Apps.

Inductive FishermenError : Type :=
| AlreadyAdded
| NotInSet
| UnauthorizedAction
| VetoFailed.

Section fishermen.
Context `{Keccak256, Codecs} {Acc Tree : Type} `{!Currency Acc, !Mmr Tree, !Config (Apps Acc) Tree}.

Abbreviation St := (Chain (Apps Acc) Tree).

Definition fishermen_add (origin : Origin) (account : bytes) :
    M St (result (CallError FishermenError) unit) :=
  let? _ := ret (call_admin origin) in
  let* known := gets (app_read (fun k => bool_decide (account ∈ fm_Fishermen k))) in
  let? _ := ensure_not known AlreadyAdded in
  let* _ := modify_app (on_fm_Fishermen (fun l => {[account]} ∪ l)) in
  let* _ := app_event (AEAdded account) in
  ret (Ok tt).

Definition fishermen_remove (origin : Origin) (account : bytes) :
    M St (result (CallError FishermenError) unit) :=
  let? _ := ret (call_admin origin) in
  let* known := gets (app_read (fun k => bool_decide (account ∈ fm_Fishermen k))) in
  let? _ := ensure_not (negb known) NotInSet in
  let* _ := modify_app (on_fm_Fishermen (fun l => l ∖ {[account]})) in
  let* _ := app_event (AERemoved account) in
  ret (Ok tt).

Definition veto_state_commitment (origin : Origin) (height : StateMachineHeight) :
    M St (result (CallError FishermenError) unit) :=
  let? account := ret (call_signed origin) in
  let* known := gets (app_read (fun k => bool_decide (account ∈ fm_Fishermen k))) in
  let? _ := ensure_not (negb known) UnauthorizedAction in
  let? commitment := gets (fun c => map_err (fun _ => VetoFailed) (state_machine_commitment height c)) in
  let* deleted := delete_state_commitment height in
  let? _ := ret (map_err (fun _ => VetoFailed) deleted) in
  let* _ := app_event (AEStateCommitmentVetoed height commitment) in
  let* _ := deposit_ismp_event (EvStateCommitmentVetoed (mkStateCommitmentVetoed height account)) in
  ret (Ok tt).

End fishermen.

(** ** Messages proved at a height without a commitment *)

(** The heights a message is proved at. *)
Definition proved_at (msg : Message) : option StateMachineHeight :=
  match msg with
  | MsgRequest m => Some (proof_height (rm_proof m))
  | MsgResponse m => Some (proof_height (rsm_proof m))
  | MsgTimeout (TMPost _ proof) | MsgTimeout (TMPostResponse _ proof) => Some (proof_height proof)
  | MsgTimeout (TMGet _) | MsgConsensus _ | MsgFraudProof _ => None
  end.

Section unproved.
Context `{Keccak256} {St : Type} `{!IsmpHost St} `{!HeightSort} `{!HostModel St}.

Lemma unproved_refused h msg s o s' :
  inv s -> c_commitments (a_cons (abs s)) !! h = None -> proved_at msg = Some h ->
  handle_incoming_message msg s = (o, s') -> abs s' = abs s /\ forall r, o <> Some (Ok r).
Proof.
  intros Hs Hn Hp Hrun. destruct msg as [m|m|m|m|m]; cbn [handle_incoming_message proved_at] in *; try done.
  - injection Hp as <-.
    assert (~ request_message_valid m s) as Hnv.
    { intros [(client & c & s1 & _ & Hc & _) _]. congruence. }
    assert (forall r, o <> Some (Ok r)) as Ho.
    { intros r ->. apply Hnv. by eapply handle_request_ok. }
    split; [|done]. by destruct (handle_request_stopped _ _ _ _ Hs Hrun Ho) as [?|[_ ?]].
  - injection Hp as <-.
    destruct (handle_response_checked _ _ _ _ Hs Hrun) as [[Ho Ha]|([(client & c & _ & Hc & _) _] & _)];
      [done|]. congruence.
  - destruct (handle_timeout_checked _ _ _ _ Hs Hrun) as [[Ho Ha]|(Hv & _)]; [done|].
    destruct m as [l proof|l proof|l]; [| |done]; injection Hp as <-;
      destruct Hv as (client & c & _ & Hc & _); congruence.
Qed.
End unproved.

Section properties.
Context `{Keccak256, Codecs, !HeightKeys, !HeightSort} {Acc Tree : Type}.
Context `{!Currency Acc, !Mmr Tree, !Config (Apps Acc) Tree}.

Abbreviation St := (Chain (Apps Acc) Tree).
Implicit Types c : St.

Lemma veto_run origin h c r c' :
  pallet_inv c -> veto_state_commitment origin h c = (Some r, c') ->
  (exists who cm c1, r = Ok tt /\ origin = OriginSigned who /\ who ∈ fm_Fishermen (bank c) /\
     c_commitments (a_cons (pallet_abs c)) !! h = Some cm /\
     delete_state_commitment h c = (Some (Ok tt), c1) /\
     c' = mkChain (storage c1) (now c1)
            (on_app_events (fun es => es ++ [AEStateCommitmentVetoed h cm]) (bank c1)) (tree c1)
            (events c1 ++ [PEStateCommitmentVetoed h (take 32 who)]) (logs c1)) \/
  ((forall u, r <> Ok u) /\ c' = c /\
   ~ exists who cm, origin = OriginSigned who /\ who ∈ fm_Fishermen (bank c) /\
       c_commitments (a_cons (pallet_abs c)) !! h = Some cm).
Proof.
  intros Hc Hrun. unfold veto_state_commitment in Hrun.
  apply try_inv in Hrun as [(e & Ho & ->)|(who & c1 & Ho & Hrun)];
    apply ret_inv in Ho as [Ho <-].
  { right. split; [done|]. split; [done|]. intros (who & cm & -> & _). discriminate. }
  destruct origin as [|who'|]; try discriminate. injection Ho as ->. bind_gets Hrun.
  apply try_inv in Hrun as [(e & Ho & ->)|(u & c1 & Ho & Hrun)].
  { apply ensure_not_err in Ho as (Hn & _ & ->). right. split; [done|]. split; [done|].
    intros (x & cm & [= <-] & Hx & _). unfold app_read in Hn.
    by rewrite bool_decide_true in Hn by done. }
  apply ensure_not_ok in Ho as [Hk ->]. apply negb_false_iff, bool_decide_eq_true in Hk.
  apply try_inv in Hrun as [(e & Ho & ->)|(cm & c1 & Ho & Hrun)];
    apply gets_inv in Ho as [Ho ->]; change (state_machine_commitment h c) with
      (ok_or (state_commitments_get h (storage c)) (StateCommitmentNotFound h)) in Ho;
    rewrite state_commitments_get_ok in Ho by done.
  { right. split; [done|]. split; [done|]. intros (x & cm & _ & _ & Hcm).
    change (StateCommitments (storage c) !! h = Some cm) in Hcm. by rewrite Hcm in Ho. }
  left. exists who, cm. apply bind_inv in Hrun as (d & c1 & Hd & Hrun). exists c1.
  assert (d = Ok tt) as ->.
  { pose proof (delete_state_commitment_refines h c Hc) as (E & _).
    change (fst (delete_state_commitment h c) = Some (Ok tt)) in E. rewrite Hd in E. by injection E. }
  unfold try_bind, bind, ret, app_event, modify_app, deposit_ismp_event, deposit_event, modify in Hrun.
  cbn in Hrun. injection Hrun as <- <-. split; [done|]. split; [done|]. split; [done|]. split; [|done].
  change (StateCommitments (storage c) !! h = Some cm). destruct (StateCommitments _ !! h); naive_solver.
Qed.

(** Deleting a commitment, in the abstract state. *)
Lemma delete_commitment_run h c c1 :
  pallet_inv c -> delete_state_commitment h c = (Some (Ok tt), c1) ->
  let a := pallet_abs c in let a1 := pallet_abs c1 in
  pallet_inv c1 /\ events c1 = events c /\ a_msgs a1 = a_msgs a /\
  c_commitments (a_cons a1) = delete h (c_commitments (a_cons a)) /\
  c_latest (a_cons a1) = (if decide (c_latest (a_cons a) !! smh_id h = Some (smh_height h))
    then <[smh_id h := 1]> (c_latest (a_cons a)) else c_latest (a_cons a)).
Proof.
  intros Hc Hd a a1. pose proof (delete_state_commitment_refines h c Hc) as (_ & Ha & Hi).
  change (pallet_delete_state_commitment h c = (Some (Ok tt), c1)) in Hd.
  rewrite Hd in Ha, Hi. cbn [snd] in Ha, Hi. split; [done|]. split.
  { unfold pallet_delete_state_commitment, bind, modify_storage, modify, gets, ret in Hd. cbn in Hd.
    destruct (read _ _) as [n|]; [destruct (n =? _)|]; by injection Hd as <-. }
  subst a1. rewrite Ha. unfold spec_delete_state_commitment, spec_write, upd_cons. cbn [snd a_cons a_msgs].
  subst a. split; [done|]. by destruct (decide _).
Qed.

(** only a fisherman can veto a commitment, and only one that exists: then the
    commitment at that height is gone, with its event, the latest height falls back to 1
    if it was the vetoed one, and no message is lost. Afterwards no request, response or
    proved timeout whose proof is at that height is handled or has an effect. A veto
    that is refused changes nothing. *)
Theorem veto_disables_commitment origin h c r c' :
  pallet_inv c -> veto_state_commitment origin h c = (Some r, c') ->
  (r = Ok tt /\ exists who cm, origin = OriginSigned who /\ who ∈ fm_Fishermen (bank c) /\
     c_commitments (a_cons (pallet_abs c)) !! h = Some cm /\
     pallet_inv c' /\
     c_commitments (a_cons (pallet_abs c')) = delete h (c_commitments (a_cons (pallet_abs c))) /\
     c_latest (a_cons (pallet_abs c'))
       = (if decide (c_latest (a_cons (pallet_abs c)) !! smh_id h = Some (smh_height h))
          then <[smh_id h := 1]> (c_latest (a_cons (pallet_abs c)))
          else c_latest (a_cons (pallet_abs c))) /\
     a_msgs (pallet_abs c') = a_msgs (pallet_abs c) /\
     events c' = events c ++ [PEStateCommitmentVetoed h (take 32 who)] /\
     forall msg o c2, proved_at msg = Some h -> handle_incoming_message msg c' = (o, c2) ->
       pallet_abs c2 = pallet_abs c' /\ forall x, o <> Some (Ok x)) \/
  ((forall u, r <> Ok u) /\ c' = c).
Proof.
  intros Hc Hrun.
  destruct (veto_run _ _ _ _ _ Hc Hrun) as [(who & cm & c1 & -> & Ho & Hf & Hcm & Hd & ->)|(? & ? & _)];
    [left|by right].
  destruct (delete_commitment_run _ _ _ Hc Hd) as (Hi & He & Hm & Hdel & Hl).
  split; [done|]. exists who, cm. do 3 (split; [done|]). split; [exact Hi|].
  split; [exact Hdel|]. split; [exact Hl|]. split; [exact Hm|]. split; [cbn; by rewrite He|].
  intros msg o c2 Hp Hr. match type of Hr with _ ?x = _ => assert (Hi' : pallet_inv x) by exact Hi end.
  refine (unproved_refused h msg _ o c2 Hi' _ Hp Hr).
  etransitivity; [exact (f_equal (lookup h) Hdel)|apply lookup_delete_eq].
Qed.

End properties.
