(* ===== verification/EvmKeys.v ===== *)
(** * Storage slots of the EVM host

    [clients/sync-committee/evm-common/src/utils.rs] and [presets.rs]: the keys under
    which the Solidity contract keeps commitments and receipts, in the layout of its
    mappings. A [U256] panics when an addition overflows. *)

From S2P Require Import Prelude StateMachine Router Messaging Apps.

Definition REQUEST_COMMITMENTS_SLOT : Z := 0.
Definition RESPONSE_COMMITMENTS_SLOT : Z := 1.
Definition REQUEST_RECEIPTS_SLOT : Z := 2.
Definition RESPONSE_RECEIPTS_SLOT : Z := 3.

(** [add_off_set_to_map_key]: [None] is the panic of a key of more than 32 bytes or of an
    overflow. *)
Definition add_off_set_to_map_key (key : bytes) (offset : Z) : option H256 :=
  if (length key <=? 32)%nat then
    number ← u256_add (of_be_bytes 0 key) offset; Some (to_be_bytes 32 number)
  else None.

Section keys.
Context `{Keccak256}.

Definition derive_unhashed_map_key (key : bytes) (slot : Z) : H256 :=
  keccak256 (key ++ to_be_bytes 32 slot).

Definition derive_map_key (key : bytes) (slot : Z) : H256 :=
  keccak256 (keccak256 (key ++ to_be_bytes 32 slot)).

Definition derive_map_key_with_offset (key : bytes) (slot offset : Z) : option H256 :=
  let root_key := keccak256 (key ++ to_be_bytes 32 slot) in
  bytes ← add_off_set_to_map_key root_key offset; Some (keccak256 bytes).

(** The keys of the commitments of requests or responses. *)
Definition req_res_commitment_key (item : RequestResponse) : option (list bytes) :=
  match item with
  | RRRequest requests => mapM (fun req =>
      commitment ← hash_request req;
      derive_map_key_with_offset commitment REQUEST_COMMITMENTS_SLOT 1) requests
  | RRResponse responses => mapM (fun res =>
      commitment ← hash_response res;
      derive_map_key_with_offset commitment RESPONSE_COMMITMENTS_SLOT 1) responses
  end.

(** The keys of their receipts. *)
Definition req_res_receipt_keys (item : RequestResponse) : option (list bytes) :=
  match item with
  | RRRequest requests => mapM (fun req =>
      commitment ← hash_request req;
      Some (derive_unhashed_map_key commitment REQUEST_RECEIPTS_SLOT)) requests
  | RRResponse responses => mapM (fun res =>
      commitment ← hash_request (response_request res);
      Some (derive_unhashed_map_key commitment RESPONSE_RECEIPTS_SLOT)) responses
  end.

End keys.

(** The slot after that of a 32-byte key is another one. *)
Lemma add_off_set_next key k :
  length key = 32%nat -> add_off_set_to_map_key key 1 = Some k ->
  length k = 32%nat /\ of_be_bytes 0 k = of_be_bytes 0 key + 1.
Proof.
  intros Hl. unfold add_off_set_to_map_key. rewrite Hl. cbn [Nat.leb].
  intros (n & [-> Hn]%u256_add_some & [= <-])%bind_Some. split; [apply length_to_be_bytes|].
  assert (forall l acc, 0 <= acc -> 0 <= of_be_bytes acc l) as Hpos.
  { induction l as [|x l IH]; intros acc Ha; cbn; [done|]. apply IH. pose proof (byte_val_range x). lia. }
  apply of_to_be_bytes. pose proof (Hpos key 0 ltac:(lia)). unfold u256_max in Hn. split; [lia|].
  change (256 ^ Z.of_nat 32) with (2 ^ 256). lia.
Qed.
