(* ===== verification/Relayer.v ===== *)
(** * The relayer pallet

    [pallets/relayer/src/lib.rs] and [withdrawal.rs]: relayers prove which messages they
    delivered, accumulate the fees of those messages, and withdraw them on the chain
    where the fees were paid. *)

From S2P Require Import Prelude StateMachine Router Messaging Host Handlers ChildTrie PalletTypes PalletHost Pallet Apps EvmKeys Hyperbridge.

Inductive RelayerError : Type :=
| ProofValidationError
| InvalidPublicKey
| InvalidSignature
| EmptyBalance
| NotEnoughBalance
| MismatchedStateMachine
| MissingMangerAddress
| RelayerDispatchFailed
| ErrorCompletingCall
| MissingCommitments.

Definition RELAYER_MODULE_ID : bytes := lit "ISMP-RLYR".

(** [MinWithdrawal]: ten dollars. *)
Definition MinWithdrawal : Z := 10 * 10 ^ 18.

(** ** Library code *)

(** Signature checks of the host functions: the recovered public key, or whether the
    signature is one of the message under the key. *)
Class Crypto : Type := {
  secp256k1_ecdsa_recover : bytes -> bytes -> option bytes;
  sr25519_verify : bytes -> bytes -> bytes -> bool;
  ed25519_verify : bytes -> bytes -> bytes -> bool
}.

(** RLP decoding (alloy) of the values in an EVM storage proof. *)
Class Rlp : Type := {
  rlp_u256 : bytes -> option Z;
  rlp_address : bytes -> option bytes;
  rlp_b256 : bytes -> option bytes
}.

(** [ethabi::encode] of an address, a number and a flag. *)
Class EthAbi : Type := ethabi_encode : H160 -> Z -> bool -> bytes.

(** The order in which a hash set is traversed: any. *)
Class HashOrder : Type := {
  hash_order : list bytes -> list bytes;
  hash_order_perm : forall l, hash_order l ≡ₚ l
}.

(** [WithdrawalParams::abi_encode]: [H160::from_slice] panics unless the beneficiary has
    20 bytes. *)
Definition abi_encode `{!EthAbi} (p : WithdrawalParams) : option bytes :=
  if (length (wpar_beneficiary_address p) =? 20)%nat
  then Some (Byte.x00 :: ethabi_encode (wpar_beneficiary_address p) (wpar_amount p) (wpar_native p))
  else None.

Section relayer.
Context `{Keccak256, Codecs, !HeightSort} `{!Codec (Z * StateMachine), !Codec HyperbridgeMessage}.
Context `{!Crypto, !Rlp, !EthAbi, !HashOrder}.
Context {Acc Tree : Type} `{!Currency Acc, !Mmr Tree, !Config (Apps Acc) Tree}.

Abbreviation St := (Chain (Apps Acc) Tree).

(** What a relayer signs to withdraw. *)
Definition message (nonce : Z) (dest_chain : StateMachine) : H256 :=
  keccak256 (encode (nonce, dest_chain)).

Definition relayer_nonce (address : bytes) (chain : StateMachine) (c : St) : Z :=
  default 0 (rl_Nonce (bank c) !! (address, chain)).
Definition relayer_fees (chain : StateMachine) (address : bytes) (c : St) : Z :=
  default 0 (rl_Fees (bank c) !! (chain, address)).
Definition min_withdrawal_amount (c : St) : Z :=
  default MinWithdrawal (rl_MinimumWithdrawalAmount (bank c)).

(** ** Withdrawing *)

(** A public key and a signature of the lengths of their curve. *)
Definition verify_key (verify : bytes -> bytes -> bytes -> bool) (public_key signature : bytes)
    (dest_chain : StateMachine) : M St (result RelayerError bytes) :=
  let? _ := ensure_not (negb (length signature =? 64)%nat) InvalidSignature in
  let? _ := ensure_not (negb (length public_key =? 32)%nat) InvalidPublicKey in
  let* nonce := gets (relayer_nonce public_key dest_chain) in
  let? _ := ensure_not (negb (verify signature (message nonce dest_chain) public_key))
      InvalidSignature in
  ret (Ok public_key).

(** The address that has signed the withdrawal. *)
Definition authenticate (data : WithdrawalInputData) : M St (result RelayerError bytes) :=
  match wd_signature data with
  | SigEvm address signature =>
      let? _ := ensure_not (negb (length signature =? 65)%nat) InvalidSignature in
      let* nonce := gets (relayer_nonce address (wd_dest_chain data)) in
      let? pub_key := ret (ok_or
          (secp256k1_ecdsa_recover signature (message nonce (wd_dest_chain data))) InvalidSignature) in
      let? _ := ensure_not (negb (bool_decide (drop 12 (keccak256 pub_key) = address)))
          InvalidPublicKey in
      ret (Ok address)
  | SigSr25519 public_key signature =>
      verify_key sr25519_verify public_key signature (wd_dest_chain data)
  | SigEd25519 public_key signature =>
      verify_key ed25519_verify public_key signature (wd_dest_chain data)
  end.

(** The module that pays out on the destination. *)
Definition relayer_manager_address (dest_chain : StateMachine) (c : St) : result RelayerError bytes :=
  if is_substrate dest_chain then Ok PALLET_HYPERBRIDGE
  else match hx_HostParams (bank c) !! dest_chain with
       | None => Err MissingMangerAddress
       | Some (HPEvm params) => Ok (ehp_host_manager params)
       | Some (HPSubstrate _) => Err MismatchedStateMachine
       end.

(** The body of the withdrawal request; [AccountId32::try_from] needs 32 bytes. *)
Definition withdrawal_body (dest_chain : StateMachine) (params : WithdrawalParams) :
    M St (result RelayerError bytes) :=
  if is_evm dest_chain then
    let* data := or_panic (abi_encode params) in ret (Ok data)
  else
    ret (if (length (wpar_beneficiary_address params) =? 32)%nat
         then Ok (encode (WithdrawRelayerFees (mkWithdrawalRequest
                   (low_u128 (wpar_amount params)) (wpar_beneficiary_address params))))
         else Err InvalidPublicKey).

Definition withdraw (withdrawal_data : WithdrawalInputData) : M St (result RelayerError unit) :=
  let dest_chain := wd_dest_chain withdrawal_data in
  let? address := authenticate withdrawal_data in
  let* available_amount := gets (relayer_fees dest_chain address) in
  let* minimum := gets min_withdrawal_amount in
  let? _ := ensure_not (available_amount <? minimum) NotEnoughBalance in
  let? manager := gets (relayer_manager_address dest_chain) in
  let* nonce := gets (relayer_nonce address dest_chain) in
  let* _ := modify_app (on_rl_Nonce <[(address, dest_chain) := wrap64 (nonce + 1)]>) in
  let? data := withdrawal_body dest_chain (mkWithdrawalParams address available_amount false) in
  let post := mkDispatchPost dest_chain RELAYER_MODULE_ID manager 0 data in
  let* dispatched := dispatch_request (DispatchPostRequest post) no_payer in
  let? _ := ret (map_err (fun _ => RelayerDispatchFailed) dispatched) in
  let* _ := modify_app (on_rl_Fees <[(dest_chain, address) := 0]>) in
  let* _ := app_event (AEWithdraw (take 32 address) dest_chain available_amount) in
  ret (Ok tt).

(** ** Accumulating *)

(** Whether a commitment is known and not yet paid for. *)
Definition unclaimed (t : Trie) (key : Key) : bool :=
  match key with
  | KeyRequest req =>
      match RequestCommitments.get req t with
      | Some leaf_meta => negb (rmeta_claimed leaf_meta)
      | None => false
      end
  | KeyResponse _ response_commitment =>
      match ResponseCommitments.get response_commitment t with
      | Some leaf_meta => negb (rmeta_claimed leaf_meta)
      | None => false
      end
  end.

(** The key of a commitment on the source chain; none for unsupported chains. *)
Definition commitment_key (source : StateMachine) (key : Key) : option bytes :=
  match key with
  | KeyRequest commitment =>
      if is_evm source then Some (derive_unhashed_map_key commitment REQUEST_COMMITMENTS_SLOT)
      else if is_substrate source then Some (request_commitment_storage_key commitment)
      else None
  | KeyResponse _ response_commitment =>
      if is_evm source
      then Some (derive_unhashed_map_key response_commitment RESPONSE_COMMITMENTS_SLOT)
      else if is_substrate source then Some (response_commitment_storage_key response_commitment)
      else None
  end.

Definition get_commitment_keys (proof : WithdrawalProof) : list bytes :=
  omap (commitment_key (smi_state_id (smh_id (proof_height (wp_source_proof proof)))))
    (wp_commitments proof).

(** The key of a receipt on the destination chain. *)
Definition receipt_key (dest : StateMachine) (key : Key) : option bytes :=
  match key with
  | KeyRequest commitment =>
      if is_evm dest then Some (derive_unhashed_map_key commitment REQUEST_RECEIPTS_SLOT)
      else if is_substrate dest then Some (request_receipt_storage_key commitment)
      else None
  | KeyResponse request_commitment _ =>
      if is_evm dest
      then Some (derive_unhashed_map_key request_commitment RESPONSE_RECEIPTS_SLOT)
      else if is_substrate dest then Some (response_receipt_storage_key request_commitment)
      else None
  end.

Definition get_receipt_keys (proof : WithdrawalProof) : list bytes :=
  omap (receipt_key (smi_state_id (smh_id (proof_height (wp_dest_proof proof)))))
    (wp_commitments proof).

(** The second slots of the response receipts of an EVM chain. *)
Definition slot_2_keys (proof : WithdrawalProof) (dest_keys : list bytes) : option (list bytes) :=
  if is_evm (smi_state_id (smh_id (proof_height (wp_dest_proof proof)))) then
    mapM (fun key => add_off_set_to_map_key key 1)
      (omap (fun kc => match kc.2 with KeyResponse _ _ => Some kc.1 | KeyRequest _ => None end)
         (zip dest_keys (wp_commitments proof)))
  else Some [].

Definition verify_withdrawal_proof (proof : Proof_) (keys : list bytes) :
    M St (result RelayerError (gmap bytes (option bytes))) :=
  let invalid {A} (r : result Error A) := map_err (fun _ => ProofValidationError) r in
  let* validated := validate_state_machine (proof_height proof) in
  let? state_machine := ret (invalid validated) in
  let? state := gets (fun c => invalid (state_machine_commitment (proof_height proof) c)) in
  let? result := ask (fun c => invalid <$> verify_state_proof state_machine c keys state proof) in
  ret (Ok (list_to_map result)).

(** [result.get(key).cloned().flatten()] *)
Definition proved_value (result : gmap bytes (option bytes)) (key : bytes) : option bytes :=
  result !! key ≫= id.

(** The fee in the metadata of a message on its source chain. *)
Definition decode_fee (source : StateMachine) (encoded_metadata : bytes) : result RelayerError Z :=
  if is_evm source then ok_or (rlp_u256 encoded_metadata) ProofValidationError
  else if is_substrate source then
    ok_or ((fun m => fm_fee (rmeta_fee m)) <$> decode (A := RequestMetadata) encoded_metadata)
      ProofValidationError
  else Err MismatchedStateMachine.

(** The relayer in the receipt of a request. *)
Definition decode_request_receipt (dest : StateMachine) (encoded_receipt : bytes) :
    result RelayerError bytes :=
  if is_evm dest then ok_or (rlp_address encoded_receipt) ProofValidationError
  else if is_substrate dest then ok_or (decode (A := bytes) encoded_receipt) ProofValidationError
  else Err MismatchedStateMachine.

(** The relayer and the response in the receipt of a response. *)
Definition decode_response_receipt (dest : StateMachine) (dest_result : gmap bytes (option bytes))
    (dest_key encoded_receipt : bytes) : M St (result RelayerError (bytes * H256)) :=
  if is_evm dest then
    let? response_commitment := ret (ok_or (rlp_b256 encoded_receipt) ProofValidationError) in
    let* slot_2_key := or_panic (add_off_set_to_map_key dest_key 1) in
    let? encoded_address := ret (ok_or (proved_value dest_result slot_2_key) ProofValidationError) in
    let? address := ret (ok_or (rlp_address encoded_address) ProofValidationError) in
    ret (Ok (address, response_commitment))
  else if is_substrate dest then
    let? receipt := ret (ok_or (decode (A := ResponseReceipt) encoded_receipt) ProofValidationError) in
    ret (Ok (receipt_relayer receipt, receipt_response receipt))
  else ret (Err MismatchedStateMachine).

(** The body of the loop of [validate_results]: the fee of one message, for its relayer. *)
Definition validate_key (proof : WithdrawalProof) (source_result dest_result : gmap bytes (option bytes))
    (acc : gmap bytes Z * list H256) (entry : Key * bytes * bytes) :
    M St (result RelayerError (gmap bytes Z * list H256)) :=
  let '(key, source_key, dest_key) := entry in
  let source := smi_state_id (smh_id (proof_height (wp_source_proof proof))) in
  let dest := smi_state_id (smh_id (proof_height (wp_dest_proof proof))) in
  match proved_value source_result source_key with
  | None => ret (Ok acc)
  | Some encoded_metadata =>
      let? fee := ret (decode_fee source encoded_metadata) in
      let? encoded_receipt := ret (ok_or (proved_value dest_result dest_key) ProofValidationError) in
      let? (relayer, commitment) :=
        match key with
        | KeyRequest commitment =>
            let? address := ret (decode_request_receipt dest encoded_receipt) in
            ret (Ok (address, commitment))
        | KeyResponse _ response_commitment =>
            let? (relayer, res) := decode_response_receipt dest dest_result dest_key encoded_receipt in
            let? _ := ensure_not (negb (bool_decide (response_commitment = res)))
                ProofValidationError in
            ret (Ok (relayer, response_commitment))
        end in
      let* entry := or_panic (u256_add (default 0 (acc.1 !! relayer)) fee) in
      ret (Ok (<[relayer := entry]> acc.1, acc.2 ++ [commitment]))
  end.

Definition validate_results (proof : WithdrawalProof) (source_keys dest_keys : list bytes)
    (source_result dest_result : gmap bytes (option bytes)) :
    M St (result RelayerError (gmap bytes Z * list H256)) :=
  try_fold_m (validate_key proof source_result dest_result) (∅, [])
    (zip (zip (wp_commitments proof) source_keys) dest_keys).

(** [accumulate_fee], and the body of the loop that credits the fees. *)
Definition accumulate_fee (state_machine : StateMachine) (address : bytes) (fee : Z) : M St unit :=
  let* inner := gets (relayer_fees state_machine address) in
  let* total := or_panic (u256_add inner fee) in
  modify_app (on_rl_Fees <[(state_machine, address) := total]>).

Definition credit_fee (state_machine : StateMachine) (total_fee : gmap bytes Z) (entry : bytes * Z) :
    M St (result RelayerError (gmap bytes Z)) :=
  let* _ := accumulate_fee state_machine entry.1 entry.2 in
  let* inner_fee := or_panic (u256_add (default 0 (total_fee !! entry.1)) entry.2) in
  ret (Ok (<[entry.1 := inner_fee]> total_fee)).

Definition claim (m : RequestMetadata) : RequestMetadata :=
  mkRequestMetadata (rmeta_mmr m) (rmeta_fee m) true.

(** The body of the loop that marks the commitments as paid for. *)
Definition mark_claimed (claimed_commitments : list H256) (key : Key) : M St unit :=
  match key with
  | KeyRequest req =>
      if bool_decide (req ∈ claimed_commitments) then
        let* meta := gets (read (fun s => RequestCommitments.get req (st_child s))) in
        match meta with
        | Some leaf_meta =>
            modify_storage (on_child (RequestCommitments.insert req (claim leaf_meta)))
        | None => ret tt
        end
      else ret tt
  | KeyResponse _ response_commitment =>
      if bool_decide (response_commitment ∈ claimed_commitments) then
        let* meta := gets (read (fun s => ResponseCommitments.get response_commitment (st_child s))) in
        match meta with
        | Some leaf_meta =>
            modify_storage (on_child (ResponseCommitments.insert response_commitment (claim leaf_meta)))
        | None => ret tt
        end
      else ret tt
  end.

Definition accumulate (withdrawal_proof : WithdrawalProof) : M St (result RelayerError unit) :=
  let* kept := gets (fun c =>
    filter (fun key => unclaimed (st_child (storage c)) key) (wp_commitments withdrawal_proof)) in
  let proof := mkWithdrawalProof kept (wp_source_proof withdrawal_proof)
                 (wp_dest_proof withdrawal_proof) in
  let? _ := ensure_not (bool_decide (kept = [])) MissingCommitments in
  let source_keys := get_commitment_keys proof in
  let dest_keys := get_receipt_keys proof in
  let state_machine := smi_state_id (smh_id (proof_height (wp_source_proof proof))) in
  let* slot_2 := or_panic (slot_2_keys proof dest_keys) in
  let? source_result := verify_withdrawal_proof (wp_source_proof proof) source_keys in
  let? dest_result := verify_withdrawal_proof (wp_dest_proof proof) (dest_keys ++ slot_2) in
  let? (result, claimed_commitments) :=
    validate_results proof source_keys dest_keys source_result dest_result in
  let? total_fee := try_fold_m (credit_fee state_machine) ∅ (map_to_list result) in
  let* _ := map_m (mark_claimed claimed_commitments) kept in
  let* _ := map_m (fun address =>
    app_event (AEAccumulateFees (take 32 address) state_machine (default 0 (total_fee !! address))))
    (hash_order (map_to_list result).*1) in
  ret (Ok tt).

(** ** Calls *)

Definition accumulate_fees (origin : Origin) (withdrawal_proof : WithdrawalProof) :
    M St (result (CallError RelayerError) unit) :=
  let? _ := ret (call_none origin) in
  let? _ := accumulate withdrawal_proof in ret (Ok tt).

Definition withdraw_fees (origin : Origin) (withdrawal_data : WithdrawalInputData) :
    M St (result (CallError RelayerError) unit) :=
  let? _ := ret (call_none origin) in
  let? _ := withdraw withdrawal_data in ret (Ok tt).

(** The amount is given in dollars; the product wraps around in a release build. *)
Definition set_minimum_withdrawal (origin : Origin) (amount : Z) :
    M St (result (CallError RelayerError) unit) :=
  let? _ := ret (call_admin origin) in
  let* _ := modify_app (on_rl_Minimum (fun _ => Some (wrap128 (amount * 10 ^ 18)))) in
  ret (Ok tt).

Inductive RelayerCall : Type :=
| CallAccumulateFees (withdrawal_proof : WithdrawalProof)
| CallWithdrawFees (withdrawal_data : WithdrawalInputData)
| CallSetMinimumWithdrawal (amount : Z).

Context `{!Codec WithdrawalProof, !Codec WithdrawalInputData}.

Definition relayer_validate_unsigned (call : RelayerCall) :
    M St (result TransactionValidityError ValidTransaction) :=
  let valid (res : M St (result RelayerError unit)) (encoding : bytes) :=
    let* res := res in
    let? _ := ret (map_err (fun _ => InvalidCall) res) in
    ret (Ok (mkValidTransaction 100 [] [keccak256 encoding] u64_max true)) in
  match call with
  | CallAccumulateFees withdrawal_proof => valid (accumulate withdrawal_proof) (encode withdrawal_proof)
  | CallWithdrawFees withdrawal_data => valid (withdraw withdrawal_data) (encode withdrawal_data)
  | CallSetMinimumWithdrawal _ => ret (Err InvalidCall)
  end.

End relayer.
