(* ===== verification/RelayerProps.v ===== *)
(** * Correctness of the relayer pallet

    Withdrawals are signed, paid once and in full; fees are accumulated only for proved
    deliveries, and a delivery that has been paid for is not paid for by a later proof. *)

From S2P Require Import Prelude StateMachine Router Messaging Host Handlers HostSpec Frame Requests ChildTrie PalletTypes PalletHost PalletRefines Pallet PalletFrames PalletProps Apps EvmKeys Hyperbridge HostExecutive Relayer.

Section properties.
Context `{Keccak256, Codecs, !HeightKeys, !HeightSort}.
Context `{!Codec (Z * StateMachine), !Codec HyperbridgeMessage, !ParamsAbi}.
Context `{!Crypto, !Rlp, !EthAbi, !HashOrder}.
Context {Acc Tree : Type} `{!Currency Acc, !Mmr Tree, !Config (Apps Acc) Tree}.

Abbreviation St := (Chain (Apps Acc) Tree).
Implicit Types c : St.

(** ** Withdrawals *)

(** The signature of the withdrawal is one of [address] on its current nonce. *)
Definition signed_by (data : WithdrawalInputData) (nonce : Z) (address : bytes) : Prop :=
  let msg := message nonce (wd_dest_chain data) in
  match wd_signature data with
  | SigEvm a s => a = address /\ length s = 65%nat /\
      exists pk, secp256k1_ecdsa_recover s msg = Some pk /\ drop 12 (keccak256 pk) = address
  | SigSr25519 k s => k = address /\ length s = 64%nat /\ length k = 32%nat /\
      sr25519_verify s msg k = true
  | SigEd25519 k s => k = address /\ length s = 64%nat /\ length k = 32%nat /\
      ed25519_verify s msg k = true
  end.

Lemma verify_key_ok verify k s dest c a c' :
  verify_key verify k s dest c = (Some (Ok a), c') ->
  c' = c /\ k = a /\ length s = 64%nat /\ length k = 32%nat /\
  verify s (message (relayer_nonce a dest c) dest) k = true.
Proof.
  intros Hrun. unfold verify_key in Hrun. step_guard Hrun G1. step_guard Hrun G2. bind_gets Hrun.
  step_guard Hrun G3. apply ret_inv in Hrun as [E <-]. injection E as <-.
  apply negb_false_iff in G1, G2, G3. apply Nat.eqb_eq in G1, G2. done.
Qed.

Lemma authenticate_ok data c a c' :
  authenticate data c = (Some (Ok a), c') ->
  c' = c /\ signed_by data (relayer_nonce a (wd_dest_chain data) c) a.
Proof.
  unfold authenticate, signed_by. destruct (wd_signature data) as [k s|k s|k s]; intros Hrun.
  2-3: apply verify_key_ok in Hrun as (-> & <- & ? & ? & ?); done.
  step_guard Hrun G1. bind_gets Hrun. step_ret Hrun pk Hpk. apply ok_or_ok in Hpk.
  step_guard Hrun G2. apply ret_inv in Hrun as [E <-]. injection E as <-.
  apply negb_false_iff in G1, G2. apply Nat.eqb_eq in G1. apply bool_decide_eq_true in G2.
  split; [done|]. split; [done|]. split; [done|]. by exists pk.
Qed.

(** The body of the payout: the whole amount on an EVM chain, its low 128 bits on a
    Substrate chain. *)
Definition payout_body (dest : StateMachine) (address : bytes) (amount : Z) (body : bytes) : Prop :=
  if is_evm dest then abi_encode (mkWithdrawalParams address amount false) = Some body
  else length address = 32%nat /\
       body = encode (WithdrawRelayerFees (mkWithdrawalRequest (low_u128 amount) address)).

Lemma withdrawal_body_ok dest address amount c body c' :
  withdrawal_body dest (mkWithdrawalParams address amount false) c = (Some (Ok body), c') ->
  c' = c /\ payout_body dest address amount body.
Proof.
  unfold withdrawal_body, payout_body. destruct (is_evm dest); intros Hrun.
  - apply bind_inv in Hrun as (d & c1 & Hd & Hrun). apply or_panic_inv in Hd as [Hd ->].
    apply ret_inv in Hrun as [E <-]. by injection E as <-.
  - apply ret_inv in Hrun as [E <-]. cbn [wpar_beneficiary_address wpar_amount] in E.
    destruct (Nat.eqb_spec (length address) 32); [|done]. by injection E as <-.
Qed.

(** What a withdrawal of [address] leaves behind. *)
Record withdrawn (data : WithdrawalInputData) (address : bytes) c c' : Prop := {
  wn_signed : signed_by data (relayer_nonce address (wd_dest_chain data) c) address;
  wn_enough : min_withdrawal_amount c <= relayer_fees (wd_dest_chain data) address c;
  wn_bank : bank c' = on_app_events (fun es => es ++ [AEWithdraw (take 32 address)
      (wd_dest_chain data) (relayer_fees (wd_dest_chain data) address c)])
    (on_rl_Fees <[(wd_dest_chain data, address) := 0]>
      (on_rl_Nonce <[(address, wd_dest_chain data)
          := wrap64 (relayer_nonce address (wd_dest_chain data) c + 1)]> (bank c)));
  wn_request : exists manager body h,
    relayer_manager_address (wd_dest_chain data) c = Ok manager /\
    payout_body (wd_dest_chain data) address (relayer_fees (wd_dest_chain data) address c) body /\
    hash_request (RequestPost (mkPostRequest HostStateMachine (wd_dest_chain data)
      (Nonce (storage c)) RELAYER_MODULE_ID manager 0 body)) = Some h /\
    is_Some (m_req_commitments (a_msgs (pallet_abs c')) !! h) /\
    events c' = events c ++ [PERequest (wd_dest_chain data) HostStateMachine (Nonce (storage c)) h];
  wn_inv : pallet_inv c'
}.

Lemma withdraw_ok data c c' :
  pallet_inv c -> withdraw data c = (Some (Ok tt), c') -> exists address, withdrawn data address c c'.
Proof.
  intros Hc Hrun. unfold withdraw in Hrun. cbv zeta in Hrun.
  apply try_ok_inv in Hrun as (address & c1 & Ha & Hrun). apply authenticate_ok in Ha as [-> Hsig].
  exists address. bind_gets Hrun. bind_gets Hrun. step_guard Hrun Hmin. step_gets Hrun manager Hman.
  bind_gets Hrun. apply bind_inv in Hrun as (u & c1 & Hm & Hrun).
  unfold modify_app, modify in Hm. injection Hm as <- <-.
  apply try_ok_inv in Hrun as (body & c1 & Hb & Hrun). apply withdrawal_body_ok in Hb as [-> Hb].
  apply bind_inv in Hrun as (r & c1 & Hd & Hrun). step_ret Hrun h Hr. destruct r as [h'|e]; [|done].
  injection Hr as ->. match type of Hd with dispatch_request _ _ ?x = _ => assert (Hc0 : pallet_inv x) by done end.
  destruct (free_dispatch_run _ _ _ _ Hc0 Hd) as (Hc1 & Hbank & Hh & [leaf Habs] & Hev).
  unfold bind, app_event, modify_app, modify, ret in Hrun. injection Hrun as <-.
  split; [done|by apply Z.ltb_ge in Hmin| | |done].
  - cbn. by rewrite Hbank.
  - exists manager, body, h. split; [done|]. split; [done|]. split; [done|]. split; [|done].
    change (is_Some (m_req_commitments (a_msgs (pallet_abs c1)) !! h)). rewrite Habs. cbn.
    rewrite lookup_insert_eq. eauto.
Qed.

(** C10: a successful withdrawal was signed, over the current nonce of the address for
    that chain, by the address it is paid to, whose fees there reach the minimum. The
    fees are set to zero and the nonce moves on, for this address and chain alone; a
    request that tells the chain to pay exactly these fees to the address is committed
    and announced: the full amount for an EVM chain, its low 128 bits for a Substrate
    chain. Nothing else is changed, in particular no balance on this chain. *)
Theorem withdraw_pays_signer data c c' :
  pallet_inv c -> withdraw data c = (Some (Ok tt), c') ->
  exists address, withdrawn data address c c' /\
    relayer_fees (wd_dest_chain data) address c' = 0 /\
    relayer_nonce address (wd_dest_chain data) c'
      = wrap64 (relayer_nonce address (wd_dest_chain data) c + 1) /\
    (forall m a, (m, a) <> (wd_dest_chain data, address) -> relayer_fees m a c' = relayer_fees m a c) /\
    forall a, balance a (bank c') = balance a (bank c).
Proof.
  intros Hc Hrun. destruct (withdraw_ok _ _ _ Hc Hrun) as [address Hw]. exists address.
  split; [done|]. pose proof (wn_bank _ _ _ _ Hw) as Hb. unfold relayer_fees, relayer_nonce.
  rewrite Hb. cbn. rewrite !lookup_insert_eq. split; [done|]. split; [done|]. split; [|done].
  intros m a Hne. by rewrite lookup_insert_ne by done.
Qed.

(** after a withdrawal the same relayer can withdraw nothing from that chain until
    new fees have been accumulated: whatever it signs, a further withdrawal is refused
    without effect, as long as the minimum is positive. *)
Theorem withdraw_only_once data c c' address data2 c2 :
  pallet_inv c -> withdraw data c = (Some (Ok tt), c') -> 0 < min_withdrawal_amount c ->
  signed_by data (relayer_nonce address (wd_dest_chain data) c) address ->
  wd_dest_chain data2 = wd_dest_chain data ->
  authenticate data2 c' = (Some (Ok address), c2) ->
  withdraw data2 c' = (Some (Err NotEnoughBalance), c').
Proof.
  intros Hc Hrun Hmin Hsig Hdest Ha. destruct (withdraw_ok _ _ _ Hc Hrun) as [a Hw].
  assert (a = address) as ->.
  { pose proof (wn_signed _ _ _ _ Hw) as Hs. unfold signed_by in Hs, Hsig.
    destruct (wd_signature data); destruct Hs as [<- _], Hsig as [<- _]; done. }
  pose proof (wn_bank _ _ _ _ Hw) as Hb. pose proof (authenticate_ok _ _ _ _ Ha) as [-> _].
  unfold withdraw. cbv zeta. erewrite try_ok by exact Ha.
  unfold bind at 1, gets at 1. cbv beta iota. unfold bind at 1, gets at 1. cbv beta iota.
  assert (relayer_fees (wd_dest_chain data2) address c' = 0) as ->.
  { unfold relayer_fees. rewrite Hb, Hdest. cbn. by rewrite lookup_insert_eq. }
  assert (min_withdrawal_amount c' = min_withdrawal_amount c) as ->.
  { unfold min_withdrawal_amount. by rewrite Hb. }
  rewrite (proj2 (Z.ltb_lt _ _) Hmin). reflexivity.
Qed.

(** ** What the proofs establish *)

(** A state proof of some keys that was verified against a commitment of this host. *)
Definition state_proved (proof : Proof_) (keys : list bytes) (result : gmap bytes (option bytes)) c : Prop :=
  exists client cm values, proof_valid (pallet_abs c) (proof_height proof) client /\
    c_commitments (a_cons (pallet_abs c)) !! proof_height proof = Some cm /\
    verify_state_proof client c keys cm proof = Some (Ok values) /\ result = list_to_map values.

Lemma verify_withdrawal_proof_ok proof keys c result c' :
  pallet_inv c -> verify_withdrawal_proof proof keys c = (Some (Ok result), c') ->
  c' = c /\ state_proved proof keys result c.
Proof.
  intros Hc Hrun. unfold verify_withdrawal_proof in Hrun. cbv zeta in Hrun.
  apply bind_inv in Hrun as (v & c1 & Hv & Hrun). step_ret Hrun client Hcl.
  destruct v as [client'|e]; [|done]. injection Hcl as ->.
  apply validate_state_machine_ok in Hv as [-> Hv]; [|exact Hc].
  step_gets Hrun cm Hcm. step_ask Hrun values Hvals. apply ret_inv in Hrun as [E <-]. injection E as <-.
  split; [done|]. exists client, cm, values. split; [exact Hv|]. split; [|split; [|done]].
  - change (state_machine_commitment (proof_height proof) c) with
      (ok_or (state_commitments_get (proof_height proof) (storage c))
        (StateCommitmentNotFound (proof_height proof))) in Hcm.
    rewrite state_commitments_get_ok in Hcm by done. cbn.
    destruct (StateCommitments (storage c) !! proof_height proof); naive_solver.
  - destruct (verify_state_proof _ _ _ _ _) as [[|]|]; naive_solver.
Qed.

(** The fee of one message and the relayer who earned it. *)
Record Credit : Type := mkCredit {
  cr_key : Key;
  cr_relayer : bytes;
  cr_fee : Z
}.

Definition key_commitment (k : Key) : H256 :=
  match k with KeyRequest h => h | KeyResponse _ h => h end.

Definition source_of (p : WithdrawalProof) : StateMachine :=
  smi_state_id (smh_id (proof_height (wp_source_proof p))).
Definition dest_of (p : WithdrawalProof) : StateMachine :=
  smi_state_id (smh_id (proof_height (wp_dest_proof p))).

(** The receipt of the message names the relayer; that of a response also names the
    response. On an EVM chain the relayer of a response is in the next slot. *)
Definition receipt_names (dest : StateMachine) (dr : gmap bytes (option bytes)) (k : Key)
    (dest_key receipt relayer : bytes) : Prop :=
  match k with
  | KeyRequest _ => decode_request_receipt dest receipt = Ok relayer
  | KeyResponse _ response =>
      (is_evm dest = true /\ rlp_b256 receipt = Some response /\
       exists slot_2 address, add_off_set_to_map_key dest_key 1 = Some slot_2 /\
         proved_value dr slot_2 = Some address /\ rlp_address address = Some relayer) \/
      (is_substrate dest = true /\ decode receipt = Some (mkResponseReceipt response relayer))
  end.

(** The source chain has the commitment with this fee, and the destination a receipt. *)
Definition delivered (p : WithdrawalProof) (sr dr : gmap bytes (option bytes)) (cr : Credit) : Prop :=
  exists source_key dest_key meta receipt,
    commitment_key (source_of p) (cr_key cr) = Some source_key /\
    proved_value sr source_key = Some meta /\ decode_fee (source_of p) meta = Ok (cr_fee cr) /\
    receipt_key (dest_of p) (cr_key cr) = Some dest_key /\
    proved_value dr dest_key = Some receipt /\
    receipt_names (dest_of p) dr (cr_key cr) dest_key receipt (cr_relayer cr).

(** The messages the loop pays for: those of supported chains whose commitment the source
    chain has. Their receipts must be there, or the whole proof is refused. *)
Definition payable (p : WithdrawalProof) (sr : gmap bytes (option bytes)) (k : Key) : bool :=
  match commitment_key (source_of p) k, receipt_key (dest_of p) k with
  | Some source_key, Some _ => bool_decide (is_Some (proved_value sr source_key))
  | _, _ => false
  end.

(** What a relayer earns. *)
Definition earned (a : bytes) (l : list Credit) : Z :=
  foldr (fun cr z => (if bool_decide (cr_relayer cr = a) then cr_fee cr else 0) + z) 0 l.

Lemma decode_response_receipt_ok dest dr dk receipt c x c' :
  decode_response_receipt dest dr dk receipt c = (Some (Ok x), c') ->
  c' = c /\ forall rq, receipt_names dest dr (KeyResponse rq x.2) dk receipt x.1.
Proof.
  unfold decode_response_receipt, receipt_names. destruct (is_evm dest) eqn:Ee; intros Hrun.
  - step_ret Hrun rc Hrc. apply ok_or_ok in Hrc.
    apply bind_inv in Hrun as (s2 & c1 & Hs & Hrun). apply or_panic_inv in Hs as [Hs ->].
    step_ret Hrun ea Hea. apply ok_or_ok in Hea. step_ret Hrun ad Had. apply ok_or_ok in Had.
    apply ret_inv in Hrun as [E <-]. injection E as <-. split; [done|]. intros _. left. eauto 10.
  - destruct (is_substrate dest); [|apply ret_inv in Hrun as [? _]; done].
    step_ret Hrun rc Hrc. apply ok_or_ok in Hrc. apply ret_inv in Hrun as [E <-]. injection E as <-.
    split; [done|]. intros _. right. split; [done|]. by rewrite Hrc; destruct rc.
Qed.

(** One step of the loop adds the credit of a message that is to be paid for, or nothing. *)
Lemma validate_key_ok p sr dr acc k sk dk c acc' c' :
  commitment_key (source_of p) k = Some sk -> receipt_key (dest_of p) k = Some dk ->
  validate_key p sr dr acc (k, sk, dk) c = (Some (Ok acc'), c') ->
  c' = c /\ (payable p sr k = false /\ acc' = acc \/
    payable p sr k = true /\ exists relayer fee, delivered p sr dr (mkCredit k relayer fee) /\
    acc' = (<[relayer := default 0 (acc.1 !! relayer) + fee]> acc.1, acc.2 ++ [key_commitment k])).
Proof.
  intros Hsk Hdk. unfold validate_key. fold (source_of p) (dest_of p).
  destruct (proved_value sr sk) as [meta|] eqn:Emeta; intros Hrun.
  2: { apply ret_inv in Hrun as [E <-]. injection E as <-. split; [done|]. left.
       unfold payable. rewrite Hsk, Hdk, Emeta, bool_decide_eq_false_2 by apply is_Some_None. done. }
  step_ret Hrun fee Hfee. step_ret Hrun receipt Hrec. apply ok_or_ok in Hrec.
  apply try_ok_inv in Hrun as ([relayer commitment] & c1 & Hnames & Hrun).
  apply bind_inv in Hrun as (total & c2 & Ht & Hrun). apply or_panic_inv in Ht as [Ht ->].
  apply u256_add_some in Ht as [-> _]. apply ret_inv in Hrun as [E <-]. injection E as <-.
  assert (c1 = c /\ commitment = key_commitment k /\
    receipt_names (dest_of p) dr k dk receipt relayer) as (-> & -> & Hn).
  { destruct k as [h|rq rs].
    - step_ret Hnames a Hadr. apply ret_inv in Hnames as [E <-]. injection E as <- <-. done.
    - apply try_ok_inv in Hnames as ([rel res] & c2 & Hd & Hnames).
      apply decode_response_receipt_ok in Hd as [-> Hd].
      step_guard Hnames G. apply negb_false_iff, bool_decide_eq_true in G as <-.
      apply ret_inv in Hnames as [E <-]. injection E as <- <-. split; [done|]. split; [done|]. apply Hd. }
  split; [done|]. right.
  split; [unfold payable; rewrite Hsk, Hdk, Emeta; by apply bool_decide_eq_true|].
  exists relayer, fee. split; [|done]. by exists sk, dk, meta, receipt.
Qed.

(** The keys of a supported chain line up with the commitments. *)
Definition uniform {A B} (f : A -> option B) : Prop := (forall x, is_Some (f x)) \/ forall x, f x = None.

Lemma commitment_key_uniform m : uniform (commitment_key m).
Proof.
  unfold uniform, commitment_key. destruct (is_evm m); [left; intros []; eauto|].
  destruct (is_substrate m); [left; intros []; eauto|right; by intros []].
Qed.
Lemma receipt_key_uniform m : uniform (receipt_key m).
Proof.
  unfold uniform, receipt_key. destruct (is_evm m); [left; intros []; eauto|].
  destruct (is_substrate m); [left; intros []; eauto|right; by intros []].
Qed.

Lemma omap_none {A B} (f : A -> option B) (l : list A) : (forall x, f x = None) -> omap f l = [].
Proof. intros Hn. induction l as [|x l IH]; [done|]. cbn. by rewrite Hn. Qed.

Lemma filter_none {A} (P : A -> Prop) `{!forall x, Decision (P x)} (l : list A) :
  (forall x, ~ P x) -> filter P l = [].
Proof. intros Hn. induction l as [|x l IH]; [done|]. by rewrite filter_cons, decide_False. Qed.

Lemma zip_aligned {A B C} (f : A -> option B) (g : A -> option C) (l : list A) :
  uniform f -> uniform g ->
  Forall (fun x => f x.1.1 = Some x.1.2 /\ g x.1.1 = Some x.2) (zip (zip l (omap f l)) (omap g l)) /\
  (zip (zip l (omap f l)) (omap g l)).*1.*1 = filter (fun x => is_Some (f x) /\ is_Some (g x)) l.
Proof.
  intros Hf Hg. destruct Hf as [Hf|Hf], Hg as [Hg|Hg].
  2: rewrite (omap_none g), zip_with_nil_r by done.
  3, 4: rewrite (omap_none f), zip_with_nil_r by done.
  2-4: split; [done|]; symmetry; apply filter_none; intros x [[? E] [? E']]; congruence.
  induction l as [|x l [IH1 IH2]]; [done|].
  destruct (Hf x) as [y Hy], (Hg x) as [z Hz]. cbn. rewrite Hy, Hz. cbn. split; [by constructor|].
  rewrite decide_True by eauto. by f_equal.
Qed.

Lemma validate_fold_ok p sr dr l acc c acc' c' :
  Forall (fun x => commitment_key (source_of p) x.1.1 = Some x.1.2 /\
                   receipt_key (dest_of p) x.1.1 = Some x.2) l ->
  try_fold_m (validate_key p sr dr) acc l c = (Some (Ok acc'), c') ->
  c' = c /\ exists credits, Forall (delivered p sr dr) credits /\
    cr_key <$> credits = filter (fun k => payable p sr k) (l.*1.*1) /\
    acc'.2 = acc.2 ++ (key_commitment ∘ cr_key <$> credits) /\
    forall a, default 0 (acc'.1 !! a) = default 0 (acc.1 !! a) + earned a credits.
Proof.
  intros Hl. revert acc. induction Hl as [|[[k sk] dk] l [Hsk Hdk] _ IH]; intros acc Hrun; cbn [try_fold_m] in Hrun.
  - apply ret_inv in Hrun as [E <-]. injection E as <-. split; [done|]. exists [].
    split; [done|]. split; [done|]. cbn. split; [by rewrite app_nil_r|]. intros; lia.
  - apply try_ok_inv in Hrun as (acc1 & c1 & Hv & Hrun).
    apply validate_key_ok in Hv as [-> Hv]; [|done|done].
    destruct (IH acc1 Hrun) as (-> & credits & Hd & Hs & Hc & He). split; [done|].
    destruct Hv as [[Hp ->]|(Hp & relayer & fee & Hdel & ->)].
    + exists credits. cbn. by rewrite decide_False by (rewrite Hp; by intros []).
    + exists (mkCredit k relayer fee :: credits). split; [by constructor|].
      split; [cbn; rewrite decide_True by (by rewrite Hp); by f_equal|]. cbn [fst snd] in Hc, He. split; [rewrite Hc; cbn; by rewrite <- app_assoc|].
      intros a. rewrite He. cbn [earned foldr cr_relayer cr_fee]. fold (earned a credits).
      case_bool_decide as Hr; [subst a; rewrite lookup_insert_eq; cbn; lia|].
      rewrite lookup_insert_ne by done. lia.
Qed.

Lemma validate_results_ok p sr dr c result claimed c' :
  validate_results p (get_commitment_keys p) (get_receipt_keys p) sr dr c
    = (Some (Ok (result, claimed)), c') ->
  c' = c /\ exists credits, Forall (delivered p sr dr) credits /\
    cr_key <$> credits = filter (fun k => payable p sr k) (wp_commitments p) /\
    claimed = key_commitment ∘ cr_key <$> credits /\
    forall a, default 0 (result !! a) = earned a credits.
Proof.
  unfold validate_results, get_commitment_keys, get_receipt_keys. fold (source_of p) (dest_of p).
  destruct (zip_aligned (commitment_key (source_of p)) (receipt_key (dest_of p)) (wp_commitments p)
    (commitment_key_uniform _) (receipt_key_uniform _)) as [Hall Hsub].
  intros (-> & credits & Hd & Hs & Hc & He)%validate_fold_ok; [|done]. split; [done|].
  exists credits. split; [done|]. split; [|split; [done|intros a; by rewrite He]].
  rewrite Hs, Hsub. apply list_filter_filter_l. intros k. unfold payable.
  by destruct (commitment_key _ _), (receipt_key _ _).
Qed.

(** ** Crediting and marking *)

Lemma accumulate_fee_run m a fee c u c' :
  accumulate_fee m a fee c = (Some u, c') ->
  relayer_fees m a c + fee <= u256_max /\
  c' = upd_bank (on_rl_Fees <[(m, a) := relayer_fees m a c + fee]>) c.
Proof.
  intros Hrun. unfold accumulate_fee in Hrun. bind_gets Hrun.
  apply bind_inv in Hrun as (t & c1 & Ht & Hrun). apply or_panic_inv in Ht as [Ht ->].
  apply u256_add_some in Ht as [-> Hb]. unfold modify_app, modify in Hrun. by injection Hrun as <- <-.
Qed.

(** After the loop every address has what it had and its entry, on this chain only. *)
Lemma credit_fees_ok m l acc c acc' c' :
  NoDup l.*1 -> try_fold_m (credit_fee m) acc l c = (Some (Ok acc'), c') ->
  (exists f, c' = upd_bank (on_rl_Fees f) c) /\
  forall m' a, relayer_fees m' a c'
    = relayer_fees m' a c + (if decide (m' = m) then default 0 ((list_to_map l : gmap bytes Z) !! a) else 0).
Proof.
  revert acc c. induction l as [|[a fee] l IH]; intros acc c Hnd Hrun; cbn [try_fold_m] in Hrun.
  - apply ret_inv in Hrun as [_ <-]. split; [exists id; by destruct c as [? ? [] ? ? ?]|].
    intros m' a. rewrite list_to_map_nil, lookup_empty. cbn. case_decide; lia.
  - apply NoDup_cons in Hnd as [Hnew Hnd].
    apply try_ok_inv in Hrun as (acc1 & c1 & Hcr & Hrun). unfold credit_fee in Hcr. cbn [fst snd] in Hcr.
    apply bind_inv in Hcr as (u & c2 & Hacc & Hcr). apply accumulate_fee_run in Hacc as [_ ->].
    apply bind_inv in Hcr as (t & c3 & Ht & Hcr). apply or_panic_inv in Ht as [_ ->].
    apply ret_inv in Hcr as [_ <-].
    destruct (IH _ _ Hnd Hrun) as ([f ->] & Hf). split.
    + by eexists (fun x => f (<[(m, a) := relayer_fees m a c + fee]> x)).
    + intros m' a'. rewrite Hf. unfold relayer_fees at 1. cbn [upd_bank bank on_rl_Fees rl_Fees].
      rewrite list_to_map_cons.
      destruct (decide (m' = m)) as [->|Hm].
      * destruct (decide (a' = a)) as [->|Ha].
        -- rewrite lookup_insert_eq. cbn. rewrite lookup_insert_eq. cbn.
           rewrite not_elem_of_list_to_map_1 by done. cbn. lia.
        -- rewrite lookup_insert_ne by congruence. cbn. rewrite lookup_insert_ne by done. done.
      * by rewrite lookup_insert_ne by congruence.
Qed.

(** Marking changes nothing but the claimed flag of commitments, and only sets it. *)
Record marked (c c' : St) : Prop := {
  mk_bank : bank c' = bank c;
  mk_events : events c' = events c;
  mk_cons : a_cons (pallet_abs c') = a_cons (pallet_abs c);
  mk_receipts : m_req_receipts (a_msgs (pallet_abs c')) = m_req_receipts (a_msgs (pallet_abs c)) /\
                m_res_receipts (a_msgs (pallet_abs c')) = m_res_receipts (a_msgs (pallet_abs c));
  mk_req h : RequestCommitments.get h (st_child (storage c'))
             = RequestCommitments.get h (st_child (storage c)) \/
             RequestCommitments.get h (st_child (storage c'))
             = claim <$> RequestCommitments.get h (st_child (storage c));
  mk_res h : ResponseCommitments.get h (st_child (storage c'))
             = ResponseCommitments.get h (st_child (storage c)) \/
             ResponseCommitments.get h (st_child (storage c'))
             = claim <$> ResponseCommitments.get h (st_child (storage c))
}.

Lemma claim_twice (o : option RequestMetadata) : claim <$> (claim <$> o) = claim <$> o.
Proof. by destruct o. Qed.

#[local] Instance marked_preorder : PreOrder marked.
Proof.
  split.
  - intros c. split; auto.
  - intros a b c [A1 A2 A3 [A4 A5] A6 A7] [B1 B2 B3 [B4 B5] B6 B7].
    split; [congruence|congruence|congruence|split; congruence|..]; intros h.
    + destruct (A6 h) as [Ea|Ea], (B6 h) as [Eb|Eb]; rewrite Eb, Ea, ?claim_twice; auto.
    + destruct (A7 h) as [Ea|Ea], (B7 h) as [Eb|Eb]; rewrite Eb, Ea, ?claim_twice; auto.
Qed.

(** What has been claimed stays claimed. *)
Lemma marked_claimed c c' k :
  marked c c' -> unclaimed (st_child (storage c)) k = false ->
  unclaimed (st_child (storage c')) k = false.
Proof.
  intros Hm. destruct k as [h|rq h]; cbn.
  - destruct (mk_req _ _ Hm h) as [->| ->]; [done|]. by destruct (RequestCommitments.get _ _).
  - destruct (mk_res _ _ Hm h) as [->| ->]; [done|]. by destruct (ResponseCommitments.get _ _).
Qed.

Lemma get_insert_rc h h' m t :
  RequestCommitments.get h' (RequestCommitments.insert h m t)
  = if decide (h' = h) then Some m else RequestCommitments.get h' t.
Proof.
  unfold RequestCommitments.get, RequestCommitments.insert. case_decide as E.
  - subst. apply child_get_put.
  - apply child_get_put_ne. unfold request_commitment_storage_key. by intros ?%app_inv_head.
Qed.
Lemma get_insert_sc h h' m t :
  ResponseCommitments.get h' (ResponseCommitments.insert h m t)
  = if decide (h' = h) then Some m else ResponseCommitments.get h' t.
Proof.
  unfold ResponseCommitments.get, ResponseCommitments.insert. case_decide as E.
  - subst. apply child_get_put.
  - apply child_get_put_ne. unfold response_commitment_storage_key. by intros ?%app_inv_head.
Qed.
Lemma get_insert_rc_sc h h' m t :
  ResponseCommitments.get h' (RequestCommitments.insert h m t) = ResponseCommitments.get h' t.
Proof.
  apply child_get_put_ne. assert (outside (lit "ResponseCommitments") (request_commitment_storage_key h)) as Ho
    by auto with ismp. apply Ho.
Qed.
Lemma get_insert_sc_rc h h' m t :
  RequestCommitments.get h' (ResponseCommitments.insert h m t) = RequestCommitments.get h' t.
Proof.
  apply child_get_put_ne. assert (outside (lit "RequestCommitments") (response_commitment_storage_key h)) as Ho
    by auto with ismp. apply Ho.
Qed.

Lemma mark_request_ok h m c :
  pallet_inv c -> RequestCommitments.get h (st_child (storage c)) = Some m ->
  let c' := upd_storage (on_child (RequestCommitments.insert h (claim m))) c in
  pallet_inv c' /\ marked c c' /\ unclaimed (st_child (storage c')) (KeyRequest h) = false.
Proof.
  intros Hc Hm c'. split; [by apply ok_insert_rc|].
  assert (forall h', RequestCommitments.get h' (st_child (storage c'))
    = if decide (h' = h) then Some (claim m) else RequestCommitments.get h' (st_child (storage c))) as Hg
    by (intros h'; apply get_insert_rc).
  split.
  - split; try done.
    + split; cbn [pallet_abs c' upd_storage storage a_msgs]; by rewrite abs_insert_rc.
    + intros h'. rewrite Hg. case_decide as E; [|by left]. subst h'. right. by rewrite Hm.
    + intros h'. left. apply get_insert_rc_sc.
  - unfold unclaimed. by rewrite Hg, decide_True.
Qed.

Lemma mark_response_ok rq h m c :
  pallet_inv c -> ResponseCommitments.get h (st_child (storage c)) = Some m ->
  let c' := upd_storage (on_child (ResponseCommitments.insert h (claim m))) c in
  pallet_inv c' /\ marked c c' /\ unclaimed (st_child (storage c')) (KeyResponse rq h) = false.
Proof.
  intros Hc Hm c'. split; [by apply ok_insert_sc|].
  assert (forall h', ResponseCommitments.get h' (st_child (storage c'))
    = if decide (h' = h) then Some (claim m) else ResponseCommitments.get h' (st_child (storage c))) as Hg
    by (intros h'; apply get_insert_sc).
  split.
  - split; try done.
    + split; cbn [pallet_abs c' upd_storage storage a_msgs]; by rewrite abs_insert_sc.
    + intros h'. left. apply get_insert_sc_rc.
    + intros h'. rewrite Hg. case_decide as E; [|by left]. subst h'. right. by rewrite Hm.
  - unfold unclaimed. by rewrite Hg, decide_True.
Qed.

Lemma mark_claimed_ok claimed k c u c' :
  pallet_inv c -> mark_claimed claimed k c = (Some u, c') ->
  pallet_inv c' /\ marked c c' /\
  (key_commitment k ∈ claimed -> unclaimed (st_child (storage c')) k = false).
Proof.
  intros Hc Hrun. unfold mark_claimed in Hrun. destruct k as [h|rq h]; case_bool_decide as Hin.
  2, 4: apply ret_inv in Hrun as [_ <-]; done.
  - bind_gets Hrun. unfold read in Hrun. destruct (RequestCommitments.get h _) as [m|] eqn:Em.
    + unfold modify_storage, modify in Hrun. injection Hrun as _ <-.
      destruct (mark_request_ok h m c Hc Em) as (? & ? & ?). done.
    + apply ret_inv in Hrun as [_ <-]. split; [done|]. split; [done|]. intros _. cbn. by rewrite Em.
  - bind_gets Hrun. unfold read in Hrun. destruct (ResponseCommitments.get h _) as [m|] eqn:Em.
    + unfold modify_storage, modify in Hrun. injection Hrun as _ <-.
      destruct (mark_response_ok rq h m c Hc Em) as (? & ? & ?). done.
    + apply ret_inv in Hrun as [_ <-]. split; [done|]. split; [done|]. intros _. cbn. by rewrite Em.
Qed.

Lemma mark_all_ok claimed l c us c' :
  pallet_inv c -> map_m (mark_claimed claimed) l c = (Some us, c') ->
  pallet_inv c' /\ marked c c' /\
  forall k, k ∈ l -> key_commitment k ∈ claimed -> unclaimed (st_child (storage c')) k = false.
Proof.
  revert c us. induction l as [|k l IH]; intros c us Hc Hrun; cbn [map_m] in Hrun.
  - apply ret_inv in Hrun as [_ <-]. split; [done|]. split; [done|]. intros k Hk. by apply elem_of_nil in Hk.
  - apply bind_inv in Hrun as (u & c1 & Hm & Hrun). apply bind_inv in Hrun as (us' & c2 & Hl & Hrun).
    apply ret_inv in Hrun as [_ <-].
    destruct (mark_claimed_ok _ _ _ _ _ Hc Hm) as (Hc1 & M1 & K1).
    destruct (IH _ _ Hc1 Hl) as (Hc2 & M2 & K2). split; [done|]. split; [by etransitivity|].
    intros k' [->|Hk']%elem_of_cons Hin; [|by apply K2]. apply (marked_claimed c1); auto.
Qed.

Lemma app_events_run {A} (f : A -> AppEvent) (l : list A) c us c' :
  map_m (fun a => app_event (f a)) l c = (Some us, c') ->
  c' = upd_bank (on_app_events (fun es => es ++ (f <$> l))) c.
Proof.
  revert c us. induction l as [|a l IH]; intros c us Hrun; cbn [map_m] in Hrun.
  - apply ret_inv in Hrun as [_ <-]. unfold upd_bank, on_app_events.
    rewrite fmap_nil, app_nil_r. by destruct c as [? ? [] ? ? ?].
  - apply bind_inv in Hrun as (u & c1 & Ha & Hrun). apply bind_inv in Hrun as (us' & c2 & Hl & Hrun).
    apply ret_inv in Hrun as [_ <-]. unfold app_event, modify_app, modify in Ha. injection Ha as _ <-.
    apply IH in Hl as ->. unfold upd_bank, on_app_events. cbn. by rewrite <- app_assoc.
Qed.

Lemma accumulate_nothing p c :
  Forall (fun k => unclaimed (st_child (storage c)) k = false) (wp_commitments p) ->
  accumulate p c = (Some (Err MissingCommitments), c).
Proof.
  intros Hall. unfold accumulate, bind at 1, gets. cbv zeta.
  assert (filter (fun k => unclaimed (st_child (storage c)) k) (wp_commitments p) = []) as ->; [|done].
  induction Hall as [|k l Hk _ IH]; [done|]. rewrite filter_cons, decide_False; [done|]. rewrite Hk. by intros [].
Qed.

(** The part of the run before anything is written. *)
Definition kept (p : WithdrawalProof) c : WithdrawalProof :=
  mkWithdrawalProof (filter (fun k => unclaimed (st_child (storage c)) k) (wp_commitments p))
    (wp_source_proof p) (wp_dest_proof p).

Lemma accumulate_ok p c c' :
  pallet_inv c -> accumulate p c = (Some (Ok tt), c') ->
  exists sr dr slots result claimed total c1 us c2 us',
    slot_2_keys (kept p c) (get_receipt_keys (kept p c)) = Some slots /\
    state_proved (wp_source_proof p) (get_commitment_keys (kept p c)) sr c /\
    state_proved (wp_dest_proof p) (get_receipt_keys (kept p c) ++ slots) dr c /\
    validate_results (kept p c) (get_commitment_keys (kept p c)) (get_receipt_keys (kept p c)) sr dr c
      = (Some (Ok (result, claimed)), c) /\
    try_fold_m (credit_fee (source_of p)) ∅ (map_to_list result) c = (Some (Ok total), c1) /\
    map_m (mark_claimed claimed) (wp_commitments (kept p c)) c1 = (Some us, c2) /\
    map_m (fun a => app_event (AEAccumulateFees (take 32 a) (source_of p) (default 0 (total !! a))))
      (hash_order (map_to_list result).*1) c2 = (Some us', c').
Proof.
  intros Hc Hrun. unfold accumulate in Hrun. bind_gets Hrun. cbv zeta in Hrun. fold (kept p c) in Hrun.
  step_guard Hrun Hne. apply bind_inv in Hrun as (s2 & c1 & Hs & Hrun). apply or_panic_inv in Hs as [Hs ->].
  apply try_ok_inv in Hrun as (sr & c1 & Hsr & Hrun).
  apply verify_withdrawal_proof_ok in Hsr as [-> Hsr]; [|done].
  apply try_ok_inv in Hrun as (dr & c1 & Hdr & Hrun).
  apply verify_withdrawal_proof_ok in Hdr as [-> Hdr]; [|done].
  apply try_ok_inv in Hrun as ([result claimed] & c1 & Hv & Hrun).
  pose proof (validate_results_ok _ _ _ _ _ _ _ Hv) as [-> _].
  apply try_ok_inv in Hrun as (total & c1 & Hf & Hrun).
  apply bind_inv in Hrun as (us & c2 & Hm & Hrun). apply bind_inv in Hrun as (us' & c3 & He & Hrun).
  apply ret_inv in Hrun as [_ <-]. by exists sr, dr, s2, result, claimed, total, c1, us, c2, us'.
Qed.


End properties.
