(* ===== verification/Coprocessor.v ===== *)
(** * The state coprocessor

    [pallets/state-coprocessor/src/lib.rs] and [impls.rs]: hyperbridge verifies the state
    proofs of GET requests on behalf of the chains that sent them, and commits to the
    responses. *)

From S2P Require Import Prelude StateMachine Router Messaging Host Handlers HostSpec Frame Requests ChildTrie PalletTypes PalletHost PalletRefines Pallet PalletFrames Apps EvmKeys Hyperbridge Relayer RelayerProps.

Record GetRequestsWithProof : Type := mkGetRequestsWithProof {
  gp_requests : list GetRequest;
  gp_source : Proof_;
  gp_response : Proof_;
  gp_address : bytes
}.

Section coprocessor.
Context `{Keccak256, Codecs, !HeightSort, !Rlp}.
Context {Acc Tree : Type} `{!Currency Acc, !Mmr Tree, !Config (Apps Acc) Tree}.

Abbreviation St := (Chain (Apps Acc) Tree).

(** The keys of the commitments of the requests on their source chain. *)
Definition get_request_keys (requests : list GetRequest) (source : StateMachine) : option (list bytes) :=
  (fun ks : list (list bytes) => concat ks) <$> mapM (fun req =>
    commitment ← hash_request (RequestGet req);
    Some (if is_evm source then [derive_unhashed_map_key commitment REQUEST_COMMITMENTS_SLOT]
          else if is_substrate source then [request_commitment_storage_key commitment]
          else [])) requests.

(** The checks on one request. *)
Definition check_get_request (source : Proof_) (req : GetRequest) : M St (result Error unit) :=
  let full := RequestGet req in
  let* now := gets timestamp in
  let? _ := ensure_not (request_timed_out full now) (RequestTimeout (meta_of_request full)) in
  let? _ := ensure_not
      (negb (bool_decide (request_source_chain full = smi_state_id (smh_id (proof_height source)))))
      (RequestProofMetadataNotValid (meta_of_request full)) in
  let* receipt := request_receipt full in
  let? _ := ensure_not (bool_decide (is_Some receipt)) (DuplicateResponse (meta_of_request full)) in
  ret (Ok tt).

(** The fee in the proved value of a commitment. *)
Definition get_request_fee (source : StateMachine) (value : bytes) : result Error Z :=
  if is_evm source then ok_or (rlp_u256 value) (Custom (lit "Failed to decode fee"))
  else if is_substrate source then
    ok_or ((fun m => fm_fee (rmeta_fee m)) <$> decode (A := RequestMetadata) value)
      (Custom (lit "Failed to decode fee"))
  else Err (Custom (lit "Unsupported State Machine " ++ debug_StateMachine source)).

Definition add_request_fee (source : StateMachine) (total_fee : Z) (entry : bytes * option bytes) :
    M St (result Error Z) :=
  match entry.2 with
  | Some value =>
      let? fee := ret (get_request_fee source value) in
      let* total := or_panic (u256_add total_fee fee) in
      ret (Ok total)
  | None => ret (Ok total_fee)
  end.

(** The response to one request, from the proved state of the destination. *)
Definition get_response_of (client : StateMachineClient St) (state_root : StateCommitment)
    (response : Proof_) (req : GetRequest) : M St (result Error GetResponse) :=
  let? values := ask (fun c => verify_state_proof client c (get_keys req) state_root response) in
  ret (Ok (mkGetResponse req ((fun kv => mkStorageValue kv.1 kv.2) <$> values))).

(** Insert a response into the tree and deposit its events. *)
Definition coprocessor_dispatch_get_response (get_response : GetResponse) (address : bytes) :
    M St (result Error unit) :=
  let* commitment := or_panic (hash_get_response get_response) in
  let get := gr_get get_response in
  let* req_commitment := or_panic (hash_request (RequestGet get)) in
  let* leaf_index_and_pos := push_leaf (LeafResponse (ResponseGet get_response)) in
  let* _ := modify_storage (on_child (ResponseCommitments.insert commitment
      (mkRequestMetadata leaf_index_and_pos no_payer true))) in
  let* _ := modify_storage (on_Responded <[req_commitment := true]>) in
  let* _ := deposit_event (PEResponse (get_source get) (get_dest get) (get_nonce get)
      commitment req_commitment) in
  let* _ := deposit_event (PEGetRequestHandled (mkRequestResponseHandled req_commitment address)) in
  ret (Ok tt).

Definition answer_get_request (address : bytes) (get_response : GetResponse) : M St (result Error unit) :=
  let? _ := store_request_receipt (RequestGet (gr_get get_response)) address in
  let* dispatched := coprocessor_dispatch_get_response get_response address in
  ret (map_err (fun _ => Custom (lit "Failed to dispatch get response")) dispatched).

Definition handle_get_requests (message : GetRequestsWithProof) : M St (result Error unit) :=
  let requests := gp_requests message in
  let source := gp_source message in
  let response := gp_response message in
  let address := gp_address message in
  let source_chain := smi_state_id (smh_id (proof_height source)) in
  let? _ := for_each requests (check_get_request source) in
  let? _ := ensure_not
      (negb (forallb (fun get => get_height get =? smh_height (proof_height response)) requests))
      InsufficientProofHeight in
  let? source_state_machine := validate_state_machine (proof_height source) in
  let? state_root := gets (state_machine_commitment (proof_height source)) in
  let* source_storage_keys := or_panic (get_request_keys requests source_chain) in
  let? _ := ask (fun c => verify_membership source_state_machine c
      (RRRequest (RequestGet <$> requests)) state_root source) in
  let? result := ask (fun c => verify_state_proof source_state_machine c source_storage_keys
      state_root source) in
  let? total_fee := try_fold_m (add_request_fee source_chain) 0 result in
  let* _ := (if negb (total_fee =? 0) then accumulate_fee source_chain address total_fee
             else ret tt) in
  let? dest_state_machine := validate_state_machine (proof_height response) in
  let? state_root := gets (state_machine_commitment (proof_height response)) in
  let? get_responses := try_map_m (get_response_of dest_state_machine state_root response) requests in
  for_each get_responses (answer_get_request address).

(** ** The call and its validation *)

Inductive CoprocessorError : Type :=
| HandlingFailed.

Definition coprocessor_handle_unsigned (origin : Origin) (message : GetRequestsWithProof) :
    M St (result (CallError CoprocessorError) unit) :=
  let? _ := ret (call_none origin) in
  let* handled := handle_get_requests message in
  let? _ := ret (map_err (fun _ => HandlingFailed) handled) in
  ret (Ok tt).

(** [messages.sort()] on hashes. *)
Definition sort_hashes (l : list H256) : list H256 := concat (sort_ids ((fun h => [h]) <$> l)).

Definition coprocessor_validate_unsigned `{!Codec (list H256)} (message : GetRequestsWithProof) :
    M St (result TransactionValidityError ValidTransaction) :=
  let* handled := handle_get_requests message in
  let? _ := ret (map_err (fun _ => InvalidCall) handled) in
  let* messages := or_panic (mapM (fun get => hash_request (RequestGet get)) (gp_requests message)) in
  ret (Ok (mkValidTransaction 100 [] [keccak256 (encode (sort_hashes messages))] 25 true)).

End coprocessor.

(** ** Properties *)

(** Programs that leave the state as it is. *)
Section reading.
Context {S : Type}.

Definition reading {A} (m : M S A) : Prop := forall s o s', m s = (o, s') -> s' = s.

Lemma reading_ret {A} (a : A) : reading (ret a).
Proof. intros s o s'. unfold ret. congruence. Qed.
Lemma reading_ask {A} (f : S -> option A) : reading (ask f).
Proof. intros s o s' [= <- <-]. done. Qed.
Lemma reading_gets {A} (f : S -> A) : reading (gets f).
Proof. intros s o s'. unfold gets. congruence. Qed.
Lemma reading_or_panic {A} (o : option A) : reading (or_panic o).
Proof. destruct o; intros s r s'; unfold or_panic, ret, panic; congruence. Qed.
Lemma reading_bind {A B} (m : M S A) (k : A -> M S B) :
  reading m -> (forall a, reading (k a)) -> reading (bind m k).
Proof.
  intros Hm Hk s o s' [(a & s1 & H1 & H2)|[H1 _]]%bind_split; [|by eapply Hm].
  apply Hm in H1 as ->. by eapply Hk.
Qed.
Lemma reading_try {A B E F} `{From E F} (m : M S (result E A)) (k : A -> M S (result F B)) :
  reading m -> (forall a, reading (k a)) -> reading (try_bind m k).
Proof. intros Hm Hk. apply reading_bind; [done|]. intros [a|e]; [done|apply reading_ret]. Qed.
Lemma reading_try_fold_m {A B E} (f : B -> A -> M S (result E B)) b l :
  (forall b x, reading (f b x)) -> reading (try_fold_m f b l).
Proof.
  intros Hf. revert b. induction l as [|x l IH]; intros b; cbn; [apply reading_ret|].
  by apply reading_try.
Qed.

(** A loop of checks: all of them pass, and the state is the one before. *)
Lemma reading_for_each {A E} (body : A -> M S (result E unit)) l s u s' :
  (forall x, reading (body x)) -> for_each l body s = (Some (Ok u), s') ->
  s' = s /\ Forall (fun x => body x s = (Some (Ok tt), s)) l.
Proof.
  intros Hb. induction l as [|x l IH]; cbn [for_each]; intros Hrun.
  - apply ret_inv in Hrun as [_ <-]. done.
  - apply try_ok_inv in Hrun as ([] & s1 & H1 & Hrun). pose proof (Hb _ _ _ _ H1) as ->.
    destruct (IH Hrun) as [-> Hl]. split; [done|]. by constructor.
Qed.

(** A loop that reads one value per element. *)
Lemma reading_try_map_m {A B E} (f : A -> M S (result E B)) l s ys s' :
  (forall x, reading (f x)) -> try_map_m f l s = (Some (Ok ys), s') ->
  s' = s /\ Forall2 (fun x y => f x s = (Some (Ok y), s)) l ys.
Proof.
  intros Hf. revert ys. induction l as [|x l IH]; cbn [try_map_m]; intros ys Hrun.
  - apply ret_inv in Hrun as [E1 <-]. injection E1 as <-. done.
  - apply try_ok_inv in Hrun as (y & s1 & H1 & Hrun). pose proof (Hf _ _ _ _ H1) as ->.
    apply try_ok_inv in Hrun as (ys' & s1 & Hl & Hrun). apply ret_inv in Hrun as [E1 <-].
    injection E1 as <-. destruct (IH _ Hl) as [-> Hl']. split; [done|]. by constructor.
Qed.
End reading.

Ltac reading_solve := repeat match goal with
  | |- reading (try_bind _ _) => apply reading_try; [|intros ?]
  | |- reading (bind _ _) => apply reading_bind; [|intros ?]
  | |- reading (gets _) => apply reading_gets
  | |- reading (ask _) => apply reading_ask
  | |- reading (ret _) => apply reading_ret
  | |- reading (ensure_not _ _) => apply reading_ret
  | |- reading (or_panic _) => apply reading_or_panic
  | |- reading (match ?x with _ => _ end) => destruct x
  end.

Section properties.
Context `{Keccak256, Codecs, !HeightKeys, !HeightSort, !Rlp}.
Context {Acc Tree : Type} `{!Currency Acc, !Mmr Tree, !Config (Apps Acc) Tree}.

Abbreviation St := (Chain (Apps Acc) Tree).
Implicit Types c : St.

Lemma check_get_request_reading source g : reading (check_get_request source g : M St _).
Proof.
  unfold check_get_request. cbn [request_receipt pallet_host]. reading_solve.
Qed.

(** A request the coprocessor may answer. *)
Definition answerable (message : GetRequestsWithProof) c (g : GetRequest) : Prop :=
  request_timed_out (RequestGet g) (now c) = false /\
  get_source g = smi_state_id (smh_id (proof_height (gp_source message))) /\
  get_height g = smh_height (proof_height (gp_response message)) /\
  exists h, hash_request (RequestGet g) = Some h /\
    m_req_receipts (a_msgs (pallet_abs c)) !! h = None.

Lemma check_get_request_ok source g c u c' :
  check_get_request source g c = (Some (Ok u), c') ->
  request_timed_out (RequestGet g) (now c) = false /\
  get_source g = smi_state_id (smh_id (proof_height source)) /\
  exists h, hash_request (RequestGet g) = Some h /\
    m_req_receipts (a_msgs (pallet_abs c)) !! h = None.
Proof.
  intros Hrun. unfold check_get_request in Hrun. cbv zeta in Hrun. bind_gets Hrun.
  step_guard Hrun G1. step_guard Hrun G2. apply negb_false_iff, bool_decide_eq_true in G2.
  split; [done|]. split; [done|]. apply bind_inv in Hrun as (r & c1 & Hr & Hrun).
  apply bind_inv in Hr as (h & c2 & Hh & Hr). apply or_panic_inv in Hh as [Hh ->].
  apply gets_inv in Hr as [-> ->]. step_guard Hrun G3. exists h. split; [done|].
  cbn [pallet_abs a_msgs]. rewrite abs_lookup_rr. unfold read in G3.
  destruct (RequestReceipts.get h _); [|done]. by rewrite bool_decide_true in G3 by eauto.
Qed.

(** ** Answering *)

(** What one answer adds to the ISMP data. *)
Definition answer_effect (address : bytes) (h rh : H256) (meta : bytes) (m : MessageStore) : MessageStore :=
  set_responded (fun x => {[h]} ∪ x) (set_res_commitments <[rh := meta]>
    (set_req_receipts <[h := address]> m)).

Lemma answer_run address r c u c' :
  pallet_inv c -> answer_get_request address r c = (Some (Ok u), c') ->
  pallet_inv c' /\ bank c' = bank c /\ exists h rh leaf,
    hash_request (RequestGet (gr_get r)) = Some h /\ hash_get_response r = Some rh /\
    pallet_abs c' = upd_msgs (answer_effect address h rh
      (encode (mkRequestMetadata leaf no_payer true))) (pallet_abs c) /\
    events c' = events c ++ [PEResponse (get_source (gr_get r)) (get_dest (gr_get r))
      (get_nonce (gr_get r)) rh h; PEGetRequestHandled (mkRequestResponseHandled h address)].
Proof.
  intros Hc Hrun. unfold answer_get_request in Hrun.
  apply try_ok_inv in Hrun as (u1 & c1 & Hs & Hrun).
  apply bind_inv in Hs as (h & c2 & Hh & Hs). apply or_panic_inv in Hh as [Hh ->].
  unfold bind, modify_storage, modify, ret in Hs. injection Hs as _ <-.
  apply bind_inv in Hrun as (d & c1 & Hd & Hrun). apply ret_inv in Hrun as [_ <-].
  unfold coprocessor_dispatch_get_response in Hd.
  apply bind_inv in Hd as (rh & c2 & Hrh & Hd). apply or_panic_inv in Hrh as [Hrh ->].
  apply bind_inv in Hd as (h' & c2 & Hh' & Hd). apply or_panic_inv in Hh' as [Hh' ->].
  assert (h' = h) as -> by congruence. apply bind_inv in Hd as (leaf & c2 & Hp & Hd).
  unfold push_leaf in Hp. destruct (mmr_push _ _) as [[l|] t]; [|done]. injection Hp as -> <-.
  unfold bind, modify_storage, deposit_event, modify, ret in Hd. injection Hd as _ <-.
  split; [by apply storage_ok_Responded, ok_insert_sc, ok_insert_rr|]. split; [done|].
  exists h, rh, leaf. split; [done|]. split; [done|]. split; [|by cbn; rewrite <- app_assoc].
  unfold pallet_abs, upd_msgs, answer_effect. cbn [storage now a_cons a_msgs a_now]. f_equal.
  rewrite <- abs_insert_rr, <- abs_insert_sc. unfold set_responded, abs_msgs. cbn. f_equal.
  apply dom_insert_L.
Qed.

(** The response is committed, its request received and answered. *)
Definition answered_by (address : bytes) c (r : GetResponse) : Prop :=
  exists h rh, hash_request (RequestGet (gr_get r)) = Some h /\ hash_get_response r = Some rh /\
    m_req_receipts (a_msgs (pallet_abs c)) !! h = Some address /\
    is_Some (m_res_commitments (a_msgs (pallet_abs c)) !! rh) /\
    h ∈ m_responded (a_msgs (pallet_abs c)).

Lemma answer_keeps address r c u c' r0 :
  pallet_inv c -> answer_get_request address r c = (Some (Ok u), c') ->
  answered_by address c r0 \/ r0 = r -> answered_by address c' r0.
Proof.
  intros Hc Hrun. destruct (answer_run _ _ _ _ _ Hc Hrun) as (_ & _ & h & rh & leaf & Hh & Hrh & Ha & _).
  unfold answered_by. rewrite Ha. cbn. intros [(h0 & rh0 & E1 & E2 & R1 & R2 & R3)| ->].
  - exists h0, rh0. split; [done|]. split; [done|]. split; [|split; [|set_solver]].
    + destruct (decide (h0 = h)) as [->|]; [by rewrite lookup_insert_eq|by rewrite lookup_insert_ne].
    + destruct (decide (rh0 = rh)) as [->|]; [rewrite lookup_insert_eq; eauto|by rewrite lookup_insert_ne].
  - exists h, rh. rewrite !lookup_insert_eq. split; [done|]. split; [done|]. split; [done|].
    split; [eauto|set_solver].
Qed.

Lemma answer_all_run address l c u c' :
  pallet_inv c -> for_each l (answer_get_request address) c = (Some (Ok u), c') ->
  pallet_inv c' /\ bank c' = bank c /\ a_cons (pallet_abs c') = a_cons (pallet_abs c) /\
  forall r, answered_by address c r \/ r ∈ l -> answered_by address c' r.
Proof.
  revert c. induction l as [|x l IH]; intros c Hc Hrun; cbn [for_each] in Hrun.
  - apply ret_inv in Hrun as [_ <-]. do 3 (split; [done|]). intros r [?|Hr]; [done|by apply elem_of_nil in Hr].
  - apply try_ok_inv in Hrun as (u1 & c1 & Hx & Hrun).
    destruct (answer_run _ _ _ _ _ Hc Hx) as (Hc1 & Hb1 & h & rh & leaf & _ & _ & Ha & _).
    destruct (IH _ Hc1 Hrun) as (Hc2 & Hb2 & Hcons & Hall).
    split; [done|]. split; [congruence|]. split; [by rewrite Hcons, Ha|].
    intros r Hr. apply Hall. rewrite elem_of_cons in Hr. destruct Hr as [Hr|[->|Hr]]; [| |by right];
      left; (eapply answer_keeps; [exact Hc|exact Hx|auto]).
Qed.

(** The whole run before the answers are committed. *)
Lemma handle_get_requests_run message c u c' :
  pallet_inv c -> handle_get_requests message c = (Some (Ok u), c') ->
  Forall (answerable message c) (gp_requests message) /\
  exists client cm total c1 dclient dcm responses,
    proof_valid (pallet_abs c) (proof_height (gp_source message)) client /\
    c_commitments (a_cons (pallet_abs c)) !! proof_height (gp_source message) = Some cm /\
    verify_membership client c (RRRequest (RequestGet <$> gp_requests message)) cm (gp_source message)
      = Some (Ok tt) /\
    c1 = (if total =? 0 then c else upd_bank (on_rl_Fees
            <[(smi_state_id (smh_id (proof_height (gp_source message))), gp_address message)
              := relayer_fees (smi_state_id (smh_id (proof_height (gp_source message))))
                   (gp_address message) c + total]>) c) /\
    proof_valid (pallet_abs c) (proof_height (gp_response message)) dclient /\
    c_commitments (a_cons (pallet_abs c)) !! proof_height (gp_response message) = Some dcm /\
    Forall2 (fun g r => exists values,
      verify_state_proof dclient c1 (get_keys g) dcm (gp_response message) = Some (Ok values) /\
      r = mkGetResponse g ((fun kv => mkStorageValue kv.1 kv.2) <$> values))
      (gp_requests message) responses /\
    for_each responses (answer_get_request (gp_address message)) c1 = (Some (Ok u), c').
Proof.
  intros Hc Hrun. unfold handle_get_requests in Hrun. cbv zeta in Hrun.
  apply try_ok_inv in Hrun as (u1 & c1 & Hchk & Hrun).
  apply reading_for_each in Hchk as [-> Hchk]; [|apply check_get_request_reading].
  step_guard Hrun Hh. apply negb_false_iff in Hh. rewrite forallb_forall in Hh.
  apply try_ok_inv in Hrun as (client & c1 & Hv & Hrun).
  apply validate_state_machine_ok in Hv as [-> Hv]; [|exact Hc].
  step_gets Hrun cm Hcm. apply bind_inv in Hrun as (keys & c1 & Hk & Hrun).
  apply or_panic_inv in Hk as [_ ->]. step_ask Hrun um Hm. destruct um. step_ask Hrun values Hvals.
  apply try_ok_inv in Hrun as (total & c1 & Hf & Hrun).
  assert (c1 = c) as ->.
  { eapply reading_try_fold_m; [|exact Hf]. intros ? ?. unfold add_request_fee. reading_solve. }
  apply bind_inv in Hrun as (u2 & c1 & Hacc & Hrun).
  assert (c1 = (if total =? 0 then c else upd_bank (on_rl_Fees
    <[(smi_state_id (smh_id (proof_height (gp_source message))), gp_address message)
      := relayer_fees (smi_state_id (smh_id (proof_height (gp_source message))))
           (gp_address message) c + total]>) c)) as Hc1.
  { destruct (total =? 0); cbn [negb] in Hacc; [by apply ret_inv in Hacc as [_ <-]|].
    by apply accumulate_fee_run in Hacc as [_ ->]. }
  assert (pallet_inv c1 /\ pallet_abs c1 = pallet_abs c) as [Hi1 Ha1] by (subst c1; by destruct (total =? 0)).
  apply try_ok_inv in Hrun as (dclient & c2 & Hdv & Hrun).
  apply validate_state_machine_ok in Hdv as [-> Hdv]; [|exact Hi1]. change (abs c1) with (pallet_abs c1) in Hdv.
  step_gets Hrun dcm Hdcm. apply try_ok_inv in Hrun as (responses & c2 & Hr & Hrun).
  apply reading_try_map_m in Hr as [-> Hr]; [|intros g; unfold get_response_of; reading_solve].
  rewrite (state_machine_commitment_abs (proof_height (gp_source message)) c) in Hcm by exact Hc.
  rewrite (state_machine_commitment_abs (proof_height (gp_response message)) c1) in Hdcm by exact Hi1.
  apply ok_or_ok in Hcm, Hdcm. change (abs c1) with (pallet_abs c1) in Hdcm. rewrite Ha1 in Hdv, Hdcm. split.
  { apply Forall_forall. intros g Hg. rewrite Forall_forall in Hchk. specialize (Hchk g Hg).
    apply check_get_request_ok in Hchk as (? & ? & ?). split; [done|]. split; [done|]. split; [|done].
    apply Z.eqb_eq, Hh. by apply list_elem_of_In. }
  exists client, cm, total, c1, dclient, dcm, responses. do 6 (split; [done|]). split; [|done].
  eapply Forall2_impl; [exact Hr|]. intros g r Hg. unfold get_response_of in Hg.
  step_ask Hg vs Hvs. apply ret_inv in Hg as [E _]. injection E as <-. by exists vs.
Qed.

(** what the coprocessor answers is proved. If a message is handled, both its proofs
    are at committed heights of registered, unfrozen clients whose challenge period is
    over; its requests are committed on the chain of the source proof, unexpired,
    without a receipt, and ask for the height of the response proof; each response holds
    exactly the values verified there. Afterwards every response is committed, every
    request has a receipt with the address of the message and counts as answered; only
    the fees of that address on the source chain have changed, and no balance. *)
Theorem coprocessor_answers_proved message c c' :
  pallet_inv c -> handle_get_requests message c = (Some (Ok tt), c') ->
  let source := gp_source message in let response := gp_response message in
  pallet_inv c' /\ Forall (answerable message c) (gp_requests message) /\
  exists client cm dclient dcm c1 responses total,
    proof_valid (pallet_abs c) (proof_height source) client /\
    c_commitments (a_cons (pallet_abs c)) !! proof_height source = Some cm /\
    verify_membership client c (RRRequest (RequestGet <$> gp_requests message)) cm source = Some (Ok tt) /\
    proof_valid (pallet_abs c) (proof_height response) dclient /\
    c_commitments (a_cons (pallet_abs c)) !! proof_height response = Some dcm /\
    pallet_abs c1 = pallet_abs c /\
    Forall2 (fun g r => exists values,
      verify_state_proof dclient c1 (get_keys g) dcm response = Some (Ok values) /\
      r = mkGetResponse g ((fun kv => mkStorageValue kv.1 kv.2) <$> values))
      (gp_requests message) responses /\
    Forall (answered_by (gp_address message) c') responses /\
    a_cons (pallet_abs c') = a_cons (pallet_abs c) /\
    (forall m a, relayer_fees m a c' = relayer_fees m a c
       + (if decide ((m, a) = (smi_state_id (smh_id (proof_height source)), gp_address message))
          then total else 0)) /\
    forall a, balance a (bank c') = balance a (bank c).
Proof.
  intros Hc Hrun. cbv zeta.
  destruct (handle_get_requests_run _ _ _ _ Hc Hrun) as (Hall & client & cm & total & c1 & dclient & dcm &
    responses & Hv & Hcm & Hm & Hc1 & Hdv & Hdcm & Hr & Ha).
  assert (pallet_inv c1 /\ pallet_abs c1 = pallet_abs c) as [Hi1 Ha1] by (subst c1; by destruct (total =? 0)).
  destruct (answer_all_run _ _ _ _ _ Hi1 Ha) as (Hc' & Hb & Hcons & Hans).
  split; [done|]. split; [done|]. exists client, cm, dclient, dcm, c1, responses, total.
  do 7 (split; [done|]). split; [apply Forall_forall; intros r Hin; apply Hans; by right|].
  split; [by rewrite Hcons, Ha1|]. unfold relayer_fees. rewrite Hb. subst c1. split.
  - intros m a. destruct (Z.eqb_spec total 0) as [->|Hne]; [case_decide; lia|]. cbn.
    case_decide as E; [injection E as -> ->; by rewrite lookup_insert_eq|].
    rewrite lookup_insert_ne by congruence. lia.
  - intros a. by destruct (total =? 0).
Qed.

End properties.
