(* ===== verification/AppsDemo.v ===== *)
(** * A concrete runtime with the application pallets

    The runtime of [PalletDemo] with the storage of the pallets built on pallet-ismp,
    two EVM chains known through one client, and pallet-hyperbridge behind the router.
    The theorems on these pallets are applied to it, and three runs show where the code
    departs from what it is for. *)

From S2P Require Import Prelude StateMachine Router Messaging Host Handlers HostSpec RefHost Frame Requests ChildTrie PalletTypes PalletHost PalletRefines Pallet PalletFrames PalletProps PalletDemo Apps EvmKeys Hyperbridge HostExecutive Fishermen Relayer RelayerProps Coprocessor SubstrateMachine TwoChains TwoChainsDemo HyperbridgeMachine.

Module AppsDemo.

#[local] Existing Instances Demo.keccak Demo.sort PalletDemo.codecs PalletDemo.height_keys
  PalletDemo.leaf_codec PalletDemo.currency PalletDemo.text PalletDemo.root.

(** ** Codecs and library code *)

#[local] Instance SubstrateHostParams_eq_dec : EqDecision SubstrateHostParams.
Proof. solve_decision. Defined.
#[local] Instance VersionedHostParams_eq_dec : EqDecision VersionedHostParams.
Proof. solve_decision. Defined.
#[local] Instance WithdrawalRequest_eq_dec : EqDecision WithdrawalRequest.
Proof. solve_decision. Defined.
#[local] Instance VersionedHostParams_countable : Countable VersionedHostParams.
Proof.
  refine (inj_countable' (fun v => let p := v1_params v in
      (shp_default_per_byte_fee p, shp_per_byte_fees p, shp_asset_registration_fee p))
    (fun x => V1 (mkSubstrateHostParams x.1.1 x.1.2 x.2)) _). by intros [[]].
Defined.
#[local] Instance HyperbridgeMessage_eq_dec : EqDecision HyperbridgeMessage.
Proof. solve_decision. Defined.
#[local] Instance HyperbridgeMessage_countable : Countable HyperbridgeMessage.
Proof.
  refine (inj_countable' (fun m => match m with
      | UpdateHostParams v => inl v
      | WithdrawProtocolFees r => inr (true, wr_amount r, wr_account r)
      | WithdrawRelayerFees r => inr (false, wr_amount r, wr_account r)
      end)
    (fun x => match x with
      | inl v => UpdateHostParams v
      | inr (true, a, b) => WithdrawProtocolFees (mkWithdrawalRequest a b)
      | inr (false, a, b) => WithdrawRelayerFees (mkWithdrawalRequest a b)
      end) _). by intros [|[]|[]].
Defined.

#[local] Instance z_codec : Codec Z := PalletDemo.countable_codec.
#[local] Instance message_codec : Codec HyperbridgeMessage := PalletDemo.countable_codec.
#[local] Instance nonce_codec : Codec (Z * StateMachine) := PalletDemo.countable_codec.

#[local] Instance abi : ParamsAbi := fun _ => lit "abi".
#[local] Instance eth_abi : EthAbi := fun a n _ => a ++ to_be_bytes 32 n.
#[local] Instance rlp : Rlp := {|
  rlp_u256 b := Some (of_be_bytes 0 b);
  rlp_address b := Some b;
  rlp_b256 b := Some b
|}.

(** A signature is valid when it consists of ones; the key behind it is fixed. *)
Definition pub_key : bytes := replicate 32 Byte.x07.
Definition relayer : bytes := replicate 20 Byte.x07.
#[local] Instance crypto : Crypto := {|
  secp256k1_ecdsa_recover s _ := if decide (s = replicate 65 Byte.x01) then Some pub_key else None;
  sr25519_verify s _ _ := bool_decide (s = replicate 64 Byte.x01);
  ed25519_verify s _ _ := bool_decide (s = replicate 64 Byte.x01)
|}.
#[local] Instance order : HashOrder := {| hash_order l := l; hash_order_perm l := reflexivity l |}.

#[local] Instance env : HyperbridgeEnv := {|
  hyperbridge_account := lit "revenue";
  decode_error _ := lit "bad"
|}.

(** ** Chains *)

Definition first : StateMachine := Evm 1.
Definition second : StateMachine := Evm 2.
Definition first_id : StateMachineId := mkStateMachineId first Demo.csid.
Definition second_id : StateMachineId := mkStateMachineId second Demo.csid.

(** A client that accepts the proof "ok"; every key has the state root as its value. *)
Definition root_smc {St} : StateMachineClient St := {|
  verify_membership _ _ _ p :=
    if decide (proof_bytes p = lit "ok") then Some (Ok tt)
    else Some (Err (MembershipProofVerificationFailed (lit "bad proof")));
  receipts_state_trie_key _ := Some [lit "key"];
  verify_state_proof _ keys cm p :=
    if decide (proof_bytes p = lit "ok") then Some (Ok ((fun k => (k, Some (sc_state_root cm))) <$> keys))
    else Some (Err (NonMembershipProofVerificationFailed (lit "bad proof")))
|}.

Definition two_chains {St} : ConsensusClient St := {|
  verify_consensus _ _ _ _ := Some (Err (ConsensusProofVerificationFailed Demo.ccid));
  verify_fraud_proof _ _ _ _ := Some (Err (Custom (lit "no conflict")));
  client_id := Demo.ccid;
  state_machine m := if is_evm m then Ok root_smc else Err (Custom (lit "unsupported"))
|}.

(** ** The runtime *)

Abbreviation Acc := (gmap bytes Z).
Abbreviation St := (Chain (Apps Acc) OffchainDb).

Definition accepting : IsmpModule St :=
  mkIsmpModule (fun _ => ret (Ok tt)) (fun _ => ret (Ok tt)) (fun _ => ret (Ok tt)).

(** The parts of the configuration that pallet-hyperbridge uses come first. *)
Definition base_config (router : IsmpRouter St) : Config (Apps Acc) OffchainDb := {|
  HostStateMachine := Demo.here;
  Coprocessor := Some Demo.here;
  ConsensusClients := [two_chains];
  Router := router;
  AdminOrigin o := match o with OriginRoot => true | _ => false end;
  relayer_fee_account := lit "fees"
|}.
Definition no_router : IsmpRouter St := fun id => Err (IsmpError (ModuleNotFound id)).

#[local] Instance config : Config (Apps Acc) OffchainDb := base_config (fun id =>
  if decide (id = PALLET_HYPERBRIDGE)
  then Ok (hyperbridge_module (Config0 := base_config no_router))
  else if decide (id = lit "to") then Ok accepting else Err (IsmpError (ModuleNotFound id))).

(** The modules of this runtime keep to what a callback may do. *)
#[local] Instance modules : ModulesFrame.
Proof.
  intros id md E. cbn in E. case_decide; [|case_decide]; [..|done]; injection E as <-.
  - exact (hyperbridge_module_frame (Tree := OffchainDb)).
  - (split; [|split]); intros ?; apply keeps_ret; typeclasses eauto.
Defined.

(** ** A state *)

Definition evm_params : EvmHostParam :=
  mkEvmHostParam 1 2 3 [] [] [] (lit "manager") [] 4 5 [] [] [] [].

Definition apps : Apps Acc := mkApps {[ lit "payer" := 1000 ]}
  (V1 (mkSubstrateHostParams 2 {[ second := 3 ]} 0)) {[ first := HPEvm evm_params ]} ∅
  {[ (first, relayer) := 100; (first, pub_key) := 100 ]} ∅ (Some 50) {[ lit "fisher" ]} [].

Definition at_first (n : Z) : StateMachineHeight := mkStateMachineHeight first_id n.
Definition at_second (n : Z) : StateMachineHeight := mkStateMachineHeight second_id n.

(** Height 3 of both chains is known: on the first every value is 100, on the second
    every value is the relayer. *)
Definition store : Storage :=
  state_commitments_insert (at_second 3) (mkStateCommitment 30 None relayer)
    (state_commitments_insert (at_first 3) (mkStateCommitment 30 None [Byte.x64])
      (on_StateMachineUpdateTime (fun _ => <[at_second 3 := 100]> {[ at_first 3 := 100 ]})
        (on_ChallengePeriod (fun _ => <[second_id := 60]> {[ first_id := 60 ]})
          (on_ConsensusStateClient (fun _ => {[ Demo.csid := Demo.ccid ]}) PalletDemo.empty)))).

Definition init : St := mkChain store (from_secs 1000) apps ∅ [] [].

Lemma apps_init_ok : pallet_inv init.
Proof.
  apply ok_state_insert, ok_state_insert. by eapply ok_same; [| |apply PalletDemo.empty_ok].
Defined.

(** ** pallet-hyperbridge *)

Definition hash (r : Request) : H256 := default [] (hash_request r).
Definition fee : FeeMetadata bytes Z := mkFeeMetadata (lit "payer") 100.
Definition to_second : DispatchPost := mkDispatchPost second (lit "to") (lit "them") 500 (lit "hello").
Definition to_second_request : Request := requested (DispatchPostRequest to_second) 0 (from_secs 1000).
Definition paid : St := snd (hyperbridge_dispatch_request (DispatchPostRequest to_second) fee init).

Lemma hyperbridge_request_paid_witness :
  balance (lit "fees") (bank paid) = balance (lit "fees") (bank init) + 100.
Proof.
  destruct (hyperbridge_request_paid to_second fee init (hash to_second_request) paid apps_init_ok)
    as (_ & _ & _ & fees & _ & _ & _ & Hf & _).
  - vm_compute. discriminate.
  - vm_compute. discriminate.
  - vm_compute. discriminate.
  - apply (run_eq (hyperbridge_dispatch_request (DispatchPostRequest to_second) fee) init).
    vm_compute. reflexivity.
  - exact Hf.
Defined.

Definition new_params : VersionedHostParams := V1 (mkSubstrateHostParams 7 ∅ 1).
Definition order_post : PostRequest :=
  mkPostRequest Demo.here Demo.here 0 (lit "gov") PALLET_HYPERBRIDGE 0 (encode (UpdateHostParams new_params)).
Definition ordered : St := snd (on_accept hyperbridge_module order_post init).

Lemma hyperbridge_obeys_coprocessor_witness :
  (Some (Ok tt) : option (result AnyError unit)) = Some (Ok tt) \/ ordered = init.
Proof.
  destruct (proj1 (hyperbridge_obeys_coprocessor init (Some (Ok tt)) ordered order_post
    (ResponseGet (mkGetResponse (mkGetRequest first second 0 [] [] 0 [] 0) []))
    (TimeoutRequest to_second_request))) as [[Ho _]|[_ Hi]].
  - apply (run_eq (on_accept hyperbridge_module order_post) init). vm_compute. reflexivity.
  - left. exact Ho.
  - right. exact Hi.
Defined.

(** ** The host executive *)

Definition no_update : EvmHostParamUpdate :=
  mkEvmHostParamUpdate (Some 9) None None None None None None None None None None None None None.
Definition retuned : St := snd (update_host_params OriginRoot first (HUEvm no_update) init).

Lemma update_host_params_functional_witness :
  exists old, hx_HostParams (bank init) !! first = Some old.
Proof.
  destruct (update_host_params_functional OriginRoot first (HUEvm no_update) init retuned apps_init_ok)
    as (_ & old & post & new & h & Hold & _).
  - apply (run_eq (update_host_params OriginRoot first (HUEvm no_update)) init).
    vm_compute. reflexivity.
  - exists old. exact Hold.
Defined.

(** ** Fishermen *)

Definition vetoed : St := snd (veto_state_commitment (OriginSigned (lit "fisher")) (at_first 3) init).

Lemma veto_disables_commitment_witness :
  exists cm, c_commitments (a_cons (pallet_abs init)) !! at_first 3 = Some cm.
Proof.
  destruct (veto_disables_commitment (OriginSigned (lit "fisher")) (at_first 3) init (Ok tt) vetoed
    apps_init_ok) as [(_ & who & cm & _ & _ & Hcm & _)|[Hno _]].
  - apply (run_eq (veto_state_commitment (OriginSigned (lit "fisher")) (at_first 3)) init).
    vm_compute. reflexivity.
  - exists cm. exact Hcm.
  - destruct (Hno tt). reflexivity.
Defined.

(** ** Withdrawals *)

Definition request_fees : WithdrawalInputData :=
  mkWithdrawalInputData (SigEvm relayer (replicate 65 Byte.x01)) first.
Definition withdrew : St := snd (withdraw request_fees init).

Lemma withdrew_run : withdraw request_fees init = (Some (Ok tt), withdrew).
Proof. apply (run_eq (withdraw request_fees) init). vm_compute. reflexivity. Defined.

Lemma withdraw_pays_signer_witness :
  exists address, relayer_fees first address withdrew = 0.
Proof.
  destruct (withdraw_pays_signer request_fees init withdrew apps_init_ok withdrew_run)
    as (address & _ & Hf & _).
  exists address. exact Hf.
Defined.

Lemma withdraw_only_once_witness :
  withdraw request_fees withdrew = (Some (Err NotEnoughBalance), withdrew).
Proof.
  apply (withdraw_only_once request_fees init withdrew relayer request_fees
    (snd (authenticate request_fees withdrew)) apps_init_ok withdrew_run).
  - vm_compute. reflexivity.
  - split; [reflexivity|]. split; [reflexivity|]. exists pub_key. split; vm_compute; reflexivity.
  - reflexivity.
  - apply (run_eq (authenticate request_fees) withdrew). vm_compute. reflexivity.
Defined.

(** ** Accumulation *)

(** A routed request whose commitment is here, unclaimed. *)
Definition routed : Request := RequestPost (mkPostRequest first second 7 [] [] 0 []).
Definition routed_hash : H256 := hash routed.
Definition routing : St := upd_storage (on_child (RequestCommitments.insert routed_hash
  (mkRequestMetadata (mkLeafIndexAndPos 0 0) no_payer false))) init.

Lemma routing_ok : pallet_inv routing.
Proof. apply ok_insert_rc, apps_init_ok. Defined.

Definition delivery (l : list Key) : WithdrawalProof :=
  mkWithdrawalProof l (mkProof (at_first 3) (lit "ok")) (mkProof (at_second 3) (lit "ok")).
Definition credited (l : list Key) : St := snd (accumulate (delivery l) routing).


(** a delivery that is listed twice in one proof is paid for twice: the filter at
    the start looks at the claimed flag only, and that is set after all the fees have
    been added up. One message with a fee of 100 brings its relayer 200. *)
Theorem duplicate_commitment_paid_twice :
  relayer_fees first relayer routing = 100 /\
  relayer_fees first relayer (credited [KeyRequest routed_hash]) = 200 /\
  fst (accumulate (delivery [KeyRequest routed_hash; KeyRequest routed_hash]) routing) = Some (Ok tt) /\
  relayer_fees first relayer (credited [KeyRequest routed_hash; KeyRequest routed_hash]) = 300.
Proof. split; [|split; [|split]]; vm_compute; reflexivity. Qed.

(** a relayer known by a 32-byte key cannot withdraw the fees it has earned on an EVM
    chain: the withdrawal panics while it encodes the beneficiary as a 20-byte address,
    although the key, the signature and the amount have been checked before. *)
Theorem evm_withdrawal_panics :
  let data := mkWithdrawalInputData (SigSr25519 pub_key (replicate 64 Byte.x01)) first in
  fst (authenticate data init) = Some (Ok pub_key) /\
  min_withdrawal_amount init <= relayer_fees first pub_key init /\
  fst (withdraw data init) = None.
Proof. cbv zeta. split; [|split]; vm_compute; done. Qed.

(** ** The coprocessor *)

Definition ask (dest : StateMachine) : GetRequest :=
  mkGetRequest first dest 5 (lit "from") [lit "key"] 3 [] 2000.
Definition asked (dest : StateMachine) : GetRequestsWithProof :=
  mkGetRequestsWithProof [ask dest] (mkProof (at_first 3) (lit "ok")) (mkProof (at_second 3) (lit "ok"))
    relayer.
Definition served (dest : StateMachine) : St := snd (handle_get_requests (asked dest) init).

Lemma served_run : handle_get_requests (asked second) init = (Some (Ok tt), served second).
Proof. unfold served. apply (run_eq (handle_get_requests (asked second)) init). vm_compute. reflexivity. Defined.

Lemma coprocessor_answers_proved_witness : Forall (answerable (asked second) init) [ask second].
Proof.
  exact (proj1 (proj2 (coprocessor_answers_proved (asked second) init (served second) apps_init_ok
    served_run))).
Defined.

(** the coprocessor does not compare the chain a GET request asks about with the
    chain of the response proof. A request for the state of chain 99, of which this
    host knows nothing, is answered with the state of chain 2 at the same height: the
    response is committed, and the request counts as answered. *)
Theorem answer_from_another_chain :
  let r := mkGetResponse (ask (Evm 99)) [mkStorageValue (lit "key") (Some relayer)] in
  request_dest_chain (RequestGet (ask (Evm 99))) <> smi_state_id (smh_id (at_second 3)) /\
  fst (handle_get_requests (asked (Evm 99)) init) = Some (Ok tt) /\
  (exists h, hash_get_response r = Some h /\
     is_Some (ResponseCommitments.get h (st_child (storage (served (Evm 99)))))) /\
  Responded (storage (served (Evm 99))) !! hash (RequestGet (ask (Evm 99))) = Some true.
Proof.
  cbv zeta. split; [discriminate|]. split; [vm_compute; reflexivity|]. split.
  - eexists. split; [vm_compute; reflexivity|]. vm_compute. eauto.
  - vm_compute. reflexivity.
Qed.

End AppsDemo.

(** * Paying a protocol fee and proving it

    The runtime of [AppsDemo] as a chain that pays for its messages, and as hyperbridge,
    which verifies the payments. *)

Module HyperbridgeDemo.
Import AppsDemo.
#[local] Existing Instances Demo.keccak Demo.sort PalletDemo.codecs PalletDemo.height_keys PalletDemo.leaf_codec PalletDemo.currency PalletDemo.text PalletDemo.root AppsDemo.z_codec AppsDemo.message_codec AppsDemo.env AppsDemo.config TwoChainsDemo.proof_codec.

(** Hyperbridge knows the fee parameters of the chain. *)
Definition hyperbridge : St :=
  upd_bank (on_hx_HostParams <[Demo.here := HPSubstrate (hb_HostParams apps)]>) init.

Definition committed : StateCommitment :=
  mkStateCommitment 1000 (Some TwoChainsDemo.child_label) TwoChainsDemo.state_label.

Section request.
#[local] Instance lib : TrieDb := TwoChainsDemo.tries (st_child (storage paid)).

Lemma paid_request_verifies_witness :
  hyperbridge_verify_membership Demo.here hyperbridge (RRRequest [to_second_request]) committed
    TwoChainsDemo.overlay = Some (Ok tt).
Proof.
  apply (paid_request_verifies to_second fee init paid hyperbridge (hash to_second_request) Demo.here
    committed TwoChainsDemo.overlay (mkStateMachineProof Blake2 []) TwoChainsDemo.child_label apps_init_ok).
  - apply (run_eq (hyperbridge_dispatch_request (DispatchPostRequest to_second) fee) init).
    vm_compute. reflexivity.
  - vm_compute. reflexivity.
  - reflexivity.
  - vm_compute. reflexivity.
  - intros key. cbn. by rewrite decide_True.
Defined.
End request.

(** ** Responses *)

Definition incoming : PostRequest :=
  mkPostRequest second Demo.here 1 (lit "them") (lit "to") 2000 (lit "hello").
Definition responding : St :=
  upd_storage (on_child (RequestReceipts.insert (hash (RequestPost incoming)) (lit "relayer"))) init.
Definition reply : PostResponse := mkPostResponse incoming (lit "pong") 2000.
Definition replied : option (result AnyError H256) * St := hyperbridge_dispatch_response reply fee responding.

(** a response that was dispatched and paid for through pallet-hyperbridge is refused
    by hyperbridge: the dispatcher charges for the bytes of the response, the verifier asks
    for the bytes of the encoded response, request included. *)
Theorem paid_response_refused :
  is_Some (fst replied ≫= ok) /\
  @hyperbridge_verify_membership _ _ _ (TwoChainsDemo.tries (st_child (storage (snd replied)))) _ _
    Demo.here hyperbridge (RRResponse [ResponsePost reply]) committed TwoChainsDemo.overlay
  = Some (Err (Custom (lit "Insufficient payment for request. Expected: 171, got: 96"))).
Proof. split; [apply (bool_decide_unpack _)|]; vm_compute; [exact I|reflexivity]. Qed.

End HyperbridgeDemo.
