(* ===== verification/DemoCodec.v ===== *)
(** * Codecs for concrete runs

    Instances of [Codec] that evaluate in linear time: byte strings one after the other,
    each byte marked and each string closed. *)

From S2P Require Import Prelude StateMachine ChildTrie PalletDemo.

Fixpoint write_string (s : bytes) : bytes :=
  match s with [] => [Byte.x01] | b :: s => Byte.x00 :: b :: write_string s end.

Definition write_strings (l : list bytes) : bytes := concat (write_string <$> l).

(** [cur] is the string being read, in reverse. *)
Fixpoint read_strings (cur : bytes) (b : bytes) : option (list bytes) :=
  match b with
  | [] => match cur with [] => Some [] | _ => None end
  | Byte.x01 :: r => cons (reverse cur) <$> read_strings [] r
  | Byte.x00 :: x :: r => read_strings (x :: cur) r
  | _ => None
  end.

Lemma read_write_string s cur r :
  read_strings cur (write_string s ++ r) = cons (reverse cur ++ s) <$> read_strings [] r.
Proof.
  revert cur; induction s as [|b s IH]; intros cur; cbn; [by rewrite app_nil_r|].
  rewrite IH, reverse_cons, <- app_assoc. done.
Qed.

Lemma read_write_strings l : read_strings [] (write_strings l) = Some l.
Proof.
  induction l as [|s l IH]; [done|]. unfold write_strings in *. cbn.
  by rewrite read_write_string, IH.
Qed.

Section codecs.
Context {A B : Type} (ca : Codec A) (cb : Codec B).

Definition pair_encode (x : A * B) : bytes := write_strings [encode x.1; encode x.2].
Definition pair_decode (b : bytes) : option (A * B) :=
  match read_strings [] b with
  | Some [x; y] => a ← decode x; c ← decode y; Some (a, c)
  | _ => None
  end.
Lemma pair_decode_encode x : pair_decode (pair_encode x) = Some x.
Proof.
  unfold pair_decode, pair_encode. rewrite read_write_strings, !decode_encode. by destruct x.
Qed.
Definition pair_codec : Codec (A * B) := {| decode_encode := pair_decode_encode |}.

Definition list_encode (l : list A) : bytes := write_strings (encode <$> l).
Definition list_decode (b : bytes) : option (list A) := read_strings [] b ≫= mapM decode.
Lemma list_decode_encode l : list_decode (list_encode l) = Some l.
Proof.
  unfold list_decode, list_encode. rewrite read_write_strings. cbn.
  induction l as [|x l IH]; [done|]. cbn. by rewrite decode_encode, IH.
Qed.
Definition list_codec : Codec (list A) := {| decode_encode := list_decode_encode |}.

Definition sum_encode (x : A + B) : bytes :=
  match x with inl a => Byte.x00 :: encode a | inr b => Byte.x01 :: encode b end.
Definition sum_decode (b : bytes) : option (A + B) :=
  match b with
  | Byte.x00 :: r => inl <$> decode r
  | Byte.x01 :: r => inr <$> decode r
  | _ => None
  end.
Lemma sum_decode_encode x : sum_decode (sum_encode x) = Some x.
Proof. destruct x; cbn; by rewrite decode_encode. Qed.
Definition sum_codec : Codec (A + B) := {| decode_encode := sum_decode_encode |}.

(** A type that is coded through another. *)
Context (f : A -> B) (g : B -> A) (Hg : forall x, g (f x) = x).
Lemma via_decode_encode x : g <$> decode (A := B) (encode (f x)) = Some x.
Proof. rewrite decode_encode. cbn. by rewrite Hg. Qed.
Definition via_codec : Codec A := {|
  encode x := encode (f x); decode b := g <$> decode (A := B) b; decode_encode := via_decode_encode
|}.
End codecs.

(** Records as the list of their coded fields, and options. *)
Section fields.
Context {A : Type} (to_fields : A -> list bytes) (of_fields : list bytes -> option A).
Context (Hf : forall x, of_fields (to_fields x) = Some x).
Lemma fields_decode_encode x : read_strings [] (write_strings (to_fields x)) ≫= of_fields = Some x.
Proof. rewrite read_write_strings. cbn. apply Hf. Qed.
Definition fields_codec : Codec A := {|
  encode x := write_strings (to_fields x); decode b := read_strings [] b ≫= of_fields;
  decode_encode := fields_decode_encode
|}.

Context (ca : Codec A).
Definition option_encode (o : option A) : bytes :=
  match o with Some a => Byte.x01 :: encode a | None => [Byte.x00] end.
Definition option_decode (b : bytes) : option (option A) :=
  match b with
  | Byte.x01 :: r => Some <$> decode r
  | [Byte.x00] => Some None
  | _ => None
  end.
Lemma option_decode_encode o : option_decode (option_encode o) = Some o.
Proof. destruct o; cbn; [by rewrite decode_encode|done]. Qed.
Definition option_codec : Codec (option A) := {| decode_encode := option_decode_encode |}.
End fields.

Definition z_codec : Codec Z := PalletDemo.countable_codec.
Definition string_codec : Codec bytes := PalletDemo.bytes_codec.
