(* ===== verification/Grandpa.v ===== *)
(** * GRANDPA finality

    [modules/consensus/grandpa]: the justifications and ancestry chains of
    [primitives/src/justification.rs], the types of [primitives/src/lib.rs], and the
    verification of finality proofs of [verifier/src/lib.rs]. The counting of votes
    ([finality_grandpa::validate_commit]), signatures and tries are library code. *)

From S2P Require Import Prelude StateMachine Router Messaging ChildTrie SubstrateMachine.

(** ** Library code *)

(** [sp_runtime::traits::Header] *)
Class HeaderT (H : Type) : Type := {
  header_hash : H -> H256;
  parent_hash : H -> H256;
  header_number : H -> Z;
  header_state_root : H -> H256;
  header_digest : H -> list DigestItem
}.

(** The messages of [finality_grandpa]. *)
Record Vote : Type := mkVote { target_hash : H256; target_number : Z }.

Inductive GrandpaMessage : Type :=
| MPrevote (v : Vote)
| MPrecommit (v : Vote)
| MPrimaryPropose (v : Vote).

Record SignedPrecommit : Type := mkSignedPrecommit {
  sp_precommit : Vote;
  sp_signature : bytes;
  sp_id : bytes
}.

Record Commit : Type := mkCommit {
  commit_target_hash : H256;
  commit_target_number : Z;
  commit_precommits : list SignedPrecommit
}.

(** [finality_grandpa::Error] *)
Inductive GrandpaError : Type := NotDescendent.

Record CommitValidationResult : Type := mkCommitValidationResult {
  is_valid : bool;
  num_duplicated_precommits : Z;
  num_invalid_voters : Z;
  num_equivocations : Z
}.

(** [finality_grandpa::Chain]: the route from a block down to a base. *)
Abbreviation ChainRoute := (H256 -> H256 -> V GrandpaError (list H256)).

Abbreviation AuthorityList := (list (bytes * Z)).

Class FinalityGrandpa : Type := {
  VoterSet : Type;
  voter_set_new : AuthorityList -> option VoterSet;
  validate_commit : Commit -> VoterSet -> ChainRoute -> V GrandpaError CommitValidationResult;
  debug_validation : CommitValidationResult -> bytes
}.

(** [sp_io::crypto::ed25519_verify] of a signature, a message and a public key, and the
    SCALE encoding of a vote with its round and set. *)
Class VoteCrypto : Type := {
  vote_verify : bytes -> bytes -> bytes -> bool;
  encode_vote : GrandpaMessage -> Z -> Z -> bytes
}.

(** [sp_consensus_grandpa::ConsensusLog], and its decoding. *)
Record ScheduledChange : Type := mkScheduledChange {
  next_authorities : AuthorityList;
  change_delay : Z
}.

Inductive ConsensusLog : Type :=
| LogScheduledChange (c : ScheduledChange)
| LogForcedChange (median : Z) (c : ScheduledChange)
| LogOnDisabled (index : Z)
| LogPause (delay : Z)
| LogResume (delay : Z).

Class ConsensusLogCodec : Type := decode_log : bytes -> option ConsensusLog.

Definition GRANDPA_ENGINE_ID : bytes := lit "FRNK".

(** ** Types of the repository *)

Record GrandpaJustification (H : Type) : Type := mkGrandpaJustification {
  gj_round : Z;
  gj_commit : Commit;
  gj_votes_ancestries : list H
}.
Arguments mkGrandpaJustification {H}.
Arguments gj_round {H}.
Arguments gj_commit {H}.
Arguments gj_votes_ancestries {H}.

Record FinalityProof (H : Type) : Type := mkFinalityProof {
  fp_block : H256;
  fp_justification : bytes;
  fp_unknown_headers : list H
}.
Arguments mkFinalityProof {H}.
Arguments fp_block {H}.
Arguments fp_justification {H}.
Arguments fp_unknown_headers {H}.

Record ConsensusState : Type := mkConsensusState {
  current_authorities : AuthorityList;
  current_set_id : Z;
  latest_height : Z;
  latest_hash : H256;
  slot_duration : Z;
  cs_state_machine : StateMachine
}.

Record ParachainHeaderProofs : Type := mkParachainHeaderProofs {
  php_state_proof : list bytes;
  php_para_ids : list Z
}.

(** The map of relay chain hashes to proofs is given by its entries in order. *)
Record ParachainHeadersWithFinalityProof (H : Type) : Type := mkParachainHeadersWithFinalityProof {
  phf_finality_proof : FinalityProof H;
  phf_parachain_headers : list (H256 * ParachainHeaderProofs)
}.
Arguments mkParachainHeadersWithFinalityProof {H}.
Arguments phf_finality_proof {H}.
Arguments phf_parachain_headers {H}.

(** ** Ancestry *)

Section ancestry.
Context {H : Type} `{!HeaderT H}.

Abbreviation AncestryChain := (gmap H256 H).

Definition ancestry_new (ancestry : list H) : AncestryChain :=
  foldl (fun m h => <[header_hash h := h]> m) ∅ ancestry.

(** The loop of [ancestry]. It ends after at most as many steps as there are headers, or
    not at all; see [ancestry_go_fuel]. *)
Fixpoint ancestry_go (fuel : nat) (chain : AncestryChain) (base current_hash : H256)
    (route : list H256) : V GrandpaError (list H256) :=
  if decide (current_hash = base) then vret route
  else match fuel with
       | O => None
       | S fuel =>
           match chain !! current_hash with
           | Some current_header =>
               ancestry_go fuel chain base (parent_hash current_header)
                 (route ++ [parent_hash current_header])
           | None => verr NotDescendent
           end
       end.

Definition ancestry (chain : AncestryChain) : ChainRoute := fun base block =>
  ancestry_go (S (size chain)) chain base block [block].

(** [iter().max_by_key(f)] takes the last of the greatest, [min_by_key] the first of the
    least. *)
Definition max_by_key {A} (f : A -> Z) (l : list A) : option A :=
  foldl (fun acc x => match acc with
                      | Some y => if f y <=? f x then Some x else Some y
                      | None => Some x
                      end) None l.
Definition min_by_key {A} (f : A -> Z) (l : list A) : option A :=
  foldl (fun acc x => match acc with
                      | Some y => if f x <? f y then Some x else Some y
                      | None => Some x
                      end) None l.

(** ** Digests *)

Definition grandpa_log `{!ConsensusLogCodec} (item : DigestItem) : option ConsensusLog :=
  match item with
  | DigestConsensus id value => if bool_decide (id = GRANDPA_ENGINE_ID) then decode_log value else None
  | _ => None
  end.

Definition find_scheduled_change `{!ConsensusLogCodec} (header : H) : option ScheduledChange :=
  find_map (fun item =>
    log ← grandpa_log item;
    match log with LogScheduledChange change => Some change | _ => None end) (header_digest header).

Definition find_forced_change `{!ConsensusLogCodec} (header : H) : option (Z * ScheduledChange) :=
  find_map (fun item =>
    log ← grandpa_log item;
    match log with LogForcedChange delay change => Some (delay, change) | _ => None end)
    (header_digest header).

End ancestry.

(** ** Signatures *)

Section signatures.
Context `{!VoteCrypto}.

Definition check_message_signature (message : GrandpaMessage) (id signature : bytes)
    (round set_id : Z) : V AnyError unit :=
  let buf := encode_vote message round set_id in
  let! _ := vguard (negb (length signature =? 64)%nat) (AnyMessage (lit "Could not fetch signature")) in
  let! _ := vguard (negb (length id =? 32)%nat) (AnyMessage (lit "Could not fetch public key")) in
  vguard (vote_verify signature buf id)
    (AnyMessage (lit "invalid signature for precommit in grandpa justification")).

(** [finality_grandpa::Equivocation] of votes of one kind. *)
Record EquivocationOf : Type := mkEquivocationOf {
  eq_round_number : Z;
  eq_identity : bytes;
  eq_first : Vote * bytes;
  eq_second : Vote * bytes
}.

Inductive Equivocation : Type :=
| EqPrevote (e : EquivocationOf)
| EqPrecommit (e : EquivocationOf).

(** The macro of [check_equivocation_proof]. *)
Definition check_equivocation (set_id : Z) (e : EquivocationOf) (message : Vote -> GrandpaMessage) :
    V AnyError unit :=
  let! _ := vguard
      (bool_decide (target_hash (eq_first e).1 = target_hash (eq_second e).1) &&
       (target_number (eq_first e).1 =? target_number (eq_second e).1))
      (AnyMessage (lit "both votes have the same target!")) in
  let! _ := check_message_signature (message (eq_first e).1) (eq_identity e) (eq_first e).2
      (eq_round_number e) set_id in
  let! _ := check_message_signature (message (eq_second e).1) (eq_identity e) (eq_second e).2
      (eq_round_number e) set_id in
  vret tt.

Definition check_equivocation_proof (set_id : Z) (equivocation : Equivocation) : V AnyError unit :=
  match equivocation with
  | EqPrevote e => check_equivocation set_id e MPrevote
  | EqPrecommit e => check_equivocation set_id e MPrecommit
  end.

End signatures.

(** ** Justifications *)

Section verifier.
Context {H : Type} `{!HeaderT H} `{!FinalityGrandpa, !VoteCrypto, !ConsensusLogCodec}.

(** The checks on the outcome of counting the votes. *)
Definition check_commit (validation : V GrandpaError CommitValidationResult) : V AnyError unit :=
  match validation with
  | None => None
  | Some (Ok result) =>
      if is_valid result then
        vguard ((0 <? num_duplicated_precommits result) || (0 <? num_invalid_voters result)
                || (0 <? num_equivocations result))
          (AnyMessage (lit "Invalid commit, found one of `duplicate precommits`, `invalid voters`, or `equivocations` "
             ++ debug_validation result))
      else verr (AnyMessage (lit "invalid commit in grandpa justification: " ++ debug_validation result))
  | Some (Err _) =>
      verr (AnyMessage (lit "[verify_with_voter_set] Invalid ancestry while validating commit!"))
  end.

(** The body of the loop over the precommits: the signature is checked and the route from
    the base to the target is visited. *)
Definition visit_precommit (ancestry_chain : gmap H256 H) (base_hash : H256) (round set_id : Z)
    (visited_hashes : gset H256) (signed : SignedPrecommit) : V AnyError (gset H256) :=
  let precommit := sp_precommit signed in
  let! _ := check_message_signature (MPrecommit precommit) (sp_id signed) (sp_signature signed)
      round set_id in
  if decide (base_hash = target_hash precommit) then vret visited_hashes
  else
    match ancestry ancestry_chain base_hash (target_hash precommit) with
    | None => None
    | Some (Err _) => verr (AnyMessage (lit "[verify_with_voter_set] Invalid ancestry!"))
    | Some (Ok route) => vret ({[ target_hash precommit ]} ∪ visited_hashes ∪ list_to_set route)
    end.

Definition verify_with_voter_set (self : GrandpaJustification H) (set_id : Z) (voters : VoterSet) :
    V AnyError unit :=
  let ancestry_chain := ancestry_new (gj_votes_ancestries self) in
  let! _ := check_commit (validate_commit (gj_commit self) voters (ancestry ancestry_chain)) in
  get! base_hash := target_hash <$>
      min_by_key target_number (sp_precommit <$> commit_precommits (gj_commit self)) in
  let! visited_hashes := vfold (visit_precommit ancestry_chain base_hash (gj_round self) set_id) ∅
      (commit_precommits (gj_commit self)) in
  let ancestry_hashes : gset H256 := list_to_set (header_hash <$> gj_votes_ancestries self) in
  vguard (negb (bool_decide (visited_hashes = ancestry_hashes)))
    (AnyMessage (lit "invalid precommit ancestries in grandpa justification with unused headers")).

Definition justification_verify (self : GrandpaJustification H) (set_id : Z)
    (authorities : AuthorityList) : V AnyError unit :=
  let! voters := vlift (ok_or (voter_set_new authorities) (AnyMessage (lit "Invalid AuthoritiesSet"))) in
  verify_with_voter_set self set_id voters.

Definition justification_target (self : GrandpaJustification H) : Z * H256 :=
  (commit_target_number (gj_commit self), commit_target_hash (gj_commit self)).

(** ** Finality proofs *)

Context `{!Codec (GrandpaJustification H), !TrieDb}.

Definition no_headers : AnyError := AnyMessage (lit "Unknown headers can't be empty!").

(** The ancestry of a block, with its error replaced by a text. *)
Definition route_or (text : bytes) (r : V GrandpaError (list H256)) : V AnyError (list H256) :=
  match r with
  | Some r => Some (map_err (fun _ => AnyMessage text) r)
  | None => None
  end.

(** The new state: the set of authorities changes when the block schedules a change. *)
Definition advance (consensus_state : ConsensusState) (target : H) : ConsensusState :=
  let change := find_scheduled_change target in
  mkConsensusState
    (match change with Some c => next_authorities c | None => current_authorities consensus_state end)
    (match change with
     | Some _ => wrap64 (current_set_id consensus_state + 1)
     | None => current_set_id consensus_state
     end)
    (header_number target) (header_hash target)
    (slot_duration consensus_state) (cs_state_machine consensus_state).

Definition verify_grandpa_finality_proof (consensus_state : ConsensusState)
    (finality_proof : FinalityProof H) :
    V AnyError (ConsensusState * H * list H256 * gmap H256 H) :=
  let headers := ancestry_new (fp_unknown_headers finality_proof) in
  let! target := vlift (ok_or (max_by_key header_number (fp_unknown_headers finality_proof)) no_headers) in
  let! _ := vguard (negb (bool_decide (header_hash target = fp_block finality_proof)))
      (AnyMessage (lit "Latest finalized block should be highest block in unknown_headers")) in
  let! justification := vlift (ok_or
      (decode (A := GrandpaJustification H) (fp_justification finality_proof))
      (AnyMessage (lit "Failed to decode justificatio " ++ decode_text (fp_justification finality_proof)))) in
  let! _ := vguard
      (negb (bool_decide (commit_target_hash (gj_commit justification) = fp_block finality_proof)))
      (AnyMessage (lit "Justification target hash and finality proof block hash mismatch")) in
  let from := latest_hash consensus_state in
  let! base := vlift (ok_or (min_by_key header_number (fp_unknown_headers finality_proof)) no_headers) in
  let! _ :=
    (if header_number base <? latest_height consensus_state then
       let! _ := route_or
           (lit "[verify_grandpa_finality_proof] Invalid ancestry (base -> latest relay block)!")
           (ancestry headers (header_hash base) from) in
       vret tt
     else vret tt : V AnyError unit) in
  let! finalized := route_or (lit "[verify_grandpa_finality_proof] Invalid ancestry!")
      (ancestry headers from (header_hash target)) in
  let! _ := justification_verify justification (current_set_id consensus_state)
      (current_authorities consensus_state) in
  vret (advance consensus_state target, target, finalized, headers).

End verifier.

(** ** Parachain headers *)

(** [twox_128] and [twox_64], and the SCALE encoding of a [u32]: little endian. *)
Class Twox : Type := { twox_128 : bytes -> bytes; twox_64 : bytes -> bytes }.

Definition to_le_bytes (n : nat) (z : Z) : bytes := reverse (to_be_bytes n z).

(** [frame_support::storage::storage_prefix]: both names hashed. *)
Definition storage_prefix `{!Twox} (pallet item : bytes) : bytes := twox_128 pallet ++ twox_128 item.

Definition parachain_header_storage_key `{!Twox} (para_id : Z) : bytes :=
  let encoded_para_id := to_le_bytes 4 para_id in
  storage_prefix (lit "Paras") (lit "Heads") ++ twox_64 encoded_para_id ++ encoded_para_id.

(** The derived [Debug] form of an ISMP error. *)
Class DebugError : Type := debug_error : Error -> bytes.

Section parachains.
Context {H : Type} `{!HeaderT H} `{!FinalityGrandpa, !VoteCrypto, !ConsensusLogCodec}.
Context `{!Codec (GrandpaJustification H), !Codec H, !Codec bytes, !TrieDb, !Twox, !DebugError}.

(** [entry(para_id).or_default().push(header)] *)
Definition push_header (m : list (Z * list H)) (para_id : Z) (header : H) : list (Z * list H) :=
  btree_insert Z.compare para_id (default [] (btree_get Z.compare para_id m) ++ [header]) m.

(** One parachain header out of the values of a proof. [result.remove(&key)] returns the
    value of each key once; the keys are distinct. *)
Definition read_parachain_header (result : list (bytes * option bytes))
    (verified_parachain_headers : list (Z * list H)) (entry : bytes * Z) :
    V AnyError (list (Z * list H)) :=
  let! header := vlift (ok_or (btree_get compare_bytes entry.1 result ≫= fun v => v)
      (AnyMessage (lit "Invalid proof, parachain header not found"))) in
  let! parachain_header := vlift (ok_or (decode (A := H) header)
      (AnyMessage (lit "error decoding header: " ++ decode_text header))) in
  vret (push_header verified_parachain_headers entry.2 parachain_header).

Definition read_relay_block (headers : gmap H256 H) (finalized_hashes : list H256)
    (verified_parachain_headers : list (Z * list H)) (entry : H256 * ParachainHeaderProofs) :
    V AnyError (list (Z * list H)) :=
  let (hash, proof) := entry in
  if bool_decide (hash ∉ finalized_hashes) then vret verified_parachain_headers
  else
    get! relay_chain_header := headers !! hash in
    let keys := btree_collect compare_bytes
        ((fun para_id => (parachain_header_storage_key para_id, para_id)) <$> php_para_ids proof) in
    match read_proof_check Blake2 (header_state_root relay_chain_header) (php_state_proof proof) keys.*1 with
    | None => None
    | Some (Err err) => verr (AnyMessage
        (lit "error verifying parachain header state proof: " ++ debug_error err))
    | Some (Ok result) => vfold (read_parachain_header result) verified_parachain_headers keys
    end.

Definition verify_parachain_headers_with_grandpa_finality_proof (consensus_state : ConsensusState)
    (proof : ParachainHeadersWithFinalityProof H) : V AnyError (ConsensusState * list (Z * list H)) :=
  let! (consensus_state, _, finalized_hashes, headers) :=
    verify_grandpa_finality_proof consensus_state (phf_finality_proof proof) in
  let! verified_parachain_headers := vfold (read_relay_block headers finalized_hashes) []
      (phf_parachain_headers proof) in
  vret (consensus_state, verified_parachain_headers).

End parachains.

(** * Walking up a chain of headers

    The loop of [AncestryChain::ancestry] follows parent hashes through a set of headers
    that an untrusted message supplies. It ends within as many steps as there are headers,
    or it never does; and it never fails to end unless the headers contain a cycle of
    parent hashes. *)

From stdpp Require Import finite.

Section ancestry.
Context {H : Type} `{!HeaderT H}.
Implicit Types chain : gmap H256 H.

(** [y] is the parent of the known header [x]. *)
Definition step_to chain (x y : H256) : Prop := exists h, chain !! x = Some h /\ y = parent_hash h.

(** Every element of the list is the parent of its predecessor. *)
Fixpoint chained chain (l : list H256) : Prop :=
  match l with
  | x :: (y :: _) as r => step_to chain x y /\ chained chain r
  | _ => True
  end.

(** No walk returns to where it started. *)
Definition acyclic chain : Prop := forall z b, ~ chained chain (z :: b ++ [z]).

Lemma chained_app chain a z b :
  chained chain (a ++ z :: b) <-> chained chain (a ++ [z]) /\ chained chain (z :: b).
Proof.
  induction a as [|x a IH]; [cbn; tauto|].
  destruct a as [|y a]; [cbn; tauto|]. cbn in IH |- *. rewrite IH. tauto.
Qed.

Lemma chained_prefix chain a b : chained chain (a ++ b) -> chained chain a.
Proof.
  induction a as [|x a IH]; [done|]. destruct a as [|y a]; [done|].
  intros [Hs Hc]. split; [done|]. by apply IH.
Qed.

Lemma chained_dom chain l y a : chained chain (l ++ [y]) -> a ∈ l -> is_Some (chain !! a).
Proof.
  induction l as [|x l IH]; [by intros _ ?%elem_of_nil|]. intros Hc Ha.
  assert (is_Some (chain !! x) /\ chained chain (l ++ [y])) as [Hx Hl].
  { destruct l as [|x' l]; cbn in Hc; destruct Hc as [(h & Hh & _) Hc]; split; eauto. }
  apply elem_of_cons in Ha as [->|Ha]; auto.
Qed.

(** ** The loop *)

Lemma go_at_base fuel chain base route : ancestry_go fuel chain base base route = vret route.
Proof. destruct fuel; cbn; by rewrite decide_True. Qed.

Lemma go_step fuel chain base x y route :
  x <> base -> step_to chain x y ->
  ancestry_go (S fuel) chain base x route = ancestry_go fuel chain base y (route ++ [y]).
Proof. intros Hne (h & Hh & ->). cbn. by rewrite decide_False, Hh. Qed.

(** Along a chained list that avoids the base the loop goes on, *)
Lemma go_follow chain base l x y k route :
  chained chain (x :: l ++ [y]) -> base ∉ x :: l ->
  ancestry_go (S (length l) + k) chain base x route = ancestry_go k chain base y (route ++ l ++ [y]).
Proof.
  revert x route; induction l as [|z l IH]; intros x route Hc Hb; apply not_elem_of_cons in Hb as [Hx Hb].
  - destruct Hc as [Hs _]. cbn [length Nat.add app]. by apply go_step.
  - destruct Hc as [Hs Hc]. cbn [length Nat.add]. rewrite (go_step _ _ _ x z) by done.
    change (S (length l + k)) with (S (length l) + k)%nat. rewrite IH by done.
    by rewrite <- app_assoc.
Qed.

(** and without fuel for all of it, it does not end. *)
Lemma go_short chain base l x fuel route :
  chained chain (x :: l) -> base ∉ x :: l -> (fuel <= length l)%nat ->
  ancestry_go fuel chain base x route = None.
Proof.
  revert x fuel route; induction l as [|z l IH]; intros x fuel route Hc Hb Hf;
    apply not_elem_of_cons in Hb as [Hx Hb]; destruct fuel as [|fuel]; cbn in Hf; try lia.
  - cbn. by rewrite decide_False.
  - cbn. by rewrite decide_False.
  - destruct Hc as [Hs Hc]. rewrite (go_step _ _ _ x z) by done. apply IH; [done..|lia].
Qed.

(** A walk into a cycle that avoids the base never ends. *)
Lemma go_cycle chain base z b fuel route :
  chained chain (z :: b ++ [z]) -> base ∉ z :: b -> ancestry_go fuel chain base z route = None.
Proof.
  intros Hc Hb. revert route. induction (lt_wf fuel) as [fuel _ IH]. intros route.
  destruct (decide (fuel <= length b)%nat) as [Hf|Hf].
  - eapply go_short; [|exact Hb|exact Hf]. by apply (chained_prefix chain (z :: b) [z]).
  - replace fuel with (S (length b) + (fuel - S (length b)))%nat by lia.
    rewrite (go_follow _ _ _ _ z) by done. apply IH. lia.
Qed.

(** How each outcome comes about. *)
Lemma go_ok fuel chain base x route r :
  ancestry_go fuel chain base x route = Some (Ok r) ->
  exists l, r = route ++ l /\ chained chain (x :: l) /\ last (x :: l) = Some base.
Proof.
  revert x route; induction fuel as [|fuel IH]; intros x route; cbn; case_decide as Hx; subst.
  - intros [= <-]. exists []. by rewrite app_nil_r.
  - done.
  - intros [= <-]. exists []. by rewrite app_nil_r.
  - destruct (chain !! x) as [h|] eqn:Eh; [|done]. intros (l & -> & Hc & Hl)%IH.
    exists (parent_hash h :: l). split; [by rewrite <- app_assoc|]. split; [|done].
    split; [by exists h|done].
Qed.

Lemma go_err fuel chain base x route e :
  ancestry_go fuel chain base x route = Some (Err e) ->
  forall l, chained chain (x :: l) -> last (x :: l) <> Some base.
Proof.
  revert x route; induction fuel as [|fuel IH]; intros x route; cbn; case_decide as Hx; subst; try done.
  intros Hgo [|y l] Hc; [by intros [= ->]|]. destruct Hc as [(h & Hh & ->) Hc].
  rewrite Hh in Hgo. exact (IH _ _ Hgo l Hc).
Qed.

Lemma go_none fuel chain base x route :
  ancestry_go fuel chain base x route = None ->
  exists l, length l = fuel /\ chained chain (x :: l) /\ base ∉ x :: l.
Proof.
  revert x route; induction fuel as [|fuel IH]; intros x route; cbn; case_decide as Hx; subst; try done.
  - intros _. exists []. split; [done|]. split; [done|]. apply not_elem_of_cons. split; [done|].
    apply not_elem_of_nil.
  - destruct (chain !! x) as [h|] eqn:Eh; [|done]. intros (l & <- & Hc & Hb)%IH.
    exists (parent_hash h :: l). split; [done|]. split; [split; [by exists h|done]|].
    by apply not_elem_of_cons.
Qed.

(** ** Cycles *)

(** A loop that needs more steps than there are headers has walked into a cycle. *)
Lemma none_cycle chain base x route :
  ancestry_go (S (size chain)) chain base x route = None ->
  exists a z b, chained chain (a ++ [z]) /\ chained chain (z :: b ++ [z]) /\
    base ∉ a ++ z :: b /\ head (a ++ [z]) = Some x.
Proof.
  intros (l & Hlen & Hc & Hb)%go_none.
  destruct (exists_last (l := x :: l)) as (l1 & y & El); [done|].
  assert (length l1 = S (size chain)) as Hl1.
  { apply (f_equal length) in El. rewrite length_app in El. cbn in El. lia. }
  destruct (list_pigeonhole l1 (elements (dom chain))) as (i & j & z & Hij & Hi & Hj).
  - intros w Hw. apply elem_of_elements, elem_of_dom. rewrite El in Hc. by eapply chained_dom.
  - change (length (elements (dom chain))) with (size (dom chain)). rewrite size_dom. lia.
  - pose proof (take_drop_middle _ _ _ Hi) as E1.
    assert (drop (S i) l1 !! (j - S i)%nat = Some z) as Hj'.
    { rewrite lookup_drop, <- Hj. f_equal. lia. }
    pose proof (take_drop_middle _ _ _ Hj') as E2.
    set (a := take i l1) in *. set (b := take (j - S i) (drop (S i) l1)) in *.
    set (c := drop (S (j - S i)) (drop (S i) l1)) in *.
    rewrite <- E1, <- E2 in El. exists a, z, b. rewrite El in Hc, Hb.
    rewrite <- !app_assoc in Hc, Hb. cbn in Hc, Hb. rewrite <- app_assoc in Hc, Hb. cbn in Hc, Hb.
    apply chained_app in Hc as [Ha Hc]. split; [exact Ha|]. split.
    + apply (chained_app chain (z :: b) z (c ++ [y])) in Hc as [Hc _]. exact Hc.
    + split.
      * intros Hin. apply Hb. rewrite elem_of_app, elem_of_cons, elem_of_app in *. naive_solver.
      * apply (f_equal head) in El. cbn in El. rewrite El. by destruct a.
Qed.

Lemma cycle_never chain base a z b x fuel route :
  chained chain (a ++ [z]) -> chained chain (z :: b ++ [z]) -> base ∉ a ++ z :: b ->
  head (a ++ [z]) = Some x -> ancestry_go fuel chain base x route = None.
Proof.
  intros Ha Hc Hb Hx. rewrite elem_of_app in Hb. destruct a as [|x' a]; cbn in Hx; injection Hx as <-.
  - apply (go_cycle _ _ _ b); [done|naive_solver].
  - destruct (decide (fuel <= length (a ++ [z]))%nat) as [Hf|Hf].
    + eapply go_short; [exact Ha| |exact Hf]. rewrite elem_of_cons, elem_of_app, list_elem_of_singleton.
      rewrite !elem_of_cons in Hb. naive_solver.
    + rewrite length_app in Hf. cbn in Hf.
      replace fuel with (S (length a) + (fuel - S (length a)))%nat by lia.
      rewrite (go_follow _ _ _ _ z); [|done|naive_solver].
      apply (go_cycle _ _ _ b); [done|naive_solver].
Qed.

(** More fuel does not change an outcome. *)
Lemma go_mono fuel fuel' chain base x route r :
  ancestry_go fuel chain base x route = Some r -> (fuel <= fuel')%nat ->
  ancestry_go fuel' chain base x route = Some r.
Proof.
  revert fuel' x route; induction fuel as [|fuel IH]; intros fuel' x route Hgo Hf.
  - cbn in Hgo. case_decide as Hx; [|done]. subst. by rewrite go_at_base.
  - destruct fuel' as [|fuel']; [lia|]. cbn in Hgo |- *. case_decide; [done|].
    destruct (chain !! x); [|done]. apply IH; [done|lia].
Qed.

(** The fuel of [ancestry] is enough: if the loop ends at all, [ancestry] is its outcome. *)
Lemma ancestry_go_fuel fuel chain base block r :
  ancestry_go fuel chain base block [block] = Some r -> ancestry chain base block = Some r.
Proof.
  intros Hgo. destruct (ancestry chain base block) as [r'|] eqn:Ea; unfold ancestry in Ea.
  - rewrite <- Ea. destruct (Nat.le_ge_cases fuel (S (size chain))) as [Hf|Hf].
    + by eapply go_mono.
    + pose proof (go_mono _ _ _ _ _ _ _ Ea Hf). congruence.
  - apply none_cycle in Ea as (a & z & b & Ha & Hc & Hb & Hx).
    by rewrite (cycle_never _ _ _ _ _ _ fuel [block] Ha Hc Hb Hx) in Hgo.
Qed.

End ancestry.
