(* ===== verification/GrandpaClient.v ===== *)
(** * The GRANDPA consensus client

    [clients/grandpa/src]: the [ConsensusClient] that follows a relay chain and its
    parachains, or a standalone chain ([consensus.rs], [messages.rs]), and the calls of the
    pallet that keeps the list of supported state machines ([lib.rs]). *)

From S2P Require Import Prelude StateMachine Router Messaging Host ChildTrie PalletTypes SubstrateMachine Grandpa.

Definition POLKADOT_CONSENSUS_STATE_ID : bytes := lit "polk".
Definition KUSAMA_CONSENSUS_STATE_ID : bytes := lit "ksma".
Definition GRANDPA_CONSENSUS_ID : ConsensusClientId := (Byte.x47, Byte.x52, Byte.x4e, Byte.x50).

(** ** Messages *)

Record StandaloneChainMessage (H : Type) : Type := mkStandaloneChainMessage {
  scm_finality_proof : FinalityProof H
}.
Arguments mkStandaloneChainMessage {H}.
Arguments scm_finality_proof {H}.

Record RelayChainMessage (H : Type) : Type := mkRelayChainMessage {
  rcm_finality_proof : FinalityProof H;
  rcm_parachain_headers : list (H256 * ParachainHeaderProofs)
}.
Arguments mkRelayChainMessage {H}.
Arguments rcm_finality_proof {H}.
Arguments rcm_parachain_headers {H}.

Inductive GrandpaConsensusMessage (H : Type) : Type :=
| MStandaloneChain (m : StandaloneChainMessage H)
| MRelayChain (m : RelayChainMessage H).
Arguments MStandaloneChain {H}.
Arguments MRelayChain {H}.

Section client.
Context `{HK : Keccak256} {H : Type} `{!HeaderT H} `{!FinalityGrandpa, !VoteCrypto, !ConsensusLogCodec}.
Context `{!Codec (GrandpaJustification H), !Codec H, !Codec bytes, !TrieDb, !Twox, !DebugError}.
Context `{!Codec (GrandpaConsensusMessage H), !Codec ConsensusState, !Codec (FinalityProof H)}.
Context `{!SlotCodec, !Codec ConsensusDigest, !Codec SubstrateStateProof} {St : Type}.

(** [T::Coprocessor], and the state machines of the pallet with their slot durations. *)
Variable Coprocessor : option StateMachine.
Variable SupportedStateMachines : gmap StateMachine Z.

(** ** Commitments *)

(** The digest of a header, with its timestamp required. *)
Definition header_time (header : H) (slot_duration : Z) : V Error DigestResult :=
  let! digest_result := fetch_overlay_root_and_timestamp (header_digest header) slot_duration in
  let! _ := vguard (dr_timestamp digest_result =? 0)
      (Custom (lit "Timestamp or ismp root not found")) in
  vret digest_result.

Definition parachain_commitment (state_id : StateMachine) (slot_duration : Z) (header : H) :
    V Error StateCommitmentHeight :=
  let! digest_result := header_time header slot_duration in
  let digest := dr_ismp_digest digest_result in
  vret (mkStateCommitmentHeight
    (if bool_decide (Coprocessor = Some state_id) then
       mkStateCommitment (dr_timestamp digest_result) (Some (cd_mmr_root digest))
         (cd_child_trie_root digest)
     else
       mkStateCommitment (dr_timestamp digest_result) (Some (cd_child_trie_root digest))
         (header_state_root header))
    (header_number header)).

(** The supported parachains, with their slot durations. *)
Definition supported_parachain (entry : Z * list H) : option (Z * list H * Z) :=
  let (para_id, headers) := entry in
  match SupportedStateMachines !! Polkadot para_id with
  | Some slot_duration => Some (para_id, headers, slot_duration)
  | None => (fun slot_duration => (para_id, headers, slot_duration))
              <$> SupportedStateMachines !! Kusama para_id
  end.

Definition para_state_id (para_id : Z) : result Error StateMachine :=
  match Coprocessor with
  | Some (Polkadot _) => Ok (Polkadot para_id)
  | Some (Kusama _) => Ok (Kusama para_id)
  | _ => Err (Custom (lit "Coprocessor was not set, cannot determine para id state machine id"))
  end.

Definition parachain_commitments (intermediates : VerifiedCommitments) (entry : Z * list H * Z) :
    V Error VerifiedCommitments :=
  let '(para_id, header_vec, slot_duration) := entry in
  let! state_id := vlift (para_state_id para_id) in
  let! state_commitments_vec := vmap (parachain_commitment state_id slot_duration) header_vec in
  vret (btree_insert compare_StateMachine state_id state_commitments_vec intermediates).

(** ** The client *)

Definition grandpa_verify_consensus (trusted_consensus_state proof : bytes) :
    V Error (bytes * VerifiedCommitments) :=
  let! consensus_message := vlift (ok_or (decode (A := GrandpaConsensusMessage H) proof)
      (Custom (lit "Cannot decode consensus message from proof: " ++ decode_text proof))) in
  let! consensus_state := vlift (ok_or (decode (A := ConsensusState) trusted_consensus_state)
      (Custom (lit "Cannot decode consensus state from trusted consensus state bytes: "
         ++ decode_text trusted_consensus_state))) in
  match consensus_message with
  | MRelayChain relay_chain_message =>
      match verify_parachain_headers_with_grandpa_finality_proof consensus_state
          (mkParachainHeadersWithFinalityProof (rcm_finality_proof relay_chain_message)
             (rcm_parachain_headers relay_chain_message)) with
      | None => None
      | Some (Err _) => verr (Custom (lit "Error verifying parachain headers"))
      | Some (Ok (consensus_state, parachain_headers)) =>
          let! intermediates := vfold parachain_commitments []
              (omap supported_parachain parachain_headers) in
          vret (encode consensus_state, intermediates)
      end
  | MStandaloneChain standalone_chain_message =>
      match verify_grandpa_finality_proof consensus_state
          (scm_finality_proof standalone_chain_message) with
      | None => None
      | Some (Err _) => verr (Custom (lit "Error verifying grandpa header"))
      | Some (Ok (consensus_state, header, _, _)) =>
          let! digest_result := header_time header (slot_duration consensus_state) in
          vret (encode consensus_state,
            [(cs_state_machine consensus_state,
              [mkStateCommitmentHeight
                 (mkStateCommitment (dr_timestamp digest_result)
                    (Some (cd_child_trie_root (dr_ismp_digest digest_result))) (header_state_root header))
                 (header_number header)])])
      end
  end.

Definition headers_empty : Error := Custom (lit "Unknown headers can't be empty!").
Definition invalid_ancestry : Error := Custom (lit "Invalid ancestry!").

(** The highest and the lowest header of a proof. *)
Definition fraud_target (p : FinalityProof H) : result Error H :=
  ok_or (max_by_key header_number (fp_unknown_headers p)) headers_empty.
Definition fraud_base (p : FinalityProof H) : result Error H :=
  ok_or (min_by_key header_number (fp_unknown_headers p)) headers_empty.

Definition fraud_route (p : FinalityProof H) (base target : H) : V Error (list H256) :=
  match ancestry (ancestry_new (fp_unknown_headers p)) (header_hash base) (header_hash target) with
  | None => None
  | Some r => Some (map_err (fun _ => invalid_ancestry) r)
  end.

Definition grandpa_verify_fraud_proof (trusted_consensus_state proof_1 proof_2 : bytes) :
    V Error unit :=
  let! consensus_state := vlift (ok_or (decode (A := ConsensusState) trusted_consensus_state)
      (Custom (lit "Cannot decode consensus state from trusted consensus state bytes: "
         ++ decode_text trusted_consensus_state))) in
  let! first_proof := vlift (ok_or (decode (A := FinalityProof H) proof_1)
      (Custom (lit "Cannot decode first finality proof from proof_1 bytes: " ++ decode_text proof_1))) in
  let! second_proof := vlift (ok_or (decode (A := FinalityProof H) proof_2)
      (Custom (lit "Cannot decode second finality proof from proof_2 bytes: " ++ decode_text proof_2))) in
  let! _ := vguard (bool_decide (fp_block first_proof = fp_block second_proof))
      (Custom (lit "Fraud proofs are for the same block")) in
  let! first_target := vlift (fraud_target first_proof) in
  let! second_target := vlift (fraud_target second_proof) in
  let! _ := vguard (negb (bool_decide (header_hash first_target = fp_block first_proof)) ||
                    negb (bool_decide (header_hash second_target = fp_block second_proof)))
      (Custom (lit "Fraud proofs are not for the same chain")) in
  let! first_base := vlift (fraud_base first_proof) in
  let! _ := fraud_route first_proof first_base first_target in
  let! second_base := vlift (fraud_base second_proof) in
  let! _ := fraud_route second_proof second_base second_target in
  let! _ := vguard (negb (bool_decide (parent_hash first_base = parent_hash second_base)))
      (Custom (lit "Fraud proofs are not for the same ancestor")) in
  let! first_justification := vlift (ok_or
      (decode (A := GrandpaJustification H) (fp_justification first_proof))
      (Custom (lit "Could not decode first justification"))) in
  let! second_justification := vlift (ok_or
      (decode (A := GrandpaJustification H) (fp_justification second_proof))
      (Custom (lit "Could not decode second justification"))) in
  let first_hash := commit_target_hash (gj_commit first_justification) in
  let second_hash := commit_target_hash (gj_commit second_justification) in
  let! _ := vguard (negb (bool_decide (fp_block first_proof = first_hash)) ||
                    negb (bool_decide (fp_block second_proof = second_hash)))
      (Custom (lit "First or second finality proof block hash does not match justification target hash")) in
  let! _ := vguard (negb (bool_decide (first_hash = latest_hash consensus_state)) &&
                    negb (bool_decide (second_hash = latest_hash consensus_state)))
      (Custom (lit "First or second justification does not match consensus latest hash")) in
  get! first_valid := is_ok <$> justification_verify first_justification
      (current_set_id consensus_state) (current_authorities consensus_state) in
  get! second_valid := is_ok <$> justification_verify second_justification
      (current_set_id consensus_state) (current_authorities consensus_state) in
  vguard (negb first_valid || negb second_valid) (Custom (lit "Invalid justification")).

Definition unsupported (id : StateMachine) : Error :=
  Custom (lit "Unsupported State Machine " ++ debug_StateMachine id).

Definition grandpa_client : ConsensusClient St := {|
  verify_consensus _ _ := grandpa_verify_consensus;
  verify_fraud_proof _ := grandpa_verify_fraud_proof;
  client_id := GRANDPA_CONSENSUS_ID;
  state_machine id :=
    match SupportedStateMachines !! id with
    | Some _ => Ok (substrate_state_machine Coprocessor)
    | None => Err (unsupported id)
    end
|}.

End client.

(** ** The list of state machines *)

Record AddStateMachine : Type := mkAddStateMachine {
  asm_state_machine : StateMachine;
  asm_slot_duration : Z
}.

Inductive GrandpaEvent : Type :=
| StateMachineAdded (state_machines : list StateMachine)
| StateMachineRemoved (state_machines : list StateMachine).

(** The storage and the events of the pallet. *)
Record GrandpaPallet : Type := mkGrandpaPallet {
  gp_SupportedStateMachines : gmap StateMachine Z;
  gp_events : list GrandpaEvent
}.

Inductive BadOrigin : Type := GrandpaBadOrigin.

Section calls.
Variable AdminOrigin : Origin -> bool.

Definition add_state_machines (origin : Origin) (new_state_machines : list AddStateMachine) :
    M GrandpaPallet (result BadOrigin unit) :=
  let? _ := ensure_not (negb (AdminOrigin origin)) GrandpaBadOrigin in
  let* _ := modify (fun p => mkGrandpaPallet
    (foldl (fun m a => <[asm_state_machine a := asm_slot_duration a]> m)
       (gp_SupportedStateMachines p) new_state_machines)
    (gp_events p ++ [StateMachineAdded (asm_state_machine <$> new_state_machines)])) in
  ret (Ok tt).

Definition remove_state_machines (origin : Origin) (state_machines : list StateMachine) :
    M GrandpaPallet (result BadOrigin unit) :=
  let? _ := ensure_not (negb (AdminOrigin origin)) GrandpaBadOrigin in
  let* _ := modify (fun p => mkGrandpaPallet
    (foldl (fun m id => delete id m) (gp_SupportedStateMachines p) state_machines)
    (gp_events p ++ [StateMachineRemoved state_machines])) in
  ret (Ok tt).

End calls.
