(* ===== verification/GrandpaProps.v ===== *)
(** * What GRANDPA verification establishes

    The theorems on [Grandpa] and [GrandpaClient]. *)

From S2P Require Import Prelude StateMachine Router Messaging Host ChildTrie PalletTypes SubstrateMachine Grandpa GrandpaClient.

(** ** Extremal elements *)

Lemma max_by_key_go {A} (f : A -> Z) l acc x :
  foldl (fun acc x => match acc with
                      | Some y => if f y <=? f x then Some x else Some y
                      | None => Some x
                      end) acc l = Some x ->
  (acc = Some x \/ x ∈ l) /\ (forall y, acc = Some y \/ y ∈ l -> f y <= f x).
Proof.
  revert acc; induction l as [|z l IH]; intros acc Hm; cbn in Hm.
  - subst. split; [auto|]. intros y [[= ->]|[]%elem_of_nil]; lia.
  - apply IH in Hm as [Hx Hy]. split.
    + destruct acc as [w|]; [destruct (f w <=? f z)|]; rewrite elem_of_cons; naive_solver.
    + intros y Hyl. destruct acc as [w|].
      * pose proof (Hy w) as Hw. pose proof (Hy z) as Hz. pose proof (Hy y) as Hyy.
        destruct (Z.leb_spec (f w) (f z)); destruct Hyl as [[= ->]|[->|?]%elem_of_cons]; auto;
          first [specialize (Hz (or_introl eq_refl)); lia|specialize (Hw (or_introl eq_refl)); lia].
      * destruct Hyl as [?|[->|?]%elem_of_cons]; [done|..]; auto.
Qed.

Lemma max_by_key_some {A} (f : A -> Z) l x :
  max_by_key f l = Some x -> x ∈ l /\ forall y, y ∈ l -> f y <= f x.
Proof. intros [[?|Hx] Hy]%max_by_key_go; [done|]. split; [done|]. intros y Hin. apply Hy. auto. Qed.

(** ** Sets of headers *)

Section headers.
Context {H : Type} `{!HeaderT H}.

Lemma ancestry_new_lookup (l : list H) x h :
  ancestry_new l !! x = Some h -> h ∈ l /\ header_hash h = x.
Proof.
  unfold ancestry_new. enough (forall m : gmap H256 H, foldl (fun m h => <[header_hash h := h]> m) m l !! x = Some h ->
    m !! x = Some h \/ (h ∈ l /\ header_hash h = x)) as He.
  { intros [Hm|?]%He; [by rewrite lookup_empty in Hm|done]. }
  induction l as [|h' l IH]; intros m Hm; cbn in Hm; [auto|].
  apply IH in Hm as [Hm|[? ?]]; [|rewrite elem_of_cons; auto].
  apply lookup_insert_Some in Hm as [[<- ->]|[_ ?]]; [right; split; [left|done]|auto].
Qed.

(** C37: walking up a set of headers that has no cycle of parent hashes always ends, and
    it decides ancestry: it returns the chain of hashes from the block down to the base,
    each the parent of the one before, or fails when there is no such chain. *)
Theorem ancestry_decides (headers : list H) base block :
  acyclic (ancestry_new headers) ->
  (exists l, ancestry (ancestry_new headers) base block = Some (Ok (block :: l)) /\
     chained (ancestry_new headers) (block :: l) /\ last (block :: l) = Some base) \/
  (ancestry (ancestry_new headers) base block = Some (Err NotDescendent) /\
     ~ exists l, chained (ancestry_new headers) (block :: l) /\ last (block :: l) = Some base).
Proof.
  intros Hac. unfold ancestry. destruct (ancestry_go _ _ _ _ _) as [[r|[]]|] eqn:E.
  - left. apply go_ok in E as (l & -> & Hc & Hl). by exists l.
  - right. split; [done|]. intros (l & Hc & Hl). by eapply go_err.
  - apply none_cycle in E as (a & z & b & _ & Hc & _). by destruct (Hac z b).
Qed.

End headers.

(** ** Justifications and finality proofs *)

Section verifier.
Context {H : Type} `{!HeaderT H} `{!FinalityGrandpa, !VoteCrypto, !ConsensusLogCodec}.
Context `{!Codec (GrandpaJustification H), !TrieDb}.

Lemma check_message_signature_ok m id sig round set_id :
  check_message_signature m id sig round set_id = Some (Ok tt) ->
  length sig = 64%nat /\ length id = 32%nat /\ vote_verify sig (encode_vote m round set_id) id = false.
Proof.
  unfold check_message_signature. intros Hv. vcheck Hv G1. vcheck Hv G2. apply vguard_ok in Hv.
  apply negb_false_iff, Nat.eqb_eq in G1, G2. auto.
Qed.

Lemma visit_precommits_signatures chain base round set_id l v v' :
  vfold (visit_precommit chain base round set_id) v l = Some (Ok v') ->
  Forall (fun s => check_message_signature (MPrecommit (sp_precommit s)) (sp_id s) (sp_signature s)
    round set_id = Some (Ok tt)) l.
Proof.
  revert v; induction l as [|s l IH]; intros v Hf; [constructor|]. cbn in Hf.
  vstep Hf v1 Hv. constructor; [|by eapply IH]. unfold visit_precommit in Hv. vstep Hv u Hu.
  by destruct u.
Qed.

(** The outcome of counting that a justification needs. *)
Definition commit_accepted (j : GrandpaJustification H) (voters : VoterSet) : Prop :=
  exists result, validate_commit (gj_commit j) voters (ancestry (ancestry_new (gj_votes_ancestries j)))
      = Some (Ok result) /\
    is_valid result = true /\ num_duplicated_precommits result <= 0 /\
    num_invalid_voters result <= 0 /\ num_equivocations result <= 0.

Lemma check_commit_ok v u :
  check_commit v = Some (Ok u) ->
  exists result, v = Some (Ok result) /\ is_valid result = true /\
    num_duplicated_precommits result <= 0 /\ num_invalid_voters result <= 0 /\
    num_equivocations result <= 0.
Proof.
  unfold check_commit. destruct v as [[result|e]|]; [|done|done].
  destruct (is_valid result) eqn:Ev; [|done]. intros Hg%vguard_ok.
  apply orb_false_iff in Hg as [Hg G3]. apply orb_false_iff in Hg as [G1 G2].
  exists result. rewrite !Z.ltb_ge in *. auto.
Qed.

Lemma justification_verify_ok j set_id authorities :
  justification_verify j set_id authorities = Some (Ok tt) ->
  exists voters, voter_set_new authorities = Some voters /\ commit_accepted j voters /\
    commit_precommits (gj_commit j) <> [] /\
    Forall (fun s => check_message_signature (MPrecommit (sp_precommit s)) (sp_id s) (sp_signature s)
      (gj_round j) set_id = Some (Ok tt)) (commit_precommits (gj_commit j)).
Proof.
  unfold justification_verify. intros Hv. vstep Hv voters Hvs. apply vlift_ok, ok_or_ok in Hvs.
  exists voters. split; [done|]. unfold verify_with_voter_set in Hv. vstep Hv u Hc.
  apply vget_ok in Hv as (base & Hb & Hv). vstep Hv visited Hf.
  split; [by apply check_commit_ok in Hc|]. split; [|by eapply visit_precommits_signatures].
  intros E. rewrite E in Hb. done.
Qed.

(** a justification that is accepted carries no valid signature. The vote count was
    accepted and there are precommits, but each of them has a signature that the
    authority's key does not verify: the test of the signature is inverted. *)
Theorem accepted_justification_unsigned j set_id authorities :
  justification_verify j set_id authorities = Some (Ok tt) ->
  (exists voters, voter_set_new authorities = Some voters /\ commit_accepted j voters) /\
  commit_precommits (gj_commit j) <> [] /\
  Forall (fun s => vote_verify (sp_signature s)
    (encode_vote (MPrecommit (sp_precommit s)) (gj_round j) set_id) (sp_id s) = false)
    (commit_precommits (gj_commit j)).
Proof.
  intros (voters & Hv & Hc & Hne & Hs)%justification_verify_ok. split; [eauto|]. split; [done|].
  eapply Forall_impl; [exact Hs|]. intros s Hm.
  by apply check_message_signature_ok in Hm as (_ & _ & Hm).
Qed.

Lemma route_or_ok text v l : route_or text v = Some (Ok l) -> v = Some (Ok l).
Proof. destruct v as [[]|]; cbn; naive_solver. Qed.

(** C22: an accepted finality proof advances the client along the chain. The new block is
    the highest of the supplied headers and the one the justification is for; a chain of
    parent hashes through the supplied headers leads from it to the block that was latest
    before; the justification passed the check of the code for the current set of
    authorities. That check counts the votes as it should, but its test of the signatures
    is inverted: there are precommits and the signature of none of them verifies, so this
    is no evidence that an authority has signed. The authorities change exactly when the
    new block schedules a change, and then the set identifier is increased. *)
Theorem finality_proof_advances state proof state' target finalized headers :
  verify_grandpa_finality_proof state proof = Some (Ok (state', target, finalized, headers)) ->
  headers = ancestry_new (fp_unknown_headers proof) /\
  target ∈ fp_unknown_headers proof /\ header_hash target = fp_block proof /\
  (forall h, h ∈ fp_unknown_headers proof -> header_number h <= header_number target) /\
  (exists l, finalized = header_hash target :: l /\ chained headers finalized /\
     last finalized = Some (latest_hash state)) /\
  (exists j, decode (fp_justification proof) = Some j /\
     commit_target_hash (gj_commit j) = fp_block proof /\
     justification_verify j (current_set_id state) (current_authorities state) = Some (Ok tt) /\
     (exists voters, voter_set_new (current_authorities state) = Some voters /\ commit_accepted j voters) /\
     commit_precommits (gj_commit j) <> [] /\
     Forall (fun s => vote_verify (sp_signature s)
       (encode_vote (MPrecommit (sp_precommit s)) (gj_round j) (current_set_id state)) (sp_id s) = false)
       (commit_precommits (gj_commit j))) /\
  latest_hash state' = fp_block proof /\ latest_height state' = header_number target /\
  slot_duration state' = slot_duration state /\ cs_state_machine state' = cs_state_machine state /\
  match find_scheduled_change target with
  | Some change => current_authorities state' = next_authorities change /\
      current_set_id state' = wrap64 (current_set_id state + 1)
  | None => current_authorities state' = current_authorities state /\
      current_set_id state' = current_set_id state
  end.
Proof.
  unfold verify_grandpa_finality_proof. intros Hv.
  vstep Hv t Ht. apply vlift_ok, ok_or_ok in Ht. vcheck Hv G1.
  vstep Hv j Hj. apply vlift_ok, ok_or_ok in Hj. vcheck Hv G2.
  vstep Hv b Hb. vstep Hv u Hbase. vstep Hv route Hr. vstep Hv u' Hver. destruct u'.
  unfold vret in Hv. injection Hv as <- <- <- <-.
  apply negb_false_iff, bool_decide_eq_true in G1, G2.
  apply max_by_key_some in Ht as [Hin Hmax]. apply route_or_ok, go_ok in Hr as (l & -> & Hc & Hl).
  split; [done|]. split; [done|]. split; [done|]. split; [done|].
  split; [by exists l|].
  split; [exists j; repeat (split; [done|]); by apply accepted_justification_unsigned|]. split; [done|]. split; [done|]. split; [done|].
  split; [done|]. cbn. by destruct (find_scheduled_change t).
Qed.

End verifier.

(** ** Parachain headers *)

Section parachains.
Context {H : Type} `{!HeaderT H} `{!FinalityGrandpa, !VoteCrypto, !ConsensusLogCodec}.
Context `{!Codec (GrandpaJustification H), !Codec H, !Codec bytes, !TrieDb, !Twox, !DebugError}.

(** The header [h] is what the state of the relay chain block [relay] holds for the
    parachain, as the nodes show. *)
Definition head_proved (relay : H) (nodes : list bytes) (para_id : Z) (h : H) : Prop :=
  exists raw value,
    trie_get Blake2 nodes (header_state_root relay) (parachain_header_storage_key para_id)
      = Ok (Some raw) /\
    decode (A := bytes) raw = Some value /\ decode value = Some h.

Lemma read_proof_check_ok alg root nodes keys values k v :
  read_proof_check alg root nodes keys = Some (Ok values) -> (k, v) ∈ values ->
  exists raw, trie_get alg nodes root k = Ok raw /\ v = raw ≫= decode.
Proof.
  unfold read_proof_check. intros Hv Hkv. vcheck Hv G. vstep Hv data Hd.
  unfold vret in Hv. injection Hv as <-. apply vmap_ok in Hd. apply btree_collect_elem in Hkv.
  apply list_elem_of_lookup in Hkv as [i Hi]. destruct (Forall2_lookup_r _ _ _ _ _ Hd Hi) as (k' & _ & Hk).
  vstep Hk raw Hr. unfold vret in Hk. injection Hk as -> <-. exists raw. split; [|done].
  apply vlift_ok in Hr. by destruct (trie_get alg nodes root k); [injection Hr as ->|].
Qed.

(** Every header of the map satisfies [P] for its parachain. *)
Definition all_headers (P : Z -> H -> Prop) (m : list (Z * list H)) : Prop :=
  forall id hs h, (id, hs) ∈ m -> h ∈ hs -> P id h.

Lemma push_header_all P m id h : all_headers P m -> P id h -> all_headers P (push_header m id h).
Proof.
  intros Hm Hh id' hs h' Hin Hh'. unfold push_header in Hin.
  apply btree_insert_elem in Hin as [[= -> ->]|Hin]; [|by eapply Hm].
  apply elem_of_app in Hh' as [Hh'|Hh'%list_elem_of_singleton]; [|by subst].
  destruct (btree_get Z.compare id m) as [old|] eqn:E; [|by apply elem_of_nil in Hh'].
  apply (btree_get_elem _ compare_Z_lawful) in E. by eapply Hm.
Qed.

Lemma read_relay_block_all (P : Z -> H -> Prop) headers finalized m m' hash proofs :
  (forall relay para_id h, hash ∈ finalized -> headers !! hash = Some relay ->
     para_id ∈ php_para_ids proofs -> head_proved relay (php_state_proof proofs) para_id h ->
     P para_id h) ->
  all_headers P m -> read_relay_block headers finalized m (hash, proofs) = Some (Ok m') ->
  all_headers P m'.
Proof.
  intros HP Hm Hrun. unfold read_relay_block in Hrun. case_bool_decide as Hfin.
  { unfold vret in Hrun. by injection Hrun as <-. }
  apply vget_ok in Hrun as (relay & Hrelay & Hrun).
  cbv zeta in Hrun. destruct (read_proof_check _ _ _ _) as [[values|e]|] eqn:Ep; [|done|done].
  eapply (vfold_inv (all_headers P)); [|exact Hm|exact Hrun].
  intros b [key id] b' Hin Hb Hr. unfold read_parachain_header in Hr. cbn [fst snd] in Hr.
  vstep Hr body Hv. apply vlift_ok, ok_or_ok in Hv. vstep Hr hdr Hh. apply vlift_ok, ok_or_ok in Hh.
  unfold vret in Hr. injection Hr as <-. apply btree_collect_elem, list_elem_of_fmap in Hin as (id' & [= -> ->] & Hid).
  apply push_header_all; [done|]. apply (HP relay); [done..|].
  apply bind_Some in Hv as (v & Hv & Hv'). apply (btree_get_elem _ compare_bytes_lawful) in Hv.
  destruct (read_proof_check_ok _ _ _ _ _ _ _ Ep Hv) as (raw & Hraw & ->).
  cbn in Hv'. apply bind_Some in Hv' as (r & -> & Hr). by exists r, body.
Qed.

(** every parachain header that is returned is the head of its parachain in the state
    of a relay chain block on the finalised chain: the block is one of those between the
    newly finalised block and the one finalised before, the message asked for the
    parachain at that block, and a proof against its state root shows the header. *)
Theorem parachain_headers_proved state proof state' result :
  verify_parachain_headers_with_grandpa_finality_proof state proof = Some (Ok (state', result)) ->
  exists target finalized headers,
    verify_grandpa_finality_proof state (phf_finality_proof proof)
      = Some (Ok (state', target, finalized, headers)) /\
    forall para_id hs h, (para_id, hs) ∈ result -> h ∈ hs ->
      exists hash proofs relay, (hash, proofs) ∈ phf_parachain_headers proof /\
        hash ∈ finalized /\ relay ∈ fp_unknown_headers (phf_finality_proof proof) /\
        header_hash relay = hash /\ para_id ∈ php_para_ids proofs /\
        head_proved relay (php_state_proof proofs) para_id h.
Proof.
  unfold verify_parachain_headers_with_grandpa_finality_proof. intros Hv.
  vstep Hv r Hr. destruct r as [[[s1 target] finalized] headers]. vstep Hv m Hm.
  unfold vret in Hv. injection Hv as -> ->. exists target, finalized, headers. split; [done|].
  assert (headers = ancestry_new (fp_unknown_headers (phf_finality_proof proof))) as Hh.
  { unfold verify_grandpa_finality_proof in Hr. repeat (apply vtry_ok in Hr as (? & _ & Hr)).
    unfold vret in Hr. congruence. }
  change (all_headers (fun para_id h => exists hash proofs relay,
    (hash, proofs) ∈ phf_parachain_headers proof /\
        hash ∈ finalized /\ relay ∈ fp_unknown_headers (phf_finality_proof proof) /\
        header_hash relay = hash /\ para_id ∈ php_para_ids proofs /\
        head_proved relay (php_state_proof proofs) para_id h) result).
  eapply vfold_inv; [|intros ??? []%elem_of_nil|exact Hm].
  intros b [hash proofs] b' Hin Hb Hrun. eapply read_relay_block_all; [|exact Hb|exact Hrun].
  intros relay para_id h Hfin Hrelay Hid Hp. rewrite Hh in Hrelay.
  apply ancestry_new_lookup in Hrelay as [? ?]. by exists hash, proofs, relay.
Qed.

End parachains.

(** ** The client *)

Section client.
Context `{HK : Keccak256} {H : Type} `{!HeaderT H} `{!FinalityGrandpa, !VoteCrypto, !ConsensusLogCodec}.
Context `{!Codec (GrandpaJustification H), !Codec H, !Codec bytes, !TrieDb, !Twox, !DebugError}.
Context `{!Codec (GrandpaConsensusMessage H), !Codec ConsensusState, !Codec (FinalityProof H)}.
Context `{!SlotCodec, !Codec ConsensusDigest}.
Variable Coprocessor : option StateMachine.
Variable SupportedStateMachines : gmap StateMachine Z.

(** The commitment of a header: its height, the time of its slot, and its roots; [own]
    says that the chain is the coprocessor, whose roots are in the digest. *)
Definition commits_header (own : bool) (slot_duration : Z) (h : H) (c : StateCommitmentHeight) : Prop :=
  exists d, fetch_overlay_root_and_timestamp (header_digest h) slot_duration = Some (Ok d) /\
    dr_timestamp d <> 0 /\
    c = mkStateCommitmentHeight
      (if own then mkStateCommitment (dr_timestamp d) (Some (cd_mmr_root (dr_ismp_digest d)))
                     (cd_child_trie_root (dr_ismp_digest d))
       else mkStateCommitment (dr_timestamp d) (Some (cd_child_trie_root (dr_ismp_digest d)))
              (header_state_root h))
      (header_number h).

Lemma header_time_ok (h : H) slot d :
  header_time h slot = Some (Ok d) ->
  fetch_overlay_root_and_timestamp (header_digest h) slot = Some (Ok d) /\ dr_timestamp d <> 0.
Proof.
  unfold header_time. intros Hv. vstep Hv r Hr. vcheck Hv G. unfold vret in Hv. injection Hv as <-.
  split; [done|]. lia.
Qed.

Lemma parachain_commitment_ok id slot (h : H) c :
  parachain_commitment Coprocessor id slot h = Some (Ok c) ->
  commits_header (bool_decide (Coprocessor = Some id)) slot h c.
Proof.
  unfold parachain_commitment. intros Hv. vstep Hv d Hd. apply header_time_ok in Hd as [Hd Ht].
  unfold vret in Hv. injection Hv as <-. exists d. split; [done|]. split; [done|].
  by destruct (bool_decide _).
Qed.

(** What a commitment of a relay chain message is. *)
Definition para_commitment (result : list (Z * list H)) (id : StateMachine)
    (c : StateCommitmentHeight) : Prop :=
  exists para_id hs h slot, (para_id, hs) ∈ result /\ h ∈ hs /\
    para_state_id Coprocessor para_id = Ok id /\
    (SupportedStateMachines !! Polkadot para_id = Some slot \/
     SupportedStateMachines !! Kusama para_id = Some slot) /\
    commits_header (bool_decide (Coprocessor = Some id)) slot h c.

Lemma parachain_commitments_all result m :
  vfold (parachain_commitments Coprocessor) [] (omap (supported_parachain SupportedStateMachines) result)
    = Some (Ok m) ->
  forall id l c, (id, l) ∈ m -> c ∈ l -> para_commitment result id c.
Proof.
  intros Hm. set (P := fun m : VerifiedCommitments =>
    forall id l c, (id, l) ∈ m -> c ∈ l -> para_commitment result id c).
  change (P m). eapply (vfold_inv P); [|intros ??? []%elem_of_nil|exact Hm].
  intros b [[para_id hs] slot] b' Hin Hb Hrun id l c Hl Hc.
  unfold parachain_commitments in Hrun. vstep Hrun id' Hid. apply vlift_ok in Hid.
  vstep Hrun cs Hcs. apply vmap_ok in Hcs. unfold vret in Hrun. injection Hrun as <-.
  apply btree_insert_elem in Hl as [[= -> ->]|Hl]; [|by eapply Hb].
  apply list_elem_of_lookup in Hc as [i Hi]. destruct (Forall2_lookup_r _ _ _ _ _ Hcs Hi) as (h & Hh & Hcm).
  apply list_elem_of_omap in Hin as ([para_id' hs'] & Hres & Hs). cbn in Hs.
  exists para_id, hs, h, slot. apply list_elem_of_lookup_2 in Hh.
  apply parachain_commitment_ok in Hcm.
  destruct (SupportedStateMachines !! Polkadot para_id') eqn:Ep.
  - injection Hs as -> -> ->. split_and!; auto.
  - apply fmap_Some in Hs as (x & Ek & [= -> -> ->]). split_and!; auto.
Qed.

(** the commitments of the GRANDPA client are those of finalised headers. The new
    state is the old one advanced by the proof of finality. For a standalone chain there is
    one commitment, of the newly finalised block; for a relay chain each commitment is that
    of a verified parachain header, of a supported parachain, under the identifier of that
    parachain. The time is that of the header's slot and is never zero, the height is the
    header's, and the roots are the header's. *)
Theorem grandpa_commitments trusted proof new commitments :
  grandpa_verify_consensus Coprocessor SupportedStateMachines trusted proof
    = Some (Ok (new, commitments)) ->
  exists state state', decode trusted = Some state /\ new = encode state' /\
    ((exists m header finalized headers, decode proof = Some (MStandaloneChain m) /\
       verify_grandpa_finality_proof state (scm_finality_proof m)
         = Some (Ok (state', header, finalized, headers)) /\
       exists c, commitments = [(cs_state_machine state', [c])] /\
         commits_header false (slot_duration state') header c) \/
     (exists m result, decode proof = Some (MRelayChain m) /\
       verify_parachain_headers_with_grandpa_finality_proof state
         (mkParachainHeadersWithFinalityProof (rcm_finality_proof m) (rcm_parachain_headers m))
         = Some (Ok (state', result)) /\
       forall id l c, (id, l) ∈ commitments -> c ∈ l -> para_commitment result id c)).
Proof.
  unfold grandpa_verify_consensus. intros Hv. vstep Hv msg Hmsg. apply vlift_ok, ok_or_ok in Hmsg.
  vstep Hv state Hst. apply vlift_ok, ok_or_ok in Hst. destruct msg as [m|m].
  - destruct (verify_grandpa_finality_proof _ _) as [[[[[s1 h] fin] hs]|]|] eqn:E; [|done|done].
    vstep Hv d Hd. apply header_time_ok in Hd as [Hd Ht]. unfold vret in Hv. injection Hv as <- <-.
    exists state, s1. split; [done|]. split; [done|]. left. exists m, h, fin, hs. split; [done|].
    split; [done|]. eexists. split; [done|]. by exists d.
  - destruct (verify_parachain_headers_with_grandpa_finality_proof _ _) as [[[s1 result]|]|] eqn:E;
      [|done|done].
    vstep Hv inter Hi. unfold vret in Hv. injection Hv as <- <-. exists state, s1.
    split; [done|]. split; [done|]. right. exists m, result. split; [done|]. split; [done|].
    by apply parachain_commitments_all.
Qed.

(** A finality proof of a fork: its headers lead from its block to a child of [parent],
    and its justification is accepted by the authorities of the state. *)
Definition forks_from (state : ConsensusState) (parent : H256) (p : FinalityProof H) : Prop :=
  exists base l j, base ∈ fp_unknown_headers p /\ parent_hash base = parent /\
    chained (ancestry_new (fp_unknown_headers p)) (fp_block p :: l) /\
    last (fp_block p :: l) = Some (header_hash base) /\
    decode (fp_justification p) = Some j /\ commit_target_hash (gj_commit j) = fp_block p /\
    justification_verify j (current_set_id state) (current_authorities state) = Some (Ok tt).

Lemma min_by_key_go {A} (f : A -> Z) l acc x :
  foldl (fun acc x => match acc with
                      | Some y => if f x <? f y then Some x else Some y
                      | None => Some x
                      end) acc l = Some x -> acc = Some x \/ x ∈ l.
Proof.
  revert acc; induction l as [|z l IH]; intros acc Hm; cbn in Hm; [auto|].
  apply IH in Hm as [Hm|?]; [|right; by right].
  destruct acc as [w|]; [destruct (f z <? f w)|]; injection Hm as ->; rewrite elem_of_cons; auto.
Qed.

Lemma fraud_base_ok (p : FinalityProof H) b : fraud_base p = Ok b -> b ∈ fp_unknown_headers p.
Proof. unfold fraud_base. intros [?|?]%ok_or_ok%min_by_key_go; done. Qed.

Lemma fraud_route_ok (p : FinalityProof H) base target l :
  fraud_route p base target = Some (Ok l) -> exists l', l = header_hash target :: l' /\
    chained (ancestry_new (fp_unknown_headers p)) l /\ last l = Some (header_hash base).
Proof.
  unfold fraud_route. destruct (ancestry _ _ _) as [[r|e]|] eqn:E; [|done|done].
  cbn. intros [= ->]. apply go_ok in E as (l' & -> & ? & ?). by exists l'.
Qed.

Lemma verified_ok (v : V AnyError unit) b : is_ok <$> v = Some b -> b = true -> v = Some (Ok tt).
Proof. destruct v as [[[]|]|]; cbn; [done|intros [= <-]; done|done]. Qed.

(** a fraud proof that is accepted shows a fork: two different blocks, both justified
    by the authorities of the trusted state and both descending from a child of the same
    block, one of them the latest block of the client. *)
Theorem grandpa_fraud_proof_sound trusted proof_1 proof_2 :
  grandpa_verify_fraud_proof trusted proof_1 proof_2 = Some (Ok tt) ->
  exists state p1 p2 parent, decode trusted = Some state /\
    decode proof_1 = Some p1 /\ decode proof_2 = Some p2 /\ fp_block p1 <> fp_block p2 /\
    forks_from state parent p1 /\ forks_from state parent p2 /\
    (fp_block p1 = latest_hash state \/ fp_block p2 = latest_hash state).
Proof.
  unfold grandpa_verify_fraud_proof. intros Hv.
  vstep Hv state Hst. apply vlift_ok, ok_or_ok in Hst. vstep Hv p1 Hp1. apply vlift_ok, ok_or_ok in Hp1.
  vstep Hv p2 Hp2. apply vlift_ok, ok_or_ok in Hp2. vcheck Hv G1. apply bool_decide_eq_false in G1.
  vstep Hv t1 Ht1. vstep Hv t2 Ht2. vcheck Hv G2.
  apply orb_false_iff in G2 as [G2 G3]. apply negb_false_iff, bool_decide_eq_true in G2, G3.
  vstep Hv b1 Hb1. apply vlift_ok, fraud_base_ok in Hb1. vstep Hv r1 Hr1.
  vstep Hv b2 Hb2. apply vlift_ok, fraud_base_ok in Hb2. vstep Hv r2 Hr2.
  vcheck Hv G4. apply negb_false_iff, bool_decide_eq_true in G4.
  vstep Hv j1 Hj1. apply vlift_ok, ok_or_ok in Hj1. vstep Hv j2 Hj2. apply vlift_ok, ok_or_ok in Hj2.
  vcheck Hv G5. apply orb_false_iff in G5 as [G5 G6]. apply negb_false_iff, bool_decide_eq_true in G5, G6.
  vcheck Hv G7. apply andb_false_iff in G7.
  apply vget_ok in Hv as (v1 & Hv1 & Hv). apply vget_ok in Hv as (v2 & Hv2 & Hv). apply vguard_ok in Hv.
  apply orb_false_iff in Hv as [N1 N2]. apply negb_false_iff in N1, N2.
  apply fraud_route_ok in Hr1 as (l1 & -> & C1 & L1), Hr2 as (l2 & -> & C2 & L2). rewrite G2 in C1, L1.
  rewrite G3 in C2, L2.
  exists state, p1, p2, (parent_hash b1). split; [done|]. split; [done|]. split; [done|]. split; [done|].
  split; [|split].
  - exists b1, l1, j1. by eauto 10 using verified_ok.
  - exists b2, l2, j2. by eauto 10 using verified_ok.
  - destruct G7 as [G7|G7]; apply negb_false_iff, bool_decide_eq_true in G7; [left|right]; congruence.
Qed.

End client.
