(* ===== verification/GrandpaDemo.v ===== *)
(** * A concrete GRANDPA chain

    Small headers, a vote count that accepts every non-empty commit, and signatures that
    are valid when they consist of ones. The theorems of [GrandpaProps] are applied to it. *)

From S2P Require Import Prelude StateMachine Router Messaging Host RefHost ChildTrie PalletTypes PalletDemo DemoCodec SubstrateMachine Grandpa GrandpaClient GrandpaProps.

Module GrandpaDemo.

(** ** Headers and library code *)

(** The hash, the parent and the number of a header. *)
Abbreviation Header := (bytes * bytes * Z)%type.

#[local] Instance header : HeaderT Header := {|
  header_hash h := h.1.1;
  parent_hash h := h.1.2;
  header_number h := h.2;
  header_state_root _ := lit "state";
  header_digest h := [PreRuntime AURA_ENGINE_ID []]
|}.

#[local] Instance voting : FinalityGrandpa := {|
  VoterSet := AuthorityList;
  voter_set_new l := match l with [] => None | _ => Some l end;
  validate_commit c _ _ :=
    Some (Ok (mkCommitValidationResult (negb (bool_decide (length (commit_precommits c) = 0%nat))) 0 0 0));
  debug_validation _ := []
|}.

Definition valid_signature : bytes := replicate 64 Byte.x01.
Definition wrong_signature : bytes := replicate 64 Byte.x00.
#[local] Instance signing : VoteCrypto := {|
  vote_verify s _ _ := bool_decide (s = valid_signature);
  encode_vote _ _ _ := []
|}.
#[local] Instance logs : ConsensusLogCodec := fun _ => None.
#[local] Instance hashing : Twox := {| twox_128 b := b; twox_64 b := b |}.
#[local] Instance texts : DebugError := fun _ => [].
#[local] Instance slots : SlotCodec := {| decode_aura_slot _ := Some 5; decode_babe_slot _ := None |}.

(** A proof of one node shows the node under every key. *)
#[local] Instance nodes : TrieDb := {|
  trie_get _ l _ _ := Ok (head l);
  trie_contains _ _ _ := true;
  decode_text _ := []
|}.

#[local] Notation "a *c b" := (pair_codec a b) (at level 40, left associativity).

#[local] Instance bytes_codec : Codec bytes := string_codec.
#[local] Instance header_codec : Codec Header := string_codec *c string_codec *c z_codec.
Definition precommit_codec : Codec SignedPrecommit :=
  via_codec (string_codec *c z_codec *c string_codec *c string_codec)
    (fun s => (target_hash (sp_precommit s), target_number (sp_precommit s), sp_signature s, sp_id s))
    (fun x => mkSignedPrecommit (mkVote x.1.1.1 x.1.1.2) x.1.2 x.2)
    ltac:(by intros [[] ? ?]).
#[local] Instance justification_codec : Codec (GrandpaJustification Header) :=
  via_codec (z_codec *c string_codec *c z_codec *c list_codec precommit_codec *c list_codec header_codec)
    (fun j => (gj_round j, commit_target_hash (gj_commit j), commit_target_number (gj_commit j),
      commit_precommits (gj_commit j), gj_votes_ancestries j))
    (fun x => mkGrandpaJustification x.1.1.1.1 (mkCommit x.1.1.1.2 x.1.1.2 x.1.2) x.2)
    ltac:(by intros [? [] ?]).
#[local] Instance proof_codec : Codec (FinalityProof Header) :=
  via_codec (string_codec *c string_codec *c list_codec header_codec)
    (fun p => (fp_block p, fp_justification p, fp_unknown_headers p))
    (fun x => mkFinalityProof x.1.1 x.1.2 x.2) ltac:(by intros []).
Definition machine_codec : Codec StateMachine := PalletDemo.countable_codec.
#[local] Instance state_codec : Codec ConsensusState :=
  via_codec (list_codec (string_codec *c z_codec) *c z_codec *c z_codec *c string_codec *c z_codec *c machine_codec)
    (fun s => (current_authorities s, current_set_id s, latest_height s, latest_hash s,
      slot_duration s, cs_state_machine s))
    (fun x => mkConsensusState x.1.1.1.1.1 x.1.1.1.1.2 x.1.1.1.2 x.1.1.2 x.1.2 x.2)
    ltac:(by intros []).
Definition proofs_codec : Codec ParachainHeaderProofs :=
  via_codec (list_codec string_codec *c list_codec z_codec)
    (fun p => (php_state_proof p, php_para_ids p)) (fun x => mkParachainHeaderProofs x.1 x.2)
    ltac:(by intros []).
#[local] Instance message_codec : Codec (GrandpaConsensusMessage Header) :=
  via_codec (sum_codec proof_codec (proof_codec *c list_codec (string_codec *c proofs_codec)))
    (fun m => match m with
      | MStandaloneChain m => inl (scm_finality_proof m)
      | MRelayChain m => inr (rcm_finality_proof m, rcm_parachain_headers m) end)
    (fun x => match x with
      | inl p => MStandaloneChain (mkStandaloneChainMessage p)
      | inr (p, l) => MRelayChain (mkRelayChainMessage p l) end)
    ltac:(by intros [[]|[]]).
#[local] Program Instance digest_codec : Codec ConsensusDigest :=
  via_codec (string_codec *c string_codec) (fun d => (cd_mmr_root d, cd_child_trie_root d))
    (fun x => mkConsensusDigest x.1 x.2) _.
Next Obligation. by intros []. Qed.

(** ** A chain *)

Definition genesis : bytes := lit "g".
Definition h1 : Header := (lit "a", lit "g", 1).
Definition h2 : Header := (lit "b", lit "a", 2).

Definition state : ConsensusState :=
  mkConsensusState [(replicate 32 Byte.x07, 1)] 3 0 genesis 12000 (Substrate Demo.csid).

Definition vote (signature : bytes) (h : Header) : SignedPrecommit :=
  mkSignedPrecommit (mkVote h.1.1 h.2) signature (replicate 32 Byte.x07).
Definition justification (signature : bytes) (h : Header) : GrandpaJustification Header :=
  mkGrandpaJustification 9 (mkCommit h.1.1 h.2 [vote signature h]) [].
Definition finality (signature : bytes) (l : list Header) (h : Header) : FinalityProof Header :=
  mkFinalityProof h.1.1 (encode (justification signature h)) l.

Definition chain_proof : FinalityProof Header := finality wrong_signature [h1; h2] h2.

Lemma ranked_acyclic (l : list Header) (rank : bytes -> nat) :
  (forall h, h ∈ l -> (rank (parent_hash h) < rank (header_hash h))%nat) -> acyclic (ancestry_new l).
Proof.
  intros Hr z b Hc.
  assert (Hs : forall x y, step_to (ancestry_new l) x y -> (rank y < rank x)%nat).
  { intros x y (h & Hh & ->). apply ancestry_new_lookup in Hh as [Hin <-]. by apply Hr. }
  enough (forall b z w, chained (ancestry_new l) (z :: b ++ [w]) -> (rank w < rank z)%nat) as He.
  { specialize (He b z z Hc). lia. }
  clear -Hs. intros b. induction b as [|y b IH]; intros z w Hc; cbn in Hc.
  - apply Hs, Hc.
  - destruct Hc as [H1 H2]. apply Hs in H1. specialize (IH y w H2). lia.
Qed.

Lemma ancestry_decides_witness : ancestry (ancestry_new [h1; h2]) genesis (lit "b") <> None.
Proof.
  destruct (ancestry_decides [h1; h2] genesis (lit "b")) as [(l & E & _)|[E _]].
  - apply (ranked_acyclic _ (fun x => if decide (x = lit "b") then 2 else if decide (x = lit "a") then 1 else 0)%nat).
    intros h Hh. repeat (apply elem_of_cons in Hh as [->|Hh]; [vm_compute; lia|]).
    by apply elem_of_nil in Hh.
  - rewrite E. discriminate.
  - rewrite E. discriminate.
Defined.

Definition verified : ConsensusState * Header * list bytes * gmap bytes Header :=
  default (state, h1, [], ∅) (verify_grandpa_finality_proof state chain_proof ≫= ok).

Lemma finality_proof_advances_witness : latest_hash verified.1.1.1 = lit "b".
Proof.
  refine (proj1 (proj2 (proj2 (proj2 (proj2 (proj2 (proj2 (finality_proof_advances state chain_proof
    verified.1.1.1 verified.1.1.2 verified.1.2 verified.2 _)))))))).
  vm_compute. reflexivity.
Defined.

Lemma accepted_justification_unsigned_witness :
  commit_precommits (gj_commit (justification wrong_signature h2)) <> [].
Proof.
  refine (proj1 (proj2 (accepted_justification_unsigned (justification wrong_signature h2) 3
    (current_authorities state) _))).
  vm_compute. reflexivity.
Defined.

(** the same finality proof is accepted with a signature that is not valid and refused
    with a valid one. *)
Theorem valid_signature_refused :
  is_Some (verify_grandpa_finality_proof state (finality wrong_signature [h1; h2] h2) ≫= ok) /\
  verify_grandpa_finality_proof state (finality valid_signature [h1; h2] h2)
  = Some (Err (AnyMessage (lit "invalid signature for precommit in grandpa justification"))).
Proof. split; [apply (bool_decide_unpack _)|]; vm_compute; [exact I|reflexivity]. Qed.

(** ** Parachains *)

Definition para_header : Header := (lit "p", lit "q", 77).
Definition para_proofs : ParachainHeaderProofs := mkParachainHeaderProofs [encode para_header] [2000].
Definition with_parachain (block : bytes) : ParachainHeadersWithFinalityProof Header :=
  mkParachainHeadersWithFinalityProof chain_proof [(block, para_proofs)].
Definition para_verified : ConsensusState * list (Z * list Header) :=
  default (state, []) (verify_parachain_headers_with_grandpa_finality_proof state (with_parachain (lit "a")) ≫= ok).

Lemma parachain_headers_proved_witness :
  exists relay : Header, head_proved relay [encode para_header] 2000 para_header.
Proof.
  destruct (parachain_headers_proved state (with_parachain (lit "a")) para_verified.1 para_verified.2)
    as (target & finalized & headers & _ & Hall).
  - vm_compute. reflexivity.
  - destruct (Hall 2000 [para_header] para_header) as (hash & proofs & relay & Hin & _ & _ & _ & _ & Hp).
    + vm_compute. left.
    + left.
    + apply list_elem_of_singleton in Hin. injection Hin as -> ->. exists relay. exact Hp.
Defined.

(** a relay chain message that carries a proof for the block that was finalised before
    makes the verifier panic: the hash is on the finalised chain, which ends at that block,
    but the header is not among the new ones. *)
Theorem trusted_block_proof_panics :
  is_Some (verify_grandpa_finality_proof state chain_proof ≫= ok) /\
  verify_parachain_headers_with_grandpa_finality_proof state (with_parachain genesis) = None.
Proof. split; [apply (bool_decide_unpack _)|]; vm_compute; [exact I|reflexivity]. Qed.

(** ** The client *)

Definition coprocessor : option StateMachine := Some (Polkadot 3367).
Definition supported : gmap StateMachine Z := {[ Polkadot 2000 := 12000 ]}.
Definition relay_message : GrandpaConsensusMessage Header :=
  MRelayChain (mkRelayChainMessage chain_proof [(lit "a", para_proofs)]).
Definition update : bytes * VerifiedCommitments :=
  default ([], []) (grandpa_verify_consensus coprocessor supported (encode state) (encode relay_message) ≫= ok).

Lemma grandpa_commitments_witness : exists s : ConsensusState, update.1 = encode s.
Proof.
  destruct (grandpa_commitments coprocessor supported (encode state) (encode relay_message)
    update.1 update.2) as (s & s' & _ & Hn & _).
  - vm_compute. reflexivity.
  - exists s'. exact Hn.
Defined.

Definition fork : Header := (lit "c", lit "a", 2).
Definition at_b : ConsensusState :=
  mkConsensusState [(replicate 32 Byte.x07, 1)] 3 2 (lit "b") 12000 (Substrate Demo.csid).

Lemma grandpa_fraud_proof_sound_witness :
  exists p1 p2 : FinalityProof Header, fp_block p1 <> fp_block p2.
Proof.
  destruct (grandpa_fraud_proof_sound (encode at_b) (encode (finality wrong_signature [h2] h2))
    (encode (finality wrong_signature [fork] fork))) as (s & p1 & p2 & parent & _ & _ & _ & Hne & _).
  - vm_compute. reflexivity.
  - exists p1, p2. exact Hne.
Defined.

End GrandpaDemo.
