(* ===== verification/EvmMachine.v ===== *)
(** * State proofs of EVM chains

    [clients/sync-committee/evm-common/src/{lib, utils, types}.rs]: the
    [StateMachineClient] that checks proofs of the storage of Solidity contracts. An
    account is proved in the state trie of the chain; the account has the root of the
    trie of its storage. The tries and RLP are libraries. *)

From S2P Require Import Prelude StateMachine Router Messaging Host ChildTrie PalletTypes Apps EvmKeys SubstrateMachine.

(** ** Data *)

Record EvmStateProof : Type := mkEvmStateProof {
  esp_contract_proof : list bytes;
  esp_storage_proof : list (bytes * list bytes)
}.

Record Account : Type := mkAccount {
  acc_nonce : Z;
  acc_balance : Z;
  acc_storage_root : H256;
  acc_code_hash : H256
}.

(** Reading the Ethereum trie with the given root from the nodes of a proof
    ([ethereum_triedb]), with the text of an error, and RLP of accounts ([alloy_rlp]). *)
Class EvmTrie : Type := {
  eth_trie_get : list bytes -> H256 -> bytes -> result bytes (option bytes);
  rlp_decode_account : bytes -> option Account;
  rlp_encode_account : Account -> bytes
}.

(** ** Values under keys *)

Definition to_bytes_32 (l : bytes) : result Error bytes :=
  if (length l =? 32)%nat then Ok l
  else Err (Custom (lit "Input vector must have exactly 32 elements " ++ debug_vec l)).

Definition construct_intermediate_state (state_id : StateMachine) (consensus_state_id : ConsensusStateId)
    (height timestamp : Z) (state_root : bytes) : result Error IntermediateState :=
  match to_bytes_32 state_root with
  | Ok root => Ok (mkIntermediateState
      (mkStateMachineHeight (mkStateMachineId state_id consensus_state_id) height)
      (mkStateCommitment timestamp None root))
  | Err e => Err e
  end.

Section keys.
Context `{Keccak256}.

(** The key of a word of the [index]-th item, of two words, of the array in [slot]. *)
Definition derive_array_item_key (slot index offset : Z) : option bytes :=
  let array_pos := of_be_bytes 0 (keccak256 (to_be_bytes 32 slot)) in
  p ← u256_add array_pos (wrap64 (index * 2));
  item_pos ← u256_add p offset;
  Some (keccak256 (to_be_bytes 32 item_pos)).

Definition STATE_COMMITMENT_SLOT : Z := 5.

(** The keys of the time, the overlay root and the state root of a commitment. *)
Definition state_comitment_key (state_machine_id block_height : Z) : option (H256 * H256 * H256) :=
  let parent_map_key :=
    keccak256 (to_be_bytes 32 state_machine_id ++ to_be_bytes 32 STATE_COMMITMENT_SLOT) in
  let slot_hash := keccak256 (to_be_bytes 32 block_height ++ parent_map_key) in
  overlay_root_slot ← u256_add (of_be_bytes 0 slot_hash) 1;
  state_root_slot ← u256_add overlay_root_slot 1;
  Some (slot_hash, to_be_bytes 32 overlay_root_slot, to_be_bytes 32 state_root_slot).

End keys.

(** ** Proofs *)

Section client.
Context `{Keccak256} `{!Codec EvmStateProof} `{!EvmTrie}.

Definition decode_evm_state_proof (proof : Proof_) : result Error EvmStateProof :=
  ok_or (decode (proof_bytes proof)) (Custom (lit "Cannot decode evm state proof")).

Definition get_contract_account (contract_account_proof : list bytes) (contract_address : bytes)
    (root : H256) : result Error Account :=
  match eth_trie_get contract_account_proof root (keccak256 contract_address) with
  | Err _ => Err (Custom (lit "Invalid contract account proof"))
  | Ok None => Err (Custom (lit "Contract account is not present in proof"))
  | Ok (Some value) => ok_or (rlp_decode_account value)
      (Custom (lit "Error decoding contract account from value " ++ debug_vec value))
  end.

Definition get_values_from_proof (keys : list bytes) (root : H256) (proof : list bytes) :
    V Error (list (option bytes)) :=
  vmap (fun key => vlift (map_err (fun _ => Custom (lit "Error reading proof db"))
    (eth_trie_get proof root key))) keys.

Definition get_value_from_proof (key : bytes) (root : H256) (proof : list bytes) :
    result Error (option bytes) :=
  map_err (fun e => Custom (lit "Error reading proof db " ++ e)) (eth_trie_get proof root key).

Definition evm_verify_membership (item : RequestResponse) (root : StateCommitment) (proof : Proof_)
    (contract_address : H160) : V Error unit :=
  let! evm_state_proof := vlift (decode_evm_state_proof proof) in
  let! storage_proof := vlift (ok_or
      (btree_get compare_bytes contract_address (esp_storage_proof evm_state_proof))
      (Custom (lit "Ismp contract account trie proof is missing"))) in
  get! keys := req_res_commitment_key item in
  let! account := vlift (get_contract_account (esp_contract_proof evm_state_proof)
      contract_address (sc_state_root root)) in
  let! values := get_values_from_proof keys (acc_storage_root account) storage_proof in
  vguard (existsb (fun val => bool_decide (val = None)) values)
    (Custom (lit "Missing values for some keys in the proof")).

(** The keys of each contract, with their slot hashes, and the accounts asked for. *)
Definition KeyGroups : Type := list (bytes * list (bytes * bytes)) * list H160.

Definition push_key (contract : bytes) (key slot_hash : bytes) (groups : KeyGroups) : KeyGroups :=
  (btree_insert compare_bytes contract
     (default [] (btree_get compare_bytes contract groups.1) ++ [(key, slot_hash)]) groups.1,
   groups.2).

Definition group_key (ismp_address : H160) (groups : KeyGroups) (key : bytes) : V Error KeyGroups :=
  if (length key =? 52)%nat then
    vret (push_key (take 20 key) key (keccak256 (drop 20 key)) groups)
  else if (length key =? 32)%nat then vret (push_key ismp_address key (keccak256 key) groups)
  else if (length key =? 20)%nat then vret (groups.1, groups.2 ++ [key])
  else verr (Custom (lit
    "Unsupported Key type, found a key whose length is not one of 20, 32 or 52")).

Definition ValueMap : Type := list (bytes * option bytes).

Definition insert_values (m : ValueMap) (kvs : list ((bytes * bytes) * option bytes)) : ValueMap :=
  fold_left (fun m e => btree_insert compare_bytes e.1.1 e.2 m) kvs m.

(** One entry of the storage proof: the account is read even if no key belongs to it. *)
Definition read_contract (contract_proof : list bytes) (state_root : H256)
    (st : ValueMap * list (bytes * list (bytes * bytes))) (entry : bytes * list bytes) :
    V Error (ValueMap * list (bytes * list (bytes * bytes))) :=
  let! account := vlift (get_contract_account contract_proof entry.1 state_root) in
  match btree_get compare_bytes entry.1 st.2 with
  | Some keys =>
      let! values := get_values_from_proof keys.*2 (acc_storage_root account) entry.2 in
      vret (insert_values st.1 (zip keys values), btree_remove compare_bytes entry.1 st.2)
  | None => vret st
  end.

Definition read_account (contract_proof : list bytes) (state_root : H256) (m : ValueMap)
    (contract_address : H160) : V Error ValueMap :=
  let! account := vlift (get_contract_account contract_proof contract_address state_root) in
  vret (btree_insert compare_bytes contract_address (Some (rlp_encode_account account)) m).

Definition evm_verify_state_proof (keys : list bytes) (root : StateCommitment) (proof : Proof_)
    (ismp_address : H160) : V Error ValueMap :=
  let! evm_state_proof := vlift (decode_evm_state_proof proof) in
  let! groups := vfold (group_key ismp_address) ([], []) keys in
  let! st := vfold (read_contract (esp_contract_proof evm_state_proof) (sc_state_root root))
      ([], groups.1) (esp_storage_proof evm_state_proof) in
  vfold (read_account (esp_contract_proof evm_state_proof) (sc_state_root root)) st.1 groups.2.

(** The storage of pallet-host-executive holds the addresses of the ISMP contracts. *)
Context {St : Type}.
Variable EvmHosts : St -> gmap StateMachine H160.

Definition ismp_contract (c : St) (proof : Proof_) : result Error H160 :=
  ok_or (EvmHosts c !! smi_state_id (smh_id (proof_height proof)))
    (Custom (lit "Ismp contract address not found")).

Definition evm_state_machine : StateMachineClient St := {|
  verify_membership c item root proof :=
    let! contract_address := vlift (ismp_contract c proof) in
    evm_verify_membership item root proof contract_address;
  receipts_state_trie_key := req_res_receipt_keys;
  verify_state_proof c keys root proof :=
    let! ismp_address := vlift (ismp_contract c proof) in
    evm_verify_state_proof keys root proof ismp_address
|}.

End client.

(** * What EVM state proofs show

    The tries are assumed to be sound, as in [TwoChains]: what a proof shows under a root
    is what the trie with that root holds. The state of a chain is its accounts, by the
    hash of their address, each with its storage. *)

Class EvmTrieSound `{!EvmTrie} (commits : H256 -> gmap bytes bytes -> Prop) : Prop :=
  eth_trie_get_sound nodes root t key v :
    commits root t -> eth_trie_get nodes root key = Ok v -> v = t !! key.

Section sound.
Context `{Keccak256} `{!Codec EvmStateProof} `{!EvmTrie}.
Context (commits : H256 -> gmap bytes bytes -> Prop) `{!EvmTrieSound commits}.

Definition World : Type := gmap bytes (Account * gmap bytes bytes).

(** [root] is the root of the state trie of [w]. *)
Definition commits_world (root : H256) (w : World) : Prop :=
  exists t, commits root t /\ forall a raw, t !! a = Some raw ->
    forall account, rlp_decode_account raw = Some account ->
    exists storage, w !! a = Some (account, storage) /\ commits (acc_storage_root account) storage.

Definition world_slot (w : World) (contract slot : bytes) : option bytes :=
  w !! keccak256 contract ≫= fun entry => entry.2 !! slot.

Lemma get_contract_account_ok nodes contract root account w :
  commits_world root w -> get_contract_account nodes contract root = Ok account ->
  exists storage, w !! keccak256 contract = Some (account, storage) /\
    commits (acc_storage_root account) storage.
Proof.
  intros (t & Ht & Hw) Hg. unfold get_contract_account in Hg.
  destruct (eth_trie_get _ _ _) as [[raw|]|] eqn:E; [|done|done].
  apply ok_or_ok in Hg. apply (Hw _ raw); [|done]. by rewrite <- (eth_trie_get_sound _ _ _ _ _ Ht E).
Qed.

Lemma get_values_ok keys root nodes values storage :
  commits root storage -> get_values_from_proof keys root nodes = Some (Ok values) ->
  values = (fun k => storage !! k) <$> keys.
Proof.
  intros Hc Hv. apply vmap_ok in Hv. induction Hv as [|k v keys values Hk _ IH]; [done|].
  cbn. f_equal; [|done]. apply vlift_ok in Hk.
  destruct (eth_trie_get _ _ _) as [x|] eqn:E; [|done]. injection Hk as ->.
  by eapply eth_trie_get_sound.
Qed.

(** C38: messages whose membership is accepted are recorded by the ISMP contract: the slot
    of each commitment holds a value in the contract's storage. *)
Theorem evm_membership_sound item root proof contract w :
  commits_world (sc_state_root root) w ->
  evm_verify_membership item root proof contract = Some (Ok tt) ->
  exists keys, req_res_commitment_key item = Some keys /\
    Forall (fun key => is_Some (world_slot w contract key)) keys.
Proof.
  intros Hw Hv. unfold evm_verify_membership in Hv. vstep Hv p Hp. vstep Hv nodes Hn.
  apply vget_ok in Hv as (keys & Hk & Hv). vstep Hv account Ha. apply vlift_ok in Ha.
  vstep Hv values Hvs. apply vguard_ok in Hv. exists keys. split; [done|].
  destruct (get_contract_account_ok _ _ _ _ _ Hw Ha) as (storage & Hs & Hc).
  rewrite (get_values_ok _ _ _ _ _ Hc Hvs) in Hv. unfold world_slot. rewrite Hs. cbn.
  apply Forall_forall. intros key Hin. destruct (storage !! key) eqn:E; [done|].
  assert (existsb (fun val : option bytes => bool_decide (val = None)) ((fun k => storage !! k) <$> keys) = true)
    as Ht; [|congruence].
  apply existsb_exists. exists None. split; [|done]. rewrite <- E.
  apply list_elem_of_In. by apply (list_elem_of_fmap_2 (fun k => storage !! k)).
Qed.

(** What the value reported under a key must be. *)
Definition key_contract (ismp_address key : bytes) : bytes :=
  if (length key =? 52)%nat then take 20 key else ismp_address.
Definition key_slot (key : bytes) : bytes :=
  if (length key =? 52)%nat then drop 20 key else key.
Definition value_of (w : World) (ismp_address key : bytes) (v : option bytes) : Prop :=
  if (length key =? 20)%nat
  then exists account storage, w !! keccak256 key = Some (account, storage) /\
         v = Some (rlp_encode_account account)
  else v = world_slot w (key_contract ismp_address key) (keccak256 (key_slot key)).

(** The groups made of the keys. *)
Definition grouped (ismp_address : bytes) (groups : list (bytes * list (bytes * bytes))) : Prop :=
  forall contract keys key slot, (contract, keys) ∈ groups -> (key, slot) ∈ keys ->
    length key <> 20%nat /\ contract = key_contract ismp_address key /\ slot = keccak256 (key_slot key).

Lemma push_key_grouped ismp contract key slot groups :
  length key <> 20%nat -> contract = key_contract ismp key -> slot = keccak256 (key_slot key) ->
  grouped ismp groups.1 -> grouped ismp (push_key contract key slot groups).1.
Proof.
  intros Hl Hc Hs Hg c ks k s [[= -> ->]|Hin]%btree_insert_elem Hk; [|by eapply Hg].
  apply elem_of_app in Hk as [Hk|[= -> ->]%list_elem_of_singleton]; [|done].
  destruct (btree_get compare_bytes contract groups.1) as [l|] eqn:E; [|by apply elem_of_nil in Hk].
  eapply Hg; [|done]. by apply (btree_get_elem _ compare_bytes_lawful).
Qed.

Lemma group_keys_ok ismp keys groups :
  vfold (group_key ismp) ([], []) keys = Some (Ok groups) ->
  grouped ismp groups.1 /\ Forall (fun a => length a = 20%nat) groups.2.
Proof.
  intros Hf. refine (vfold_inv (fun g : KeyGroups => grouped ismp g.1 /\
    Forall (fun a => length a = 20%nat) g.2) _ _ _ _ _ _ Hf); [|by split; [intros ???? []%elem_of_nil|]].
  intros g key g' _ [Hg Hq] Hk. unfold group_key in Hk.
  destruct (Nat.eqb_spec (length key) 52) as [E|E].
  { unfold vret in Hk. injection Hk as <-. split; [|done].
    apply push_key_grouped; unfold key_contract, key_slot; rewrite ?E; done. }
  apply Nat.eqb_neq in E. destruct (Nat.eqb_spec (length key) 32) as [E'|E'].
  { unfold vret in Hk. injection Hk as <-. split; [|done].
    apply push_key_grouped; unfold key_contract, key_slot; rewrite ?E; [congruence|done..]. }
  destruct (Nat.eqb_spec (length key) 20) as [E''|E'']; [|done].
  unfold vret in Hk. injection Hk as <-. split; [done|]. apply Forall_app. by split; [|constructor].
Qed.

Definition valued (w : World) (ismp_address : bytes) (m : ValueMap) : Prop :=
  forall key v, (key, v) ∈ m -> value_of w ismp_address key v.

Lemma elem_zip_fmap {A B C} (f : A -> B) (g : B -> C) (l : list A) e :
  e ∈ zip l (g <$> (f <$> l)) -> exists x, x ∈ l /\ e = (x, g (f x)).
Proof.
  induction l as [|x l IH]; cbn; [intros []%elem_of_nil|].
  intros [->|He]%elem_of_cons; [exists x; split; [left|done]|].
  destruct (IH He) as (y & Hy & ->). exists y. split; [by right|done].
Qed.

Lemma insert_values_elem kvs m x :
  x ∈ insert_values m kvs -> x ∈ m \/ exists e, e ∈ kvs /\ x = (e.1.1, e.2).
Proof.
  revert m; induction kvs as [|e kvs IH]; intros m Hx; cbn in Hx; [by left|].
  apply IH in Hx as [Hx|(e' & He & ->)].
  - apply btree_insert_elem in Hx as [->|Hx]; [|by left].
    right. exists e. split; [left|done].
  - right. exists e'. split; [by right|done].
Qed.

Lemma read_contract_ok nodes root w ismp st entry st' :
  commits_world root w -> valued w ismp st.1 -> grouped ismp st.2 ->
  read_contract nodes root st entry = Some (Ok st') -> valued w ismp st'.1 /\ grouped ismp st'.2.
Proof.
  intros Hw Hm Hg Hr. unfold read_contract in Hr. vstep Hr account Ha. apply vlift_ok in Ha.
  destruct (btree_get _ _ _) as [keys|] eqn:E; [|unfold vret in Hr; injection Hr as <-; done].
  vstep Hr values Hvs. unfold vret in Hr. injection Hr as <-. cbn.
  apply (btree_get_elem _ compare_bytes_lawful) in E.
  destruct (get_contract_account_ok _ _ _ _ _ Hw Ha) as (storage & Hs & Hc).
  rewrite (get_values_ok _ _ _ _ _ Hc Hvs). split.
  - intros key v Hin. apply insert_values_elem in Hin as [Hin|(e & He & [= -> ->])]; [by apply Hm|].
    apply elem_zip_fmap in He as (x & Hx & ->). cbn. destruct x as [k slot]. cbn.
    destruct (Hg _ _ _ _ E Hx) as (Hl & Hcon & ->). unfold value_of.
    apply Nat.eqb_neq in Hl. rewrite Hl. unfold world_slot. rewrite <- Hcon, Hs. done.
  - intros c ks k s Hin. apply list_elem_of_filter in Hin as [_ Hin]. by apply Hg.
Qed.

Lemma read_account_ok nodes root w ismp m address m' :
  commits_world root w -> length address = 20%nat -> valued w ismp m ->
  read_account nodes root m address = Some (Ok m') -> valued w ismp m'.
Proof.
  intros Hw Hl Hm Hr. unfold read_account in Hr. vstep Hr account Ha. apply vlift_ok in Ha.
  unfold vret in Hr. injection Hr as <-.
  intros key v [[= -> ->]|Hin]%btree_insert_elem; [|by apply Hm].
  unfold value_of. rewrite Hl. destruct (get_contract_account_ok _ _ _ _ _ Hw Ha) as (storage & Hs & _).
  by exists account, storage.
Qed.

(** every value that a state proof reports is the value in the state of the chain: the
    word of the contract's storage for a slot, the encoded account for an address. *)
Theorem evm_state_proof_sound keys root proof ismp_address w values :
  commits_world (sc_state_root root) w ->
  evm_verify_state_proof keys root proof ismp_address = Some (Ok values) ->
  forall key v, (key, v) ∈ values -> value_of w ismp_address key v.
Proof.
  intros Hw Hv. unfold evm_verify_state_proof in Hv. vstep Hv p Hp. vstep Hv groups Hg.
  apply group_keys_ok in Hg as [Hg Hq]. vstep Hv st Hs. change (valued w ismp_address values).
  assert (valued w ismp_address st.1 /\ grouped ismp_address st.2) as [Hm _].
  { refine (vfold_inv (fun st => valued w ismp_address st.1 /\ grouped ismp_address st.2) _ _ _ _ _ _ Hs).
    - intros st1 e st2 _ [Hm1 Hg1] Hr. by eapply read_contract_ok.
    - split; [intros ?? []%elem_of_nil|exact Hg]. }
  refine (vfold_inv (valued w ismp_address) _ _ _ _ _ Hm Hv).
  intros m a m' Ha Hm' Hr. eapply read_account_ok; [done| |exact Hm'|exact Hr]. by eapply Forall_forall in Hq.
Qed.

(** ** Missing proofs *)

Lemma read_nothing nodes root st : vfold (read_contract nodes root) st [] = Some (Ok st).
Proof. done. Qed.

(** a storage proof that names no contract is accepted for every set of slots of the
    ISMP contract, whatever the state of the chain, and reports nothing: not even that the
    slots are empty. *)
Theorem evm_empty_proof_accepted keys root proof ismp_address nodes :
  Forall (fun key => length key = 32%nat) keys ->
  decode (proof_bytes proof) = Some (mkEvmStateProof nodes []) ->
  evm_verify_state_proof keys root proof ismp_address = Some (Ok []).
Proof.
  intros Hk Hd. unfold evm_verify_state_proof, decode_evm_state_proof. rewrite Hd. cbn [ok_or vlift vtry].
  enough (forall g : KeyGroups, g.2 = [] ->
    exists g', vfold (group_key ismp_address) g keys = Some (Ok g') /\ g'.2 = []) as He.
  { destruct (He ([], []) eq_refl) as (g' & -> & Hg'). cbn. by rewrite Hg'. }
  induction Hk as [|key keys Hl _ IH]; intros g Hg; [by exists g|].
  cbn [vfold]. unfold group_key at 1. rewrite Hl. cbn. by apply IH.
Qed.

End sound.
