(* ===== verification/Rollups.v ===== *)
(** * Rollups

    [modules/consensus/geth-primitives/src/lib.rs], [clients/arbitrum/src/lib.rs] and
    [clients/optimism/src/lib.rs]: the state of a rollup is what a contract on Ethereum
    says it is. Each verifier proves a word of that contract's storage, and checks that
    the header or output of the rollup hashes to it. *)

From S2P Require Import Prelude StateMachine Router Messaging Host ChildTrie Apps EvmKeys SubstrateMachine EvmMachine.

(** ** Headers *)

Record CodecHeader : Type := mkCodecHeader {
  ch_parent_hash : H256;
  ch_uncle_hash : H256;
  ch_coinbase : H160;
  ch_state_root : H256;
  ch_transactions_root : H256;
  ch_receipts_root : H256;
  ch_logs_bloom : bytes;
  ch_difficulty : Z;
  ch_number : Z;
  ch_gas_limit : Z;
  ch_gas_used : Z;
  ch_timestamp : Z;
  ch_extra_data : bytes;
  ch_mix_hash : H256;
  ch_nonce : bytes;
  ch_base_fee_per_gas : option Z;
  ch_withdrawals_hash : option H256;
  ch_blob_gas_used : option Z;
  ch_excess_blob_gas_used : option Z;
  ch_parent_beacon_root : option H256
}.

(** The header that is hashed; its integers are those of another library. *)
Record Header : Type := mkHeader {
  gh_parent_hash : H256;
  gh_uncle_hash : H256;
  gh_coinbase : H160;
  gh_state_root : H256;
  gh_transactions_root : H256;
  gh_receipts_root : H256;
  gh_logs_bloom : bytes;
  gh_difficulty : Z;
  gh_number : Z;
  gh_gas_limit : Z;
  gh_gas_used : Z;
  gh_timestamp : Z;
  gh_extra_data : bytes;
  gh_mix_hash : H256;
  gh_nonce : bytes;
  gh_base_fee_per_gas : option Z;
  gh_withdrawals_hash : option H256;
  gh_blob_gas_used : option Z;
  gh_excess_blob_gas_used : option Z;
  gh_parent_beacon_root : option H256
}.

(** From one library's [U256] to the other's, through 32 bytes. *)
Definition convert_u256 (x : Z) : Z := of_be_bytes 0 (to_be_bytes 32 x).

Definition header_of (value : CodecHeader) : Header :=
  mkHeader (ch_parent_hash value) (ch_uncle_hash value) (ch_coinbase value) (ch_state_root value)
    (ch_transactions_root value) (ch_receipts_root value) (ch_logs_bloom value)
    (convert_u256 (ch_difficulty value)) (convert_u256 (ch_number value))
    (ch_gas_limit value) (ch_gas_used value) (ch_timestamp value) (ch_extra_data value)
    (ch_mix_hash value) (ch_nonce value) (convert_u256 <$> ch_base_fee_per_gas value)
    (ch_withdrawals_hash value) (ch_blob_gas_used value) (ch_excess_blob_gas_used value)
    (ch_parent_beacon_root value).

(** RLP ([alloy_rlp]): of a header, and decoding of numbers and of byte strings; ABI
    encoding ([ethabi]) of a number, 32 bytes and a byte string. *)
Class RollupLib : Type := {
  rlp_encode_header : Header -> bytes;
  rlp_decode_u256 : bytes -> option Z;
  rlp_decode_bytes : bytes -> option bytes;
  ethabi_encode_game : Z -> H256 -> bytes -> bytes
}.

(** [low_u64] *)
Definition low_u64 (x : Z) : Z := x mod 2 ^ 64.

(** [StateMachine::Evm(Default::default())], which the client does not use. *)
Definition evm_default : StateMachine := Evm 0.

Section rollups.
Context `{Keccak256} `{!EvmTrie} `{!RollupLib}.

Definition header_hash (h : Header) : H256 := keccak256 (rlp_encode_header h).

Definition not_in_proof : Error := MembershipProofVerificationFailed (lit "Value not found in proof").

(** A number read from the storage of a contract, as 32 bytes. *)
Definition proved_word (key : bytes) (storage_root : H256) (proof : list bytes) (missing : Error)
    (text : bytes) : V Error bytes :=
  let! found := vlift (get_value_from_proof key storage_root proof) in
  let! proof_value := vlift (ok_or found missing) in
  let! n := vlift (ok_or (rlp_decode_u256 proof_value) (Custom (text ++ debug_vec proof_value))) in
  vret (to_be_bytes 32 n).

(** ** Arbitrum *)

Definition NODES_SLOT : Z := 118.

Record GlobalState : Type := mkGlobalState {
  gs_block_hash : H256;
  gs_send_root : H256;
  gs_inbox_position : Z;
  gs_position_in_message : Z
}.

Definition global_state_hash (s : GlobalState) : H256 :=
  keccak256 (lit "Global state:" ++ gs_block_hash s ++ gs_send_root s
    ++ to_be_bytes 8 (gs_inbox_position s) ++ to_be_bytes 8 (gs_position_in_message s)).

Inductive MachineStatus : Type := Running | Finished | Errored | TooFar.

Definition machine_status_u8 (s : MachineStatus) : Z :=
  match s with Running => 0 | Finished => 1 | Errored => 2 | TooFar => 3 end.

Definition machine_status_of_u8 (status : Z) : result bytes MachineStatus :=
  if status =? 0 then Ok Running
  else if status =? 1 then Ok Finished
  else if status =? 2 then Ok Errored
  else if status =? 3 then Ok TooFar
  else Err (lit "Invalid machine status received").

Record ArbitrumPayloadProof : Type := mkArbitrumPayloadProof {
  ap_arbitrum_header : CodecHeader;
  ap_global_state : GlobalState;
  ap_machine_status : MachineStatus;
  ap_inbox_max_count : Z;
  ap_node_number : Z;
  ap_storage_proof : list bytes;
  ap_contract_proof : list bytes
}.

Definition get_state_hash (global_state : GlobalState) (machine_status : MachineStatus)
    (inbox_max_count : Z) : H256 :=
  keccak256 (global_state_hash global_state ++ to_be_bytes 32 inbox_max_count
    ++ to_be_bytes 1 (machine_status_u8 machine_status)).

Definition verify_arbitrum_payload (payload : ArbitrumPayloadProof) (root : H256)
    (rollup_core_address : H160) (consensus_state_id : ConsensusStateId) :
    V Error IntermediateState :=
  let! account := vlift (get_contract_account (ap_contract_proof payload) rollup_core_address root) in
  let storage_root := acc_storage_root account in
  let arbitrum_header := ap_arbitrum_header payload in
  let header := header_of arbitrum_header in
  let! _ := vguard (negb (bool_decide
        (gs_send_root (ap_global_state payload) = ch_extra_data arbitrum_header)))
      (Custom (lit "Arbitrum header extra data does not match send root in global state")) in
  let block_number := low_u64 (ch_number arbitrum_header) in
  let! _ := vguard (negb (bool_decide (gs_block_hash (ap_global_state payload) = header_hash header)))
      (Custom (lit "Arbitrum header hash does not match block hash in global state")) in
  let state_hash := get_state_hash (ap_global_state payload) (ap_machine_status payload)
      (ap_inbox_max_count payload) in
  let state_hash_key := derive_map_key (to_be_bytes 32 (ap_node_number payload)) NODES_SLOT in
  let! proof_value := proved_word state_hash_key storage_root (ap_storage_proof payload)
      not_in_proof (lit "Error decoding state hash ") in
  let! _ := vguard (negb (bool_decide (proof_value = state_hash)))
      (MembershipProofVerificationFailed
        (lit "State hash from proof does not match calculated state hash")) in
  vret (mkIntermediateState
    (mkStateMachineHeight (mkStateMachineId evm_default consensus_state_id) block_number)
    (mkStateCommitment (ch_timestamp arbitrum_header) None (ch_state_root arbitrum_header))).

(** ** Optimism: the oracle of outputs *)

Definition DISPUTE_GAMES_SLOT : Z := 103.
Definition L2_OUTPUTS_SLOT : Z := 3.

Record OptimismPayloadProof : Type := mkOptimismPayloadProof {
  op_state_root : H256;
  op_withdrawal_storage_root : H256;
  op_l2_block_hash : H256;
  op_version : H256;
  op_l2_oracle_proof : list bytes;
  op_output_root_proof : list bytes;
  op_multi_proof : list bytes;
  op_output_root_index : Z;
  op_block_number : Z;
  op_timestamp : Z
}.

Definition calculate_output_root (version state_root withdrawal_storage_root l2_block_hash : H256) :
    H256 :=
  keccak256 (version ++ state_root ++ withdrawal_storage_root ++ l2_block_hash).

(** The word with the time in its low and the block number in its high half; the [u128]s
    are cut to 64 bits. *)
Definition unpack_timestamp (word : Z) : Z := low_u64 (low_u128 word).
Definition unpack_block_number (word : Z) : Z := low_u64 (word / 2 ^ 128).

Definition verify_optimism_payload (payload : OptimismPayloadProof) (root : H256)
    (l2_oracle_address : H160) (consensus_state_id : ConsensusStateId) : V Error IntermediateState :=
  let! account := vlift (get_contract_account (op_l2_oracle_proof payload) l2_oracle_address root) in
  let storage_root := acc_storage_root account in
  let output_root := calculate_output_root (op_version payload) (op_state_root payload)
      (op_withdrawal_storage_root payload) (op_l2_block_hash payload) in
  get! output_root_key := derive_array_item_key L2_OUTPUTS_SLOT (op_output_root_index payload) 0 in
  let! proof_value := proved_word output_root_key storage_root (op_output_root_proof payload)
      not_in_proof (lit "Error decoding output root from ") in
  let! _ := vguard (negb (bool_decide (proof_value = output_root)))
      (MembershipProofVerificationFailed (lit "Invalid optimism output root proof")) in
  get! timestamp_block_number_key :=
      derive_array_item_key L2_OUTPUTS_SLOT (op_output_root_index payload) 1 in
  let! word := proved_word timestamp_block_number_key storage_root (op_multi_proof payload)
      not_in_proof (lit "Error decoding block and timestamp from") in
  let block_and_timestamp := of_be_bytes 0 word in
  let timestamp := unpack_timestamp block_and_timestamp in
  let block_number := unpack_block_number block_and_timestamp in
  let! _ := vguard (negb (op_timestamp payload =? timestamp)
                    && negb (op_block_number payload =? block_number))
      (MembershipProofVerificationFailed (lit "Invalid optimism block and timestamp proof")) in
  vret (mkIntermediateState
    (mkStateMachineHeight (mkStateMachineId evm_default consensus_state_id) (op_block_number payload))
    (mkStateCommitment (op_timestamp payload) None (op_state_root payload))).

(** ** Optimism: dispute games *)

Record OptimismDisputeGameProof : Type := mkOptimismDisputeGameProof {
  dg_header : CodecHeader;
  dg_withdrawal_storage_root : H256;
  dg_version : H256;
  dg_dispute_factory_proof : list bytes;
  dg_dispute_game_proof : list bytes;
  dg_proxy : H160;
  dg_extra_data : bytes;
  dg_game_type : Z;
  dg_timestamp : Z
}.

Definition get_game_uuid (game_type : Z) (root_claim : H256) (extra_data : bytes) : H256 :=
  keccak256 (ethabi_encode_game game_type root_claim extra_data).

Definition CANNON : Z := 0.
Definition PERMISSIONED : Z := 1.

(** The fields of a game packed into one word. *)
Definition get_game_id (game_type timestamp : Z) (game_proxy : H160) : Z :=
  let proxy := of_be_bytes 0 (replicate 12 Byte.x00 ++ game_proxy) in
  Z.lor (Z.lor (Z.lor 0 (Z.shiftl game_type 224)) (Z.shiftl timestamp 160)) proxy.

(** Zeros in front of a list until it has 32 bytes. *)
Definition pad_32 (l : bytes) : bytes := replicate (32 - length l) Byte.x00 ++ l.

Definition verify_optimism_dispute_game_proof (payload : OptimismDisputeGameProof) (root : H256)
    (dispute_factory_address : H160) (respected_game_type : Z)
    (consensus_state_id : ConsensusStateId) : V Error IntermediateState :=
  let! _ := vguard (negb (dg_game_type payload =? respected_game_type))
      (MembershipProofVerificationFailed (lit "Game type must be the respected game type")) in
  let! account := vlift (get_contract_account (dg_dispute_factory_proof payload)
      dispute_factory_address root) in
  let storage_root := acc_storage_root account in
  let header := dg_header payload in
  let l2_block_hash := header_hash (header_of header) in
  let root_claim := calculate_output_root (dg_version payload) (ch_state_root header)
      (dg_withdrawal_storage_root payload) l2_block_hash in
  let game_uuid := get_game_uuid (dg_game_type payload) root_claim (dg_extra_data payload) in
  let dispute_game_key := derive_map_key game_uuid DISPUTE_GAMES_SLOT in
  let! found := vlift (get_value_from_proof dispute_game_key storage_root
      (dg_dispute_game_proof payload)) in
  let! proof_value := vlift (ok_or found
      (MembershipProofVerificationFailed (lit "Dispute Game's Id not found in proof"))) in
  let! encoded_game_id := vlift (ok_or (rlp_decode_bytes proof_value)
      (Custom (lit "Error decoding dispute game id from " ++ debug_vec proof_value))) in
  let game_id := get_game_id (dg_game_type payload) (dg_timestamp payload) (dg_proxy payload) in
  let! _ := vguard (negb (bool_decide (pad_32 encoded_game_id = to_be_bytes 32 game_id)))
      (MembershipProofVerificationFailed
        (lit "Dispute Game Id from proof does not match derived game id")) in
  vret (mkIntermediateState
    (mkStateMachineHeight (mkStateMachineId evm_default consensus_state_id)
      (low_u64 (ch_number header)))
    (mkStateCommitment (ch_timestamp header) None (ch_state_root header))).

End rollups.

(** * What the rollup verifiers show

    A commitment of a rollup is accepted only for a state that the contract of the rollup
    on Ethereum has recorded, read from the state of Ethereum ([EvmMachine]). *)

(** ** Numbers *)

Definition is_u256 (x : Z) : Prop := 0 <= x <= u256_max.

Lemma convert_u256_id x : is_u256 x -> convert_u256 x = x.
Proof.
  intros [Hl Hu]. apply of_to_be_bytes. unfold u256_max in Hu.
  change (256 ^ Z.of_nat 32) with (2 ^ 256). lia.
Qed.

Lemma of_be_bytes_bound l acc :
  0 <= acc -> 0 <= of_be_bytes acc l < (acc + 1) * 256 ^ Z.of_nat (length l).
Proof.
  revert acc; induction l as [|x l IH]; intros acc Ha; cbn [of_be_bytes length]; [lia|].
  pose proof (byte_val_range x). specialize (IH (acc * 256 + byte_val x) ltac:(lia)).
  rewrite Nat2Z.inj_succ, Z.pow_succ_r by lia. nia.
Qed.

Lemma of_be_bytes_zeros n l : of_be_bytes 0 (replicate n Byte.x00 ++ l) = of_be_bytes 0 l.
Proof. by induction n. Qed.

(** Packing by [lor] is addition when the parts do not overlap. *)
Lemma lor_shift a b n : 0 <= n -> 0 <= b < 2 ^ n -> Z.lor (Z.shiftl a n) b = a * 2 ^ n + b.
Proof.
  intros Hn Hb. rewrite Z.shiftl_mul_pow2 by done.
  enough (Z.land (a * 2 ^ n) b = 0) as H0 by (rewrite <- Z.add_lor_land, H0; lia).
  apply Z.bits_inj'. intros i Hi. rewrite Z.land_spec, Z.bits_0.
  destruct (Z.ltb_spec i n).
  - by rewrite Z.mul_pow2_bits_low.
  - destruct (Z.eq_dec b 0) as [->|Hz]; [by rewrite Z.bits_0, andb_false_r|].
    rewrite (Z.bits_above_log2 b i), andb_false_r; [done|lia|].
    pose proof (proj1 (Z.log2_lt_pow2 b n ltac:(lia)) ltac:(lia)). lia.
Qed.

Lemma game_id_sum game_type timestamp proxy :
  0 <= timestamp < 2 ^ 64 -> length proxy = 20%nat ->
  get_game_id game_type timestamp proxy
  = game_type * 2 ^ 224 + timestamp * 2 ^ 160 + of_be_bytes 0 proxy.
Proof.
  intros Ht Hp. unfold get_game_id. rewrite of_be_bytes_zeros, Z.lor_0_l.
  pose proof (of_be_bytes_bound proxy 0 ltac:(lia)) as Hb. rewrite Hp in Hb.
  change ((0 + 1) * 256 ^ Z.of_nat 20) with (2 ^ 160) in Hb.
  rewrite <- Z.lor_assoc, (lor_shift timestamp) by lia. rewrite lor_shift; [lia|lia|].
  change (2 ^ 224) with (2 ^ 64 * 2 ^ 160). nia.
Qed.

(** the identifier of a dispute game is a 256-bit word from which the type of the
    game, its time and its proxy can be read off again. *)
Theorem game_id_unpacks game_type timestamp proxy :
  is_u32 game_type -> is_u64 timestamp -> length proxy = 20%nat ->
  let id := get_game_id game_type timestamp proxy in
  is_u256 id /\ id / 2 ^ 224 = game_type /\ (id / 2 ^ 160) mod 2 ^ 64 = timestamp /\
  id mod 2 ^ 160 = of_be_bytes 0 proxy.
Proof.
  intros [Hg1 Hg2] [Ht1 Ht2] Hp id. unfold u32_max in Hg2. unfold u64_max in Ht2.
  pose proof (of_be_bytes_bound proxy 0 ltac:(lia)) as Hb. rewrite Hp in Hb.
  change ((0 + 1) * 256 ^ Z.of_nat 20) with (2 ^ 160) in Hb.
  subst id. rewrite game_id_sum by (done || lia). set (b := of_be_bytes 0 proxy) in *.
  replace (game_type * 2 ^ 224 + timestamp * 2 ^ 160 + b)
    with ((game_type * 2 ^ 64 + timestamp) * 2 ^ 160 + b) by (change (2 ^ 224) with (2 ^ 64 * 2 ^ 160); lia).
  assert (((game_type * 2 ^ 64 + timestamp) * 2 ^ 160 + b) / 2 ^ 160 = game_type * 2 ^ 64 + timestamp) as Hdiv.
  { rewrite Z.div_add_l, (Z.div_small b) by lia. lia. }
  unfold is_u256, u256_max. split_and!; [nia|nia| | |].
  - change (2 ^ 224) with (2 ^ 160 * 2 ^ 64). rewrite <- Z.div_div, Hdiv by lia.
    rewrite Z.div_add_l, Z.div_small by lia. lia.
  - rewrite Hdiv, Z.add_comm, Z_mod_plus_full. apply Z.mod_small. lia.
  - rewrite Z.add_comm, Z_mod_plus_full. by apply Z.mod_small.
Qed.

(** ** Proofs *)

Section sound.
Context `{Keccak256} `{!EvmTrie} `{!RollupLib}.
Context (commits : H256 -> gmap bytes bytes -> Prop) `{!EvmTrieSound commits}.

(** The number in a slot of a contract's storage, as 32 bytes. *)
Definition holds_word (w : World) (contract slot : bytes) (word : bytes) : Prop :=
  exists raw n, world_slot w contract slot = Some raw /\ rlp_decode_u256 raw = Some n /\
    word = to_be_bytes 32 n.

Lemma proved_word_ok w root contract nodes nodes' account key missing text word :
  commits_world commits root w -> get_contract_account nodes contract root = Ok account ->
  proved_word key (acc_storage_root account) nodes' missing text = Some (Ok word) ->
  holds_word w contract key word.
Proof.
  intros Hw Ha Hp. destruct (get_contract_account_ok commits _ _ _ _ _ Hw Ha) as (storage & Hs & Hc).
  unfold proved_word in Hp. vstep Hp found Hf. vstep Hp raw Hr. apply vlift_ok, ok_or_ok in Hr. subst found.
  vstep Hp n Hn. apply vlift_ok, ok_or_ok in Hn. unfold vret in Hp. injection Hp as <-.
  exists raw, n. split; [|done]. apply vlift_ok in Hf. unfold get_value_from_proof in Hf.
  destruct (eth_trie_get _ _ _) as [v|] eqn:E; [|done]. injection Hf as ->.
  unfold world_slot. rewrite Hs. cbn. symmetry. by eapply eth_trie_get_sound.
Qed.

(** an accepted Arbitrum commitment is that of a header whose block hash, with the
    rest of the global state, is what the rollup contract has recorded for the node. *)
Theorem arbitrum_state_proved payload root rollup id state w :
  commits_world commits root w ->
  verify_arbitrum_payload payload root rollup id = Some (Ok state) ->
  let header := ap_arbitrum_header payload in
  gs_block_hash (ap_global_state payload) = header_hash (header_of header) /\
  gs_send_root (ap_global_state payload) = ch_extra_data header /\
  holds_word w rollup (derive_map_key (to_be_bytes 32 (ap_node_number payload)) NODES_SLOT)
    (get_state_hash (ap_global_state payload) (ap_machine_status payload) (ap_inbox_max_count payload)) /\
  is_commitment state = mkStateCommitment (ch_timestamp header) None (ch_state_root header) /\
  smh_height (is_height state) = low_u64 (ch_number header).
Proof.
  intros Hw Hv header. unfold verify_arbitrum_payload in Hv. vstep Hv account Ha. apply vlift_ok in Ha.
  vcheck Hv G1. vcheck Hv G2. vstep Hv word Hword. vcheck Hv G3. unfold vret in Hv. injection Hv as <-.
  apply negb_false_iff, bool_decide_eq_true in G1, G2, G3. subst word.
  split_and!; [done|done| |done|done]. by eapply proved_word_ok.
Qed.

(** an accepted Optimism commitment has the state root of the output that the oracle
    contract has recorded at the index. Of the time and the height that are recorded with
    the output, only one needs to be that of the commitment. *)
Theorem optimism_output_proved payload root oracle id state w :
  commits_world commits root w ->
  verify_optimism_payload payload root oracle id = Some (Ok state) ->
  exists key1 key2 word,
    derive_array_item_key L2_OUTPUTS_SLOT (op_output_root_index payload) 0 = Some key1 /\
    derive_array_item_key L2_OUTPUTS_SLOT (op_output_root_index payload) 1 = Some key2 /\
    holds_word w oracle key1 (calculate_output_root (op_version payload)
      (sc_state_root (is_commitment state)) (op_withdrawal_storage_root payload) (op_l2_block_hash payload)) /\
    holds_word w oracle key2 word /\
    (sc_timestamp (is_commitment state) = unpack_timestamp (of_be_bytes 0 word) \/
     smh_height (is_height state) = unpack_block_number (of_be_bytes 0 word)).
Proof.
  intros Hw Hv. unfold verify_optimism_payload in Hv. vstep Hv account Ha. apply vlift_ok in Ha.
  apply vget_ok in Hv as (key1 & Hk1 & Hv). vstep Hv word1 Hword1. vcheck Hv G1.
  apply vget_ok in Hv as (key2 & Hk2 & Hv). vstep Hv word Hword. vcheck Hv G2.
  unfold vret in Hv. injection Hv as <-. apply negb_false_iff, bool_decide_eq_true in G1. subst word1.
  exists key1, key2, word. split_and!; [done|done|by eapply proved_word_ok|by eapply proved_word_ok|].
  apply andb_false_iff in G2 as [G2|G2]; apply negb_false_iff, Z.eqb_eq in G2; [left|right]; exact G2.
Qed.

(** an accepted commitment of a dispute game is that of a header whose output root is
    the claim of a game, of the respected type, that the factory contract has recorded
    with the time and the proxy of the payload. *)
Theorem dispute_game_proved payload root factory game_type id state w :
  commits_world commits root w ->
  verify_optimism_dispute_game_proof payload root factory game_type id = Some (Ok state) ->
  let header := dg_header payload in
  let claim := calculate_output_root (dg_version payload) (ch_state_root header)
    (dg_withdrawal_storage_root payload) (header_hash (header_of header)) in
  exists raw game,
    world_slot w factory
      (derive_map_key (get_game_uuid game_type claim (dg_extra_data payload)) DISPUTE_GAMES_SLOT) = Some raw /\
    rlp_decode_bytes raw = Some game /\
    pad_32 game = to_be_bytes 32 (get_game_id game_type (dg_timestamp payload) (dg_proxy payload)) /\
    is_commitment state = mkStateCommitment (ch_timestamp header) None (ch_state_root header) /\
    smh_height (is_height state) = low_u64 (ch_number header).
Proof.
  intros Hw Hv header claim. unfold verify_optimism_dispute_game_proof in Hv. vcheck Hv G1.
  apply negb_false_iff, Z.eqb_eq in G1. vstep Hv account Ha. apply vlift_ok in Ha.
  vstep Hv found Hf. apply vlift_ok in Hf. vstep Hv raw Hr. apply vlift_ok, ok_or_ok in Hr. subst found.
  vstep Hv game Hg. apply vlift_ok, ok_or_ok in Hg. vcheck Hv G2.
  apply negb_false_iff, bool_decide_eq_true in G2. unfold vret in Hv. injection Hv as <-.
  exists raw, game. subst game_type. split_and!; [|done|done|done|done].
  destruct (get_contract_account_ok commits _ _ _ _ _ Hw Ha) as (storage & Hs & Hc).
  unfold get_value_from_proof in Hf. destruct (eth_trie_get _ _ _) as [v|] eqn:E; [|done].
  injection Hf as ->. unfold world_slot. rewrite Hs. cbn. symmetry. by eapply eth_trie_get_sound.
Qed.

End sound.
