(* ===== verification/EvmDemo.v ===== *)
(** * A concrete EVM chain

    One contract with some storage, and a reference host that verifies proofs of it. The
    trie library is a table of two roots. The theorems of [EvmMachine] and [Rollups] are
    applied to it, and two ways around the checks are shown. *)

From S2P Require Import Prelude StateMachine Router Messaging Host Handlers HostSpec RefHost Timeouts ChildTrie PalletTypes Apps EvmKeys SubstrateMachine DemoCodec EvmMachine Rollups.

Module EvmDemo.

(** A hash of 32 bytes: a remainder. *)
Definition hash32 : Keccak256 := fun b => to_be_bytes 32 (of_be_bytes 1 b mod (2 ^ 256 - 189)).

#[local] Existing Instances hash32.

#[export] Instance bytes_codec : Codec bytes := string_codec.
#[export] Instance evm_proof_codec : Codec EvmStateProof :=
  via_codec (pair_codec (list_codec string_codec) (list_codec (pair_codec string_codec (list_codec string_codec))))
    (fun p => (esp_contract_proof p, esp_storage_proof p)) (fun x => mkEvmStateProof x.1 x.2)
    ltac:(by intros []).

Definition state_root : H256 := replicate 32 Byte.x5a.
Definition storage_root : H256 := replicate 32 Byte.x5b.
Definition contract : H160 := replicate 20 Byte.x11.
Definition account_raw : bytes := lit "account".
Definition account : Account := mkAccount 1 0 storage_root (replicate 32 Byte.x00).

Section library.
Context (storage : gmap bytes bytes).

Definition library : EvmTrie := {|
  eth_trie_get _ root key :=
    if decide (root = state_root)
    then Ok (({[ keccak256 contract := account_raw ]} : gmap bytes bytes) !! key)
    else if decide (root = storage_root) then Ok (storage !! key)
    else Err (lit "unknown root");
  rlp_decode_account raw := if decide (raw = account_raw) then Some account else None;
  rlp_encode_account _ := account_raw
|}.

Definition roots (root : H256) (t : gmap bytes bytes) : Prop :=
  (root = state_root /\ t = {[ keccak256 contract := account_raw ]}) \/
  (root = storage_root /\ t = storage).

Lemma library_sound : @EvmTrieSound library roots.
Proof. intros nodes root t key v [[-> ->]|[-> ->]]; cbn; by intros [= <-]. Defined.

Definition world : World := {[ keccak256 contract := (account, storage) ]}.

Lemma world_committed : @commits_world library roots state_root world.
Proof.
  exists {[ keccak256 contract := account_raw ]}. split; [by left|].
  intros a raw [<- <-]%lookup_singleton_Some acc. cbn.
  intros [= <-]. exists storage. split; [apply lookup_singleton_eq|]. by right.
Defined.
End library.

Definition committed (t : Z) : StateCommitment := mkStateCommitment t None state_root.
Definition height : StateMachineHeight := Demo.at_height 3.

(** ** Membership and values *)

Definition sent : Request := RequestPost (Demo.post (lit "to") 0).
Definition sent_key : bytes := default [] (req_res_commitment_key (RRRequest [sent]) ≫= head).
Definition proof : Proof_ := mkProof height (encode (mkEvmStateProof [] [(contract, [])])).

Section membership.
#[local] Instance lib1 : EvmTrie := library {[ sent_key := lit "meta" ]}.
#[local] Instance sound1 : EvmTrieSound (roots {[ sent_key := lit "meta" ]}) := library_sound _.

Lemma evm_membership_sound_witness : exists keys, req_res_commitment_key (RRRequest [sent]) = Some keys /\
  Forall (fun key => is_Some (world_slot (world {[ sent_key := lit "meta" ]}) contract key)) keys.
Proof.
  apply (evm_membership_sound _ (RRRequest [sent]) (committed 30) proof contract _ (world_committed _)).
  vm_compute. reflexivity.
Defined.
End membership.

(** The request of the host was delivered: the contract has a receipt. *)
Definition asked : PostRequest :=
  mkPostRequest Demo.here Demo.there 1 (lit "to") (lit "to") 2000 (lit "body").
Definition asked_hash : H256 := default [] (hash_request (RequestPost asked)).
Definition receipt_key : bytes := derive_unhashed_map_key asked_hash REQUEST_RECEIPTS_SLOT.
Definition receipts : gmap bytes bytes := {[ keccak256 receipt_key := lit "relayer" ]}.

Section values.
#[local] Instance lib2 : EvmTrie := library receipts.
#[local] Instance sound2 : EvmTrieSound (roots receipts) := library_sound _.

Definition reported_values : ValueMap :=
  btree_collect compare_bytes [(contract, Some account_raw); (receipt_key, Some (lit "relayer"))].

Lemma evm_state_proof_sound_witness : value_of (world receipts) contract receipt_key (Some (lit "relayer")).
Proof.
  apply (evm_state_proof_sound _ [receipt_key; contract] (committed 30) proof contract (world receipts)
    reported_values (world_committed _)); [vm_compute; reflexivity|].
  apply list_elem_of_In. vm_compute. tauto.
Defined.

(** ** Without a proof *)

Definition client : ConsensusClient AbsHost := {|
  verify_consensus _ _ _ _ := Some (Err (ConsensusProofVerificationFailed Demo.ccid));
  verify_fraud_proof _ _ _ _ := Some (Err (Custom (lit "no conflict")));
  client_id := Demo.ccid;
  state_machine m := if decide (m = Demo.there)
    then Ok (evm_state_machine (fun _ => {[ Demo.there := contract ]}))
    else Err (Custom (lit "unsupported"))
|}.

#[local] Instance host : IsmpHost AbsHost := ref_host Demo.here None [client] Demo.router.

(** The host at second 3000, with the request it sent, knows the state of second 2500. *)
Definition waiting : AbsHost := mkAbsHost
  (mkConsensusStore {[ Demo.csid := lit "state" ]} {[ Demo.csid := Demo.ccid ]}
     {[ Demo.csid := 100000 ]} {[ Demo.there_id := 60 ]} ∅ {[ Demo.there_id := 3 ]} {[ Demo.csid := 900 ]}
     {[ height := 100 ]} {[ height := committed 2500 ]})
  (mkMessageStore {[ asked_hash := lit "meta" ]} ∅ ∅ ∅ ∅ 1) (from_secs 3000).

Definition empty_proof : Proof_ := mkProof height (encode (mkEvmStateProof [] [])).

(** a request that was delivered on an EVM chain is timed out without any proof. The
    ISMP contract has a receipt for the request in the state the host knows, and a proof
    of that state shows it. But the client does not insist on a proof for the contract of
    every key: for a message with an empty proof it reports no values at all, and the
    handler concludes that the request was not delivered. *)
Theorem evm_timeout_without_proof :
  commits_world (roots receipts) state_root (world receipts) /\
  world_slot (world receipts) contract (keccak256 receipt_key) = Some (lit "relayer") /\
  fst (handle_timeout (TMPost [RequestPost asked] proof) waiting)
    = Some (Err (IsmpError (Custom (lit "Some Requests in the batch have been delivered")))) /\
  fst (handle_timeout (TMPost [RequestPost asked] empty_proof) waiting)
    = Some (Ok (TimeoutResult [Ok (post_timeout_event (RequestPost asked) asked_hash)])).
Proof. split; [apply world_committed|]. split_and!; vm_compute; reflexivity. Qed.

End values.

(** ** Rollups *)

#[local] Instance rollup_lib : RollupLib := {|
  rlp_encode_header h := gh_state_root h ++ to_be_bytes 8 (gh_timestamp h) ++ to_be_bytes 8 (gh_number h);
  rlp_decode_u256 raw := Some (of_be_bytes 0 raw);
  rlp_decode_bytes raw := Some raw;
  ethabi_encode_game t claim extra := to_be_bytes 4 t ++ extra ++ claim
|}.

Definition zeros : H256 := replicate 32 Byte.x00.
Definition l2_root : H256 := replicate 32 Byte.x77.
Definition l2_header : CodecHeader :=
  mkCodecHeader zeros zeros (replicate 20 Byte.x00) l2_root zeros zeros [] 0 812 0 0 1700 [] zeros []
    None None None None None.
Definition block_hash : H256 := header_hash (header_of l2_header).

Lemma game_id_unpacks_witness :
  let id := get_game_id 1 1700 contract in
  is_u256 id /\ id / 2 ^ 224 = 1 /\ (id / 2 ^ 160) mod 2 ^ 64 = 1700 /\ id mod 2 ^ 160 = of_be_bytes 0 contract.
Proof. apply (game_id_unpacks 1 1700 contract); [vm_compute; split; discriminate..|reflexivity]. Defined.

(** A node of the rollup contract. *)
Definition global_state : GlobalState := mkGlobalState block_hash (ch_extra_data l2_header) 5 6.
Definition node_key : bytes := derive_map_key (to_be_bytes 32 9) NODES_SLOT.
Definition node_storage : gmap bytes bytes := {[ node_key := get_state_hash global_state Finished 7 ]}.
Definition arbitrum : ArbitrumPayloadProof := mkArbitrumPayloadProof l2_header global_state Finished 7 9 [] [].

(** A game of the factory contract. *)
Definition claim : H256 := calculate_output_root zeros l2_root zeros block_hash.
Definition game_key : bytes := derive_map_key (get_game_uuid 1 claim (lit "extra")) DISPUTE_GAMES_SLOT.
Definition game_storage : gmap bytes bytes :=
  {[ game_key := to_be_bytes 32 (get_game_id 1 1600 (replicate 20 Byte.x33)) ]}.
Definition game : OptimismDisputeGameProof :=
  mkOptimismDisputeGameProof l2_header zeros zeros [] [] (replicate 20 Byte.x33) (lit "extra") 1 1600.

(** What every verifier should report for the header. *)
Definition l2_state : IntermediateState := mkIntermediateState
  (mkStateMachineHeight (mkStateMachineId evm_default Demo.csid) 812) (mkStateCommitment 1700 None l2_root).

Section games.
#[local] Instance lib3 : EvmTrie := library game_storage.
#[local] Instance sound3 : EvmTrieSound (roots game_storage) := library_sound _.

Lemma dispute_game_proved_witness : exists raw g,
  world_slot (world game_storage) contract game_key = Some raw /\ rlp_decode_bytes raw = Some g.
Proof.
  destruct (dispute_game_proved _ game state_root contract 1 Demo.csid l2_state _ (world_committed _))
    as (raw & g & Hs & Hg & _).
  - vm_compute. reflexivity.
  - exists raw, g. exact (conj Hs Hg).
Defined.
End games.

Section nodes.
#[local] Instance lib4 : EvmTrie := library node_storage.
#[local] Instance sound4 : EvmTrieSound (roots node_storage) := library_sound _.

Lemma arbitrum_state_proved_witness :
  holds_word (world node_storage) contract node_key (get_state_hash global_state Finished 7).
Proof.
  apply (arbitrum_state_proved _ arbitrum state_root contract Demo.csid l2_state _ (world_committed _)).
  vm_compute. reflexivity.
Defined.
End nodes.

(** The output of the oracle contract: block 812 at second 1700. *)
Definition output_key (offset : Z) : bytes := default [] (derive_array_item_key L2_OUTPUTS_SLOT 4 offset).
Definition output_storage : gmap bytes bytes :=
  {[ output_key 0 := claim; output_key 1 := to_be_bytes 32 (812 * 2 ^ 128 + 1700) ]}.
Definition output (block_number timestamp : Z) : OptimismPayloadProof :=
  mkOptimismPayloadProof l2_root zeros block_hash zeros [] [] [] 4 block_number timestamp.

Section outputs.
#[local] Instance lib5 : EvmTrie := library output_storage.
#[local] Instance sound5 : EvmTrieSound (roots output_storage) := library_sound _.

Lemma optimism_output_proved_witness : exists key1 word,
  holds_word (world output_storage) contract key1 (calculate_output_root zeros l2_root zeros block_hash) /\
  812 = unpack_block_number (of_be_bytes 0 word) \/ 1700 = unpack_timestamp (of_be_bytes 0 word).
Proof.
  destruct (optimism_output_proved _ (output 812 1700) state_root contract Demo.csid l2_state _
    (world_committed _)) as (key1 & key2 & word & _ & _ & Hw & _ & Hor).
  - vm_compute. reflexivity.
  - exists key1, word. destruct Hor as [Ht|Hn]; [right; exact Ht|left; exact (conj Hw Hn)].
Defined.

(** the height of an Optimism commitment can be chosen by the relayer. The contract
    has recorded the output for block 812 of second 1700. A payload with the right time is
    accepted with any height, and one with the right height with any time: it is refused
    only if both are wrong. *)
Theorem optimism_height_forged height timestamp :
  world_slot (world output_storage) contract (output_key 1)
    = Some (to_be_bytes 32 (812 * 2 ^ 128 + 1700)) /\
  verify_optimism_payload (output height 1700) state_root contract Demo.csid
    = Some (Ok (mkIntermediateState (mkStateMachineHeight (mkStateMachineId evm_default Demo.csid) height)
        (mkStateCommitment 1700 None l2_root))) /\
  verify_optimism_payload (output 812 timestamp) state_root contract Demo.csid
    = Some (Ok (mkIntermediateState (mkStateMachineHeight (mkStateMachineId evm_default Demo.csid) 812)
        (mkStateCommitment timestamp None l2_root))).
Proof.
  split; [vm_compute; reflexivity|]. split; [vm_compute; reflexivity|].
  vm_compute. by destruct (match timestamp with Z0 => _ | _ => _ end).
Qed.
End outputs.

End EvmDemo.
