(* ===== verification/SyncCommittee.v ===== *)
(** * Sync committees of the beacon chain

    [modules/consensus/sync-committee/primitives/src/{constants, domains, types, util}.rs]
    and [verifier/src/{lib, crypto, error}.rs]: the light client of Ethereum and Gnosis. A
    committee of 512 validators signs headers of the beacon chain for a period; the state
    behind a signed header names the finalised header and the committee of the next
    period. SSZ hashing and the pairing curve are libraries. *)

From S2P Require Import Prelude StateMachine Router Messaging.

(** ** Constants *)

(** [hex!]: the bytes of a hexadecimal literal. *)
Definition hex_digit (c : byte) : Z :=
  let v := byte_val c in if v <? 58 then v - 48 else v - 87.
Fixpoint hex_bytes (l : bytes) : bytes :=
  match l with
  | a :: b :: r => byte_of_Z (hex_digit a * 16 + hex_digit b) :: hex_bytes r
  | _ => []
  end.
Definition hex (s : string) : bytes := hex_bytes (lit s).

Definition SYNC_COMMITTEE_SIZE : Z := 512.
Definition FINALIZED_ROOT_INDEX : Z := 52.
Definition EXECUTION_PAYLOAD_INDEX : Z := 56.
Definition NEXT_SYNC_COMMITTEE_INDEX : Z := 55.
Definition FINALIZED_ROOT_INDEX_LOG2 : Z := 5.
Definition EXECUTION_PAYLOAD_INDEX_LOG2 : Z := 5.
Definition NEXT_SYNC_COMMITTEE_INDEX_LOG2 : Z := 5.

Definition BEACON_CONSENSUS_ID : ConsensusClientId := (Byte.x42, Byte.x45, Byte.x41, Byte.x43).
Definition GNOSIS_CONSENSUS_ID : ConsensusClientId := (Byte.x47, Byte.x4e, Byte.x4f, Byte.x53).

(** The trait [Config]: the constants of a network. *)
Record BeaconConfig : Type := mkBeaconConfig {
  SLOTS_PER_EPOCH : Z;
  GENESIS_VALIDATORS_ROOT : bytes;
  BELLATRIX_FORK_VERSION : bytes;
  ALTAIR_FORK_VERSION : bytes;
  GENESIS_FORK_VERSION : bytes;
  ALTAIR_FORK_EPOCH : Z;
  BELLATRIX_FORK_EPOCH : Z;
  CAPELLA_FORK_EPOCH : Z;
  CAPELLA_FORK_VERSION : bytes;
  DENEB_FORK_EPOCH : Z;
  DENEB_FORK_VERSION : bytes;
  EPOCHS_PER_SYNC_COMMITTEE_PERIOD : Z;
  EXECUTION_PAYLOAD_STATE_ROOT_INDEX : Z;
  EXECUTION_PAYLOAD_BLOCK_NUMBER_INDEX : Z;
  EXECUTION_PAYLOAD_TIMESTAMP_INDEX : Z;
  CONFIG_ID : ConsensusClientId
}.

Definition Sepolia : BeaconConfig := {|
  SLOTS_PER_EPOCH := 32;
  GENESIS_VALIDATORS_ROOT := hex "d8ea171f3c94aea21ebc42a1ed61052acf3f9209c00e4efbaaddac09ed9b8078";
  BELLATRIX_FORK_VERSION := hex "90000071";
  ALTAIR_FORK_VERSION := hex "90000070";
  GENESIS_FORK_VERSION := hex "90000069";
  ALTAIR_FORK_EPOCH := 50;
  BELLATRIX_FORK_EPOCH := 100;
  CAPELLA_FORK_EPOCH := 56832;
  CAPELLA_FORK_VERSION := hex "90000072";
  DENEB_FORK_EPOCH := 132608;
  DENEB_FORK_VERSION := hex "90000073";
  EPOCHS_PER_SYNC_COMMITTEE_PERIOD := 256;
  EXECUTION_PAYLOAD_STATE_ROOT_INDEX := 34;
  EXECUTION_PAYLOAD_BLOCK_NUMBER_INDEX := 38;
  EXECUTION_PAYLOAD_TIMESTAMP_INDEX := 41;
  CONFIG_ID := BEACON_CONSENSUS_ID
|}.

Definition Mainnet : BeaconConfig := {|
  SLOTS_PER_EPOCH := 32;
  GENESIS_VALIDATORS_ROOT := hex "4b363db94e286120d76eb905340fdd4e54bfe9f06bf33ff6cf5ad27f511bfe95";
  BELLATRIX_FORK_VERSION := hex "02000000";
  ALTAIR_FORK_VERSION := hex "01000000";
  GENESIS_FORK_VERSION := hex "00000000";
  ALTAIR_FORK_EPOCH := 74240;
  BELLATRIX_FORK_EPOCH := 144896;
  CAPELLA_FORK_EPOCH := 194048;
  CAPELLA_FORK_VERSION := hex "03000000";
  DENEB_FORK_EPOCH := 269568;
  DENEB_FORK_VERSION := hex "04000000";
  EPOCHS_PER_SYNC_COMMITTEE_PERIOD := 256;
  EXECUTION_PAYLOAD_STATE_ROOT_INDEX := 34;
  EXECUTION_PAYLOAD_BLOCK_NUMBER_INDEX := 38;
  EXECUTION_PAYLOAD_TIMESTAMP_INDEX := 41;
  CONFIG_ID := BEACON_CONSENSUS_ID
|}.

Definition GnosisMainnet : BeaconConfig := {|
  SLOTS_PER_EPOCH := 16;
  GENESIS_VALIDATORS_ROOT := hex "f5dcb5564e829aab27264b9becd5dfaa017085611224cb3036f573368dbb9d47";
  BELLATRIX_FORK_VERSION := hex "02000064";
  ALTAIR_FORK_VERSION := hex "01000064";
  GENESIS_FORK_VERSION := hex "00000064";
  ALTAIR_FORK_EPOCH := 512;
  BELLATRIX_FORK_EPOCH := 385536;
  CAPELLA_FORK_EPOCH := 648704;
  CAPELLA_FORK_VERSION := hex "03000064";
  DENEB_FORK_EPOCH := 889856;
  DENEB_FORK_VERSION := hex "04000064";
  EPOCHS_PER_SYNC_COMMITTEE_PERIOD := 512;
  EXECUTION_PAYLOAD_STATE_ROOT_INDEX := 34;
  EXECUTION_PAYLOAD_BLOCK_NUMBER_INDEX := 38;
  EXECUTION_PAYLOAD_TIMESTAMP_INDEX := 41;
  CONFIG_ID := GNOSIS_CONSENSUS_ID
|}.

Definition GnosisTestnet : BeaconConfig := {|
  SLOTS_PER_EPOCH := 16;
  GENESIS_VALIDATORS_ROOT := hex "9d642dac73058fbf39c0ae41ab1e34e4d889043cb199851ded7095bc99eb4c1e";
  BELLATRIX_FORK_VERSION := hex "0200006f";
  ALTAIR_FORK_VERSION := hex "0100006f";
  GENESIS_FORK_VERSION := hex "0000006f";
  ALTAIR_FORK_EPOCH := 90;
  BELLATRIX_FORK_EPOCH := 180;
  CAPELLA_FORK_EPOCH := 244224;
  CAPELLA_FORK_VERSION := hex "0300006f";
  DENEB_FORK_EPOCH := 516608;
  DENEB_FORK_VERSION := hex "0400006f";
  EPOCHS_PER_SYNC_COMMITTEE_PERIOD := 512;
  EXECUTION_PAYLOAD_STATE_ROOT_INDEX := 34;
  EXECUTION_PAYLOAD_BLOCK_NUMBER_INDEX := 38;
  EXECUTION_PAYLOAD_TIMESTAMP_INDEX := 41;
  CONFIG_ID := GNOSIS_CONSENSUS_ID
|}.

Definition Devnet : BeaconConfig := {|
  SLOTS_PER_EPOCH := 32;
  GENESIS_VALIDATORS_ROOT := hex "83431ec7fcf92cfc44947fc0418e831c25e1d0806590231c439830db7ad54fda";
  BELLATRIX_FORK_VERSION := hex "52525502";
  ALTAIR_FORK_VERSION := hex "52525501";
  GENESIS_FORK_VERSION := hex "52525500";
  ALTAIR_FORK_EPOCH := 0;
  BELLATRIX_FORK_EPOCH := 0;
  CAPELLA_FORK_EPOCH := 0;
  CAPELLA_FORK_VERSION := hex "52525503";
  DENEB_FORK_EPOCH := 0;
  DENEB_FORK_VERSION := hex "52525504";
  EPOCHS_PER_SYNC_COMMITTEE_PERIOD := 4;
  EXECUTION_PAYLOAD_STATE_ROOT_INDEX := 34;
  EXECUTION_PAYLOAD_BLOCK_NUMBER_INDEX := 38;
  EXECUTION_PAYLOAD_TIMESTAMP_INDEX := 41;
  CONFIG_ID := BEACON_CONSENSUS_ID
|}.

(** ** Data *)

Abbreviation Root := (list Init.Byte.byte) (only parsing).

Record BeaconBlockHeader : Type := mkBeaconBlockHeader {
  bh_slot : Z;
  bh_proposer_index : Z;
  bh_parent_root : Root;
  bh_state_root : Root;
  bh_body_root : Root
}.

Record Checkpoint : Type := mkCheckpoint { cp_epoch : Z; cp_root : Root }.

Record SyncAggregate : Type := mkSyncAggregate {
  sa_sync_committee_bits : list bool;
  sa_sync_committee_signature : bytes
}.

Record SyncCommittee : Type := mkSyncCommittee {
  sc_public_keys : list bytes;
  sc_aggregate_public_key : bytes
}.

Record ForkData : Type := mkForkData {
  fd_current_version : bytes;
  fd_genesis_validators_root : Root
}.

Record SigningData : Type := mkSigningData { sd_object_root : Root; sd_domain : bytes }.

Record ExecutionPayloadProof : Type := mkExecutionPayloadProof {
  ep_state_root : H256;
  ep_block_number : Z;
  ep_multi_proof : list Root;
  ep_execution_payload_branch : list Root;
  ep_timestamp : Z
}.

Record SyncCommitteeUpdate : Type := mkSyncCommitteeUpdate {
  cu_next_sync_committee : SyncCommittee;
  cu_next_sync_committee_branch : list Root
}.

Record VerifierState : Type := mkVerifierState {
  vs_finalized_header : BeaconBlockHeader;
  vs_latest_finalized_epoch : Z;
  vs_current_sync_committee : SyncCommittee;
  vs_next_sync_committee : SyncCommittee;
  vs_state_period : Z
}.

Record FinalityBranch : Type := mkFinalityBranch {
  fb_epoch : Z;
  fb_finality_branch : list Root
}.

Record VerifierStateUpdate : Type := mkVerifierStateUpdate {
  vu_attested_header : BeaconBlockHeader;
  vu_sync_committee_update : option SyncCommitteeUpdate;
  vu_finalized_header : BeaconBlockHeader;
  vu_execution_payload : ExecutionPayloadProof;
  vu_finality_proof : FinalityBranch;
  vu_sync_aggregate : SyncAggregate;
  vu_signature_slot : Z
}.

Inductive SyncError : Type :=
| SyncCommitteeParticipantsTooLow
| InvalidUpdate (text : bytes)
| DomainError
| InvalidMerkleBranch (text : bytes)
| InvalidRoot (text : bytes)
| MerkleizationError (text : bytes)
| SignatureVerification.

(** ** Libraries *)

(** [ssz_rs]: the roots of values, Merkle branches, and multi-proofs, which panic when
    the proof does not have the right number of nodes. *)
Class Ssz : Type := {
  root_of_header : BeaconBlockHeader -> option Root;
  root_of_checkpoint : Checkpoint -> option Root;
  root_of_committee : SyncCommittee -> option Root;
  root_of_fork_data : ForkData -> option Root;
  root_of_signing_data : SigningData -> option Root;
  root_of_u64 : Z -> option Root;
  is_valid_merkle_branch : Root -> list Root -> Z -> Z -> Root -> bool;
  calculate_multi_merkle_root : list Root -> list Root -> list Z -> option Root
}.

(** [bls_on_arkworks] and [ark_bls12_381]: points, with the texts of the errors, and the
    pairing. *)
Class Bls : Type := {
  G1 : Type;
  G2 : Type;
  Gt : Type;
  Gt_eq_dec :: EqDecision Gt;
  pubkey_to_point : bytes -> result bytes G1;
  g1_sub : G1 -> G1 -> G1;
  g1_generator : G1;
  signature_to_point : bytes -> result bytes G2;
  signature_subgroup_check : G2 -> bool;
  hash_to_point : bytes -> bytes -> G2;
  bls_pairing : G1 -> G2 -> Gt;
  DST_ETHEREUM : bytes
}.

(** ** Domains, epochs and periods *)

Inductive DomainType : Type :=
| BeaconProposer | BeaconAttester | Randao | Deposit | VoluntaryExit | SelectionProof
| AggregateAndProof | DomainSyncCommittee | SyncCommitteeSelectionProof | ContributionAndProof
| BlsToExecutionChange | ApplicationMask | ApplicationBuilder.

Definition domain_discriminant (d : DomainType) : Z :=
  match d with
  | BeaconProposer => 0 | BeaconAttester => 1 | Randao => 2 | Deposit => 3 | VoluntaryExit => 4
  | SelectionProof => 5 | AggregateAndProof => 6 | DomainSyncCommittee => 7
  | SyncCommitteeSelectionProof => 8 | ContributionAndProof => 9 | BlsToExecutionChange => 10
  | ApplicationMask => 11 | ApplicationBuilder => 12
  end.

Definition domain_bytes (d : DomainType) : bytes :=
  match d with
  | ApplicationMask | ApplicationBuilder => [Byte.x00; Byte.x00; Byte.x00; Byte.x01]
  | _ => reverse (to_be_bytes 4 (domain_discriminant d))
  end.

Definition should_have_sync_committee_update (state_period signature_period : Z) : bool :=
  signature_period =? wrap64 (state_period + 1).

Section config.
Variable C : BeaconConfig.

Definition compute_sync_committee_period (epoch : Z) : Z := epoch / EPOCHS_PER_SYNC_COMMITTEE_PERIOD C.

Definition compute_epoch_at_slot (slot : Z) : Z := slot / SLOTS_PER_EPOCH C.

Definition compute_sync_committee_period_at_slot (slot : Z) : Z :=
  compute_sync_committee_period (compute_epoch_at_slot slot).

Definition compute_fork_version (epoch : Z) : bytes :=
  if DENEB_FORK_EPOCH C <=? epoch then DENEB_FORK_VERSION C
  else if CAPELLA_FORK_EPOCH C <=? epoch then CAPELLA_FORK_VERSION C
  else if BELLATRIX_FORK_EPOCH C <=? epoch then BELLATRIX_FORK_VERSION C
  else if ALTAIR_FORK_EPOCH C <=? epoch then ALTAIR_FORK_VERSION C
  else GENESIS_FORK_VERSION C.

End config.

Section verifier.
Context `{!Ssz, !Bls}.

Definition compute_fork_data_root (current_version : bytes) (genesis_validators_root : Root) : option Root :=
  root_of_fork_data (mkForkData current_version genesis_validators_root).

Definition compute_domain (domain_type : DomainType) (fork_version : option bytes)
    (genesis_validators_root : option Root) (genesis_fork_version : bytes) : option bytes :=
  fork_data_root ← compute_fork_data_root (default genesis_fork_version fork_version)
    (default (replicate 32 Byte.x00) genesis_validators_root);
  Some (domain_bytes domain_type ++ take 28 fork_data_root).

Definition compute_signing_root (header : BeaconBlockHeader) (domain : bytes) : option Root :=
  object_root ← root_of_header header; root_of_signing_data (mkSigningData object_root domain).

(** ** Signatures *)

Fixpoint pubkeys_to_points (points : list bytes) : result bytes (list G1) :=
  match points with
  | [] => Ok []
  | p :: r =>
      match pubkey_to_point p with
      | Err e => Err e
      | Ok q => match pubkeys_to_points r with Err e => Err e | Ok qs => Ok (q :: qs) end
      end
  end.

Definition subtract_points_from_aggregate (aggregate : bytes) (points : list bytes) : result bytes G1 :=
  match pubkey_to_point aggregate with
  | Err e => Err e
  | Ok aggregate =>
      match pubkeys_to_points points with
      | Err e => Err e
      | Ok points => Ok (fold_left g1_sub points aggregate)
      end
  end.

Definition pairing (u : G2) (v : G1) : Gt := bls_pairing v u.

Definition verify_aggregate_signature (aggregate : bytes) (non_participants : list bytes) (msg : bytes)
    (signature : bytes) : result AnyError unit :=
  match subtract_points_from_aggregate aggregate non_participants with
  | Err e => Err (AnyMessage e)
  | Ok aggregate_key_point =>
      match signature_to_point signature with
      | Err e => Err (AnyMessage e)
      | Ok signature =>
          if negb (signature_subgroup_check signature)
          then Err (AnyMessage (lit "Signature not in subgroup"))
          else
            let q := hash_to_point msg DST_ETHEREUM in
            let c1 := pairing q aggregate_key_point in
            let c2 := pairing signature g1_generator in
            if bool_decide (c1 = c2) then Ok tt
            else Err (AnyMessage (lit "Aggregate signature verification failed"))
      end
  end.

(** ** The verifier *)

Definition count_ones (bits : list bool) : Z := Z.of_nat (length (filter (fun b => b = true) bits)).

Definition non_participants (bits : list bool) (keys : list bytes) : list bytes :=
  omap (fun e : bool * bytes => if e.1 then None else Some e.2) (zip bits keys).

Definition verify_sync_committee_attestation (C : BeaconConfig) (trusted_state : VerifierState)
    (update : VerifierStateUpdate) : V SyncError VerifierState :=
  let finality_proof := vu_finality_proof update in
  let attested := vu_attested_header update in
  let! _ := vguard
      (negb (Z.of_nat (length (fb_finality_branch finality_proof)) =? FINALIZED_ROOT_INDEX_LOG2)
       && match vu_sync_committee_update update with
          | Some u => negb (Z.of_nat (length (cu_next_sync_committee_branch u))
                            =? NEXT_SYNC_COMMITTEE_INDEX_LOG2)
          | None => false
          end)
      (InvalidUpdate (lit "Finality branch is incorrect")) in
  let sync_committee_bits := sa_sync_committee_bits (vu_sync_aggregate update) in
  let! _ := vguard
      (count_ones sync_committee_bits <? 2 * Z.of_nat (length sync_committee_bits) / 3 + 1)
      SyncCommitteeParticipantsTooLow in
  let! _ := vguard
      (negb ((bh_slot attested <? vu_signature_slot update)
             && (bh_slot (vu_finalized_header update) <? bh_slot attested)))
      (InvalidUpdate (lit "relationship between slots does not meet the requirements")) in
  let state_period := vs_state_period trusted_state in
  let update_signature_period := compute_sync_committee_period_at_slot C (vu_signature_slot update) in
  let! _ := vguard
      (negb ((state_period <=? update_signature_period)
             && (update_signature_period <=? wrap64 (state_period + 1))))
      (InvalidUpdate (lit "State period does not contain signature period")) in
  let! _ := vguard
      ((bh_slot attested <=? bh_slot (vs_finalized_header trusted_state))
       || (fb_epoch finality_proof <=? vs_latest_finalized_epoch trusted_state))
      (InvalidUpdate (lit "Update is expired")) in
  let sync_committee :=
    if update_signature_period =? state_period then vs_current_sync_committee trusted_state
    else vs_next_sync_committee trusted_state in
  let non_participant_pubkeys :=
    non_participants sync_committee_bits (sc_public_keys sync_committee) in
  let fork_version := compute_fork_version C (compute_epoch_at_slot C (vu_signature_slot update)) in
  let! domain := vlift (ok_or (compute_domain DomainSyncCommittee (Some fork_version)
        (Some (GENESIS_VALIDATORS_ROOT C)) (GENESIS_FORK_VERSION C))
      (InvalidUpdate (lit "Failed to compute domain"))) in
  let! signing_root := vlift (ok_or (compute_signing_root attested domain)
      (InvalidRoot (lit "Failed to compute signing root"))) in
  let! _ := vlift (map_err (fun _ => SignatureVerification)
      (verify_aggregate_signature (sc_aggregate_public_key sync_committee) non_participant_pubkeys
        signing_root (sa_sync_committee_signature (vu_sync_aggregate update)))) in
  let! finalized_root := vlift (ok_or (root_of_header (vu_finalized_header update))
      (MerkleizationError (lit "Error hashing finalized header"))) in
  let! checkpoint_root := vlift (ok_or
      (root_of_checkpoint (mkCheckpoint (fb_epoch finality_proof) finalized_root))
      (MerkleizationError (lit "Failed to hash finality checkpoint"))) in
  let! _ := vguard (negb (is_valid_merkle_branch checkpoint_root (fb_finality_branch finality_proof)
        FINALIZED_ROOT_INDEX_LOG2 FINALIZED_ROOT_INDEX (bh_state_root attested)))
      (InvalidMerkleBranch (lit "Finality branch")) in
  let execution_payload := vu_execution_payload update in
  let! number_root := vlift (ok_or (root_of_u64 (ep_block_number execution_payload))
      (MerkleizationError (lit "Failed to hash execution payload"))) in
  let! timestamp_root := vlift (ok_or (root_of_u64 (ep_timestamp execution_payload))
      (MerkleizationError (lit "Failed to hash timestamp"))) in
  get! execution_payload_root := calculate_multi_merkle_root
      [ep_state_root execution_payload; number_root; timestamp_root]
      (ep_multi_proof execution_payload)
      [EXECUTION_PAYLOAD_STATE_ROOT_INDEX C; EXECUTION_PAYLOAD_BLOCK_NUMBER_INDEX C;
       EXECUTION_PAYLOAD_TIMESTAMP_INDEX C] in
  let! _ := vguard (negb (is_valid_merkle_branch execution_payload_root
        (ep_execution_payload_branch execution_payload) EXECUTION_PAYLOAD_INDEX_LOG2
        EXECUTION_PAYLOAD_INDEX (bh_state_root (vu_finalized_header update))))
      (InvalidMerkleBranch (lit "Execution payload branch")) in
  let! _ :=
    match vu_sync_committee_update update with
    | Some sync_committee_update =>
        let! sync_root := vlift (ok_or
            (root_of_committee (cu_next_sync_committee sync_committee_update))
            (MerkleizationError (lit "Failed to hash next sync committee"))) in
        vguard (negb (is_valid_merkle_branch sync_root
              (cu_next_sync_committee_branch sync_committee_update)
              NEXT_SYNC_COMMITTEE_INDEX_LOG2 NEXT_SYNC_COMMITTEE_INDEX (bh_state_root attested)))
            (InvalidMerkleBranch (lit "Next sync committee branch"))
    | None => vret tt
    end in
  if should_have_sync_committee_update state_period update_signature_period then
    match vu_sync_committee_update update with
    | Some sync_committee_update =>
        vret (mkVerifierState (vu_finalized_header update) (fb_epoch finality_proof)
          (vs_next_sync_committee trusted_state) (cu_next_sync_committee sync_committee_update)
          (wrap64 (state_period + 1)))
    | None => verr (InvalidUpdate (lit "Expected sync committee update to be present"))
    end
  else
    vret (mkVerifierState (vu_finalized_header update) (fb_epoch finality_proof)
      (vs_current_sync_committee trusted_state) (vs_next_sync_committee trusted_state)
      (vs_state_period trusted_state)).

End verifier.
