(* ===== verification/SyncProps.v ===== *)
(** * What the sync committee verifier shows *)

From S2P Require Import Prelude StateMachine Router Messaging SyncCommittee.

(** ** Fork versions *)

(** The forks of a network in the order in which they are tried. *)
Definition forks (C : BeaconConfig) : list (Z * bytes) :=
  [(DENEB_FORK_EPOCH C, DENEB_FORK_VERSION C); (CAPELLA_FORK_EPOCH C, CAPELLA_FORK_VERSION C);
   (BELLATRIX_FORK_EPOCH C, BELLATRIX_FORK_VERSION C); (ALTAIR_FORK_EPOCH C, ALTAIR_FORK_VERSION C);
   (0, GENESIS_FORK_VERSION C)].

(** [version] is that of the latest fork that is active at [epoch]. *)
Definition active_fork (C : BeaconConfig) (epoch : Z) (version : bytes) : Prop :=
  exists start, (start, version) ∈ forks C /\ start <= epoch /\
    forall start' version', (start', version') ∈ forks C -> start' <= epoch -> start' <= start.

Definition forks_ordered (C : BeaconConfig) : Prop :=
  0 <= ALTAIR_FORK_EPOCH C <= BELLATRIX_FORK_EPOCH C /\
  BELLATRIX_FORK_EPOCH C <= CAPELLA_FORK_EPOCH C <= DENEB_FORK_EPOCH C.

Lemma active_fork_intro C epoch start version :
  (start, version) ∈ forks C -> start <= epoch ->
  Forall (fun f : Z * bytes => f.1 <= epoch -> f.1 <= start) (forks C) -> active_fork C epoch version.
Proof.
  intros Hin Hle Hall. exists start. split_and!; [done..|]. intros s v Hs.
  by apply (Forall_forall _ _) with (x := (s, v)) in Hall.
Qed.

(** on a network whose forks are listed in order, and on all the networks that are
    configured, the fork version of an epoch is that of the latest fork that is active. *)
Theorem fork_version_active C epoch :
  C ∈ [Sepolia; Mainnet; GnosisMainnet; GnosisTestnet; Devnet] \/ forks_ordered C ->
  0 <= epoch -> active_fork C epoch (compute_fork_version C epoch).
Proof.
  intros HC He. assert (forks_ordered C) as (Ho1 & Ho2).
  { destruct HC as [HC|]; [|done]. repeat (apply elem_of_cons in HC as [->|HC]; [vm_compute; naive_solver|]).
    by apply elem_of_nil in HC. }
  unfold compute_fork_version.
  repeat (case_match; [rewrite ?Z.leb_le, ?Z.leb_gt in *; eapply active_fork_intro;
    [|eassumption|unfold forks; repeat constructor; cbn; lia]; unfold forks; set_solver|]).
  rewrite ?Z.leb_gt in *. apply (active_fork_intro C epoch 0); [unfold forks; set_solver|done|].
  unfold forks. repeat constructor; cbn; lia.
Qed.

(** ** Signatures *)

(** The group of the public keys. *)
Class BlsGroup `{!Bls} : Type := {
  g1_zero : G1;
  g1_add : G1 -> G1 -> G1;
  g1_add_assoc x y z : g1_add x (g1_add y z) = g1_add (g1_add x y) z;
  g1_add_comm x y : g1_add x y = g1_add y x;
  g1_add_zero x : g1_add g1_zero x = x;
  g1_add_sub x y : g1_sub (g1_add x y) y = x
}.

Section signatures.
Context `{!Bls, !BlsGroup}.

Definition sum_points (l : list G1) : G1 := foldr g1_add g1_zero l.

(** The keys whose bit is [b]. *)
Definition having (b : bool) (bits : list bool) (points : list G1) : list G1 :=
  omap (fun e : bool * G1 => if bool_decide (e.1 = b) then Some e.2 else None) (zip bits points).

Lemma sum_having bits points :
  length bits = length points ->
  sum_points points = g1_add (sum_points (having true bits points)) (sum_points (having false bits points)).
Proof.
  revert points; induction bits as [|b bits IH]; intros [|p points] Hl; try done.
  { cbn. by rewrite g1_add_zero. }
  cbn in Hl. cbn [sum_points foldr]. change (foldr g1_add g1_zero points) with (sum_points points).
  rewrite (IH points) by lia. unfold having. cbn. destruct b; cbn.
  - by rewrite g1_add_assoc.
  - by rewrite g1_add_assoc, (g1_add_comm p), <- g1_add_assoc.
Qed.

Lemma subtract_all l a : fold_left g1_sub l (g1_add a (sum_points l)) = a.
Proof.
  revert a; induction l as [|p l IH]; intros a; cbn.
  - by rewrite g1_add_comm, g1_add_zero.
  - rewrite (g1_add_comm p), g1_add_assoc, g1_add_sub. apply IH.
Qed.

Lemma pubkeys_having bits keys points :
  Forall2 (fun k p => pubkey_to_point k = Ok p) keys points ->
  pubkeys_to_points (non_participants bits keys) = Ok (having false bits points).
Proof.
  intros HF. revert bits; induction HF as [|k p keys points Hk _ IH]; intros [|b bits]; try done.
  unfold non_participants, having. cbn. destruct b; cbn; [apply IH|].
  rewrite Hk. unfold non_participants in IH. by rewrite IH.
Qed.

(** the key under which a signature is verified is the sum of the keys of the members
    who took part, when the aggregate key of the committee is the sum of all its keys. *)
Theorem participants_key aggregate keys points bits :
  Forall2 (fun k p => pubkey_to_point k = Ok p) keys points ->
  length bits = length keys -> pubkey_to_point aggregate = Ok (sum_points points) ->
  subtract_points_from_aggregate aggregate (non_participants bits keys)
  = Ok (sum_points (having true bits points)).
Proof.
  intros HF Hl Ha. unfold subtract_points_from_aggregate. rewrite Ha, (pubkeys_having _ _ _ HF).
  rewrite (sum_having bits points) by (rewrite Hl; by eapply Forall2_length).
  by rewrite subtract_all.
Qed.

End signatures.

(** ** Updates *)

Section updates.
Context `{!Ssz, !Bls} (C : BeaconConfig).

Abbreviation period u := (compute_sync_committee_period_at_slot C (vu_signature_slot u)).

(** The committee of the period in which the update was signed. *)
Definition signing_committee (s : VerifierState) (u : VerifierStateUpdate) : SyncCommittee :=
  if period u =? vs_state_period s then vs_current_sync_committee s else vs_next_sync_committee s.

(** The bytes that the committee signs. *)
Definition signed_root (u : VerifierStateUpdate) : option Root :=
  domain ← compute_domain DomainSyncCommittee
    (Some (compute_fork_version C (compute_epoch_at_slot C (vu_signature_slot u))))
    (Some (GENESIS_VALIDATORS_ROOT C)) (GENESIS_FORK_VERSION C);
  compute_signing_root (vu_attested_header u) domain.

(** A branch shows [leaf] at an index of the state of a header. *)
Definition in_state (leaf : Root) (branch : list Root) (depth index : Z) (h : BeaconBlockHeader) : Prop :=
  is_valid_merkle_branch leaf branch depth index (bh_state_root h) = true.

Record attested (s : VerifierState) (u : VerifierStateUpdate) : Prop := {
  att_majority : 2 * Z.of_nat (length (sa_sync_committee_bits (vu_sync_aggregate u)))
    < 3 * count_ones (sa_sync_committee_bits (vu_sync_aggregate u));
  att_signed : exists root, signed_root u = Some root /\
    verify_aggregate_signature (sc_aggregate_public_key (signing_committee s u))
      (non_participants (sa_sync_committee_bits (vu_sync_aggregate u))
        (sc_public_keys (signing_committee s u)))
      root (sa_sync_committee_signature (vu_sync_aggregate u)) = Ok tt;
  att_slots : bh_slot (vu_finalized_header u) < bh_slot (vu_attested_header u) < vu_signature_slot u;
  att_period : vs_state_period s <= period u <= wrap64 (vs_state_period s + 1);
  att_newer : bh_slot (vs_finalized_header s) < bh_slot (vu_attested_header u) /\
    vs_latest_finalized_epoch s < fb_epoch (vu_finality_proof u)
}.

(** The finalised header and its execution payload are those of the attested state. *)
Record finalised (u : VerifierStateUpdate) : Prop := {
  fin_header : exists header_root root, root_of_header (vu_finalized_header u) = Some header_root /\
    root_of_checkpoint (mkCheckpoint (fb_epoch (vu_finality_proof u)) header_root) = Some root /\
    in_state root (fb_finality_branch (vu_finality_proof u)) FINALIZED_ROOT_INDEX_LOG2
      FINALIZED_ROOT_INDEX (vu_attested_header u);
  fin_payload : let p := vu_execution_payload u in
    exists number timestamp root, root_of_u64 (ep_block_number p) = Some number /\
    root_of_u64 (ep_timestamp p) = Some timestamp /\
    calculate_multi_merkle_root [ep_state_root p; number; timestamp] (ep_multi_proof p)
      [EXECUTION_PAYLOAD_STATE_ROOT_INDEX C; EXECUTION_PAYLOAD_BLOCK_NUMBER_INDEX C;
       EXECUTION_PAYLOAD_TIMESTAMP_INDEX C] = Some root /\
    in_state root (ep_execution_payload_branch p) EXECUTION_PAYLOAD_INDEX_LOG2
      EXECUTION_PAYLOAD_INDEX (vu_finalized_header u)
}.

(** The committee of an update is the next one of the attested state. *)
Definition committee_proved (u : VerifierStateUpdate) : Prop :=
  forall c, vu_sync_committee_update u = Some c -> exists root,
    root_of_committee (cu_next_sync_committee c) = Some root /\
    in_state root (cu_next_sync_committee_branch c) NEXT_SYNC_COMMITTEE_INDEX_LOG2
      NEXT_SYNC_COMMITTEE_INDEX (vu_attested_header u).

(** The state after an update. *)
Definition rotated (s s' : VerifierState) (u : VerifierStateUpdate) : Prop :=
  if period u =? wrap64 (vs_state_period s + 1)
  then exists c, vu_sync_committee_update u = Some c /\
         vs_current_sync_committee s' = vs_next_sync_committee s /\
         vs_next_sync_committee s' = cu_next_sync_committee c /\
         vs_state_period s' = wrap64 (vs_state_period s + 1)
  else vs_current_sync_committee s' = vs_current_sync_committee s /\
       vs_next_sync_committee s' = vs_next_sync_committee s /\ vs_state_period s' = vs_state_period s.

Lemma majority n k : n <? 2 * k / 3 + 1 = false -> 2 * k < 3 * n.
Proof. intros Hn%Z.ltb_ge. pose proof (Z.div_mod (2 * k) 3 ltac:(lia)). pose proof (Z.mod_pos_bound (2 * k) 3). lia. Qed.

Lemma signature_ok a n m s : map_err (fun _ : AnyError => SignatureVerification)
    (verify_aggregate_signature a n m s) = Ok tt -> verify_aggregate_signature a n m s = Ok tt.
Proof. by destruct (verify_aggregate_signature a n m s) as [[]|]. Qed.

(** C21: an accepted update was signed by more than two thirds of the committee of its
    period, and everything the client learns from it is proved in the signed state: the
    finalised header, its execution payload, and the next committee. The finalised epoch
    increases. The committees change exactly when the update is of the next period; then
    the next committee becomes the current one, and the period increases by one. *)
Theorem sync_update_verified s u s' :
  verify_sync_committee_attestation C s u = Some (Ok s') ->
  attested s u /\ finalised u /\ committee_proved u /\ rotated s s' u /\
  vs_finalized_header s' = vu_finalized_header u /\
  vs_latest_finalized_epoch s' = fb_epoch (vu_finality_proof u).
Proof.
  unfold verify_sync_committee_attestation. intros Hv.
  vcheck Hv Q0. vcheck Hv Q1. vcheck Hv Q2. vcheck Hv Q3. vcheck Hv Q4.
  vstep Hv domain Hd. apply vlift_ok, ok_or_ok in Hd. vstep Hv root Hr. apply vlift_ok, ok_or_ok in Hr.
  vstep Hv v Hsig. destruct v. apply vlift_ok, signature_ok in Hsig.
  vstep Hv hroot Hh. apply vlift_ok, ok_or_ok in Hh. vstep Hv croot Hc. apply vlift_ok, ok_or_ok in Hc.
  vcheck Hv Q5. apply negb_false_iff in Q5.
  vstep Hv nroot Hn. apply vlift_ok, ok_or_ok in Hn. vstep Hv troot Ht. apply vlift_ok, ok_or_ok in Ht.
  apply vget_ok in Hv as (proot & Hp & Hv). vcheck Hv Q6. apply negb_false_iff in Q6.
  vstep Hv v' Hcom. apply negb_false_iff in Q2, Q3. apply andb_true_iff in Q2 as [Q2 Q2'], Q3 as [Q3 Q3'].
  apply orb_false_iff in Q4 as [Q4 Q4'].
  rewrite ?Z.ltb_lt, ?Z.leb_le, ?Z.leb_gt in *.
  assert (attested s u) as Hatt.
  { split; [by apply majority| |done|done|done]. exists root. unfold signed_root. by rewrite Hd. }
  assert (finalised u) as Hfin.
  { split; [by exists hroot, croot|by exists nroot, troot, proot]. }
  assert (committee_proved u) as Hcp.
  { intros c Hu. rewrite Hu in Hcom. vstep Hcom cr Hcr. apply vlift_ok, ok_or_ok in Hcr.
    exists cr. split; [done|]. by apply vguard_ok, negb_false_iff in Hcom. }
  split; [done|]. split; [done|]. split; [done|]. unfold rotated.
  unfold should_have_sync_committee_update in Hv.
  destruct (period u =? wrap64 (vs_state_period s + 1)).
  - destruct (vu_sync_committee_update u) as [c|]; [|done]. unfold vret in Hv. injection Hv as <-.
    split; [by exists c|done].
  - unfold vret in Hv. by injection Hv as <-.
Qed.

(** ** Sequences of updates *)

Lemma update_progress s u s' :
  verify_sync_committee_attestation C s u = Some (Ok s') -> is_u64 (vs_state_period s) ->
  vs_latest_finalized_epoch s < vs_latest_finalized_epoch s' /\
  vs_state_period s <= vs_state_period s' <= vs_state_period s + 1 /\ is_u64 (vs_state_period s').
Proof.
  intros (Hatt & _ & _ & Hrot & _ & ->)%sync_update_verified [Hl Hu].
  destruct (att_newer _ _ Hatt) as [_ He]. destruct (att_period _ _ Hatt) as [Hp1 Hp2].
  split; [done|]. unfold rotated in Hrot. destruct (Z.eqb_spec (period u) (wrap64 (vs_state_period s + 1))) as [E|_].
  - destruct Hrot as (_ & _ & _ & _ & ->). assert (vs_state_period s + 1 < 2 ^ 64) as Hw.
    { unfold u64_max in Hu. unfold wrap64 in *. destruct (Z.eq_dec (vs_state_period s + 1) (2 ^ 64)) as [Eq|]; [|lia].
      rewrite Eq in Hp2. change (2 ^ 64 mod 2 ^ 64) with 0 in Hp2. lia. }
    unfold wrap64. rewrite Z.mod_small by lia. unfold is_u64, u64_max. lia.
  - destruct Hrot as (_ & _ & ->). unfold is_u64. lia.
Qed.

(** along every sequence of accepted updates the finalised epoch increases with every
    update, and the period never decreases and never skips more than one committee per
    update. In particular no update is accepted twice. *)
Theorem sync_updates_progress s us s' :
  is_u64 (vs_state_period s) -> vfold (verify_sync_committee_attestation C) s us = Some (Ok s') ->
  vs_latest_finalized_epoch s + Z.of_nat (length us) <= vs_latest_finalized_epoch s' /\
  vs_state_period s <= vs_state_period s' <= vs_state_period s + Z.of_nat (length us) /\ NoDup us.
Proof.
  revert s; induction us as [|u us IH]; intros s Hs Hv; cbn [vfold length] in Hv |- *.
  { unfold vret in Hv. injection Hv as ->. split_and!; [lia..|constructor]. }
  vstep Hv s1 H1. destruct (update_progress _ _ _ H1 Hs) as (He & Hp & Hs1).
  destruct (IH s1 Hs1 Hv) as (He' & Hp' & Hnd). split_and!; [lia..|]. constructor; [|done].
  intros Hin. assert (forall us s s', vfold (verify_sync_committee_attestation C) s us = Some (Ok s') ->
    forall u, u ∈ us -> vs_latest_finalized_epoch s < fb_epoch (vu_finality_proof u)) as Hnewer.
  { clear. induction us as [|v us IH]; intros s s' Hv u Hu; [by apply elem_of_nil in Hu|].
    cbn in Hv. vstep Hv s1 H1. apply sync_update_verified in H1 as (Hatt & _ & _ & _ & _ & Hl).
    destruct (att_newer _ _ Hatt) as [_ Hn]. apply elem_of_cons in Hu as [->|Hu]; [done|].
    specialize (IH _ _ Hv u Hu). lia. }
  specialize (Hnewer _ _ _ Hv u Hin). apply sync_update_verified in H1 as (_ & _ & _ & _ & _ & Hl). lia.
Qed.

End updates.
