(* ===== verification/BeaconClient.v ===== *)
(** * The beacon chain client

    [clients/sync-committee/src/{beacon_client, types, pallet}.rs]: the [ConsensusClient]
    that follows Ethereum or Gnosis by their sync committees, and with the state of
    Ethereum the rollups that settle there. *)

From S2P Require Import Prelude StateMachine Router Messaging Host ChildTrie PalletTypes Apps EvmKeys EvmMachine Rollups SyncCommittee SyncProps Handlers HostSpec.

(** ** Data *)

Inductive L2Consensus : Type :=
| ArbitrumOrbit (rollup_core_address : H160)
| OpL2Oracle (l2_oracle : H160)
| OpFaultProofs (dispute_game_factory : H160) (respected_game_type : Z).

Record BeaconConsensusState : Type := mkBeaconConsensusState {
  bcs_frozen_height : option Z;
  bcs_light_client_state : VerifierState;
  bcs_l2_consensus : list (StateMachine * L2Consensus);
  bcs_chain_id : Z
}.

Record BeaconClientUpdate : Type := mkBeaconClientUpdate {
  bcu_consensus_update : VerifierStateUpdate;
  bcu_l2_oracle_payload : list (StateMachine * OptimismPayloadProof);
  bcu_dispute_game_payload : list (StateMachine * OptimismDisputeGameProof);
  bcu_arbitrum_payload : list (StateMachine * ArbitrumPayloadProof)
}.

(** Chains that are supported without being listed. *)
Definition ARBITRUM_CHAIN_ID : Z := 42161.
Definition OPTIMISM_CHAIN_ID : Z := 10.
Definition BASE_CHAIN_ID : Z := 8453.
Definition ETHEREUM_CHAIN_ID : Z := 1.
Definition ARBITRUM_SEPOLIA_CHAIN_ID : Z := 421614.
Definition OPTIMISM_SEPOLIA_CHAIN_ID : Z := 11155420.
Definition BASE_SEPOLIA_CHAIN_ID : Z := 84532.
Definition SEPOLIA_CHAIN_ID : Z := 11155111.

Definition supported_chain_id (id : Z) : bool :=
  bool_decide (id ∈ [ETHEREUM_CHAIN_ID; SEPOLIA_CHAIN_ID; BASE_CHAIN_ID; BASE_SEPOLIA_CHAIN_ID;
    OPTIMISM_CHAIN_ID; OPTIMISM_SEPOLIA_CHAIN_ID; ARBITRUM_CHAIN_ID; ARBITRUM_SEPOLIA_CHAIN_ID]).

(** [{:?}] of an error; its texts have nothing to escape. *)
Definition debug_str (text : bytes) : bytes := [Byte.x22] ++ text ++ [Byte.x22].
Definition debug_SyncError (e : SyncError) : bytes :=
  match e with
  | SyncCommitteeParticipantsTooLow => lit "SyncCommitteeParticipantsTooLow"
  | InvalidUpdate t => lit "InvalidUpdate(" ++ debug_str t ++ lit ")"
  | DomainError => lit "DomainError"
  | InvalidMerkleBranch t => lit "InvalidMerkleBranch(" ++ debug_str t ++ lit ")"
  | InvalidRoot t => lit "InvalidRoot(" ++ debug_str t ++ lit ")"
  | MerkleizationError t => lit "MerkleizationError(" ++ debug_str t ++ lit ")"
  | SignatureVerification => lit "SignatureVerification"
  end.

(** ** The client *)

Section client.
Context `{Keccak256} `{!Ssz, !Bls, !EvmTrie, !RollupLib}.
Context `{!Codec BeaconClientUpdate, !Codec BeaconConsensusState, !Codec EvmStateProof}.

(** [C: Config] *)
Variable C : BeaconConfig.

Definition commitment_height (state : IntermediateState) : StateCommitmentHeight :=
  mkStateCommitmentHeight (is_commitment state) (smh_height (is_height state)).

(** The payloads that are left, and the commitments so far. *)
Record Progress : Type := mkProgress {
  pg_oracle : list (StateMachine * OptimismPayloadProof);
  pg_games : list (StateMachine * OptimismDisputeGameProof);
  pg_arbitrum : list (StateMachine * ArbitrumPayloadProof);
  pg_commitments : VerifiedCommitments
}.

Definition verify_l2 (state_root : H256) (consensus_state_id : ConsensusStateId) (p : Progress)
    (entry : StateMachine * L2Consensus) : V Error Progress :=
  let state_machine := entry.1 in
  let insert state := btree_insert compare_StateMachine state_machine [commitment_height state]
      (pg_commitments p) in
  match entry.2 with
  | ArbitrumOrbit rollup_core_address =>
      match btree_get compare_StateMachine state_machine (pg_arbitrum p) with
      | Some payload =>
          let! state := verify_arbitrum_payload payload state_root rollup_core_address
              consensus_state_id in
          vret (mkProgress (pg_oracle p) (pg_games p)
            (btree_remove compare_StateMachine state_machine (pg_arbitrum p)) (insert state))
      | None => vret p
      end
  | OpL2Oracle l2_oracle =>
      match btree_get compare_StateMachine state_machine (pg_oracle p) with
      | Some payload =>
          let! state := verify_optimism_payload payload state_root l2_oracle consensus_state_id in
          vret (mkProgress (btree_remove compare_StateMachine state_machine (pg_oracle p))
            (pg_games p) (pg_arbitrum p) (insert state))
      | None => vret p
      end
  | OpFaultProofs dispute_game_factory respected_game_type =>
      match btree_get compare_StateMachine state_machine (pg_games p) with
      | Some payload =>
          let! state := verify_optimism_dispute_game_proof payload state_root dispute_game_factory
              respected_game_type consensus_state_id in
          vret (mkProgress (pg_oracle p)
            (btree_remove compare_StateMachine state_machine (pg_games p)) (pg_arbitrum p) (insert state))
      | None => vret p
      end
  end.

Definition beacon_verify_consensus (consensus_state_id : ConsensusStateId)
    (trusted_consensus_state consensus_proof : bytes) : V Error (bytes * VerifiedCommitments) :=
  let! update := vlift (ok_or (decode consensus_proof)
      (Custom (lit "Cannot decode beacon client update"))) in
  let! consensus_state := vlift (ok_or (decode trusted_consensus_state)
      (Custom (lit "Cannot decode trusted consensus state"))) in
  let consensus_update := bcu_consensus_update update in
  get! verified := verify_sync_committee_attestation C
      (bcs_light_client_state consensus_state) consensus_update in
  let! new_light_client_state :=
      vlift (map_err (fun e => Custom (debug_SyncError e)) verified) in
  let payload := vu_execution_payload consensus_update in
  let state_root := ep_state_root payload in
  let! intermediate_state := vlift (construct_intermediate_state
      (Evm (bcs_chain_id consensus_state)) consensus_state_id (ep_block_number payload)
      (ep_timestamp payload) state_root) in
  let state_machine_map := btree_insert compare_StateMachine (Evm (bcs_chain_id consensus_state))
      [commitment_height intermediate_state] [] in
  let! p := vfold (verify_l2 state_root consensus_state_id)
      (mkProgress (bcu_l2_oracle_payload update) (bcu_dispute_game_payload update)
        (bcu_arbitrum_payload update) state_machine_map)
      (bcs_l2_consensus consensus_state) in
  let new_consensus_state := mkBeaconConsensusState None new_light_client_state
      (bcs_l2_consensus consensus_state) (bcs_chain_id consensus_state) in
  vret (encode new_consensus_state, pg_commitments p).

Context {St : Type}.
Variable EvmHosts : St -> gmap StateMachine H160.
Variable LayerTwos : gmap StateMachine bool.

Definition beacon_state_machine (id : StateMachine) : result Error (StateMachineClient St) :=
  match id with
  | Evm chain_id =>
      if supported_chain_id chain_id || bool_decide (is_Some (LayerTwos !! id))
      then Ok (evm_state_machine EvmHosts)
      else Err (Custom (lit "State machine not supported"))
  | _ => Err (Custom (lit "State machine not supported"))
  end.

Definition beacon_client : ConsensusClient St := {|
  verify_consensus _ := beacon_verify_consensus;
  verify_fraud_proof _ _ _ _ := verr (Custom (lit "fraud proof verification unimplemented"));
  client_id := CONFIG_ID C;
  state_machine := beacon_state_machine
|}.

End client.

(** ** The pallet *)

Inductive BeaconPalletError : Type :=
| ContractAddressAlreadyExists
| ErrorFetchingConsensusState
| ErrorDecodingConsensusState
| ErrorStoringConsensusState.

(** The host, and the storage of the pallet. *)
Record BeaconPallet (St : Type) : Type := mkBeaconPallet {
  bp_host : St;
  bp_LayerTwos : gmap StateMachine bool
}.
Arguments mkBeaconPallet {St}.
Arguments bp_host {St}.
Arguments bp_LayerTwos {St}.

Section pallet.
Context `{Keccak256} {St : Type} `{!IsmpHost St} `{!Codec BeaconConsensusState}.
Variable AdminOrigin : Origin -> bool.

Definition on_host {A} (m : M St A) : M (BeaconPallet St) A := fun p =>
  let r := m (bp_host p) in (r.1, mkBeaconPallet r.2 (bp_LayerTwos p)).

Definition insert_l2 (s : BeaconConsensusState) (state_machine : StateMachine) (l2 : L2Consensus) :
    BeaconConsensusState :=
  mkBeaconConsensusState (bcs_frozen_height s) (bcs_light_client_state s)
    (btree_insert compare_StateMachine state_machine l2 (bcs_l2_consensus s)) (bcs_chain_id s).

Definition add_l2_consensus (origin : Origin) (state_machine_id : StateMachineId)
    (l2_consensus : L2Consensus) : M (BeaconPallet St) (result (CallError BeaconPalletError) unit) :=
  let? _ := ret (if AdminOrigin origin then Ok tt else Err CallBadOrigin) in
  let consensus_state_id := smi_consensus_state_id state_machine_id in
  let? encoded_consensus_state := gets (fun p =>
      map_err (fun _ => ErrorFetchingConsensusState) (consensus_state consensus_state_id (bp_host p))) in
  let? state := ret (ok_or (decode encoded_consensus_state) ErrorDecodingConsensusState) in
  let state := insert_l2 state (smi_state_id state_machine_id) l2_consensus in
  let* _ := modify (fun p => mkBeaconPallet (bp_host p)
      (<[smi_state_id state_machine_id := true]> (bp_LayerTwos p))) in
  let* stored := on_host (store_consensus_state consensus_state_id (encode state)) in
  let? _ := ret (map_err (fun _ => ErrorStoringConsensusState) stored) in
  ret (Ok tt).

End pallet.

(** * What the beacon chain client reports *)

(** The derived order of identifiers is an order. *)
Lemma compare_StateMachine_lawful : lawful compare_StateMachine.
Proof.
  pose proof compare_Z_lawful as [Ze Zo Zt]. pose proof compare_bytes_lawful as [Be Bo Bt].
  assert (forall i j : Id4, id4_bytes i = id4_bytes j -> i = j) as Hid.
  { intros [[[]]] [[[]]]. cbn. congruence. }
  split.
  - intros [] []; cbn; try done; intros E; try (by apply Ze in E as ->); apply Be, Hid in E; by subst.
  - intros [] []; cbn; auto.
  - intros [] [] []; cbn; try done; eauto.
Qed.

Section client.
Context `{Keccak256} `{!Ssz, !Bls, !EvmTrie, !RollupLib}.
Context `{!Codec BeaconClientUpdate, !Codec BeaconConsensusState, !Codec EvmStateProof}.
Variable C : BeaconConfig.

(** The payload of a rollup for a mechanism, verified against a state root of Ethereum. *)
Definition l2_verified (u : BeaconClientUpdate) (root : H256) (csid : ConsensusStateId)
    (id : StateMachine) (l2 : L2Consensus) (state : IntermediateState) : Prop :=
  match l2 with
  | ArbitrumOrbit rollup => exists payload, (id, payload) ∈ bcu_arbitrum_payload u /\
      verify_arbitrum_payload payload root rollup csid = Some (Ok state)
  | OpL2Oracle oracle => exists payload, (id, payload) ∈ bcu_l2_oracle_payload u /\
      verify_optimism_payload payload root oracle csid = Some (Ok state)
  | OpFaultProofs factory game_type => exists payload, (id, payload) ∈ bcu_dispute_game_payload u /\
      verify_optimism_dispute_game_proof payload root factory game_type csid = Some (Ok state)
  end.

(** What the client may report for a chain. *)
Definition reported (s : BeaconConsensusState) (u : BeaconClientUpdate) (csid : ConsensusStateId)
    (id : StateMachine) (c : StateCommitmentHeight) : Prop :=
  let payload := vu_execution_payload (bcu_consensus_update u) in
  (id = Evm (bcs_chain_id s) /\
   c = mkStateCommitmentHeight (mkStateCommitment (ep_timestamp payload) None (ep_state_root payload))
         (ep_block_number payload)) \/
  exists l2 state, (id, l2) ∈ bcs_l2_consensus s /\ c = commitment_height state /\
    l2_verified u (ep_state_root payload) csid id l2 state.

Record progress_ok (s : BeaconConsensusState) (u : BeaconClientUpdate) (csid : ConsensusStateId)
    (p : Progress) : Prop := {
  po_oracle e : e ∈ pg_oracle p -> e ∈ bcu_l2_oracle_payload u;
  po_games e : e ∈ pg_games p -> e ∈ bcu_dispute_game_payload u;
  po_arbitrum e : e ∈ pg_arbitrum p -> e ∈ bcu_arbitrum_payload u;
  po_reported id l : (id, l) ∈ pg_commitments p -> exists c, l = [c] /\ reported s u csid id c
}.

Lemma btree_remove_elem {V} k (m : list (StateMachine * V)) e :
  e ∈ btree_remove compare_StateMachine k m -> e ∈ m.
Proof. intros [_ He]%list_elem_of_filter. done. Qed.

Lemma insert_reported s u csid p entry state :
  progress_ok s u csid p -> entry ∈ bcs_l2_consensus s ->
  l2_verified u (ep_state_root (vu_execution_payload (bcu_consensus_update u))) csid entry.1 entry.2 state ->
  forall id l, (id, l) ∈ btree_insert compare_StateMachine entry.1 [commitment_height state] (pg_commitments p) ->
  exists c, l = [c] /\ reported s u csid id c.
Proof.
  intros Hp He Hl id l [[= -> ->]|Hin]%btree_insert_elem; [|by eapply po_reported].
  exists (commitment_height state). split; [done|]. right. exists entry.2, state. by destruct entry.
Qed.

Lemma verify_l2_ok s u csid p entry p' :
  progress_ok s u csid p -> entry ∈ bcs_l2_consensus s ->
  verify_l2 (ep_state_root (vu_execution_payload (bcu_consensus_update u))) csid p entry = Some (Ok p') ->
  progress_ok s u csid p'.
Proof.
  intros Hp He Hv. unfold verify_l2 in Hv. destruct (entry.2) as [a|a|a g] eqn:E2.
  all: destruct (btree_get _ _ _) as [payload|] eqn:E; [|unfold vret in Hv; by injection Hv as <-].
  all: vstep Hv state Hs; unfold vret in Hv; injection Hv as <-.
  all: apply (btree_get_elem _ compare_StateMachine_lawful) in E.
  all: split; cbn; [intros e Hin; try apply btree_remove_elem in Hin; by apply Hp..|].
  all: apply (insert_reported _ _ _ _ _ _ Hp He); rewrite E2; exists payload; split; [by apply Hp|done].
Qed.

(** the client reports commitments of Ethereum and of the rollups it is configured
    for, and no others. The light client state was advanced by a verified update. The
    commitment of Ethereum is that of the update's execution payload; that of a rollup was
    verified against the state root of that payload, by the mechanism configured for the
    rollup. The configuration does not change. *)
Theorem beacon_commitments csid trusted proof new commitments :
  beacon_verify_consensus C csid trusted proof = Some (Ok (new, commitments)) ->
  exists s u light, decode trusted = Some s /\ decode proof = Some u /\
    verify_sync_committee_attestation C (bcs_light_client_state s) (bcu_consensus_update u)
      = Some (Ok light) /\
    new = encode (mkBeaconConsensusState None light (bcs_l2_consensus s) (bcs_chain_id s)) /\
    forall id l, (id, l) ∈ commitments -> exists c, l = [c] /\ reported s u csid id c.
Proof.
  unfold beacon_verify_consensus. intros Hv. vstep Hv u Hu. apply vlift_ok, ok_or_ok in Hu.
  vstep Hv s Hs. apply vlift_ok, ok_or_ok in Hs. apply vget_ok in Hv as (r & Hr & Hv).
  vstep Hv light Hl. apply vlift_ok in Hl. destruct r as [light'|]; [|done]. injection Hl as ->.
  vstep Hv state Hst. apply vlift_ok in Hst. vstep Hv p Hp. unfold vret in Hv. injection Hv as <- <-.
  exists s, u, light. split_and!; [done..|]. unfold construct_intermediate_state, to_bytes_32 in Hst.
  destruct (_ =? _)%nat; [|done]. injection Hst as <-.
  eapply po_reported. eapply (vfold_inv (progress_ok s u csid)); [| |exact Hp].
  - intros p1 e p2 He Hp1. by eapply verify_l2_ok.
  - split; cbn; [done..|]. intros id l [[= -> ->]|[]%elem_of_nil]%elem_of_cons.
    eexists. split; [done|]. by left.
Qed.

End client.

(** ** Adding rollups *)

Section pallet.
Context `{Keccak256} {St : Type} `{!IsmpHost St} `{!HostModel St} `{!Codec BeaconConsensusState}.
Context `{!Codec EvmStateProof, !EvmTrie} {St' : Type} (EvmHosts : St' -> gmap StateMachine H160).
Variable AdminOrigin : Origin -> bool.

(** adding a rollup requires the administrator and a stored state of the beacon
    client. The stored state then has the mechanism for the rollup and is otherwise the
    same, nothing else on the host changes, and the client gives out a state machine for
    the rollup if it is an EVM chain. *)
Theorem add_l2_consensus_functional origin id l2 p p' :
  inv (bp_host p) -> add_l2_consensus AdminOrigin origin id l2 p = (Some (Ok tt), p') ->
  AdminOrigin origin = true /\
  (exists encoded state,
    c_states (a_cons (abs (bp_host p))) !! smi_consensus_state_id id = Some encoded /\
    decode encoded = Some state /\
    abs (bp_host p') = upd_cons (set_states
      <[smi_consensus_state_id id := encode (insert_l2 state (smi_state_id id) l2)]>) (abs (bp_host p))) /\
  bp_LayerTwos p' = <[smi_state_id id := true]> (bp_LayerTwos p) /\
  forall chain_id, smi_state_id id = Evm chain_id ->
    beacon_state_machine EvmHosts (bp_LayerTwos p') (smi_state_id id) = Ok (evm_state_machine EvmHosts).
Proof.
  intros Hi Hrun. unfold add_l2_consensus in Hrun.
  step_ret Hrun u H1. destruct (AdminOrigin origin); [|done].
  step_gets Hrun encoded H2. rewrite consensus_state_abs in H2 by done.
  step_ret Hrun state H3. apply ok_or_ok in H3.
  apply bind_inv in Hrun as (u' & s1 & H4 & Hrun). unfold modify in H4. injection H4 as <- <-.
  apply bind_inv in Hrun as (stored & s2 & H5 & Hrun). unfold on_host in H5. cbn in H5.
  destruct (store_consensus_state_impl (smi_consensus_state_id id)
    (encode (insert_l2 state (smi_state_id id) l2)) (bp_host p) Hi) as (Hf & Ha & _).
  injection H5 as H5 <-. step_ret Hrun u2 H6. apply ret_inv in Hrun as [_ <-]. cbn.
  split; [done|]. split; [|split; [done|]].
  - exists encoded, state. destruct (c_states _ !! _) as [e|]; [|done]. injection H2 as ->. auto.
  - intros chain_id ->. cbn. by rewrite lookup_insert_eq, orb_true_r.
Qed.

End pallet.
