(* ===== verification/BeaconDemo.v ===== *)
(** * Concrete sync committees

    A committee of 512 members with toy signatures (a key is a number, a signature the
    product of the key and the message), on mainnet. The theorems of [SyncProps] and
    [BeaconClient] are applied to its updates. *)

From S2P Require Import Prelude StateMachine Router Messaging Host Handlers HostSpec RefHost ChildTrie PalletTypes PalletDemo Apps EvmKeys DemoCodec EvmMachine Rollups EvmDemo SyncCommittee SyncProps BeaconClient.

Module BeaconDemo.
#[local] Existing Instances EvmDemo.hash32 EvmDemo.rollup_lib.

(** ** Libraries *)

#[local] Instance bls : Bls := {|
  G1 := Z; G2 := Z; Gt := Z;
  pubkey_to_point k := Ok (of_be_bytes 0 k);
  g1_sub := Z.sub;
  g1_generator := 1;
  signature_to_point s := Ok (of_be_bytes 0 s);
  signature_subgroup_check _ := true;
  hash_to_point m _ := of_be_bytes 0 m;
  bls_pairing := Z.mul;
  DST_ETHEREUM := []
|}.

#[local] Program Instance group : BlsGroup := {| g1_zero := 0; g1_add := Z.add |}.
Next Obligation. cbn. lia. Qed.
Next Obligation. cbn. lia. Qed.
Next Obligation. done. Qed.
Next Obligation. cbn. lia. Qed.

(** A branch splits the root around the leaf. *)
#[local] Instance ssz : Ssz := {|
  root_of_header h := Some (to_be_bytes 8 (bh_slot h));
  root_of_checkpoint c := Some (to_be_bytes 8 (cp_epoch c) ++ cp_root c);
  root_of_committee c := Some (sc_aggregate_public_key c);
  root_of_fork_data d := Some (fd_current_version d ++ fd_genesis_validators_root d);
  root_of_signing_data d := Some (sd_object_root d ++ sd_domain d);
  root_of_u64 n := Some (to_be_bytes 8 n);
  is_valid_merkle_branch leaf b _ _ root :=
    match b with pre :: post :: _ => bool_decide (root = pre ++ leaf ++ post) | _ => false end;
  calculate_multi_merkle_root leaves _ _ := Some (concat leaves)
|}.

(** ** Committees and updates *)

Definition branch (pre post : bytes) : list bytes := [pre; post; []; []; []].

(** Every member has the key [k]; the aggregate is their sum. *)
Definition committee (k : Z) : SyncCommittee :=
  mkSyncCommittee (replicate 512 (to_be_bytes 2 k)) (to_be_bytes 4 (512 * k)).

Definition payload : ExecutionPayloadProof :=
  mkExecutionPayloadProof EvmDemo.state_root 77 [] (branch [] []) 1650.
Definition payload_root : bytes := EvmDemo.state_root ++ to_be_bytes 8 77 ++ to_be_bytes 8 1650.

Definition finalized (slot : Z) : BeaconBlockHeader := mkBeaconBlockHeader slot 0 [] payload_root [].

(** The checkpoint of the finalised slot, then the next committee. *)
Definition checkpoint (epoch slot : Z) : bytes := to_be_bytes 8 epoch ++ to_be_bytes 8 slot.
Definition attested_header (slot epoch fslot k : Z) : BeaconBlockHeader :=
  mkBeaconBlockHeader slot 0 [] (checkpoint epoch fslot ++ to_be_bytes 4 (512 * k)) [].

(** 400 of the members sign. *)
Definition bits : list bool := replicate 400 true ++ replicate 112 false.
Definition sign (k : Z) (u : VerifierStateUpdate) : bytes :=
  to_be_bytes 60 (400 * k * of_be_bytes 0 (default [] (signed_root Mainnet u))).

Definition unsigned (signature_slot slot epoch fslot next : Z) (signature : bytes) : VerifierStateUpdate :=
  mkVerifierStateUpdate (attested_header slot epoch fslot next)
    (Some (mkSyncCommitteeUpdate (committee next) (branch (checkpoint epoch fslot) []))) (finalized fslot) payload
    (mkFinalityBranch epoch (branch [] (to_be_bytes 4 (512 * next)))) (mkSyncAggregate bits signature) signature_slot.
Definition update (k signature_slot slot epoch fslot next : Z) : VerifierStateUpdate :=
  unsigned signature_slot slot epoch fslot next
    (sign k (unsigned signature_slot slot epoch fslot next [])).

(** Period 1, with committee 3, then 5. *)
Definition trusted : VerifierState :=
  mkVerifierState (finalized 8190) 255 (committee 3) (committee 5) 1.

(** Signed in period 1 by committee 3, and in period 2 by committee 5. *)
Definition first : VerifierStateUpdate := update 3 8265 8264 257 8224 5.
Definition second : VerifierStateUpdate := update 5 16390 16389 511 16352 9.

Definition after_first : VerifierState := mkVerifierState (finalized 8224) 257 (committee 3) (committee 5) 1.
Definition after_second : VerifierState := mkVerifierState (finalized 16352) 511 (committee 5) (committee 9) 2.

Lemma first_run : verify_sync_committee_attestation Mainnet trusted first = Some (Ok after_first).
Proof. vm_compute. reflexivity. Qed.
Lemma second_run : verify_sync_committee_attestation Mainnet after_first second = Some (Ok after_second).
Proof. vm_compute. reflexivity. Qed.

Lemma sync_update_verified_witness : attested Mainnet after_first second /\ rotated Mainnet after_first after_second second.
Proof.
  destruct (sync_update_verified Mainnet after_first second after_second second_run) as (Ha & _ & _ & Hr & _).
  exact (conj Ha Hr).
Defined.

Lemma sync_updates_progress_witness : 255 + 2 <= 511 /\ NoDup [first; second].
Proof.
  destruct (sync_updates_progress Mainnet trusted [first; second] after_second) as (He & _ & Hn).
  - split; discriminate.
  - cbn [vfold]. rewrite first_run. cbn [vtry]. rewrite second_run. reflexivity.
  - exact (conj He Hn).
Defined.

Definition points : list (@G1 bls) := @replicate Z 512 3.

Lemma participants_key_witness :
  subtract_points_from_aggregate (to_be_bytes 4 1536) (non_participants bits (replicate 512 (to_be_bytes 2 3)))
  = Ok (sum_points (having true bits points)).
Proof.
  apply (participants_key (to_be_bytes 4 1536) (replicate 512 (to_be_bytes 2 3)) points bits).
  - apply Forall2_replicate. vm_compute. reflexivity.
  - vm_compute. reflexivity.
  - vm_compute. reflexivity.
Defined.

Lemma fork_version_active_witness : active_fork Mainnet 200000 (hex "03000000").
Proof. apply (fork_version_active Mainnet 200000); [left; right; left|discriminate]. Defined.

(** ** A committee that does not advance *)

(** Signed in the first slot of period 2 for the last header of period 1, whose state
    still names the committee of period 2 as the next one. *)
Definition boundary : VerifierStateUpdate := update 5 16384 16383 510 16320 5.
Definition stuck : VerifierState := mkVerifierState (finalized 16320) 510 (committee 5) (committee 5) 2.

(** The committee of period 3 signs in period 3. *)
Definition third : VerifierStateUpdate := update 9 24600 24599 767 24544 11.

(** an update that is signed in the first slot of a period for the last header of the
    period before is accepted, but the committee it proves is that of the current period,
    not of the next. The client takes it for the next committee, so that it has the same
    committee twice, and refuses the updates of the true committee of the next period. *)
Theorem boundary_update_stalls :
  compute_sync_committee_period_at_slot Mainnet (bh_slot (vu_attested_header boundary)) = 1 /\
  verify_sync_committee_attestation Mainnet after_first boundary = Some (Ok stuck) /\
  vs_next_sync_committee stuck = vs_current_sync_committee stuck /\
  verify_sync_committee_attestation Mainnet stuck third = Some (Err SignatureVerification) /\
  is_Some (verify_sync_committee_attestation Mainnet after_second third ≫= ok).
Proof. split_and!; [vm_compute; reflexivity..|]. eexists. vm_compute. reflexivity. Qed.

(** ** The client *)

Ltac fields := intros []; cbv beta iota; repeat (rewrite decode_encode; cbn [mbind option_bind]); reflexivity.

#[local] Instance zc : Codec Z := z_codec.
#[local] Instance sc : Codec bytes := string_codec.
#[local] Instance bc : Codec bool := PalletDemo.countable_codec.
#[local] Instance mc : Codec StateMachine := PalletDemo.countable_codec.
#[local] Instance lc {A} `{!Codec A} : Codec (list A) | 10 := list_codec _.
#[local] Instance oc {A} `{!Codec A} : Codec (option A) := option_codec _.
#[local] Instance pc {A B} `{!Codec A, !Codec B} : Codec (A * B) := pair_codec _ _.

#[local] Instance header_codec : Codec BeaconBlockHeader := fields_codec
  (fun h => [encode (bh_slot h); encode (bh_proposer_index h); bh_parent_root h; bh_state_root h; bh_body_root h])
  (fun l => match l with
    | [a; b; c; d; e] => a ← decode a; b ← decode b; Some (mkBeaconBlockHeader a b c d e)
    | _ => None end) ltac:(fields).

#[local] Instance committee_codec : Codec SyncCommittee := fields_codec
  (fun h => [encode (sc_public_keys h); sc_aggregate_public_key h])
  (fun l => match l with [a; b] => a ← decode a; Some (mkSyncCommittee a b) | _ => None end) ltac:(fields).

#[local] Instance state_codec : Codec VerifierState := fields_codec
  (fun s => [encode (vs_finalized_header s); encode (vs_latest_finalized_epoch s);
    encode (vs_current_sync_committee s); encode (vs_next_sync_committee s); encode (vs_state_period s)])
  (fun l => match l with
    | [a; b; c; d; e] => a ← decode a; b ← decode b; c ← decode c; d ← decode d; e ← decode e;
        Some (mkVerifierState a b c d e)
    | _ => None end) ltac:(fields).

Definition l2_tag (l : L2Consensus) : H160 + (H160 + H160 * Z) :=
  match l with ArbitrumOrbit a => inl a | OpL2Oracle a => inr (inl a) | OpFaultProofs a t => inr (inr (a, t)) end.
Definition l2_untag (x : H160 + (H160 + H160 * Z)) : L2Consensus :=
  match x with inl a => ArbitrumOrbit a | inr (inl a) => OpL2Oracle a | inr (inr (a, t)) => OpFaultProofs a t end.
#[local] Instance l2_codec : Codec L2Consensus :=
  via_codec (sum_codec sc (sum_codec sc (pc (A := bytes) (B := Z)))) l2_tag l2_untag ltac:(by intros []).

#[local] Instance consensus_codec : Codec BeaconConsensusState := fields_codec
  (fun s => [encode (bcs_frozen_height s); encode (bcs_light_client_state s); encode (bcs_l2_consensus s);
    encode (bcs_chain_id s)])
  (fun l => match l with
    | [a; b; c; d] => a ← decode a; b ← decode b; c ← decode c; d ← decode d; Some (mkBeaconConsensusState a b c d)
    | _ => None end) ltac:(fields).

#[local] Instance payload_codec : Codec ExecutionPayloadProof := fields_codec
  (fun p => [ep_state_root p; encode (ep_block_number p); encode (ep_multi_proof p);
    encode (ep_execution_payload_branch p); encode (ep_timestamp p)])
  (fun l => match l with
    | [a; b; c; d; e] => b ← decode b; c ← decode c; d ← decode d; e ← decode e;
        Some (mkExecutionPayloadProof a b c d e)
    | _ => None end) ltac:(fields).

#[local] Instance committee_update_codec : Codec SyncCommitteeUpdate :=
  via_codec (pc (A := SyncCommittee) (B := list bytes))
    (fun u => (cu_next_sync_committee u, cu_next_sync_committee_branch u))
    (fun x => mkSyncCommitteeUpdate x.1 x.2) ltac:(by intros []).

#[local] Instance update_codec : Codec VerifierStateUpdate := fields_codec
  (fun u => [encode (vu_attested_header u); encode (vu_sync_committee_update u); encode (vu_finalized_header u);
    encode (vu_execution_payload u); encode (fb_epoch (vu_finality_proof u));
    encode (fb_finality_branch (vu_finality_proof u)); encode (sa_sync_committee_bits (vu_sync_aggregate u));
    sa_sync_committee_signature (vu_sync_aggregate u); encode (vu_signature_slot u)])
  (fun l => match l with
    | [a; b; c; d; e; f; g; h; i] =>
        a ← decode a; b ← decode b; c ← decode c; d ← decode d; e ← decode e; f ← decode f; g ← decode g;
        i ← decode i;
        Some (mkVerifierStateUpdate a b c d (mkFinalityBranch e f) (mkSyncAggregate g h) i)
    | _ => None end) ltac:(intros [???? [] [] ?]; cbv beta iota; repeat (rewrite decode_encode; cbn [mbind option_bind]); reflexivity).

#[local] Instance eth_header_codec : Codec CodecHeader := fields_codec
  (fun h => [ch_parent_hash h; ch_uncle_hash h; ch_coinbase h; ch_state_root h; ch_transactions_root h;
    ch_receipts_root h; ch_logs_bloom h; encode (ch_difficulty h); encode (ch_number h); encode (ch_gas_limit h);
    encode (ch_gas_used h); encode (ch_timestamp h); ch_extra_data h; ch_mix_hash h; ch_nonce h;
    encode (ch_base_fee_per_gas h); encode (ch_withdrawals_hash h); encode (ch_blob_gas_used h);
    encode (ch_excess_blob_gas_used h); encode (ch_parent_beacon_root h)])
  (fun l => match l with
    | [a; b; c; d; e; f; g; h; i; j; k; l; m; n; o; p; q; r; s; t] =>
        h ← decode h; i ← decode i; j ← decode j; k ← decode k; l ← decode l; p ← decode p; q ← decode q;
        r ← decode r; s ← decode s; t ← decode t;
        Some (mkCodecHeader a b c d e f g h i j k l m n o p q r s t)
    | _ => None end) ltac:(fields).

#[local] Instance oracle_codec : Codec OptimismPayloadProof := fields_codec
  (fun p => [op_state_root p; op_withdrawal_storage_root p; op_l2_block_hash p; op_version p;
    encode (op_l2_oracle_proof p); encode (op_output_root_proof p); encode (op_multi_proof p);
    encode (op_output_root_index p); encode (op_block_number p); encode (op_timestamp p)])
  (fun l => match l with
    | [a; b; c; d; e; f; g; h; i; j] => e ← decode e; f ← decode f; g ← decode g; h ← decode h; i ← decode i;
        j ← decode j; Some (mkOptimismPayloadProof a b c d e f g h i j)
    | _ => None end) ltac:(fields).

#[local] Instance game_codec : Codec OptimismDisputeGameProof := fields_codec
  (fun p => [encode (dg_header p); dg_withdrawal_storage_root p; dg_version p; encode (dg_dispute_factory_proof p);
    encode (dg_dispute_game_proof p); dg_proxy p; dg_extra_data p; encode (dg_game_type p); encode (dg_timestamp p)])
  (fun l => match l with
    | [a; b; c; d; e; f; g; h; i] => a ← decode a; d ← decode d; e ← decode e; h ← decode h; i ← decode i;
        Some (mkOptimismDisputeGameProof a b c d e f g h i)
    | _ => None end) ltac:(fields).

Definition status_of (n : Z) : MachineStatus :=
  match machine_status_of_u8 n with Ok s => s | Err _ => Running end.

#[local] Instance arbitrum_codec : Codec ArbitrumPayloadProof := fields_codec
  (fun p => [encode (ap_arbitrum_header p); gs_block_hash (ap_global_state p); gs_send_root (ap_global_state p);
    encode (gs_inbox_position (ap_global_state p)); encode (gs_position_in_message (ap_global_state p));
    encode (machine_status_u8 (ap_machine_status p)); encode (ap_inbox_max_count p); encode (ap_node_number p);
    encode (ap_storage_proof p); encode (ap_contract_proof p)])
  (fun l => match l with
    | [a; b; c; d; e; f; g; h; i; j] => a ← decode a; d ← decode d; e ← decode e; f ← decode f; g ← decode g;
        h ← decode h; i ← decode i; j ← decode j;
        Some (mkArbitrumPayloadProof a (mkGlobalState b c d e) (status_of f) g h i j)
    | _ => None end) ltac:(intros [? [] [] ? ? ? ?]; cbv beta iota; repeat (rewrite decode_encode; cbn [mbind option_bind]); reflexivity).

#[local] Instance message_codec : Codec BeaconClientUpdate := fields_codec
  (fun u => [encode (bcu_consensus_update u); encode (bcu_l2_oracle_payload u);
    encode (bcu_dispute_game_payload u); encode (bcu_arbitrum_payload u)])
  (fun l => match l with
    | [a; b; c; d] => a ← decode a; b ← decode b; c ← decode c; d ← decode d; Some (mkBeaconClientUpdate a b c d)
    | _ => None end) ltac:(fields).

(** Ethereum, with a rollup that has a game recorded in the state that the update proves. *)
Definition rollup : StateMachine := Evm 10.
Definition client_state : BeaconConsensusState :=
  mkBeaconConsensusState None trusted [(rollup, OpFaultProofs EvmDemo.contract 1)] 1.
Definition message : BeaconClientUpdate := mkBeaconClientUpdate first [] [(rollup, EvmDemo.game)] [].

Definition next_state : BeaconConsensusState :=
  mkBeaconConsensusState None after_first (bcs_l2_consensus client_state) 1.
Definition commitments : VerifiedCommitments :=
  [(Evm 1, [mkStateCommitmentHeight (mkStateCommitment 1650 None EvmDemo.state_root) 77]);
   (rollup, [mkStateCommitmentHeight (mkStateCommitment 1700 None EvmDemo.l2_root) 812])].

#[local] Instance lib : EvmTrie := EvmDemo.library EvmDemo.game_storage.

Definition ethereum : IntermediateState := mkIntermediateState
  (mkStateMachineHeight (mkStateMachineId (Evm 1) Demo.csid) 77) (mkStateCommitment 1650 None EvmDemo.state_root).

Lemma ethereum_run : construct_intermediate_state (Evm (bcs_chain_id client_state)) Demo.csid
  (ep_block_number (vu_execution_payload first)) (ep_timestamp (vu_execution_payload first))
  (ep_state_root (vu_execution_payload first)) = Ok ethereum.
Proof. reflexivity. Qed.

Lemma rollup_run : vfold (verify_l2 (ep_state_root (vu_execution_payload first)) Demo.csid)
  (mkProgress (bcu_l2_oracle_payload message) (bcu_dispute_game_payload message) (bcu_arbitrum_payload message)
    (btree_insert compare_StateMachine (Evm (bcs_chain_id client_state)) [commitment_height ethereum] []))
  (bcs_l2_consensus client_state) = Some (Ok (mkProgress [] [] [] commitments)).
Proof. vm_compute. reflexivity. Qed.

Lemma beacon_commitments_witness : exists s u light,
  decode (encode client_state) = Some s /\ decode (encode message) = Some u /\
  verify_sync_committee_attestation Mainnet (bcs_light_client_state s) (bcu_consensus_update u) = Some (Ok light).
Proof.
  destruct (beacon_commitments Mainnet Demo.csid (encode client_state) (encode message)
    (encode next_state) commitments) as (s & u & light & Hs & Hu & Hl & _).
  - unfold beacon_verify_consensus. rewrite !decode_encode. cbn [ok_or vlift vtry].
    change (bcs_light_client_state client_state) with trusted. change (bcu_consensus_update message) with first.
    rewrite first_run. cbn [vget map_err vlift vtry]. rewrite ethereum_run. cbn [vlift vtry].
    rewrite rollup_run. reflexivity.
  - exists s, u, light. exact (conj Hs (conj Hu Hl)).
Defined.

End BeaconDemo.
