(* ===== verification/Bsc.v ===== *)
(** * The BSC client

    [modules/consensus/bsc/verifier/src/{primitives, lib}.rs] and [clients/bsc/src/lib.rs]:
    the fast finality of BNB Smart Chain. The validators of an epoch vote for a source and
    a target header with an aggregate signature, which is found in the extra data of a
    later header. *)

From S2P Require Import Prelude StateMachine Router Messaging Host ChildTrie Apps EvmKeys EvmMachine Rollups SyncCommittee.

(** ** Constants and data *)

Definition EPOCH_LENGTH : Z := 200.
Definition EXTRA_VANITY_LENGTH : nat := 32.
Definition EXTRA_SEAL_LENGTH : nat := 65.
Definition BLS_PUBLIC_KEY_LENGTH : nat := 48.
Definition VALIDATOR_BYTES_LENGTH : nat := 20 + BLS_PUBLIC_KEY_LENGTH.
Definition VALIDATOR_NUMBER_SIZE : nat := 1.
Definition ADDRESS_LENGTH : nat := 20.
Definition TURN_LENGTH_SIZE : nat := 1.

(** [trait Config] *)
Record BscConfig : Type := mkBscConfig { BOHR_FORK_TIMESTAMP : Z }.
Definition BscTestnet : BscConfig := {| BOHR_FORK_TIMESTAMP := 1724116996 |}.
Definition BscMainnet : BscConfig := {| BOHR_FORK_TIMESTAMP := 1727317200 |}.

Record BscClientUpdate : Type := mkBscClientUpdate {
  bu_source_header : CodecHeader;
  bu_target_header : CodecHeader;
  bu_attested_header : CodecHeader;
  bu_epoch_header_ancestry : list CodecHeader
}.

Record ValidatorInfo : Type := mkValidatorInfo {
  vi_address : H160;
  vi_bls_public_key : bytes
}.

Record VoteData : Type := mkVoteData {
  vd_source_number : Z;
  vd_source_hash : H256;
  vd_target_number : Z;
  vd_target_hash : H256
}.

Record VoteAttestationData : Type := mkVoteAttestationData {
  va_vote_address_set : Z;
  va_agg_signature : bytes;
  va_data : VoteData;
  va_extra : bytes
}.

Record ExtraData : Type := mkExtraData {
  ed_extra_vanity : bytes;
  ed_validator_size : Z;
  ed_validators : list ValidatorInfo;
  ed_extra_seal : bytes;
  ed_agg_signature : bytes;
  ed_vote_data : VoteData;
  ed_vote_address_set : Z
}.

Record NextValidators : Type := mkNextValidators {
  nv_validators : list bytes;
  nv_rotation_block : Z
}.

Record VerificationResult : Type := mkVerificationResult {
  vr_hash : H256;
  vr_finalized_header : CodecHeader;
  vr_next_validators : option NextValidators
}.

(** ** Libraries

    [alloy_rlp] of votes; [ssz_rs] of a bit vector of 64 bits and of a vector of 48 bytes;
    and the sums of [ark_bls12_381]. *)
Class BscLib `{!Bls} : Type := {
  rlp_decode_attestation : bytes -> option VoteAttestationData;
  rlp_encode_vote_data : VoteData -> bytes;
  bitvector_64 : bytes -> option (list bool);
  bls_public_key : bytes -> option bytes;
  point_to_pubkey : G1 -> bytes;
  g1_default : G1;
  g1_plus : G1 -> G1 -> G1
}.

(** ** Extra data *)

(** [data[..]] past the end panics. *)
Definition slice_from (index : nat) (l : bytes) : option bytes :=
  if (index <=? length l)%nat then Some (drop index l) else None.
Definition slice (first last : nat) (l : bytes) : option bytes :=
  if ((first <=? last) && (last <=? length l))%nat then Some (take (last - first) (drop first l))
  else None.

Definition H256_zero : H256 := replicate 32 Byte.x00.
Definition no_vote : VoteData := mkVoteData 0 H256_zero 0 H256_zero.

(** [sort_by], which is stable, on the addresses. *)
Fixpoint insert_validator (v : ValidatorInfo) (l : list ValidatorInfo) : list ValidatorInfo :=
  match l with
  | [] => [v]
  | w :: r =>
      match compare_bytes (vi_address v) (vi_address w) with
      | Datatypes.Gt => w :: insert_validator v r
      | _ => v :: w :: r
      end
  end.
Definition sort_validators (l : list ValidatorInfo) : list ValidatorInfo :=
  foldr insert_validator [] l.

Definition parse_validator (remaining_data : bytes) (i : nat) : option ValidatorInfo :=
  address ← slice (i * VALIDATOR_BYTES_LENGTH) (i * VALIDATOR_BYTES_LENGTH + ADDRESS_LENGTH) remaining_data;
  key ← slice (i * VALIDATOR_BYTES_LENGTH + ADDRESS_LENGTH) ((i + 1) * VALIDATOR_BYTES_LENGTH) remaining_data;
  Some (mkValidatorInfo address key).

Section verifier.
Context `{Keccak256} `{!RollupLib} `{!Bls, !BscLib}.
Variable C : BscConfig.

(** The validators, and the data after them. *)
Definition parse_validators (timestamp : Z) (data : bytes) :
    V bytes (Z * list ValidatorInfo * bytes) :=
  match data with
  | Byte.xf8 :: _ | [] => vret (0, [], data)
  | n :: remaining_data =>
      let validator_num := Z.to_nat (byte_val n) in
      let total := (VALIDATOR_NUMBER_SIZE + validator_num * VALIDATOR_BYTES_LENGTH)%nat in
      let! _ := vguard (length data <? total)%nat (lit "Parse validator failed") in
      get! validators := mapM (parse_validator remaining_data) (seq 0 validator_num) in
      let index :=
        if BOHR_FORK_TIMESTAMP C <=? timestamp
        then (total - VALIDATOR_NUMBER_SIZE + TURN_LENGTH_SIZE)%nat
        else (total - VALIDATOR_NUMBER_SIZE)%nat in
      get! rest := slice_from index remaining_data in
      vret (byte_val n, sort_validators validators, rest)
  end.

Definition parse_extra (header : CodecHeader) : V bytes ExtraData :=
  let data := ch_extra_data header in
  let! _ := vguard (length data <? EXTRA_VANITY_LENGTH + EXTRA_SEAL_LENGTH)%nat
      (lit "Invalid extra data") in
  let extra_vanity := take EXTRA_VANITY_LENGTH data in
  let extra_seal := drop (length data - EXTRA_SEAL_LENGTH) data in
  get! data := slice EXTRA_VANITY_LENGTH (length data - EXTRA_SEAL_LENGTH) data in
  let! parsed := parse_validators (ch_timestamp header) data in
  let validator_size := parsed.1.1 in
  let validators := parsed.1.2 in
  match parsed.2 with
  | [] => vret (mkExtraData extra_vanity validator_size validators extra_seal
      (replicate 96 Byte.x00) no_vote 0)
  | data =>
      let! vote := vlift (ok_or (rlp_decode_attestation data) (lit "parse vote attestation failed")) in
      vret (mkExtraData extra_vanity validator_size validators extra_seal
        (va_agg_signature vote) (va_data vote) (va_vote_address_set vote))
  end.

Definition compute_epoch (number : Z) : Z := number / EPOCH_LENGTH.

(** ** Signatures *)

Definition pubkey_to_projective (compressed_key : bytes) : option G1 := ok (pubkey_to_point compressed_key).

Definition aggregate_public_keys (keys : list bytes) : bytes :=
  point_to_pubkey (fold_left g1_plus (omap pubkey_to_projective keys) g1_default).

Definition bsc_verify_aggregate_signature (aggregate msg signature : bytes) : result bytes unit :=
  match pubkey_to_point aggregate with
  | Err _ => Err (lit "Could not convert public key to point")
  | Ok aggregate_key_point =>
      match signature_to_point signature with
      | Err e => Err e
      | Ok signature =>
          if negb (signature_subgroup_check signature) then Err (lit "Signature not in subgroup")
          else
            let q := hash_to_point msg DST_ETHEREUM in
            let c1 := pairing q aggregate_key_point in
            let c2 := pairing signature g1_generator in
            if bool_decide (c1 = c2) then Ok tt
            else Err (lit "Aggregate signature verification failed")
      end
  end.

(** ** The verifier *)

Definition hash_of (h : CodecHeader) : H256 := header_hash (header_of h).

(** The validators whose bit is set. *)
Definition participants (validators : list bytes) (bits : list bool) : list bytes :=
  omap (fun e : bytes * bool => if e.2 then Some e.1 else None) (zip validators bits).

(** The hash of the last header of a chain of headers that starts after [parent_hash]. *)
Definition check_ancestry (parent_hash : H256) (headers : list CodecHeader) : V bytes H256 :=
  vfold (fun parent_hash header =>
    let! _ := vguard (negb (bool_decide (parent_hash = ch_parent_hash header)))
        (lit "Epoch ancestry submitted is invalid") in
    vret (hash_of header)) parent_hash headers.

(** The validators of the next epoch, in the extra data of its first header. *)
Definition validators_of_epoch (current_validators : list bytes) (epoch_header : CodecHeader) :
    V bytes NextValidators :=
  get! parsed := parse_extra epoch_header in
  let! extra := vlift (map_err (fun _ => lit "could not parse extra data from epoch header") parsed) in
  get! validators := mapM (fun val => bls_public_key (vi_bls_public_key val)) (ed_validators extra) in
  match validators with
  | [] => verr (lit "Epoch header provided does not have a validator set present in its extra data")
  | _ => vret (mkNextValidators validators
      (wrap64 (low_u64 (ch_number epoch_header) + Z.of_nat (length current_validators) / 2)))
  end.

Definition next_validator_addresses (current_validators : list bytes) (update : BscClientUpdate) :
    V bytes (option NextValidators) :=
  match bu_epoch_header_ancestry update with
  | epoch_header :: headers =>
      let! parent_hash := check_ancestry (hash_of epoch_header) headers in
      let! _ := vguard (negb (bool_decide (parent_hash = ch_parent_hash (bu_source_header update))))
          (lit "Epoch ancestry submitted is invalid") in
      let! next := validators_of_epoch current_validators epoch_header in
      vret (Some next)
  | [] =>
      if low_u64 (ch_number (bu_source_header update)) mod EPOCH_LENGTH =? 0 then
        let! next := validators_of_epoch current_validators (bu_source_header update) in
        vret (Some next)
      else vret None
  end.

Definition verify_bsc_header (current_validators : list bytes) (update : BscClientUpdate) :
    V bytes VerificationResult :=
  get! parsed := parse_extra (bu_attested_header update) in
  let! extra_data := vlift (map_err (fun _ => lit "could not parse extra data from header") parsed) in
  let vote_data := ed_vote_data extra_data in
  let! _ := vguard (bool_decide (vd_source_hash vote_data = H256_zero)
      || bool_decide (vd_target_hash vote_data = H256_zero)) (lit "Vote data is empty") in
  let! validators_bit_set := vlift (ok_or
      (bitvector_64 (reverse (to_be_bytes 8 (ed_vote_address_set extra_data))))
      (lit "Could not deseerialize vote address set")) in
  let! _ := vguard (count_ones validators_bit_set <? 2 * Z.of_nat (length current_validators) / 3)
      (lit "Not enough participants") in
  let source_header_hash := hash_of (bu_source_header update) in
  let target_header_hash := hash_of (bu_target_header update) in
  let! _ := vguard (negb (bool_decide (source_header_hash = vd_source_hash vote_data))
      || negb (bool_decide (target_header_hash = vd_target_hash vote_data)))
      (lit "Target and Source headers do not match vote data") in
  let! aggregate_public_key := vlift (ok_or
      (bls_public_key (aggregate_public_keys (participants current_validators validators_bit_set)))
      (lit "Could not aggregate public keys")) in
  let msg := keccak256 (rlp_encode_vote_data vote_data) in
  let! _ := vlift (map_err (fun _ => lit "Could not verify aggregate signature")
      (bsc_verify_aggregate_signature aggregate_public_key msg (ed_agg_signature extra_data))) in
  let! next_validators := next_validator_addresses current_validators update in
  vret (mkVerificationResult source_header_hash (bu_source_header update) next_validators).

End verifier.

(** ** The client *)

(** [b"BSCP"] *)
Definition BSC_CONSENSUS_ID : ConsensusStateId := (Byte.x42, Byte.x53, Byte.x43, Byte.x50).
Definition BSC_CHAIN_ID : Z := 56.
Definition BSC_TESTNET_CHAIN_ID : Z := 97.

Record BscConsensusState : Type := mkBscConsensusState {
  bsc_current_validators : list bytes;
  bsc_next_validators : option NextValidators;
  bsc_finalized_height : Z;
  bsc_finalized_hash : H256;
  bsc_current_epoch : Z;
  bsc_chain_id : Z
}.

Section client.
Context `{Keccak256} `{!RollupLib} `{!Bls, !BscLib} `{!EvmTrie}.
Context `{!Codec BscClientUpdate, !Codec BscConsensusState, !Codec EvmStateProof}.
Variable C : BscConfig.

(** The next validators take over in the middle of the first half of their epoch. *)
Definition rotate (s : BscConsensusState) (update : BscClientUpdate) : result Error BscConsensusState :=
  match bsc_next_validators s with
  | Some next_validators =>
      if Z.of_nat (length (bsc_current_validators s)) / 2
         <=? low_u64 (ch_number (bu_attested_header update)) mod EPOCH_LENGTH then
        let epoch := compute_epoch (low_u64 (ch_number (bu_attested_header update))) in
        let source_header_epoch := compute_epoch (low_u64 (ch_number (bu_source_header update))) in
        if negb (source_header_epoch =? epoch)
        then Err (Custom (lit "The Source Header must be from the same epoch with the attested epoch during an authority set rotation"))
        else Ok (mkBscConsensusState (nv_validators next_validators) None (bsc_finalized_height s)
          (bsc_finalized_hash s) epoch (bsc_chain_id s))
      else Ok s
  | None => Ok s
  end.

Definition bsc_verify_consensus (_ : ConsensusStateId) (trusted_consensus_state proof : bytes) :
    V Error (bytes * VerifiedCommitments) :=
  let! bsc_client_update := vlift (ok_or (decode proof)
      (Custom (lit "Cannot decode bsc client update"))) in
  let! s := vlift (ok_or (decode trusted_consensus_state)
      (Custom (lit "Cannot decode trusted consensus state"))) in
  let! _ := vguard (low_u64 (ch_number (bu_source_header bsc_client_update)) <=? bsc_finalized_height s)
      (Custom (lit "Expired Update")) in
  let! s := vlift (rotate s bsc_client_update) in
  get! verified := verify_bsc_header C (bsc_current_validators s) bsc_client_update in
  let! r := vlift (map_err Custom verified) in
  let finalized_header := vr_finalized_header r in
  let state_commitment := mkStateCommitmentHeight
      (mkStateCommitment (ch_timestamp finalized_header) None (ch_state_root finalized_header))
      (low_u64 (ch_number finalized_header)) in
  let next := match vr_next_validators r with Some n => Some n | None => bsc_next_validators s end in
  let s := mkBscConsensusState (bsc_current_validators s) next
      (low_u64 (ch_number finalized_header)) (vr_hash r) (bsc_current_epoch s) (bsc_chain_id s) in
  vret (encode s, btree_insert compare_StateMachine (Evm (bsc_chain_id s)) [state_commitment] []).

Definition bsc_verify_fraud_proof (trusted_consensus_state proof_1 proof_2 : bytes) : V Error unit :=
  let! update_1 := vlift (ok_or (decode proof_1)
      (Custom (lit "Cannot decode bsc client update for proof 1"))) in
  let! update_2 := vlift (ok_or (decode proof_2)
      (Custom (lit "Cannot decode bsc client update for proof 2"))) in
  let header_1 := bu_attested_header update_1 in
  let header_2 := bu_attested_header update_2 in
  let! _ := vguard (negb (ch_number header_1 =? ch_number header_2)) (Custom (lit "Invalid Fraud proof")) in
  let! _ := vguard (bool_decide (hash_of header_1 = hash_of header_2)) (Custom (lit "Invalid Fraud proof")) in
  let! s := vlift (ok_or (decode trusted_consensus_state)
      (Custom (lit "Cannot decode trusted consensus state"))) in
  get! first := verify_bsc_header C (bsc_current_validators s) update_1 in
  let! _ := vlift (map_err (fun _ => Custom (lit "Failed to verify first header")) first) in
  get! second := verify_bsc_header C (bsc_current_validators s) update_2 in
  let! _ := vlift (map_err (fun _ => Custom (lit "Failed to verify second header")) second) in
  vret tt.

Context {St : Type}.
Variable EvmHosts : St -> gmap StateMachine H160.
(** The text of an identifier ([Debug]). *)
Variable debug_state_machine : StateMachine -> bytes.

Definition bsc_state_machine (id : StateMachine) : result Error (StateMachineClient St) :=
  match id with
  | Evm chain_id =>
      if (chain_id =? BSC_CHAIN_ID) || (chain_id =? BSC_TESTNET_CHAIN_ID)
      then Ok (evm_state_machine EvmHosts)
      else Err (Custom (lit "Unsupported state machine: " ++ debug_state_machine id))
  | _ => Err (Custom (lit "Unsupported state machine: " ++ debug_state_machine id))
  end.

Definition bsc_client : ConsensusClient St := {|
  verify_consensus _ := bsc_verify_consensus;
  verify_fraud_proof _ := bsc_verify_fraud_proof;
  client_id := BSC_CONSENSUS_ID;
  state_machine := bsc_state_machine
|}.

End client.
