(* ===== verification/BscProps.v ===== *)
(** * What the BSC client shows *)

From S2P Require Import Prelude StateMachine Router Messaging Host ChildTrie Apps EvmKeys EvmMachine Rollups SyncCommittee Bsc.

(** ** The validators of a header *)

Definition vi_le (v w : ValidatorInfo) : Prop := compare_bytes (vi_address v) (vi_address w) <> Datatypes.Gt.

Lemma insert_validator_perm v l : insert_validator v l ≡ₚ v :: l.
Proof.
  induction l as [|w l IH]; cbn; [done|]. case_match; try done. rewrite IH. constructor.
Qed.

Lemma insert_validator_sorted v l : Sorted vi_le l -> Sorted vi_le (insert_validator v l).
Proof.
  pose proof compare_bytes_lawful as [_ Ho _].
  induction 1 as [|w l Hl IH Hw]; cbn; [repeat constructor|].
  destruct (compare_bytes (vi_address v) (vi_address w)) eqn:E.
  1,2: constructor; [by constructor|constructor; unfold vi_le; by rewrite E].
  assert (vi_le w v) by (unfold vi_le; rewrite Ho, E; done).
  constructor; [done|]. destruct l as [|x l]; cbn; [by constructor|].
  inversion Hw; subst. case_match; by constructor.
Qed.

Lemma sort_validators_ok l : sort_validators l ≡ₚ l /\ Sorted vi_le (sort_validators l).
Proof.
  induction l as [|v l [IHp IHs]]; cbn; [done|]. split.
  - by rewrite insert_validator_perm, IHp.
  - by apply insert_validator_sorted.
Qed.

(** Twenty bytes of address, then the key. *)
Definition validator_bytes (v : ValidatorInfo) : bytes := vi_address v ++ vi_bls_public_key v.
Definition validator_wf (v : ValidatorInfo) : Prop :=
  length (vi_address v) = ADDRESS_LENGTH /\ length (vi_bls_public_key v) = BLS_PUBLIC_KEY_LENGTH.

Lemma slice_app a b c l :
  length a = l -> slice l (l + length b) (a ++ b ++ c) = Some b.
Proof.
  intros <-. unfold slice. rewrite !length_app.
  destruct (Nat.leb_spec (length a) (length a + length b)); [|lia].
  destruct (Nat.leb_spec (length a + length b) (length a + (length b + length c))); [|lia]. cbn.
  rewrite drop_app_length, Nat.add_comm, Nat.add_sub. f_equal. apply take_app_length.
Qed.

Lemma slice_some a b l :
  (a <= b <= length l)%nat -> slice a b l = Some (take (b - a) (drop a l)).
Proof. intros. unfold slice. by rewrite !(proj2 (Nat.leb_le _ _)) by lia. Qed.

Lemma parse_validator_at pre v rest i :
  length pre = (i * VALIDATOR_BYTES_LENGTH)%nat -> validator_wf v ->
  parse_validator (pre ++ validator_bytes v ++ rest) i = Some v.
Proof.
  intros Hp (Ha & Hk). unfold parse_validator, validator_bytes.
  rewrite <- app_assoc. rewrite <- Ha at 1. rewrite slice_app by done. cbn [mbind option_bind].
  rewrite app_assoc. replace ((i + 1) * VALIDATOR_BYTES_LENGTH)%nat
    with (i * VALIDATOR_BYTES_LENGTH + ADDRESS_LENGTH + length (vi_bls_public_key v))%nat.
  2:{ rewrite Hk. unfold VALIDATOR_BYTES_LENGTH, ADDRESS_LENGTH. lia. }
  rewrite slice_app by (rewrite length_app; lia). by destruct v.
Qed.

Lemma length_validators vs :
  Forall validator_wf vs -> length (concat (validator_bytes <$> vs)) = (length vs * VALIDATOR_BYTES_LENGTH)%nat.
Proof.
  induction 1 as [|v vs (Ha & Hk) _ IH]; cbn; [done|].
  unfold validator_bytes at 1. rewrite !length_app, Ha, Hk, IH. unfold VALIDATOR_BYTES_LENGTH, ADDRESS_LENGTH, BLS_PUBLIC_KEY_LENGTH. lia.
Qed.

(** The validators are read back, whatever comes after them. *)
Lemma parse_validators_at vs rest k pre :
  Forall validator_wf vs -> length pre = (k * VALIDATOR_BYTES_LENGTH)%nat ->
  mapM (parse_validator (pre ++ concat (validator_bytes <$> vs) ++ rest)) (seq k (length vs)) = Some vs.
Proof.
  intros Hw; revert k pre; induction Hw as [|v vs Hv Hw IH]; intros k pre Hk; [done|].
  cbn [length seq fmap list_fmap concat mapM]. rewrite <- !app_assoc, parse_validator_at by done.
  cbn [mbind option_bind]. rewrite app_assoc, IH; [done|].
  destruct Hv as [Ha Hb]. unfold validator_bytes. rewrite !length_app, Ha, Hb, Hk.
  unfold VALIDATOR_BYTES_LENGTH, ADDRESS_LENGTH. lia.
Qed.

(** Enough bytes are enough for the validators. *)
Lemma parse_validators_some body n :
  (n * VALIDATOR_BYTES_LENGTH <= length body)%nat ->
  is_Some (mapM (parse_validator body) (seq 0 n)).
Proof.
  intros Hn. apply mapM_is_Some, Forall_forall. intros i Hi%elem_of_seq.
  unfold parse_validator. unfold VALIDATOR_BYTES_LENGTH, BLS_PUBLIC_KEY_LENGTH, ADDRESS_LENGTH in *.
  unfold compose. rewrite slice_some by nia. cbn [mbind option_bind]. rewrite slice_some by nia. done.
Qed.

(** ** Extra data *)

Section extra.
Context `{!Bls, !BscLib} (C : BscConfig).

(** What is between the vanity and the seal. *)
Definition middle (data : bytes) : bytes :=
  take (length data - EXTRA_SEAL_LENGTH - EXTRA_VANITY_LENGTH) (drop EXTRA_VANITY_LENGTH data).

(** The header has room for its validators, but not for the byte after them. *)
Definition turn_missing (h : CodecHeader) : Prop :=
  (EXTRA_VANITY_LENGTH + EXTRA_SEAL_LENGTH <= length (ch_extra_data h))%nat /\
  BOHR_FORK_TIMESTAMP C <= ch_timestamp h /\
  exists n body, middle (ch_extra_data h) = n :: body /\ n <> Byte.xf8 /\
    length body = (Z.to_nat (byte_val n) * VALIDATOR_BYTES_LENGTH)%nat.

Lemma parse_validators_cons ts n body : n <> Byte.xf8 ->
  parse_validators C ts (n :: body) =
  (let validator_num := Z.to_nat (byte_val n) in
   let total := (VALIDATOR_NUMBER_SIZE + validator_num * VALIDATOR_BYTES_LENGTH)%nat in
   let! _ := vguard (length (n :: body) <? total)%nat (lit "Parse validator failed") in
   get! validators := mapM (parse_validator body) (seq 0 validator_num) in
   get! rest := slice_from (if BOHR_FORK_TIMESTAMP C <=? ts
        then (total - VALIDATOR_NUMBER_SIZE + TURN_LENGTH_SIZE)%nat
        else (total - VALIDATOR_NUMBER_SIZE)%nat) body in
   vret (byte_val n, sort_validators validators, rest)).
Proof. intros Hn. unfold parse_validators. destruct n; try reflexivity. done. Qed.

Lemma parse_validators_none ts data :
  parse_validators C ts data = None <->
  BOHR_FORK_TIMESTAMP C <= ts /\ exists n body, data = n :: body /\ n <> Byte.xf8 /\
    length body = (Z.to_nat (byte_val n) * VALIDATOR_BYTES_LENGTH)%nat.
Proof.
  destruct data as [|n body]; [split; [done|naive_solver]|].
  destruct (decide (n = Byte.xf8)) as [->|Hn]; [split; [done|naive_solver]|].
  rewrite parse_validators_cons by done. cbv zeta. unfold vguard, VALIDATOR_NUMBER_SIZE, TURN_LENGTH_SIZE.
  cbn [length]. set (k := (Z.to_nat (byte_val n) * VALIDATOR_BYTES_LENGTH)%nat).
  destruct (Nat.ltb_spec (S (length body)) (1 + k)) as [Hlt|Hge]; cbn [vtry].
  { split; [done|]. intros (_ & ? & ? & [= <- <-] & _ & E). fold k in E. lia. }
  destruct (parse_validators_some body (Z.to_nat (byte_val n))) as [vs Hvs]; [fold k; lia|].
  rewrite Hvs. cbn [vget]. unfold slice_from.
  destruct (Z.leb_spec (BOHR_FORK_TIMESTAMP C) ts); case_match eqn:E;
    (apply Nat.leb_le in E || apply Nat.leb_gt in E); cbn [vget]; split; try done; try lia.
  - intros (_ & ? & ? & [= <- <-] & _ & E'). fold k in E'. lia.
  - intros _. split; [done|]. exists n, body. split_and!; [done..|]. fold k. lia.
Qed.

(** after the Bohr fork the parser panics exactly on the headers whose extra data ends
    right after the validators, and on no other header; it never panics before the fork. *)
Theorem parse_extra_panics h : parse_extra C h = None <-> turn_missing h.
Proof.
  unfold parse_extra, turn_missing, middle, vguard.
  destruct (Nat.ltb_spec (length (ch_extra_data h)) (EXTRA_VANITY_LENGTH + EXTRA_SEAL_LENGTH)) as [Hlt|Hge]; cbn [vtry].
  { split; [done|]. intros (? & _). lia. }
  rewrite slice_some by (unfold EXTRA_VANITY_LENGTH, EXTRA_SEAL_LENGTH in *; lia).
  cbn [vget]. destruct (parse_validators _ _ _) as [[p|e]|] eqn:E; cbn [vtry].
  - split.
    + destruct p.2; [done|]. by destruct (rlp_decode_attestation _).
    + intros (_ & Hp). by rewrite (proj2 (parse_validators_none _ _) Hp) in E.
  - split; [done|]. intros (_ & Hp). by rewrite (proj2 (parse_validators_none _ _) Hp) in E.
  - apply parse_validators_none in E. tauto.
Qed.

(** The extra data of the first header of an epoch. *)
Definition epoch_extra (vanity : bytes) (vs : list ValidatorInfo) (turn : bytes) (attestation seal : bytes) : bytes :=
  vanity ++ (byte_of_Z (Z.of_nat (length vs)) :: concat (validator_bytes <$> vs) ++ turn ++ attestation) ++ seal.

Lemma middle_app vanity data seal :
  length vanity = EXTRA_VANITY_LENGTH -> length seal = EXTRA_SEAL_LENGTH ->
  slice EXTRA_VANITY_LENGTH (length (vanity ++ data ++ seal) - EXTRA_SEAL_LENGTH) (vanity ++ data ++ seal) = Some data.
Proof.
  intros Hv Hs. rewrite !length_app, Hv, Hs.
  replace (EXTRA_VANITY_LENGTH + (length data + EXTRA_SEAL_LENGTH) - EXTRA_SEAL_LENGTH)%nat
    with (EXTRA_VANITY_LENGTH + length data)%nat by lia.
  by apply slice_app.
Qed.

(** the extra data of the first header of an epoch is parsed back: vanity, seal, the
    attestation, and the validators sorted by address. The length byte must not be 248,
    which the parser takes for the start of an attestation. *)
Theorem parse_extra_epoch h vanity vs turn attestation seal vote :
  length vanity = EXTRA_VANITY_LENGTH -> length seal = EXTRA_SEAL_LENGTH ->
  Forall validator_wf vs -> (length vs < 256)%nat -> length vs <> 248%nat ->
  length turn = (if BOHR_FORK_TIMESTAMP C <=? ch_timestamp h then 1%nat else 0%nat) ->
  attestation <> [] -> rlp_decode_attestation attestation = Some vote ->
  ch_extra_data h = epoch_extra vanity vs turn attestation seal ->
  parse_extra C h = Some (Ok (mkExtraData vanity (Z.of_nat (length vs)) (sort_validators vs) seal
    (va_agg_signature vote) (va_data vote) (va_vote_address_set vote))).
Proof.
  intros Hv Hs Hw Hl H248 Ht Ha Hd He. unfold parse_extra. rewrite He. unfold epoch_extra.
  rewrite middle_app by done. unfold vguard.
  rewrite (proj2 (Nat.ltb_ge _ _)) by (rewrite !length_app; lia). cbn [vtry vget].
  rewrite take_app_length' by done.
  replace (drop _ (vanity ++ _)) with seal.
  2:{ rewrite app_assoc. symmetry. apply drop_app_length'. rewrite !length_app. lia. }
  assert (byte_val (byte_of_Z (Z.of_nat (length vs))) = Z.of_nat (length vs)) as Hn.
  { rewrite byte_val_of_Z. apply Z.mod_small. lia. }
  rewrite parse_validators_cons.
  2:{ intros E. rewrite E in Hn. change (byte_val Byte.xf8) with 248 in Hn. lia. }
  cbv zeta. rewrite Hn, Nat2Z.id. unfold vguard, VALIDATOR_NUMBER_SIZE, TURN_LENGTH_SIZE.
  pose proof (length_validators vs Hw) as Hlen.
  rewrite (proj2 (Nat.ltb_ge _ _)) by (cbn [length]; rewrite length_app; lia). cbn [vtry].
  pose proof (parse_validators_at vs (turn ++ attestation) 0 [] Hw eq_refl) as Hm. cbn [app] in Hm. rewrite Hm.
  cbn [vget]. unfold slice_from.
  rewrite app_assoc. set (k := if _ <=? _ then _ else _).
  assert (k = length (concat (validator_bytes <$> vs) ++ turn)) as ->.
  { unfold k. rewrite length_app, Ht, Hlen. case_match; lia. }
  rewrite (proj2 (Nat.leb_le _ _)) by (rewrite !length_app; lia). cbn [vget vtry].
  rewrite drop_app_length. cbn [fst snd vret vtry].
  destruct attestation; [done|]. by rewrite Hd.
Qed.

Lemma length_slice i j l r : slice i j l = Some r -> length r = (j - i)%nat.
Proof.
  unfold slice. case_match eqn:Eb; [|discriminate]. intros [= <-].
  apply andb_prop in Eb as [Hi%Nat.leb_le Hj%Nat.leb_le]. rewrite length_take, length_drop. lia.
Qed.

Lemma parse_validator_wf body i v : parse_validator body i = Some v -> validator_wf v.
Proof.
  unfold parse_validator. intros (a & Ha%length_slice & Hv)%bind_Some.
  apply bind_Some in Hv as (k & Hk%length_slice & [= <-]). split; cbn [vi_address vi_bls_public_key];
  unfold VALIDATOR_BYTES_LENGTH, BLS_PUBLIC_KEY_LENGTH, ADDRESS_LENGTH in *; lia.
Qed.

Lemma parse_validators_typed ts data n vs rest : parse_validators C ts data = Some (Ok (n, vs, rest)) ->
  Forall validator_wf vs /\ Sorted vi_le vs /\ n = Z.of_nat (length vs) /\ 0 <= n < 256.
Proof.
  destruct data as [|x body]; [intros [= <- <- <-]; split_and!; [constructor..|done|done|done]|].
  destruct (decide (x = Byte.xf8)) as [->|Hx]; [intros [= <- <- <-]; split_and!; [constructor..|done|done|done]|].
  rewrite parse_validators_cons by done. cbv zeta. intros Hp. vcheck Hp Hg. apply vget_ok in Hp as (l & Hl & Hp).
  apply vget_ok in Hp as (r & _ & Hp). unfold vret in Hp. injection Hp as <- <- <-. pose proof (byte_val_range x) as Hr.
  destruct (sort_validators_ok l) as [Hperm Hsort]. apply mapM_Some in Hl. split; [|split; [done|]].
  - rewrite Hperm. apply Forall_forall. intros v Hv. apply list_elem_of_lookup in Hv as (k & Hk).
    destruct (Forall2_lookup_r _ _ _ _ _ Hl Hk) as (i & _ & Hi). by apply parse_validator_wf in Hi.
  - rewrite Hperm. apply Forall2_length in Hl. rewrite length_seq in Hl. lia.
Qed.

(** C40: what the parser returns has the shape its type promises: the vanity and the seal have
    their fixed lengths, every validator has an address of 20 bytes and a key of 48, there are as
    many as the size says, which fits a byte, and they are sorted by address. *)
Theorem parse_extra_typed h x : parse_extra C h = Some (Ok x) ->
  length (ed_extra_vanity x) = EXTRA_VANITY_LENGTH /\ length (ed_extra_seal x) = EXTRA_SEAL_LENGTH /\
  Forall validator_wf (ed_validators x) /\ Sorted vi_le (ed_validators x) /\
  ed_validator_size x = Z.of_nat (length (ed_validators x)) /\ 0 <= ed_validator_size x < 256.
Proof.
  unfold parse_extra. intros Hp. vcheck Hp Hg. apply Nat.ltb_ge in Hg. apply vget_ok in Hp as (data & _ & Hp).
  vstep Hp parsed Hv. destruct parsed as [[n vs] rest]. apply parse_validators_typed in Hv.
  assert (Hx : ed_extra_vanity x = take EXTRA_VANITY_LENGTH (ch_extra_data h) /\
    ed_extra_seal x = drop (length (ch_extra_data h) - EXTRA_SEAL_LENGTH) (ch_extra_data h) /\
    ed_validators x = vs /\ ed_validator_size x = n).
  { cbn [fst snd] in Hp. unfold vret in Hp. destruct rest; [by injection Hp as <-|]. vstep Hp vote Hd. by injection Hp as <-. }
  destruct Hx as (-> & -> & -> & ->). rewrite length_take, length_drop.
  unfold EXTRA_VANITY_LENGTH, EXTRA_SEAL_LENGTH in *. split; [lia|]. split; [lia|done].
Qed.

End extra.

(** ** Headers *)

Section headers.
Context `{Keccak256} `{!RollupLib} `{!Bls, !BscLib} (C : BscConfig).

(** Each header names the one before it. *)
Fixpoint linked (headers : list CodecHeader) : Prop :=
  match headers with
  | parent :: ((child :: _) as rest) => hash_of parent = ch_parent_hash child /\ linked rest
  | _ => True
  end.

Lemma check_ancestry_linked headers first last parent_hash :
  check_ancestry (hash_of first) headers = Some (Ok parent_hash) ->
  parent_hash = ch_parent_hash last -> linked (first :: headers ++ [last]).
Proof.
  revert first; induction headers as [|h r IH]; intros first.
  - cbn. intros [= ->] ->. done.
  - unfold check_ancestry. cbn [vfold]. intros Hc E. vstep Hc x Hx. vcheck Hx Q.
    unfold vret in Hx. injection Hx as <-. apply negb_false_iff, bool_decide_eq_true in Q.
    change ((h :: r) ++ [last]) with (h :: r ++ [last]). split; [done|]. by apply IH.
Qed.

(** The validators [vs] are those of the extra data of [h]. *)
Definition lists_validators (h : CodecHeader) (vs : list bytes) : Prop :=
  exists extra, parse_extra C h = Some (Ok extra) /\
    Forall2 (fun v k => bls_public_key (vi_bls_public_key v) = Some k) (ed_validators extra) vs.

Lemma validators_of_epoch_ok current h next :
  validators_of_epoch C current h = Some (Ok next) ->
  lists_validators h (nv_validators next) /\ nv_validators next <> [] /\
  nv_rotation_block next = wrap64 (low_u64 (ch_number h) + Z.of_nat (length current) / 2).
Proof.
  unfold validators_of_epoch. intros (p & Hp & Hv)%vget_ok. vstep Hv extra He.
  apply vlift_ok, map_err_ok in He as ->. apply vget_ok in Hv as (vs & Hvs & Hv).
  destruct vs as [|v vs]; [done|]. unfold vret in Hv. injection Hv as <-. split_and!; [|done..].
  exists extra. split; [done|]. by apply mapM_Some in Hvs.
Qed.

(** Where the next validators come from: the first header of an epoch that is the source
    header or one of its ancestors. *)
Definition next_ok (current : list bytes) (u : BscClientUpdate) (next : option NextValidators) : Prop :=
  linked (bu_epoch_header_ancestry u ++ [bu_source_header u]) /\
  match next with
  | Some n => exists h, head (bu_epoch_header_ancestry u ++ [bu_source_header u]) = Some h /\
      lists_validators h (nv_validators n) /\ nv_validators n <> [] /\
      nv_rotation_block n = wrap64 (low_u64 (ch_number h) + Z.of_nat (length current) / 2)
  | None => bu_epoch_header_ancestry u = [] /\ low_u64 (ch_number (bu_source_header u)) mod EPOCH_LENGTH <> 0
  end.

Lemma next_validator_addresses_ok current u next :
  next_validator_addresses C current u = Some (Ok next) -> next_ok current u next.
Proof.
  unfold next_validator_addresses, next_ok. destruct (bu_epoch_header_ancestry u) as [|h hs].
  - destruct (Z.eqb_spec (low_u64 (ch_number (bu_source_header u)) mod EPOCH_LENGTH) 0) as [E|E].
    + intros Hv. vstep Hv n Hn. unfold vret in Hv. injection Hv as <-.
      apply validators_of_epoch_ok in Hn. split; [done|]. by exists (bu_source_header u).
    + intros [= <-]. done.
  - intros Hv. vstep Hv p Hp. vcheck Hv Q. vstep Hv n Hn. unfold vret in Hv. injection Hv as <-.
    apply negb_false_iff, bool_decide_eq_true in Q.
    split; [exact (check_ancestry_linked _ _ _ _ Hp Q)|].
    exists h. split; [done|]. by apply validators_of_epoch_ok.
Qed.

(** The attestation in the attested header is signed by those of the validators whose bits
    it sets, and there are enough bits. *)
Record voted (validators : list bytes) (u : BscClientUpdate) (vote : VoteData) : Prop := {
  voted_signed : exists extra bits key,
    parse_extra C (bu_attested_header u) = Some (Ok extra) /\ ed_vote_data extra = vote /\
    bitvector_64 (reverse (to_be_bytes 8 (ed_vote_address_set extra))) = Some bits /\
    2 * Z.of_nat (length validators) / 3 <= count_ones bits /\
    bls_public_key (aggregate_public_keys (participants validators bits)) = Some key /\
    bsc_verify_aggregate_signature key (keccak256 (rlp_encode_vote_data vote)) (ed_agg_signature extra) = Ok tt;
  voted_source : vd_source_hash vote = hash_of (bu_source_header u);
  voted_target : vd_target_hash vote = hash_of (bu_target_header u);
  voted_nonzero : vd_source_hash vote <> H256_zero /\ vd_target_hash vote <> H256_zero
}.

Lemma verify_bsc_header_ok validators u r :
  verify_bsc_header C validators u = Some (Ok r) ->
  (exists vote, voted validators u vote) /\ vr_hash r = hash_of (bu_source_header u) /\
  vr_finalized_header r = bu_source_header u /\ next_ok validators u (vr_next_validators r).
Proof.
  unfold verify_bsc_header. intros (p & Hp & Hv)%vget_ok. vstep Hv extra He.
  apply vlift_ok, map_err_ok in He as ->. vcheck Hv Q0. vstep Hv bits Hb. apply vlift_ok, ok_or_ok in Hb.
  vcheck Hv Q1. vcheck Hv Q2. vstep Hv key Hk. apply vlift_ok, ok_or_ok in Hk.
  vstep Hv w Hs. destruct w. apply vlift_ok, map_err_ok in Hs. vstep Hv next Hn.
  unfold vret in Hv. injection Hv as <-. cbn.
  apply orb_false_iff in Q0 as [Q0 Q0']. apply orb_false_iff in Q2 as [Q2 Q2'].
  rewrite bool_decide_eq_false in Q0, Q0'. rewrite negb_false_iff, bool_decide_eq_true in Q2, Q2'.
  apply Z.ltb_ge in Q1. split; [|split_and!; [done..|by apply next_validator_addresses_ok]].
  exists (ed_vote_data extra). split; [|done..]. exists extra, bits, key. done.
Qed.

(** Of the header with the attestation only the extra data and the timestamp are used. *)
Definition set_attested (u : BscClientUpdate) (h : CodecHeader) : BscClientUpdate :=
  mkBscClientUpdate (bu_source_header u) (bu_target_header u) h (bu_epoch_header_ancestry u).

Lemma verify_ignores_attested validators u h :
  ch_extra_data h = ch_extra_data (bu_attested_header u) ->
  ch_timestamp h = ch_timestamp (bu_attested_header u) ->
  verify_bsc_header C validators (set_attested u h) = verify_bsc_header C validators u.
Proof.
  intros He Ht. unfold verify_bsc_header. cbn [bu_attested_header bu_source_header bu_target_header set_attested].
  assert (parse_extra C h = parse_extra C (bu_attested_header u)) as ->.
  { unfold parse_extra. by rewrite He, Ht. }
  done.
Qed.

End headers.

(** ** The client *)

Section client.
Context `{Keccak256} `{!RollupLib} `{!Bls, !BscLib}.
Context `{!Codec BscClientUpdate, !Codec BscConsensusState} (C : BscConfig).

(** The validators that must have signed the update: those of the next epoch, once they
    are known and the attested header is past the middle of the rotation. *)
Definition rotates (s : BscConsensusState) (u : BscClientUpdate) : Prop :=
  Z.of_nat (length (bsc_current_validators s)) / 2
  <= low_u64 (ch_number (bu_attested_header u)) mod EPOCH_LENGTH.

Definition signers (s : BscConsensusState) (u : BscClientUpdate) (vs : list bytes) : Prop :=
  match bsc_next_validators s with
  | Some next => (rotates s u /\ vs = nv_validators next /\
        compute_epoch (low_u64 (ch_number (bu_attested_header u)))
        = compute_epoch (low_u64 (ch_number (bu_source_header u))))
      \/ (~ rotates s u /\ vs = bsc_current_validators s)
  | None => vs = bsc_current_validators s
  end.

Lemma rotate_ok s u s' :
  rotate s u = Ok s' -> signers s u (bsc_current_validators s') /\
  bsc_finalized_height s' = bsc_finalized_height s /\ bsc_chain_id s' = bsc_chain_id s /\
  (bsc_next_validators s' = None \/ bsc_next_validators s' = bsc_next_validators s).
Proof.
  unfold rotate, signers, rotates. destruct (bsc_next_validators s) as [next|] eqn:En.
  - case_match eqn:E1; [apply Z.leb_le in E1|apply Z.leb_gt in E1].
    + case_match eqn:E2; [done|]. apply negb_false_iff, Z.eqb_eq in E2. intros [= <-]. cbn. naive_solver.
    + intros [= <-]. split_and!; [|done|done|auto]. right. split; [lia|done].
  - intros [= <-]. auto.
Qed.

(** What the client learns from an update. *)
Record bsc_accepted (s : BscConsensusState) (u : BscClientUpdate) (s' : BscConsensusState)
    (commitments : VerifiedCommitments) : Prop := {
  ba_newer : bsc_finalized_height s < bsc_finalized_height s';
  ba_signers : signers s u (bsc_current_validators s');
  ba_voted : exists vote, voted C (bsc_current_validators s') u vote;
  ba_head : bsc_finalized_height s' = low_u64 (ch_number (bu_source_header u)) /\
    bsc_finalized_hash s' = hash_of (bu_source_header u) /\ bsc_chain_id s' = bsc_chain_id s;
  ba_next : exists next, next_ok C (bsc_current_validators s') u next /\
    (bsc_next_validators s' = next \/
     next = None /\ (bsc_next_validators s' = None \/ bsc_next_validators s' = bsc_next_validators s));
  ba_commitments : commitments = [(Evm (bsc_chain_id s), [mkStateCommitmentHeight
    (mkStateCommitment (ch_timestamp (bu_source_header u)) None (ch_state_root (bu_source_header u)))
    (low_u64 (ch_number (bu_source_header u)))])]
}.

Lemma bsc_accepts id s u encoded commitments :
  bsc_verify_consensus C id (encode s) (encode u) = Some (Ok (encoded, commitments)) ->
  exists s', encoded = encode s' /\ bsc_accepted s u s' commitments.
Proof.
  unfold bsc_verify_consensus. intros Hv. vstep Hv u' Hu. apply vlift_ok, ok_or_ok in Hu.
  rewrite decode_encode in Hu. injection Hu as <-. vstep Hv s0 Hs. apply vlift_ok, ok_or_ok in Hs.
  rewrite decode_encode in Hs. injection Hs as <-. vcheck Hv Q0. apply Z.leb_gt in Q0.
  vstep Hv s1 Hr. apply vlift_ok in Hr. destruct (rotate_ok _ _ _ Hr) as (Hsig & Hh & Hc & Hn).
  apply vget_ok in Hv as (res & Hx & Hv). vstep Hv r Hr'. apply vlift_ok, map_err_ok in Hr' as ->.
  destruct (verify_bsc_header_ok _ _ _ _ Hx) as (Hvote & Hhash & Hhead & Hnext).
  unfold vret in Hv. injection Hv as <- <-. eexists. split; [done|].
  rewrite Hhead. split; cbn; [lia|done|done|done| |by rewrite Hc].
  eexists. split; [exact Hnext|]. destruct (vr_next_validators r); auto.
Qed.

(** C23: an update that is accepted advances the finalised height. It carries an attestation
    of the source and target headers whose signature is that of the validators, of the set
    in charge, whose bits are set: the next set after the rotation point of its epoch, else
    the current one. Two thirds as many bits as there are validators are set, but bits that
    name no validator count as well, so that this is not two thirds of the validators
    ([phantom_votes_accepted]). The client stores the
    source header, and reports its state root and timestamp at its height for the
    configured chain, and nothing else. New validators are those listed in a header that is
    the source or, through parent hashes, one of its ancestors. *)
Theorem bsc_update_verified id s u encoded commitments :
  bsc_verify_consensus C id (encode s) (encode u) = Some (Ok (encoded, commitments)) ->
  exists s', encoded = encode s' /\ bsc_accepted s u s' commitments.
Proof. apply bsc_accepts. Qed.

(** whoever has one valid update can present it as a fraud: the header that carries the
    attestation is not itself attested, so a copy of it with another field changed gives a
    second update, of the same number and with another hash, that verifies as well. *)
Theorem bsc_fraud_proof_forged s u r h :
  verify_bsc_header C (bsc_current_validators s) u = Some (Ok r) ->
  ch_extra_data h = ch_extra_data (bu_attested_header u) ->
  ch_timestamp h = ch_timestamp (bu_attested_header u) ->
  ch_number h = ch_number (bu_attested_header u) -> hash_of h <> hash_of (bu_attested_header u) ->
  bsc_verify_fraud_proof C (encode s) (encode u) (encode (set_attested u h)) = Some (Ok tt).
Proof.
  intros Hv He Ht Hn Hh. unfold bsc_verify_fraud_proof.
  rewrite !decode_encode. cbn [ok_or vlift vtry set_attested bu_attested_header].
  rewrite Hn, Z.eqb_refl. rewrite bool_decide_false by congruence. cbn [negb vguard vtry].
  cbn [ok_or vlift vtry].
  rewrite Hv. cbn [vget map_err vtry vlift].
  change (mkBscClientUpdate _ _ h _) with (set_attested u h).
  rewrite (verify_ignores_attested C _ u h He Ht), Hv. done.
Qed.

(** A set of validators is never replaced by an empty one. *)
Definition bsc_state_ok (s : BscConsensusState) : Prop :=
  bsc_current_validators s <> [] /\ is_u64 (bsc_finalized_height s) /\
  forall n, bsc_next_validators s = Some n -> nv_validators n <> [].

Lemma bsc_accepted_ok s u s' commitments :
  bsc_state_ok s -> bsc_accepted s u s' commitments -> bsc_state_ok s'.
Proof.
  intros (Hc & Hh & Hn) [_ Hs _ (Hh' & _) (next & (_ & Hnext) & Hor) _]. split_and!.
  - unfold signers in Hs. destruct (bsc_next_validators s) as [n|]; [|by rewrite Hs].
    destruct Hs as [(_ & -> & _)|(_ & ->)]; [by apply Hn|done].
  - rewrite Hh'. unfold is_u64, u64_max, low_u64. pose proof (Z.mod_pos_bound (ch_number (bu_source_header u)) (2 ^ 64)). lia.
  - intros n E. destruct Hor as [Hor|(-> & [Hor|Hor])]; rewrite Hor in E.
    + rewrite E in Hnext. by destruct Hnext as (? & _ & _ & ? & _).
    + done.
    + by apply Hn.
Qed.

(** The consensus states along a sequence of accepted updates. *)
Inductive bsc_run : BscConsensusState -> list BscClientUpdate -> BscConsensusState -> Prop :=
| bsc_run_nil s : bsc_run s [] s
| bsc_run_cons id s u s1 us s2 commitments :
    bsc_verify_consensus C id (encode s) (encode u) = Some (Ok (encode s1, commitments)) ->
    bsc_run s1 us s2 -> bsc_run s (u :: us) s2.

Lemma codec_encode_inj {A} `{!Codec A} (x y : A) : encode x = encode y -> x = y.
Proof. intros E. apply (f_equal decode) in E. rewrite !decode_encode in E. by injection E. Qed.

(** along any sequence of accepted updates the validator sets stay inhabited, the
    finalised height stays a 64-bit number and grows with every update, the chain stays the
    same, and no update is accepted twice. *)
Theorem bsc_runs_progress s us s' :
  bsc_state_ok s -> bsc_run s us s' ->
  bsc_state_ok s' /\ bsc_finalized_height s + Z.of_nat (length us) <= bsc_finalized_height s' /\
  bsc_chain_id s' = bsc_chain_id s /\ NoDup us /\
  Forall (fun u => bsc_finalized_height s < low_u64 (ch_number (bu_source_header u))) us.
Proof.
  intros Hok Hr. induction Hr as [s|id s u s1 us s2 commitments Hv Hr IH].
  - split_and!; [done|cbn; lia|done|constructor|constructor].
  - destruct (bsc_accepts _ _ _ _ _ Hv) as (x & E & Ha). apply codec_encode_inj in E as <-.
    destruct (IH (bsc_accepted_ok _ _ _ _ Hok Ha)) as (Hok2 & Hle & Hid & Hnd & Hall).
    destruct Ha as [Hlt _ _ (Hh & _ & Hc) _ _]. split_and!; [done|cbn; lia|congruence| |].
    + constructor; [|done]. intros Hin. pose proof (proj1 (Forall_forall _ _) Hall u Hin) as Hu. cbn in Hu. lia.
    + constructor; [lia|]. eapply Forall_impl; [exact Hall|]. cbn. intros. lia.
Qed.

End client.
