(* ===== verification/BscDemo.v ===== *)
(** * Concrete votes of BSC validators

    Toy signatures (a key is a number, a signature the product of the key and the message)
    and a fixed layout of attestations; the theorems of [BscProps] are applied to updates
    across an epoch boundary. *)

From S2P Require Import Prelude StateMachine Router Messaging Host ChildTrie PalletDemo Apps EvmKeys DemoCodec EvmMachine Rollups EvmDemo SyncCommittee Bsc BscProps.

Module BscDemo.
#[local] Existing Instances EvmDemo.hash32.

(** ** Libraries *)

#[local] Instance bls : Bls := {|
  G1 := Z; G2 := Z; Gt := Z;
  pubkey_to_point k := Ok (of_be_bytes 0 k);
  g1_sub := Z.sub;
  g1_generator := 1;
  signature_to_point s := Ok (of_be_bytes 0 s);
  signature_subgroup_check _ := true;
  hash_to_point m _ := of_be_bytes 0 m;
  bls_pairing := Z.mul;
  DST_ETHEREUM := []
|}.

#[local] Instance rlp : RollupLib := {|
  rlp_encode_header h := gh_parent_hash h ++ gh_state_root h ++ to_be_bytes 8 (gh_timestamp h)
    ++ to_be_bytes 8 (gh_number h) ++ to_be_bytes 8 (gh_gas_used h) ++ gh_extra_data h;
  rlp_decode_u256 raw := Some (of_be_bytes 0 raw);
  rlp_decode_bytes raw := Some raw;
  ethabi_encode_game t claim extra := to_be_bytes 4 t ++ extra ++ claim
|}.

(** [f8], eight bytes of votes, the signature, the two hashes. *)
Definition attestation (votes : Z) (signature : bytes) (vote : VoteData) : bytes :=
  Byte.xf8 :: to_be_bytes 8 votes ++ signature ++ vd_source_hash vote ++ vd_target_hash vote.
Definition field (first size : nat) (l : bytes) : bytes := take size (drop first l).

#[local] Instance lib : BscLib := {|
  rlp_decode_attestation l :=
    if (length l =? 169)%nat then
      Some (mkVoteAttestationData (of_be_bytes 0 (field 1 8 l)) (field 9 96 l)
        (mkVoteData 0 (field 105 32 l) 0 (field 137 32 l)) [])
    else None;
  rlp_encode_vote_data v := vd_source_hash v ++ vd_target_hash v;
  bitvector_64 l :=
    if (length l =? 8)%nat then
      Some ((fun i => Z.testbit (of_be_bytes 0 (reverse l)) (Z.of_nat i)) <$> seq 0 64)
    else None;
  bls_public_key k := if (length k =? 48)%nat then Some k else None;
  point_to_pubkey p := to_be_bytes 48 p;
  g1_default := 0;
  g1_plus := Z.add
|}.

(** ** Headers *)

Definition zeros : H256 := replicate 32 Byte.x00.
Definition vanity : bytes := replicate 32 Byte.x01.
Definition seal : bytes := replicate 65 Byte.x02.

(** Before the Bohr fork of the main network. *)
Definition header (parent : H256) (number timestamp gas_used : Z) (extra : bytes) : CodecHeader :=
  mkCodecHeader parent zeros (replicate 20 Byte.x00) (replicate 32 Byte.x5a) zeros zeros [] 0 number 0
    gas_used timestamp extra zeros [] None None None None None.

Definition validator (k : Z) : ValidatorInfo := mkValidatorInfo (to_be_bytes 20 k) (to_be_bytes 48 k).
Definition keys (l : list Z) : list bytes := to_be_bytes 48 <$> l.

Definition no_extra : bytes := vanity ++ seal.
Definition filler : VoteData := mkVoteData 0 zeros 0 zeros.

(** Header 400 starts an epoch; it lists its validators in another order. *)
Definition epoch_header : CodecHeader := header zeros 400 1700000000 0
  (epoch_extra vanity (validator <$> [13; 11; 12]) [] (attestation 0 (replicate 96 Byte.x00) filler) seal).
Definition source (parent : H256) (n : Z) : CodecHeader := header parent n 1700000000 0 no_extra.

(** The attested header, with the votes [votes] and the signature of the key [k]. *)
Definition signed (votes k : Z) (s t : CodecHeader) : bytes :=
  let vote := mkVoteData 0 (hash_of s) 0 (hash_of t) in
  vanity ++ attestation votes
    (to_be_bytes 96 (k * of_be_bytes 0 (keccak256 (rlp_encode_vote_data vote)))) vote ++ seal.
Definition attested (n votes k : Z) (s t : CodecHeader) : CodecHeader :=
  header zeros n 1700000000 0 (signed votes k s t).
Definition update (n votes k : Z) (s : CodecHeader) (ancestry : list CodecHeader) : BscClientUpdate :=
  let t := source (hash_of s) (n - 1) in mkBscClientUpdate s t (attested n votes k s t) ancestry.

(** Signed by the first four of six; then by two of the next three. *)
Definition first : BscClientUpdate := update 403 15 (1 + 2 + 3 + 4) (source (hash_of epoch_header) 401) [epoch_header].
Definition second : BscClientUpdate := update 407 6 (12 + 13) (source zeros 405) [].

Definition trusted : BscConsensusState := mkBscConsensusState (keys [1; 2; 3; 4; 5; 6]) None 390 zeros 1 56.
Definition after_first : BscConsensusState :=
  mkBscConsensusState (keys [1; 2; 3; 4; 5; 6]) (Some (mkNextValidators (keys [11; 12; 13]) 403)) 401
    (hash_of (bu_source_header first)) 1 56.
Definition after_second : BscConsensusState :=
  mkBscConsensusState (keys [11; 12; 13]) None 405 (hash_of (bu_source_header second)) 2 56.

(** ** Codecs *)

Ltac fields := intros []; cbv beta iota; repeat (rewrite decode_encode; cbn [mbind option_bind]); reflexivity.
#[local] Instance zc : Codec Z := z_codec.
#[local] Instance sc : Codec bytes := string_codec.
#[local] Instance lc {A} `{!Codec A} : Codec (list A) | 10 := list_codec _.
#[local] Instance oc {A} `{!Codec A} : Codec (option A) := option_codec _.

#[local] Instance header_codec : Codec CodecHeader := fields_codec
  (fun h => [ch_parent_hash h; ch_uncle_hash h; ch_coinbase h; ch_state_root h; ch_transactions_root h;
    ch_receipts_root h; ch_logs_bloom h; encode (ch_difficulty h); encode (ch_number h); encode (ch_gas_limit h);
    encode (ch_gas_used h); encode (ch_timestamp h); ch_extra_data h; ch_mix_hash h; ch_nonce h;
    encode (ch_base_fee_per_gas h); encode (ch_withdrawals_hash h); encode (ch_blob_gas_used h);
    encode (ch_excess_blob_gas_used h); encode (ch_parent_beacon_root h)])
  (fun l => match l with
    | [a; b; c; d; e; f; g; h; i; j; k; l; m; n; o; p; q; r; s; t] =>
        h ← decode h; i ← decode i; j ← decode j; k ← decode k; l ← decode l; p ← decode p; q ← decode q;
        r ← decode r; s ← decode s; t ← decode t;
        Some (mkCodecHeader a b c d e f g h i j k l m n o p q r s t)
    | _ => None end) ltac:(fields).

#[local] Instance update_codec : Codec BscClientUpdate := fields_codec
  (fun u => [encode (bu_source_header u); encode (bu_target_header u); encode (bu_attested_header u);
    encode (bu_epoch_header_ancestry u)])
  (fun l => match l with
    | [a; b; c; d] => a ← decode a; b ← decode b; c ← decode c; d ← decode d; Some (mkBscClientUpdate a b c d)
    | _ => None end) ltac:(fields).

#[local] Instance next_codec : Codec NextValidators := fields_codec
  (fun n => [encode (nv_validators n); encode (nv_rotation_block n)])
  (fun l => match l with [a; b] => a ← decode a; b ← decode b; Some (mkNextValidators a b) | _ => None end) ltac:(fields).

#[local] Instance state_codec : Codec BscConsensusState := fields_codec
  (fun s => [encode (bsc_current_validators s); encode (bsc_next_validators s); encode (bsc_finalized_height s);
    bsc_finalized_hash s; encode (bsc_current_epoch s); encode (bsc_chain_id s)])
  (fun l => match l with
    | [a; b; c; d; e; f] => a ← decode a; b ← decode b; c ← decode c; e ← decode e; f ← decode f;
        Some (mkBscConsensusState a b c d e f)
    | _ => None end) ltac:(fields).

(** ** Runs *)

Definition commitment (u : BscClientUpdate) : VerifiedCommitments :=
  [(Evm 56, [mkStateCommitmentHeight (mkStateCommitment 1700000000 None (replicate 32 Byte.x5a))
    (ch_number (bu_source_header u))])].

Lemma bsc_first_run : bsc_verify_consensus BscMainnet BSC_CONSENSUS_ID (encode trusted) (encode first)
  = Some (Ok (encode after_first, commitment first)).
Proof. vm_compute. reflexivity. Qed.
Lemma bsc_second_run : bsc_verify_consensus BscMainnet BSC_CONSENSUS_ID (encode after_first) (encode second)
  = Some (Ok (encode after_second, commitment second)).
Proof. vm_compute. reflexivity. Qed.

Lemma bsc_update_verified_witness : exists s', encode after_second = encode s' /\
  bsc_accepted BscMainnet after_first second s' (commitment second).
Proof. exact (bsc_update_verified BscMainnet _ _ _ _ _ bsc_second_run). Defined.

Lemma bsc_runs_progress_witness : bsc_state_ok after_second /\ 390 + 2 <= 405.
Proof.
  destruct (bsc_runs_progress BscMainnet trusted [first; second] after_second) as (Hok & Hle & _).
  - split_and!; [discriminate|split; discriminate|discriminate].
  - eapply bsc_run_cons; [exact bsc_first_run|]. eapply bsc_run_cons; [exact bsc_second_run|constructor].
  - exact (conj Hok Hle).
Defined.

(** The same header, with other gas. *)
Definition other_header : CodecHeader :=
  header zeros 403 1700000000 1 (ch_extra_data (bu_attested_header first)).

Lemma header_run : exists r, verify_bsc_header BscMainnet (bsc_current_validators trusted) first = Some (Ok r).
Proof. eexists. vm_compute. reflexivity. Defined.

Lemma bsc_fraud_proof_forged_witness :
  bsc_verify_fraud_proof BscMainnet (encode trusted) (encode first) (encode (set_attested first other_header))
  = Some (Ok tt).
Proof.
  destruct header_run as [r Hr]. apply (bsc_fraud_proof_forged BscMainnet trusted first r other_header Hr); try reflexivity.
  apply (bool_decide_eq_true_1 (hash_of other_header <> hash_of (bu_attested_header first))). vm_compute. reflexivity.
Defined.

(** An attestation after three validators. *)
Lemma parse_extra_epoch_witness : parse_extra BscMainnet epoch_header
  = Some (Ok (mkExtraData vanity 3 (validator <$> [11; 12; 13]) seal (replicate 96 Byte.x00) filler 0)).
Proof.
  refine (parse_extra_epoch BscMainnet epoch_header vanity (validator <$> [13; 11; 12]) []
    (attestation 0 (replicate 96 Byte.x00) filler) seal
    (mkVoteAttestationData 0 (replicate 96 Byte.x00) filler []) _ _ _ _ _ _ _ _ _);
    try reflexivity; try discriminate; try (vm_compute; reflexivity); [|cbn; lia].
  repeat constructor; unfold validator_wf; cbn; rewrite !length_to_be_bytes; reflexivity.
Defined.

Lemma parse_extra_typed_witness : let x := mkExtraData vanity 3 (validator <$> [11; 12; 13]) seal
    (replicate 96 Byte.x00) filler 0 in
  parse_extra BscMainnet epoch_header = Some (Ok x) /\ Forall validator_wf (ed_validators x) /\
  Sorted vi_le (ed_validators x).
Proof.
  intros x. assert (parse_extra BscMainnet epoch_header = Some (Ok x)) as Hp by (vm_compute; reflexivity).
  pose proof (parse_extra_typed BscMainnet epoch_header x Hp) as (_ & _ & Hw & Hs & _). done.
Defined.

(** ** Too few votes *)

(** Fourteen bits, of which only the first names one of the 21 validators. *)
Definition phantom_votes : Z := 1 + 2 ^ 40 * (2 ^ 13 - 1).
Definition many : list bytes := keys (Z.of_nat <$> seq 1 21).

(** bits of the vote that name no validator are counted as votes: with 21 validators, of
    which two thirds are 14, an update that only the first one has signed is accepted when
    it sets 13 more bits past the end of the set. *)
Theorem phantom_votes_accepted :
  length many = 21%nat /\
  is_Some (verify_bsc_header BscMainnet many (update 403 phantom_votes 1 (source zeros 401) []) ≫= ok) /\
  verify_bsc_header BscMainnet many (update 403 1 1 (source zeros 401) [])
  = Some (Err (lit "Not enough participants")).
Proof. split_and!; [reflexivity|eexists; vm_compute; reflexivity|vm_compute; reflexivity]. Qed.

End BscDemo.
