(* ===== verification/Parachain.v ===== *)
(** * The parachain client

    [clients/parachain/client/src/{consensus, lib, migration}.rs] and
    [clients/parachain/inherent/src/lib.rs]: a parachain learns the states of its siblings
    from the heads that the relay chain records. The pallet keeps the state roots of the
    relay chain and the list of siblings; block builders submit proofs of their heads as
    inherents. *)

From S2P Require Import Prelude StateMachine Router Messaging Host Handlers ChildTrie PalletTypes PalletHost Pallet SubstrateMachine Grandpa.

(** ** Data *)

(** [b"PARA"] *)
Definition PARACHAIN_CONSENSUS_ID : ConsensusClientId := (Byte.x50, Byte.x41, Byte.x52, Byte.x41).

Record ParachainConsensusProof : Type := mkParachainConsensusProof {
  pcp_relay_height : Z;
  pcp_storage_proof : list bytes
}.

Record ParachainData : Type := mkParachainData {
  pd_id : Z;
  pd_slot_duration : Z
}.

Inductive ParachainEvent : Type :=
| ParachainsAdded (para_ids : list ParachainData)
| ParachainsRemoved (para_ids : list Z).

(** [RelayChainState] of parachain-system. *)
Record RelayChainState : Type := mkRelayChainState {
  rs_number : Z;
  rs_state_root : H256
}.

(** The storage and the events of the pallet, with its storage version. *)
Record ParachainPallet : Type := mkParachainPallet {
  RelayChainStateCommitments : gmap Z H256;
  ConsensusUpdated : option bool;
  Parachains : gmap Z Z;
  para_version : Z;
  para_events : list ParachainEvent
}.

(** What the runtime keeps beside pallet-ismp: accounts, the pallet, and the state of the
    relay chain at the current block ([current_relay_chain_state]). *)
Record ParaBank (Acc : Type) : Type := mkParaBank {
  pb_accounts : Acc;
  pb_para : ParachainPallet;
  pb_relay : RelayChainState
}.
Arguments mkParaBank {Acc}.
Arguments pb_accounts {Acc}.
Arguments pb_para {Acc}.
Arguments pb_relay {Acc}.

#[export] Program Instance para_currency {Acc} `{!Currency Acc} : Currency (ParaBank Acc) := {|
  balance a k := balance a (pb_accounts k);
  transfer a b n k :=
    result_map (fun acc => mkParaBank acc (pb_para k) (pb_relay k)) (transfer a b n (pb_accounts k))
|}.
Next Obligation.
  intros Acc HC a b n k k' Hne E. cbn in *. destruct (transfer a b n (pb_accounts k)) eqn:Et; [|done].
  injection E as <-. cbn. by apply transfer_moves.
Qed.

Section state.
Context {Acc Tree : Type}.
Abbreviation St := (Chain (ParaBank Acc) Tree).

Definition para (c : St) : ParachainPallet := pb_para (bank c).
Definition current_relay_chain_state (c : St) : RelayChainState := pb_relay (bank c).

Definition modify_para (f : ParachainPallet -> ParachainPallet) : M St unit :=
  modify (upd_bank (fun k => mkParaBank (pb_accounts k) (f (pb_para k)) (pb_relay k))).

Definition on_RelayRoots f (p : ParachainPallet) := mkParachainPallet (f (RelayChainStateCommitments p))
  (ConsensusUpdated p) (Parachains p) (para_version p) (para_events p).
Definition on_ConsensusUpdated f (p : ParachainPallet) := mkParachainPallet (RelayChainStateCommitments p)
  (f (ConsensusUpdated p)) (Parachains p) (para_version p) (para_events p).
Definition on_Parachains f (p : ParachainPallet) := mkParachainPallet (RelayChainStateCommitments p)
  (ConsensusUpdated p) (f (Parachains p)) (para_version p) (para_events p).
Definition on_para_version f (p : ParachainPallet) := mkParachainPallet (RelayChainStateCommitments p)
  (ConsensusUpdated p) (Parachains p) (f (para_version p)) (para_events p).
Definition para_event (e : ParachainEvent) : M St unit :=
  modify_para (fun p => mkParachainPallet (RelayChainStateCommitments p) (ConsensusUpdated p)
    (Parachains p) (para_version p) (para_events p ++ [e])).

(** [RelayChainOracle for Pallet] *)
Definition relay_state_root (height : Z) (c : St) : option H256 :=
  RelayChainStateCommitments (para c) !! height.

Definition para_ids (c : St) : list Z := (map_to_list (Parachains (para c))).*1.

End state.

(** ** The client *)

(** A parachain of the same relay chain as the host. *)
Definition sibling (host : StateMachine) (id : Z) : option StateMachine :=
  match host with
  | Kusama _ => Some (Kusama id)
  | Polkadot _ => Some (Polkadot id)
  | _ => None
  end.

(** [u32::decode] of the last four bytes. *)
Definition of_le_bytes (l : bytes) : Z := of_be_bytes 0 (reverse l).
Definition decode_para_id (key : bytes) : Z := of_le_bytes (drop (length key - 4) key).

Record HeaderDigest : Type := mkHeaderDigest {
  hd_timestamp : Z;
  hd_overlay_root : H256;
  hd_mmr_root : H256
}.
Definition no_digest : HeaderDigest := mkHeaderDigest 0 (replicate 32 Byte.x00) (replicate 32 Byte.x00).

Section client.
Context {H : Type} `{!HeaderT H} `{!Codec H, !Codec bytes, !TrieDb, !Twox, !DebugError}.
Context `{!SlotCodec, !Codec ConsensusDigest, !Codec ParachainConsensusProof}.
Context {Acc Tree : Type}.
Abbreviation St := (Chain (ParaBank Acc) Tree).

(** [host.host_state_machine()], [T::Coprocessor] and [R: RelayChainOracle] *)
Variable host : StateMachine.
Variable Coprocessor : option StateMachine.
Variable R : Z -> St -> option H256.

Definition read_log (slot_duration : Z) (d : HeaderDigest) (item : DigestItem) : V Error HeaderDigest :=
  match item with
  | PreRuntime id value =>
      if bool_decide (id = AURA_ENGINE_ID) then
        let! slot := vlift (ok_or (decode_aura_slot value)
            (Custom (lit "Cannot slot: " ++ decode_text value))) in
        vret (mkHeaderDigest (slot_time slot slot_duration) (hd_overlay_root d) (hd_mmr_root d))
      else vret d
  | DigestConsensus id value =>
      if bool_decide (id = ISMP_ID) then
        match decode value with
        | Some log => vret (mkHeaderDigest (hd_timestamp d) (cd_child_trie_root log) (cd_mmr_root log))
        | None => verr (Custom (lit "Header contains an invalid ismp consensus log"))
        end
      else vret d
  | _ => vret d
  end.

(** The commitment of a parachain with a header. *)
Definition para_commitment (state_id : StateMachine) (d : HeaderDigest) (header : H) :
    StateCommitmentHeight :=
  mkStateCommitmentHeight
    (if bool_decide (Coprocessor = Some state_id)
     then mkStateCommitment (hd_timestamp d) (Some (hd_mmr_root d)) (hd_overlay_root d)
     else mkStateCommitment (hd_timestamp d) (Some (hd_overlay_root d)) (header_state_root header))
    (header_number header).

(** The body of the loop over the values that were read. *)
Definition read_head (parachains : gmap Z Z) (intermediates : VerifiedCommitments)
    (entry : bytes * option bytes) : V Error VerifiedCommitments :=
  match entry.2 with
  | None => vret intermediates
  | Some raw =>
      let id := decode_para_id entry.1 in
      get! slot_duration := parachains !! id in
      let! header := vlift (ok_or (decode (A := H) raw)
          (Custom (lit "Error decoding parachain header: " ++ decode_text raw))) in
      let! d := vfold (read_log slot_duration) no_digest (header_digest header) in
      let! _ := vguard (hd_timestamp d =? 0) (Custom (lit "Timestamp not found")) in
      let! state_id := vlift (ok_or (sibling host id)
          (Custom (lit "Host state machine should be a parachain"))) in
      vret (btree_insert compare_StateMachine state_id [para_commitment state_id d header] intermediates)
  end.

(** The state root at a height: recorded, or that of the current block. *)
Definition relay_root (relay_height : Z) (c : St) : option H256 :=
  match R relay_height c with
  | Some root => Some root
  | None =>
      let state := current_relay_chain_state c in
      if rs_number state =? relay_height then Some (rs_state_root state) else None
  end.

Definition para_verify_consensus (c : St) (state proof : bytes) : V Error (bytes * VerifiedCommitments) :=
  let! update := vlift (ok_or (decode proof)
      (Custom (lit "Cannot decode parachain consensus proof: " ++ decode_text proof))) in
  let! root := vlift (ok_or (relay_root (pcp_relay_height update) c)
      (Custom (lit "Cannot find relay chain height: " ++ show_dec (pcp_relay_height update)))) in
  let header_keys := parachain_header_storage_key <$> para_ids c in
  get! read := read_proof_check Blake2 root (pcp_storage_proof update) header_keys in
  let! headers := vlift (map_err (fun e =>
      Custom (lit "Error verifying parachain header " ++ debug_error e)) read) in
  let! intermediates := vfold (read_head (Parachains (para c))) [] headers in
  vret (state, intermediates).

(** The registered parachains, as the configuration that [state_machine] reads, and the
    client [S] of a parachain's state. *)
Variable registered : gmap Z Z.
Variable S : StateMachine -> StateMachineClient St.

Definition para_state_machine (id : StateMachine) : result Error (StateMachineClient St) :=
  match id with
  | Polkadot para_id | Kusama para_id =>
      if bool_decide (is_Some (registered !! para_id)) then Ok (S id)
      else Err (Custom (lit "Parachain with id " ++ show_dec para_id ++ lit " not registered"))
  | _ => Err (Custom (lit "State Machine is not supported by this consensus client"))
  end.

Definition para_client : ConsensusClient St := {|
  verify_consensus c _ := para_verify_consensus c;
  verify_fraud_proof _ _ _ _ := vret tt;
  client_id := PARACHAIN_CONSENSUS_ID;
  state_machine := para_state_machine
|}.

End client.

(** [RelayChainInterface]: the hash of the header at a height, the storage under a key, and
    proofs of the values under some keys. *)
Record RelayChainInterface : Type := mkRelayChainInterface {
  rci_header : Z -> option H256;
  rci_storage : H256 -> bytes -> result bytes (option bytes);
  rci_prove_read : H256 -> list bytes -> result bytes (list bytes)
}.

(** ** The pallet *)

Inductive ParachainCall : Type :=
| update_parachain_consensus_call (data : ConsensusMessage)
| add_parachain_call (para_ids : list ParachainData)
| remove_parachain_call (para_ids : list Z).

Section pallet.
Context `{HK : Keccak256} `{HC : Codecs, !HeightSort, !ErrorText} `{!Codec Leaf}.
Context {Acc Tree : Type} `{!Currency Acc, !Mmr Tree, !Config (ParaBank Acc) Tree}.
Abbreviation St := (Chain (ParaBank Acc) Tree).

Definition update_parachain_consensus (origin : Origin) (data : ConsensusMessage) :
    M St (result DispatchError unit) :=
  let? _ := ret (ensure_none origin) in
  let* updated := gets (fun c => ConsensusUpdated (para c)) in
  if bool_decide (is_Some updated) then panic
  else if negb (bool_decide (cm_consensus_state_id data = PARACHAIN_CONSENSUS_ID)) then panic
  else
    let* handled := handle_messages [MsgConsensus data] in
    let* _ := (if is_err handled then ret tt
               else modify_para (on_ConsensusUpdated (fun _ => Some true))) in
    ret (Ok tt).

Definition para_machine_id (state_id : StateMachine) : StateMachineId :=
  mkStateMachineId state_id PARACHAIN_CONSENSUS_ID.

Definition add_one_parachain (p : ParachainData) : M St unit :=
  match sibling HostStateMachine (pd_id p) with
  | None => ret tt
  | Some state_id =>
      let* _ := modify_para (on_Parachains <[pd_id p := pd_slot_duration p]>) in
      let* _ := store_challenge_period (para_machine_id state_id) 0 in
      ret tt
  end.

Definition add_parachain (origin : Origin) (para_ids : list ParachainData) :
    M St (result DispatchError unit) :=
  let? _ := ret (ensure_admin origin) in
  let* _ := map_m add_one_parachain para_ids in
  let* _ := para_event (ParachainsAdded para_ids) in
  ret (Ok tt).

Definition remove_parachain (origin : Origin) (para_ids : list Z) : M St (result DispatchError unit) :=
  let? _ := ret (ensure_admin origin) in
  let* _ := map_m (fun id => modify_para (on_Parachains (delete id))) para_ids in
  let* _ := para_event (ParachainsRemoved para_ids) in
  ret (Ok tt).

Definition initialize : M St unit :=
  let* created := create_client (mkCreateConsensusState [] PARACHAIN_CONSENSUS_ID
      PARACHAIN_CONSENSUS_ID u64_max [] []) in
  or_panic (option_map (fun _ => tt) (ok created)).

Definition para_on_finalize : M St unit :=
  let* state := gets current_relay_chain_state in
  let* known := gets (relay_state_root (rs_number state)) in
  if bool_decide (is_Some known) then ret tt
  else modify_para (on_RelayRoots <[rs_number state := rs_state_root state]>).

Definition para_on_initialize : M St unit :=
  let* _ := modify_para (on_ConsensusUpdated (fun _ => None)) in
  let* state := gets (consensus_state PARACHAIN_CONSENSUS_ID) in
  if is_err state then initialize else ret tt.

(** [migrate_to_v1]: a stored value of any form decodes as [()]. *)
Definition para_on_runtime_upgrade : M St unit :=
  let* version := gets (fun c => para_version (para c)) in
  if version =? 0 then
    let* _ := modify_para (on_Parachains (fmap (fun _ => 12000))) in
    modify_para (on_para_version (fun _ => 1))
  else ret tt.

(** [STORAGE_VERSION], which a new chain starts with. *)
Definition STORAGE_VERSION : Z := 0.

Definition build_one_parachain (p : ParachainData) : M St unit :=
  let* _ := modify_para (on_Parachains <[pd_id p := pd_slot_duration p]>) in
  match sibling HostStateMachine (pd_id p) with
  | None => ret tt
  | Some state_id => let* _ := store_challenge_period (para_machine_id state_id) 0 in ret tt
  end.

Definition genesis_build (parachains : list ParachainData) : M St unit :=
  let* _ := initialize in
  let* _ := map_m build_one_parachain parachains in
  ret tt.

Definition create_inherent (data : option ConsensusMessage) : option ParachainCall :=
  update_parachain_consensus_call <$> data.

Definition is_inherent (call : ParachainCall) : bool :=
  match call with update_parachain_consensus_call _ => true | _ => false end.

End pallet.

(** ** The inherent provider *)

Section inherent.
Context {Acc Tree : Type} `{!Config (ParaBank Acc) Tree}.
Abbreviation St := (Chain (ParaBank Acc) Tree).
Context {H : Type} `{!HeaderT H} `{!Codec H, !Codec bytes, !Twox, !Codec ParachainConsensusProof}.

(** The runtime API's [latest_state_machine_height]. *)
Definition latest_state_machine_height (id : StateMachineId) (c : St) : option Z :=
  LatestStateMachineHeight (storage c) !! id.

(** Whether the head of a parachain is newer than what is known. *)
Definition to_fetch (relay : RelayChainInterface) (relay_hash : H256) (c : St) (id : Z) : result bytes bool :=
  match rci_storage relay relay_hash (parachain_header_storage_key id) with
  | Err e => Err e
  | Ok None => Ok false
  | Ok (Some head) =>
      match decode (A := bytes) head with
      | None => Ok false
      | Some intermediate =>
          match decode (A := H) intermediate with
          | None => Ok false
          | Some header =>
              match sibling HostStateMachine id with
              | None => Err (lit "Unsupported state machine: " ++ debug_StateMachine HostStateMachine)
              | Some state_id =>
                  let height := default 0 (latest_state_machine_height (para_machine_id state_id) c) in
                  Ok (negb (header_number header <=? height))
              end
          end
      end
  end.

Fixpoint ids_to_fetch (relay : RelayChainInterface) (relay_hash : H256) (c : St) (ids : list Z) :
    result bytes (list Z) :=
  match ids with
  | [] => Ok []
  | id :: r =>
      match to_fetch relay relay_hash c id with
      | Err e => Err e
      | Ok b => result_map (fun l => if b then id :: l else l) (ids_to_fetch relay relay_hash c r)
      end
  end.

Definition create (relay : RelayChainInterface) (c : St) : result bytes (option ConsensusMessage) :=
  match para_ids c with
  | [] => Ok None
  | ids =>
      let state := current_relay_chain_state c in
      if rs_number state =? 0 then Ok None
      else match rci_header relay (rs_number state) with
      | None => Ok None
      | Some relay_hash =>
          match ids_to_fetch relay relay_hash c ids with
          | Err e => Err e
          | Ok [] => Ok None
          | Ok fetch =>
              match rci_prove_read relay relay_hash (parachain_header_storage_key <$> fetch) with
              | Err e => Err e
              | Ok storage_proof => Ok (Some (mkConsensusMessage
                  (encode (mkParachainConsensusProof (rs_number state) storage_proof))
                  PARACHAIN_CONSENSUS_ID []))
              end
          end
      end
  end.

End inherent.
