(* ===== verification/ParachainProps.v ===== *)
(** * What the parachain client shows *)

From S2P Require Import Prelude StateMachine Router Messaging Host Handlers HostSpec RefHost Frame Consensus ChildTrie PalletTypes PalletHost PalletRefines Pallet PalletFrames PalletProps SubstrateMachine Grandpa Parachain BeaconClient.

(** ** Keys *)

Lemma of_to_le_bytes id : is_u32 id -> of_le_bytes (to_le_bytes 4 id) = id.
Proof.
  intros Hid. unfold of_le_bytes, to_le_bytes. rewrite reverse_involutive.
  apply of_to_be_bytes. unfold is_u32, u32_max in Hid. lia.
Qed.

Lemma decode_para_id_key `{!Twox} id : is_u32 id -> decode_para_id (parachain_header_storage_key id) = id.
Proof.
  intros Hid. unfold decode_para_id, parachain_header_storage_key. rewrite !app_assoc.
  rewrite drop_app_length'; [by apply of_to_le_bytes|].
  rewrite !length_app. unfold to_le_bytes. rewrite length_reverse, length_to_be_bytes. lia.
Qed.

(** ** Reading proofs *)

Section reading.
Context `{!TrieDb, !Codec bytes}.

(** The value that is read under a key. *)
Definition read_key (root : H256) (nodes : list bytes) (key : bytes) : option bytes :=
  default None (ok (trie_get Blake2 nodes root key)) ≫= decode.

Lemma heads_read_ok root nodes keys m :
  read_proof_check Blake2 root nodes keys = Some (Ok m) <->
  trie_contains Blake2 nodes root = true /\
  Forall (fun key => is_ok (trie_get Blake2 nodes root key) = true) keys /\
  m = btree_collect compare_bytes ((fun key => (key, read_key root nodes key)) <$> keys).
Proof.
  unfold read_proof_check, vguard. destruct (trie_contains Blake2 nodes root); cbn [negb vtry]; [|naive_solver].
  rewrite vtry_ok. split.
  - intros (l & Hl%vmap_ok & Hm). unfold vret in Hm. injection Hm as <-. split; [done|].
    enough (Forall (fun key => is_ok (trie_get Blake2 nodes root key) = true) keys /\
      l = (fun key => (key, read_key root nodes key)) <$> keys) as [? ->] by done.
    induction Hl as [|key x keys l Hx _ [IH1 IH2]]; [done|].
    vstep Hx v Hv. apply vlift_ok, map_err_ok in Hv. unfold vret in Hx. injection Hx as <-.
    split; [by constructor; [rewrite Hv|]|]. cbn. rewrite <- IH2. unfold read_key. by rewrite Hv.
  - intros (_ & Hall & ->). exists ((fun key => (key, read_key root nodes key)) <$> keys). split; [|done].
    apply vmap_ok. induction Hall as [|key keys Hk _ IH]; constructor; [|done].
    unfold read_key. by destruct (trie_get Blake2 nodes root key) as [v|e].
Qed.

End reading.

(** ** Heads *)

Section heads.
Context {H : Type} `{!HeaderT H} `{!Codec H, !Codec bytes, !TrieDb, !Twox, !DebugError}.
Context `{!SlotCodec, !Codec ConsensusDigest, !Codec ParachainConsensusProof}.
Context {Acc Tree : Type}.
Abbreviation St := (Chain (ParaBank Acc) Tree).
Context (host : StateMachine) (Coprocessor : option StateMachine) (R : Z -> St -> option H256).

(** The commitment [l] of [state_id] is that of the head [raw] of the parachain [id]. *)
Definition head_commits (parachains : gmap Z Z) (id : Z) (raw : bytes) (state_id : StateMachine)
    (l : list StateCommitmentHeight) : Prop :=
  exists slot_duration header d, parachains !! id = Some slot_duration /\
    decode (A := H) raw = Some header /\
    vfold (read_log slot_duration) no_digest (header_digest header) = Some (Ok d) /\
    hd_timestamp d <> 0 /\ sibling host id = Some state_id /\
    l = [para_commitment Coprocessor state_id d header].

Lemma head_commits_fun parachains id raw s1 l1 s2 l2 :
  head_commits parachains id raw s1 l1 -> head_commits parachains id raw s2 l2 -> s1 = s2 /\ l1 = l2.
Proof.
  intros (d1 & h1 & x1 & P1 & D1 & F1 & _ & S1 & ->) (d2 & h2 & x2 & P2 & D2 & F2 & _ & S2 & ->).
  rewrite P1 in P2. injection P2 as <-. rewrite D1 in D2. injection D2 as <-.
  rewrite F1 in F2. injection F2 as <-. rewrite S1 in S2. by injection S2 as <-.
Qed.

Lemma sibling_inj id1 id2 s : sibling host id1 = Some s -> sibling host id2 = Some s -> id1 = id2.
Proof. destruct host; cbn; congruence. Qed.

Lemma read_head_ok parachains m key raw m' :
  read_head (H := H) host Coprocessor parachains m (key, Some raw) = Some (Ok m') <->
  exists state_id l, head_commits parachains (decode_para_id key) raw state_id l /\
    m' = btree_insert compare_StateMachine state_id l m.
Proof.
  unfold read_head, head_commits. cbn [fst snd]. split.
  - intros (slot & Hs & Hv)%vget_ok. vstep Hv header Hh. apply vlift_ok, ok_or_ok in Hh.
    vstep Hv d Hd. vcheck Hv Q. apply Z.eqb_neq in Q. vstep Hv sid Hsid. apply vlift_ok, ok_or_ok in Hsid.
    unfold vret in Hv. injection Hv as <-. exists sid. eexists. split; [|done]. by exists slot, header, d.
  - intros (sid & l & (slot & header & d & Hs & Hh & Hd & Ht & Hsid & ->) & ->).
    rewrite Hs. cbn [vget]. rewrite Hh. cbn [ok_or vlift vtry]. rewrite Hd. cbn [vtry].
    rewrite (proj2 (Z.eqb_neq _ _) Ht). cbn [vguard vtry]. by rewrite Hsid.
Qed.

(** Distinct entries are of distinct parachains. *)
Definition entries_ok (entries : list (bytes * option bytes)) : Prop :=
  forall e1 e2, e1 ∈ entries -> e2 ∈ entries -> decode_para_id e1.1 = decode_para_id e2.1 -> e1 = e2.

Definition emitted (parachains : gmap Z Z) (entries : list (bytes * option bytes))
    (x : StateMachine * list StateCommitmentHeight) : Prop :=
  exists key raw, (key, Some raw) ∈ entries /\ head_commits parachains (decode_para_id key) raw x.1 x.2.

Lemma emitted_cons parachains e entries x :
  emitted parachains entries x -> emitted parachains (e :: entries) x.
Proof. intros (k & r & ? & ?). exists k, r. split; [by right|done]. Qed.

Lemma entries_ok_cons e entries : entries_ok (e :: entries) -> entries_ok entries.
Proof. intros He e1 e2 ?? . apply He; by right. Qed.

(** The map that the loop builds holds exactly the commitments of the heads. *)
Lemma read_heads_elem parachains entries m0 m :
  entries_ok entries ->
  (forall x, x ∈ m0 -> forall y, emitted parachains entries y -> y.1 = x.1 -> y = x) ->
  vfold (read_head (H := H) host Coprocessor parachains) m0 entries = Some (Ok m) ->
  forall x, x ∈ m <-> x ∈ m0 \/ emitted parachains entries x.
Proof.
  revert m0; induction entries as [|[key [raw|]] entries IH]; intros m0 He Hm0 Hv x.
  - unfold vfold, vret in Hv. injection Hv as <-. unfold emitted. set_solver.
  - cbn [vfold] in Hv. vstep Hv m1 Hm1. apply read_head_ok in Hm1 as (sid & l & Hc & ->).
    assert (emitted parachains ((key, Some raw) :: entries) (sid, l)) as Hem.
    { exists key, raw. split; [left|done]. }
    rewrite (IH (btree_insert compare_StateMachine sid l m0) (entries_ok_cons _ _ He)); [|clear x|exact Hv].
    + split.
      * intros [Hx|Hx]; [|right; by apply emitted_cons].
        apply btree_insert_elem in Hx as [->|Hx]; auto.
      * intros [Hx|(k & r & [E|Hin]%elem_of_cons & Hk)].
        -- destruct (decide (x.1 = sid)) as [E|Hne].
           ++ rewrite <- (Hm0 x Hx (sid, l) Hem) by (by rewrite E). left. apply btree_insert_here.
           ++ left. by apply btree_insert_there; [apply compare_StateMachine_lawful|..].
        -- injection E as -> ->. destruct (head_commits_fun _ _ _ _ _ _ _ Hk Hc) as [E1 E2].
           left. destruct x as [x1 x2]. cbn in E1, E2. rewrite E1, E2. apply btree_insert_here.
        -- right. by exists k, r.
    + intros x Hx y Hy E. apply btree_insert_elem in Hx as [->|Hx].
      * destruct Hy as (k & r & Hin & Hk). cbn in E.
        assert ((k, Some r) = (key, Some raw)) as [= -> ->].
        { apply He; [by right|left|]. cbn.
          destruct Hk as (? & ? & ? & _ & _ & _ & _ & S1 & _), Hc as (? & ? & ? & _ & _ & _ & _ & S2 & _).
          rewrite E in S1. by eapply sibling_inj. }
        destruct (head_commits_fun _ _ _ _ _ _ _ Hk Hc) as [E1 E2]. destruct y. cbn in *. by subst.
      * apply Hm0; [done|by apply emitted_cons|done].
  - cbn [vfold] in Hv. vstep Hv m1 Hm1. unfold read_head, vret in Hm1. cbn in Hm1. injection Hm1 as <-.
    rewrite (IH m0 (entries_ok_cons _ _ He)); [|clear x|exact Hv].
    + split; intros [Hx|Hx]; auto; [right; by apply emitted_cons|].
      destruct Hx as (k & r & [E|Hin]%elem_of_cons & Hk); [done|]. right. by exists k, r.
    + intros x Hx y Hy. apply Hm0; [done|by apply emitted_cons].
Qed.

Lemma read_heads_sorted parachains entries m0 m :
  btree_sorted compare_StateMachine m0 ->
  vfold (read_head (H := H) host Coprocessor parachains) m0 entries = Some (Ok m) ->
  btree_sorted compare_StateMachine m.
Proof.
  intros Hm0 Hv. refine (vfold_inv (btree_sorted compare_StateMachine) _ _ _ _ _ Hm0 Hv).
  intros b [key [raw|]] b' _ Hb Hr.
  - apply read_head_ok in Hr as (sid & l & _ & ->). by apply btree_insert_sorted; [apply compare_StateMachine_lawful|].
  - unfold read_head, vret in Hr. cbn in Hr. by injection Hr as <-.
Qed.

(** A loop over heads that are all good ends. *)
Lemma read_heads_run parachains entries m0 :
  Forall (fun e => forall raw, e.2 = Some raw ->
    exists sid l, head_commits parachains (decode_para_id e.1) raw sid l) entries ->
  exists m, vfold (read_head (H := H) host Coprocessor parachains) m0 entries = Some (Ok m).
Proof.
  intros Hall. revert m0; induction Hall as [|[key [raw|]] entries He _ IH]; intros m0; cbn [vfold].
  - by eexists.
  - destruct (He raw) as (sid & l & Hc); [done|].
    destruct (IH (btree_insert compare_StateMachine sid l m0)) as [m Hm]. exists m.
    rewrite (proj2 (read_head_ok parachains m0 key raw (btree_insert compare_StateMachine sid l m0))); [exact Hm|].
    by exists sid, l.
  - destruct (IH m0) as [m Hm]. by exists m.
Qed.

(** ** Updates *)

(** The numbers of the parachains are those of the type. *)
Definition ids_ok (c : St) : Prop := forall id, is_Some (Parachains (para c) !! id) -> is_u32 id.

(** The entries that are read for the registered parachains. *)
Definition head_entries (c : St) (root : H256) (nodes : list bytes) : list (bytes * option bytes) :=
  btree_collect compare_bytes
    ((fun key => (key, read_key root nodes key)) <$> (parachain_header_storage_key <$> para_ids c)).

Lemma para_ids_elem (c : St) id : id ∈ para_ids c <-> is_Some (Parachains (para c) !! id).
Proof.
  unfold para_ids. rewrite list_elem_of_fmap. split.
  - intros ([i s] & -> & Hin). exists s. by apply elem_of_map_to_list in Hin.
  - intros [s Hs]. exists (id, s). split; [done|]. by apply elem_of_map_to_list.
Qed.

Lemma head_entries_elem (c : St) root nodes e :
  e ∈ head_entries c root nodes <->
  exists id, is_Some (Parachains (para c) !! id) /\ e = (parachain_header_storage_key id,
    read_key root nodes (parachain_header_storage_key id)).
Proof.
  unfold head_entries. rewrite (btree_collect_fun_elem _ compare_bytes_lawful), list_elem_of_fmap.
  split.
  - intros ((id & E & Hid) & E2). exists id. rewrite <- para_ids_elem. split; [done|].
    destruct e; cbn in *; congruence.
  - intros (id & Hid & ->). cbn. split; [|done]. exists id. by rewrite para_ids_elem.
Qed.

Lemma head_entries_ok (c : St) root nodes : ids_ok c -> entries_ok (head_entries c root nodes).
Proof.
  intros Hids e1 e2 (i & Hi & ->)%head_entries_elem (j & Hj & ->)%head_entries_elem. cbn [fst snd].
  rewrite !decode_para_id_key by auto. by intros ->.
Qed.

(** The head of the registered parachain [id] is proved, and commits [l] for [state_id]. *)
Definition head_proved (c : St) (root : H256) (nodes : list bytes) (id : Z) (state_id : StateMachine)
    (l : list StateCommitmentHeight) : Prop :=
  exists raw, read_key root nodes (parachain_header_storage_key id) = Some raw /\
    head_commits (Parachains (para c)) id raw state_id l.

Lemma emitted_head (c : St) root nodes x :
  ids_ok c -> emitted (Parachains (para c)) (head_entries c root nodes) x <->
  exists id, head_proved c root nodes id x.1 x.2.
Proof.
  intros Hids. split.
  - intros (key & raw & (id & Hid & [= -> Hr])%head_entries_elem & Hc).
    rewrite decode_para_id_key in Hc by auto. by exists id, raw.
  - intros (id & raw & Hr & Hc). exists (parachain_header_storage_key id), raw.
    assert (is_Some (Parachains (para c) !! id)) as Hid by (destruct Hc as (? & ? & ? & -> & _); eauto).
    split; [apply head_entries_elem; exists id; by rewrite Hr|]. by rewrite decode_para_id_key by auto.
Qed.

(** What an accepted update shows. *)
Definition para_accepted (c : St) (update : ParachainConsensusProof) (m : VerifiedCommitments) : Prop :=
  exists root, relay_root R (pcp_relay_height update) c = Some root /\
    trie_contains Blake2 (pcp_storage_proof update) root = true /\ NoDup m.*1 /\
    forall state_id l, (state_id, l) ∈ m <->
      exists id, head_proved c root (pcp_storage_proof update) id state_id l.

Lemma para_verifies (c : St) state update state' m :
  ids_ok c -> para_verify_consensus host Coprocessor R c state (encode update) = Some (Ok (state', m)) ->
  state' = state /\ para_accepted c update m.
Proof.
  intros Hids Hv. unfold para_verify_consensus in Hv. vstep Hv u Hu. apply vlift_ok, ok_or_ok in Hu.
  rewrite decode_encode in Hu. injection Hu as <-. vstep Hv root Hr. apply vlift_ok, ok_or_ok in Hr.
  apply vget_ok in Hv as (rd & Hrd & Hv). vstep Hv headers Hh. apply vlift_ok, map_err_ok in Hh as ->.
  apply heads_read_ok in Hrd as (Hc & _ & ->). change (btree_collect _ _) with
    (head_entries c root (pcp_storage_proof update)) in Hv.
  vstep Hv m' Hm. unfold vret in Hv. injection Hv as <- <-. split; [done|].
  exists root. split_and!; [done..| |].
  - apply (btree_sorted_nodup _ compare_StateMachine_lawful). eapply read_heads_sorted; [|exact Hm]. constructor.
  - intros sid l. rewrite (read_heads_elem (Parachains (para c)) (head_entries c root (pcp_storage_proof update)) [] m');
      [|by apply head_entries_ok|by intros ? []%elem_of_nil|exact Hm].
    rewrite emitted_head by done. cbn [fst snd]. rewrite elem_of_nil. tauto.
Qed.

(** C24: an update that is accepted was checked against a state root of the relay chain that
    the pallet recorded or that of the current block. It leaves the consensus state as it
    was. It reports a commitment for exactly those registered parachains whose head the
    proof shows under that root, one for each; the height is that of the head, the time
    that of its slot, never zero, and the roots are those of its header and its digest (for
    the coprocessor the child root and the root of the message tree). *)
Theorem para_update_verified (c : St) state update state' m :
  ids_ok c -> para_verify_consensus host Coprocessor R c state (encode update) = Some (Ok (state', m)) ->
  state' = state /\ para_accepted c update m.
Proof. apply para_verifies. Qed.

(** A proof of good heads is accepted. *)
Lemma para_verify_runs (c : St) state update root :
  ids_ok c -> relay_root R (pcp_relay_height update) c = Some root ->
  trie_contains Blake2 (pcp_storage_proof update) root = true ->
  (forall id, is_Some (Parachains (para c) !! id) ->
     is_ok (trie_get Blake2 (pcp_storage_proof update) root (parachain_header_storage_key id)) = true /\
     forall raw, read_key root (pcp_storage_proof update) (parachain_header_storage_key id) = Some raw ->
       exists sid l, head_commits (Parachains (para c)) id raw sid l) ->
  exists m, para_verify_consensus host Coprocessor R c state (encode update) = Some (Ok (state, m)).
Proof.
  intros Hids Hr Hc Hall.
  destruct (read_heads_run (Parachains (para c)) (head_entries c root (pcp_storage_proof update)) []) as [m Hm].
  { apply Forall_forall. intros e (id & Hid & ->)%head_entries_elem raw Hraw. cbn [fst snd] in *.
    rewrite decode_para_id_key by auto. by apply Hall. }
  exists m. unfold para_verify_consensus. rewrite decode_encode. cbn [ok_or vlift vtry].
  rewrite Hr. cbn [ok_or vlift vtry].
  rewrite (proj2 (heads_read_ok _ _ _ (head_entries c root (pcp_storage_proof update)))).
  - cbn [vget map_err vlift vtry]. by rewrite Hm.
  - split_and!; [done| |done]. apply Forall_forall. intros key (id & -> & Hid)%list_elem_of_fmap.
    apply Hall. by apply para_ids_elem.
Qed.

End heads.

(** ** The pallet *)

Section pallet.
Context `{HK : Keccak256} `{HC : Codecs, !HeightKeys, !HeightSort, !ErrorText} `{!Codec Leaf}.
Context {Acc Tree : Type} `{!Currency Acc, !Mmr Tree, !Config (ParaBank Acc) Tree}.
Abbreviation St := (Chain (ParaBank Acc) Tree).
Implicit Types c : St.

(** Everything outside pallet-ismp is as before. *)
Definition same_bank c c' : Prop := bank c' = bank c.
#[local] Instance same_bank_preorder : PreOrder same_bank.
Proof. split; [done|]. intros c1 c2 c3 E1 E2. unfold same_bank in *. congruence. Qed.

Lemma write_moves (f : Storage -> Storage) : moves same_bank (write (Bank := ParaBank Acc) (Tree := Tree) f).
Proof. unfold write, modify_storage. moves_solve. done. Qed.

Lemma update_client_moves msg : moves same_bank (update_client (St := St) msg).
Proof.
  unfold update_client. moves_solve; try apply write_moves.
  unfold update_state_machine, update_height. moves_solve; apply write_moves.
Qed.

(** An update that does not succeed, by an error or a panic, changes nothing. *)
Lemma update_client_stopped msg c o c' :
  pallet_inv c -> update_client (St := St) msg c = (o, c') -> (forall r, o <> Some (Ok r)) ->
  pallet_inv c' /\ pallet_abs c' = pallet_abs c.
Proof.
  intros Hc Hrun Ho. unfold update_client in Hrun.
  do 6 (apply try_split in Hrun as [(? & ? & Hm & Hrun)|(? & Hm & _)];
    unfold gets, ret, ask in Hm; injection Hm as ? <-; [|done]).
  lazymatch type of Hrun with
  | context [match ?p with (_, _) => _ end] => destruct p as [new_state states]
  end.
  pose proof (update_client_writes (St := St) (cm_consensus_state_id msg) new_state states c Hc) as Hw.
  destruct (runs_fun _ _ _ _ _ _ Hw Hrun) as (-> & _). by destruct (Ho _ eq_refl).
Qed.

(** The events of an update are deposited as they are. *)
Definition sm_updated (e : Event) : Prop := exists u, e = EvStateMachineUpdated u.

Lemma ref_update_events now csid n states cs : Forall sm_updated (ref_update now csid n states cs).1.
Proof.
  unfold ref_update. assert (Forall sm_updated ([] : list Event)) as Hnil by constructor. revert Hnil.
  generalize (@nil Event) as evs, (set_updated <[csid := as_secs now]> (set_states <[csid := n]> cs)) as cs0.
  induction states as [|e states IH]; intros evs cs0 Hevs; cbn [foldl]; [done|].
  destruct (ref_machine now csid (evs, cs0) e) as [evs1 cs1] eqn:E. apply IH.
  unfold ref_machine in E. cbn [fst snd] in E. destruct (foldl _ _ _) as [[h|] cs2]; injection E as <- <-; [|done].
  apply Forall_app. split; [done|]. repeat constructor. by eexists.
Qed.

Lemma deposit_events_total evs c :
  Forall sm_updated evs -> exists us l, map_m deposit_ismp_event evs c = (Some us, add_events l c).
Proof.
  intros Hevs. revert c; induction Hevs as [|e evs [u ->] _ IH]; intros c.
  - exists [], []. unfold add_events. rewrite app_nil_r. by destruct c.
  - cbn [map_m]. unfold deposit_ismp_event at 1. cbn [pallet_event_of or_panic].
    set (e' := PEStateMachineUpdated _ _).
    destruct (IH (add_events [e'] c)) as (us & l & E). exists (tt :: us), (e' :: l).
    rewrite (bind_some _ _ c tt (add_events [e'] c)) by done. rewrite (bind_some _ _ _ _ _ E).
    unfold ret, add_events. cbn. by rewrite <- app_assoc.
Qed.

Lemma add_events_abs l c : pallet_abs (add_events l c) = pallet_abs c.
Proof. done. Qed.

(** What handling one consensus message does, events apart. *)
Lemma handle_consensus_run data c o c' :
  pallet_inv c -> handle_messages [MsgConsensus data] c = (o, c') ->
  pallet_inv c' /\ bank c' = bank c /\
  ((exists n states, consensus_verified (St := St) data c n states /\ o = Some (Ok tt) /\
      pallet_abs c' = put_cons (ref_update (now c) (cm_consensus_state_id data) n states
        (a_cons (pallet_abs c))).2 (pallet_abs c)) \/
   (pallet_abs c' = pallet_abs c /\ (forall u, o <> Some (Ok u)) /\
    ~ exists n states, consensus_verified (St := St) data c n states)).
Proof.
  intros Hc Hrun. unfold handle_messages in Hrun. cbn [try_map_m handle_incoming_message] in Hrun.
  destruct (update_client data c) as [o1 c1] eqn:Eu. pose proof (update_client_moves data c o1 c1 Eu) as Hb.
  unfold same_bank in Hb. destruct o1 as [[r|e]|].
  - pose proof (update_client_ok (St := St) data c r c1) as Hok. destruct (Hok Hc Eu) as (n & states & Hv & -> & Hc1 & Ha).
    rewrite (bind_some _ _ c (Ok [ConsensusMessageResult (ref_update (now c) (cm_consensus_state_id data) n states
      (a_cons (pallet_abs c))).1]) c1) in Hrun by (by erewrite try_ok by exact Eu).
    cbn [fmap list_fmap message_results concat] in Hrun. rewrite app_nil_r in Hrun.
    rewrite (proj2 (collect_results_ok _ _) eq_refl) in Hrun.
    destruct (deposit_events_total _ c1 (ref_update_events (now c) (cm_consensus_state_id data) n states
      (a_cons (pallet_abs c)))) as (us & l & Hd).
    rewrite (bind_some _ _ _ _ _ Hd) in Hrun. apply pair_equal_spec in Hrun as [<- <-].
    split; [done|]. split; [done|]. left. by exists n, states.
  - destruct (update_client_stopped _ _ _ _ Hc Eu ltac:(done)) as [Hc1 Ha].
    rewrite (bind_some _ _ c (Err e) c1) in Hrun by (by erewrite try_err by exact Eu).
    injection Hrun as <- <-. split; [done|]. split; [done|]. right. split_and!; [done..|].
    intros (n & states & Hv). pose proof (update_client_runs (St := St) data c n states) as Hok. destruct (Hok Hc Hv) as (? & E & _). congruence.
  - destruct (update_client_stopped _ _ _ _ Hc Eu ltac:(done)) as [Hc1 Ha].
    unfold try_bind, bind in Hrun. rewrite Eu in Hrun. injection Hrun as <- <-.
    split; [done|]. split; [done|]. right. split_and!; [done..|].
    intros (n & states & Hv). pose proof (update_client_runs (St := St) data c n states) as Hok. destruct (Hok Hc Hv) as (? & E & _). congruence.
Qed.

(** The outcomes of the inherent. *)
Inductive update_outcome (data : ConsensusMessage) c : option (result DispatchError unit) -> St -> Prop :=
| outcome_twice :
    is_Some (ConsensusUpdated (para c)) \/ cm_consensus_state_id data <> PARACHAIN_CONSENSUS_ID ->
    update_outcome data c None c
| outcome_verified n states c' :
    ConsensusUpdated (para c) = None -> cm_consensus_state_id data = PARACHAIN_CONSENSUS_ID ->
    consensus_verified (St := St) data c n states ->
    pallet_abs c' = put_cons (ref_update (now c) PARACHAIN_CONSENSUS_ID n states
      (a_cons (pallet_abs c))).2 (pallet_abs c) ->
    bank c' = mkParaBank (pb_accounts (bank c)) (on_ConsensusUpdated (fun _ => Some true) (para c))
      (pb_relay (bank c)) ->
    update_outcome data c (Some (Ok tt)) c'
| outcome_refused o c' :
    ConsensusUpdated (para c) = None -> cm_consensus_state_id data = PARACHAIN_CONSENSUS_ID ->
    ~ (exists n states, consensus_verified (St := St) data c n states) ->
    pallet_abs c' = pallet_abs c -> bank c' = bank c -> o = Some (Ok tt) \/ o = None ->
    update_outcome data c o c'.

Lemma update_outcomes data c o c' :
  pallet_inv c -> update_parachain_consensus OriginNone data c = (o, c') ->
  update_outcome data c o c' /\ pallet_inv c'.
Proof.
  intros Hc Hrun. unfold update_parachain_consensus in Hrun.
  erewrite try_ok in Hrun by done. rewrite (bind_some _ _ c (ConsensusUpdated (para c)) c) in Hrun by done.
  case_bool_decide as Hu; [injection Hrun as <- <-; split; [by constructor; left|done]|].
  case_bool_decide as Hid; cbn [negb] in Hrun; [|injection Hrun as <- <-; split; [by constructor; right|done]].
  apply eq_None_not_Some in Hu. destruct (handle_messages [MsgConsensus data] c) as [o1 c1] eqn:Eh.
  destruct (handle_consensus_run _ _ _ _ Hc Eh) as (Hc1 & Hb & [(n & states & Hv & -> & Ha)|(Ha & Ho & Hn)]).
  - rewrite (bind_some _ _ _ _ _ Eh) in Hrun. injection Hrun as <- <-. split; [|done].
    apply (outcome_verified data c n states); [done..|by rewrite <- Hid|]. cbn. unfold para. by rewrite Hb.
  - destruct o1 as [[[]|e]|]; [by destruct (Ho tt)| |].
    + rewrite (bind_some _ _ _ _ _ Eh) in Hrun. injection Hrun as <- <-.
      split; [apply outcome_refused; auto|done].
    + unfold bind in Hrun. rewrite Eh in Hrun. injection Hrun as <- <-. split; [apply outcome_refused; auto|done].
Qed.

(** the inherent runs at most once in a block and only for the parachain client, else it
    panics and changes nothing. Otherwise an update that the registered client verifies is
    recorded as the reference update says, and marks the block; one that it refuses changes
    no data of the protocol, does not mark the block, and does not fail the block either. *)
Theorem update_parachain_consensus_functional origin data c o c' :
  pallet_inv c -> update_parachain_consensus origin data c = (o, c') ->
  (origin <> OriginNone /\ o = Some (Err BadOrigin) /\ c' = c) \/
  (origin = OriginNone /\ update_outcome data c o c').
Proof.
  intros Hc Hrun. destruct origin as [|who|].
  1,2: left; unfold update_parachain_consensus in Hrun; erewrite try_err in Hrun by done; by injection Hrun as <- <-.
  right. split; [done|]. by apply update_outcomes.
Qed.

(** ** Histories *)

(** A step of a chain: a call or a hook of the pallet, or anything else, which leaves the
    pallet's storage alone but may move on to another relay chain block. *)
Inductive para_step c : St -> Prop :=
| step_update data o c' :
    update_parachain_consensus OriginNone data c = (o, c') -> para_step c c'
| step_add origin l o c' :
    Forall (fun p => is_u32 (pd_id p)) l -> add_parachain origin l c = (o, c') -> para_step c c'
| step_remove origin l o c' : remove_parachain origin l c = (o, c') -> para_step c c'
| step_initialize o c' : para_on_initialize c = (o, c') -> para_step c c'
| step_finalize o c' : para_on_finalize c = (o, c') -> para_step c c'
| step_upgrade o c' : para_on_runtime_upgrade c = (o, c') -> para_step c c'
| step_other c' : pallet_inv c' -> para c' = para c -> para_step c c'.

(** A history, with the states of the relay chain that it went through. *)
Inductive para_history c : list RelayChainState -> St -> Prop :=
| history_nil : para_history c [] c
| history_step relays c1 c2 : para_history c relays c1 -> para_step c1 c2 ->
    para_history c (current_relay_chain_state c1 :: relays) c2.

(** What a step does to the relay chain's roots and to the list of parachains. *)
Definition para_evolves c c' : Prop :=
  (RelayChainStateCommitments (para c') = RelayChainStateCommitments (para c) \/
   RelayChainStateCommitments (para c) !! rs_number (current_relay_chain_state c) = None /\
   RelayChainStateCommitments (para c') = <[rs_number (current_relay_chain_state c) :=
     rs_state_root (current_relay_chain_state c)]> (RelayChainStateCommitments (para c))) /\
  (ids_ok c -> ids_ok c') /\ pallet_inv c'.

(** Steps that record no root. *)
Definition para_frame c c' : Prop :=
  RelayChainStateCommitments (para c') = RelayChainStateCommitments (para c) /\
  current_relay_chain_state c' = current_relay_chain_state c /\
  (ids_ok c -> ids_ok c') /\ (pallet_inv c -> pallet_inv c').
#[local] Instance para_frame_preorder : PreOrder para_frame.
Proof.
  split; [intros c; unfold para_frame; tauto|]. intros c1 c2 c3 (A1 & B1 & C1 & D1) (A2 & B2 & C2 & D2).
  split_and!; [congruence..|auto|auto].
Qed.

Lemma para_frame_bank c c' : bank c' = bank c -> (pallet_inv c -> pallet_inv c') -> para_frame c c'.
Proof. intros Hb Hi. unfold para_frame, ids_ok, para, current_relay_chain_state. by rewrite Hb. Qed.

Lemma challenge_period_frame id n : moves para_frame (store_challenge_period (St := St) id n).
Proof.
  intros c o c' [= _ <-]. apply para_frame_bank; [done|]. intros Hc.
  destruct Hc as [H1' H2' H3' H4' H5']. by split.
Qed.

Lemma modify_para_frame f :
  (forall p, RelayChainStateCommitments (f p) = RelayChainStateCommitments p /\
    forall id, is_Some (Parachains (f p) !! id) -> is_u32 id \/ is_Some (Parachains p !! id)) ->
  moves para_frame (modify_para (Acc := Acc) (Tree := Tree) f).
Proof.
  intros Hf. unfold modify_para. moves_step. split_and!; [apply Hf|done| |done].
  intros Hids id Hid. destruct (proj2 (Hf (para s)) id Hid); auto.
Qed.

Lemma create_client_moves msg : moves same_bank (create_client (St := St) msg).
Proof. unfold create_client. moves_solve; apply write_moves. Qed.

Lemma initialize_frame : moves para_frame initialize.
Proof.
  unfold initialize. moves_solve. intros c o c' Hrun. apply para_frame_bank; [by apply create_client_moves in Hrun|].
  intros Hc. set (m := mkCreateConsensusState _ _ _ _ _ _) in Hrun.
  destruct (consensus_client (St := St) PARACHAIN_CONSENSUS_ID) as [client|e] eqn:E.
  - pose proof (create_client_runs (St := St) m c client) as Hok.
    destruct (Hok Hc E) as (c2 & Hrun2 & Hi & _). rewrite Hrun in Hrun2. by injection Hrun2 as -> ->.
  - unfold create_client in Hrun. cbn [ccs_consensus_client_id m] in Hrun. rewrite E in Hrun. by injection Hrun as _ <-.
Qed.
#[local] Hint Resolve challenge_period_frame initialize_frame : moves.

Lemma para_event_frame e : moves para_frame (para_event (Acc := Acc) (Tree := Tree) e).
Proof. apply modify_para_frame. intros p. cbn. auto. Qed.
#[local] Hint Resolve para_event_frame : moves.

Lemma add_parachain_frame origin l :
  Forall (fun p => is_u32 (pd_id p)) l -> moves para_frame (add_parachain origin l).
Proof.
  intros Hl. unfold add_parachain, add_one_parachain. moves_solve. apply modify_para_frame. intros p. cbn.
  split; [done|]. intros id. rewrite lookup_insert. case_decide as E; [|auto]. intros _. left. subst id.
  by apply (proj1 (Forall_forall _ _) Hl x).
Qed.

Lemma remove_parachain_frame origin l : moves para_frame (remove_parachain origin l).
Proof.
  unfold remove_parachain. moves_solve. apply modify_para_frame. intros p. cbn. split; [done|].
  intros id. rewrite lookup_delete. case_decide; [by intros []|auto].
Qed.

Lemma para_on_initialize_frame : moves para_frame para_on_initialize.
Proof. unfold para_on_initialize. moves_solve. apply modify_para_frame. intros p. cbn. auto. Qed.

Lemma para_upgrade_frame : moves para_frame (para_on_runtime_upgrade (Acc := Acc) (Tree := Tree)).
Proof.
  unfold para_on_runtime_upgrade. moves_solve; apply modify_para_frame; intros p; cbn; [|auto].
  split; [done|]. intros id. rewrite lookup_fmap, fmap_is_Some. auto.
Qed.

Lemma para_step_evolves c c' : pallet_inv c -> para_step c c' -> para_evolves c c'.
Proof.
  intros Hc Hs.
  assert (para_frame c c' -> para_evolves c c') as Hf by (intros (? & _ & ? & ?); split_and!; auto).
  destruct Hs as [data o c' Hr|origin l o c' Hl Hr|origin l o c' Hr|o c' Hr|o c' Hr|o c' Hr|c' Hi Hp].
  - apply Hf. destruct (update_outcomes _ _ _ _ Hc Hr) as [Ho Hi]. destruct Ho as [|n states c' _ _ _ _ Hb|o c' _ _ _ _ Hb _].
    + done.
    + unfold para_frame, ids_ok, para, current_relay_chain_state. by rewrite Hb.
    + by apply para_frame_bank.
  - apply Hf. by eapply add_parachain_frame.
  - apply Hf. by eapply remove_parachain_frame.
  - apply Hf. by eapply para_on_initialize_frame.
  - unfold para_on_finalize in Hr. do 2 (erewrite bind_some in Hr by done).
    case_bool_decide as Hk; injection Hr as <- <-; [by apply Hf|].
    split_and!; [|done|done]. right. split; [|done]. by apply eq_None_not_Some in Hk.
  - apply Hf. by eapply para_upgrade_frame.
  - unfold para_evolves, ids_ok. rewrite Hp. auto.
Qed.

(** whatever happens on the chain, a state root that was recorded for a relay chain block
    is never replaced, and every recorded root is one that the relay chain had at that
    number in some earlier state; the numbers of the parachains stay in range. *)
Theorem relay_roots_stable c relays c' :
  pallet_inv c -> ids_ok c -> para_history c relays c' ->
  RelayChainStateCommitments (para c) ⊆ RelayChainStateCommitments (para c') /\ ids_ok c' /\
  forall n root, RelayChainStateCommitments (para c') !! n = Some root ->
    RelayChainStateCommitments (para c) !! n = Some root \/ mkRelayChainState n root ∈ relays.
Proof.
  intros Hc Hids Hh.
  enough (pallet_inv c' /\ RelayChainStateCommitments (para c) ⊆ RelayChainStateCommitments (para c') /\ ids_ok c' /\
    forall n root, RelayChainStateCommitments (para c') !! n = Some root ->
    RelayChainStateCommitments (para c) !! n = Some root \/ mkRelayChainState n root ∈ relays) by tauto.
  induction Hh as [|relays c1 c2 Hh (Hi & Hsub & Hids1 & Hfrom) Hs]; [by split_and!; auto|].
  destruct (para_step_evolves _ _ Hi Hs) as ([E|[Hn E]] & Hids2 & Hi2); rewrite E.
  - split_and!; [done..|auto|]. intros n root Hr. destruct (Hfrom n root Hr); [auto|right; by right].
  - split_and!; [done| |auto|].
    + etransitivity; [exact Hsub|]. by apply insert_subseteq.
    + intros n root. rewrite lookup_insert. case_decide as En.
      * intros [= <-]. right. subst n. destruct (current_relay_chain_state c1). left.
      * intros Hr. destruct (Hfrom n root Hr); [auto|right; by right].
Qed.
End pallet.

(** * How the parachain client advances, and how it stops

    The inherent provider, the pallet, the client and the handlers of ISMP together: which
    relay chain states make the chain learn new heights of its siblings, and what any
    account can do to end that. *)

Section live.
Context `{HK : Keccak256} `{HC : Codecs, !HeightKeys, !HeightSort, !ErrorText} `{!Codec Leaf}.
Context {Hd : Type} `{!HeaderT Hd} `{!Codec Hd, !Codec bytes, !TrieDb, !Twox, !DebugError}.
Context `{!SlotCodec, !Codec ConsensusDigest, !Codec ParachainConsensusProof}.
Context {Acc Tree : Type} `{!Currency Acc, !Mmr Tree, !Config (ParaBank Acc) Tree}.
Context (registered : gmap Z Z) (S : StateMachine -> StateMachineClient (Chain (ParaBank Acc) Tree)).
Abbreviation St := (Chain (ParaBank Acc) Tree).
Implicit Types c : St.

Definition the_client : ConsensusClient St :=
  para_client (H := Hd) HostStateMachine Coprocessor relay_state_root registered S.

(** The client is configured, its consensus state is registered, and it is neither frozen
    nor expired. *)
Record client_ready c : Prop := {
  ready_configured : consensus_client PARACHAIN_CONSENSUS_ID = Ok the_client;
  ready_client : ConsensusStateClient (storage c) !! PARACHAIN_CONSENSUS_ID = Some PARACHAIN_CONSENSUS_ID;
  ready_state : is_Some (ConsensusStates (storage c) !! PARACHAIN_CONSENSUS_ID);
  ready_unfrozen : PARACHAIN_CONSENSUS_ID ∉ c_frozen (a_cons (pallet_abs c));
  ready_fresh : exists period last, UnbondingPeriod (storage c) !! PARACHAIN_CONSENSUS_ID = Some period /\
    ConsensusClientUpdateTime (storage c) !! PARACHAIN_CONSENSUS_ID = Some last /\
    saturating_sub (now c) (from_secs last) < from_secs period
}.

(** ** Inherents *)

(** The interface to the relay chain answers for the current block of the relay chain: it
    proves what it reads, against the state root that the chain knows. *)
Record relay_answers (relay : RelayChainInterface) c (hash : H256) : Prop := {
  ra_started : rs_number (current_relay_chain_state c) <> 0;
  ra_header : rci_header relay (rs_number (current_relay_chain_state c)) = Some hash;
  ra_root : forall root, relay_state_root (rs_number (current_relay_chain_state c)) c = Some root ->
    root = rs_state_root (current_relay_chain_state c);
  ra_proves keys : exists nodes, rci_prove_read relay hash keys = Ok nodes /\
    trie_contains Blake2 nodes (rs_state_root (current_relay_chain_state c)) = true /\
    forall key, key ∈ keys -> exists v, rci_storage relay hash key = Ok v /\
      trie_get Blake2 nodes (rs_state_root (current_relay_chain_state c)) key = Ok v
}.

(** The relay chain has a head of the parachain [id] that is newer than what is known. *)
Definition fresh_head (relay : RelayChainInterface) (hash : H256) c (id : Z) (state_id : StateMachine)
    (header : Hd) (l : list StateCommitmentHeight) : Prop :=
  exists raw head, rci_storage relay hash (parachain_header_storage_key id) = Ok (Some raw) /\
    decode raw = Some head /\ decode head = Some header /\
    head_commits (H := Hd) HostStateMachine Coprocessor (Parachains (para c)) id head state_id l /\
    default 0 (LatestStateMachineHeight (storage c) !! para_machine_id state_id) < header_number header.

Definition all_fresh (relay : RelayChainInterface) (hash : H256) c : Prop :=
  forall id, is_Some (Parachains (para c) !! id) ->
    exists state_id header l, fresh_head relay hash c id state_id header l.

Lemma to_fetch_fresh relay hash c id state_id header l :
  fresh_head relay hash c id state_id header l -> to_fetch (H := Hd) relay hash c id = Ok true.
Proof.
  intros (raw & head & Hs & Hr & Hh & (_ & _ & _ & _ & _ & _ & _ & Hsid & _) & Hlt).
  unfold to_fetch. rewrite Hs, Hr, Hh, Hsid. unfold latest_state_machine_height.
  by rewrite (proj2 (Z.leb_gt _ _) Hlt).
Qed.

Lemma ids_to_fetch_all relay hash c ids :
  (forall id, id ∈ ids -> to_fetch (H := Hd) relay hash c id = Ok true) ->
  ids_to_fetch (H := Hd) relay hash c ids = Ok ids.
Proof.
  induction ids as [|id ids IH]; intros Hall; [done|]. cbn. rewrite Hall by left.
  rewrite IH; [done|]. intros. apply Hall. by right.
Qed.

(** The message that is built, and the commitments that the client reads from it. *)
Lemma create_fresh relay hash c :
  relay_answers relay c hash -> all_fresh relay hash c -> ids_ok c -> Parachains (para c) <> ∅ ->
  exists nodes, create (H := Hd) relay c = Ok (Some (mkConsensusMessage
      (encode (mkParachainConsensusProof (rs_number (current_relay_chain_state c)) nodes))
      PARACHAIN_CONSENSUS_ID [])) /\
    trie_contains Blake2 nodes (rs_state_root (current_relay_chain_state c)) = true /\
    forall id, is_Some (Parachains (para c) !! id) ->
      exists v, rci_storage relay hash (parachain_header_storage_key id) = Ok v /\
      trie_get Blake2 nodes (rs_state_root (current_relay_chain_state c)) (parachain_header_storage_key id) = Ok v.
Proof.
  intros [Hst Hhd Hroot Hp] Hall Hids Hne.
  destruct (Hp (parachain_header_storage_key <$> para_ids c)) as (nodes & Hn & Hc & Hk).
  exists nodes. split_and!; [|done|].
  - assert (para_ids c <> []) as Hnil.
    { destruct (map_choose _ Hne) as (i & x & Hi). assert (i ∈ para_ids c) as Hin by (apply para_ids_elem; eauto).
      intros E. rewrite E in Hin. by apply elem_of_nil in Hin. }
    assert (ids_to_fetch (H := Hd) relay hash c (para_ids c) = Ok (para_ids c)) as Hfe.
    { apply ids_to_fetch_all. intros id Hid. destruct (Hall id) as (sid & h & l & Hf); [by apply para_ids_elem|].
      by eapply to_fetch_fresh. }
    unfold create. destruct (para_ids c); [done|]. by rewrite (proj2 (Z.eqb_neq _ _) Hst), Hhd, Hfe, Hn.
  - intros id Hid. apply Hk, list_elem_of_fmap_2. by apply para_ids_elem.
Qed.

Lemma read_key_ok root nodes key raw head :
  trie_get Blake2 nodes root key = Ok (Some raw) -> decode raw = Some head ->
  read_key root nodes key = Some head.
Proof. intros Hg Hd'. unfold read_key. by rewrite Hg. Qed.

Lemma relay_root_current relay c hash :
  relay_answers relay c hash ->
  relay_root relay_state_root (rs_number (current_relay_chain_state c)) c
  = Some (rs_state_root (current_relay_chain_state c)).
Proof.
  intros [_ _ Hr _]. unfold relay_root. destruct (relay_state_root _ c) as [root|] eqn:E.
  - by rewrite (Hr root eq_refl).
  - by rewrite Z.eqb_refl.
Qed.

(** The client verifies one result. *)
Lemma consensus_verified_fun data c n states n' states' :
  consensus_verified (St := St) data c n states -> consensus_verified (St := St) data c n' states' ->
  n = n' /\ states = states'.
Proof.
  intros (cid & cl & tr & p & la & A1 & A2 & A3 & _ & _ & _ & _ & A4)
    (cid' & cl' & tr' & p' & la' & B1 & B2 & B3 & _ & _ & _ & _ & B4).
  rewrite A1 in B1. injection B1 as <-. rewrite A2 in B2. injection B2 as <-.
  rewrite A3 in B3. injection B3 as <-. rewrite A4 in B4. by injection B4 as <- <-.
Qed.

(** The message for fresh heads is verified, with the commitments of all of them. *)
Lemma inherent_verified relay hash c :
  client_ready c -> ids_ok c -> Parachains (para c) <> ∅ -> relay_answers relay c hash ->
  all_fresh relay hash c ->
  exists data st m, create (H := Hd) relay c = Ok (Some data) /\
    cm_consensus_state_id data = PARACHAIN_CONSENSUS_ID /\
    consensus_verified (St := St) data c st m /\ NoDup m.*1 /\
    forall id state_id header l, fresh_head relay hash c id state_id header l -> (state_id, l) ∈ m.
Proof.
  intros [Hcfg Hcl [st Hst] Hfr (period & last & Hun & Hup & Hex)] Hids Hne Hr Hall.
  destruct (create_fresh relay hash c Hr Hall Hids Hne) as (nodes & Hcreate & Hcont & Hk).
  pose proof (relay_root_current _ _ _ Hr) as Hroot. set (root := rs_state_root (current_relay_chain_state c)) in *.
  set (update := mkParachainConsensusProof (rs_number (current_relay_chain_state c)) nodes) in *.
  assert (forall id state_id header l, fresh_head relay hash c id state_id header l ->
    exists v, trie_get Blake2 nodes root (parachain_header_storage_key id) = Ok v /\
      head_proved (H := Hd) HostStateMachine Coprocessor c root nodes id state_id l) as Hread.
  { intros id sid h l (raw & head & Hs & Hr1 & Hr2 & Hcm & _).
    destruct (Hk id) as (v & Hv1 & Hv2); [destruct Hcm as (? & ? & ? & -> & _); eauto|].
    rewrite Hs in Hv1. injection Hv1 as <-. exists (Some raw). split; [done|]. exists head.
    split; [by eapply read_key_ok|done]. }
  destruct (para_verify_runs (H := Hd) HostStateMachine Coprocessor relay_state_root c st update root Hids Hroot Hcont)
    as [m Hm].
  { intros id Hid. destruct (Hall id Hid) as (sid & h & l & Hf). destruct (Hread _ _ _ _ Hf) as (v & Hv & head & Hh & Hcm).
    change (pcp_storage_proof update) with nodes. split; [by rewrite Hv|].
    intros raw Hraw. rewrite Hh in Hraw. injection Hraw as <-. by exists sid, l. }
  destruct (para_verifies (H := Hd) _ _ _ _ _ _ _ _ Hids Hm) as (_ & root' & Hroot' & _ & Hnd & Hel).
  change (relay_root relay_state_root (rs_number (current_relay_chain_state c)) c = Some root') in Hroot'.
  rewrite Hroot in Hroot'. injection Hroot' as <-.
  eexists _, st, m. split_and!; [exact Hcreate|done| |done|].
  - exists PARACHAIN_CONSENSUS_ID, the_client, st, period, last. by split_and!.
  - intros id sid h l Hf. apply Hel. exists id. by destruct (Hread _ _ _ _ Hf) as (_ & _ & Hhp).
Qed.

(** C34: when every registered parachain has a new head, the inherent that a block builder
    creates from an honest relay chain node is accepted: the call succeeds, and the chain
    has a state commitment for the new head of every registered parachain. *)
Theorem inherent_advances relay hash c :
  pallet_inv c -> client_ready c -> ids_ok c -> Parachains (para c) <> ∅ ->
  ConsensusUpdated (para c) = None -> relay_answers relay c hash -> all_fresh relay hash c ->
  exists data c', create (H := Hd) relay c = Ok (Some data) /\
    update_parachain_consensus OriginNone data c = (Some (Ok tt), c') /\
    ConsensusUpdated (para c') = Some true /\
    forall id, is_Some (Parachains (para c) !! id) ->
      exists state_id header l, fresh_head relay hash c id state_id header l /\
      is_Some (StateCommitments (storage c')
        !! mkStateMachineHeight (para_machine_id state_id) (header_number header)).
Proof.
  intros Hc Hready Hids Hne Hu Hr Hall.
  destruct (inherent_verified relay hash c Hready Hids Hne Hr Hall) as (data & st & m & Hcreate & Hid & Hver & Hnd & Hel).
  exists data. destruct (update_parachain_consensus OriginNone data c) as [o c'] eqn:Erun.
  exists c'. destruct (update_outcomes _ _ _ _ Hc Erun) as [Ho _].
  destruct Ho as [Hbad|n states c' _ _ Hv2 Ha Hb|o c' _ _ Hn _ _ _].
  { destruct Hbad as [Hbad|Hbad]; [rewrite Hu in Hbad; by destruct Hbad|done]. }
  2:{ destruct Hn. by exists st, m. }
  destruct (consensus_verified_fun _ _ _ _ _ _ Hv2 Hver) as [-> ->].
  split_and!; [done|done|by unfold para; rewrite Hb|].
  intros id Hi. destruct (Hall id Hi) as (sid & h & l & Hf). exists sid, h, l. split; [done|].
  pose proof (Hel _ _ _ _ Hf) as Hin.
  destruct Hf as (raw & head & _ & _ & Hdh & (slot & h2 & d & _ & Hd2 & _ & _ & _ & ->) & Hlt).
  rewrite Hdh in Hd2. injection Hd2 as <-. set (x := para_commitment _ _ _ _) in Hin.
  pose proof (ref_update_complete (now c) PARACHAIN_CONSENSUS_ID st m (a_cons (pallet_abs c)) sid [x] x Hnd Hin
    (list_elem_of_here _ _)) as Hfin.
  change (sch_height x) with (header_number h) in Hfin.
  change (is_Some (c_commitments (a_cons (pallet_abs c'))
    !! mkStateMachineHeight (para_machine_id sid) (header_number h))).
  rewrite Ha. apply Hfin. apply Z.lt_le_incl. exact Hlt.
Qed.

(** ** Fraud proofs *)

(** the client accepts every fraud proof, so that a message with arbitrary proofs, which
    anybody can send, freezes it; no parachain update is verified after that. *)
Theorem any_fraud_proof_freezes c proof_1 proof_2 :
  pallet_inv c -> client_ready c ->
  exists c', freeze_client (mkFraudProofMessage proof_1 proof_2 PARACHAIN_CONSENSUS_ID) c
      = (Some (Ok (FrozenClient PARACHAIN_CONSENSUS_ID)), c') /\ pallet_inv c' /\
    PARACHAIN_CONSENSUS_ID ∈ c_frozen (a_cons (pallet_abs c')) /\
    forall data n states, cm_consensus_state_id data = PARACHAIN_CONSENSUS_ID ->
      ~ consensus_verified (St := St) data c' n states.
Proof.
  intros Hc [Hcfg Hcl [st Hst] Hfr _]. set (msg := mkFraudProofMessage _ _ _).
  assert (exists c', freeze_client msg c = (Some (Ok (FrozenClient PARACHAIN_CONSENSUS_ID)), c')) as [c' Hrun].
  { assert (consensus_client_id PARACHAIN_CONSENSUS_ID c = Some PARACHAIN_CONSENSUS_ID) as E1 by exact Hcl.
    assert (consensus_state PARACHAIN_CONSENSUS_ID c = Ok st) as E2.
    { change (ok_or (ConsensusStates (storage c) !! PARACHAIN_CONSENSUS_ID)
        (ConsensusStateNotFound PARACHAIN_CONSENSUS_ID) = Ok st). by rewrite Hst. }
    pose proof (frozen_ok (St := St) PARACHAIN_CONSENSUS_ID c) as E3. apply (proj2 (E3 Hc)) in Hfr.
    eexists. unfold freeze_client. cbn [fpm_consensus_state_id msg].
    erewrite try_ok; [|unfold gets; by rewrite E1]. erewrite try_ok; [|unfold gets; by rewrite Hfr].
    erewrite try_ok; [|by rewrite Hcfg]. erewrite try_ok; [|unfold gets; by rewrite E2]. done. }
  exists c'. pose proof (freeze_client_ok (St := St) msg c (FrozenClient PARACHAIN_CONSENSUS_ID) c') as Hok.
  destruct (Hok Hc Hrun) as (_ & Hc' & _ & Ha).
  change (pallet_abs c' = upd_cons (fun x => set_updated <[PARACHAIN_CONSENSUS_ID := as_secs (now c)]>
    (set_frozen (fun x => {[PARACHAIN_CONSENSUS_ID]} ∪ x) x)) (pallet_abs c)) in Ha.
  assert (PARACHAIN_CONSENSUS_ID ∈ c_frozen (a_cons (pallet_abs c'))) as Hin.
  { rewrite Ha. cbn. set_solver. }
  split_and!; [done..|]. intros data n states E (cid & client & tr & p & la & _ & _ & _ & Hn & _).
  rewrite E in Hn. by apply Hn.
Qed.

(** ** Upgrades *)

(** the first runtime upgrade of a chain that was started with the current storage
    version, which is zero, replaces the slot duration of every parachain by twelve
    seconds, whatever was registered. *)
Theorem upgrade_resets_slot_durations c :
  para_version (para c) = STORAGE_VERSION ->
  exists c', para_on_runtime_upgrade c = (Some tt, c') /\
    Parachains (para c') = (fun _ => 12000) <$> Parachains (para c) /\
    para_on_runtime_upgrade c' = (Some tt, c').
Proof.
  intros Hv. unfold para_on_runtime_upgrade. eexists. split_and!.
  - rewrite (bind_some _ _ c (para_version (para c)) c) by done. rewrite Hv. done.
  - done.
  - done.
Qed.

End live.
