(* ===== verification/ParachainDemo.v ===== *)
(** * A concrete parachain

    A parachain of Kusama with two siblings and a relay chain whose storage is a finite map.
    A proof lists the values it shows, and says nothing about other keys. *)

From S2P Require Import Prelude StateMachine Router Messaging Host Handlers HostSpec RefHost Frame Consensus ChildTrie PalletTypes PalletHost PalletRefines Pallet PalletFrames PalletProps PalletDemo DemoCodec SubstrateMachine Grandpa Parachain ParachainProps.

Module ParachainDemo.
#[local] Existing Instances Demo.keccak Demo.sort PalletDemo.codecs PalletDemo.height_keys PalletDemo.leaf_codec PalletDemo.currency PalletDemo.text PalletDemo.root.

(** ** Libraries *)

(** The number and the state root of a header. *)
Abbreviation Header := (Z * bytes)%type.

#[local] Instance bytes_codec : Codec bytes := string_codec.
#[local] Instance header_codec : Codec Header := pair_codec z_codec string_codec.
#[local] Instance digest_codec : Codec ConsensusDigest :=
  via_codec (pair_codec string_codec string_codec) (fun d => (cd_mmr_root d, cd_child_trie_root d))
    (fun x => mkConsensusDigest x.1 x.2) ltac:(by intros []).
#[local] Instance proof_codec : Codec ParachainConsensusProof :=
  via_codec (pair_codec z_codec (list_codec string_codec)) (fun p => (pcp_relay_height p, pcp_storage_proof p))
    (fun x => mkParachainConsensusProof x.1 x.2) ltac:(by intros []).

#[local] Instance header : HeaderT Header := {|
  header_hash h := h.2;
  parent_hash _ := [];
  header_number h := h.1;
  header_state_root h := h.2;
  header_digest h := [PreRuntime AURA_ENGINE_ID [];
    DigestConsensus ISMP_ID (encode (mkConsensusDigest (lit "mmr") (lit "child")))]
|}.
#[local] Instance hashing : Twox := {| twox_128 b := b; twox_64 b := b |}.
#[local] Instance texts : DebugError := fun _ => [].
#[local] Instance slots : SlotCodec := {| decode_aura_slot _ := Some 70; decode_babe_slot _ := None |}.

Definition node_codec : Codec (bytes * option bytes) := pair_codec string_codec (option_codec string_codec).
Definition node (key : bytes) (v : option bytes) : bytes := encode (Codec := node_codec) (key, v).
Definition relay_root_hash : H256 := lit "relay root".

#[local] Instance tries : TrieDb := {|
  trie_get _ l root key :=
    match find_map (fun n => match decode (Codec := node_codec) n with
        | Some (k, v) => if decide (k = key) then Some v else None
        | None => None end) l with
    | Some v => Ok v
    | None => Err (lit "IncompleteDatabase")
    end;
  trie_contains _ _ root := bool_decide (root = relay_root_hash);
  decode_text _ := []
|}.

(** ** The relay chain: heads 9 and 12 of the parachains 2000 and 2001 *)

Definition heads : gmap bytes bytes :=
  <[parachain_header_storage_key 2000 := encode (9, lit "nine")]>
    {[ parachain_header_storage_key 2001 := encode (12, lit "twelve") ]}.

Definition relay : RelayChainInterface := {|
  rci_header n := if n =? 500 then Some (lit "relay hash") else None;
  rci_storage _ key := Ok (heads !! key);
  rci_prove_read _ keys := Ok ((fun key => node key (heads !! key)) <$> keys)
|}.

(** ** The parachain *)

Abbreviation Bank := (ParaBank (gmap bytes Z)).
Abbreviation St := (Chain Bank OffchainDb).

Definition siblings : gmap Z Z := <[2000 := 12000]> {[ 2001 := 6000 ]}.
Definition no_machine (_ : StateMachine) : StateMachineClient St :=
  mkStateMachineClient _ (fun _ _ _ _ => Some (Ok tt)) (fun _ => Some []) (fun _ _ _ _ => Some (Ok [])).

Definition client : ConsensusClient St :=
  para_client (H := Header) (Kusama 3000) (Some (Kusama 2000)) relay_state_root siblings no_machine.

#[local] Instance config : Config Bank OffchainDb := {|
  HostStateMachine := Kusama 3000;
  Coprocessor := Some (Kusama 2000);
  ConsensusClients := [client];
  Router id := Err (IsmpError (ModuleNotFound id));
  AdminOrigin o := match o with OriginRoot => true | _ => false end;
  relayer_fee_account := lit "fees"
|}.

Definition started (latest : gmap StateMachineId Z) : Storage := mkStorage ∅ ∅ {[ PARACHAIN_CONSENSUS_ID := [] ]}
  {[ PARACHAIN_CONSENSUS_ID := PARACHAIN_CONSENSUS_ID ]} {[ PARACHAIN_CONSENSUS_ID := u64_max ]} ∅ ∅
  latest {[ PARACHAIN_CONSENSUS_ID := 900 ]} ∅ ∅ 0 (lit "root").

Definition pallet : ParachainPallet := mkParachainPallet {[ 499 := lit "old root" ]} None siblings 0 [].
Definition chain (latest : gmap StateMachineId Z) : St :=
  mkChain (started latest) (from_secs 1000) (mkParaBank ∅ pallet (mkRelayChainState 500 relay_root_hash)) ∅ [] [].

(** The chain knows an older head of each sibling. *)
Definition machine (id : Z) : StateMachineId := para_machine_id (Kusama id).
Definition behind : St := chain (<[machine 2000 := 8]> {[ machine 2001 := 11 ]}).

Lemma chain_inv latest : pallet_inv (chain latest).
Proof. by apply (ok_same PalletDemo.empty); [| |apply PalletDemo.empty_ok]. Defined.

Lemma siblings_ok latest : ids_ok (chain latest).
Proof.
  intros id Hid. change (is_Some (siblings !! id)) in Hid. unfold siblings in Hid.
  rewrite lookup_insert, lookup_singleton in Hid. unfold is_u32, u32_max.
  repeat case_decide; subst; try lia. by destruct Hid.
Defined.

Lemma ready latest : client_ready (Hd := Header) siblings no_machine (chain latest).
Proof.
  split; [reflexivity|reflexivity| | |].
  - eexists. vm_compute. reflexivity.
  - apply (bool_decide_eq_true_1 (PARACHAIN_CONSENSUS_ID ∉ c_frozen (a_cons (pallet_abs (chain latest))))). vm_compute. reflexivity.
  - exists u64_max, 900. split_and!; vm_compute; reflexivity.
Defined.

(** A listed key is read back. *)
Lemma read_listed keys key alg root :
  key ∈ keys -> trie_get alg ((fun key => node key (heads !! key)) <$> keys) root key = Ok (heads !! key).
Proof.
  intros Hin. unfold trie_get, tries. induction keys as [|k keys IH]; [by apply elem_of_nil in Hin|].
  cbn [fmap list_fmap find_map]. unfold node. rewrite decode_encode. case_decide as E; [by subst|].
  apply elem_of_cons in Hin as [->|Hin]; [done|]. by apply IH.
Qed.

Lemma relay_honest latest : relay_answers relay (chain latest) (lit "relay hash").
Proof.
  split; [done|done|by intros root E; vm_compute in E|].
  intros keys. eexists. split; [reflexivity|]. split; [done|].
  intros key Hk. exists (heads !! key). split; [done|]. by apply read_listed.
Qed.

(** The commitments of the heads. *)
Definition nine : list StateCommitmentHeight := [mkStateCommitmentHeight (mkStateCommitment 840 (Some (lit "mmr")) (lit "child")) 9].
Definition twelve : list StateCommitmentHeight := [mkStateCommitmentHeight (mkStateCommitment 420 (Some (lit "child")) (lit "twelve")) 12].

Lemma behind_fresh : all_fresh (Hd := Header) relay (lit "relay hash") behind.
Proof.
  intros id Hid. change (is_Some (siblings !! id)) in Hid. unfold siblings in Hid.
  rewrite lookup_insert, lookup_singleton in Hid. case_decide as E1; [subst id|case_decide as E2; [subst id|by destruct Hid]].
  - exists (Kusama 2000), (9, lit "nine"), nine. eexists _, _. split_and!; [vm_compute; reflexivity..| |vm_compute; reflexivity].
    eexists _, _, _. split_and!; [vm_compute; reflexivity..|discriminate|vm_compute; reflexivity|vm_compute; reflexivity].
  - exists (Kusama 2001), (12, lit "twelve"), twelve. eexists _, _. split_and!; [vm_compute; reflexivity..| |vm_compute; reflexivity].
    eexists _, _, _. split_and!; [vm_compute; reflexivity..|discriminate|vm_compute; reflexivity|vm_compute; reflexivity].
Qed.

Lemma inherent_advances_witness :
  exists data c', create (H := Header) relay behind = Ok (Some data) /\
    update_parachain_consensus OriginNone data behind = (Some (Ok tt), c') /\
    ConsensusUpdated (para c') = Some true.
Proof.
  destruct (inherent_advances (Hd := Header) siblings no_machine relay (lit "relay hash") behind) as (data & c' & H1 & H2 & H3 & _).
  - apply chain_inv.
  - apply ready.
  - apply siblings_ok.
  - discriminate.
  - reflexivity.
  - apply relay_honest.
  - apply behind_fresh.
  - exists data, c'. exact (conj H1 (conj H2 H3)).
Defined.

(** The inherent of that block, and what it shows. *)
Definition both : ParachainConsensusProof := mkParachainConsensusProof 500
  ((fun key => node key (heads !! key)) <$> (parachain_header_storage_key <$> [2000; 2001])).
Definition both_commitments : VerifiedCommitments := [(Kusama 2000, nine); (Kusama 2001, twelve)].

Lemma para_update_verified_witness :
  para_accepted (H := Header) (Kusama 3000) (Some (Kusama 2000)) relay_state_root behind both both_commitments.
Proof.
  apply (para_update_verified (H := Header) (Kusama 3000) (Some (Kusama 2000)) relay_state_root behind [] both []).
  - apply siblings_ok.
  - vm_compute. reflexivity.
Defined.

Definition inherent : ConsensusMessage := mkConsensusMessage (encode both) PARACHAIN_CONSENSUS_ID [].
Definition updated : St := snd (update_parachain_consensus OriginNone inherent behind).

Lemma updated_run : update_parachain_consensus OriginNone inherent behind = (Some (Ok tt), updated).
Proof. apply (run_eq (update_parachain_consensus OriginNone inherent) behind). vm_compute. reflexivity. Qed.

Lemma update_parachain_consensus_functional_witness : update_outcome inherent behind (Some (Ok tt)) updated.
Proof.
  destruct (update_parachain_consensus_functional OriginNone inherent behind (Some (Ok tt)) updated
    (chain_inv _) updated_run) as [(Hn & _)|(_ & Ho)]; [destruct (Hn eq_refl)|exact Ho].
Defined.

(** The block ends, and the root of the relay chain is recorded. *)
Definition finalized : St := snd (para_on_finalize updated).

Lemma relay_roots_stable_witness :
  RelayChainStateCommitments (para behind) ⊆ RelayChainStateCommitments (para finalized) /\
  RelayChainStateCommitments (para finalized) !! 500 = Some relay_root_hash.
Proof.
  destruct (relay_roots_stable behind [current_relay_chain_state updated; current_relay_chain_state behind]
    finalized) as (Hsub & _).
  - apply chain_inv.
  - apply siblings_ok.
  - eapply history_step; [eapply history_step; [constructor|eapply step_update, updated_run]|].
    eapply step_finalize, (run_eq para_on_finalize updated); reflexivity.
  - split; [exact Hsub|]. vm_compute. reflexivity.
Defined.

Lemma any_fraud_proof_freezes_witness : exists c',
  freeze_client (mkFraudProofMessage (lit "any") (lit "thing") PARACHAIN_CONSENSUS_ID) behind
  = (Some (Ok (FrozenClient PARACHAIN_CONSENSUS_ID)), c').
Proof.
  destruct (any_fraud_proof_freezes (Hd := Header) siblings no_machine behind (lit "any") (lit "thing"))
    as (c' & Hrun & _); [apply chain_inv|apply ready|]. exists c'. exact Hrun.
Defined.

Lemma upgrade_resets_slot_durations_witness : exists c', para_on_runtime_upgrade behind = (Some tt, c') /\
  Parachains (para c') !! 2001 = Some 12000.
Proof.
  destruct (upgrade_resets_slot_durations behind) as (c' & Hrun & Hp & _); [reflexivity|].
  exists c'. split; [exact Hrun|]. rewrite Hp. vm_compute. reflexivity.
Defined.

(** ** A parachain that pauses *)

(** The head 12 of the parachain 2001 is already known; the head 9 of 2000 is new. *)
Definition paused : St := chain (<[machine 2000 := 8]> {[ machine 2001 := 12 ]}).

Definition paused_inherent : ConsensusMessage := mkConsensusMessage (encode (mkParachainConsensusProof 500
  [node (parachain_header_storage_key 2000) (heads !! parachain_header_storage_key 2000)])) PARACHAIN_CONSENSUS_ID [].
Definition after_pause : St := snd (update_parachain_consensus OriginNone paused_inherent paused).
Lemma paused_run : update_parachain_consensus OriginNone paused_inherent paused = (Some (Ok tt), after_pause).
Proof. apply (run_eq (update_parachain_consensus OriginNone paused_inherent) paused). vm_compute. reflexivity. Qed.

(** the inherent proves only the heads that are new, but the client reads those of all
    registered parachains and refuses the proof when one is missing: while one parachain
    pauses, the new head of another is not learned, and the call succeeds all the same. *)
Theorem paused_parachain_blocks_updates :
  exists data c', create (H := Header) relay paused = Ok (Some data) /\
    update_parachain_consensus OriginNone data paused = (Some (Ok tt), c') /\
    StateCommitments (storage c') !! mkStateMachineHeight (machine 2000) 9 = None /\
    ConsensusUpdated (para c') = None /\
    exists state_id header l, fresh_head (Hd := Header) relay (lit "relay hash") paused 2000 state_id header l.
Proof.
  exists paused_inherent, after_pause. split; [vm_compute; reflexivity|]. split; [exact paused_run|].
  split; [vm_compute; reflexivity|]. split; [vm_compute; reflexivity|].
  exists (Kusama 2000), (9, lit "nine"), nine. eexists _, _. split_and!; [vm_compute; reflexivity..| |vm_compute; reflexivity].
  eexists _, _, _. split_and!; [vm_compute; reflexivity..|discriminate|vm_compute; reflexivity|vm_compute; reflexivity].
Qed.

End ParachainDemo.
