(* ===== verification/TokenGateway.v ===== *)
(** * The token gateway

    [pallets/token-gateway/src/{lib, impls, types}.rs] and its primitives: assets are locked
    in the account of the pallet when they leave the chain, and released to their
    beneficiary when a gateway elsewhere sends them back, or when the request times out.
    The dispatcher is pallet-ismp, as in the runtimes of the repository. *)

From S2P Require Import Prelude StateMachine Router Messaging Host Handlers ChildTrie PalletTypes PalletHost Pallet Apps Hyperbridge.

(** ** Primitives *)

Definition REGISTRY : bytes := lit "registry".

Definition token_gateway_id `{Keccak256} : H160 := drop 12 (keccak256 (lit "tokengty")).
Definition token_governor_id : bytes := REGISTRY.

Record AssetMetadata : Type := mkAssetMetadata {
  am_name : bytes;
  am_symbol : bytes;
  am_decimals : Z;
  am_minimum_balance : option Z
}.

Record DeregisterAssets : Type := mkDeregisterAssets { da_asset_ids : list H256 }.

Record GatewayAssetRegistration : Type := mkGatewayAssetRegistration {
  gr_name : bytes;
  gr_symbol : bytes;
  gr_chains : list StateMachine;
  gr_minimum_balance : option Z
}.

Record GatewayAssetUpdate : Type := mkGatewayAssetUpdate {
  gu_asset_id : H256;
  gu_add_chains : list StateMachine;
  gu_remove_chains : list StateMachine;
  gu_new_admins : list (StateMachine * H160)
}.

Inductive RemoteERC6160AssetRegistration : Type :=
| CreateAsset (asset : GatewayAssetRegistration)
| UpdateAsset (asset : GatewayAssetUpdate).

(** The body of a transfer, encoded by [alloy_sol_types]. *)
Record Body : Type := mkBody {
  body_amount : Z;
  body_asset_id : H256;
  body_redeem : bool;
  body_from : H256;
  body_to : H256
}.

Class BodyAbi : Type := {
  abi_encode_body : Body -> bytes;
  abi_decode_body : bytes -> option Body
}.

(** ** Conversions *)

(** [10u128.pow(n)] in a release build. *)
Definition pow10 (n : Z) : Z := wrap128 (10 ^ n).

(** [u8::saturating_sub] *)
Definition saturating_sub_u8 (x y : Z) : Z := Z.max 0 (x - y).

(** Dividing by zero panics; a quotient that does not fit is an error. *)
Definition convert_to_balance (value erc_decimals final_decimals : Z) : option (result bytes Z) :=
  let d := pow10 (saturating_sub_u8 erc_decimals final_decimals) in
  if d =? 0 then None
  else
    let q := value / d in
    Some (if q <=? u128_max then Ok q else Err (lit "ParseIntError { kind: PosOverflow }")).

(** [U256] multiplication panics on overflow. *)
Definition convert_to_erc20 (value erc_decimals decimals : Z) : option Z :=
  let r := value * pow10 (saturating_sub_u8 erc_decimals decimals) in
  if r <=? u256_max then Some r else None.

(** ** Libraries

    [fungibles] and [Currency] of FRAME, on the accounts of the runtime. The flag of a
    native transfer is [KeepAlive]; assets are always transferred with [Protect]. *)
Class Fungibles (AssetId Acc : Type) : Type := {
  native_transfer : bool -> bytes -> bytes -> Z -> Acc -> result bytes Acc;
  asset_balance : AssetId -> bytes -> Acc -> Z;
  asset_transfer : AssetId -> bytes -> bytes -> Z -> Acc -> result bytes Acc;
  asset_decimals : AssetId -> Acc -> Z;
  asset_create : AssetId -> bytes -> bool -> Z -> Acc -> result bytes Acc;
  asset_set_metadata : AssetId -> bytes -> bytes -> bytes -> Z -> Acc -> result bytes Acc;
  asset_admin : AssetId -> Acc -> option bytes
}.

(** [Config] of the pallet: the native asset and its decimals, the admin of assets, the
    factory of identifiers, and accounts of pallets ([into_account_truncating]). *)
Class GatewayConfig (AssetId : Type) : Type := {
  NativeAssetId : AssetId;
  NativeDecimals : Z;
  AssetAdmin : bytes;
  create_asset_id : bytes -> result AnyError AssetId;
  account_of_pallet : bytes -> bytes
}.

(** ** Data *)

Record TeleportParams (AssetId : Type) : Type := mkTeleportParams {
  tp_asset_id : AssetId;
  tp_destination : StateMachine;
  tp_recepient : H256;
  tp_amount : Z;
  tp_timeout : Z;
  tp_token_gateway : bytes;
  tp_relayer_fee : Z
}.
Arguments tp_asset_id {AssetId}.
Arguments tp_destination {AssetId}.
Arguments tp_recepient {AssetId}.
Arguments tp_amount {AssetId}.
Arguments tp_timeout {AssetId}.
Arguments tp_token_gateway {AssetId}.
Arguments tp_relayer_fee {AssetId}.
Arguments mkTeleportParams {AssetId}.

Record LocalRegistration (AssetId : Type) : Type := mkLocalRegistration {
  ar_local_id : AssetId;
  ar_reg : GatewayAssetRegistration
}.
Arguments ar_local_id {AssetId}.
Arguments ar_reg {AssetId}.
Arguments mkLocalRegistration {AssetId}.

Inductive GatewayEvent : Type :=
| AssetTeleported (from : bytes) (to : H256) (amount : Z) (dest : StateMachine) (commitment : H256)
| AssetReceived (beneficiary : bytes) (amount : Z) (source : StateMachine)
| AssetRefunded (beneficiary : bytes) (amount : Z) (source : StateMachine)
| ERC6160AssetRegistrationDispatched (commitment : H256).

Inductive GatewayError : Type :=
| UnregisteredAsset
| AssetTeleportError
| CoprocessorNotConfigured
| GatewayDispatchError
| AssetCreationError
| AssetDecimalsNotFound
| NotInitialized
| UnknownAsset
| NotAssetOwner
| TransferFailed (text : bytes).

(** The accounts of the runtime with the storage of the pallet. *)
Record Gateway (AssetId Acc : Type) `{Countable AssetId} : Type := mkGateway {
  gw_accounts : Acc;
  SupportedAssets : gmap AssetId H256;
  LocalAssets : gmap H256 AssetId;
  ErcDecimals : gmap AssetId Z;
  TokenGatewayAddresses : gmap StateMachine bytes;
  gw_events : list GatewayEvent
}.
Arguments mkGateway {AssetId Acc _ _}.
Arguments gw_accounts {AssetId Acc _ _}.
Arguments SupportedAssets {AssetId Acc _ _}.
Arguments LocalAssets {AssetId Acc _ _}.
Arguments ErcDecimals {AssetId Acc _ _}.
Arguments TokenGatewayAddresses {AssetId Acc _ _}.
Arguments gw_events {AssetId Acc _ _}.

#[export] Program Instance gateway_currency `{Countable AssetId} {Acc} `{!Currency Acc} :
    Currency (Gateway AssetId Acc) := {|
  balance a k := balance a (gw_accounts k);
  transfer a b n k :=
    result_map (fun acc => mkGateway acc (SupportedAssets k) (LocalAssets k) (ErcDecimals k)
      (TokenGatewayAddresses k) (gw_events k)) (transfer a b n (gw_accounts k))
|}.
Next Obligation.
  intros A ? ? Acc HC a b n k k' Hne E. cbn in *. destruct (transfer a b n (gw_accounts k)) eqn:Et; [|done].
  injection E as <-. cbn. by apply transfer_moves.
Qed.

Section gateway.
Context `{HK : Keccak256} `{HC : Codecs, !HeightSort, !ErrorText, !ChildRoot} `{!Codec Leaf}.
Context `{!Codec AssetMetadata, !Codec DeregisterAssets, !Codec RemoteERC6160AssetRegistration, !BodyAbi}.
Context {AssetId Acc Tree : Type} `{HA : Countable AssetId}.
Context `{!Currency Acc, !Fungibles AssetId Acc, !GatewayConfig AssetId, !HyperbridgeEnv}.
Context `{!Mmr Tree, !Config (Apps (Gateway AssetId Acc)) Tree}.

Abbreviation St := (Chain (Apps (Gateway AssetId Acc)) Tree).

(** ** Storage *)

Definition gateway (c : St) : Gateway AssetId Acc := accounts (bank c).

Definition set_gateway (g : Gateway AssetId Acc) (k : Apps (Gateway AssetId Acc)) :
    Apps (Gateway AssetId Acc) :=
  mkApps g (hb_HostParams k) (hx_HostParams k) (hx_EvmHosts k) (rl_Fees k) (rl_Nonce k)
    (rl_MinimumWithdrawalAmount k) (fm_Fishermen k) (app_events k).

Definition modify_gateway (f : Gateway AssetId Acc -> Gateway AssetId Acc) : M St unit :=
  modify_app (fun k => set_gateway (f (accounts k)) k).

Definition on_accounts (f : Acc -> Acc) (g : Gateway AssetId Acc) := mkGateway (f (gw_accounts g)) (SupportedAssets g)
  (LocalAssets g) (ErcDecimals g) (TokenGatewayAddresses g) (gw_events g).
Definition on_SupportedAssets (f : gmap AssetId H256 -> gmap AssetId H256) (g : Gateway AssetId Acc) := mkGateway (gw_accounts g) (f (SupportedAssets g))
  (LocalAssets g) (ErcDecimals g) (TokenGatewayAddresses g) (gw_events g).
Definition on_LocalAssets (f : gmap H256 AssetId -> gmap H256 AssetId) (g : Gateway AssetId Acc) := mkGateway (gw_accounts g) (SupportedAssets g)
  (f (LocalAssets g)) (ErcDecimals g) (TokenGatewayAddresses g) (gw_events g).
Definition on_ErcDecimals (f : gmap AssetId Z -> gmap AssetId Z) (g : Gateway AssetId Acc) := mkGateway (gw_accounts g) (SupportedAssets g)
  (LocalAssets g) (f (ErcDecimals g)) (TokenGatewayAddresses g) (gw_events g).
Definition on_GatewayAddresses (f : gmap StateMachine bytes -> gmap StateMachine bytes) (g : Gateway AssetId Acc) := mkGateway (gw_accounts g) (SupportedAssets g)
  (LocalAssets g) (ErcDecimals g) (f (TokenGatewayAddresses g)) (gw_events g).
Definition gateway_event (e : GatewayEvent) : M St unit :=
  modify_gateway (fun g => mkGateway (gw_accounts g) (SupportedAssets g) (LocalAssets g)
    (ErcDecimals g) (TokenGatewayAddresses g) (gw_events g ++ [e])).

(** An operation on the accounts. *)
Definition on_ledger (op : Acc -> result bytes Acc) : M St (result bytes unit) := fun c =>
  match op (gw_accounts (gateway c)) with
  | Ok acc => (Some (Ok tt), upd_bank (set_gateway (on_accounts (fun _ => acc) (gateway c))) c)
  | Err e => (Some (Err e), c)
  end.

(** ** Helpers ([impls.rs]) *)

Definition pallet_account : bytes := account_of_pallet (take 8 token_gateway_id).

Definition is_token_gateway (id : bytes) : bool := bool_decide (id = token_gateway_id).

Definition gateway_ensure_admin (who : bytes) (asset_id : AssetId) (c : St) : result GatewayError unit :=
  match asset_admin asset_id (gw_accounts (gateway c)) with
  | None => Err UnknownAsset
  | Some owner => if bool_decide (who = owner) then Ok tt else Err NotAssetOwner
  end.

(** The transfer of an amount of a local asset. *)
Definition transfer_of (keep_alive : bool) (asset_id : AssetId) (from to : bytes) (amount : Z)
    (acc : Acc) : result bytes Acc :=
  if bool_decide (asset_id = NativeAssetId) then native_transfer keep_alive from to amount acc
  else asset_transfer asset_id from to amount acc.

Definition move_asset (keep_alive : bool) (asset_id : AssetId) (from to : bytes) (amount : Z) :
    M St (result bytes unit) := on_ledger (transfer_of keep_alive asset_id from to amount).

Definition local_decimals (asset_id : AssetId) (c : St) : Z :=
  if bool_decide (asset_id = NativeAssetId) then NativeDecimals
  else asset_decimals asset_id (gw_accounts (gateway c)).

(** ** Calls *)

#[local] Instance From_transfer : From bytes (CallError GatewayError) := fun e => CallFailed (TransferFailed e).

Definition teleport (origin : Origin) (params : TeleportParams AssetId) :
    M St (result (CallError GatewayError) unit) := transactional (
  let? who := ret (call_signed origin) in
  let? asset_id := gets (fun c => ok_or (SupportedAssets (gateway c) !! tp_asset_id params) UnregisteredAsset) in
  let? _ := move_asset true (tp_asset_id params) who pallet_account (tp_amount params) in
  let* decimals := gets (local_decimals (tp_asset_id params)) in
  let? erc_decimals := gets (fun c =>
      ok_or (ErcDecimals (gateway c) !! tp_asset_id params) AssetDecimalsNotFound) in
  let* amount := or_panic (convert_to_erc20 (tp_amount params) erc_decimals decimals) in
  let body := mkBody amount asset_id false who (tp_recepient params) in
  let dispatch_post := mkDispatchPost (tp_destination params) token_gateway_id
      (tp_token_gateway params) (tp_timeout params) (Byte.x00 :: abi_encode_body body) in
  let* dispatched := dispatch_request (DispatchPostRequest dispatch_post)
      (mkFeeMetadata who (tp_relayer_fee params)) in
  let? commitment := ret (map_err (fun _ => AssetTeleportError) dispatched) in
  let* _ := gateway_event (AssetTeleported who (tp_recepient params) (tp_amount params)
      (tp_destination params) commitment) in
  ret (Ok tt)).

Definition set_token_gateway_addresses (origin : Origin) (addresses : list (StateMachine * bytes)) :
    M St (result (CallError GatewayError) unit) := transactional (
  let? _ := ret (call_admin origin) in
  let* _ := modify_gateway (on_GatewayAddresses (fun m =>
      foldl (fun m e => <[e.1 := e.2]> m) m addresses)) in
  ret (Ok tt)).

(** The fee of hyperbridge for a registration. *)
Definition charge_registration (who : bytes) : M St (result (CallError GatewayError) unit) :=
  let* params := gets (app_read hb_HostParams) in
  let fee := shp_asset_registration_fee (v1_params params) in
  if negb (fee =? 0) then
    let* r := currency_transfer who hyperbridge_account fee in
    ret (map_err (fun e => CallFailed (TransferFailed e)) r)
  else ret (Ok tt).

(** A request to the governor on hyperbridge. *)
Definition dispatch_to_governor (who : bytes) (message : RemoteERC6160AssetRegistration) :
    M St (result (CallError GatewayError) H256) :=
  let? dest := ret (ok_or Coprocessor CoprocessorNotConfigured) in
  let* dispatched := dispatch_request (DispatchPostRequest (mkDispatchPost dest token_gateway_id
      token_governor_id 0 (encode message))) (mkFeeMetadata who 0) in
  let? commitment := ret (map_err (fun _ => GatewayDispatchError) dispatched) in
  ret (Ok commitment).

Definition create_erc6160_asset (origin : Origin) (asset : LocalRegistration AssetId) :
    M St (result (CallError GatewayError) unit) := transactional (
  let? who := ret (call_signed origin) in
  let? _ := charge_registration who in
  let asset_id := keccak256 (gr_symbol (ar_reg asset)) in
  let* _ := modify_gateway (on_SupportedAssets <[ar_local_id asset := asset_id]>) in
  let* _ := modify_gateway (on_LocalAssets <[asset_id := ar_local_id asset]>) in
  let* _ := modify_gateway (on_ErcDecimals <[ar_local_id asset := 18]>) in
  let? commitment := dispatch_to_governor who (CreateAsset (ar_reg asset)) in
  let* _ := gateway_event (ERC6160AssetRegistrationDispatched commitment) in
  ret (Ok tt)).

Definition update_erc6160_asset (origin : Origin) (asset : GatewayAssetUpdate) :
    M St (result (CallError GatewayError) unit) := transactional (
  let? who := ret (call_signed origin) in
  let? asset_id := gets (fun c => ok_or (LocalAssets (gateway c) !! gu_asset_id asset) UnregisteredAsset) in
  let? _ := gets (gateway_ensure_admin who asset_id) in
  let? _ := charge_registration who in
  let? commitment := dispatch_to_governor who (UpdateAsset asset) in
  let* _ := gateway_event (ERC6160AssetRegistrationDispatched commitment) in
  ret (Ok tt)).

(** ** The module *)

Definition MIN_BALANCE : Z := 1000000000.

Definition asset_error (e : bytes) : AnyError := AnyMessage e.

(** Asset creation and updates from the governor. *)
Definition accept_metadata (metadata : AssetMetadata) : M St (result AnyError unit) :=
  let asset_id := keccak256 (am_symbol metadata) in
  let* known := gets (fun c => LocalAssets (gateway c) !! asset_id) in
  match known with
  | Some local_asset_id =>
      let* decimals := gets (fun c => asset_decimals local_asset_id (gw_accounts (gateway c))) in
      let* r := on_ledger (asset_set_metadata local_asset_id AssetAdmin (am_name metadata)
          (am_symbol metadata) decimals) in
      let? _ := ret (map_err asset_error r) in
      let* _ := modify_gateway (on_ErcDecimals <[local_asset_id := am_decimals metadata]>) in
      ret (Ok tt)
  | None =>
      let min_balance := default MIN_BALANCE (am_minimum_balance metadata) in
      let? local_asset_id := ret (create_asset_id (am_symbol metadata)) in
      let* r := on_ledger (asset_create local_asset_id AssetAdmin true min_balance) in
      let? _ := ret (map_err asset_error r) in
      let* r := on_ledger (asset_set_metadata local_asset_id AssetAdmin (am_name metadata)
          (am_symbol metadata) 18) in
      let? _ := ret (map_err asset_error r) in
      let* _ := modify_gateway (on_SupportedAssets <[local_asset_id := asset_id]>) in
      let* _ := modify_gateway (on_LocalAssets <[asset_id := local_asset_id]>) in
      let* _ := modify_gateway (on_ErcDecimals <[local_asset_id := am_decimals metadata]>) in
      ret (Ok tt)
  end.

Definition deregister_asset (asset_id : H256) : M St unit :=
  let* known := gets (fun c => LocalAssets (gateway c) !! asset_id) in
  match known with
  | None => ret tt
  | Some local_asset_id =>
      let* _ := modify_gateway (on_SupportedAssets (delete local_asset_id)) in
      let* _ := modify_gateway (on_LocalAssets (delete asset_id)) in
      modify_gateway (on_ErcDecimals (delete local_asset_id))
  end.

(** A [ModuleDispatchError] about a request. *)
Definition gateway_failure (text : bytes) (request : PostRequest) : Error :=
  ModuleDispatchError text (mkMeta (post_source request) (post_dest request) (post_nonce request)).

(** [&body[1..]] *)
Definition body_tail (body : bytes) : option bytes :=
  match body with [] => None | _ :: r => Some r end.

(** The amount of a transfer, and the asset it is of. *)
Definition incoming_asset (request : PostRequest) (body : Body) : M St (result AnyError (AssetId * Z)) :=
  let? local_asset_id := gets (fun c => ok_or (LocalAssets (gateway c) !! body_asset_id body)
      (gateway_failure (lit "Token Gateway: Unknown asset") request)) in
  let* decimals := gets (local_decimals local_asset_id) in
  let? erc_decimals := gets (fun c => ok_or (ErcDecimals (gateway c) !! local_asset_id)
      (AnyMessage (lit "Asset decimals not configured"))) in
  let* amount := or_panic (convert_to_balance (body_amount body) erc_decimals decimals) in
  let? amount := ret (map_err (fun _ =>
      gateway_failure (lit "Token Gateway: Trying to withdraw Invalid amount") request) amount) in
  ret (Ok (local_asset_id, amount)).

(** The release of an amount from the account of the pallet. *)
Definition release (request : PostRequest) (asset : AssetId) (beneficiary : bytes) (amount : Z) :
    M St (result AnyError unit) :=
  let* r := move_asset false asset pallet_account beneficiary amount in
  let? _ := ret (map_err (fun _ =>
      gateway_failure (lit "Token Gateway: Failed to complete asset transfer") request) r) in
  ret (Ok tt).

Definition decode_body (request : PostRequest) : M St (result AnyError Body) :=
  let* tail := or_panic (body_tail (post_body request)) in
  let? body := ret (ok_or (abi_decode_body tail)
      (gateway_failure (lit "Token Gateway: Failed to decode request body") request)) in
  ret (Ok body).

(** What a transfer received and a transfer refunded have in common: the body names the
    asset and the amount, which leaves the account of the pallet. *)
Definition settle (request : PostRequest) (beneficiary : Body -> bytes)
    (event : bytes -> Z -> GatewayEvent) : M St (result AnyError unit) :=
  let? body := decode_body request in
  let? (asset, amount) := incoming_asset request body in
  let? _ := release request asset (beneficiary body) amount in
  let* _ := gateway_event (event (beneficiary body) amount) in
  ret (Ok tt).

(** The contract of a gateway elsewhere, or this pallet on another chain. *)
Definition known_gateway (request : PostRequest) (c : St) : bool :=
  let address := default [] (TokenGatewayAddresses (gateway c) !! post_source request) in
  bool_decide (post_from request = address) || bool_decide (post_from request = token_gateway_id).

Definition accept_transfer (request : PostRequest) : M St (result AnyError unit) :=
  let* known := gets (known_gateway request) in
  let? _ := ensure_not (negb known)
      (gateway_failure (lit "Token Gateway: Unknown source contract address") request) in
  settle request body_to (fun beneficiary amount => AssetReceived beneficiary amount (post_source request)).

Definition gateway_on_accept (request : PostRequest) : M St (result AnyError unit) :=
  if bool_decide (post_from request = token_governor_id) && bool_decide (Some (post_source request) = Coprocessor)
  then
    match decode (A := AssetMetadata) (post_body request) with
    | Some metadata => accept_metadata metadata
    | None =>
        match decode (A := DeregisterAssets) (post_body request) with
        | Some meta =>
            let* _ := map_m deregister_asset (da_asset_ids meta) in
            accept_transfer request
        | None => accept_transfer request
        end
    end
  else accept_transfer request.

Definition gateway_on_timeout (timeout : Timeout) : M St (result AnyError unit) :=
  match timeout with
  | TimeoutRequest (RequestPost request) =>
      settle request body_from (fun beneficiary amount =>
        AssetRefunded beneficiary amount (post_dest request))
  | TimeoutRequest (RequestGet get) =>
      ret (Err (IsmpError (ModuleDispatchError (lit "Tried to timeout unsupported request type")
        (mkMeta (get_source get) (get_dest get) (get_nonce get)))))
  | TimeoutResponse response =>
      ret (Err (IsmpError (ModuleDispatchError (lit "Tried to timeout unsupported request type")
        (mkMeta (pr_source_chain response) (pr_dest_chain response) (pr_nonce response)))))
  end.

Definition gateway_module : IsmpModule St := {|
  on_accept := gateway_on_accept;
  on_response _ := ret (Err (AnyMessage (lit "Module does not accept responses")));
  on_timeout := gateway_on_timeout
|}.

End gateway.
