(* ===== verification/TokenGatewayProps.v ===== *)
(** * The token gateway: theorems

    The conversions between the decimals of a chain and those of its ERC20 counterpart, what
    a teleport locks and dispatches, what a message from another gateway and a timeout
    release, and the balance of the custody account over any sequence of operations. *)

From S2P Require Import Prelude StateMachine Router Messaging Host Handlers HostSpec Frame ChildTrie PalletTypes PalletHost PalletRefines Pallet PalletFrames PalletProps Apps Hyperbridge TokenGateway.

(** ** Conversions *)

(** Up to 38 decimals of difference the power of ten fits a [u128]. *)
Lemma pow10_exact n : 0 <= n <= 38 -> pow10 n = 10 ^ n.
Proof.
  intros Hn. apply Z.mod_small. split; [apply Z.pow_nonneg; lia|].
  apply Z.le_lt_trans with (10 ^ 38); [apply Z.pow_le_mono_r; lia|reflexivity].
Qed.

Lemma scale_range e d : 0 <= e <= 255 -> 0 <= d <= 255 -> e - d <= 38 -> 0 <= saturating_sub_u8 e d <= 38.
Proof. unfold saturating_sub_u8. lia. Qed.

Lemma to_erc20_exact v e d :
  0 <= v <= u128_max -> 0 <= e <= 255 -> 0 <= d <= 255 -> e - d <= 38 ->
  convert_to_erc20 v e d = Some (v * 10 ^ saturating_sub_u8 e d).
Proof.
  intros Hv He Hd Hed. pose proof (scale_range e d He Hd Hed) as Hs.
  unfold convert_to_erc20. rewrite pow10_exact by done.
  destruct (Z.leb_spec (v * 10 ^ saturating_sub_u8 e d) u256_max) as [_|Hbig]; [done|].
  exfalso. assert (10 ^ saturating_sub_u8 e d <= 10 ^ 38) by (apply Z.pow_le_mono_r; lia).
  assert (0 < 10 ^ saturating_sub_u8 e d) by (apply Z.pow_pos_nonneg; lia).
  assert (v * 10 ^ saturating_sub_u8 e d <= u128_max * 10 ^ 38) by nia.
  assert (u128_max * 10 ^ 38 <= u256_max) by (vm_compute; discriminate). lia.
Qed.

Lemma to_balance_exact v e d :
  0 <= v -> 0 <= e <= 255 -> 0 <= d <= 255 -> e - d <= 38 ->
  v / 10 ^ saturating_sub_u8 e d <= u128_max ->
  convert_to_balance v e d = Some (Ok (v / 10 ^ saturating_sub_u8 e d)).
Proof.
  intros Hv He Hd Hed Hq. pose proof (scale_range e d He Hd Hed) as Hs.
  unfold convert_to_balance. rewrite pow10_exact by done.
  assert (0 < 10 ^ saturating_sub_u8 e d) by (apply Z.pow_pos_nonneg; lia).
  destruct (Z.eqb_spec (10 ^ saturating_sub_u8 e d) 0); [lia|].
  by destruct (Z.leb_spec (v / 10 ^ saturating_sub_u8 e d) u128_max); [|lia].
Qed.

(** An amount that leaves the chain comes back as itself. *)
Lemma erc20_roundtrip v e d :
  0 <= v <= u128_max -> 0 <= e <= 255 -> 0 <= d <= 255 -> e - d <= 38 ->
  exists w, convert_to_erc20 v e d = Some w /\ convert_to_balance w e d = Some (Ok v).
Proof.
  intros Hv He Hd Hed. eexists. split; [by apply to_erc20_exact|].
  assert (0 < 10 ^ saturating_sub_u8 e d).
  { apply Z.pow_pos_nonneg; [lia|]. unfold saturating_sub_u8. lia. }
  rewrite to_balance_exact; rewrite ?Z.div_mul by lia; try done; nia.
Qed.

(** converting to the decimals of the ERC20 counterpart and back is exact. For every
    [u128] amount and decimals that differ by at most 38, the conversion out does not
    overflow and the conversion in returns the amount; an amount that comes in is rounded
    down, so that less than one unit of the local asset stays behind, and the chain never
    credits more than was sent. When the counterpart has fewer decimals than the asset, both
    conversions are the identity. *)
Theorem conversions_roundtrip v w e d :
  0 <= v <= u128_max -> 0 <= w -> 0 <= e <= 255 -> 0 <= d <= 255 -> e - d <= 38 ->
  (exists x, convert_to_erc20 v e d = Some x /\ convert_to_balance x e d = Some (Ok v)) /\
  (forall q, convert_to_balance w e d = Some (Ok q) ->
     q * 10 ^ saturating_sub_u8 e d <= w < (q + 1) * 10 ^ saturating_sub_u8 e d) /\
  (e <= d -> convert_to_erc20 v e d = Some v /\ convert_to_balance v e d = Some (Ok v)).
Proof.
  intros Hv Hw He Hd Hed. split; [by apply erc20_roundtrip|].
  pose proof (scale_range e d He Hd Hed) as Hs.
  assert (0 < 10 ^ saturating_sub_u8 e d) by (apply Z.pow_pos_nonneg; lia). split.
  - intros q. unfold convert_to_balance. rewrite pow10_exact by done.
    destruct (Z.eqb_spec (10 ^ saturating_sub_u8 e d) 0); [lia|].
    destruct (_ <=? _); [|done]. intros [= <-].
    pose proof (Z.mul_div_le w (10 ^ saturating_sub_u8 e d)).
    pose proof (Z.mul_succ_div_gt w (10 ^ saturating_sub_u8 e d)). lia.
  - intros Hle. assert (saturating_sub_u8 e d = 0) as E0 by (unfold saturating_sub_u8; lia).
    rewrite to_erc20_exact, to_balance_exact; rewrite ?E0, ?Z.mul_1_r, ?Z.div_1_r; try done; lia.
Qed.

Lemma conversions_roundtrip_witness :
  exists x, convert_to_erc20 10000000000 18 10 = Some x /\
    convert_to_balance x 18 10 = Some (Ok 10000000000).
Proof. apply (conversions_roundtrip 10000000000 1 18 10); unfold u128_max; lia. Defined.

(** ** What the libraries promise *)

(** A native transfer with [KeepAlive] is exact; one with [AllowDeath] may empty the sender,
    burning what is below the existential deposit. Transfers of an asset are protected, hence
    exact, and touch that asset only. *)
Class FungiblesLaws (AssetId Acc : Type) `{!Currency Acc, !Fungibles AssetId Acc} : Prop := {
  native_moves keep a b n k k' : a <> b -> native_transfer keep a b n k = Ok k' ->
    balance b k' = balance b k + n /\
    (balance a k' = balance a k - n \/ (keep = false /\ balance a k' = 0 /\ n <= balance a k)) /\
    (forall x, x <> a -> x <> b -> balance x k' = balance x k);
  native_self keep a n k k' : native_transfer keep a a n k = Ok k' ->
    forall x, balance x k' = balance x k;
  native_keeps_assets keep a b n k k' : native_transfer keep a b n k = Ok k' ->
    forall i x, asset_balance i x k' = asset_balance i x k;
  asset_moves i a b n k k' : a <> b -> asset_transfer i a b n k = Ok k' ->
    asset_balance i b k' = asset_balance i b k + n /\
    asset_balance i a k' = asset_balance i a k - n /\
    (forall x, x <> a -> x <> b -> asset_balance i x k' = asset_balance i x k);
  asset_self i a n k k' : asset_transfer i a a n k = Ok k' ->
    forall x, asset_balance i x k' = asset_balance i x k;
  asset_keeps_others i j a b n k k' : i <> j -> asset_transfer i a b n k = Ok k' ->
    forall x, asset_balance j x k' = asset_balance j x k;
  native_keeps_decimals keep j a b n k k' : native_transfer keep a b n k = Ok k' ->
    asset_decimals j k' = asset_decimals j k;
  asset_keeps_decimals i j a b n k k' : asset_transfer i a b n k = Ok k' ->
    asset_decimals j k' = asset_decimals j k;
  fee_keeps_assets a b n k k' : transfer a b n k = Ok k' ->
    forall i x, asset_balance i x k' = asset_balance i x k;
  create_keeps_assets i a s n k k' : asset_create i a s n k = Ok k' ->
    forall j x, asset_balance j x k' = asset_balance j x k;
  metadata_keeps_assets i a nm sy d k k' : asset_set_metadata i a nm sy d k = Ok k' ->
    forall j x, asset_balance j x k' = asset_balance j x k
}.

(** The ABI decodes what it encodes, for words in range. *)
Definition wf_body (b : Body) : Prop :=
  0 <= body_amount b <= u256_max /\ length (body_asset_id b) = 32%nat /\
  length (body_from b) = 32%nat /\ length (body_to b) = 32%nat.

Class BodyAbiLaws `{!BodyAbi} : Prop :=
  abi_decode_encode_body b : wf_body b -> abi_decode_body (abi_encode_body b) = Some b.

Section properties.
Context `{HK : Keccak256} `{HC : Codecs, !HeightKeys, !HeightSort, !ErrorText, !ChildRoot} `{!Codec Leaf}.
Context `{!Codec AssetMetadata, !Codec DeregisterAssets, !Codec RemoteERC6160AssetRegistration, !BodyAbi}.
Context {AssetId Acc Tree : Type} `{HA : Countable AssetId}.
Context `{!Currency Acc, !Fungibles AssetId Acc, !GatewayConfig AssetId, !HyperbridgeEnv}.
Context `{!Mmr Tree, !Config (Apps (Gateway AssetId Acc)) Tree}.

Abbreviation St := (Chain (Apps (Gateway AssetId Acc)) Tree).
Implicit Types c : St.

(** ** Settling a transfer *)

Lemma on_ledger_run op c o c' :
  on_ledger op c = (o, c') ->
  (o = Some (Ok tt) /\ exists acc, op (gw_accounts (gateway c)) = Ok acc /\
     c' = upd_bank (set_gateway (on_accounts (fun _ => acc) (gateway c))) c) \/
  (exists e, o = Some (Err e) /\ op (gw_accounts (gateway c)) = Err e /\ c' = c).
Proof. unfold on_ledger. destruct (op _) eqn:E; intros [= <- <-]; eauto. Qed.

(** The asset and amount a body asks for, as the storage has it. *)
Definition quote (b : Body) c : option (AssetId * Z) :=
  local ← LocalAssets (gateway c) !! body_asset_id b;
  erc ← ErcDecimals (gateway c) !! local;
  r ← convert_to_balance (body_amount b) erc (local_decimals local c);
  n ← ok r;
  Some (local, n).

Lemma incoming_asset_run request b c o c' :
  incoming_asset request b c = (o, c') ->
  c' = c /\ forall a n, o = Some (Ok (a, n)) <-> quote b c = Some (a, n).
Proof.
  unfold incoming_asset, quote. unfold try_bind, bind, gets, ret, or_panic.
  destruct (LocalAssets (gateway c) !! _) as [i|]; cbn [ok_or mbind option_bind];
    [|intros [= <- <-]; by split].
  destruct (ErcDecimals (gateway c) !! _) as [e|]; cbn [ok_or mbind option_bind];
    [|intros [= <- <-]; by split].
  destruct (convert_to_balance _ _ _) as [[q|er]|]; cbn [ret panic map_err mbind option_bind ok];
    intros [= <- <-]; split; try done; naive_solver.
Qed.

(** The body of a request, after the byte that selects the action. *)
Definition request_body (request : PostRequest) : option Body :=
  body_tail (post_body request) ≫= abi_decode_body.

Lemma decode_body_run request c o c' :
  decode_body request c = (o, c') ->
  c' = c /\ forall b, o = Some (Ok b) <-> request_body request = Some b.
Proof.
  unfold decode_body, request_body. unfold try_bind, bind, ret, or_panic.
  destruct (body_tail _) as [t|]; cbn [mbind option_bind ret panic];
    [|intros [= <- <-]; by split].
  destruct (abi_decode_body t); cbn [ok_or]; intros [= <- <-]; split; try done; naive_solver.
Qed.

(** The chain after [n] of [a] has left the custody account. *)
Definition settled (a : AssetId) (to : bytes) (n : Z) (e : GatewayEvent) c c' : Prop :=
  exists acc, transfer_of false a pallet_account to n (gw_accounts (gateway c)) = Ok acc /\
    c' = upd_bank (set_gateway (mkGateway acc (SupportedAssets (gateway c)) (LocalAssets (gateway c))
           (ErcDecimals (gateway c)) (TokenGatewayAddresses (gateway c))
           (gw_events (gateway c) ++ [e]))) c.

Lemma settle_run request who ev c o c' :
  settle request who ev c = (o, c') ->
  (o = Some (Ok tt) /\ exists b a n, request_body request = Some b /\ quote b c = Some (a, n) /\
     settled a (who b) n (ev (who b) n) c c') \/
  (o <> Some (Ok tt) /\ c' = c).
Proof.
  unfold settle. intros [(b & c1 & Hb & Hrun)|(o1 & Hb & _ & Ho)]%try_split;
    apply decode_body_run in Hb as [-> Hb]; [|right; by split].
  apply try_split in Hrun as [([a n] & c1 & Hi & Hrun)|(o1 & Hi & _ & Ho)];
    apply incoming_asset_run in Hi as [-> Hi]; [|right; by split].
  unfold try_bind at 1, release, try_bind at 1, bind at 1 2 3, move_asset, on_ledger, ret in Hrun.
  destruct (transfer_of _ _ _ _ _ _) as [acc|e] eqn:Et; cbn in Hrun; injection Hrun as <- <-.
  - left. split; [done|]. exists b, a, n. split; [by apply Hb|]. split; [by apply Hi|].
    exists acc. by split.
  - right. by split.
Qed.

(** The other way round: a transfer that can be paid is settled. *)
Lemma settle_succeeds request who ev c b a n acc :
  request_body request = Some b -> quote b c = Some (a, n) ->
  transfer_of false a pallet_account (who b) n (gw_accounts (gateway c)) = Ok acc ->
  exists c', settle request who ev c = (Some (Ok tt), c') /\ settled a (who b) n (ev (who b) n) c c'.
Proof.
  intros Hb Hq Ht. unfold settle.
  destruct (decode_body request c) as [o1 c1] eqn:E1.
  destruct (decode_body_run _ _ _ _ E1) as [-> D1]. apply D1 in Hb as ->.
  rewrite (try_ok _ _ _ _ _ E1).
  destruct (incoming_asset request b c) as [o2 c2] eqn:E2.
  destruct (incoming_asset_run _ _ _ _ _ E2) as [-> D2]. apply D2 in Hq as ->.
  rewrite (try_ok _ _ _ _ _ E2).
  eexists. split; [|exists acc; split; [exact Ht|reflexivity]].
  unfold release, move_asset, on_ledger, try_bind, bind. rewrite Ht. reflexivity.
Qed.

(** Who may have assets released: the gateway registered for the source chain, this pallet on
    any chain, and, from a chain that has no gateway registered, a sender that is empty. *)
Definition from_gateway (request : PostRequest) c : Prop :=
  TokenGatewayAddresses (gateway c) !! post_source request = Some (post_from request) \/
  post_from request = token_gateway_id \/
  (TokenGatewayAddresses (gateway c) !! post_source request = None /\ post_from request = []).

Lemma known_gateway_iff request c : known_gateway request c = true <-> from_gateway request c.
Proof.
  unfold known_gateway, from_gateway. cbv zeta. rewrite orb_true_iff, !bool_decide_eq_true.
  destruct (TokenGatewayAddresses (gateway c) !! post_source request); cbn; naive_solver.
Qed.

(** C28: the gateway releases assets to nobody but those its counterparts name. A request that is
    not from the governor on hyperbridge is settled exactly if it comes from the gateway
    registered for its source or from this pallet on another chain (or, when its source has no
    gateway registered, from a sender that is empty, which the code does not exclude), its body
    decodes, the asset is registered, and the account of the pallet can pay. Then exactly the
    amount of the body, converted to the decimals of the asset, leaves that account for the
    beneficiary, with the event, and nothing else changes; in every other case nothing changes
    at all. *)
Theorem gateway_releases request c o c' :
  ~ (post_from request = token_governor_id /\ Some (post_source request) = Coprocessor) ->
  on_accept gateway_module request c = (o, c') ->
  (o = Some (Ok tt) /\ from_gateway request c /\
   exists b a n, request_body request = Some b /\ quote b c = Some (a, n) /\
     settled a (body_to b) n (AssetReceived (body_to b) n (post_source request)) c c') \/
  (o <> Some (Ok tt) /\ c' = c /\
   ~ (from_gateway request c /\ exists b a n acc, request_body request = Some b /\ quote b c = Some (a, n) /\
      transfer_of false a pallet_account (body_to b) n (gw_accounts (gateway c)) = Ok acc)).
Proof.
  intros Hng. cbn [on_accept gateway_module]. unfold gateway_on_accept.
  replace (bool_decide (post_from request = _) && bool_decide _) with false
    by (symmetry; do 2 case_bool_decide; naive_solver).
  unfold accept_transfer, bind at 1, gets. rewrite <- known_gateway_iff.
  destruct (known_gateway request c) eqn:Hk; cbn [negb]; intros Hrun.
  - rewrite (try_ok _ _ c tt c) in Hrun by done.
    destruct (settle_run _ _ _ _ _ _ Hrun) as [(-> & b & a & n & ? & ? & ?)|[Ho ->]]; [left|right].
    { split; [done|]. split; [done|]. by exists b, a, n. }
    split; [done|]. split; [done|]. intros (_ & b & a & n & acc & Hb & Hq & Ht).
    destruct (settle_succeeds request body_to (fun beneficiary amount => AssetReceived beneficiary amount (post_source request))
      _ _ _ _ _ Hb Hq Ht) as (c' & Hrun' & _). congruence.
  - right. unfold try_bind, bind, ensure_not, ret in Hrun. injection Hrun as <- <-.
    split; [done|]. split; [done|]. by intros [? _].
Qed.

(** ** Teleporting *)

(** The chain once the assets of [who] are in custody. *)
Definition locked (a : AssetId) (who : bytes) (n : Z) c c' : Prop :=
  exists acc, transfer_of true a who pallet_account n (gw_accounts (gateway c)) = Ok acc /\
    c' = upd_bank (set_gateway (on_accounts (fun _ => acc) (gateway c))) c.

(** The request a teleport dispatches. *)
Definition teleport_body (params : TeleportParams AssetId) (who : bytes) (id : H256) (amount : Z) : Body :=
  mkBody amount id false who (tp_recepient params).
Definition teleport_post (params : TeleportParams AssetId) (body : Body) : DispatchPost :=
  mkDispatchPost (tp_destination params) token_gateway_id (tp_token_gateway params)
    (tp_timeout params) (Byte.x00 :: abi_encode_body body).

Lemma teleport_run who params c c' :
  teleport (OriginSigned who) params c = (Some (Ok tt), c') ->
  exists id erc amount h c1 c2,
    SupportedAssets (gateway c) !! tp_asset_id params = Some id /\
    locked (tp_asset_id params) who (tp_amount params) c c1 /\
    ErcDecimals (gateway c) !! tp_asset_id params = Some erc /\
    convert_to_erc20 (tp_amount params) erc (local_decimals (tp_asset_id params) c1) = Some amount /\
    dispatch_request (DispatchPostRequest (teleport_post params (teleport_body params who id amount)))
      (mkFeeMetadata who (tp_relayer_fee params)) c1 = (Some (Ok h), c2) /\
    gateway_event (AssetTeleported who (tp_recepient params) (tp_amount params)
      (tp_destination params) h) c2 = (Some tt, c').
Proof.
  intros Hrun. unfold teleport in Hrun. apply transactional_ok in Hrun. step_ret Hrun w Hw. injection Hw as <-.
  step_gets Hrun idv Hid. apply ok_or_ok in Hid.
  apply try_ok_inv in Hrun as ([] & c1 & Hl & Hrun).
  apply on_ledger_run in Hl as [(_ & acc & Hacc & Hc1)|(? & ? & _)]; [|done].
  bind_gets Hrun. step_gets Hrun erc Herc. apply ok_or_ok in Herc.
  apply bind_inv in Hrun as (amount & c2 & Ham & Hrun). apply or_panic_inv in Ham as [Ham ->].
  apply bind_inv in Hrun as (d & c3 & Hd & Hrun). step_ret Hrun h Hh. apply map_err_ok in Hh as ->.
  apply bind_inv in Hrun as ([] & c4 & He & Hrun). apply ret_inv in Hrun as [_ <-].
  exists idv, erc, amount, h, c1, c3. split; [done|]. split; [by exists acc|].
  split; [by subst c1|]. done.
Qed.

Section lawful.
Context `{!FungiblesLaws AssetId Acc}.

(** What [who] holds of an asset. *)
Definition holding (a : AssetId) (who : bytes) (acc : Acc) : Z :=
  if bool_decide (a = NativeAssetId) then balance who acc else asset_balance a who acc.

(** What a transfer adds to and takes from the holdings. *)
Lemma transfer_of_moves keep a x y n acc acc' :
  x <> y -> transfer_of keep a x y n acc = Ok acc' ->
  holding a y acc' = holding a y acc + n /\ holding a x acc' <= holding a x acc - n /\
  (keep = true \/ a <> NativeAssetId -> holding a x acc' = holding a x acc - n) /\
  (forall z, z <> x -> z <> y -> holding a z acc' = holding a z acc).
Proof.
  intros Hne. unfold transfer_of, holding. case_bool_decide as Ha.
  - intros Ht. destruct (native_moves _ _ _ _ _ _ Hne Ht) as (H1' & H2' & H3').
    split; [done|]. split; [destruct H2' as [->|(_ & -> & ?)]; lia|]. split; [|done].
    intros [->|?]; [|done]. by destruct H2' as [->|(? & _)].
  - intros Ht. destruct (asset_moves _ _ _ _ _ _ Hne Ht) as (H1' & H2' & H3').
    split; [done|]. split; [lia|]. by split.
Qed.

(** The relayer fee of a dispatch, seen by the accounts. *)
Lemma dispatch_accounts d fee c h c' :
  pallet_inv c -> dispatch_request d fee c = (Some (Ok h), c') ->
  exists acc, gateway c' = on_accounts (fun _ => acc) (gateway c) /\
    (acc = gw_accounts (gateway c) \/
     transfer (fm_payer fee) relayer_fee_account (fm_fee fee) (gw_accounts (gateway c)) = Ok acc).
Proof.
  intros Hc Hd. destruct (dispatch_request_run _ _ _ _ _ Hc Hd) as (b & Hb & [_ _ (l & t & _ & ->)]).
  unfold fee_collected in Hb. unfold gateway. cbn [bank upd_storage upd_bank upd_tree].
  destruct (fm_fee fee =? 0).
  - subst b. exists (gw_accounts (accounts (bank c))). split; [by destruct (accounts (bank c))|by left].
  - cbn [transfer apps_currency gateway_currency result_map] in Hb.
    destruct (transfer _ _ _ (gw_accounts (accounts (bank c)))) as [acc|] eqn:Et; [|done].
    injection Hb as <-. exists acc. split; [done|by right].
Qed.

(** Neither does it touch the holdings of a third party. *)
Lemma fee_keeps_holding payer n a x (acc acc' : Acc) :
  payer <> relayer_fee_account -> x <> payer -> x <> relayer_fee_account ->
  acc' = acc \/ transfer payer relayer_fee_account n acc = Ok acc' ->
  holding a x acc' = holding a x acc.
Proof.
  intros Hp Hx Hr [->|Ht]; [done|]. unfold holding. case_bool_decide.
  - by apply transfer_moves in Ht as (_ & _ & ->).
  - by rewrite (fee_keeps_assets _ _ _ _ _ Ht).
Qed.

Lemma locked_decimals a who n c c1 i : locked a who n c c1 -> local_decimals i c1 = local_decimals i c.
Proof.
  intros (acc & Hacc & ->). unfold local_decimals. case_bool_decide; [done|].
  unfold transfer_of in Hacc. cbn [gateway bank upd_bank accounts set_gateway on_accounts gw_accounts].
  case_bool_decide; [by eapply native_keeps_decimals in Hacc|by eapply asset_keeps_decimals in Hacc].
Qed.

(** a teleport locks exactly what it promises elsewhere. It succeeds only for a signed
    origin and a registered asset with known decimals; then the amount moves from the signer
    to the account of the pallet, a POST request from the gateway is committed, with the
    chosen destination, address, timeout and fee, whose body names the asset, the signer, the
    recipient and the same amount in the decimals of the counterpart; the event is deposited,
    and the registrations stay. *)
Theorem teleport_functional origin params c c' :
  pallet_inv c -> teleport origin params c = (Some (Ok tt), c') ->
  exists who id erc amount h acc, origin = OriginSigned who /\
    SupportedAssets (gateway c) !! tp_asset_id params = Some id /\
    ErcDecimals (gateway c) !! tp_asset_id params = Some erc /\
    convert_to_erc20 (tp_amount params) erc (local_decimals (tp_asset_id params) c) = Some amount /\
    hash_request (requested (DispatchPostRequest
      (teleport_post params (teleport_body params who id amount))) (Nonce (storage c)) (now c)) = Some h /\
    (exists leaf, pallet_abs c' = upd_msgs (fun m => set_req_commitments
       <[h := encode (mkRequestMetadata leaf (mkFeeMetadata who (tp_relayer_fee params)) false)]>
       (set_nonce (fun n => wrap64 (n + 1)) m)) (pallet_abs c)) /\
    gateway c' = mkGateway acc (SupportedAssets (gateway c)) (LocalAssets (gateway c))
      (ErcDecimals (gateway c)) (TokenGatewayAddresses (gateway c)) (gw_events (gateway c) ++
        [AssetTeleported who (tp_recepient params) (tp_amount params) (tp_destination params) h]) /\
    (who <> pallet_account -> who <> relayer_fee_account -> pallet_account <> relayer_fee_account ->
     holding (tp_asset_id params) pallet_account acc
     = holding (tp_asset_id params) pallet_account (gw_accounts (gateway c)) + tp_amount params).
Proof.
  intros Hc Hrun. destruct origin as [|who|]; [by discriminate Hrun| |by discriminate Hrun].
  apply teleport_run in Hrun as (idv & erc & amount & h & c1 & c2 & Hid & Hl & Herc & Ham & Hd & He).
  pose proof (locked_decimals _ _ _ _ _ (tp_asset_id params) Hl) as Hdec. rewrite Hdec in Ham.
  destruct Hl as (acc1 & Hacc1 & Hc1).
  assert (Hi : pallet_inv c1) by (by rewrite Hc1).
  destruct (dispatch_request_abs _ _ _ _ _ Hi Hd) as (Hi2 & leaf & Ha).
  destruct (dispatch_request_run _ _ _ _ _ Hi Hd) as (b & _ & [Hh _ _]).
  destruct (dispatch_accounts _ _ _ _ _ Hi Hd) as (acc & Hg & Hacc).
  unfold gateway_event, modify_gateway, modify_app, modify in He. injection He as <-.
  exists who, idv, erc, amount, h, acc. split; [done|]. split; [done|]. split; [done|]. split; [done|].
  split; [by rewrite Hc1 in Hh|]. split; [exists leaf; by rewrite Hc1 in Ha|].
  split; [by unfold gateway in *; cbn; rewrite Hg, Hc1|].
  intros N1 N2 N3. rewrite Hc1 in Hacc. cbn in Hacc.
  rewrite (fee_keeps_holding who (tp_relayer_fee params) _ _ acc1 acc) by done.
  by apply (transfer_of_moves _ _ _ _ _ _ _ N1 Hacc1).
Qed.

(** a teleport that times out is undone. The request a teleport dispatched times out on
    any later state of the chain in which the asset is still registered under the same
    identifier and decimals: the whole amount, no unit of it lost to the conversion, leaves
    the custody account for the account that had sent it, as soon as the custody account can
    pay. *)
Theorem teleport_refunded `{!BodyAbiLaws} who params id erc c c1 :
  pallet_inv c -> teleport (OriginSigned who) params c = (Some (Ok tt), c1) ->
  let a := tp_asset_id params in
  let n := tp_amount params in
  SupportedAssets (gateway c) !! a = Some id -> ErcDecimals (gateway c) !! a = Some erc ->
  0 <= n <= u128_max -> 0 <= erc <= 255 -> 0 <= local_decimals a c <= 255 -> erc - local_decimals a c <= 38 ->
  length id = 32%nat -> length who = 32%nat -> length (tp_recepient params) = 32%nat ->
  exists request h, hash_request (RequestPost request) = Some h /\
    RequestCommitments.get h (st_child (storage c1)) <> None /\
    forall c2 acc,
      LocalAssets (gateway c2) !! id = Some a -> ErcDecimals (gateway c2) !! a = Some erc ->
      local_decimals a c2 = local_decimals a c ->
      transfer_of false a pallet_account who n (gw_accounts (gateway c2)) = Ok acc ->
      exists c3, on_timeout gateway_module (TimeoutRequest (RequestPost request)) c2 = (Some (Ok tt), c3) /\
        settled a who n (AssetRefunded who n (tp_destination params)) c2 c3.
Proof.
  intros Hc Hrun. cbv zeta. intros Hid Herc Hn He Hdc Hed L1 L2 L3.
  apply teleport_run in Hrun as (id' & erc' & amount & h & c1' & c2' & Hid' & Hl & Herc' & Ham & Hd & Hev).
  rewrite Hid in Hid'. rewrite Herc in Herc'. injection Hid' as <-. injection Herc' as <-.
  rewrite (locked_decimals _ _ _ _ _ (tp_asset_id params) Hl) in Ham.
  destruct (erc20_roundtrip (tp_amount params) erc (local_decimals (tp_asset_id params) c)) as (w & Hw & Hback); [done..|].
  rewrite Hw in Ham. injection Ham as ->.
  assert (Hi : pallet_inv c1') by (by destruct Hl as (? & _ & ->)).
  destruct (dispatch_request_run _ _ _ _ _ Hi Hd) as (b & _ & [Hh _ (leaf & t & _ & Hc2)]).
  eexists. exists h. split; [exact Hh|]. split.
  { unfold gateway_event, modify_gateway, modify_app, modify in Hev. injection Hev as <-. rewrite Hc2.
    cbn [upd_bank upd_storage upd_tree storage st_child on_child]. unfold RequestCommitments.get, RequestCommitments.insert.
    by rewrite child_get_put. }
  intros c2 acc B1 B2 B3 Ht. cbn [on_timeout gateway_module gateway_on_timeout requested].
  destruct Hn as [Hn0 Hn1].
  rewrite (to_erc20_exact (tp_amount params) erc (local_decimals (tp_asset_id params) c)) in Hw by done. injection Hw as <-.
  set (body := teleport_body params who id (tp_amount params * _)).
  apply (settle_succeeds _ body_from (fun b n0 => AssetRefunded b n0 _) c2 body (tp_asset_id params) (tp_amount params) acc); [| |done].
  - unfold request_body. cbn [post_body body_tail mbind option_bind dp_body teleport_post].
    apply abi_decode_encode_body. split_and!; [..|done|done|done]; cbn [body_amount body teleport_body].
    + apply Z.mul_nonneg_nonneg; [done|]. apply Z.pow_nonneg. lia.
    + pose proof (to_erc20_exact (tp_amount params) erc (local_decimals (tp_asset_id params) c) (conj Hn0 Hn1) He Hdc Hed) as E.
      unfold convert_to_erc20 in E. rewrite pow10_exact in E by (by apply scale_range).
      destruct (Z.leb_spec (tp_amount params * 10 ^ saturating_sub_u8 erc (local_decimals (tp_asset_id params) c)) u256_max); [done|discriminate].
  - unfold quote. cbn [body_asset_id body_amount body teleport_body].
    rewrite B1. cbn. rewrite B2. cbn. rewrite B3, Hback. done.
Qed.
End lawful.

(** ** Deregistration *)

(** The storage without an asset. *)
Definition deregistered (g : Gateway AssetId Acc) (id : H256) : Gateway AssetId Acc :=
  match LocalAssets g !! id with
  | None => g
  | Some a => on_ErcDecimals (delete a) (on_LocalAssets (delete id) (on_SupportedAssets (delete a) g))
  end.

Lemma deregister_run ids c :
  exists l, map_m deregister_asset ids c
    = (Some l, upd_bank (set_gateway (foldl deregistered (gateway c) ids)) c).
Proof.
  revert c; induction ids as [|x ids IH]; intros c; cbn [map_m foldl].
  - exists []. unfold ret. destruct c as [s t b tr e l]; destruct b. done.
  - assert (Hx : exists u, deregister_asset x c
        = (Some u, upd_bank (set_gateway (deregistered (gateway c) x)) c)).
    { unfold deregister_asset, deregistered, bind, gets.
      destruct (LocalAssets (gateway c) !! x); exists tt; [done|].
      unfold ret. destruct c as [s t b tr e l]; destruct b. done. }
    destruct Hx as [u Hx].
    destruct (IH (upd_bank (set_gateway (deregistered (gateway c) x)) c)) as [l Hl].
    exists (u :: l). rewrite (bind_some _ _ _ _ _ Hx), (bind_some _ _ _ _ _ Hl). done.
Qed.

Lemma deregistered_gone ids g :
  let g' := foldl deregistered g ids in
  gw_accounts g' = gw_accounts g /\ TokenGatewayAddresses g' = TokenGatewayAddresses g /\
  forall id, LocalAssets g' !! id = if decide (id ∈ ids) then None else LocalAssets g !! id.
Proof.
  revert g; induction ids as [|x ids IH]; intros g; cbn [foldl]; [done|].
  destruct (IH (deregistered g x)) as (I1 & I2 & I3). cbv zeta.
  rewrite I1, I2. unfold deregistered in *. destruct (LocalAssets g !! x) eqn:Ex.
  - split; [done|]. split; [done|]. intros i. rewrite I3. cbn [LocalAssets on_ErcDecimals on_LocalAssets].
    rewrite lookup_delete. repeat case_decide; set_solver.
  - split; [done|]. split; [done|]. intros i. rewrite I3. repeat case_decide; set_solver.
Qed.

(** a deregistration takes effect and is reported as a failure. When the governor on
    hyperbridge asks for assets to be deregistered, their registrations go, and then the
    request falls through to the check that its sender is a gateway, which the governor is
    not: the callback returns an error, so that the request counts as undelivered and may be
    delivered again, also after its assets have been registered anew. *)
Theorem deregistration_reports_failure request meta c :
  post_from request = token_governor_id -> Some (post_source request) = Coprocessor ->
  decode (A := AssetMetadata) (post_body request) = None ->
  decode (A := DeregisterAssets) (post_body request) = Some meta ->
  TokenGatewayAddresses (gateway c) !! post_source request <> Some token_governor_id ->
  token_gateway_id <> token_governor_id ->
  exists e c', on_accept gateway_module request c = (Some (Err e), c') /\
    gw_accounts (gateway c') = gw_accounts (gateway c) /\
    forall id, LocalAssets (gateway c') !! id
      = if decide (id ∈ da_asset_ids meta) then None else LocalAssets (gateway c) !! id.
Proof.
  intros Hf Hs Hm Hd Ha Hne. cbn [on_accept gateway_module]. unfold gateway_on_accept.
  rewrite Hf, (bool_decide_eq_true_2 _ Hs), Hm, Hd, bool_decide_eq_true_2 by done. cbn [andb].
  destruct (deregister_run (da_asset_ids meta) c) as [l Hl]. rewrite (bind_some _ _ _ _ _ Hl).
  destruct (deregistered_gone (da_asset_ids meta) (gateway c)) as (D1 & D2 & D3).
  set (c1 := upd_bank (set_gateway (foldl deregistered (gateway c) (da_asset_ids meta))) c).
  assert (Hk : known_gateway request c1 = false).
  { unfold known_gateway. change (gateway c1) with (foldl deregistered (gateway c) (da_asset_ids meta)).
    rewrite D2, Hf. apply orb_false_iff. split; apply bool_decide_eq_false; [|by intros E].
    destruct (TokenGatewayAddresses (gateway c) !! post_source request) as [x|]; cbn; [congruence|done]. }
  eexists _, c1. split; [|by split].
  unfold accept_transfer, bind at 1, gets. rewrite Hk. cbn [negb]. reflexivity.
Qed.
End properties.
