(* ===== verification/GatewayCustody.v ===== *)
(** * The token gateway: registration and custody

    What a registration writes, and the balance of the account of the pallet over every
    sequence of calls, requests and timeouts. *)

From S2P Require Import Prelude StateMachine Router Messaging Host Handlers HostSpec Frame ChildTrie PalletTypes PalletHost PalletRefines Pallet PalletFrames PalletProps Apps Hyperbridge TokenGateway TokenGatewayProps.

Section registration.
Context `{HK : Keccak256} `{HC : Codecs, !HeightKeys, !HeightSort, !ErrorText, !ChildRoot} `{!Codec Leaf}.
Context `{!Codec AssetMetadata, !Codec DeregisterAssets, !Codec RemoteERC6160AssetRegistration, !BodyAbi}.
Context {AssetId Acc Tree : Type} `{HA : Countable AssetId}.
Context `{!Currency Acc, !Fungibles AssetId Acc, !GatewayConfig AssetId, !HyperbridgeEnv}.
Context `{!Mmr Tree, !Config (Apps (Gateway AssetId Acc)) Tree}.

Abbreviation St := (Chain (Apps (Gateway AssetId Acc)) Tree).
Implicit Types c : St.

(** ** Registration *)

(** The fee of hyperbridge, seen by the accounts. *)
Lemma charge_registration_run who c u c' :
  charge_registration who c = (Some (Ok u), c') ->
  let fee := shp_asset_registration_fee (v1_params (hb_HostParams (bank c))) in
  exists acc, c' = upd_bank (set_gateway (on_accounts (fun _ => acc) (gateway c))) c /\
    (if fee =? 0 then acc = gw_accounts (gateway c)
     else transfer who hyperbridge_account fee (gw_accounts (gateway c)) = Ok acc).
Proof.
  unfold charge_registration. intros Hrun. bind_gets Hrun. unfold app_read in Hrun. cbv zeta in *.
  destruct (_ =? 0); cbn [negb] in Hrun.
  - apply ret_inv in Hrun as [_ <-]. exists (gw_accounts (gateway c)). split; [|done].
    by destruct c as [s t [[] ? ? ? ? ? ? ? ?] tr e l].
  - apply bind_inv in Hrun as (x & c1 & Ht & Hr). apply ret_inv in Hr as [Hx <-].
    unfold currency_transfer in Ht. cbn [transfer apps_currency gateway_currency result_map] in Ht.
    unfold gateway. destruct (transfer _ _ _ (gw_accounts (accounts (bank c)))) as [acc|er] eqn:Et;
      injection Ht as <- <-; [|discriminate]. by exists acc.
Qed.

Lemma dispatch_to_governor_run who msg c h c' :
  dispatch_to_governor who msg c = (Some (Ok h), c') ->
  exists dest, Coprocessor = Some dest /\
    dispatch_request (DispatchPostRequest (mkDispatchPost dest token_gateway_id token_governor_id 0 (encode msg)))
      (mkFeeMetadata who 0) c = (Some (Ok h), c').
Proof.
  unfold dispatch_to_governor. intros Hrun. step_ret Hrun dest Hdest. apply ok_or_ok in Hdest.
  apply bind_inv in Hrun as (d & c1 & Hd & Hrun). step_ret Hrun k Hk. apply map_err_ok in Hk as ->.
  apply ret_inv in Hrun as [E <-]. injection E as ->. by exists dest.
Qed.

(** a registration is recorded whoever asks for it. When a signed account registers a
    local asset under a symbol and the fee is paid, the identifier derived from the symbol is
    bound to that local asset and the asset to the identifier, with 18 decimals, and a request
    to create the asset is committed for the governor on hyperbridge. Nothing depends on the
    rights of the account or on what was registered before: an asset bound to the same
    identifier earlier keeps teleporting under it, but is no longer what comes back. *)
Theorem registration_functional origin asset c c' :
  pallet_inv c -> create_erc6160_asset origin asset c = (Some (Ok tt), c') ->
  let id := keccak256 (gr_symbol (ar_reg asset)) in
  let a := ar_local_id asset in
  exists who dest h acc, origin = OriginSigned who /\ Coprocessor = Some dest /\
    hash_request (requested (DispatchPostRequest (mkDispatchPost dest token_gateway_id
      token_governor_id 0 (encode (CreateAsset (ar_reg asset))))) (Nonce (storage c)) (now c)) = Some h /\
    (exists leaf, pallet_abs c' = upd_msgs (fun m => set_req_commitments
       <[h := encode (mkRequestMetadata leaf (mkFeeMetadata who 0) false)]>
       (set_nonce (fun n => wrap64 (n + 1)) m)) (pallet_abs c)) /\
    gateway c' = mkGateway acc (<[a := id]> (SupportedAssets (gateway c)))
      (<[id := a]> (LocalAssets (gateway c))) (<[a := 18]> (ErcDecimals (gateway c)))
      (TokenGatewayAddresses (gateway c)) (gw_events (gateway c) ++ [ERC6160AssetRegistrationDispatched h]) /\
    (let fee := shp_asset_registration_fee (v1_params (hb_HostParams (bank c))) in
     if fee =? 0 then acc = gw_accounts (gateway c)
     else transfer who hyperbridge_account fee (gw_accounts (gateway c)) = Ok acc) /\
    (forall b, b <> a -> SupportedAssets (gateway c) !! b = Some id ->
       SupportedAssets (gateway c') !! b = Some id /\ LocalAssets (gateway c') !! id = Some a).
Proof.
  intros Hc Hrun. cbv zeta. unfold create_erc6160_asset in Hrun. apply transactional_ok in Hrun.
  step_ret Hrun who Hw. destruct origin as [|w|]; try discriminate. injection Hw as ->.
  apply try_ok_inv in Hrun as ([] & c1 & Hch & Hrun). apply charge_registration_run in Hch as (acc & Hc1 & Hfee).
  apply bind_inv in Hrun as ([] & c2 & E2 & Hrun). apply bind_inv in Hrun as ([] & c3 & E3 & Hrun).
  apply bind_inv in Hrun as ([] & c4 & E4 & Hrun).
  unfold modify_gateway, modify_app, modify in E2, E3, E4.
  injection E2 as <-. injection E3 as <-. injection E4 as <-.
  apply try_ok_inv in Hrun as (h & c5 & Hd & Hrun). apply dispatch_to_governor_run in Hd as (dest & Hdest & Hd).
  apply bind_inv in Hrun as ([] & c6 & E6 & Hrun). apply ret_inv in Hrun as [_ <-].
  unfold gateway_event, modify_gateway, modify_app, modify in E6. injection E6 as <-.
  match type of Hd with dispatch_request _ _ ?x = _ => assert (Hi : pallet_inv x) by (by rewrite Hc1) end.
  destruct (dispatch_request_abs _ _ _ _ _ Hi Hd) as (_ & leaf & Ha).
  destruct (dispatch_request_run _ _ _ _ _ Hi Hd) as (b & Hb & [Hh _ (l & t & _ & Hc5)]).
  unfold fee_collected in Hb. cbn in Hb. subst b.
  assert (Hg : gateway (upd_bank (fun k => set_gateway (mkGateway (gw_accounts (accounts k)) (SupportedAssets (accounts k))
      (LocalAssets (accounts k)) (ErcDecimals (accounts k)) (TokenGatewayAddresses (accounts k))
      (gw_events (accounts k) ++ [ERC6160AssetRegistrationDispatched h])) k) c5)
    = mkGateway acc (<[ar_local_id asset := keccak256 (gr_symbol (ar_reg asset))]> (SupportedAssets (gateway c)))
      (<[keccak256 (gr_symbol (ar_reg asset)) := ar_local_id asset]> (LocalAssets (gateway c)))
      (<[ar_local_id asset := 18]> (ErcDecimals (gateway c)))
      (TokenGatewayAddresses (gateway c)) (gw_events (gateway c) ++ [ERC6160AssetRegistrationDispatched h])).
  { rewrite Hc5, Hc1. done. }
  exists who, dest, h, acc. split; [done|]. split; [done|]. split; [by rewrite Hc1 in Hh|].
  split; [exists leaf; by rewrite Hc1 in Ha|]. split; [exact Hg|]. split; [exact Hfee|].
  intros b Hb Hsup. rewrite Hg. cbn [SupportedAssets LocalAssets].
  by rewrite lookup_insert_ne, lookup_insert_eq by done.
Qed.
End registration.

(** ** Custody *)

Section custody.
Context `{HK : Keccak256} `{HC : Codecs, !HeightKeys, !HeightSort, !ErrorText, !ChildRoot} `{!Codec Leaf}.
Context `{!Codec AssetMetadata, !Codec DeregisterAssets, !Codec RemoteERC6160AssetRegistration, !BodyAbi}.
Context {AssetId Acc Tree : Type} `{HA : Countable AssetId}.
Context `{!Currency Acc, !Fungibles AssetId Acc, !GatewayConfig AssetId, !HyperbridgeEnv}.
Context `{!Mmr Tree, !Config (Apps (Gateway AssetId Acc)) Tree} `{!FungiblesLaws AssetId Acc}.

Abbreviation St := (Chain (Apps (Gateway AssetId Acc)) Tree).
Implicit Types c : St.

(** What the account of the pallet holds of an asset. *)
Definition custody (a : AssetId) c : Z := asset_balance a pallet_account (gw_accounts (gateway c)).

(** Every operation through which the pallet is reached. *)
Inductive GatewayOp : Type :=
| OpTeleport (origin : Origin) (params : TeleportParams AssetId)
| OpSetAddresses (origin : Origin) (addresses : list (StateMachine * bytes))
| OpCreate (origin : Origin) (asset : LocalRegistration AssetId)
| OpUpdate (origin : Origin) (asset : GatewayAssetUpdate)
| OpAccept (request : PostRequest)
| OpTimeout (timeout : Timeout).

(** The outcome of a run. *)
Definition succeeded {E A} (r : option (result E A) * St) : bool :=
  match r.1 with Some (Ok _) => true | _ => false end.

Definition op_step (op : GatewayOp) c : St :=
  match op with
  | OpTeleport o p => (teleport o p c).2
  | OpSetAddresses o l => (set_token_gateway_addresses o l c).2
  | OpCreate o a => (create_erc6160_asset o a c).2
  | OpUpdate o u => (update_erc6160_asset o u c).2
  | OpAccept r => (on_accept gateway_module r c).2
  | OpTimeout t => (on_timeout gateway_module t c).2
  end.

(** What a settled request takes out of custody: nothing when it pays the pallet itself. *)
Definition payout (a : AssetId) (who : Body -> bytes) (request : PostRequest) c : Z :=
  match request_body request with
  | None => 0
  | Some b =>
      match quote b c with
      | Some (x, n) => if bool_decide (x = a) && negb (bool_decide (who b = pallet_account)) then n else 0
      | None => 0
      end
  end.

(** Requests of the governor; those that carry metadata never move assets, and the others
    are read as transfers once they have taken effect. *)
Definition governs (request : PostRequest) : bool :=
  bool_decide (post_from request = token_governor_id) && bool_decide (Some (post_source request) = Coprocessor).
Definition carries_metadata (request : PostRequest) : bool :=
  governs request && bool_decide (is_Some (decode (A := AssetMetadata) (post_body request))).
Definition governed (request : PostRequest) c : St :=
  if governs request then
    match decode (A := DeregisterAssets) (post_body request) with
    | Some meta => upd_bank (set_gateway (foldl deregistered (gateway c) (da_asset_ids meta))) c
    | None => c
    end
  else c.

(** What an operation brings into custody. *)
Definition inflow (a : AssetId) (op : GatewayOp) c : Z :=
  match op with
  | OpTeleport (OriginSigned who) p =>
      if succeeded (teleport (OriginSigned who) p c) && bool_decide (tp_asset_id p = a) then tp_amount p else 0
  | OpAccept r => if succeeded (on_accept gateway_module r c) && negb (carries_metadata r)
                  then - payout a body_to r (governed r c) else 0
  | OpTimeout (TimeoutRequest (RequestPost r)) =>
      if succeeded (on_timeout gateway_module (TimeoutRequest (RequestPost r)) c)
      then - payout a body_from r c else 0
  | _ => 0
  end.

Fixpoint ops_run (ops : list GatewayOp) c : St :=
  match ops with [] => c | op :: r => ops_run r (op_step op c) end.
Fixpoint ops_inflow (a : AssetId) (ops : list GatewayOp) c : Z :=
  match ops with [] => 0 | op :: r => inflow a op c + ops_inflow a r (op_step op c) end.

(** ** Operations that leave custody alone *)

Definition same_custody (a : AssetId) : relation St := fun c c' => custody a c' = custody a c.

#[local] Instance same_custody_preorder a : PreOrder (same_custody a).
Proof. split; [done|]. intros x y z E1 E2. unfold same_custody in *. congruence. Qed.

Lemma modify_gateway_custody a f :
  (forall g, gw_accounts (f g) = gw_accounts g) -> moves (same_custody a) (modify_gateway f : M St unit).
Proof.
  intros Hf. unfold modify_gateway, modify_app. moves_step. unfold same_custody, custody, gateway.
  cbn. by rewrite Hf.
Qed.

Lemma currency_custody a x y n : moves (same_custody a) (currency_transfer x y n : M St _).
Proof.
  intros c o c'. unfold currency_transfer. cbn [transfer apps_currency gateway_currency result_map].
  destruct (transfer x y n (gw_accounts (accounts (bank c)))) as [acc|] eqn:Et; intros [= _ <-]; [|done].
  unfold same_custody, custody, gateway. cbn. by rewrite (fee_keeps_assets _ _ _ _ _ Et).
Qed.

Lemma write_custody a f : moves (same_custody a) (modify_storage f : M St unit).
Proof. unfold modify_storage. moves_solve. done. Qed.

Lemma push_leaf_custody a l : moves (same_custody a) (push_leaf l : M St _).
Proof. intros c o c'. unfold push_leaf. destruct (mmr_push l (tree c)) as [[x|] t]; by intros [= _ <-]. Qed.

Lemma deposit_custody a e : moves (same_custody a) (deposit_event e : M St unit).
Proof. unfold deposit_event. moves_solve. done. Qed.

Lemma event_custody a e : moves (same_custody a) (gateway_event e : M St unit).
Proof. apply modify_gateway_custody. done. Qed.

#[local] Hint Resolve modify_gateway_custody currency_custody write_custody push_leaf_custody
  deposit_custody event_custody : moves.

Lemma dispatch_custody a d fee : moves (same_custody a) (dispatch_request d fee : M St _).
Proof.
  unfold dispatch_request, collect_fee, make_request, pallet_dispatch_request. moves_solve.
  all: intros c o c' [= _ <-]; done.
Qed.
#[local] Hint Resolve dispatch_custody : moves.

Lemma on_ledger_custody a op :
  (forall k k', op k = Ok k' -> asset_balance a pallet_account k' = asset_balance a pallet_account k) ->
  moves (same_custody a) (on_ledger op : M St _).
Proof.
  intros Hop c o c' [(_ & acc & E & ->)|(? & _ & _ & ->)]%on_ledger_run; [|done].
  unfold same_custody, custody, gateway. cbn. by apply Hop.
Qed.

Lemma set_addresses_custody a o l : moves (same_custody a) (set_token_gateway_addresses o l : M St _).
Proof. unfold set_token_gateway_addresses. moves_solve. Qed.

Lemma create_custody a o x : moves (same_custody a) (create_erc6160_asset o x : M St _).
Proof.
  unfold create_erc6160_asset, charge_registration, dispatch_to_governor. moves_solve.
Qed.

Lemma update_custody a o x : moves (same_custody a) (update_erc6160_asset o x : M St _).
Proof. unfold update_erc6160_asset, charge_registration, dispatch_to_governor. moves_solve. Qed.

Lemma metadata_custody a m : moves (same_custody a) (accept_metadata m : M St _).
Proof.
  unfold accept_metadata. moves_solve.
  all: apply on_ledger_custody; intros k k' E;
    first [by apply (metadata_keeps_assets _ _ _ _ _ _ _ E)|by apply (create_keeps_assets _ _ _ _ _ _ E)].
Qed.

Lemma deregister_custody a ids : moves (same_custody a) (map_m deregister_asset ids : M St _).
Proof. unfold deregister_asset. moves_solve. Qed.

(** ** Operations that move assets *)

Lemma accept_governed request c :
  carries_metadata request = false ->
  gateway_on_accept request c = accept_transfer request (governed request c).
Proof.
  unfold carries_metadata, governed. change (gateway_on_accept request) with
    (if governs request then
       match decode (A := AssetMetadata) (post_body request) with
       | Some metadata => accept_metadata metadata
       | None =>
           match decode (A := DeregisterAssets) (post_body request) with
           | Some meta => let* _ := map_m deregister_asset (da_asset_ids meta) in accept_transfer request
           | None => accept_transfer request
           end
       end
     else accept_transfer request : M St _).
  destruct (governs request); cbn [andb]; [|done].
  destruct (decode (A := AssetMetadata) (post_body request)); [intros Hn%bool_decide_eq_false; by destruct Hn|intros _].
  destruct (decode (A := DeregisterAssets) (post_body request)) as [meta|]; [|done].
  destruct (deregister_run (da_asset_ids meta) c) as [l Hl]. by rewrite (bind_some _ _ _ _ _ Hl).
Qed.

(** A settled transfer takes its payout, one that is not takes nothing. *)
Lemma settle_custody a request who ev c :
  a <> NativeAssetId ->
  custody a (settle request who ev c).2
  = custody a c + (if succeeded (settle request who ev c) then - payout a who request c else 0).
Proof.
  intros Ha. destruct (settle request who ev c) as [o c'] eqn:E.
  apply settle_run in E as [(-> & b & x & n & Hb & Hq & acc & Hacc & ->)|[Ho ->]].
  - unfold succeeded, payout. cbn [fst snd]. rewrite Hb, Hq. unfold custody, gateway. cbn.
    unfold transfer_of in Hacc. unfold gateway in Hacc. case_bool_decide as Hx.
    + rewrite (native_keeps_assets _ _ _ _ _ _ Hacc), bool_decide_eq_false_2 by congruence. cbn. lia.
    + case_bool_decide as Hxa; cbn [andb].
      * subst x. case_bool_decide as Hw; cbn [negb].
        -- rewrite Hw in Hacc. rewrite (asset_self _ _ _ _ _ Hacc). lia.
        -- apply asset_moves in Hacc as (_ & -> & _); [lia|done].
      * rewrite (asset_keeps_others _ _ _ _ _ _ _ Hxa Hacc). lia.
  - assert (succeeded (o, c) = false) as ->; [|cbn; lia].
    unfold succeeded. by destruct o as [[[]|]|].
Qed.

Lemma accept_custody a request c :
  a <> NativeAssetId ->
  custody a (op_step (OpAccept request) c) = custody a c + inflow a (OpAccept request) c.
Proof.
  intros Ha. cbn [op_step inflow on_accept gateway_module].
  destruct (carries_metadata request) eqn:Em; cbn [negb].
  - rewrite andb_false_r, Z.add_0_r. destruct (gateway_on_accept request c) as [o c'] eqn:E. cbn.
    unfold gateway_on_accept in E. unfold carries_metadata, governs in Em.
    apply andb_true_iff in Em as [Hg Hm]. rewrite Hg in E. destruct (decode (A := AssetMetadata) _) as [m|]; [|by apply bool_decide_eq_true in Hm as [? ?]].
    by apply (metadata_custody a) in E.
  - rewrite andb_true_r, (accept_governed _ _ Em).
    replace (custody a c) with (custody a (governed request c)).
    2: { unfold governed. destruct (governs request); [|done].
         destruct (decode (A := DeregisterAssets) _) as [meta|]; [|done]. unfold custody, gateway. cbn.
         by destruct (deregistered_gone (da_asset_ids meta) (accounts (bank c))) as (-> & _ & _). }
    unfold accept_transfer, bind, gets. destruct (known_gateway _ _); cbn [negb].
    + rewrite !(try_ok _ _ _ tt (governed request c)) by done. by apply settle_custody.
    + cbn. lia.
Qed.

Lemma teleport_custody a who p c :
  a <> NativeAssetId -> who <> pallet_account ->
  custody a (op_step (OpTeleport (OriginSigned who) p) c)
  = custody a c + inflow a (OpTeleport (OriginSigned who) p) c.
Proof.
  intros Ha Hw. cbn [op_step inflow]. destruct (teleport (OriginSigned who) p c) as [o c'] eqn:E.
  destruct (succeeded (o, c')) eqn:Es.
  - destruct o as [[[]|]|]; try discriminate.
    apply teleport_run in E as (? & ? & ? & ? & c1 & c2 & _ & (acc & Hacc & ->) & _ & _ & Hd & He).
    apply dispatch_custody with (a := a) in Hd. apply event_custody with (a := a) in He.
    unfold same_custody in Hd, He. cbn [snd]. rewrite He, Hd. unfold custody, gateway. cbn [andb].
    cbn [bank upd_bank accounts set_gateway on_accounts gw_accounts].
    unfold transfer_of, gateway in Hacc. case_bool_decide as Hx.
    + rewrite (native_keeps_assets _ _ _ _ _ _ Hacc), bool_decide_eq_false_2 by congruence. lia.
    + case_bool_decide as Hxa.
      * subst a. by apply asset_moves in Hacc as (-> & _).
      * rewrite (asset_keeps_others _ _ _ _ _ _ _ Hxa Hacc). lia.
  - cbn [andb]. unfold teleport in E. apply transactional_fails in E as ->; [cbn; lia|].
    intros x ->. by destruct x.
Qed.

(** The pallet signs nothing. *)
Definition foreign_signer (op : GatewayOp) : Prop :=
  match op with OpTeleport (OriginSigned who) _ => who <> pallet_account | _ => True end.

Lemma op_custody a op c :
  a <> NativeAssetId -> foreign_signer op -> custody a (op_step op c) = custody a c + inflow a op c.
Proof.
  assert (Hfree : forall A (m : M St A), moves (same_custody a) m -> custody a (m c).2 = custody a c + 0).
  { intros A m Hm. rewrite Z.add_0_r. exact (Hm c _ _ (surjective_pairing _)). }
  intros Ha Hs. destruct op as [[|who|] p|o l|o x|o u|r|[[g|r]|]].
  all: try (by apply teleport_custody); try (by apply accept_custody).
  all: try (by apply settle_custody).
  all: cbn [op_step inflow]; apply Hfree.
  - intros c1 o1 c1' [= _ <-]. done.
  - intros c1 o1 c1' [= _ <-]. done.
  - apply set_addresses_custody.
  - apply create_custody.
  - apply update_custody.
  - cbn. moves_solve.
  - cbn. moves_solve.
Qed.

(** C29: what the gateway holds is what it owes. Over any sequence of calls, requests and
    timeouts, succeeding or failing in any order, of which no teleport is signed by the account
    of the pallet itself, the account of the pallet holds of every
    asset but the native one exactly what it held at the start, plus what successful teleports
    brought in, minus what settled requests and refunds paid out: nothing else the gateway
    does, not registration, deregistration, metadata or fees, moves it. *)
Theorem custody_balanced a ops c :
  a <> NativeAssetId -> Forall foreign_signer ops ->
  custody a (ops_run ops c) = custody a c + ops_inflow a ops c.
Proof.
  intros Ha Hops. revert c; induction Hops as [|op ops Hop _ IH]; intros c; cbn [ops_run ops_inflow]; [lia|].
  rewrite IH, op_custody by done. lia.
Qed.
End custody.
