(* ===== verification/TokenDemo.v ===== *)
(** * A chain with the token gateway

    A concrete runtime with the token gateway: two kinds of assets in finite maps, codecs that
    evaluate, and the gateway behind the router. The theorems on the gateway are applied to it,
    and a run shows how a registration is taken over. *)

From S2P Require Import Prelude StateMachine Router Messaging Host Handlers HostSpec RefHost Frame ChildTrie PalletTypes PalletHost PalletRefines Pallet PalletFrames PalletProps PalletDemo Apps Hyperbridge DemoCodec TokenGateway TokenGatewayProps GatewayCustody.

Module TokenDemo.

(** ** Library code *)

(** The identity, but for the name of the gateway. *)
#[local] Instance keccak : Keccak256 := fun b =>
  if decide (b = lit "tokengty") then lit "************token-gateway-module" else b.

#[local] Existing Instances Demo.sort PalletDemo.codecs PalletDemo.leaf_codec PalletDemo.text PalletDemo.root.

Lemma pos_bytes_head p x r : PalletDemo.pos_bytes p = x :: r -> x = Byte.x00 \/ x = Byte.x01.
Proof. destruct p; intros [= <- _]; auto. Qed.

#[local] Instance height_keys : HeightKeys.
Proof.
  intros h h' E. unfold keccak256, keccak in E.
  assert (Hne : forall (x : StateMachineHeight) t b, encode x = b :: t -> b = Byte.x00 \/ b = Byte.x01)
    by (intros x t b Hb; exact (pos_bytes_head _ _ _ Hb)).
  case_decide as Hd; case_decide as Hd'.
  - apply (inj Some). by rewrite <- (decode_encode h), Hd, <- Hd', decode_encode.
  - symmetry in E. apply Hne in E. by destruct E.
  - apply Hne in E. by destruct E.
  - apply (inj Some). by rewrite <- (decode_encode h), E, decode_encode.
Defined.

#[local] Notation "a *c b" := (pair_codec a b) (at level 40, left associativity).
#[local] Instance bytes_codec : Codec bytes := string_codec.
Definition machine_codec : Codec StateMachine := PalletDemo.countable_codec.
Definition bool_codec : Codec bool := PalletDemo.countable_codec.

#[local] Instance metadata_codec : Codec AssetMetadata :=
  via_codec (string_codec *c string_codec *c z_codec *c option_codec z_codec)
    (fun m => (am_name m, am_symbol m, am_decimals m, am_minimum_balance m))
    (fun x => mkAssetMetadata x.1.1.1 x.1.1.2 x.1.2 x.2) ltac:(by intros []).
#[local] Instance deregister_codec : Codec DeregisterAssets :=
  via_codec (list_codec string_codec) da_asset_ids mkDeregisterAssets ltac:(by intros []).
Definition registration_codec : Codec GatewayAssetRegistration :=
  via_codec (string_codec *c string_codec *c list_codec machine_codec *c option_codec z_codec)
    (fun m => (gr_name m, gr_symbol m, gr_chains m, gr_minimum_balance m))
    (fun x => mkGatewayAssetRegistration x.1.1.1 x.1.1.2 x.1.2 x.2) ltac:(by intros []).
Definition update_codec : Codec GatewayAssetUpdate :=
  via_codec (string_codec *c list_codec machine_codec *c list_codec machine_codec *c list_codec (machine_codec *c string_codec))
    (fun u => (gu_asset_id u, gu_add_chains u, gu_remove_chains u, gu_new_admins u))
    (fun x => mkGatewayAssetUpdate x.1.1.1 x.1.1.2 x.1.2 x.2) ltac:(by intros []).
#[local] Instance remote_codec : Codec RemoteERC6160AssetRegistration :=
  via_codec (sum_codec registration_codec update_codec)
    (fun m => match m with CreateAsset a => inl a | UpdateAsset a => inr a end)
    (fun x => match x with inl a => CreateAsset a | inr a => UpdateAsset a end) ltac:(by intros []).

Definition body_codec : Codec Body :=
  via_codec (z_codec *c string_codec *c bool_codec *c string_codec *c string_codec)
    (fun b => (body_amount b, body_asset_id b, body_redeem b, body_from b, body_to b))
    (fun x => mkBody x.1.1.1.1 x.1.1.1.2 x.1.1.2 x.1.2 x.2) ltac:(by intros []).
#[local] Instance body_abi : BodyAbi := {| abi_encode_body := @encode _ body_codec; abi_decode_body := @decode _ body_codec |}.
#[local] Instance body_abi_laws : BodyAbiLaws.
Proof. intros b _. apply (@decode_encode _ body_codec). Qed.

(** ** Accounts *)

(** Moving units between the entries of a map. *)
Definition units {K} `{Countable K} (m : gmap K Z) (x : K) : Z := default 0 (m !! x).
Definition move_units {K} `{Countable K} (a b : K) (n : Z) (m : gmap K Z) : result bytes (gmap K Z) :=
  if units m a <? n then Err (lit "FundsUnavailable")
  else let m' := <[a := units m a - n]> m in Ok (<[b := units m' b + n]> m').

Lemma move_units_spec {K} `{Countable K} (a b : K) n m m' :
  move_units a b n m = Ok m' ->
  n <= units m a /\ forall x, units m' x = units m x + (if decide (x = b) then n else 0) - (if decide (x = a) then n else 0).
Proof.
  unfold move_units. destruct (Z.ltb_spec (units m a) n) as [|Hn]; [done|]. intros [= <-]. split; [done|].
  intros x. unfold units in *. repeat case_decide; subst;
    rewrite ?lookup_insert_eq, ?lookup_insert_ne, ?lookup_insert_eq by done; cbn; lia.
Qed.

Abbreviation Acc := (gmap bytes Z * gmap (Z * bytes) Z)%type.

#[local] Program Instance currency : Currency Acc := {|
  balance a k := units k.1 a;
  transfer a b n k := result_map (fun m => (m, k.2)) (move_units a b n k.1)
|}.
Next Obligation.
  intros a b n k k' Hne E. cbn in *. destruct (move_units a b n k.1) as [m|] eqn:Em; [|done]. injection E as <-.
  apply move_units_spec in Em as [_ Em]. cbn. rewrite !Em. split; [repeat case_decide; congruence || lia|].
  split; [repeat case_decide; congruence || lia|]. intros c H1' H2'. rewrite Em. repeat case_decide; congruence || lia.
Qed.

#[local] Instance fungibles : Fungibles Z Acc := {|
  native_transfer _ a b n k := result_map (fun m => (m, k.2)) (move_units a b n k.1);
  asset_balance i a k := units k.2 (i, a);
  asset_transfer i a b n k := result_map (fun m => (k.1, m)) (move_units (i, a) (i, b) n k.2);
  asset_decimals _ _ := 10;
  asset_create _ _ _ _ k := Ok k;
  asset_set_metadata _ _ _ _ _ k := Ok k;
  asset_admin _ _ := Some (lit "admin")
|}.

#[local] Ltac ledger E :=
  cbn in *; match type of E with context [move_units ?a ?b ?n ?m] =>
    destruct (move_units a b n m) as [?|] eqn:Em; [|done]; injection E as <-;
    apply move_units_spec in Em as [? Em]; cbn in *; intros; rewrite ?Em; split_and?; intros; rewrite ?Em;
    repeat case_decide; simplify_eq; try lia; try (exfalso; congruence) end.

#[local] Instance fungibles_laws : FungiblesLaws Z Acc.
Proof.
  split.
  - intros keep a b n k k' Hne E. ledger E; left; lia.
  - intros keep a n k k' E. ledger E.
  - intros keep a b n k k' E. cbn in *. destruct (move_units a b n k.1); [|done]. by injection E as <-.
  - intros i a b n k k' Hne E. ledger E.
  - intros i a n k k' E. ledger E.
  - intros i j a b n k k' Hne E. ledger E.
  - intros keep j a b n k k' E. done.
  - intros i j a b n k k' E. done.
  - intros a b n k k' E. cbn in *. destruct (move_units a b n k.1); [|done]. by injection E as <-.
  - intros i a s n k k' [= <-]. done.
  - intros i a nm sy d k k' [= <-]. done.
Qed.

#[local] Instance gateway_config : GatewayConfig Z := {|
  NativeAssetId := 0;
  NativeDecimals := 12;
  AssetAdmin := lit "admin";
  create_asset_id _ := Ok 99;
  account_of_pallet id := lit "modl" ++ id
|}.
#[local] Instance env : HyperbridgeEnv := {| hyperbridge_account := lit "revenue"; decode_error _ := lit "bad" |}.

(** ** The runtime *)

Definition here : StateMachine := Kusama 2000.
Definition hub : StateMachine := Polkadot 3367.
Abbreviation St := (Chain (Apps (Gateway Z Acc)) OffchainDb).

Definition base_config (router : IsmpRouter St) : Config (Apps (Gateway Z Acc)) OffchainDb := {|
  HostStateMachine := here;
  Coprocessor := Some hub;
  ConsensusClients := [];
  Router := router;
  AdminOrigin o := match o with OriginRoot => true | _ => false end;
  relayer_fee_account := lit "fees"
|}.
#[local] Instance config : Config (Apps (Gateway Z Acc)) OffchainDb :=
  base_config (fun _ => Ok (gateway_module (Config0 := base_config (fun id => Err (IsmpError (ModuleNotFound id)))))).

Definition alice : bytes := replicate 32 Byte.x61.
Definition bob : bytes := replicate 32 Byte.x62.
Definition mallory : bytes := replicate 32 Byte.x6d.
Definition usd_id : H256 := replicate 32 Byte.x55.
Definition vault : bytes := lit "modl" ++ lit "token-ga".

(** Asset 7 is registered under [usd_id]; asset 8 is worthless, and mallory has much of it. *)
Definition ledger0 : Acc := ({[ alice := 1000; mallory := 1000 ]},
  <[(8, mallory) := 1000000]> {[ (7, alice) := 500 ]}).
Definition gateway0 : Gateway Z Acc :=
  mkGateway ledger0 {[ 7 := usd_id ]} {[ usd_id := 7 ]} {[ 7 := 18 ]} {[ Evm 1 := lit "contract" ]} [].
Definition apps : Apps (Gateway Z Acc) := mkApps gateway0
  (V1 (mkSubstrateHostParams 2 ∅ 5)) ∅ ∅ ∅ ∅ None ∅ [].
Definition init : St := mkChain PalletDemo.empty (from_secs 1000) apps ∅ [] [].

Lemma token_init_ok : pallet_inv init.
Proof.
  split; try (intros h b; cbn; by rewrite lookup_empty).
  intros h. unfold child_get. cbn. by rewrite !lookup_empty.
Defined.

(** ** Teleporting *)

Definition params : TeleportParams Z := mkTeleportParams 7 (Evm 1) bob 300 60 (lit "contract") 10.
Definition teleported : St := (teleport (OriginSigned alice) params init).2.

Lemma teleport_runs : teleport (OriginSigned alice) params init = (Some (Ok tt), teleported).
Proof. apply (run_eq (teleport (OriginSigned alice) params) init). vm_compute. reflexivity. Defined.

Lemma teleport_functional_witness :
  exists acc h, gateway teleported = mkGateway acc {[ 7 := usd_id ]} {[ usd_id := 7 ]} {[ 7 := 18 ]}
      {[ Evm 1 := lit "contract" ]} [AssetTeleported alice bob 300 (Evm 1) h] /\
    holding 7 pallet_account acc = 300.
Proof.
  destruct (teleport_functional (OriginSigned alice) params init teleported token_init_ok teleport_runs)
    as (who & ? & erc & amount & h & acc & Hw & Hid & _ & _ & _ & _ & Hg & Hh).
  injection Hw as <-. exists acc, h. split; [exact Hg|].
  apply Hh; vm_compute; discriminate.
Defined.

Lemma teleport_refunded_witness :
  exists request c3, on_timeout gateway_module (TimeoutRequest (RequestPost request)) teleported
    = (Some (Ok tt), c3) /\ settled 7 alice 300 (AssetRefunded alice 300 (Evm 1)) teleported c3.
Proof.
  destruct (teleport_refunded alice params usd_id 18 init teleported token_init_ok teleport_runs)
    as (request & h & _ & _ & Hlater); [reflexivity|reflexivity|vm_compute; split; discriminate|lia|vm_compute; split; discriminate|
      vm_compute; discriminate|reflexivity|reflexivity|reflexivity|].
  destruct (transfer_of false 7 pallet_account alice 300 (gw_accounts (gateway teleported))) as [acc|] eqn:Ht.
  - exists request. apply (Hlater teleported acc); [vm_compute; reflexivity|vm_compute; reflexivity|reflexivity|exact Ht].
  - exfalso. assert (E : is_ok (transfer_of false 7 pallet_account alice 300 (gw_accounts (gateway teleported))) = true)
      by (vm_compute; reflexivity). rewrite Ht in E. discriminate.
Defined.

(** ** Receiving *)

(** 100 units come back from the contract on the EVM chain. *)
Definition inbound : PostRequest := mkPostRequest (Evm 1) here 0 (lit "contract") token_gateway_id 0
  (Byte.x00 :: abi_encode_body (mkBody (100 * 10 ^ 8) usd_id false alice bob)).
Definition received : St := (on_accept gateway_module inbound teleported).2.

Lemma gateway_releases_witness :
  exists b, request_body inbound = Some b /\
    settled 7 bob 100 (AssetReceived bob 100 (Evm 1)) teleported received.
Proof.
  destruct (gateway_releases inbound teleported (Some (Ok tt)) received)
    as [(_ & _ & b & a & n & Hb & Hq & Hs)|[Hno _]].
  - intros [E _]. revert E. vm_compute. discriminate.
  - apply (run_eq (on_accept gateway_module inbound) teleported). vm_compute. reflexivity.
  - exists b. split; [exact Hb|].
    assert (Eb : request_body inbound = Some (mkBody (100 * 10 ^ 8) usd_id false alice bob)) by (vm_compute; reflexivity).
    rewrite Eb in Hb. injection Hb as <-.
    assert (Eq : quote (mkBody (100 * 10 ^ 8) usd_id false alice bob) teleported = Some (7, 100)) by (vm_compute; reflexivity).
    rewrite Eq in Hq. injection Hq as <- <-. exact Hs.
  - exfalso. apply Hno. reflexivity.
Defined.

(** ** Deregistration *)

Definition deregistration : PostRequest := mkPostRequest hub here 0 token_governor_id token_gateway_id 0
  (encode (mkDeregisterAssets [usd_id])).

Lemma deregistration_reports_failure_witness :
  exists e c', on_accept gateway_module deregistration init = (Some (Err e), c') /\
    LocalAssets (gateway c') !! usd_id = None.
Proof.
  destruct (deregistration_reports_failure deregistration (mkDeregisterAssets [usd_id]) init)
    as (e & c' & Hrun & _ & Hgone).
  - reflexivity.
  - reflexivity.
  - vm_compute. reflexivity.
  - vm_compute. reflexivity.
  - vm_compute. discriminate.
  - vm_compute. discriminate.
  - exists e, c'. split; [exact Hrun|]. rewrite Hgone. rewrite decide_True; [reflexivity|left].
Defined.

(** ** Registration *)

(** Mallory registers asset 8 under the symbol of asset 7. *)
Definition takeover : LocalRegistration Z :=
  mkLocalRegistration 8 (mkGatewayAssetRegistration (lit "mine") usd_id [] None).
Definition taken_over : St := (create_erc6160_asset (OriginSigned mallory) takeover init).2.

Lemma takeover_runs :
  create_erc6160_asset (OriginSigned mallory) takeover init = (Some (Ok tt), taken_over).
Proof.
  apply (run_eq (create_erc6160_asset (OriginSigned mallory) takeover) init). vm_compute. reflexivity.
Defined.

Lemma registration_functional_witness :
  SupportedAssets (gateway taken_over) !! 7 = Some usd_id /\ LocalAssets (gateway taken_over) !! usd_id = Some 8.
Proof.
  destruct (registration_functional (OriginSigned mallory) takeover init taken_over token_init_ok takeover_runs)
    as (who & dest & h & acc & _ & _ & _ & _ & _ & _ & Hb).
  apply (Hb 7); [discriminate|reflexivity].
Defined.

(** a registered asset can be taken over by anyone. An account without any right to an asset
    registers a worthless one of its own under the same symbol. From then on a transfer of the
    genuine asset that comes back pays the worthless one, and the worthless one teleports under
    the identifier of the genuine one. *)
Theorem registration_taken_over :
  asset_admin (AssetId := Z) 7 ledger0 <> Some mallory /\
  quote (mkBody (100 * 10 ^ 8) usd_id false alice bob) init = Some (7, 100) /\
  quote (mkBody (100 * 10 ^ 8) usd_id false alice bob) taken_over = Some (8, 100) /\
  SupportedAssets (gateway taken_over) !! 8 = SupportedAssets (gateway taken_over) !! 7 /\
  (teleport (OriginSigned mallory) (mkTeleportParams 8 (Evm 1) mallory 1000000 60 (lit "contract") 0)
     taken_over).1 = Some (Ok tt).
Proof.
  split; [vm_compute; discriminate|]. split; [vm_compute; reflexivity|]. split; [vm_compute; reflexivity|].
  split; vm_compute; reflexivity.
Qed.

(** ** Custody *)

Definition ops : list (GatewayOp (AssetId := Z)) :=
  [OpTeleport (OriginSigned alice) params; OpAccept inbound; OpCreate (OriginSigned mallory) takeover;
   OpAccept deregistration].

Lemma custody_balanced_witness : custody 7 (ops_run ops init) = 0 + 200.
Proof.
  assert (Hin : ops_inflow 7 ops init = 200) by (vm_compute; reflexivity).
  rewrite <- Hin. change 0 with (custody 7 init) at 1.
  apply (custody_balanced 7 ops init); [discriminate|].
  repeat constructor. vm_compute. discriminate.
Defined.
End TokenDemo.
