(* ===== verification/Governor.v ===== *)
(** * The token governor

    [pallets/token-governor/src/{lib, impls, types}.rs]: the registry of multi-chain assets on
    hyperbridge. It records who owns an asset and where it is deployed, and instructs the
    gateways of the connected chains. [BTreeMap] arguments are the lists of their entries in
    order. The dispatcher is pallet-ismp, as in the runtimes of the repository. *)

From S2P Require Import Prelude StateMachine Router Messaging Host Handlers ChildTrie PalletTypes PalletHost Pallet Apps Hyperbridge Relayer TokenGateway.

(** ** Data ([types.rs]) *)

Record InitialSupply : Type := mkInitialSupply { is_beneficiary : H160; is_initial_supply : Z }.
Record ChainWithSupply : Type := mkChainWithSupply { cs_chain : StateMachine; cs_supply : option InitialSupply }.

Record ERC6160AssetRegistration : Type := mkERC6160AssetRegistration {
  er_name : bytes;
  er_symbol : bytes;
  er_chains : list ChainWithSupply;
  er_minimum_balance : option Z
}.

Record ERC6160AssetUpdate : Type := mkERC6160AssetUpdate {
  eu_asset_id : H256;
  eu_add_chains : list ChainWithSupply;
  eu_remove_chains : list StateMachine;
  eu_new_admins : list (StateMachine * H160)
}.

Definition no_supply (chain : StateMachine) : ChainWithSupply := mkChainWithSupply chain None.

(** [From<GatewayAssetRegistration>] and [From<GatewayAssetUpdate>] *)
Definition from_gateway_registration (r : GatewayAssetRegistration) : ERC6160AssetRegistration :=
  mkERC6160AssetRegistration (gr_name r) (gr_symbol r) (no_supply <$> gr_chains r) (gr_minimum_balance r).
Definition from_gateway_update (u : GatewayAssetUpdate) : ERC6160AssetUpdate :=
  mkERC6160AssetUpdate (gu_asset_id u) (no_supply <$> gu_add_chains u) (gu_remove_chains u) (gu_new_admins u).

Record UnsignedERC6160AssetRegistration : Type := mkUnsignedRegistration {
  ur_asset : ERC6160AssetRegistration;
  ur_signature : bytes;
  ur_owner : bytes
}.

Record ERC20Chain : Type := mkERC20Chain {
  ec_chain : StateMachine;
  ec_erc20 : option H160;
  ec_erc6160 : option H160;
  ec_decimals : Z
}.
Record ERC20AssetRegistration : Type := mkERC20AssetRegistration {
  e20_name : bytes;
  e20_symbol : bytes;
  e20_chains : list ERC20Chain;
  e20_minimum_balance : option Z
}.

(** The parameters of the pallet: the registration fee. *)
Record Params : Type := mkParams { registration_fee : Z }.
Record ParamsUpdate : Type := mkParamsUpdate { pu_registration_fee : option Z }.

Definition update_fee (p : Params) (u : ParamsUpdate) : Params :=
  mkParams (default (registration_fee p) (pu_registration_fee u)).

Record RegistrarParams : Type := mkRegistrarParams { rp_host : H160; rp_base_fee : Z; rp_address : H160 }.
Record RegistrarParamsUpdate : Type := mkRegistrarParamsUpdate {
  ru_base_fee : option Z;
  ru_address : option H160
}.

Record GatewayParams : Type := mkGatewayParams { gp_host : H160; gp_call_dispatcher : H160; gp_address : H160 }.
Record TokenGatewayParamsUpdate : Type := mkTokenGatewayParamsUpdate {
  tu_call_dispatcher : option H160;
  tu_address : option H160
}.

Definition zero_address : H160 := replicate 20 Byte.x00.
Definition default_registrar_params : RegistrarParams := mkRegistrarParams zero_address 0 zero_address.
Definition default_gateway_params : GatewayParams := mkGatewayParams zero_address zero_address zero_address.

(** [update], with the entry of [EvmHosts] for the chain. *)
Definition update_registrar (p : RegistrarParams) (host : option H160) (u : RegistrarParamsUpdate) : RegistrarParams :=
  mkRegistrarParams (default (rp_host p) host) (default (rp_base_fee p) (ru_base_fee u))
    (default (rp_address p) (ru_address u)).
Definition update_gateway (p : GatewayParams) (host : option H160) (u : TokenGatewayParamsUpdate) : GatewayParams :=
  mkGatewayParams (default (gp_host p) host) (default (gp_call_dispatcher p) (tu_call_dispatcher u))
    (default (gp_address p) (tu_address u)).

(** ** Messages to the contracts

    The Solidity structs, encoded by [alloy_sol_types]. *)

Record SolTokenGatewayParams : Type := mkSolTokenGatewayParams { sg_host : H160; sg_dispatcher : H160 }.
Record SolAssetMetadata : Type := mkSolAssetMetadata {
  sm_erc20 : H160;
  sm_erc6160 : H160;
  sm_name : bytes;
  sm_symbol : bytes;
  sm_initialSupply : Z;
  sm_beneficiary : H160
}.
Record SolDeregsiterAsset : Type := mkSolDeregsiterAsset { sd_assetIds : list H256 }.
Record SolChangeAssetAdmin : Type := mkSolChangeAssetAdmin { sa_assetId : H256; sa_newAdmin : H160 }.
Record SolContractInstance : Type := mkSolContractInstance { sc_chain : bytes; sc_moduleId : H160 }.
Record SolRegistrarParams : Type := mkSolRegistrarParams { sr_host : H160; sr_baseFee : Z }.
Record SolRequestBody : Type := mkSolRequestBody { rb_owner : H160; rb_assetId : H256 }.

Class SolAbi : Type := {
  abi_gateway_params : SolTokenGatewayParams -> bytes;
  abi_asset_metadata : SolAssetMetadata -> bytes;
  abi_deregister : SolDeregsiterAsset -> bytes;
  abi_change_admin : SolChangeAssetAdmin -> bytes;
  abi_contract_instance : SolContractInstance -> bytes;
  abi_registrar_params : SolRegistrarParams -> bytes;
  abi_decode_request : bytes -> result bytes SolRequestBody
}.

(** Requests to the gateway contract carry the variant of its enum in front. *)
Class TokenGatewayRequest (A : Type) : Type := encode_request : A -> bytes.

Section encodings.
Context `{!SolAbi}.
#[export] Instance gateway_params_request : TokenGatewayRequest SolTokenGatewayParams :=
  fun p => Byte.x01 :: abi_gateway_params p.
#[export] Instance asset_metadata_request : TokenGatewayRequest SolAssetMetadata :=
  fun p => Byte.x02 :: abi_asset_metadata p.
#[export] Instance deregister_request : TokenGatewayRequest SolDeregsiterAsset :=
  fun p => Byte.x03 :: abi_deregister p.
#[export] Instance change_admin_request : TokenGatewayRequest SolChangeAssetAdmin :=
  fun p => Byte.x04 :: abi_change_admin p.
#[export] Instance contract_instance_request : TokenGatewayRequest SolContractInstance :=
  fun p => Byte.x05 :: abi_contract_instance p.
End encodings.

Definition sol_gateway_params (p : GatewayParams) : SolTokenGatewayParams :=
  mkSolTokenGatewayParams (gp_host p) (gp_call_dispatcher p).
Definition sol_registrar_params (p : RegistrarParams) : SolRegistrarParams :=
  mkSolRegistrarParams (rp_host p) (rp_base_fee p).
(** [chain.to_string()] may panic. *)
Definition sol_contract_instance (chain : StateMachine) (module_id : H160) : option SolContractInstance :=
  text ← to_string chain; Some (mkSolContractInstance text module_id).

(** [TryFrom<AssetMetadata>]: the texts are UTF-8. *)
Definition sol_asset_metadata (m : AssetMetadata) : option SolAssetMetadata :=
  name ← from_utf8 (am_name m);
  symbol ← from_utf8 (am_symbol m);
  Some (mkSolAssetMetadata zero_address zero_address name symbol 0 zero_address).

Definition with_supply (supply : option InitialSupply) (m : SolAssetMetadata) : SolAssetMetadata :=
  match supply with
  | Some s => mkSolAssetMetadata (sm_erc20 m) (sm_erc6160 m) (sm_name m) (sm_symbol m)
                (is_initial_supply s) (is_beneficiary s)
  | None => m
  end.
Definition with_addresses (erc20 erc6160 : option H160) (m : SolAssetMetadata) : SolAssetMetadata :=
  mkSolAssetMetadata (default (sm_erc20 m) erc20) (default (sm_erc6160 m) erc6160) (sm_name m)
    (sm_symbol m) (sm_initialSupply m) (sm_beneficiary m).

(** ** Storage *)

Inductive GovernorEvent : Type :=
| AssetRegistered (asset_id commitment : H256) (dest : StateMachine)
| NewPendingAsset (asset_id : H256) (owner : H160)
| RegistrarParamsUpdated (old new : RegistrarParams) (state_machine : StateMachine)
| GatewayParamsUpdated (old new : GatewayParams) (state_machine : StateMachine)
| GovernorParamsUpdated (old new : Params)
| NativeAssetsDeregistered (assets : list (StateMachine * list H256)).

Inductive GovernorError : Type :=
| AssetAlreadyExists
| GovernorNotInitialized
| DispatchFailed
| InvalidUtf8
| GovernorUnknownAsset
| GovernorNotAssetOwner
| GovernorInvalidSignature
| UnknownTokenGateway
| FeeTransferFailed (text : bytes).

(** The accounts of the runtime, the storage of the governor, the [InflowBalances] of the
    inspector, and the parameters and events of the gateway for XCM transfers. *)
Inductive XcmEvent : Type :=
| XcmAssetTeleported (from : bytes) (to : H160) (amount : Z) (dest : StateMachine) (commitment : H256)
| XcmAssetReceived (beneficiary : bytes) (amount : Z) (source : StateMachine)
| XcmAssetRefunded (beneficiary : bytes) (amount : Z) (source : StateMachine).

(** Locations of XCM, as far as the gateway for XCM transfers looks at them. *)
Inductive NetworkId : Type :=
| NetEthereum (chain_id : Z)
| NetOther.

Inductive Junction : Type :=
| AccountId32 (id : bytes)
| AccountKey20 (network : option NetworkId) (key : H160)
| GeneralIndex (index : Z)
| OtherJunction (encoded : bytes).

Record Location : Type := mkLocation { loc_parents : Z; loc_interior : list Junction }.

Record Governance (Acc : Type) : Type := mkGovernance {
  gv_accounts : Acc;
  PendingAsset : gmap H256 H160;
  SupportedChains : gmap (H256 * StateMachine) bool;
  AssetMetadatas : gmap H256 AssetMetadata;
  AssetOwners : gmap H256 bytes;
  ProtocolParams : option Params;
  TokenRegistrarParams : gmap StateMachine RegistrarParams;
  TokenGatewayParams : gmap StateMachine GatewayParams;
  StandaloneChainAssets : gmap (StateMachine * H256) bool;
  gv_events : list GovernorEvent;
  InflowBalances : gmap (StateMachine * H256) Z;
  xcm_Params : option Z;
  xcm_AssetIds : gmap H256 Location;
  xcm_events : list XcmEvent
}.
Arguments mkGovernance {Acc}.
Arguments gv_accounts {Acc}.
Arguments PendingAsset {Acc}.
Arguments SupportedChains {Acc}.
Arguments AssetMetadatas {Acc}.
Arguments AssetOwners {Acc}.
Arguments ProtocolParams {Acc}.
Arguments TokenRegistrarParams {Acc}.
Arguments TokenGatewayParams {Acc}.
Arguments StandaloneChainAssets {Acc}.
Arguments gv_events {Acc}.
Arguments InflowBalances {Acc}.
Arguments xcm_Params {Acc}.
Arguments xcm_AssetIds {Acc}.
Arguments xcm_events {Acc}.

Section updates.
Context {Acc : Type}.
Implicit Types g : Governance Acc.

Definition on_gv_accounts (f : Acc -> Acc) g := mkGovernance (f (gv_accounts g)) (PendingAsset g) (SupportedChains g)
  (AssetMetadatas g) (AssetOwners g) (ProtocolParams g) (TokenRegistrarParams g) (TokenGatewayParams g)
  (StandaloneChainAssets g) (gv_events g) (InflowBalances g) (xcm_Params g) (xcm_AssetIds g) (xcm_events g).
Definition on_PendingAsset (f : gmap H256 H160 -> gmap H256 H160) g := mkGovernance (gv_accounts g) (f (PendingAsset g)) (SupportedChains g)
  (AssetMetadatas g) (AssetOwners g) (ProtocolParams g) (TokenRegistrarParams g) (TokenGatewayParams g)
  (StandaloneChainAssets g) (gv_events g) (InflowBalances g) (xcm_Params g) (xcm_AssetIds g) (xcm_events g).
Definition on_SupportedChains (f : gmap (H256 * StateMachine) bool -> gmap (H256 * StateMachine) bool) g :=
  mkGovernance (gv_accounts g) (PendingAsset g) (f (SupportedChains g))
  (AssetMetadatas g) (AssetOwners g) (ProtocolParams g) (TokenRegistrarParams g) (TokenGatewayParams g)
  (StandaloneChainAssets g) (gv_events g) (InflowBalances g) (xcm_Params g) (xcm_AssetIds g) (xcm_events g).
Definition on_AssetMetadatas (f : gmap H256 AssetMetadata -> gmap H256 AssetMetadata) g :=
  mkGovernance (gv_accounts g) (PendingAsset g) (SupportedChains g)
  (f (AssetMetadatas g)) (AssetOwners g) (ProtocolParams g) (TokenRegistrarParams g) (TokenGatewayParams g)
  (StandaloneChainAssets g) (gv_events g) (InflowBalances g) (xcm_Params g) (xcm_AssetIds g) (xcm_events g).
Definition on_AssetOwners (f : gmap H256 bytes -> gmap H256 bytes) g := mkGovernance (gv_accounts g) (PendingAsset g) (SupportedChains g)
  (AssetMetadatas g) (f (AssetOwners g)) (ProtocolParams g) (TokenRegistrarParams g) (TokenGatewayParams g)
  (StandaloneChainAssets g) (gv_events g) (InflowBalances g) (xcm_Params g) (xcm_AssetIds g) (xcm_events g).
Definition on_ProtocolParams (f : option Params -> option Params) g := mkGovernance (gv_accounts g) (PendingAsset g) (SupportedChains g)
  (AssetMetadatas g) (AssetOwners g) (f (ProtocolParams g)) (TokenRegistrarParams g) (TokenGatewayParams g)
  (StandaloneChainAssets g) (gv_events g) (InflowBalances g) (xcm_Params g) (xcm_AssetIds g) (xcm_events g).
Definition on_TokenRegistrarParams (f : gmap StateMachine RegistrarParams -> gmap StateMachine RegistrarParams) g :=
  mkGovernance (gv_accounts g) (PendingAsset g) (SupportedChains g)
  (AssetMetadatas g) (AssetOwners g) (ProtocolParams g) (f (TokenRegistrarParams g)) (TokenGatewayParams g)
  (StandaloneChainAssets g) (gv_events g) (InflowBalances g) (xcm_Params g) (xcm_AssetIds g) (xcm_events g).
Definition on_TokenGatewayParams (f : gmap StateMachine GatewayParams -> gmap StateMachine GatewayParams) g :=
  mkGovernance (gv_accounts g) (PendingAsset g) (SupportedChains g)
  (AssetMetadatas g) (AssetOwners g) (ProtocolParams g) (TokenRegistrarParams g) (f (TokenGatewayParams g))
  (StandaloneChainAssets g) (gv_events g) (InflowBalances g) (xcm_Params g) (xcm_AssetIds g) (xcm_events g).
Definition on_StandaloneChainAssets (f : gmap (StateMachine * H256) bool -> gmap (StateMachine * H256) bool) g :=
  mkGovernance (gv_accounts g) (PendingAsset g) (SupportedChains g)
  (AssetMetadatas g) (AssetOwners g) (ProtocolParams g) (TokenRegistrarParams g) (TokenGatewayParams g)
  (f (StandaloneChainAssets g)) (gv_events g) (InflowBalances g) (xcm_Params g) (xcm_AssetIds g) (xcm_events g).
Definition on_gv_events (f : list GovernorEvent -> list GovernorEvent) g := mkGovernance (gv_accounts g) (PendingAsset g) (SupportedChains g)
  (AssetMetadatas g) (AssetOwners g) (ProtocolParams g) (TokenRegistrarParams g) (TokenGatewayParams g)
  (StandaloneChainAssets g) (f (gv_events g)) (InflowBalances g) (xcm_Params g) (xcm_AssetIds g) (xcm_events g).
Definition on_InflowBalances (f : gmap (StateMachine * H256) Z -> gmap (StateMachine * H256) Z) g :=
  mkGovernance (gv_accounts g) (PendingAsset g) (SupportedChains g)
  (AssetMetadatas g) (AssetOwners g) (ProtocolParams g) (TokenRegistrarParams g) (TokenGatewayParams g)
  (StandaloneChainAssets g) (gv_events g) (f (InflowBalances g)) (xcm_Params g) (xcm_AssetIds g) (xcm_events g).
Definition on_xcm_Params (f : option Z -> option Z) g := mkGovernance (gv_accounts g) (PendingAsset g) (SupportedChains g)
  (AssetMetadatas g) (AssetOwners g) (ProtocolParams g) (TokenRegistrarParams g) (TokenGatewayParams g)
  (StandaloneChainAssets g) (gv_events g) (InflowBalances g) (f (xcm_Params g)) (xcm_AssetIds g) (xcm_events g).
Definition on_xcm_AssetIds (f : gmap H256 Location -> gmap H256 Location) g :=
  mkGovernance (gv_accounts g) (PendingAsset g) (SupportedChains g)
  (AssetMetadatas g) (AssetOwners g) (ProtocolParams g) (TokenRegistrarParams g) (TokenGatewayParams g)
  (StandaloneChainAssets g) (gv_events g) (InflowBalances g) (xcm_Params g) (f (xcm_AssetIds g)) (xcm_events g).
Definition on_xcm_events (f : list XcmEvent -> list XcmEvent) g := mkGovernance (gv_accounts g) (PendingAsset g) (SupportedChains g)
  (AssetMetadatas g) (AssetOwners g) (ProtocolParams g) (TokenRegistrarParams g) (TokenGatewayParams g)
  (StandaloneChainAssets g) (gv_events g) (InflowBalances g) (xcm_Params g) (xcm_AssetIds g) (f (xcm_events g)).
End updates.

#[export] Program Instance governance_currency {Acc} `{!Currency Acc} : Currency (Governance Acc) := {|
  balance a k := balance a (gv_accounts k);
  transfer a b n k := result_map (fun acc => on_gv_accounts (fun _ => acc) k) (transfer a b n (gv_accounts k))
|}.
Next Obligation.
  intros Acc HC a b n k k' Hne E. cbn in *. destruct (transfer a b n (gv_accounts k)) eqn:Et; [|done].
  injection E as <-. cbn. by apply transfer_moves.
Qed.

(** ** Library code

    The order in which a storage map is iterated is that of the hashes of its keys. [Config]:
    the account of the treasury and the account of the pallet; and the texts of errors. *)
Class GovernorEnv : Type := {
  iter_gateways : gmap StateMachine GatewayParams -> list (StateMachine * GatewayParams);
  treasury_account : bytes;
  governor_account : bytes;
  governor_error_text : GovernorError -> bytes
}.

(** Transfers with [Preservation::Preserve], minting, and reserve transfers to the relay
    chain through pallet-xcm, from an account of the chain to one of the relay chain. *)
Class RuntimeAssets (Acc : Type) : Type := {
  transfer_preserve : bytes -> bytes -> Z -> Acc -> result bytes Acc;
  mint_into : H256 -> bytes -> Z -> Acc -> result bytes Acc;
  limited_reserve_transfer_assets : bytes -> bytes -> Z -> Acc -> result bytes Acc
}.

Section governor.
Context `{HK : Keccak256} `{HC : Codecs, !HeightSort, !ErrorText, !ChildRoot} `{!Codec Leaf}.
Context `{!Codec AssetMetadata, !Codec DeregisterAssets, !Codec RemoteERC6160AssetRegistration}.
Context `{!SolAbi, !Crypto, !GovernorEnv} `{!Codec StateMachine}.
Context {Acc Tree : Type} `{!Currency Acc, !RuntimeAssets Acc}.
Context `{!Mmr Tree, !Config (Apps (Governance Acc)) Tree}.

Abbreviation St := (Chain (Apps (Governance Acc)) Tree).

(** ** Storage access *)

Definition governance (c : St) : Governance Acc := accounts (bank c).

Definition set_governance (g : Governance Acc) (k : Apps (Governance Acc)) : Apps (Governance Acc) :=
  mkApps g (hb_HostParams k) (hx_HostParams k) (hx_EvmHosts k) (rl_Fees k) (rl_Nonce k)
    (rl_MinimumWithdrawalAmount k) (fm_Fishermen k) (app_events k).

Definition modify_governance (f : Governance Acc -> Governance Acc) : M St unit :=
  modify_app (fun k => set_governance (f (accounts k)) k).

Definition governor_event (e : GovernorEvent) : M St unit :=
  modify_governance (on_gv_events (fun es => es ++ [e])).

Definition on_books (op : Acc -> result bytes Acc) : M St (result bytes unit) := fun c =>
  match op (gv_accounts (governance c)) with
  | Ok acc => (Some (Ok tt), upd_bank (set_governance (on_gv_accounts (fun _ => acc) (governance c))) c)
  | Err e => (Some (Err e), c)
  end.

(** ** Implementation ([impls.rs]) *)

Definition ensure_root_or_owner (origin : Origin) (asset_id : H256) (c : St) : result GovernorError unit :=
  match origin with
  | OriginSigned who =>
      match AssetOwners (governance c) !! asset_id with
      | None => Err GovernorUnknownAsset
      | Some owner => if bool_decide (who = owner) then Ok tt else Err GovernorNotAssetOwner
      end
  | OriginRoot => Ok tt
  | OriginNone => Err GovernorUnknownAsset
  end.

(** A request to a gateway, free of charge, that never times out. *)
Definition dispatch_governance (dest : StateMachine) (to body : bytes) : M St (result GovernorError H256) :=
  let* r := dispatch_request (DispatchPostRequest (mkDispatchPost dest REGISTRY to 0 body)) no_payer in
  ret (map_err (fun _ => DispatchFailed) r).

(** The address of the gateway on a chain: the pallet on substrate chains, else the contract
    that was configured. *)
Definition gateway_contract (chain : StateMachine) (c : St) : result GovernorError H160 :=
  ok_or (gp_address <$> TokenGatewayParams (governance c) !! chain) UnknownTokenGateway.
Definition gateway_address (chain : StateMachine) (c : St) : result GovernorError H160 :=
  if is_substrate chain then Ok token_gateway_id else gateway_contract chain c.

(** The message that creates an asset on a chain. *)
Definition creation_body (metadata : AssetMetadata) (chain : StateMachine) (supply : option InitialSupply) :
    result GovernorError bytes :=
  if is_substrate chain then Ok (encode metadata)
  else match sol_asset_metadata metadata with
       | None => Err InvalidUtf8
       | Some body => Ok (encode_request (with_supply supply body))
       end.

Definition register_on_chain (asset_id : H256) (metadata : AssetMetadata) (e : ChainWithSupply) :
    M St (result GovernorError unit) :=
  let chain := cs_chain e in
  let? address := gets (gateway_address chain) in
  let? body := ret (creation_body metadata chain (cs_supply e)) in
  let? commitment := dispatch_governance chain address body in
  let* _ := modify_governance (on_SupportedChains <[(asset_id, chain) := true]>) in
  let* _ := governor_event (AssetRegistered asset_id commitment chain) in
  ret (Ok tt).

Definition register_asset (asset : ERC6160AssetRegistration) (who : bytes) :
    M St (result GovernorError unit) :=
  let asset_id := keccak256 (er_symbol asset) in
  let* known := gets (fun c => AssetOwners (governance c) !! asset_id) in
  let? _ := ensure_not (bool_decide (is_Some known)) AssetAlreadyExists in
  let metadata := mkAssetMetadata (er_name asset) (er_symbol asset) 18 (er_minimum_balance asset) in
  let? _ := for_each (er_chains asset) (register_on_chain asset_id metadata) in
  let* _ := modify_governance (on_AssetMetadatas <[asset_id := metadata]>) in
  let* _ := modify_governance (on_AssetOwners <[asset_id := who]>) in
  ret (Ok tt).

(** [copy_from_slice] panics unless there are 65 bytes. *)
Definition signature_bytes (signature : bytes) : option bytes :=
  if (length signature =? 65)%nat then Some signature else None.

Definition register_asset_unsigned (registration : UnsignedERC6160AssetRegistration) :
    M St (result GovernorError unit) :=
  let asset := ur_asset registration in
  let asset_id := keccak256 (er_symbol asset) in
  let* sig := or_panic (signature_bytes (ur_signature registration)) in
  let? pub_key := ret (ok_or (secp256k1_ecdsa_recover sig asset_id) GovernorInvalidSignature) in
  let address := drop 12 (keccak256 pub_key) in
  let? asset_owner := gets (fun c => ok_or (PendingAsset (governance c) !! asset_id) GovernorUnknownAsset) in
  let? _ := ensure_not (negb (bool_decide (address = asset_owner))) GovernorNotAssetOwner in
  let? _ := register_asset asset (ur_owner registration) in
  let* _ := modify_governance (on_PendingAsset (delete asset_id)) in
  ret (Ok tt).

(** The three loops of an update. A chain that has the asset is skipped by the first one, a
    chain that does not by the others. *)
Definition add_to_chain (asset_id : H256) (metadata : AssetMetadata) (e : ChainWithSupply) :
    M St (result GovernorError unit) :=
  let chain := cs_chain e in
  let* supported := gets (fun c => SupportedChains (governance c) !! (asset_id, chain)) in
  match supported with
  | Some _ => ret (Ok tt)
  | None =>
      let? address := gets (gateway_address chain) in
      let? body := ret (creation_body metadata chain (cs_supply e)) in
      let? _ := dispatch_governance chain address body in
      let* _ := modify_governance (on_SupportedChains <[(asset_id, chain) := true]>) in
      ret (Ok tt)
  end.

Definition remove_from_chain (asset_id : H256) (chain : StateMachine) : M St (result GovernorError unit) :=
  let* supported := gets (fun c => SupportedChains (governance c) !! (asset_id, chain)) in
  match supported with
  | None => ret (Ok tt)
  | Some _ =>
      let? address := gets (gateway_address chain) in
      let body := if is_substrate chain then encode (mkDeregisterAssets [asset_id])
                  else encode_request (mkSolDeregsiterAsset [asset_id]) in
      let? _ := dispatch_governance chain address body in
      ret (Ok tt)
  end.

Definition change_admin (asset_id : H256) (e : StateMachine * H160) : M St (result GovernorError unit) :=
  let* supported := gets (fun c => SupportedChains (governance c) !! (asset_id, e.1)) in
  match supported with
  | None => ret (Ok tt)
  | Some _ =>
      let? address := gets (gateway_contract e.1) in
      let? _ := dispatch_governance e.1 address (encode_request (mkSolChangeAssetAdmin asset_id e.2)) in
      ret (Ok tt)
  end.

Definition update_erc6160_asset_impl (update : ERC6160AssetUpdate) : M St (result GovernorError unit) :=
  let asset_id := eu_asset_id update in
  let? metadata := gets (fun c => ok_or (AssetMetadatas (governance c) !! asset_id) GovernorUnknownAsset) in
  let? _ := for_each (eu_add_chains update) (add_to_chain asset_id metadata) in
  let? _ := for_each (eu_remove_chains update) (remove_from_chain asset_id) in
  let? _ := for_each (eu_new_admins update) (change_admin asset_id) in
  ret (Ok tt).

Definition evm_host (chain : StateMachine) (c : St) : option H160 := hx_EvmHosts (bank c) !! chain.

Definition update_one_gateway (e : StateMachine * TokenGatewayParamsUpdate) : M St (result GovernorError unit) :=
  let* stored := gets (fun c => TokenGatewayParams (governance c) !! e.1) in
  let old := default default_gateway_params stored in
  let* host := gets (evm_host e.1) in
  let new := update_gateway old host e.2 in
  let* _ := modify_governance (on_TokenGatewayParams <[e.1 := new]>) in
  let? _ := match stored with
            | Some old => let? _ := dispatch_governance e.1 (gp_address old) (encode_request (sol_gateway_params new)) in
                          ret (Ok tt)
            | None => ret (Ok tt)
            end in
  let* _ := governor_event (GatewayParamsUpdated old new e.1) in
  ret (Ok tt).

Definition update_gateway_params_impl (updates : list (StateMachine * TokenGatewayParamsUpdate)) :
    M St (result GovernorError unit) := for_each updates update_one_gateway.

(** The instance of [state_machine] is announced for each of the other gateways, in a request
    to [state_machine] itself. *)
Definition announce (state_machine : StateMachine) (body : bytes) (e : StateMachine * GatewayParams) :
    M St (result GovernorError unit) :=
  if bool_decide (e.1 = state_machine) then ret (Ok tt)
  else
    let? _ := dispatch_governance state_machine (gp_address e.2) body in
    ret (Ok tt).

Definition announce_instance (state_machine : StateMachine) : M St (result GovernorError unit) :=
  let* params := ask (fun c => TokenGatewayParams (governance c) !! state_machine) in
  let* instance := or_panic (sol_contract_instance state_machine (gp_address params)) in
  let* gateways := gets (fun c => iter_gateways (TokenGatewayParams (governance c))) in
  for_each gateways (announce state_machine (encode_request instance)).

Definition set_instance (e : StateMachine * TokenGatewayParamsUpdate) : M St unit :=
  let* host := gets (evm_host e.1) in
  modify_governance (on_TokenGatewayParams <[e.1 := update_gateway default_gateway_params host e.2]>).

Definition add_new_gateway_instance (updates : list (StateMachine * TokenGatewayParamsUpdate)) :
    M St (result GovernorError unit) :=
  let* _ := map_m set_instance updates in
  for_each updates (fun e => announce_instance e.1).

Definition update_one_registrar (e : StateMachine * RegistrarParamsUpdate) : M St (result GovernorError unit) :=
  let* stored := gets (fun c => TokenRegistrarParams (governance c) !! e.1) in
  let old := default default_registrar_params stored in
  let* host := gets (evm_host e.1) in
  let new := update_registrar old host e.2 in
  let* _ := modify_governance (on_TokenRegistrarParams <[e.1 := new]>) in
  let? _ := match stored with
            | Some old => let? _ := dispatch_governance e.1 (rp_address old) (abi_registrar_params (sol_registrar_params new)) in
                          ret (Ok tt)
            | None => ret (Ok tt)
            end in
  let* _ := governor_event (RegistrarParamsUpdated old new e.1) in
  ret (Ok tt).

Definition update_registrar_params_impl (updates : list (StateMachine * RegistrarParamsUpdate)) :
    M St (result GovernorError unit) := for_each updates update_one_registrar.

(** The metadata is threaded through the loop: it ends with the decimals of the last chain. *)
Definition register_erc20_on_chain (asset_id : H256) (metadata : AssetMetadata) (e : ERC20Chain) :
    M St (result GovernorError AssetMetadata) :=
  let metadata := mkAssetMetadata (am_name metadata) (am_symbol metadata) (ec_decimals e) (am_minimum_balance metadata) in
  let? body := ret (ok_or (sol_asset_metadata metadata) InvalidUtf8) in
  let body := with_addresses (ec_erc20 e) (ec_erc6160 e) body in
  let? address := gets (gateway_contract (ec_chain e)) in
  let? commitment := dispatch_governance (ec_chain e) address (encode_request body) in
  let* _ := modify_governance (on_SupportedChains <[(asset_id, ec_chain e) := true]>) in
  let* _ := governor_event (AssetRegistered asset_id commitment (ec_chain e)) in
  ret (Ok metadata).

Definition create_erc20_asset_impl (asset : ERC20AssetRegistration) : M St (result GovernorError unit) :=
  let asset_id := keccak256 (e20_symbol asset) in
  let* known := gets (fun c => AssetOwners (governance c) !! asset_id) in
  let? _ := ensure_not (bool_decide (is_Some known)) AssetAlreadyExists in
  let? metadata := try_fold_m (register_erc20_on_chain asset_id)
      (mkAssetMetadata (e20_name asset) (e20_symbol asset) 0 None) (e20_chains asset) in
  let* _ := modify_governance (on_AssetMetadatas <[asset_id := metadata]>) in
  let* _ := modify_governance (on_AssetOwners <[asset_id := governor_account]>) in
  ret (Ok tt).

(** ** Calls *)

#[local] Instance From_fee : From bytes (CallError GovernorError) := fun e => CallFailed (FeeTransferFailed e).

Definition governor_create_erc6160_asset (origin : Origin) (asset : ERC6160AssetRegistration) :
    M St (result (CallError GovernorError) unit) := transactional (
  let? who := ret (call_signed origin) in
  let? params := gets (fun c => ok_or (ProtocolParams (governance c)) GovernorNotInitialized) in
  let? _ := on_books (transfer_preserve who treasury_account (registration_fee params)) in
  let? _ := register_asset asset who in
  ret (Ok tt)).

Definition create_erc6160_asset_unsigned (origin : Origin) (registration : UnsignedERC6160AssetRegistration) :
    M St (result (CallError GovernorError) unit) := transactional (
  let? _ := ret (call_none origin) in
  let? _ := register_asset_unsigned registration in
  ret (Ok tt)).

Definition update_registrar_params (origin : Origin) (update : list (StateMachine * RegistrarParamsUpdate)) :
    M St (result (CallError GovernorError) unit) := transactional (
  let? _ := ret (call_admin origin) in
  let? _ := update_registrar_params_impl update in
  ret (Ok tt)).

Definition update_gateway_params (origin : Origin) (update : list (StateMachine * TokenGatewayParamsUpdate)) :
    M St (result (CallError GovernorError) unit) := transactional (
  let? _ := ret (call_admin origin) in
  let? _ := update_gateway_params_impl update in
  ret (Ok tt)).

(** No event is deposited. *)
Definition update_params (origin : Origin) (update : ParamsUpdate) :
    M St (result (CallError GovernorError) unit) := transactional (
  let? _ := ret (call_admin origin) in
  let* _ := modify_governance (on_ProtocolParams (fun p => Some (update_fee (default (mkParams 0) p) update))) in
  ret (Ok tt)).

Definition governor_update_erc6160_asset (origin : Origin) (update : ERC6160AssetUpdate) :
    M St (result (CallError GovernorError) unit) := transactional (
  let? _ := gets (ensure_root_or_owner origin (eu_asset_id update)) in
  let? _ := update_erc6160_asset_impl update in
  ret (Ok tt)).

Definition create_erc20_asset (origin : Origin) (asset : ERC20AssetRegistration) :
    M St (result (CallError GovernorError) unit) := transactional (
  let? _ := ret (call_admin origin) in
  let? _ := create_erc20_asset_impl asset in
  ret (Ok tt)).

Definition new_contract_instance (origin : Origin) (updates : list (StateMachine * TokenGatewayParamsUpdate)) :
    M St (result (CallError GovernorError) unit) := transactional (
  let? _ := ret (call_admin origin) in
  let? _ := add_new_gateway_instance updates in
  ret (Ok tt)).

Definition deregister_standalone_chain_native_assets (origin : Origin) (assets : list (StateMachine * list H256)) :
    M St (result (CallError GovernorError) unit) := transactional (
  let? _ := ret (call_admin origin) in
  let* _ := map_m (fun e => map_m (fun id =>
      modify_governance (on_StandaloneChainAssets (delete (e.1, id)))) e.2) assets in
  let* _ := governor_event (NativeAssetsDeregistered assets) in
  ret (Ok tt)).

(** [validate_unsigned]: the call is tried out, and its effects dropped. *)
Definition validate_registration (registration : UnsignedERC6160AssetRegistration) (c : St) : option (result unit bytes) :=
  match fst (register_asset_unsigned registration c) with
  | None => None
  | Some (Err _) => Some (Err tt)
  | Some (Ok _) => Some (Ok (keccak256 (er_symbol (ur_asset registration))))
  end.

(** ** The module *)

Definition custom_failure (e : GovernorError) : Error :=
  Custom (lit "Failed create asset " ++ governor_error_text e).

Definition accept_remote (source : StateMachine) (message : RemoteERC6160AssetRegistration) :
    M St (result AnyError unit) :=
  match message with
  | CreateAsset asset =>
      let asset_id := keccak256 (gr_symbol asset) in
      let* r := register_asset (from_gateway_registration asset) (keccak256 (encode source)) in
      let? _ := ret (map_err custom_failure r) in
      let* _ := modify_governance (on_StandaloneChainAssets <[(source, asset_id) := true]>) in
      ret (Ok tt)
  | UpdateAsset asset =>
      let* r := update_erc6160_asset_impl (from_gateway_update asset) in
      let? _ := ret (map_err custom_failure r) in
      ret (Ok tt)
  end.

(** A registration paid for through a registrar. *)
Definition accept_pending (request : PostRequest) : M St (result AnyError unit) :=
  let? params := gets (fun c => ok_or (TokenRegistrarParams (governance c) !! post_source request)
      (Custom (lit "Pallet is not initialized"))) in
  let? _ := ensure_not (negb (bool_decide (post_from request = rp_address params)))
      (Custom (lit "Unauthorized action")) in
  let? body := ret (map_err (fun e => Custom (lit "Decode error: " ++ e)) (abi_decode_request (post_body request))) in
  let* owned := gets (fun c => bool_decide (is_Some (AssetOwners (governance c) !! rb_assetId body))) in
  let* pending := gets (fun c => bool_decide (is_Some (PendingAsset (governance c) !! rb_assetId body))) in
  let? _ := ensure_not (owned || pending) (Custom (lit "Asset already exists")) in
  let* _ := modify_governance (on_PendingAsset <[rb_assetId body := rb_owner body]>) in
  let* _ := governor_event (NewPendingAsset (rb_assetId body) (rb_owner body)) in
  ret (Ok tt).

Definition governor_on_accept (request : PostRequest) : M St (result AnyError unit) :=
  if is_substrate (post_source request) && bool_decide (post_from request = token_gateway_id) then
    let? message := ret (ok_or (decode (A := RemoteERC6160AssetRegistration) (post_body request))
        (Custom (lit "Failed to decode data"))) in
    let? _ := accept_remote (post_source request) message in
    ret (Ok tt)
  else accept_pending request.

Definition governor_module : IsmpModule St := {|
  on_accept := governor_on_accept;
  on_response _ := ret (Err (AnyMessage (lit "Module does not expect responses")));
  on_timeout _ := ret (Err (AnyMessage (lit "Module does not expect timeouts")))
|}.

End governor.
