(* ===== verification/GovernorProps.v ===== *)
(** * The token governor: theorems

    What a registration records and dispatches, who may register and update an asset, and
    that ownership never changes hands. *)

From S2P Require Import Prelude StateMachine Router Messaging Host Handlers HostSpec Frame ChildTrie PalletTypes PalletHost PalletRefines Pallet PalletFrames PalletProps Apps Hyperbridge Relayer TokenGateway Governor.

Section properties.
Context `{HK : Keccak256} `{HC : Codecs, !HeightKeys, !HeightSort, !ErrorText, !ChildRoot} `{!Codec Leaf}.
Context `{!Codec AssetMetadata, !Codec DeregisterAssets, !Codec RemoteERC6160AssetRegistration}.
Context `{!SolAbi, !Crypto, !GovernorEnv} `{!Codec StateMachine}.
Context {Acc Tree : Type} `{!Currency Acc, !RuntimeAssets Acc}.
Context `{!Mmr Tree, !Config (Apps (Governance Acc)) Tree}.

Abbreviation St := (Chain (Apps (Governance Acc)) Tree).
Implicit Types c : St.

(** ** Dispatching *)

(** A request of the governor leaves its own storage alone. *)
Lemma dispatch_governance_run dest to body c h c' :
  pallet_inv c -> dispatch_governance dest to body c = (Some (Ok h), c') ->
  pallet_inv c' /\ bank c' = bank c /\
  hash_request (requested (DispatchPostRequest (mkDispatchPost dest REGISTRY to 0 body))
    (Nonce (storage c)) (now c)) = Some h /\
  events c' = events c ++ [PERequest dest HostStateMachine (Nonce (storage c)) h].
Proof.
  intros Hc. unfold dispatch_governance. intros (r & c1 & Hd & Hr)%bind_inv.
  apply ret_inv in Hr as [Hr <-]. apply map_err_ok in Hr as ->.
  destruct (dispatch_request_abs _ _ _ _ _ Hc Hd) as (Hc1 & _).
  destruct (dispatch_request_run _ _ _ _ _ Hc Hd) as (b & Hb & [Hh _ (l & t & _ & ->)]).
  unfold fee_collected in Hb. cbn in Hb. subst b. split; [done|]. split; [done|]. by split.
Qed.

(** [c'] is [c] but for its messages, whose requests go to [dests] in order. *)
Definition announced (dests : list StateMachine) c c' : Prop :=
  pallet_inv c' /\ exists evs, events c' = events c ++ evs /\
    Forall2 (fun d e => exists n h, e = PERequest d HostStateMachine n h) dests evs.

(** ** Registration *)

(** The storage of the governor once [chains] have the asset. *)
Definition deployed (asset_id : H256) (chains : list StateMachine) (m : gmap (H256 * StateMachine) bool) :=
  foldl (fun m chain => <[(asset_id, chain) := true]> m) m chains.

Lemma deployed_spec asset_id chains m k :
  deployed asset_id chains m !! k
  = if decide (k.1 = asset_id /\ k.2 ∈ chains) then Some true else m !! k.
Proof.
  revert m; induction chains as [|x l IH]; intros m; cbn [deployed foldl].
  - case_decide as Hk; [|done]. destruct Hk as [_ Hk]. by apply elem_of_nil in Hk.
  - unfold deployed in IH. rewrite IH. destruct k as [a b]. cbn [fst snd].
    destruct (decide ((asset_id, x) = (a, b))) as [[= -> ->]|Hne].
    + rewrite lookup_insert_eq. repeat case_decide; try done; set_solver.
    + rewrite lookup_insert_ne by done. repeat case_decide; set_solver.
Qed.

Lemma register_on_chain_run asset_id metadata e c c' :
  pallet_inv c -> register_on_chain asset_id metadata e c = (Some (Ok tt), c') ->
  exists to body h, gateway_address (cs_chain e) c = Ok to /\
    creation_body metadata (cs_chain e) (cs_supply e) = Ok body /\
    hash_request (requested (DispatchPostRequest (mkDispatchPost (cs_chain e) REGISTRY to 0 body))
      (Nonce (storage c)) (now c)) = Some h /\
    governance c' = on_gv_events (fun es => es ++ [AssetRegistered asset_id h (cs_chain e)])
      (on_SupportedChains <[(asset_id, cs_chain e) := true]> (governance c)) /\
    announced [cs_chain e] c c'.
Proof.
  intros Hc. unfold register_on_chain. intros Hrun. step_gets Hrun to Hto. step_ret Hrun body Hbody.
  apply try_ok_inv in Hrun as (h & c1 & Hd & Hrun).
  destruct (dispatch_governance_run _ _ _ _ _ _ Hc Hd) as (Hc1 & Hb & Hh & He).
  unfold bind, modify_governance, governor_event, modify_governance, modify_app, modify, ret in Hrun.
  injection Hrun as <-. exists to, body, h. split; [done|]. split; [done|]. split; [done|].
  split; [unfold governance; cbn; by rewrite Hb|]. split; [done|].
  exists [PERequest (cs_chain e) HostStateMachine (Nonce (storage c)) h]. split; [done|].
  constructor; [by eexists _, _|constructor].
Qed.

Lemma announced_app l1 l2 c c1 c2 :
  announced l1 c c1 -> announced l2 c1 c2 -> announced (l1 ++ l2) c c2.
Proof.
  intros (_ & e1 & E1 & F1) (I2 & e2 & E2 & F2). split; [done|]. exists (e1 ++ e2).
  rewrite E2, E1, app_assoc. split; [done|]. by apply Forall2_app.
Qed.

(** All storage but the chains and the events stays. *)
Lemma register_loop asset_id metadata l c c' :
  pallet_inv c -> for_each l (register_on_chain asset_id metadata) c = (Some (Ok tt), c') ->
  announced (cs_chain <$> l) c c' /\ exists evs,
  governance c' = on_gv_events (fun es => es ++ evs)
    (on_SupportedChains (deployed asset_id (cs_chain <$> l)) (governance c)) /\
  Forall2 (fun e ev => exists h, ev = AssetRegistered asset_id h (cs_chain e)) l evs.
Proof.
  revert c; induction l as [|e l IH]; intros c Hc Hrun; cbn [for_each] in Hrun.
  - apply ret_inv in Hrun as [_ <-]. split; [split; [done|exists []; by rewrite app_nil_r]|].
    exists []. split; [|constructor]. unfold on_gv_events, on_SupportedChains. rewrite app_nil_r.
    by destruct (governance c).
  - apply try_ok_inv in Hrun as ([] & c1 & Hr & Hrun).
    apply register_on_chain_run in Hr as (to & body & h & _ & _ & _ & Hg & Ha); [|done].
    destruct (IH c1) as (Hl & evs & Hg2 & Hev); [by destruct Ha|done|].
    split; [by eapply (announced_app [cs_chain e])|].
    exists (AssetRegistered asset_id h (cs_chain e) :: evs). split; [|constructor; [by eexists|done]].
    rewrite Hg2, Hg. unfold on_gv_events, on_SupportedChains. cbn.
    by rewrite <- app_assoc.
Qed.

Lemma register_asset_run asset who c c' :
  pallet_inv c -> register_asset asset who c = (Some (Ok tt), c') ->
  let asset_id := keccak256 (er_symbol asset) in
  let chains := cs_chain <$> er_chains asset in
  AssetOwners (governance c) !! asset_id = None /\ announced chains c c' /\
  exists evs, governance c' = on_AssetOwners <[asset_id := who]> (on_AssetMetadatas
      <[asset_id := mkAssetMetadata (er_name asset) (er_symbol asset) 18 (er_minimum_balance asset)]>
      (on_gv_events (fun es => es ++ evs) (on_SupportedChains (deployed asset_id chains) (governance c)))).
Proof.
  intros Hc. unfold register_asset. intros Hrun. bind_gets Hrun. step_guard Hrun Hn.
  apply bool_decide_eq_false in Hn. apply eq_None_not_Some in Hn. cbv zeta in *.
  apply try_ok_inv in Hrun as ([] & c1 & Hl & Hrun).
  apply register_loop in Hl as (Ha & evs & Hg & _); [|done].
  unfold bind, modify_governance, modify_app, modify, ret in Hrun. injection Hrun as <-.
  split; [done|]. split; [done|]. exists evs. unfold governance in *. cbn. by rewrite Hg.
Qed.

(** a registration creates the asset once, everywhere it was asked for. When a signed
    account registers an asset, the registry did not know it; the fee goes to the treasury;
    one request is dispatched for each chain, in order; afterwards the account owns the asset,
    its metadata is recorded with 18 decimals, and exactly the chains asked for are marked as
    supporting it, beside those that were. *)
Theorem governor_registration origin asset c c' :
  pallet_inv c -> governor_create_erc6160_asset origin asset c = (Some (Ok tt), c') ->
  let asset_id := keccak256 (er_symbol asset) in
  let chains := cs_chain <$> er_chains asset in
  exists who params acc, origin = OriginSigned who /\ ProtocolParams (governance c) = Some params /\
    transfer_preserve who treasury_account (registration_fee params) (gv_accounts (governance c)) = Ok acc /\
    gv_accounts (governance c') = acc /\
    AssetOwners (governance c) !! asset_id = None /\
    AssetOwners (governance c') = <[asset_id := who]> (AssetOwners (governance c)) /\
    AssetMetadatas (governance c') !! asset_id
      = Some (mkAssetMetadata (er_name asset) (er_symbol asset) 18 (er_minimum_balance asset)) /\
    announced chains c c' /\
    forall k, SupportedChains (governance c') !! k
      = if decide (k.1 = asset_id /\ k.2 ∈ chains) then Some true else SupportedChains (governance c) !! k.
Proof.
  intros Hc Hrun. cbv zeta. unfold governor_create_erc6160_asset in Hrun. apply transactional_ok in Hrun.
  step_ret Hrun who Hw. destruct origin as [|w|]; try discriminate. injection Hw as ->.
  step_gets Hrun params Hp. apply ok_or_ok in Hp.
  apply try_ok_inv in Hrun as ([] & c1 & Hl & Hrun). unfold on_books in Hl.
  destruct (transfer_preserve _ _ _ _) as [acc|] eqn:Et; [|discriminate]. injection Hl as <-.
  apply try_ok_inv in Hrun as ([] & c2 & Hr & Hrun). apply ret_inv in Hrun as [_ <-].
  apply register_asset_run in Hr as (Hn & (Hi & evs' & E1 & E2) & evs & Hg); [|done].
  exists who, params, acc. split; [done|]. split; [done|]. split; [done|].
  rewrite Hg. cbn. split; [done|]. split; [done|]. split; [done|]. split; [by rewrite lookup_insert_eq|].
  split; [by split; [|exists evs']|]. intros k. apply deployed_spec.
Qed.

(** ** Registration through a registrar *)

Lemma register_asset_unsigned_run reg c c' :
  pallet_inv c -> register_asset_unsigned reg c = (Some (Ok tt), c') ->
  let asset_id := keccak256 (er_symbol (ur_asset reg)) in
  exists pk c1, length (ur_signature reg) = 65%nat /\
    secp256k1_ecdsa_recover (ur_signature reg) asset_id = Some pk /\
    PendingAsset (governance c) !! asset_id = Some (drop 12 (keccak256 pk)) /\
    register_asset (ur_asset reg) (ur_owner reg) c = (Some (Ok tt), c1) /\
    c' = upd_bank (fun k => set_governance (on_PendingAsset (delete asset_id) (accounts k)) k) c1.
Proof.
  intros Hc. unfold register_asset_unsigned. intros (sig & c0 & Hs & Hrun)%bind_inv.
  apply or_panic_inv in Hs as [Hs ->]. unfold signature_bytes in Hs.
  destruct (Nat.eqb_spec (length (ur_signature reg)) 65) as [Hlen|]; [|done]. injection Hs as <-.
  step_ret Hrun pk Hpk. apply ok_or_ok in Hpk. step_gets Hrun ow How. apply ok_or_ok in How.
  step_guard Hrun Hg. apply negb_false_iff, bool_decide_eq_true in Hg. cbv zeta in *.
  apply try_ok_inv in Hrun as ([] & c1 & Hr & Hrun).
  unfold bind, modify_governance, modify_app, modify, ret in Hrun. injection Hrun as <-.
  exists pk, c1. split; [done|]. split; [done|]. split; [by rewrite Hg|]. by split.
Qed.

(** Nothing in a registration looks at the owner it is for. *)
Lemma register_asset_any_owner asset who who' c c' :
  register_asset asset who c = (Some (Ok tt), c') ->
  exists c2, register_asset asset who' c = (Some (Ok tt), c2) /\
    AssetOwners (governance c2) !! keccak256 (er_symbol asset) = Some who'.
Proof.
  unfold register_asset. intros (known & c0 & Hk & Hrun)%bind_inv.
  rewrite (bind_some _ _ _ _ _ Hk). apply try_ok_inv in Hrun as (u & c1 & Hg & Hrun).
  rewrite (try_ok _ _ _ _ _ Hg). apply try_ok_inv in Hrun as (v & c2 & Hl & Hrun).
  cbv zeta in *. rewrite (try_ok _ _ _ _ _ Hl). eexists. split; [reflexivity|].
  unfold governance. cbn. by rewrite lookup_insert_eq.
Qed.

(** What suffices for an unsigned registration. *)
Lemma authorised_registration reg owner pk c c1 :
  let asset_id := keccak256 (er_symbol (ur_asset reg)) in
  length (ur_signature reg) = 65%nat ->
  secp256k1_ecdsa_recover (ur_signature reg) asset_id = Some pk ->
  PendingAsset (governance c) !! asset_id = Some (drop 12 (keccak256 pk)) ->
  register_asset (ur_asset reg) owner c = (Some (Ok tt), c1) ->
  register_asset_unsigned (mkUnsignedRegistration (ur_asset reg) (ur_signature reg) owner) c
  = (Some (Ok tt), upd_bank (fun k => set_governance (on_PendingAsset (delete asset_id) (accounts k)) k) c1).
Proof.
  cbv zeta. intros Hlen Hpk Hpend Hreg. unfold register_asset_unsigned. cbn [ur_asset ur_signature ur_owner].
  rewrite (bind_some _ _ c (ur_signature reg) c) by (unfold signature_bytes; by rewrite Hlen).
  rewrite (try_ok _ _ c pk c) by (by rewrite Hpk). cbv zeta.
  rewrite (try_ok _ _ c (drop 12 (keccak256 pk)) c) by (unfold gets; by rewrite Hpend).
  rewrite (try_ok _ _ c tt c) by (by rewrite bool_decide_eq_true_2).
  rewrite (try_ok _ _ _ _ _ Hreg). done.
Qed.

(** a registration paid for elsewhere needs the signature of who paid, and nothing more
    of it. An unsigned registration goes through only with a signature of 65 bytes over the
    identifier of the asset, from the address that a registrar reported as its owner; the
    ticket is used up. But the signature covers the identifier alone: whoever has seen it can
    register the same asset for any other owner in its place. *)
Theorem unsigned_registration origin reg c c' :
  pallet_inv c -> create_erc6160_asset_unsigned origin reg c = (Some (Ok tt), c') ->
  let asset_id := keccak256 (er_symbol (ur_asset reg)) in
  origin = OriginNone /\ AssetOwners (governance c) !! asset_id = None /\
  (exists pk, length (ur_signature reg) = 65%nat /\
     secp256k1_ecdsa_recover (ur_signature reg) asset_id = Some pk /\
     PendingAsset (governance c) !! asset_id = Some (drop 12 (keccak256 pk))) /\
  AssetOwners (governance c') !! asset_id = Some (ur_owner reg) /\
  PendingAsset (governance c') !! asset_id = None /\
  forall thief, exists c2,
    create_erc6160_asset_unsigned OriginNone (mkUnsignedRegistration (ur_asset reg) (ur_signature reg) thief) c
    = (Some (Ok tt), c2) /\
    AssetOwners (governance c2) !! asset_id = Some thief.
Proof.
  intros Hc Hrun. cbv zeta. unfold create_erc6160_asset_unsigned in Hrun. apply transactional_ok in Hrun.
  step_ret Hrun u Hu. destruct origin; try discriminate. split; [done|].
  apply try_ok_inv in Hrun as ([] & c1 & Hr & Hrun). apply ret_inv in Hrun as [_ <-].
  destruct (register_asset_unsigned_run _ _ _ Hc Hr) as (pk & c2 & Hlen & Hpk & Hpend & Hreg & ->).
  destruct (register_asset_run _ _ _ _ Hc Hreg) as (Hn & _ & evs & Hg).
  split; [done|]. split; [by exists pk|].
  split; [unfold governance in *; cbn; rewrite Hg; cbn; by rewrite lookup_insert_eq|].
  split; [unfold governance in *; cbn; by rewrite lookup_delete_eq|].
  intros thief. destruct (register_asset_any_owner _ _ thief _ _ Hreg) as (c3 & Hreg3 & Hown).
  exists (upd_bank (fun k => set_governance (on_PendingAsset (delete
    (keccak256 (er_symbol (ur_asset reg)))) (accounts k)) k) c3). split; [|exact Hown].
  unfold create_erc6160_asset_unsigned, transactional. rewrite (try_ok _ _ c tt c) by done.
  rewrite (try_ok _ _ _ _ _ (authorised_registration _ thief _ _ _ Hlen Hpk Hpend Hreg3)). done.
Qed.

(** ** Remote updates *)

Lemma announced_nil c : pallet_inv c -> announced [] c c.
Proof. intros Hc. split; [done|]. exists []. by rewrite app_nil_r. Qed.

Lemma announced_dispatch dest to body c h c' :
  pallet_inv c -> dispatch_governance dest to body c = (Some (Ok h), c') ->
  announced [dest] c c' /\ bank c' = bank c.
Proof.
  intros Hc Hd. destruct (dispatch_governance_run _ _ _ _ _ _ Hc Hd) as (Hc1 & Hb & _ & He).
  split; [|done]. split; [done|]. eexists. split; [exact He|]. constructor; [by eexists _, _|constructor].
Qed.

(** Delisting asks every chain that has the asset, and forgets none of them. *)
Lemma delisting_run asset_id l c c' :
  pallet_inv c -> for_each l (remove_from_chain asset_id) c = (Some (Ok tt), c') ->
  announced (filter (fun d => is_Some (SupportedChains (governance c) !! (asset_id, d))) l) c c' /\
  bank c' = bank c.
Proof.
  revert c; induction l as [|d l IH]; intros c Hc Hrun; cbn [for_each] in Hrun.
  - apply ret_inv in Hrun as [_ <-]. split; [by apply announced_nil|done].
  - apply try_ok_inv in Hrun as ([] & c1 & Hr & Hrun).
    unfold remove_from_chain in Hr. bind_gets Hr. rewrite filter_cons.
    destruct (SupportedChains (governance c) !! (asset_id, d)) as [v|] eqn:Ev.
    + step_gets Hr to Hto. apply try_ok_inv in Hr as (h & c2 & Hd & Hr). apply ret_inv in Hr as [_ <-].
      apply announced_dispatch in Hd as [Ha Hb]; [|done].
      rewrite decide_True by eauto. destruct (IH c2) as [Hl Hb2]; [by destruct Ha|done|].
      rewrite Hb2, Hb. split; [|done]. eapply (announced_app [d]); [exact Ha|].
      unfold governance in *. by rewrite Hb in Hl.
    + apply ret_inv in Hr as [_ <-]. rewrite decide_False by (by intros [? ?]).
      by apply IH.
Qed.

(** any connected substrate chain may delist any asset. A request from the token gateway
    of a substrate chain that asks for an asset to be delisted is obeyed whoever owns the asset:
    every chain among those named that has the asset is told to deregister it. The same update
    is refused when an account other than the owner asks for it. Moreover the registry goes on
    to record the asset as supported by the chains it was delisted from, so that it cannot be
    added there again. *)
Theorem remote_delisting_unchecked request asset owner c c' :
  pallet_inv c -> AssetOwners (governance c) !! gu_asset_id asset = Some owner ->
  is_substrate (post_source request) = true -> post_from request = token_gateway_id ->
  decode (post_body request) = Some (UpdateAsset asset) ->
  gu_add_chains asset = [] -> gu_new_admins asset = [] ->
  on_accept governor_module request c = (Some (Ok tt), c') ->
  announced (filter (fun d => is_Some (SupportedChains (governance c) !! (gu_asset_id asset, d)))
    (gu_remove_chains asset)) c c' /\
  governance c' = governance c /\
  forall who, who <> owner ->
    governor_update_erc6160_asset (OriginSigned who) (from_gateway_update asset) c
    = (Some (Err (CallFailed GovernorNotAssetOwner)), c).
Proof.
  intros Hc How Hs Hf Hd Hadd Hadm Hrun. cbn [on_accept governor_module] in Hrun. unfold governor_on_accept in Hrun.
  rewrite Hs, bool_decide_eq_true_2 in Hrun by done. cbn [andb] in Hrun.
  step_ret Hrun msg Hm. rewrite Hd in Hm. injection Hm as <-.
  apply try_ok_inv in Hrun as ([] & c1 & Hr & Hrun). apply ret_inv in Hrun as [_ <-].
  cbn [accept_remote] in Hr. apply bind_inv in Hr as (r & c2 & Hu & Hr).
  step_ret Hr u Hx. apply map_err_ok in Hx as ->. apply ret_inv in Hr as [_ <-].
  unfold update_erc6160_asset_impl, from_gateway_update in Hu.
  cbn [eu_asset_id eu_add_chains eu_remove_chains eu_new_admins] in Hu.
  step_gets Hu metadata Hmeta. rewrite Hadd in Hu. cbn [fmap list_fmap for_each] in Hu.
  step_ret Hu u1 Hu1. apply try_ok_inv in Hu as ([] & c3 & Hl & Hu).
  rewrite Hadm in Hu. cbn [for_each] in Hu. step_ret Hu u2 Hu2. apply ret_inv in Hu as [_ <-].
  apply delisting_run in Hl as [Ha Hb]; [|done]. split; [done|]. split; [unfold governance; by rewrite Hb|].
  intros who Hw. unfold governor_update_erc6160_asset, transactional, try_bind, bind, gets. cbn [ensure_root_or_owner eu_asset_id from_gateway_update].
  rewrite How, bool_decide_eq_false_2 by done. done.
Qed.

(** ** New instances *)

Lemma announce_run sm body l c c' :
  pallet_inv c -> for_each l (announce sm body) c = (Some (Ok tt), c') ->
  announced (replicate (length (filter (fun e => e.1 <> sm) l)) sm) c c' /\ bank c' = bank c.
Proof.
  revert c; induction l as [|e l IH]; intros c Hc Hrun; cbn [for_each] in Hrun.
  - apply ret_inv in Hrun as [_ <-]. split; [by apply announced_nil|done].
  - apply try_ok_inv in Hrun as ([] & c1 & Hr & Hrun). unfold announce in Hr. rewrite filter_cons.
    case_bool_decide as He.
    + apply ret_inv in Hr as [_ <-]. rewrite decide_False by (by intros []). by apply IH.
    + apply try_ok_inv in Hr as (h & c2 & Hd & Hr). apply ret_inv in Hr as [_ <-].
      apply announced_dispatch in Hd as [Ha Hb]; [|done]. rewrite decide_True by done.
      destruct (IH c2) as [Hl Hb2]; [by destruct Ha|done|]. rewrite Hb2, Hb. split; [|done].
      cbn [length replicate]. by eapply (announced_app [sm]).
Qed.

Lemma set_instances_events updates c :
  exists l c1, map_m set_instance updates c = (Some l, c1) /\ storage c1 = storage c /\ events c1 = events c.
Proof.
  revert c; induction updates as [|e l IH]; intros c; cbn [map_m]; [by exists [], c|].
  destruct (IH (set_instance e c).2) as (l' & c1 & E & E1 & E2).
  exists (tt :: l'), c1. rewrite (bind_some _ _ c tt (set_instance e c).2) by done.
  rewrite (bind_some _ _ _ _ _ E). split; [done|]. by rewrite E1, E2.
Qed.

Lemma announcements_run updates c c' :
  pallet_inv c -> for_each updates (fun e : StateMachine * TokenGatewayParamsUpdate => announce_instance e.1) c = (Some (Ok tt), c') ->
  exists dests, announced dests c c' /\ Forall (fun d => d ∈ updates.*1) dests.
Proof.
  revert c; induction updates as [|e l IH]; intros c Hc Hrun; cbn [for_each] in Hrun.
  - apply ret_inv in Hrun as [_ <-]. exists []. split; [by apply announced_nil|constructor].
  - apply try_ok_inv in Hrun as ([] & c1 & Hr & Hrun). unfold announce_instance in Hr.
    apply bind_inv in Hr as (p & ? & Hp & Hr). apply ask_inv in Hp as [_ ->].
    apply bind_inv in Hr as (i & ? & Hi & Hr). apply or_panic_inv in Hi as [_ ->]. bind_gets Hr.
    apply announce_run in Hr as [Ha _]; [|done].
    destruct (IH c1) as (dests & Hl & Hds); [by destruct Ha|done|].
    eexists. split; [by eapply announced_app|]. apply Forall_app. split.
    + apply Forall_replicate. cbn. left.
    + eapply Forall_impl; [exact Hds|]. intros d Hd. cbn. by right.
Qed.

(** a new gateway is announced to itself alone. When new instances of the token gateway are
    introduced, every request that is dispatched goes to one of the chains the new instances
    are on, addressed to the contracts of the other chains; no other chain is told. *)
Theorem new_instance_misrouted origin updates c c' :
  pallet_inv c -> new_contract_instance origin updates c = (Some (Ok tt), c') ->
  exists evs, events c' = events c ++ evs /\
    Forall (fun e => exists d n h, e = PERequest d HostStateMachine n h /\ d ∈ updates.*1) evs.
Proof.
  intros Hc Hrun. unfold new_contract_instance in Hrun. apply transactional_ok in Hrun.
  step_ret Hrun u Hu. apply try_ok_inv in Hrun as ([] & c1 & Hr & Hrun). apply ret_inv in Hrun as [_ <-].
  unfold add_new_gateway_instance in Hr.
  destruct (set_instances_events updates c) as (l & c2 & E & E1 & E2).
  rewrite (bind_some _ _ _ _ _ E) in Hr.
  apply announcements_run in Hr as (dests & (_ & evs & He & Hev) & Hds).
  - exists evs. rewrite He, E2. split; [done|]. clear -Hev Hds.
    induction Hev as [|d e ds es (n & h & ->) _ IH]; [constructor|].
    apply Forall_cons in Hds as [Hd Hds]. constructor; [by exists d, n, h|by apply IH].
  - unfold pallet_inv in *. by rewrite E1.
Qed.
End properties.

(** * The token governor: ownership

    Over any sequence of calls and requests an asset keeps the owner it was registered for. *)

Section ownership.
Context `{HK : Keccak256} `{HC : Codecs, !HeightKeys, !HeightSort, !ErrorText, !ChildRoot} `{!Codec Leaf}.
Context `{!Codec AssetMetadata, !Codec DeregisterAssets, !Codec RemoteERC6160AssetRegistration}.
Context `{!SolAbi, !Crypto, !GovernorEnv} `{!Codec StateMachine}.
Context {Acc Tree : Type} `{!Currency Acc, !RuntimeAssets Acc}.
Context `{!Mmr Tree, !Config (Apps (Governance Acc)) Tree}.

Abbreviation St := (Chain (Apps (Governance Acc)) Tree).
Implicit Types c : St.

(** ** Operations that leave the owners alone *)

Definition same_owners : relation St := fun c c' => AssetOwners (governance c') = AssetOwners (governance c).

#[local] Instance same_owners_preorder : PreOrder same_owners.
Proof. split; [done|]. intros x y z E1 E2. unfold same_owners in *. congruence. Qed.

Lemma modify_owners f :
  (forall g : Governance Acc, AssetOwners (f g) = AssetOwners g) -> moves same_owners (modify_governance f : M St unit).
Proof.
  intros Hf. unfold modify_governance, modify_app. moves_step. unfold same_owners, governance. cbn. apply Hf.
Qed.

Lemma event_owners e : moves same_owners (governor_event e : M St unit).
Proof. by apply modify_owners. Qed.

Lemma currency_owners x y n : moves same_owners (currency_transfer x y n : M St _).
Proof.
  intros c o c'. unfold currency_transfer. cbn [transfer apps_currency governance_currency result_map].
  by destruct (transfer x y n (gv_accounts (accounts (bank c)))); intros [= _ <-].
Qed.

Lemma write_owners f : moves same_owners (modify_storage f : M St unit).
Proof. unfold modify_storage. moves_solve. done. Qed.
Lemma push_leaf_owners l : moves same_owners (push_leaf l : M St _).
Proof. intros c o c'. unfold push_leaf. destruct (mmr_push l (tree c)) as [[x|] t]; by intros [= _ <-]. Qed.
Lemma deposit_owners e : moves same_owners (deposit_event e : M St unit).
Proof. unfold deposit_event. moves_solve. done. Qed.
Lemma books_owners op : moves same_owners (on_books op : M St _).
Proof. intros c o c'. unfold on_books. by destruct (op _); intros [= _ <-]. Qed.

#[local] Hint Resolve modify_owners event_owners currency_owners write_owners push_leaf_owners
  deposit_owners books_owners : moves.

Lemma dispatch_owners dest to body : moves same_owners (dispatch_governance dest to body : M St _).
Proof.
  unfold dispatch_governance, dispatch_request, collect_fee, make_request, pallet_dispatch_request. moves_solve.
  all: intros c o c' [= _ <-]; done.
Qed.
#[local] Hint Resolve dispatch_owners : moves.

Lemma update_owners u : moves same_owners (update_erc6160_asset_impl u : M St _).
Proof. unfold update_erc6160_asset_impl, add_to_chain, remove_from_chain, change_admin. moves_solve. Qed.

Lemma gateway_params_owners l : moves same_owners (update_gateway_params_impl l : M St _).
Proof. unfold update_gateway_params_impl, update_one_gateway. moves_solve. Qed.

Lemma registrar_params_owners l : moves same_owners (update_registrar_params_impl l : M St _).
Proof. unfold update_registrar_params_impl, update_one_registrar. moves_solve. Qed.

Lemma new_instance_owners l : moves same_owners (add_new_gateway_instance l : M St _).
Proof. unfold add_new_gateway_instance, set_instance, announce_instance, announce. moves_solve. Qed.

Lemma pending_owners r : moves same_owners (accept_pending r : M St _).
Proof. unfold accept_pending. moves_solve. Qed.

Lemma chains_owners id m l : moves same_owners (for_each l (register_on_chain id m) : M St _).
Proof. unfold register_on_chain. moves_solve. Qed.

Lemma erc20_owners id m l : moves same_owners (try_fold_m (register_erc20_on_chain id) m l : M St _).
Proof. unfold register_erc20_on_chain. moves_solve. Qed.

(** ** Operations that add owners *)

Definition owners_grow : relation St := fun c c' => AssetOwners (governance c) ⊆ AssetOwners (governance c').

#[local] Instance owners_grow_preorder : PreOrder owners_grow.
Proof. split; [intros c; unfold owners_grow; done|]. intros x y z. unfold owners_grow. apply transitivity. Qed.

Lemma moves_grow {A} (m : M St A) : moves same_owners m -> moves owners_grow m.
Proof. intros Hm c o c' E. apply Hm in E. unfold same_owners, owners_grow in *. by rewrite E. Qed.

(** A body that leaves the owners alone, guarded by the check that the asset has none, and
    followed by the insertion of its owner. *)
Lemma guarded_registration {A} id who (known : St -> option bytes) (e : GovernorError)
    (body : M St (result GovernorError A)) (fin : A -> Governance Acc -> Governance Acc) :
  (forall c, known c = AssetOwners (governance c) !! id) -> moves same_owners body ->
  (forall a g, AssetOwners (fin a g) = AssetOwners g) ->
  moves owners_grow (
    let* k := gets known in
    let? _ := ensure_not (bool_decide (is_Some k)) e in
    let? a := body in
    let* _ := modify_governance (fin a) in
    let* _ := modify_governance (on_AssetOwners <[id := who]>) in
    ret (Ok tt) : M St (result GovernorError unit)).
Proof.
  intros Hk Hb Hfin c o c'. unfold bind at 1, gets. rewrite Hk.
  destruct (AssetOwners (governance c) !! id) eqn:Eo; [by rewrite bool_decide_eq_true_2 by eauto; intros [= _ <-]|].
  rewrite bool_decide_eq_false_2 by (by intros [? ?]). rewrite (try_ok _ _ c tt c) by done.
  intros [(a & c1 & E & Hrun)|(o1 & E & _)]%try_split; [|by eapply moves_grow in E].
  apply Hb in E. unfold bind, modify_governance, modify_app, modify, ret in Hrun. injection Hrun as _ <-.
  unfold same_owners, owners_grow, governance in *. cbn. rewrite Hfin, E. by apply insert_subseteq.
Qed.

Lemma register_owners asset who : moves owners_grow (register_asset asset who : M St _).
Proof.
  unfold register_asset. apply (guarded_registration _ _ (fun c => AssetOwners (governance c) !! _) _ _ (fun _ => on_AssetMetadatas _)); [done| |done].
  apply chains_owners.
Qed.

Lemma create_erc20_owners asset : moves owners_grow (create_erc20_asset_impl asset : M St _).
Proof.
  unfold create_erc20_asset_impl.
  apply (guarded_registration _ _ (fun c => AssetOwners (governance c) !! _) _ _ (fun m => on_AssetMetadatas _)); [done| |done].
  apply erc20_owners.
Qed.

(** ** Every operation *)

Inductive GovernorOp : Type :=
| GCreate (origin : Origin) (asset : ERC6160AssetRegistration)
| GCreateUnsigned (origin : Origin) (registration : UnsignedERC6160AssetRegistration)
| GUpdateRegistrars (origin : Origin) (update : list (StateMachine * RegistrarParamsUpdate))
| GUpdateGateways (origin : Origin) (update : list (StateMachine * TokenGatewayParamsUpdate))
| GUpdateParams (origin : Origin) (update : ParamsUpdate)
| GUpdate (origin : Origin) (update : ERC6160AssetUpdate)
| GCreateErc20 (origin : Origin) (asset : ERC20AssetRegistration)
| GNewInstance (origin : Origin) (updates : list (StateMachine * TokenGatewayParamsUpdate))
| GDeregisterNative (origin : Origin) (assets : list (StateMachine * list H256))
| GAccept (request : PostRequest)
| GResponse (response : Response)
| GTimeout (timeout : Timeout).

Definition governor_step (op : GovernorOp) c : St :=
  match op with
  | GCreate o a => (governor_create_erc6160_asset o a c).2
  | GCreateUnsigned o r => (create_erc6160_asset_unsigned o r c).2
  | GUpdateRegistrars o u => (update_registrar_params o u c).2
  | GUpdateGateways o u => (update_gateway_params o u c).2
  | GUpdateParams o u => (update_params o u c).2
  | GUpdate o u => (governor_update_erc6160_asset o u c).2
  | GCreateErc20 o a => (create_erc20_asset o a c).2
  | GNewInstance o u => (new_contract_instance o u c).2
  | GDeregisterNative o a => (deregister_standalone_chain_native_assets o a c).2
  | GAccept r => (on_accept governor_module r c).2
  | GResponse r => (on_response governor_module r c).2
  | GTimeout t => (on_timeout governor_module t c).2
  end.

#[local] Hint Resolve register_owners create_erc20_owners : moves.
#[local] Hint Extern 5 (moves owners_grow _) => apply moves_grow : moves.
#[local] Hint Resolve update_owners gateway_params_owners registrar_params_owners new_instance_owners
  pending_owners : moves.

Lemma governor_step_grows op c : owners_grow c (governor_step op c).
Proof.
  assert (Hrun : forall A (m : M St A), moves owners_grow m -> owners_grow c (m c).2).
  { intros A m Hm. exact (Hm c _ _ (surjective_pairing _)). }
  destruct op; apply Hrun; cbn [on_accept on_response on_timeout governor_module].
  - unfold governor_create_erc6160_asset. moves_solve.
  - unfold create_erc6160_asset_unsigned, register_asset_unsigned. moves_solve.
  - unfold update_registrar_params. moves_solve.
  - unfold update_gateway_params. moves_solve.
  - unfold update_params. moves_solve.
  - unfold governor_update_erc6160_asset. moves_solve.
  - unfold create_erc20_asset. moves_solve.
  - unfold new_contract_instance. moves_solve.
  - unfold deregister_standalone_chain_native_assets. moves_solve.
  - unfold governor_on_accept, accept_remote. moves_solve.
  - moves_solve.
  - moves_solve.
Qed.

(** an asset never changes hands. Whatever calls are made, by whom and with what outcome,
    and whatever requests, responses and timeouts are delivered, an asset that is registered
    keeps its owner: registering it again, unsigned or from another chain, updating it and
    deregistering it as a native asset all leave its owner in place. *)
Theorem owners_permanent ops c id who :
  AssetOwners (governance c) !! id = Some who ->
  AssetOwners (governance (foldl (fun c op => governor_step op c) c ops)) !! id = Some who.
Proof.
  revert c; induction ops as [|op ops IH]; intros c How; cbn [foldl]; [done|].
  apply IH. eapply lookup_weaken; [exact How|]. apply governor_step_grows.
Qed.
End ownership.
