(* ===== verification/Nexus.v ===== *)
(** * The modules of hyperbridge: inspector, XCM gateway, proxy

    [pallets/token-gateway-inspector/src/lib.rs], which watches the transfers relayed by
    hyperbridge; [pallets/asset-gateway/src/{lib, xcm_utilities}.rs], which turns XCM transfers
    of DOT into transfers of the token gateway and back; and the [ProxyModule] of
    [runtimes/nexus/src/ismp.rs], through which every message of hyperbridge passes. *)

From S2P Require Import Prelude StateMachine Router Messaging Host Handlers ChildTrie PalletTypes PalletHost Pallet Apps Hyperbridge Relayer TokenGateway Governor.

(** ** Library code

    [Permill * u128], the default of [Params] and the account of the XCM gateway; the matcher
    of XCM assets, whose errors are texts. *)
Class XcmEnv : Type := {
  permill_mul : Z -> Z -> Z;
  default_fee_percentage : Z;
  xcm_account : bytes;
  matches_fungibles : bytes -> result bytes (H256 * Z)
}.

Inductive XcmError : Type :=
| FailedToTransactAsset (text : bytes)
| MatchFailed (text : bytes)
| AccountIdConversionFailed.

(** The parties of an XCM transfer that leaves through the token gateway. *)
Record MultiAccount : Type := mkMultiAccount {
  ma_substrate_account : bytes;
  ma_evm_account : H160;
  ma_dest_state_machine : StateMachine;
  ma_timeout : Z
}.

(** [chain_id as u32] *)
Definition state_machine_of_network (n : NetworkId) : option StateMachine :=
  match n with NetEthereum chain_id => Some (Evm (chain_id mod 2 ^ 32)) | NetOther => None end.

(** [convert_location]: a sender, a recipient and a timeout, cut to 64 bits. *)
Definition convert_location (l : Location) : option MultiAccount :=
  match loc_parents l, loc_interior l with
  | 0, [AccountId32 account; AccountKey20 (Some network) key; GeneralIndex timeout] =>
      dest ← state_machine_of_network network;
      Some (mkMultiAccount account key dest (wrap64 timeout))
  | _, _ => None
  end.

(** Two DOT, to cover expensive consensus messages. *)
Definition base_fee (dest : StateMachine) : Z :=
  if bool_decide (dest = Evm 1) then 20000000000 else 0.

#[export] Instance ModuleId_eq : EqDecision ModuleId.
Proof. solve_decision. Defined.

Section nexus.
Context `{HK : Keccak256} `{HC : Codecs, !HeightSort, !ErrorText, !ChildRoot} `{!Codec Leaf}.
Context `{!Codec AssetMetadata, !Codec DeregisterAssets, !Codec RemoteERC6160AssetRegistration, !BodyAbi}.
Context `{!SolAbi, !Crypto, !GovernorEnv, !XcmEnv} `{!Codec StateMachine, !Codec Location}.
Context {Acc Tree : Type} `{!Currency Acc, !RuntimeAssets Acc}.
Context `{!Mmr Tree, !Config (Apps (Governance Acc)) Tree}.

Abbreviation St := (Chain (Apps (Governance Acc)) Tree).

(** ** The inspector *)

(** Anything that decodes as a transfer; an empty body panics. *)
Definition is_token_gateway_request (body : bytes) : option (option Body) :=
  abi_decode_body <$> body_tail body.

Definition inflow_of (chain : StateMachine) (asset : H256) (c : St) : Z :=
  default 0 (InflowBalances (governance c) !! (chain, asset)).

(** [*val += amount] and [*val -= amount] panic out of range. *)
Definition add_inflow (chain : StateMachine) (asset : H256) (amount : Z) : M St unit :=
  let* v := gets (inflow_of chain asset) in
  let* v' := or_panic (u256_add v amount) in
  modify_governance (on_InflowBalances <[(chain, asset) := v']>).
Definition sub_inflow (chain : StateMachine) (asset : H256) (amount : Z) : M St unit :=
  let* v := gets (inflow_of chain asset) in
  let* v' := or_panic (if amount <=? v then Some (v - amount) else None) in
  modify_governance (on_InflowBalances <[(chain, asset) := v']>).

Definition is_native (chain : StateMachine) (asset : H256) (c : St) : bool :=
  default false (StandaloneChainAssets (governance c) !! (chain, asset)).

(** The event of an illegal request comes after the return. *)
Definition inspect_request (post : PostRequest) : M St (result Error unit) :=
  let source := post_source post in
  let dest := post_dest post in
  if is_evm source && is_evm dest then ret (Ok tt)
  else
    let* transfer := or_panic (is_token_gateway_request (post_body post)) in
    match transfer with
    | None => ret (Ok tt)
    | Some body =>
        let* _ := if is_evm dest then ret tt else add_inflow dest (body_asset_id body) (body_amount body) in
        let* native := gets (is_native source (body_asset_id body)) in
        if negb native && negb (is_evm source) then
          let* balance := gets (inflow_of source (body_asset_id body)) in
          let? _ := ensure_not (balance <? body_amount body) (Custom (lit "Illegal Token Gateway request")) in
          let* _ := sub_inflow source (body_asset_id body) (body_amount body) in
          ret (Ok tt)
        else ret (Ok tt)
    end.

Definition handle_timeout (post : PostRequest) : M St (result Error unit) :=
  let source := post_source post in
  let dest := post_dest post in
  if is_evm source && is_evm dest then ret (Ok tt)
  else
    let* transfer := or_panic (is_token_gateway_request (post_body post)) in
    match transfer with
    | None => ret (Ok tt)
    | Some body =>
        let* native := gets (is_native source (body_asset_id body)) in
        let* _ := if negb native && negb (is_evm source)
                  then add_inflow source (body_asset_id body) (body_amount body) else ret tt in
        let* _ := if is_evm dest then ret tt else sub_inflow dest (body_asset_id body) (body_amount body) in
        ret (Ok tt)
    end.

(** ** The XCM gateway *)

Definition xcm_event (e : XcmEvent) : M St unit := modify_governance (on_xcm_events (fun es => es ++ [e])).

Definition token_gateway_address (chain : StateMachine) (c : St) : H160 :=
  default zero_address (gp_address <$> TokenGatewayParams (governance c) !! chain).

Definition protocol_fee_percentage (c : St) : Z := default default_fee_percentage (xcm_Params (governance c)).

Definition dot_asset_id : H256 := keccak256 (lit "DOT").

Definition set_params (origin : Origin) (update : option Z) : M St (result (CallError unit) unit) := transactional (
  let? _ := ret (call_admin origin) in
  let* current := gets protocol_fee_percentage in
  let* _ := modify_governance (on_xcm_Params (fun _ => Some (default current update))) in
  ret (Ok tt)).

(** [ConvertAssetId]: the identifier of a location is its hash, noted on first use. *)
Definition convert_asset_id (l : Location) : M St H256 :=
  let asset_id := keccak256 (encode l) in
  let* known := gets (fun c => xcm_AssetIds (governance c) !! asset_id) in
  let* _ := (if bool_decide (is_Some known) then ret tt
             else modify_governance (on_xcm_AssetIds <[asset_id := l]>)) in
  ret asset_id.
Definition convert_asset_back (id : H256) (c : St) : option Location := xcm_AssetIds (governance c) !! id.

(** An address padded to 32 bytes. *)
Definition padded (address : H160) : H256 := replicate 12 Byte.x00 ++ address.

Definition xcm_dispatch_request (account : MultiAccount) (amount : Z) : M St (result bytes unit) :=
  let* erc_amount := or_panic (convert_to_erc20 amount 18 10) in
  let body := mkBody erc_amount dot_asset_id false (ma_substrate_account account)
      (padded (ma_evm_account account)) in
  let* address := gets (token_gateway_address (ma_dest_state_machine account)) in
  let* dispatched := dispatch_request (DispatchPostRequest (mkDispatchPost (ma_dest_state_machine account)
      address address (ma_timeout account) (Byte.x00 :: abi_encode_body body)))
      (mkFeeMetadata (ma_substrate_account account) 0) in
  let? commitment := ret (map_err (fun _ => lit "DispatchPostError") dispatched) in
  let* _ := xcm_event (XcmAssetTeleported (ma_substrate_account account) (ma_evm_account account) amount
      (ma_dest_state_machine account) commitment) in
  ret (Ok tt).

#[local] Instance From_xcm : From bytes XcmError := FailedToTransactAsset.

(** [deposit_asset]: the fees of the protocol and the rest are minted, and the rest leaves.
    The sums wrap around in a release build. *)
Definition deposit_asset (what : bytes) (who : Location) : M St (result XcmError unit) :=
  let? (asset_id, amount) := ret (map_err MatchFailed (matches_fungibles what)) in
  match convert_location who with
  | None => ret (Err AccountIdConversionFailed)
  | Some account =>
      let* percentage := gets protocol_fee_percentage in
      let fees := wrap128 (permill_mul percentage amount + base_fee (ma_dest_state_machine account)) in
      let remainder := wrap128 (amount - fees) in
      let? _ := on_books (mint_into asset_id treasury_account fees) in
      let? _ := on_books (mint_into asset_id xcm_account remainder) in
      let? _ := xcm_dispatch_request account remainder in
      ret (Ok tt)
  end.

(** The body of a transfer, in DOT. *)
Definition xcm_body (request : PostRequest) : M St (result AnyError Body) :=
  let* tail := or_panic (body_tail (post_body request)) in
  let? body := ret (ok_or (abi_decode_body tail)
      (gateway_failure (lit "Token Gateway: Failed to decode request body") request)) in
  ret (Ok body).

Definition xcm_amount (request : PostRequest) (body : Body) : M St (result AnyError Z) :=
  let* amount := or_panic (convert_to_balance (body_amount body) 18 10) in
  let? amount := ret (map_err (fun _ =>
      gateway_failure (lit "Token Gateway: Trying to withdraw Invalid amount") request) amount) in
  ret (Ok amount).

(** A reserve transfer of DOT to an account of the relay chain. *)
Definition xcm_send (request : PostRequest) (text beneficiary : bytes) (amount : Z) :
    M St (result AnyError unit) :=
  let* r := on_books (limited_reserve_transfer_assets xcm_account beneficiary amount) in
  let? _ := ret (map_err (fun _ => gateway_failure text request) r) in
  ret (Ok tt).

Definition xcm_on_accept (post : PostRequest) : M St (result AnyError unit) :=
  let* address := gets (token_gateway_address (post_source post)) in
  let? _ := ensure_not (negb (bool_decide (post_from post = address)))
      (gateway_failure (lit "Token Gateway: Unknown source contract address") post) in
  let? _ := ensure_not (is_substrate (post_source post))
      (gateway_failure (lit "Token Gateway: Illegal source chain") post) in
  let? body := xcm_body post in
  let? _ := ensure_not (negb (bool_decide (body_asset_id body = dot_asset_id)))
      (gateway_failure (lit "Token Gateway: AssetId is unknown") post) in
  let? amount := xcm_amount post body in
  let? _ := xcm_send post (lit "Token Gateway: Failed execute xcm to relay chain") (body_to body) amount in
  let* _ := xcm_event (XcmAssetReceived (body_to body) amount (post_source post)) in
  ret (Ok tt).

Definition xcm_on_timeout (timeout : Timeout) : M St (result AnyError unit) :=
  match timeout with
  | TimeoutRequest (RequestPost post) =>
      let* commitment := or_panic (hash_request (RequestPost post)) in
      let? meta := gets (fun c => ok_or (RequestCommitments.get commitment (st_child (storage c)))
          (gateway_failure (lit "Token Gateway: Fee metadata could not be found for request") post)) in
      let beneficiary := fm_payer (rmeta_fee meta) in
      let? body := xcm_body post in
      let? amount := xcm_amount post body in
      let? _ := xcm_send post (lit "Token Gateway: Failed to execute xcm to relay chain") beneficiary amount in
      let* _ := xcm_event (XcmAssetRefunded beneficiary amount (post_dest post)) in
      ret (Ok tt)
  | TimeoutRequest (RequestGet get) =>
      ret (Err (IsmpError (ModuleDispatchError (lit "Tried to timeout unsupported request type")
        (mkMeta (get_source get) (get_dest get) (get_nonce get)))))
  | TimeoutResponse response =>
      ret (Err (IsmpError (ModuleDispatchError (lit "Tried to timeout unsupported request type")
        (mkMeta (pr_source_chain response) (pr_dest_chain response) (pr_nonce response)))))
  end.

Definition xcm_on_response (response : Response) : M St (result AnyError unit) :=
  ret (Err (IsmpError (ModuleDispatchError (lit "Token Gateway does not accept responses")
    (mkMeta (response_source_chain response) (response_dest_chain response) (response_nonce response))))).

Definition xcm_module : IsmpModule St := {|
  on_accept := xcm_on_accept;
  on_response := xcm_on_response;
  on_timeout := xcm_on_timeout
|}.

(** ** The proxy *)

Definition free_of_charge : FeeMetadata bytes Z := no_payer.

Definition module_id (raw : bytes) : result Error ModuleId := map_err Custom (module_from_bytes raw).

Definition proxy_on_accept (request : PostRequest) : M St (result AnyError unit) :=
  if negb (bool_decide (post_dest request = HostStateMachine)) then
    let? _ := inspect_request request in
    let? _ := pallet_dispatch_request (RequestPost request) free_of_charge in
    ret (Ok tt)
  else
    let? pallet_id := ret (module_id (post_to request)) in
    let* gateway := gets (token_gateway_address (post_source request)) in
    if bool_decide (pallet_id = ModuleEvm gateway) then xcm_on_accept request
    else if bool_decide (pallet_id = ModulePallet REGISTRY) then governor_on_accept request
    else ret (Err (AnyMessage (lit "Destination module not found"))).

Definition proxy_on_response (response : Response) : M St (result AnyError unit) :=
  if negb (bool_decide (response_dest_chain response = HostStateMachine)) then
    let? _ := pallet_dispatch_response response free_of_charge in
    ret (Ok tt)
  else ret (Err (AnyMessage (lit "Destination module not found"))).

(** The module a timeout goes to, and the chain whose gateway it may concern. *)
Definition timeout_parties (timeout : Timeout) : bytes * StateMachine :=
  match timeout with
  | TimeoutRequest (RequestPost post) => (post_from post, post_dest post)
  | TimeoutRequest (RequestGet get) => (get_from get, get_dest get)
  | TimeoutResponse res => (post_to (pr_post res), post_dest (pr_post res))
  end.

Definition proxy_on_timeout (timeout : Timeout) : M St (result AnyError unit) :=
  let? _ := match timeout with
            | TimeoutRequest (RequestPost post) =>
                if negb (bool_decide (post_source post = HostStateMachine)) then handle_timeout post
                else ret (Ok tt)
            | _ => ret (Ok tt)
            end in
  let? pallet_id := ret (module_id (timeout_parties timeout).1) in
  let* gateway := gets (token_gateway_address (timeout_parties timeout).2) in
  if bool_decide (pallet_id = ModuleEvm gateway) then xcm_on_timeout timeout
  else ret (Ok tt).

Definition ProxyModule : IsmpModule St := {|
  on_accept := proxy_on_accept;
  on_response := proxy_on_response;
  on_timeout := proxy_on_timeout
|}.

(** [module_for_id]: every module is behind the proxy. *)
Definition nexus_router : IsmpRouter St := fun _ => Ok ProxyModule.

End nexus.
