(* ===== verification/NexusProps.v ===== *)
(** * The modules of hyperbridge: theorems

    What the inspector lets through and what it books, how the proxy routes messages, and what
    becomes of transfers of the XCM gateway that time out. *)

From S2P Require Import Prelude StateMachine Router Messaging Host Handlers HostSpec Frame ChildTrie PalletTypes PalletHost PalletRefines Pallet PalletFrames PalletProps Apps Hyperbridge Relayer TokenGateway TokenGatewayProps Governor Nexus.

Section inspector.
Context `{HK : Keccak256} `{HC : Codecs, !HeightKeys, !HeightSort, !ErrorText, !ChildRoot} `{!Codec Leaf}.
Context `{!Codec AssetMetadata, !Codec DeregisterAssets, !Codec RemoteERC6160AssetRegistration, !BodyAbi}.
Context `{!SolAbi, !Crypto, !GovernorEnv, !XcmEnv} `{!Codec StateMachine, !Codec Location}.
Context {Acc Tree : Type} `{!Currency Acc, !RuntimeAssets Acc}.
Context `{!Mmr Tree, !Config (Apps (Governance Acc)) Tree}.

Abbreviation St := (Chain (Apps (Governance Acc)) Tree).
Implicit Types c : St.

(** ** Booking *)

(** Compare the keys of the books. *)
#[local] Ltac book_cases := repeat case_decide; simplify_eq; first [lia|exfalso; congruence].

(** The chain with other inflow balances. *)
Definition with_inflows (f : gmap (StateMachine * H256) Z -> gmap (StateMachine * H256) Z) c : St :=
  upd_bank (fun k => set_governance (on_InflowBalances f (accounts k)) k) c.

(** [d] more of [asset] on [chain]. *)
Definition booked (chain : StateMachine) (asset : H256) (d : Z) c : St :=
  with_inflows <[(chain, asset) := inflow_of chain asset c + d]> c.

Lemma add_inflow_run chain asset n c :
  add_inflow chain asset n c
  = if inflow_of chain asset c + n <=? u256_max then (Some tt, booked chain asset n c) else (None, c).
Proof. unfold add_inflow, bind, gets, u256_add. by destruct (_ <=? u256_max). Qed.

Lemma sub_inflow_run chain asset n c :
  sub_inflow chain asset n c
  = if n <=? inflow_of chain asset c then (Some tt, booked chain asset (- n) c) else (None, c).
Proof. unfold sub_inflow, bind, gets. by destruct (n <=? _). Qed.

Lemma inflow_booked chain asset d c chain' asset' :
  inflow_of chain' asset' (booked chain asset d c)
  = inflow_of chain' asset' c + (if decide ((chain, asset) = (chain', asset')) then d else 0).
Proof.
  unfold inflow_of at 1, booked, with_inflows, governance. cbn.
  case_decide as E; [injection E as <- <-; by rewrite lookup_insert_eq|].
  rewrite lookup_insert_ne by done. unfold inflow_of, governance. lia.
Qed.

Lemma native_booked chain asset d c chain' asset' :
  is_native chain' asset' (booked chain asset d c) = is_native chain' asset' c.
Proof. done. Qed.

(** ** Inspection *)

(** The transfer a request carries. *)
Definition transfer_in (post : PostRequest) (b : Body) : Prop := request_body post = Some b.

(** What is booked for the destination, before anything is checked. *)
Definition credited (post : PostRequest) (b : Body) c : St :=
  if is_evm (post_dest post) then c else booked (post_dest post) (body_asset_id b) (body_amount b) c.

(** The sources whose transfers must be covered by what they have received. *)
Definition accountable (post : PostRequest) (b : Body) c : bool :=
  negb (is_native (post_source post) (body_asset_id b) c) && negb (is_evm (post_source post)).

Lemma native_credited post b c x asset : is_native x asset (credited post b c) = is_native x asset c.
Proof. unfold credited. destruct (is_evm (post_dest post)); [done|apply native_booked]. Qed.

Lemma inspect_run post b c :
  is_evm (post_source post) && is_evm (post_dest post) = false -> transfer_in post b ->
  is_evm (post_dest post) = true \/ inflow_of (post_dest post) (body_asset_id b) c + body_amount b <= u256_max ->
  inspect_request post c =
    if accountable post b c then
      if body_amount b <=? inflow_of (post_source post) (body_asset_id b) (credited post b c)
      then (Some (Ok tt), booked (post_source post) (body_asset_id b) (- body_amount b) (credited post b c))
      else (Some (Err (Custom (lit "Illegal Token Gateway request"))), credited post b c)
    else (Some (Ok tt), credited post b c).
Proof.
  intros Hevm Hb Hov. unfold inspect_request. rewrite Hevm. unfold transfer_in, request_body in Hb.
  apply bind_Some in Hb as (t & Ht & Hb). unfold is_token_gateway_request. rewrite Ht. cbn [fmap option_fmap option_map].
  rewrite Hb. unfold bind at 1. cbn [or_panic ret].
  assert (Hc : (if is_evm (post_dest post) then ret tt
                else add_inflow (post_dest post) (body_asset_id b) (body_amount b)) c = (Some tt, credited post b c)).
  { unfold credited. destruct (is_evm (post_dest post)); [done|]. destruct Hov as [|Hov]; [done|].
    rewrite add_inflow_run. by destruct (Z.leb_spec (inflow_of (post_dest post) (body_asset_id b) c + body_amount b) u256_max); [|lia]. }
  rewrite (bind_some _ _ _ _ _ Hc). unfold bind at 1, gets at 1.
  rewrite native_credited.
  fold (accountable post b c). destruct (accountable post b c); [|done].
  unfold bind at 1, gets at 1. rewrite Z.ltb_antisym.
  destruct (body_amount b <=? _) eqn:Ele; cbn [negb]; [|done].
  rewrite (try_ok _ _ _ tt (credited post b c)) by done.
  unfold bind. rewrite sub_inflow_run, Ele. done.
Qed.

(** What inspection does to the books, and when it refuses. *)
Lemma inspect_books post b c o c' :
  is_evm (post_source post) && is_evm (post_dest post) = false -> transfer_in post b ->
  is_evm (post_dest post) = true \/ inflow_of (post_dest post) (body_asset_id b) c + body_amount b <= u256_max ->
  inspect_request post c = (o, c') ->
  let s := post_source post in
  let d := post_dest post in
  let n := body_amount b in
  let gain := fun x => if decide (x = d) then (if is_evm d then 0 else n) else 0 in
  let covered := negb (accountable post b c) || (n <=? inflow_of s (body_asset_id b) c + gain s) in
  (o = Some (Ok tt) <-> covered = true) /\
  (covered = false -> o = Some (Err (Custom (lit "Illegal Token Gateway request")))) /\
  forall x asset, inflow_of x asset c' = inflow_of x asset c +
    (if decide (asset = body_asset_id b) then
       gain x - (if decide (x = s) then (if accountable post b c && covered then n else 0) else 0)
     else 0).
Proof.
  intros Hevm Hb Hov Hrun. cbv zeta. rewrite (inspect_run post b c Hevm Hb Hov) in Hrun.
  assert (Hcr : forall x asset, inflow_of x asset (credited post b c) = inflow_of x asset c +
      (if decide (asset = body_asset_id b) then
         (if decide (x = post_dest post) then (if is_evm (post_dest post) then 0 else body_amount b) else 0) else 0)).
  { intros x asset. unfold credited. destruct (is_evm (post_dest post)).
    - book_cases.
    - rewrite inflow_booked. book_cases. }
  rewrite Hcr in Hrun. rewrite decide_True in Hrun by done.
  destruct (accountable post b c); cbn [negb orb andb].
  - destruct (body_amount b <=? _) eqn:Ele; injection Hrun as <- <-.
    + split; [done|]. split; [done|]. intros x asset. rewrite inflow_booked, Hcr.
      book_cases.
    + split; [done|]. split; [done|]. intros x asset. rewrite Hcr. book_cases.
  - injection Hrun as <- <-. split; [done|]. split; [done|]. intros x asset. rewrite Hcr.
    book_cases.
Qed.

(** the inspector keeps books on transfers, and books before it checks. A request whose
    body decodes as a transfer is inspected unless both chains are EVM chains. The amount is
    first added to what the destination has received, unless it is an EVM chain. Then, unless
    the source is an EVM chain or the asset is native to it, the source must have received
    enough: if it has, the amount is taken from its balance and the request passes; if it has
    not, the request is refused, yet the destination keeps the credit. Neither the sender nor
    the recipient of the request is looked at. *)
Theorem inspector_books post b c o c' :
  is_evm (post_source post) && is_evm (post_dest post) = false -> transfer_in post b ->
  is_evm (post_dest post) = true \/ inflow_of (post_dest post) (body_asset_id b) c + body_amount b <= u256_max ->
  inspect_request post c = (o, c') ->
  let s := post_source post in
  let d := post_dest post in
  let n := body_amount b in
  let gain := fun x => if decide (x = d) then (if is_evm d then 0 else n) else 0 in
  let covered := negb (accountable post b c) || (n <=? inflow_of s (body_asset_id b) c + gain s) in
  (o = Some (Ok tt) <-> covered = true) /\
  (covered = false -> o = Some (Err (Custom (lit "Illegal Token Gateway request")))) /\
  forall x asset, inflow_of x asset c' = inflow_of x asset c +
    (if decide (asset = body_asset_id b) then
       gain x - (if decide (x = s) then (if accountable post b c && covered then n else 0) else 0)
     else 0).
Proof. apply inspect_books. Qed.

(** a refused transfer pays for the next one. When a transfer from one chain to another is
    refused because its source has not received enough, the credit it leaves with its
    destination lets a transfer of the same asset and at most the same amount pass from there to
    an EVM chain, although nothing has ever arrived: two chains together evade the inspector. *)
Theorem refused_transfer_covers_next p1 p2 b1 b2 c c1 e :
  transfer_in p1 b1 -> transfer_in p2 b2 -> body_asset_id b1 = body_asset_id b2 ->
  post_dest p1 = post_source p2 -> is_evm (post_source p2) = false -> is_evm (post_dest p2) = true ->
  0 <= inflow_of (post_source p2) (body_asset_id b2) c -> body_amount b2 <= body_amount b1 ->
  inflow_of (post_source p2) (body_asset_id b2) c + body_amount b1 <= u256_max ->
  post_dest p1 <> HostStateMachine ->
  inspect_request p1 c = (Some (Err e), c1) ->
  (exists e', on_accept ProxyModule p1 c = (Some (Err e'), c1)) /\
  exists c2, inspect_request p2 c1 = (Some (Ok tt), c2).
Proof.
  intros T1 T2 Ha Hd Hs He Hnn Hle Hov Hh Hrun. split.
  { exists (IsmpError e). cbn [on_accept ProxyModule]. unfold proxy_on_accept.
    rewrite bool_decide_eq_false_2 by done. cbn [negb]. by rewrite (try_err _ _ _ _ _ Hrun). }
  assert (Hc1 : c1 = credited p1 b1 c).
  { rewrite (inspect_run p1 b1 c) in Hrun; [| |done|].
    - destruct (accountable p1 b1 c); [destruct (_ <=? _)|]; congruence.
    - by rewrite Hd, Hs, andb_false_r.
    - right. by rewrite Hd, Ha. }
  assert (Hin : inflow_of (post_source p2) (body_asset_id b2) c1
    = inflow_of (post_source p2) (body_asset_id b2) c + body_amount b1).
  { rewrite Hc1. unfold credited. rewrite Hd, Hs, inflow_booked, Ha, decide_True by done. done. }
  rewrite (inspect_run p2 b2 c1); [|by rewrite Hs|done|by left].
  replace (credited p2 b2 c1) with c1 by (unfold credited; by rewrite He).
  destruct (accountable p2 b2 c1); [|eauto]. rewrite Hin.
  destruct (Z.leb_spec (body_amount b2) (inflow_of (post_source p2) (body_asset_id b2) c + body_amount b1)); [eauto|lia].
Qed.

(** an empty body stops the relay. A request with an empty body, unless it goes from one EVM
    chain to another, makes the proxy panic on its way through hyperbridge, and again when it
    times out: it can be neither delivered nor refunded. *)
Theorem empty_body_panics post c :
  post_body post = [] -> is_evm (post_source post) && is_evm (post_dest post) = false ->
  (post_dest post <> HostStateMachine -> (on_accept ProxyModule post c).1 = None) /\
  (post_source post <> HostStateMachine ->
   (on_timeout ProxyModule (TimeoutRequest (RequestPost post)) c).1 = None).
Proof.
  intros Hb Hevm. cbn [on_accept on_timeout ProxyModule]. unfold proxy_on_accept, proxy_on_timeout. split.
  - intros Hd. rewrite bool_decide_eq_false_2 by done. cbn [negb].
    unfold inspect_request, is_token_gateway_request. by rewrite Hevm, Hb.
  - intros Hs. rewrite bool_decide_eq_false_2 by done. cbn [negb].
    unfold handle_timeout, is_token_gateway_request. by rewrite Hevm, Hb.
Qed.

(** ** Totals *)

(** What inspecting a request adds to and takes from the balance of [asset] on [x]. *)
Definition credit (x : StateMachine) (asset : H256) (post : PostRequest) c : Z :=
  match (inspect_request post c).1, request_body post with
  | Some _, Some b =>
      if decide (post_dest post = x /\ body_asset_id b = asset) then
        if is_evm x then 0 else body_amount b
      else 0
  | _, _ => 0
  end.
Definition debit (x : StateMachine) (asset : H256) (post : PostRequest) c : Z :=
  match (inspect_request post c).1, request_body post with
  | Some (Ok _), Some b =>
      if decide (post_source post = x /\ body_asset_id b = asset) then
        if accountable post b c then body_amount b else 0
      else 0
  | _, _ => 0
  end.

Lemma evm_accountable post b c : is_evm (post_source post) = true -> accountable post b c = false.
Proof. unfold accountable. intros ->. by rewrite andb_false_r. Qed.

(** A request with nothing to inspect changes nothing. *)
Lemma inspect_other post c :
  is_evm (post_source post) && is_evm (post_dest post) = true \/ request_body post = None ->
  (inspect_request post c).2 = c.
Proof.
  unfold inspect_request. destruct (_ && _); [done|]. intros [?|Hb]; [done|].
  unfold request_body in Hb. unfold is_token_gateway_request.
  destruct (body_tail (post_body post)) as [t|]; [|done]. cbn in Hb |- *. by rewrite Hb.
Qed.

(** A transfer that would overflow the books panics before they change. *)
Lemma inspect_overflow post b c :
  is_evm (post_source post) && is_evm (post_dest post) = false -> transfer_in post b ->
  is_evm (post_dest post) = false -> u256_max < inflow_of (post_dest post) (body_asset_id b) c + body_amount b ->
  inspect_request post c = (None, c).
Proof.
  intros Hevm Hb Hd Hov. unfold inspect_request. rewrite Hevm. unfold transfer_in, request_body in Hb.
  apply bind_Some in Hb as (t & Ht & Hb). unfold is_token_gateway_request. rewrite Ht. cbn [fmap option_fmap option_map].
  rewrite Hb, Hd. unfold bind at 1 2. cbn [or_panic ret]. rewrite add_inflow_run.
  by destruct (Z.leb_spec (inflow_of (post_dest post) (body_asset_id b) c + body_amount b) u256_max); [lia|].
Qed.

Lemma inspect_step x asset post c :
  is_evm x = false ->
  inflow_of x asset (inspect_request post c).2 = inflow_of x asset c + credit x asset post c - debit x asset post c /\
  (debit x asset post c <= inflow_of x asset c + credit x asset post c \/ debit x asset post c = 0).
Proof.
  intros Hx. unfold credit, debit.
  destruct (is_evm (post_source post) && is_evm (post_dest post)) eqn:Hevm.
  { rewrite inspect_other by auto. apply andb_true_iff in Hevm as [E1 E2].
    destruct (inspect_request post c).1 as [[]|], (request_body post) as [b|];
      rewrite ?(evm_accountable _ _ _ E1); repeat case_decide; destruct_and?; subst;
      rewrite ?Hx in *; try discriminate; split; (lia || by right). }
  destruct (request_body post) as [b|] eqn:Hb.
  2: { rewrite inspect_other by auto. destruct (inspect_request post c).1 as [[]|]; split; (lia || by right). }
  assert (Hov : (is_evm (post_dest post) = true \/
      inflow_of (post_dest post) (body_asset_id b) c + body_amount b <= u256_max) \/
    (is_evm (post_dest post) = false /\ u256_max < inflow_of (post_dest post) (body_asset_id b) c + body_amount b)).
  { destruct (is_evm (post_dest post)); [by left; left|].
    destruct (Z.le_gt_cases (inflow_of (post_dest post) (body_asset_id b) c + body_amount b) u256_max); [by left; right|by right]. }
  destruct Hov as [Hov|[Hd Hov]].
  2: { rewrite (inspect_overflow post b c) by done. split; [cbn; lia|by right]. }
  destruct (inspect_request post c) as [o c'] eqn:E.
  destruct (inspect_books post b c o c' Hevm Hb Hov E) as (Ho & He & Hin). cbn [fst snd]. rewrite Hin.
  destruct (negb (accountable post b c) || _) eqn:Hcov; [destruct Ho as [_ Ho]; rewrite Ho by done|rewrite He by done].
  - destruct (accountable post b c) eqn:Hacc; cbn [negb orb andb] in *;
      [apply Z.leb_le in Hcov; revert Hcov|]; clear -Hx;
      generalize (post_source post) as s', (post_dest post) as d', (body_asset_id b) as a', (body_amount b) as n';
      intros; repeat case_decide; destruct_and?; subst; rewrite ?Hx in *; try tauto; split; (lia || by right).
  - rewrite andb_false_r. clear -Hx. generalize (post_source post) as s', (post_dest post) as d', (body_asset_id b) as a'.
    intros. repeat case_decide; destruct_and?; subst; rewrite ?Hx in *; try tauto; split; (lia || by right).
Qed.

Fixpoint inspected (posts : list PostRequest) c : St :=
  match posts with [] => c | p :: r => inspected r (inspect_request p c).2 end.
Fixpoint total (f : PostRequest -> St -> Z) (posts : list PostRequest) c : Z :=
  match posts with [] => 0 | p :: r => f p c + total f r (inspect_request p c).2 end.

Lemma totals_balance x asset posts c :
  is_evm x = false ->
  inflow_of x asset (inspected posts c)
  = inflow_of x asset c + total (credit x asset) posts c - total (debit x asset) posts c /\
  (0 <= inflow_of x asset c -> Forall (fun p => forall b, request_body p = Some b -> 0 <= body_amount b) posts ->
   0 <= inflow_of x asset (inspected posts c)).
Proof.
  intros Hx. revert c; induction posts as [|p r IH]; intros c; cbn [inspected total]; [split; [lia|done]|].
  destruct (inspect_step x asset p c Hx) as [Hs Hd]. destruct (IH (inspect_request p c).2) as [E1 E2].
  split; [lia|]. intros H0' Hb%Forall_cons. destruct Hb as [Hb Hr]. apply E2; [|done].
  assert (0 <= credit x asset p c).
  { unfold credit. destruct (inspect_request p c).1; [|lia]. destruct (request_body p) as [b|] eqn:Eb; [|lia].
    specialize (Hb b eq_refl). repeat case_match; lia. }
  lia.
Qed.

(** C31: no chain sends on more than it was credited. For every chain that is not an EVM chain
    and every asset, over any sequence of inspected requests, the balance of the books is what it
    was, plus the credits of all transfers to the chain, minus the debits of the transfers that
    passed from it; it never becomes negative, so that what has passed from the chain, of an asset
    that is not its own, is at most what it had and was credited. The code credits a transfer
    before it is checked, so the credits include those of transfers that were then refused
    ([refused_transfer_covers_next]). *)
Theorem inspector_balances x asset posts c :
  is_evm x = false -> 0 <= inflow_of x asset c ->
  Forall (fun p => forall b, request_body p = Some b -> 0 <= body_amount b) posts ->
  inflow_of x asset (inspected posts c)
  = inflow_of x asset c + total (credit x asset) posts c - total (debit x asset) posts c /\
  total (debit x asset) posts c <= inflow_of x asset c + total (credit x asset) posts c.
Proof.
  intros Hx H0' Hb. destruct (totals_balance x asset posts c Hx) as [E1 E2].
  specialize (E2 H0' Hb). split; [done|lia].
Qed.

(** ** Timeouts *)

Lemma handle_timeout_run post b c :
  is_evm (post_source post) && is_evm (post_dest post) = false -> transfer_in post b ->
  let c1 := if accountable post b c then booked (post_source post) (body_asset_id b) (body_amount b) c else c in
  (accountable post b c = true -> inflow_of (post_source post) (body_asset_id b) c + body_amount b <= u256_max) ->
  (is_evm (post_dest post) = false -> body_amount b <= inflow_of (post_dest post) (body_asset_id b) c1) ->
  handle_timeout post c = (Some (Ok tt),
    if is_evm (post_dest post) then c1 else booked (post_dest post) (body_asset_id b) (- body_amount b) c1).
Proof.
  intros Hevm Hb. cbv zeta. intros Hov Hle. unfold handle_timeout. rewrite Hevm. unfold transfer_in, request_body in Hb.
  apply bind_Some in Hb as (t & Ht & Hb). unfold is_token_gateway_request. rewrite Ht. cbn [fmap option_fmap option_map].
  rewrite Hb. unfold bind at 1. cbn [or_panic ret]. unfold bind at 1, gets at 1.
  fold (accountable post b c).
  set (c1 := if accountable post b c then _ else c) in *.
  rewrite (bind_some _ _ c tt c1).
  2: { subst c1. destruct (accountable post b c); [|done]. rewrite add_inflow_run.
       specialize (Hov eq_refl). by destruct (Z.leb_spec (inflow_of (post_source post) (body_asset_id b) c + body_amount b) u256_max); [|lia]. }
  destruct (is_evm (post_dest post)); [done|]. unfold bind. rewrite sub_inflow_run. specialize (Hle eq_refl).
  by destruct (Z.leb_spec (body_amount b) (inflow_of (post_dest post) (body_asset_id b) c1)); [|lia].
Qed.

(** a timeout takes back what inspection booked. When a transfer has passed inspection and
    then times out with the books as inspection left them, the timeout succeeds and every
    balance is what it was before: the source is credited again what it sent, and the destination
    loses what it never received. *)
Theorem timeout_undoes_inspection post c c1 :
  (forall x asset, 0 <= inflow_of x asset c <= u256_max) ->
  (forall b, request_body post = Some b -> 0 <= body_amount b) ->
  inspect_request post c = (Some (Ok tt), c1) ->
  exists c2, handle_timeout post c1 = (Some (Ok tt), c2) /\
    forall x asset, inflow_of x asset c2 = inflow_of x asset c.
Proof.
  intros Hr Hn Hrun. destruct (is_evm (post_source post) && is_evm (post_dest post)) eqn:Hevm.
  { unfold inspect_request in Hrun. rewrite Hevm in Hrun. injection Hrun as <-. exists c.
    unfold handle_timeout. rewrite Hevm. done. }
  destruct (request_body post) as [b|] eqn:Hb.
  2: { assert (Hc1 : c1 = c) by (pose proof (inspect_other post c (or_intror Hb)) as E; by rewrite Hrun in E).
       subst c1. exists c. split; [|done]. revert Hrun. unfold inspect_request, handle_timeout. rewrite Hevm.
       unfold request_body in Hb. unfold is_token_gateway_request.
       destruct (body_tail (post_body post)) as [t|]; [|done]. cbn in Hb |- *. by rewrite Hb. }
  specialize (Hn b eq_refl).
  assert (Hov : is_evm (post_dest post) = true \/
    inflow_of (post_dest post) (body_asset_id b) c + body_amount b <= u256_max).
  { destruct (is_evm (post_dest post)) eqn:Hd; [by left|right].
    destruct (Z.le_gt_cases (inflow_of (post_dest post) (body_asset_id b) c + body_amount b) u256_max) as [|Hbig]; [done|].
    rewrite (inspect_overflow post b c) in Hrun; [done|by rewrite Hd, andb_false_r|done..]. }
  pose proof (inspect_books post b c _ c1 Hevm Hb Hov Hrun) as (Ho & _ & Hin).
  destruct Ho as [Ho _]. rewrite (Ho eq_refl) in Hin. clear Ho.
  assert (Hacc : accountable post b c1 = accountable post b c).
  { rewrite (inspect_run post b c Hevm Hb Hov) in Hrun. unfold accountable.
    destruct (accountable post b c); [destruct (_ <=? _); [|done]|]; injection Hrun as <-;
      by rewrite ?native_booked, native_credited. }
  eexists. rewrite (handle_timeout_run post b c1 Hevm Hb); rewrite Hacc.
  - split; [done|]. intros x asset. destruct (accountable post b c), (is_evm (post_dest post)) eqn:Hd;
      rewrite ?inflow_booked, ?Hin; cbn [andb]; clear;
      generalize (post_source post) as s', (post_dest post) as d', (body_asset_id b) as a'; intros; book_cases.
  - intros Ha. rewrite Hin, Ha. cbn [andb]. pose proof (Hr (post_source post) (body_asset_id b)) as Hb0.
    revert Hov Hb0. clear. generalize (post_source post) as s', (post_dest post) as d', (body_asset_id b) as a'.
    intros s' d' a' Hov Hb0. destruct (is_evm d'), Hov as [|Hov]; try discriminate; book_cases.
  - intros Hd. pose proof (Hr (post_dest post) (body_asset_id b)) as Hb0. revert Hov Hb0 Hn.
    destruct (accountable post b c); rewrite ?inflow_booked, ?Hin; cbn [andb]; rewrite Hd; clear;
      generalize (post_source post) as s', (post_dest post) as d', (body_asset_id b) as a'; intros; book_cases.
Qed.
End inspector.
