(* ===== verification/ProxyProps.v ===== *)
(** * The proxy and the XCM gateway: theorems

    How hyperbridge relays requests, which of its modules a message reaches, what an XCM deposit
    mints and sends, and why the refund of a transfer that timed out never comes. *)

From S2P Require Import Prelude StateMachine Router Messaging Host Handlers HostSpec Frame ChildTrie PalletTypes PalletHost PalletRefines Pallet PalletFrames PalletProps Apps Hyperbridge Relayer TokenGateway TokenGatewayProps Governor Nexus NexusProps.

Section proxy.
Context `{HK : Keccak256} `{HC : Codecs, !HeightKeys, !HeightSort, !ErrorText, !ChildRoot} `{!Codec Leaf}.
Context `{!Codec AssetMetadata, !Codec DeregisterAssets, !Codec RemoteERC6160AssetRegistration, !BodyAbi}.
Context `{!SolAbi, !Crypto, !GovernorEnv, !XcmEnv} `{!Codec StateMachine, !Codec Location}.
Context {Acc Tree : Type} `{!Currency Acc, !RuntimeAssets Acc}.
Context `{!Mmr Tree, !Config (Apps (Governance Acc)) Tree}.

Abbreviation St := (Chain (Apps (Governance Acc)) Tree).
Implicit Types c : St.

(** ** Relaying *)

(** The books are not part of pallet-ismp. *)
Definition books_only c c' : Prop :=
  storage c' = storage c /\ now c' = now c /\ events c' = events c /\ tree c' = tree c.

Lemma inspect_storage post c o c' : inspect_request post c = (o, c') -> books_only c c'.
Proof.
  intros Hrun. revert c o c' Hrun. change (moves books_only (inspect_request post : M St _)).
  assert (PreOrder books_only).
  { unfold books_only. split; [done|]. intros x y z (E1 & E2 & E3 & E4) (F1 & F2 & F3 & F4). by rewrite F1, F2, F3, F4. }
  unfold inspect_request, add_inflow, sub_inflow, modify_governance, modify_app. moves_solve; done.
Qed.

(** A request that is not committed yet and that the tree takes. *)
Definition fresh (req : Request) c : Prop :=
  exists h leaf t, hash_request req = Some h /\ RequestCommitments.get h (st_child (storage c)) = None /\
    mmr_push (LeafRequest req) (tree c) = (Some leaf, t).

(** Dispatching a request: it is committed exactly if it is fresh, and otherwise nothing is. *)
Lemma dispatch_outcome req fee c o c' :
  pallet_inv c -> pallet_dispatch_request req fee c = (o, c') ->
  (fresh req c /\ exists h, o = Some (Ok h) /\ request_dispatched req fee h c c') \/
  (~ fresh req c /\ (forall h, o <> Some (Ok h)) /\ storage c' = storage c /\ events c' = events c /\ bank c' = bank c).
Proof.
  intros Hc Hrun. destruct o as [[h|e]|].
  - destruct (pallet_dispatch_request_run _ _ _ _ _ Hc Hrun) as [(h' & [= <-] & Hd)|[? _]]; [|done].
    left. split; [|by exists h]. destruct Hd as [Hh Hn (leaf & t & Hp & _)]. by exists h, leaf, t.
  - destruct (pallet_dispatch_request_run _ _ _ _ _ Hc Hrun) as [(h' & ? & _)|[_ ->]]; [done|].
    right. split; [|done]. intros (h & leaf & t & Hh & Hn & Hp). unfold pallet_dispatch_request in Hrun.
    rewrite Hh in Hrun. cbn [or_panic] in Hrun. unfold bind at 1, ret at 1 in Hrun. bind_gets Hrun.
    apply try_inv in Hrun as [(e' & Hd & _)|(u & c1 & _ & Hrun)].
    + apply ensure_not_err in Hd as (Hd & _ & _). unfold read in Hd.
      unfold RequestCommitments.contains_key, request_commitment_storage_key in Hd.
      rewrite (typed_exists (A := RequestMetadata)) in Hd by apply Hc. apply bool_decide_eq_true in Hd.
      unfold RequestCommitments.get, request_commitment_storage_key in Hn. rewrite Hn in Hd. by destruct Hd.
    + apply bind_inv in Hrun as (l & c2 & _ & Hrun). apply bind_inv in Hrun as (u1 & c3 & _ & Hrun).
      apply bind_inv in Hrun as (u2 & c4 & _ & Hrun). by apply ret_inv in Hrun as [? _].
  - right. unfold pallet_dispatch_request in Hrun. destruct (hash_request req) as [h|] eqn:Eh; cbn [or_panic] in Hrun.
    2: { unfold bind in Hrun. injection Hrun as <-. split; [|done]. intros (h & ? & ? & ? & _). congruence. }
    unfold bind at 1, ret at 1 in Hrun. unfold bind at 1, gets in Hrun. unfold ensure_not in Hrun.
    destruct (read _ c); [done|]. unfold try_bind at 1, bind at 1, ret at 1 in Hrun. unfold bind at 1, push_leaf in Hrun.
    destruct (mmr_push (LeafRequest req) (tree c)) as [[leaf|] t] eqn:Et; [done|]. injection Hrun as <-.
    split; [|done]. intros (h' & leaf & t' & _ & _ & Hp). congruence.
Qed.

(** C30: hyperbridge relays requests unaltered, and of those for another chain exactly those that
    the inspector lets pass and that are not committed already (and that the mountain range takes,
    which can panic). Such a request, with the source, nonce, sender and timeout it came with, is
    committed under its own hash, at no fee, for its destination to prove. Whatever else happens,
    an error or a panic, no commitment and no event is left behind: at most the books of the
    inspector have changed. A request can be relayed again once its commitment has been deleted. *)
Theorem proxy_relays request c o c' :
  pallet_inv c -> post_dest request <> HostStateMachine ->
  on_accept ProxyModule request c = (o, c') ->
  exists inspection c1, inspect_request request c = (inspection, c1) /\ bank c' = bank c1 /\
    (o = Some (Ok tt) <-> inspection = Some (Ok tt) /\ fresh (RequestPost request) c) /\
    (o <> Some (Ok tt) -> storage c' = storage c /\ events c' = events c) /\
    (o = Some (Ok tt) -> exists h leaf, hash_request (RequestPost request) = Some h /\ pallet_inv c' /\
       pallet_abs c' = upd_msgs (set_req_commitments
         <[h := encode (mkRequestMetadata leaf no_payer false)]>) (pallet_abs c) /\
       events c' = events c ++ [PERequest (post_dest request) (post_source request) (post_nonce request) h]).
Proof.
  intros Hc Hd Hrun. cbn [on_accept ProxyModule] in Hrun. unfold proxy_on_accept in Hrun.
  rewrite bool_decide_eq_false_2 in Hrun by done. cbn [negb] in Hrun.
  destruct (inspect_request request c) as [oi c1] eqn:Hi. exists oi, c1. split; [done|].
  destruct (inspect_storage _ _ _ _ Hi) as (Es & En & Ee & Et).
  destruct oi as [[[]|e]|].
  2, 3: unfold try_bind at 1, bind at 1 in Hrun; rewrite Hi in Hrun; injection Hrun as <- <-;
    repeat split; try done; by intros [].
  rewrite (try_ok _ _ _ _ _ Hi) in Hrun.
  assert (Hc1 : pallet_inv c1) by (unfold pallet_inv in *; by rewrite Es).
  assert (Ha1 : pallet_abs c1 = pallet_abs c) by (unfold pallet_abs; by rewrite Es, En).
  assert (Hfr : fresh (RequestPost request) c1 <-> fresh (RequestPost request) c) by (unfold fresh; by rewrite Es, Et).
  destruct (pallet_dispatch_request (RequestPost request) free_of_charge c1) as [op c2] eqn:Hp.
  destruct (dispatch_outcome _ _ _ _ _ Hc1 Hp) as [(Hf & h & -> & Hdis)|(Hf & Hno & Es2 & Ee2 & Eb2)].
  - rewrite (try_ok _ _ _ _ _ Hp) in Hrun. injection Hrun as <- <-.
    destruct (request_dispatched_abs _ _ _ _ _ Hc1 Hdis) as (Hc2 & leaf & Ha). destruct Hdis as [Hh _ (l & t & _ & ->)].
    split; [done|]. split; [split; [intros _; by rewrite <- Hfr|done]|]. split; [done|]. intros _. exists h, leaf.
    split; [done|]. split; [done|]. split; [by rewrite Ha, Ha1|]. cbn. by rewrite Ee.
  - assert (o <> Some (Ok tt) /\ c' = c2) as [Ho ->].
    { unfold try_bind, bind in Hrun. rewrite Hp in Hrun. destruct op as [[h|e]|]; [by destruct (Hno h)|by injection Hrun as <- <-..]. }
    split; [done|]. split; [|split; [intros _; by rewrite Es2, Es, Ee2, Ee|done]].
    split; [done|]. intros [_ ?%Hfr]. done.
Qed.

(** ** Refunds *)

(** Deleting never brings a commitment back. *)
Lemma kill_get (k key : bytes) (t : Trie) :
  k = request_commitment_storage_key key \/ RequestCommitments.get key t = None ->
  RequestCommitments.get key (child_kill k t) = None.
Proof.
  unfold RequestCommitments.get, child_get, child_kill.
  destruct (decide (k = request_commitment_storage_key key)) as [->|Hne]; [by rewrite lookup_delete_eq|].
  rewrite lookup_delete_ne by done. by intros [?|?].
Qed.

(** The timeout of a request that is no longer committed is refused. *)
Lemma xcm_timeout_uncommitted post h c :
  hash_request (RequestPost post) = Some h -> RequestCommitments.get h (st_child (storage c)) = None ->
  exists e, xcm_on_timeout (TimeoutRequest (RequestPost post)) c = (Some (Err e), c).
Proof.
  intros Hh Hn. cbn [xcm_on_timeout]. rewrite Hh. cbn [or_panic]. unfold bind at 1, ret at 1.
  unfold try_bind at 1, bind at 1, gets. rewrite Hn. cbn. eauto.
Qed.

Lemma handle_timeout_storage post c o c' :
  handle_timeout post c = (o, c') ->
  storage c' = storage c /\ gv_accounts (governance c') = gv_accounts (governance c) /\
  xcm_events (governance c') = xcm_events (governance c) /\
  TokenGatewayParams (governance c') = TokenGatewayParams (governance c).
Proof.
  revert c o c'. set (R := fun c c' : St => storage c' = storage c /\
    gv_accounts (governance c') = gv_accounts (governance c) /\
    xcm_events (governance c') = xcm_events (governance c) /\
    TokenGatewayParams (governance c') = TokenGatewayParams (governance c)).
  change (moves R (handle_timeout post : M St _)).
  assert (PreOrder R).
  { split; [done|]. intros x y z (E1 & E2 & E3 & E4) (F1 & F2 & F3 & F4). unfold R. by rewrite F1, F2, F3, F4. }
  unfold handle_timeout, add_inflow, sub_inflow, modify_governance, modify_app. moves_solve; done.
Qed.

(** The callback fails once the commitment is gone. *)
Lemma proxy_timeout_fails post h c o c' :
  hash_request (RequestPost post) = Some h -> RequestCommitments.get h (st_child (storage c)) = None ->
  post_from post = token_gateway_address (post_dest post) c -> length (post_from post) = 20%nat ->
  on_timeout ProxyModule (TimeoutRequest (RequestPost post)) c = (o, c') ->
  o <> Some (Ok tt) /\ gv_accounts (governance c') = gv_accounts (governance c) /\
  xcm_events (governance c') = xcm_events (governance c).
Proof.
  intros Hh Hn Hf Hlen Hrun. cbn [on_timeout ProxyModule] in Hrun. unfold proxy_on_timeout in Hrun.
  apply try_split in Hrun as [([] & c1 & Ht & Hrun)|(o1 & Ht & _ & Ho)].
  - assert (Hc1 : storage c1 = storage c /\ gv_accounts (governance c1) = gv_accounts (governance c) /\
      xcm_events (governance c1) = xcm_events (governance c) /\
      TokenGatewayParams (governance c1) = TokenGatewayParams (governance c)).
    { destruct (negb _); [by apply handle_timeout_storage in Ht|by apply ret_inv in Ht as [_ <-]]. }
    destruct Hc1 as (Es & Ea & Ex & Ep).
    unfold module_id, module_from_bytes in Hrun. cbn [timeout_parties fst snd] in Hrun.
    rewrite Hlen in Hrun. cbn [Nat.eqb map_err] in Hrun. rewrite (try_ok _ _ c1 (ModuleEvm (post_from post)) c1) in Hrun by done.
    unfold bind at 1, gets in Hrun. unfold token_gateway_address in Hrun. rewrite Ep in Hrun.
    rewrite bool_decide_eq_true_2 in Hrun by (f_equal; exact Hf).
    destruct (xcm_timeout_uncommitted post h c1 Hh) as [e He]; [by rewrite Es|].
    rewrite He in Hrun. injection Hrun as <- <-. done.
  - split; [done|]. destruct (negb _).
    + apply handle_timeout_storage in Ht as (_ & E1 & E2 & _). done.
    + unfold ret in Ht. injection Ht as _ <-. done.
Qed.

(** Nor does the wrapper that refunds fees make it succeed. *)
Lemma refunding_timeout_fails md t c o c' :
  on_timeout (RefundingModule md) t c = (o, c') ->
  (forall o1 c1, on_timeout md t c = (o1, c1) -> o1 <> Some (Ok tt)) ->
  on_timeout md t c = (o, c').
Proof.
  cbn [on_timeout RefundingModule]. unfold refunding_on_timeout, bind at 1. intros Hrun Hno.
  destruct (on_timeout md t c) as [[[[]|e]|] c1]; [by destruct (Hno _ _ eq_refl)| |exact Hrun].
  cbn [is_ok] in Hrun. unfold ret in Hrun. exact Hrun.
Qed.

(** What the deletions before the callback leave behind. *)
Definition uncommitted (h : H256) : relation St := fun c c' =>
  governance c' = governance c /\
  (RequestCommitments.get h (st_child (storage c)) = None -> RequestCommitments.get h (st_child (storage c')) = None).

#[local] Instance uncommitted_preorder h : PreOrder (uncommitted h).
Proof. split; [done|]. intros x y z [E1 E2] [F1 F2]. split; [congruence|tauto]. Qed.

Lemma kill_uncommitted h k : moves (uncommitted h) (modify_storage (on_child (child_kill k)) : M St unit).
Proof. unfold modify_storage. moves_solve. split; [done|]. intros Hn. apply kill_get. by right. Qed.

Lemma delete_receipt_uncommitted h r : moves (uncommitted h) (pallet_delete_request_receipt r : M St _).
Proof. unfold pallet_delete_request_receipt. moves_solve. apply kill_uncommitted. Qed.

Lemma forget_commitment_run r c m c' :
  pallet_delete_request_commitment r c = (Some (Ok m), c') ->
  exists h, hash_request r = Some h /\ RequestCommitments.get h (st_child (storage c')) = None /\
    governance c' = governance c.
Proof.
  unfold pallet_delete_request_commitment. intros (h & c1 & Hh & Hrun)%bind_inv.
  apply or_panic_inv in Hh as [Hh ->]. step_gets Hrun meta Hm.
  unfold bind, modify_storage, modify, ret in Hrun. injection Hrun as _ <-.
  exists h. split; [done|]. split; [|done]. cbn. apply kill_get. by left.
Qed.

Definition same_books : relation St := fun c c' =>
  gv_accounts (governance c') = gv_accounts (governance c) /\ xcm_events (governance c') = xcm_events (governance c).

#[local] Instance same_books_preorder : PreOrder same_books.
Proof. split; [done|]. intros x y z [E1 E2] [F1 F2]. split; congruence. Qed.

Lemma storage_books f : moves same_books (modify_storage f : M St unit).
Proof. unfold modify_storage. moves_solve. done. Qed.
#[local] Hint Resolve storage_books : moves.

Lemma delete_commitment_books r : moves same_books (delete_request_commitment r : M St _).
Proof.
  change (moves same_books (pallet_delete_request_commitment r : M St _)).
  unfold pallet_delete_request_commitment. moves_solve.
Qed.

(** The relayer of a routed request is forgotten with its receipt. *)
Lemma signer_uncommitted h (routed : bool) r :
  moves (uncommitted h) (if routed then let* x := delete_request_receipt r in ret (ok x) else ret None : M St (option bytes)).
Proof.
  destruct routed; moves_solve. change (moves (uncommitted h) (pallet_delete_request_receipt r : M St _)).
  apply delete_receipt_uncommitted.
Qed.

(** What the handler does after a callback that failed. *)
Lemma restore_books post meta (signer : option bytes) (routed : bool) (res : DispatchResult) :
  moves same_books (
    let? _ := pallet_store_request_commitment (RequestPost post) meta in
    match signer with
    | Some relayer =>
        if routed then let? _ := pallet_store_request_receipt (RequestPost post) relayer in ret (Ok res)
        else ret (Ok res)
    | None => ret (Ok res)
    end : M St (result AnyError DispatchResult)).
Proof. unfold pallet_store_request_commitment, pallet_store_request_receipt. moves_solve. Qed.

(** no transfer of the XCM gateway is ever refunded. When a request whose sender is the token
    gateway of its destination times out on hyperbridge, the handler deletes its commitment before
    it calls the module, and the module asks that very commitment who paid: the callback fails,
    nothing is transferred to the relay chain, and the request never counts as timed out. This
    concerns every transfer that hyperbridge dispatches for an XCM deposit, and every relayed
    transfer between gateways with the same address. *)
Theorem gateway_timeout_never_refunded post md c o c' :
  Router (post_from post) = Ok md -> (forall t x, on_timeout md t x = on_timeout ProxyModule t x) ->
  post_from post = token_gateway_address (post_dest post) c -> length (post_from post) = 20%nat ->
  timeout_post (St := St) (RequestPost post) c = (o, c') ->
  (forall ev, o <> Some (Ok (Ok ev))) /\ same_books c c'.
Proof.
  intros Hr Hmd Hf Hlen Hrun. unfold timeout_post in Hrun. cbn [request_source_module] in Hrun.
  rewrite (try_ok _ _ c (RefundingModule md) c) in Hrun by (cbn; unfold RefundingRouter; by rewrite Hr).
  apply try_split in Hrun as [(meta & c1 & Hdel & Hrun)|(o1 & Hdel & _ & Ho)].
  2: { split; [intros ev; apply Ho|]. by apply delete_commitment_books in Hdel. }
  apply forget_commitment_run in Hdel as (h & Hh & Hn & Hg).
  apply bind_split in Hrun as [(signer & c2 & Hs & Hrun)|[Hs ->]]; apply signer_uncommitted with (h := h) in Hs as [Hg2 Hn2].
  2: { split; [done|]. unfold same_books. by rewrite Hg2, Hg. }
  assert (Hf2 : post_from post = token_gateway_address (post_dest post) c2)
    by (unfold token_gateway_address in *; by rewrite Hg2, Hg).
  assert (Hno : forall o1 c3, on_timeout md (TimeoutRequest (RequestPost post)) c2 = (o1, c3) -> o1 <> Some (Ok tt))
    by (intros o1 c3 Ht; rewrite Hmd in Ht; by destruct (proxy_timeout_fails _ _ _ _ _ Hh (Hn2 Hn) Hf2 Hlen Ht)).
  apply bind_split in Hrun as [(acc & c3 & Ht & Hrun)|[Ht ->]]; apply refunding_timeout_fails in Ht; try exact Hno;
    rewrite Hmd in Ht; destruct (proxy_timeout_fails _ _ _ _ _ Hh (Hn2 Hn) Hf2 Hlen Ht) as (Hacc & Ea & Ex); rewrite Hg2, Hg in Ea, Ex.
  2: done.
  destruct acc as [[]|e]; [done|]. cbn [map_ok_m] in Hrun. rewrite (bind_some _ _ c3 (Err e) c3) in Hrun by done.
  cbn [is_err] in Hrun. split.
  - intros ev ->. apply try_ok_inv in Hrun as (u & c4 & _ & Hrun).
    destruct signer as [relayer|]; [|by apply ret_inv in Hrun as [? _]].
    destruct (negb _); [apply try_ok_inv in Hrun as (u' & c5 & _ & Hrun)|]; by apply ret_inv in Hrun as [? _].
  - apply restore_books in Hrun. transitivity c3; [done|exact Hrun].
Qed.

(** ** Deposits *)

Lemma on_books_ok op c u c' :
  on_books op c = (Some (Ok u), c') ->
  exists acc, op (gv_accounts (governance c)) = Ok acc /\
    c' = upd_bank (set_governance (on_gv_accounts (fun _ => acc) (governance c))) c.
Proof. unfold on_books. destruct (op _) as [acc|] eqn:E; intros [= _ <-]. by exists acc. Qed.

(** The request that carries [amount] of DOT to an account. *)
Definition xcm_post (account : MultiAccount) (erc_amount : Z) (address : H160) : DispatchPost :=
  mkDispatchPost (ma_dest_state_machine account) address address (ma_timeout account)
    (Byte.x00 :: abi_encode_body (mkBody erc_amount dot_asset_id false (ma_substrate_account account)
      (padded (ma_evm_account account)))).

Lemma xcm_dispatch_run account amount c c' :
  pallet_inv c -> xcm_dispatch_request account amount c = (Some (Ok tt), c') ->
  exists erc h, convert_to_erc20 amount 18 10 = Some erc /\
    hash_request (requested (DispatchPostRequest (xcm_post account erc
      (token_gateway_address (ma_dest_state_machine account) c))) (Nonce (storage c)) (now c)) = Some h /\
    (exists leaf, pallet_abs c' = upd_msgs (fun m => set_req_commitments
       <[h := encode (mkRequestMetadata leaf (mkFeeMetadata (ma_substrate_account account) 0) false)]>
       (set_nonce (fun n => wrap64 (n + 1)) m)) (pallet_abs c)) /\
    gv_accounts (governance c') = gv_accounts (governance c) /\
    xcm_events (governance c') = xcm_events (governance c) ++ [XcmAssetTeleported
      (ma_substrate_account account) (ma_evm_account account) amount (ma_dest_state_machine account) h].
Proof.
  intros Hc. unfold xcm_dispatch_request. intros (erc & c1 & He & Hrun)%bind_inv.
  apply or_panic_inv in He as [He ->]. bind_gets Hrun.
  apply bind_inv in Hrun as (d & c2 & Hd & Hrun). step_ret Hrun h Hh. apply map_err_ok in Hh as ->.
  destruct (dispatch_request_abs _ _ _ _ _ Hc Hd) as (_ & leaf & Ha).
  destruct (dispatch_request_run _ _ _ _ _ Hc Hd) as (b & Hb & [Hh _ (l & t & _ & Hc2)]).
  unfold fee_collected in Hb. cbn in Hb. subst b.
  unfold bind, xcm_event, modify_governance, modify_app, modify, ret in Hrun. injection Hrun as <-.
  exists erc, h. split; [done|]. split; [done|]. split; [by exists leaf|]. unfold governance. cbn. by rewrite Hc2.
Qed.

(** an XCM deposit is split exactly. A deposit of DOT for a sender, a recipient on an Ethereum
    network and a timeout pays the protocol its percentage, plus two DOT when it is bound for
    Ethereum, and the rest is taken into custody and sent on, in 18 decimals, to the gateway of
    the destination in a request the sender is noted as the payer of. As long as the fees do not
    exceed the deposit, what is minted is exactly what was deposited. *)
Theorem xcm_deposit_functional what who c c' :
  pallet_inv c -> deposit_asset what who c = (Some (Ok tt), c') ->
  exists asset amount account acc erc h, matches_fungibles what = Ok (asset, amount) /\
    convert_location who = Some account /\
    let dest := ma_dest_state_machine account in
    let fees := wrap128 (permill_mul (protocol_fee_percentage c) amount + base_fee dest) in
    let rest := wrap128 (amount - fees) in
    mint_into asset treasury_account fees (gv_accounts (governance c)) = Ok acc /\
    mint_into asset xcm_account rest acc = Ok (gv_accounts (governance c')) /\
    convert_to_erc20 rest 18 10 = Some erc /\
    hash_request (requested (DispatchPostRequest (xcm_post account erc
      (token_gateway_address dest c))) (Nonce (storage c)) (now c)) = Some h /\
    (exists leaf, pallet_abs c' = upd_msgs (fun m => set_req_commitments
       <[h := encode (mkRequestMetadata leaf (mkFeeMetadata (ma_substrate_account account) 0) false)]>
       (set_nonce (fun n => wrap64 (n + 1)) m)) (pallet_abs c)) /\
    (0 <= permill_mul (protocol_fee_percentage c) amount ->
     permill_mul (protocol_fee_percentage c) amount + base_fee dest <= amount -> amount <= u128_max ->
     fees + rest = amount /\ erc = rest * 10 ^ 8).
Proof.
  intros Hc. unfold deposit_asset. intros Hrun. step_ret Hrun x Hx. apply map_err_ok in Hx.
  destruct x as [asset amount]. destruct (convert_location who) as [account|] eqn:El; [|by apply ret_inv in Hrun as [? _]].
  bind_gets Hrun. cbv zeta in Hrun.
  apply try_ok_inv in Hrun as (u1 & c1 & H1' & Hrun). apply on_books_ok in H1' as (acc & Hacc & ->).
  apply try_ok_inv in Hrun as (u2 & c2 & H2' & Hrun). apply on_books_ok in H2' as (acc2 & Hacc2 & ->).
  apply try_ok_inv in Hrun as ([] & c3 & Hd & Hrun). apply ret_inv in Hrun as [_ <-].
  apply xcm_dispatch_run in Hd as (erc & h & He & Hh & Ha & Hb & _); [|done].
  exists asset, amount, account, acc, erc, h. split; [done|]. split; [done|]. cbv zeta.
  split; [done|]. split; [by rewrite Hb|]. split; [done|]. split; [done|]. split; [done|].
  intros P1 P2 P3. assert (P4 : 0 <= base_fee (ma_dest_state_machine account)) by (unfold base_fee; case_bool_decide; lia).
  revert He. unfold wrap128. unfold u128_max in P3.
  rewrite (Z.mod_small (permill_mul _ _ + _)) by lia. rewrite Z.mod_small by lia. intros He.
  rewrite to_erc20_exact in He by (unfold u128_max; lia). change (saturating_sub_u8 18 10) with 8 in He.
  injection He as <-. split; [lia|done].
Qed.
End proxy.
