(* ===== verification/NexusDemo.v ===== *)
(** * Hyperbridge with its modules

    A concrete runtime with the governor, the inspector and the XCM gateway behind the proxy. The
    theorems on them are applied to it, and a run shows what a registration that fails half way
    leaves behind. *)

From S2P Require Import Prelude StateMachine Router Messaging Host Handlers HostSpec RefHost Frame ChildTrie PalletTypes PalletHost PalletRefines Pallet PalletFrames PalletProps PalletDemo Apps Hyperbridge Relayer DemoCodec TokenGateway TokenGatewayProps TokenDemo Governor GovernorProps Nexus NexusProps ProxyProps.

Module NexusDemo.

#[local] Existing Instances TokenDemo.keccak Demo.sort PalletDemo.codecs PalletDemo.leaf_codec PalletDemo.text PalletDemo.root TokenDemo.height_keys TokenDemo.bytes_codec TokenDemo.metadata_codec TokenDemo.deregister_codec TokenDemo.remote_codec TokenDemo.body_abi TokenDemo.machine_codec.

(** ** Library code *)

#[local] Instance sol : SolAbi := {|
  abi_gateway_params p := sg_host p ++ sg_dispatcher p;
  abi_asset_metadata m := sm_name m ++ sm_symbol m;
  abi_deregister d := concat (sd_assetIds d);
  abi_change_admin a := sa_assetId a ++ sa_newAdmin a;
  abi_contract_instance i := sc_chain i ++ sc_moduleId i;
  abi_registrar_params p := sr_host p;
  abi_decode_request b := Ok (mkSolRequestBody (take 20 b) (drop 20 b))
|}.

(** A signature of ones is valid; the key behind it is fixed. *)
Definition pub_key : bytes := replicate 32 Byte.x07.
Definition payer_address : H160 := replicate 20 Byte.x07.
#[local] Instance crypto : Crypto := {|
  secp256k1_ecdsa_recover s _ := if decide (s = replicate 65 Byte.x01) then Some pub_key else None;
  sr25519_verify _ _ _ := false;
  ed25519_verify _ _ _ := false
|}.
#[local] Instance governor_env : GovernorEnv := {|
  iter_gateways m := map_to_list m;
  treasury_account := lit "treasury";
  governor_account := lit "governor";
  governor_error_text _ := lit "error"
|}.
#[local] Instance xcm_env : XcmEnv := {|
  permill_mul p x := p * x / 1000000;
  default_fee_percentage := 1000;
  xcm_account := lit "xcm";
  matches_fungibles _ := Ok (lit "DOT", 50000000000)
|}.

#[local] Notation "a *c b" := (pair_codec a b) (at level 40, left associativity).
Definition network_codec : Codec NetworkId :=
  via_codec (option_codec z_codec) (fun n => match n with NetEthereum i => Some i | NetOther => None end)
    (fun x => match x with Some i => NetEthereum i | None => NetOther end) ltac:(by intros []).
Definition junction_codec : Codec Junction :=
  via_codec (sum_codec (sum_codec string_codec (option_codec network_codec *c string_codec)) (sum_codec z_codec string_codec))
    (fun j => match j with
      | AccountId32 a => inl (inl a) | AccountKey20 n k => inl (inr (n, k))
      | GeneralIndex i => inr (inl i) | OtherJunction e => inr (inr e)
      end)
    (fun x => match x with
      | inl (inl a) => AccountId32 a | inl (inr p) => AccountKey20 p.1 p.2
      | inr (inl i) => GeneralIndex i | inr (inr e) => OtherJunction e
      end) ltac:(by intros []).
#[local] Instance location_codec : Codec Location :=
  via_codec (z_codec *c list_codec junction_codec) (fun l => (loc_parents l, loc_interior l))
    (fun x => mkLocation x.1 x.2) ltac:(by intros []).

(** ** Accounts *)

Abbreviation Acc := (gmap bytes Z * gmap (H256 * bytes) Z)%type.

#[local] Program Instance currency : Currency Acc := {|
  balance a k := TokenDemo.units k.1 a;
  transfer a b n k := result_map (fun m => (m, k.2)) (TokenDemo.move_units a b n k.1)
|}.
Next Obligation.
  intros a b n k k' Hne E. cbn in *. destruct (TokenDemo.move_units a b n k.1) as [m|] eqn:Em; [|done]. injection E as <-.
  apply TokenDemo.move_units_spec in Em as [_ Em]. cbn. rewrite !Em. split; [repeat case_decide; congruence || lia|].
  split; [repeat case_decide; congruence || lia|]. intros c H1' H2'. rewrite Em. repeat case_decide; congruence || lia.
Qed.

#[local] Instance runtime_assets : RuntimeAssets Acc := {|
  transfer_preserve a b n k := result_map (fun m => (m, k.2)) (TokenDemo.move_units a b n k.1);
  mint_into i a n k := Ok (k.1, <[(i, a) := TokenDemo.units k.2 (i, a) + n]> k.2);
  limited_reserve_transfer_assets a _ n k :=
    if TokenDemo.units k.2 (lit "DOT", a) <? n then Err (lit "FailedToTransactAsset")
    else Ok (k.1, <[(lit "DOT", a) := TokenDemo.units k.2 (lit "DOT", a) - n]> k.2)
|}.

(** ** The runtime *)

Definition here : StateMachine := Polkadot 3367.
Abbreviation St := (Chain (Apps (Governance Acc)) OffchainDb).

Definition base_config (router : IsmpRouter St) : Config (Apps (Governance Acc)) OffchainDb := {|
  HostStateMachine := here;
  Coprocessor := Some here;
  ConsensusClients := [];
  Router := router;
  AdminOrigin o := match o with OriginRoot => true | _ => false end;
  relayer_fee_account := lit "fees"
|}.
#[local] Instance config : Config (Apps (Governance Acc)) OffchainDb :=
  base_config (nexus_router (Config0 := base_config (fun id => Err (IsmpError (ModuleNotFound id))))).

Definition alice : bytes := replicate 32 Byte.x61.
Definition owner : bytes := replicate 32 Byte.x6f.
Definition para : StateMachine := Kusama 2000.
Definition other_para : StateMachine := Kusama 2001.
Definition eth : StateMachine := Evm 1.
Definition contract : H160 := replicate 20 Byte.x11.
Definition usd : H256 := lit "USD".
Definition new : H256 := lit "NEW".

(** USD is registered, owned by [owner], and deployed on [para] and on Ethereum; NEW has been
    paid for. *)
Definition governance0 : Governance Acc :=
  mkGovernance ({[ alice := 1000 ]}, ∅) {[ new := payer_address ]}
    (<[(usd, para) := true]> {[ (usd, eth) := true ]})
    {[ usd := mkAssetMetadata (lit "dollar") usd 18 None ]} {[ usd := owner ]} (Some (mkParams 100))
    ∅ {[ eth := mkGatewayParams zero_address zero_address contract ]} ∅ [] ∅ None ∅ [].
Definition apps : Apps (Governance Acc) := mkApps governance0
  (V1 (mkSubstrateHostParams 2 ∅ 5)) ∅ ∅ ∅ ∅ None ∅ [].
Definition init : St := mkChain PalletDemo.empty (from_secs 1000) apps ∅ [] [].

Lemma nexus_init_ok : pallet_inv init.
Proof.
  split; try (intros h b; cbn; by rewrite lookup_empty).
  intros h. unfold child_get. cbn. by rewrite !lookup_empty.
Defined.

(** ** The governor *)

Definition fresh : ERC6160AssetRegistration :=
  mkERC6160AssetRegistration (lit "euro") (lit "EUR") [no_supply para; no_supply eth] None.
Definition registered : St := (governor_create_erc6160_asset (OriginSigned alice) fresh init).2.

Lemma governor_registration_witness :
  AssetOwners (governance registered) = <[lit "EUR" := alice]> (AssetOwners (governance init)) /\
  announced [para; eth] init registered.
Proof.
  destruct (governor_registration (OriginSigned alice) fresh init registered nexus_init_ok)
    as (who & ? & acc & Hw & _ & _ & _ & _ & Ho & _ & Ha & _).
  - apply (run_eq (governor_create_erc6160_asset (OriginSigned alice) fresh) init). vm_compute. reflexivity.
  - injection Hw as <-. split; [exact Ho|exact Ha].
Defined.

Definition ticket : UnsignedERC6160AssetRegistration :=
  mkUnsignedRegistration (mkERC6160AssetRegistration (lit "new") new [no_supply para] None)
    (replicate 65 Byte.x01) owner.
Definition redeemed : St := (create_erc6160_asset_unsigned OriginNone ticket init).2.

Lemma unsigned_registration_witness :
  AssetOwners (governance redeemed) !! new = Some owner /\
  exists c2, create_erc6160_asset_unsigned OriginNone
      (mkUnsignedRegistration (ur_asset ticket) (ur_signature ticket) alice) init = (Some (Ok tt), c2) /\
    AssetOwners (governance c2) !! new = Some alice.
Proof.
  destruct (unsigned_registration OriginNone ticket init redeemed nexus_init_ok)
    as (_ & _ & _ & Ho & _ & Hthief).
  - apply (run_eq (create_erc6160_asset_unsigned OriginNone ticket) init). vm_compute. reflexivity.
  - split; [exact Ho|]. exact (Hthief alice).
Defined.

(** [other_para], which has nothing to do with USD, has it delisted. *)
Definition delisting : GatewayAssetUpdate := mkGatewayAssetUpdate usd [] [para; other_para; eth] [].
Definition delisting_post : PostRequest :=
  mkPostRequest other_para here 0 token_gateway_id REGISTRY 0 (encode (UpdateAsset delisting)).
Definition delisted : St := (on_accept governor_module delisting_post init).2.

Lemma remote_delisting_unchecked_witness :
  announced (filter (fun d => is_Some (SupportedChains (governance init) !! (usd, d))) [para; other_para; eth]) init delisted.
Proof.
  destruct (remote_delisting_unchecked delisting_post delisting owner init delisted nexus_init_ok)
    as (Ha & _ & _).
  - vm_compute. reflexivity.
  - reflexivity.
  - reflexivity.
  - vm_compute. reflexivity.
  - reflexivity.
  - reflexivity.
  - apply (run_eq (on_accept governor_module delisting_post) init). vm_compute. reflexivity.
  - exact Ha.
Defined.

Definition instances : list (StateMachine * TokenGatewayParamsUpdate) :=
  [(Evm 56, mkTokenGatewayParamsUpdate None (Some (replicate 20 Byte.x22)))].
Definition extended : St := (new_contract_instance OriginRoot instances init).2.

Lemma new_instance_misrouted_witness :
  exists evs, events extended = events init ++ evs /\
    Forall (fun e => exists d n h, e = PERequest d HostStateMachine n h /\ d ∈ instances.*1) evs.
Proof.
  apply (new_instance_misrouted OriginRoot instances init extended nexus_init_ok).
  apply (run_eq (new_contract_instance OriginRoot instances) init). vm_compute. reflexivity.
Defined.

Lemma owners_permanent_witness :
  AssetOwners (governance (foldl (fun c op => governor_step op c) init
    [GAccept delisting_post; GCreate (OriginSigned alice) fresh])) !! usd = Some owner.
Proof. apply (owners_permanent [GAccept delisting_post; GCreate (OriginSigned alice) fresh] init usd owner). vm_compute. reflexivity. Defined.

(** The second chain has no gateway. *)
Definition half : GatewayAssetRegistration :=
  mkGatewayAssetRegistration (lit "half") (lit "HLF") [other_para; Evm 56] None.
Definition half_post : PostRequest :=
  mkPostRequest para here 0 token_gateway_id REGISTRY 0 (encode (CreateAsset half)).
Definition half_registered : option (result AnyError unit) * St := on_accept ProxyModule half_post init.

(** a remote registration that fails leaves traces. When a chain registers an asset for two
    chains of which the second has no gateway, the registration is refused, but the first chain has
    already been told to create the asset and is recorded as having it, while nobody owns it. *)
Theorem failed_registration_leaves_traces :
  (exists e, half_registered.1 = Some (Err e)) /\
  SupportedChains (governance half_registered.2) !! (lit "HLF", other_para) = Some true /\
  AssetOwners (governance half_registered.2) !! lit "HLF" = None /\
  exists h, events half_registered.2 = [PERequest other_para here 0 h].
Proof.
  split; [eexists; vm_compute; reflexivity|]. split; [vm_compute; reflexivity|]. split; [vm_compute; reflexivity|].
  eexists. vm_compute. reflexivity.
Qed.

(** ** The inspector *)

Definition sends (source dest : StateMachine) (from : bytes) (n : Z) : PostRequest :=
  mkPostRequest source dest 0 from contract 0 (Byte.x00 :: abi_encode_body (mkBody n usd false alice alice)).
Definition carried (n : Z) : Body := mkBody n usd false alice alice.

Lemma sends_body source dest from n : transfer_in (sends source dest from n) (carried n).
Proof. unfold transfer_in, request_body. cbn -[abi_encode_body abi_decode_body]. apply (@decode_encode _ TokenDemo.body_codec). Defined.

Lemma empty_books x asset : inflow_of x asset init = 0.
Proof. unfold inflow_of. cbn. by rewrite lookup_empty. Defined.

(** [para] sends what it has never received. *)
Definition forged : PostRequest := sends para other_para contract 100.
Definition refused : St := (inspect_request forged init).2.

Lemma forged_refused :
  inspect_request forged init = (Some (Err (Custom (lit "Illegal Token Gateway request"))), refused).
Proof. apply (run_eq (inspect_request forged) init). vm_compute. reflexivity. Defined.

Lemma inspector_books_witness : inflow_of other_para usd refused = 100.
Proof.
  destruct (inspector_books forged (carried 100) init
    (Some (Err (Custom (lit "Illegal Token Gateway request")))) refused) as (_ & _ & Hin).
  - reflexivity.
  - apply sends_body.
  - right. rewrite empty_books. vm_compute. discriminate.
  - exact forged_refused.
  - rewrite Hin, empty_books. vm_compute. reflexivity.
Defined.

Lemma refused_transfer_covers_next_witness :
  exists c2, inspect_request (sends other_para eth contract 100) refused = (Some (Ok tt), c2).
Proof.
  apply (refused_transfer_covers_next forged (sends other_para eth contract 100) (carried 100) (carried 100)
    init refused (Custom (lit "Illegal Token Gateway request")) (sends_body para other_para contract 100)
    (sends_body other_para eth contract 100)).
  - reflexivity.
  - reflexivity.
  - reflexivity.
  - reflexivity.
  - rewrite empty_books. reflexivity.
  - reflexivity.
  - rewrite empty_books. vm_compute. discriminate.
  - discriminate.
  - exact forged_refused.
Defined.

Definition hollow : PostRequest := mkPostRequest eth para 0 contract contract 0 [].
Lemma empty_body_panics_witness : (on_accept ProxyModule hollow init).1 = None.
Proof. apply (empty_body_panics hollow init); [reflexivity|reflexivity|discriminate]. Defined.

Lemma sends_positive n b source dest from : 0 <= n -> request_body (sends source dest from n) = Some b -> 0 <= body_amount b.
Proof. intros Hn Hb. rewrite (sends_body source dest from n) in Hb. by injection Hb as <-. Defined.

Definition traffic : list PostRequest := [sends eth para contract 100; sends para eth contract 60; sends para eth contract 60].
Lemma inspector_balances_witness :
  inflow_of para usd (inspected traffic init) = 0 + 100 - 60.
Proof.
  destruct (inspector_balances para usd traffic init eq_refl) as [Hb _].
  - rewrite empty_books. reflexivity.
  - repeat constructor; intros b Hb; (eapply sends_positive; [|exact Hb]; done).
  - rewrite Hb, empty_books. vm_compute. reflexivity.
Defined.

Definition passed : St := (inspect_request (sends eth para contract 100) init).2.
Lemma timeout_undoes_inspection_witness :
  exists c2, handle_timeout (sends eth para contract 100) passed = (Some (Ok tt), c2) /\
    inflow_of para usd c2 = 0.
Proof.
  destruct (timeout_undoes_inspection (sends eth para contract 100) init passed) as (c2 & Hrun & Hback).
  - intros x asset. rewrite empty_books. split; [reflexivity|vm_compute; discriminate].
  - intros b Hb. eapply sends_positive; [|exact Hb]. done.
  - apply (run_eq (inspect_request (sends eth para contract 100)) init). vm_compute. reflexivity.
  - exists c2. split; [exact Hrun|]. rewrite Hback. apply empty_books.
Defined.

(** ** The proxy and the XCM gateway *)

Definition relayed : St := (on_accept ProxyModule (sends eth para contract 100) init).2.
Lemma proxy_relays_witness :
  exists h, hash_request (RequestPost (sends eth para contract 100)) = Some h /\
    events relayed = [PERequest para eth 0 h].
Proof.
  destruct (proxy_relays (sends eth para contract 100) init (Some (Ok tt)) relayed nexus_init_ok)
    as (oi & c1 & _ & _ & _ & _ & Hok).
  - discriminate.
  - apply (run_eq (on_accept ProxyModule (sends eth para contract 100)) init). vm_compute. reflexivity.
  - destruct (Hok eq_refl) as (h & leaf & Hh & _ & _ & He). exists h. split; [exact Hh|exact He].
Defined.

Definition recipient : Location :=
  mkLocation 0 [AccountId32 alice; AccountKey20 (Some (NetEthereum 1)) contract; GeneralIndex 3600].
Definition deposited : St := (deposit_asset (lit "dot") recipient init).2.

Lemma deposit_runs : deposit_asset (lit "dot") recipient init = (Some (Ok tt), deposited).
Proof. apply (run_eq (deposit_asset (lit "dot") recipient) init). vm_compute. reflexivity. Defined.

Lemma xcm_deposit_functional_witness :
  exists h, hash_request (requested (DispatchPostRequest (xcm_post
    (mkMultiAccount alice contract eth 3600) (29950000000 * 10 ^ 8) contract)) 0 (from_secs 1000)) = Some h.
Proof.
  destruct (xcm_deposit_functional (lit "dot") recipient init deposited nexus_init_ok deposit_runs)
    as (asset & amount & account & acc & erc & h & Hm & Hl & Hrest). cbv zeta in Hrest.
  injection Hm as <- <-. injection Hl as <-. destruct Hrest as (_ & _ & _ & Hh & _ & Hs).
  destruct Hs as [_ ->]; [vm_compute; discriminate..|]. exists h. exact Hh.
Defined.

(** The transfer that was deposited times out. *)
Definition xcm_transfer : PostRequest :=
  mkPostRequest here eth 0 contract contract 4600 (Byte.x00 :: abi_encode_body
    (mkBody (29950000000 * 10 ^ 8) (lit "DOT") false alice (padded contract))).
Definition expired : option (result AnyError DispatchResult) * St := timeout_post (RequestPost xcm_transfer) deposited.

Lemma gateway_timeout_never_refunded_witness :
  (forall ev, expired.1 <> Some (Ok (Ok ev))) /\ same_books deposited expired.2.
Proof.
  apply (gateway_timeout_never_refunded xcm_transfer
    (ProxyModule (Config0 := base_config (fun id => Err (IsmpError (ModuleNotFound id))))) deposited expired.1 expired.2).
  - reflexivity.
  - reflexivity.
  - vm_compute. reflexivity.
  - reflexivity.
  - apply surjective_pairing.
Defined.
End NexusDemo.
