(* ===== verification/Decompressor.v ===== *)
(** * The call decompressor

    [pallets/call-decompressor/src/lib.rs]: a call that carries another one, compressed. It
    accepts batches of ISMP messages and proofs of relayed messages. *)

From S2P Require Import Prelude StateMachine Router Messaging Host Handlers HostSpec Frame ChildTrie PalletTypes PalletHost PalletRefines Pallet Validation PalletFrames Apps Hyperbridge Relayer RefHost PalletDemo DemoCodec AppsDemo.

Definition ONE_MB : Z := 1000000.
Definition MAX_EXTRINSIC_DECODE_DEPTH_LIMIT : Z := 4.

(** [RuntimeCall]: the calls of the two pallets, and the others. *)
Inductive RuntimeCall : Type :=
| RcIsmp (call : Call)
| RcRelayer (call : RelayerCall)
| RcOther.

(** Library code: the streaming decoder of ruzstd, which is created if the header is right and
    whose [read] fills a prefix of the buffer; decoding with a depth limit; and the
    configuration of the pallet. *)
Class DecompressorEnv : Type := {
  decoder_new : bytes -> bool;
  decoder_read : bytes -> nat -> bytes;
  decoder_read_fits b n : (length (decoder_read b n) <= n)%nat;
  decode_with_depth_limit : Z -> bytes -> option RuntimeCall;
  MaxCallSize : Z
}.

Inductive DecompressorError : Type :=
| CallNotSupported
| ErrorExecutingCall
| DecompressionFailed
| ErrorDecodingCall
| CallSizeOutOfBound
| RelayerCallFailed (e : CallError RelayerError).

Section decompressor.
Context `{HK : Keccak256} `{HC : Codecs, !HeightSort, !ErrorText, !ChildRoot} `{!Codec Leaf}.
Context `{!Codec (Z * StateMachine), !Codec HyperbridgeMessage} `{!Crypto, !Rlp, !EthAbi, !HashOrder}.
Context `{!Codec WithdrawalProof, !Codec WithdrawalInputData} `{!Codec (list (list H256))}.
Context {Acc Tree : Type} `{!Currency Acc, !Mmr Tree, !Config (Apps Acc) Tree, !DecompressorEnv}.

Abbreviation St := (Chain (Apps Acc) Tree).
Implicit Types c : St.

(** The buffer has the announced size whatever was read into it. *)
Definition decompress (compressed : bytes) (encoded_call_size : Z) : result DecompressorError bytes :=
  if decoder_new compressed then
    let n := Z.to_nat encoded_call_size in
    let r := decoder_read compressed n in
    Ok (r ++ replicate (n - length r) Byte.x00)
  else Err DecompressionFailed.

Definition decode_and_execute (call_bytes : bytes) : M St (result DecompressorError unit) :=
  let? call := ret (ok_or (decode_with_depth_limit MAX_EXTRINSIC_DECODE_DEPTH_LIMIT call_bytes) ErrorDecodingCall) in
  match call with
  | RcIsmp (CallHandleUnsigned messages) =>
      let* r := handle_messages messages in
      ret (map_err (fun _ => ErrorExecutingCall) r)
  | RcRelayer (CallAccumulateFees withdrawal_proof) =>
      let* r := accumulate_fees OriginNone withdrawal_proof in
      ret (map_err RelayerCallFailed r)
  | _ => ret (Err CallNotSupported)
  end.

(** [MaxCallSize::get() * ONE_MB] on [u32]. *)
Definition max_call_size : Z := (MaxCallSize * ONE_MB) mod 2 ^ 32.

Definition decompress_call (origin : Origin) (compressed : bytes) (encoded_call_size : Z) :
    M St (result (CallError DecompressorError) unit) := transactional (
  let? _ := ret (call_none origin) in
  let? _ := ensure_not (negb (encoded_call_size <? max_call_size)) CallSizeOutOfBound in
  let? call_bytes := ret (decompress compressed encoded_call_size) in
  let? _ := decode_and_execute call_bytes in
  ret (Ok tt)).

(** What the transaction pool asks: the bound on the size is not among it. *)
Definition decompressor_validate_unsigned (compressed : bytes) (encoded_call_size : Z) :
    M St (result TransactionValidityError ValidTransaction) :=
  let? decompressed := ret (map_err (fun _ => InvalidCall) (decompress compressed encoded_call_size)) in
  let? call := ret (ok_or (decode_with_depth_limit MAX_EXTRINSIC_DECODE_DEPTH_LIMIT decompressed) InvalidCall) in
  let? tags :=
    match call with
    | RcIsmp (CallHandleUnsigned messages) =>
        let* v := validate_unsigned (CallHandleUnsigned messages) in
        ret (map_err (fun _ => InvalidCall) (result_map provides v))
    | RcRelayer (CallAccumulateFees withdrawal_proof) =>
        let* v := relayer_validate_unsigned (CallAccumulateFees withdrawal_proof) in
        ret (map_err (fun _ => InvalidCall) (result_map provides v))
    | _ => ret (Err InvalidCall)
    end in
  ret (Ok (mkValidTransaction 100 [] tags 25 true)).

(** ** Theorems *)

Lemma decompress_size compressed n b :
  0 <= n -> decompress compressed n = Ok b -> Z.of_nat (length b) = n.
Proof.
  unfold decompress. destruct (decoder_new compressed); [|done]. intros Hn [= <-].
  rewrite length_app, length_replicate. pose proof (decoder_read_fits compressed (Z.to_nat n)). lia.
Qed.

(** A batch in disguise. *)
Lemma execute_batch call_bytes msgs c :
  decode_with_depth_limit MAX_EXTRINSIC_DECODE_DEPTH_LIMIT call_bytes = Some (RcIsmp (CallHandleUnsigned msgs)) ->
  decode_and_execute call_bytes c
  = match handle_messages msgs c with
    | (Some r, c') => (Some (map_err (fun _ => ErrorExecutingCall) r), c')
    | (None, c') => (None, c')
    end.
Proof.
  intros Hd. unfold decode_and_execute. rewrite Hd. rewrite (try_ok _ _ c (RcIsmp (CallHandleUnsigned msgs)) c) by done.
  unfold bind. by destruct (handle_messages msgs c) as [[r|] c'].
Qed.

Lemma decompressed_run origin compressed size call_bytes msgs c :
  decompress compressed size = Ok call_bytes ->
  decode_with_depth_limit MAX_EXTRINSIC_DECODE_DEPTH_LIMIT call_bytes = Some (RcIsmp (CallHandleUnsigned msgs)) ->
  let run := decompress_call origin compressed size c in
  let plain := handle_unsigned OriginNone msgs c in
  (origin = OriginNone -> size < max_call_size ->
     run.2 = plain.2 /\ (run.1 = Some (Ok tt) <-> plain.1 = Some (Ok tt)) /\ (run.1 = None <-> plain.1 = None)) /\
  (origin <> OriginNone -> run = (Some (Err CallBadOrigin), c)) /\
  (origin = OriginNone -> max_call_size <= size -> run = (Some (Err (CallFailed CallSizeOutOfBound)), c)).
Proof.
  intros Hb Hd. cbv zeta. unfold decompress_call, handle_unsigned, transactional. split_and!.
  - intros -> Hs. rewrite !(try_ok _ _ c tt c) by done.
    destruct (Z.ltb_spec size max_call_size); [|lia]. cbn [negb].
    rewrite (try_ok _ _ c tt c) by done. rewrite Hb, (try_ok _ _ c call_bytes c) by done.
    unfold try_bind, bind. rewrite (execute_batch _ _ _ Hd). cbn [ensure_none ret].
    destruct (handle_messages msgs c) as [[[[]|e]|] c']; cbn; split_and!; done.
  - intros Ho. by destruct origin.
  - intros -> Hs. rewrite !(try_ok _ _ c tt c) by done.
    destruct (Z.ltb_spec size max_call_size); [lia|]. done.
Qed.

(** a compressed batch does what the batch does. When the bytes decompress, within the bound,
    to a call that handles a batch of messages, the call succeeds, fails or panics exactly when an
    unsigned call with that batch does, and leaves the same state; without an unsigned origin, or
    beyond the bound, it is refused and changes nothing. *)
Theorem decompressed_batch_equivalent origin compressed size call_bytes msgs c :
  decompress compressed size = Ok call_bytes ->
  decode_with_depth_limit MAX_EXTRINSIC_DECODE_DEPTH_LIMIT call_bytes = Some (RcIsmp (CallHandleUnsigned msgs)) ->
  let run := decompress_call origin compressed size c in
  let plain := handle_unsigned OriginNone msgs c in
  (origin = OriginNone -> size < max_call_size ->
     run.2 = plain.2 /\ (run.1 = Some (Ok tt) <-> plain.1 = Some (Ok tt)) /\ (run.1 = None <-> plain.1 = None)) /\
  (origin <> OriginNone -> run = (Some (Err CallBadOrigin), c)) /\
  (origin = OriginNone -> max_call_size <= size -> run = (Some (Err (CallFailed CallSizeOutOfBound)), c)).
Proof. apply decompressed_run. Qed.

Lemma validated_contents compressed size v c c1 :
  decompressor_validate_unsigned compressed size c = (Some (Ok v), c1) ->
  exists b call, decompress compressed size = Ok b /\
    decode_with_depth_limit MAX_EXTRINSIC_DECODE_DEPTH_LIMIT b = Some call /\
    ((exists msgs w, call = RcIsmp (CallHandleUnsigned msgs) /\
       validate_unsigned (CallHandleUnsigned msgs) c = (Some (Ok w), c1)) \/
     (exists p w, call = RcRelayer (CallAccumulateFees p) /\
       relayer_validate_unsigned (CallAccumulateFees p) c = (Some (Ok w), c1))).
Proof.
  unfold decompressor_validate_unsigned. intros Hrun. step_ret Hrun b Hb. apply map_err_ok in Hb.
  step_ret Hrun call Hcall. apply ok_or_ok in Hcall. exists b, call. split; [done|]. split; [done|].
  apply try_ok_inv in Hrun as (tags & c2 & Ht & Hrun). apply ret_inv in Hrun as [_ <-].
  destruct call as [[msgs|]|[p| |]|]; try (by apply ret_inv in Ht as [? _]).
  - left. apply bind_inv in Ht as (w & c3 & Hv & Ht). apply ret_inv in Ht as [Hw <-].
    destruct w as [w|]; [|done]. by exists msgs, w.
  - right. apply bind_inv in Ht as (w & c3 & Hv & Ht). apply ret_inv in Ht as [Hw <-].
    destruct w as [w|]; [|done]. by exists p, w.
Qed.

(** the pool and the chain agree on compressed batches of an acceptable size only. A
    transaction the pool accepts that carries a batch of messages is executed without error if its
    announced size is below the bound; but the pool does not look at the bound, and beyond it the
    transaction it has accepted always fails. *)
Theorem decompressor_validation compressed size v c c1 :
  decompressor_validate_unsigned compressed size c = (Some (Ok v), c1) ->
  (max_call_size <= size -> decompress_call OriginNone compressed size c = (Some (Err (CallFailed CallSizeOutOfBound)), c)) /\
  (forall b msgs, size < max_call_size -> decompress compressed size = Ok b ->
     decode_with_depth_limit MAX_EXTRINSIC_DECODE_DEPTH_LIMIT b = Some (RcIsmp (CallHandleUnsigned msgs)) ->
     exists c', decompress_call OriginNone compressed size c = (Some (Ok tt), c')).
Proof.
  intros Hv. split.
  - intros Hs. unfold decompress_call, transactional. rewrite (try_ok _ _ c tt c) by done.
    by destruct (Z.ltb_spec size max_call_size); [lia|].
  - intros b msgs Hs Hb Hd.
    destruct (validated_contents _ _ _ _ _ Hv) as (b' & call & Hb' & Hd' & Hcase).
    rewrite Hb in Hb'. injection Hb' as <-. rewrite Hd in Hd'. injection Hd' as <-.
    destruct Hcase as [(msgs' & w & E & Hval)|(? & ? & ? & _)]; [|done]. injection E as <-.
    destruct (validated_batch_handled _ _ _ _ Hval) as (c' & Hh). exists c'.
    destruct (decompressed_run OriginNone compressed size b msgs c Hb Hd) as (Heq & _ & _).
    destruct (Heq eq_refl Hs) as (E2 & [_ E1] & _). rewrite Hh in E1, E2. cbn [fst snd] in E1, E2.
    rewrite (surjective_pairing (decompress_call _ _ _ c)), E2. by rewrite (E1 eq_refl).
Qed.
End decompressor.

(** * A compressed batch

    The runtime of [AppsDemo] with a decompressor whose archives are a marker and the bytes, and
    one call behind them: the delivery of a request. *)

Module DecompressorDemo.

#[local] Existing Instances Demo.keccak Demo.sort PalletDemo.codecs PalletDemo.leaf_codec PalletDemo.ids_codec PalletDemo.currency PalletDemo.text PalletDemo.root AppsDemo.message_codec AppsDemo.nonce_codec AppsDemo.eth_abi AppsDemo.rlp AppsDemo.crypto AppsDemo.order AppsDemo.config.

#[local] Notation "a *c b" := (pair_codec a b) (at level 40, left associativity).
Definition key_codec : Codec Key :=
  via_codec (sum_codec string_codec (string_codec *c string_codec))
    (fun k => match k with KeyRequest h => inl h | KeyResponse a b => inr (a, b) end)
    (fun x => match x with inl h => KeyRequest h | inr p => KeyResponse p.1 p.2 end) ltac:(by intros []).
Definition proof_codec : Codec Proof_ :=
  via_codec (codec_height *c string_codec) (fun p => (proof_height p, proof_bytes p))
    (fun x => mkProof x.1 x.2) ltac:(by intros []).
#[local] Instance withdrawal_codec : Codec WithdrawalProof :=
  via_codec (list_codec key_codec *c proof_codec *c proof_codec)
    (fun w => (wp_commitments w, wp_source_proof w, wp_dest_proof w))
    (fun x => mkWithdrawalProof x.1.1 x.1.2 x.2) ltac:(by intros []).
Definition signature_codec : Codec Signature :=
  via_codec (sum_codec (string_codec *c string_codec) (sum_codec (string_codec *c string_codec) (string_codec *c string_codec)))
    (fun s => match s with
      | SigEvm a b => inl (a, b) | SigSr25519 a b => inr (inl (a, b)) | SigEd25519 a b => inr (inr (a, b))
      end)
    (fun x => match x with
      | inl p => SigEvm p.1 p.2 | inr (inl p) => SigSr25519 p.1 p.2 | inr (inr p) => SigEd25519 p.1 p.2
      end) ltac:(by intros []).
#[local] Instance input_codec : Codec WithdrawalInputData :=
  via_codec (signature_codec *c (PalletDemo.countable_codec : Codec StateMachine))
    (fun w => (wd_signature w, wd_dest_chain w)) (fun x => mkWithdrawalInputData x.1 x.2) ltac:(by intros []).

Definition delivered : PostRequest := mkPostRequest AppsDemo.first Demo.here 1 (lit "from") (lit "to") 5000 (lit "hello").
Definition batch : list Message :=
  [MsgRequest (mkRequestMessage [delivered] (mkProof (AppsDemo.at_first 3) (lit "ok")) (lit "relayer"))].

#[local] Program Instance decompressor_env : DecompressorEnv := {|
  decoder_new b := bool_decide (head b = Some Byte.x28);
  decoder_read b n := take n (tail b);
  decode_with_depth_limit _ b := if decide (take 5 b = lit "batch") then Some (RcIsmp (CallHandleUnsigned batch)) else None;
  MaxCallSize := 1
|}.
Next Obligation. intros b n. apply firstn_le_length. Qed.

Definition archive : bytes := Byte.x28 :: lit "batch".

Lemma decompressed_batch_equivalent_witness :
  (decompress_call OriginNone archive 5 AppsDemo.init).1 = Some (Ok tt) <->
  (handle_unsigned OriginNone batch AppsDemo.init).1 = Some (Ok tt).
Proof.
  destruct (decompressed_batch_equivalent OriginNone archive 5 (lit "batch") batch AppsDemo.init) as (H & _ & _).
  - reflexivity.
  - reflexivity.
  - destruct (H eq_refl) as (_ & E & _); [reflexivity|]. exact E.
Defined.

Lemma decompressor_validation_witness :
  exists c', decompress_call OriginNone archive 5 AppsDemo.init = (Some (Ok tt), c').
Proof.
  destruct (decompressor_validation archive 5
    (mkValidTransaction 100 [] [batch_tag [[AppsDemo.hash (RequestPost delivered)]]] 25 true) AppsDemo.init
    (snd (decompressor_validate_unsigned archive 5 AppsDemo.init))) as (_ & H).
  - apply (run_eq (decompressor_validate_unsigned archive 5) AppsDemo.init). vm_compute. reflexivity.
  - apply (H (lit "batch") batch); reflexivity.
Defined.

End DecompressorDemo.
