(* ===== verification/Mmr.v ===== *)
(** * The Merkle mountain range

    [trees/mmr/primitives/src/lib.rs] and [trees/mmr/pallet/src/{lib, mmr/mod, mmr/mmr,
    mmr/storage}.rs]: the tree that hyperbridge commits its messages to. Leaves are buffered
    while a block runs and appended when it ends; the chain keeps the hashes of the peaks
    only, every node goes to the off-chain database under a key of its fork. *)

From S2P Require Import Prelude StateMachine Router Messaging Host ChildTrie PalletTypes.

(** ** Nodes *)

Inductive DataOrHash : Type :=
| Data (leaf : Leaf)
| Hash (hash : H256).

#[export] Instance Leaf_eq_decision : EqDecision Leaf.
Proof. solve_decision. Defined.
#[export] Instance DataOrHash_eq_decision : EqDecision DataOrHash.
Proof. solve_decision. Defined.

Section nodes.
Context `{Keccak256} `{!Codec Leaf, !Codec bytes}.

(** [DataOrHash::hash]: hashing a leaf may panic. *)
Definition node_hash (n : DataOrHash) : option H256 :=
  match n with
  | Data leaf => keccak256 <$> preimage leaf
  | Hash h => Some h
  end.

(** [Either::Left] of the encoded leaf, or [Either::Right] of the hash. *)
Definition encode_node (n : DataOrHash) : bytes :=
  match n with
  | Data l => Byte.x00 :: encode (encode l)
  | Hash h => Byte.x01 :: h
  end.

Definition decode_node (b : bytes) : option DataOrHash :=
  match b with
  | Byte.x00 :: r => data ← decode (A := bytes) r; Data <$> decode data
  | Byte.x01 :: r => if (32 <=? length r)%nat then Some (Hash (take 32 r)) else None
  | _ => None
  end.

(** [Hasher::merge] *)
Definition merge (left right : DataOrHash) : option DataOrHash :=
  l ← node_hash left; r ← node_hash right; Some (Hash (keccak256 (l ++ r))).

End nodes.

(** ** Library code

    [helper] and [leaf_index_to_pos] of the crate merkle-mountain-range, [NodesUtils] of
    sp-mmr-primitives ([nodes_size n] is the number of nodes over [n] leaves). *)
Class MmrHelpers : Type := {
  get_peaks : Z -> list Z;
  pos_height_in_tree : Z -> nat;
  parent_offset : nat -> Z;
  sibling_offset : nat -> Z;
  leaf_index_to_pos : Z -> Z;
  nodes_size : Z -> Z;
  temp_offchain_key : bytes -> Z -> H256 -> bytes;
  canon_offchain_key : bytes -> Z -> bytes
}.

(** [MMR]: nodes that are not in the store yet are kept in a batch, which [commit] appends to
    the store piece by piece. Reading the store may fail, merging may panic. Proofs are lists of
    nodes. *)
Class MmrLib : Type := {
  MMR : Type;
  mmr_new : Z -> MMR;
  lib_size : MMR -> Z;
  lib_batch : MMR -> list (Z * list DataOrHash);
  lib_push : (DataOrHash -> DataOrHash -> option DataOrHash) -> (Z -> result bytes (option DataOrHash)) ->
    DataOrHash -> MMR -> option (result bytes (Z * MMR));
  lib_get_root : (DataOrHash -> DataOrHash -> option DataOrHash) -> (Z -> result bytes (option DataOrHash)) ->
    MMR -> option (result bytes DataOrHash);
  lib_gen_proof : (DataOrHash -> DataOrHash -> option DataOrHash) -> (Z -> result bytes (option DataOrHash)) ->
    MMR -> list Z -> option (result bytes (list DataOrHash));
  lib_verify : (DataOrHash -> DataOrHash -> option DataOrHash) -> Z -> list DataOrHash -> DataOrHash ->
    list (Z * DataOrHash) -> option (result bytes bool)
}.

Inductive MmrError : Type :=
| MmrPush
| MmrGetRoot
| MmrCommit
| MmrGenerateProof
| MmrVerify
| MmrLeafNotFound.

(** ** Positions and indices *)

(** [take_while_vec]: what is drained, and what stays in the vector. *)
Fixpoint take_while_vec {T} (p : T -> bool) (v : list T) : list T * list T :=
  match v with
  | [] => ([], [])
  | x :: r => if p x then let d := take_while_vec p r in (x :: d.1, d.2) else ([], v)
  end.

Section k_index.
Context `{!MmrHelpers}.

(** The loop from the peak down to the layer of the leaves, on [u64] and [usize]. *)
Fixpoint descend (pos : Z) (height : nat) (parent_pos index : Z) : Z :=
  match height with
  | O => index
  | S h =>
      let left_child := wrap64 (parent_pos - parent_offset h) in
      let right_child := wrap64 (left_child + sibling_offset h) in
      let index := wrap64 (index * 2) in
      if pos <=? left_child then descend pos h left_child index
      else descend pos h right_child (wrap64 (index + 1))
  end.

Fixpoint k_indices (peaks leaves : list Z) : list (Z * Z) :=
  match peaks with
  | [] => []
  | peak :: peaks =>
      let d := take_while_vec (fun pos => pos <=? peak) leaves in
      ((fun pos => (pos, descend pos (pos_height_in_tree peak) peak 0)) <$> d.1) ++ k_indices peaks d.2
  end.

Definition mmr_position_to_k_index (leaves : list Z) (mmr_size : Z) : list (Z * Z) :=
  k_indices (get_peaks mmr_size) leaves.

End k_index.

(** ** Storage *)

Record MmrPallet : Type := mkMmrPallet {
  RootHash : H256;
  NumberOfLeaves : Z;
  InitialHeight : option Z;
  IntermediateLeaves : gmap Z Leaf;
  Nodes : gmap Z H256;
  mmr_offchain : gmap bytes bytes
}.

Definition on_RootHash f (t : MmrPallet) := mkMmrPallet (f (RootHash t)) (NumberOfLeaves t) (InitialHeight t)
  (IntermediateLeaves t) (Nodes t) (mmr_offchain t).
Definition on_NumberOfLeaves f (t : MmrPallet) := mkMmrPallet (RootHash t) (f (NumberOfLeaves t)) (InitialHeight t)
  (IntermediateLeaves t) (Nodes t) (mmr_offchain t).
Definition on_InitialHeight f (t : MmrPallet) := mkMmrPallet (RootHash t) (NumberOfLeaves t) (f (InitialHeight t))
  (IntermediateLeaves t) (Nodes t) (mmr_offchain t).
Definition on_IntermediateLeaves f (t : MmrPallet) := mkMmrPallet (RootHash t) (NumberOfLeaves t) (InitialHeight t)
  (f (IntermediateLeaves t)) (Nodes t) (mmr_offchain t).
Definition on_Nodes f (t : MmrPallet) := mkMmrPallet (RootHash t) (NumberOfLeaves t) (InitialHeight t)
  (IntermediateLeaves t) (f (Nodes t)) (mmr_offchain t).
Definition on_mmr_offchain f (t : MmrPallet) := mkMmrPallet (RootHash t) (NumberOfLeaves t) (InitialHeight t)
  (IntermediateLeaves t) (Nodes t) (f (mmr_offchain t)).

(** Consuming the common prefix of two lists of peaks. When the lists are the same the loop of
    [peaks_to_prune_and_store] compares [None] with [None] for ever. *)
Fixpoint consume_prefix (before after : list Z) : option (list Z * list Z) :=
  match before, after with
  | [], [] => None
  | p :: before', q :: after' =>
      if p =? q then consume_prefix before' after' else Some (before, after)
  | _, _ => Some (before, after)
  end.

Section storage.
Context `{HK : Keccak256} `{!Codec Leaf, !Codec bytes} `{!MmrHelpers}.

(** [T::INDEXING_PREFIX] and [T::ForkIdentifierProvider] in the current block. *)
Variable INDEXING_PREFIX : bytes.
Variable fork_identifier : H256.

Definition peaks_to_prune_and_store (old_size new_size : Z) : option (list Z * list Z) :=
  let peaks_before := if old_size =? 0 then [] else get_peaks old_size in
  consume_prefix peaks_before (get_peaks new_size).

(** The elements on chain are the peaks. *)
Definition runtime_get_elem (t : MmrPallet) (pos : Z) : result bytes (option DataOrHash) :=
  Ok (Hash <$> Nodes t !! pos).

(** Off chain they are under their canonical key, once they have one. *)
Definition offchain_get_elem (t : MmrPallet) (pos : Z) : result bytes (option DataOrHash) :=
  match mmr_offchain t !! canon_offchain_key INDEXING_PREFIX pos with
  | Some elem => Ok (decode_node elem)
  | None => Err (lit "InconsistentStore")
  end.

Definition store_to_offchain (pos : Z) (node : DataOrHash) : M MmrPallet unit :=
  modify (on_mmr_offchain <[temp_offchain_key INDEXING_PREFIX pos fork_identifier := encode_node node]>).

(** [next_if_eq] *)
Definition next_if_eq (node_index : Z) (peaks_to_store : list Z) : bool * list Z :=
  match peaks_to_store with
  | p :: r => if p =? node_index then (true, r) else (false, peaks_to_store)
  | [] => (false, [])
  end.

(** The loop of [append]: it returns the new number of leaves. *)
Fixpoint append_elems (elems : list DataOrHash) (peaks_to_store : list Z) (leaf_index node_index : Z) :
    M MmrPallet Z :=
  match elems with
  | [] => ret leaf_index
  | elem :: elems =>
      let n := next_if_eq node_index peaks_to_store in
      let* _ := (if n.1 then let* h := or_panic (node_hash elem) in modify (on_Nodes <[node_index := h]>)
                 else ret tt) in
      let* _ := store_to_offchain node_index elem in
      append_elems elems n.2 (match elem with Data _ => leaf_index + 1 | Hash _ => leaf_index end) (node_index + 1)
  end.

Definition append (pos : Z) (elems : list DataOrHash) : M MmrPallet (result bytes unit) :=
  match elems with
  | [] => ret (Ok tt)
  | _ =>
      let* leaves := gets NumberOfLeaves in
      let size := nodes_size leaves in
      if negb (pos =? size) then ret (Err (lit "InconsistentStore"))
      else
        let new_size := size + Z.of_nat (length elems) in
        let* (peaks_to_prune, peaks_to_store) := or_panic (peaks_to_prune_and_store size new_size) in
        let* leaf_index := append_elems elems peaks_to_store leaves size in
        let* _ := modify (on_NumberOfLeaves (fun _ => leaf_index)) in
        let* _ := modify (on_Nodes (fun nodes => foldl (fun m pos => delete pos m) nodes peaks_to_prune)) in
        ret (Ok tt)
  end.

(** ** The wrapper ([mmr.rs]) *)

Context `{!MmrLib}.

(** [Mmr::push] *)
Definition wrapper_push (leaf : Leaf) (mmr : MMR) : M MmrPallet (result MmrError MMR) :=
  let* pushed := ask (fun t => lib_push merge (runtime_get_elem t) (Data leaf) mmr) in
  ret (match pushed with Ok (_, mmr') => Ok mmr' | Err _ => Err MmrPush end).

(** [Mmr::finalize]: the root, then [commit], which appends what was pushed. *)
Definition wrapper_finalize (mmr : MMR) : M MmrPallet (result MmrError H256) :=
  let* root := ask (fun t => lib_get_root merge (runtime_get_elem t) mmr) in
  let? root := ret (map_err (fun _ => MmrGetRoot) root) in
  let* committed := for_each (lib_batch mmr) (fun e => append e.1 e.2) in
  let? _ := ret (map_err (fun _ => MmrCommit) committed) in
  let* h := or_panic (node_hash root) in
  ret (Ok h).

(** ** The pallet ([lib.rs]) *)

Definition mmr_on_initialize (block_number : Z) : M MmrPallet unit :=
  let* leaves := gets NumberOfLeaves in
  let* initial := gets InitialHeight in
  if (0 <? leaves) && negb (bool_decide (is_Some initial))
  then modify (on_InitialHeight (fun _ => Some (block_number - 1))) else ret tt.

Definition leaf_count (t : MmrPallet) : Z := NumberOfLeaves t.

Definition buffered (t : MmrPallet) : Z := Z.of_nat (size (IntermediateLeaves t)).

Definition pallet_push (leaf : Leaf) : M MmrPallet LeafIndexAndPos :=
  let* temp_count := gets buffered in
  let* leaves := gets NumberOfLeaves in
  let index := wrap64 (leaves + temp_count) in
  let* _ := modify (on_IntermediateLeaves <[temp_count := leaf]>) in
  ret (mkLeafIndexAndPos index (leaf_index_to_pos index)).

Definition push_buffered (mmr : MMR) (index : Z) : M MmrPallet (result MmrError MMR) :=
  let* leaf := ask (fun t => IntermediateLeaves t !! index) in
  wrapper_push leaf mmr.

Definition range (n : Z) : list Z := Z.of_nat <$> seq 0 (Z.to_nat n).

Definition finalize : M MmrPallet (result MmrError H256) :=
  let* buffer_len := gets buffered in
  if buffer_len =? 0 then let* root := gets RootHash in ret (Ok root)
  else
    let* leaves := gets NumberOfLeaves in
    let? mmr := try_fold_m push_buffered (mmr_new (nodes_size leaves)) (range buffer_len) in
    let* finalized := wrapper_finalize mmr in
    let? root := ret (map_err (fun _ => MmrCommit) finalized) in
    let* _ := modify (on_IntermediateLeaves (fun _ => ∅)) in
    let* _ := modify (on_NumberOfLeaves (fun _ => leaves + buffer_len)) in
    let* _ := modify (on_RootHash (fun _ => root)) in
    ret (Ok root).

Definition pallet_get_leaf (pos : Z) (t : MmrPallet) : result MmrError (option Leaf) :=
  map_err (fun _ => MmrLeafNotFound)
    (result_map (fun val => match val with Some (Data leaf) => Some leaf | _ => None end) (offchain_get_elem t pos)).

(** ** Proofs *)

Record LeafProof : Type := mkLeafProof {
  lp_leaf_indices : list Z;
  lp_leaf_count : Z;
  lp_items : list H256
}.

Definition leaf_at_pos (t : MmrPallet) (pos : Z) : result MmrError Leaf :=
  match offchain_get_elem t pos with
  | Ok (Some (Data leaf)) => Ok leaf
  | _ => Err MmrLeafNotFound
  end.

Definition generate_proof (indices : list Z) : M MmrPallet (result MmrError (list Leaf * LeafProof)) :=
  let* leaf_count := gets NumberOfLeaves in
  let positions := leaf_index_to_pos <$> indices in
  let? leaves := gets (fun t => collect_results (leaf_at_pos t <$> positions)) in
  let* items := ask (fun t => lib_gen_proof merge (offchain_get_elem t) (mmr_new (nodes_size leaf_count)) positions) in
  let? items := ret (map_err (fun _ => MmrGenerateProof) items) in
  let* hashes := or_panic (mapM node_hash items) in
  ret (Ok (leaves, mkLeafProof indices leaf_count hashes)).

(** The stateless [verify_leaves_proof]. *)
Definition verify_leaves_proof (root : H256) (leaves : list DataOrHash) (proof : LeafProof) :
    option (result MmrError unit) :=
  if negb (length leaves =? length (lp_leaf_indices proof))%nat then Some (Err MmrVerify)
  else
    r ← lib_verify merge (nodes_size (lp_leaf_count proof)) (Hash <$> lp_items proof) (Hash root)
          (zip (leaf_index_to_pos <$> lp_leaf_indices proof) leaves);
    Some (match r with Ok true => Ok tt | _ => Err MmrVerify end).

(** [verify_leaves]: the root is computed from the nodes off chain. *)
Definition verify_leaves (leaves : list Leaf) (proof : LeafProof) : M MmrPallet (result MmrError unit) :=
  let* count := gets NumberOfLeaves in
  if (count <? lp_leaf_count proof) || (lp_leaf_count proof =? 0) ||
     (lp_leaf_count proof <? Z.of_nat (length (lp_items proof) + length leaves))
  then ret (Err MmrVerify)
  else if negb (length leaves =? length (lp_leaf_indices proof))%nat then ret (Err MmrVerify)
  else
    let mmr := mmr_new (nodes_size (lp_leaf_count proof)) in
    let* root := ask (fun t => lib_get_root merge (offchain_get_elem t) mmr) in
    let? root := ret (map_err (fun _ => MmrGetRoot) root) in
    let* r := or_panic (lib_verify merge (nodes_size (lp_leaf_count proof)) (Hash <$> lp_items proof) root
        (zip (leaf_index_to_pos <$> lp_leaf_indices proof) (Data <$> leaves))) in
    ret (match r with Ok true => Ok tt | _ => Err MmrVerify end).

(** The tree as pallet-ismp uses it. Proofs are generated off chain, where a panic fails the call. *)
Definition error_name (e : MmrError) : bytes :=
  lit (match e with
       | MmrPush => "Push" | MmrGetRoot => "GetRoot" | MmrCommit => "Commit"
       | MmrGenerateProof => "GenerateProof" | MmrVerify => "Verify" | MmrLeafNotFound => "LeafNotFound"
       end).

Definition MerkleMountainRange : Mmr MmrPallet := {|
  mmr_push := pallet_push;
  mmr_get_leaf pos t := map_err error_name (pallet_get_leaf pos t);
  mmr_generate_proof indices t :=
    match (generate_proof indices t).1 with
    | Some (Ok (leaves, p)) => Ok (leaves, (lp_leaf_count p, lp_items p))
    | Some (Err e) => Err (error_name e)
    | None => Err []
    end;
  mmr_finalize := let* r := finalize in ret (map_err error_name r);
  local_storage_get k t := mmr_offchain t !! k
|}.

End storage.
