(* ===== verification/MmrProps.v ===== *)
(** * Properties of the Merkle mountain range

    What the library of mountain ranges is documented to do, and what the pallet makes of it:
    indices, the peaks on chain, and where the leaves of a block end up. *)

From S2P Require Import Prelude StateMachine Router Messaging Host ChildTrie PalletTypes Mmr.

(** ** Indices *)

Class OffsetLaws `{!MmrHelpers} : Prop := {
  parent_offset_spec h : parent_offset h = 2 ^ (Z.of_nat h + 1);
  sibling_offset_spec h : sibling_offset h = 2 ^ (Z.of_nat h + 1) - 1
}.

(** The positions of a perfect tree with [2 ^ h] leaves whose first node is at [first], in
    post-order: its peak, and its leaf number [i]. *)
Definition peak_of (first : Z) (h : nat) : Z := first + 2 ^ (Z.of_nat h + 1) - 2.
Fixpoint leaf_at (h : nat) (first i : Z) : Z :=
  match h with
  | O => first
  | S h' =>
      if i <? 2 ^ Z.of_nat h' then leaf_at h' first i
      else leaf_at h' (first + 2 ^ (Z.of_nat h' + 1) - 1) (i - 2 ^ Z.of_nat h')
  end.

(** Mountains side by side, each with the indices of some of its leaves. *)
Fixpoint side_by_side (first : Z) (ms : list (nat * list Z)) : list (Z * nat * list Z) :=
  match ms with
  | [] => []
  | (h, js) :: ms => (first, h, js) :: side_by_side (peak_of first h + 1) ms
  end.

Definition mountain_peak (m : Z * nat * list Z) : Z := peak_of m.1.1 m.1.2.
Definition mountain_leaves (m : Z * nat * list Z) : list Z := leaf_at m.1.2 m.1.1 <$> m.2.
Definition mountain_indices (m : Z * nat * list Z) : list (Z * Z) := (fun i => (leaf_at m.1.2 m.1.1 i, i)) <$> m.2.
Definition indices_fit (m : nat * list Z) : Prop := Forall (fun i => 0 <= i < 2 ^ Z.of_nat m.1) m.2.

Lemma pow2_succ h : 2 ^ Z.of_nat (S h) = 2 * 2 ^ Z.of_nat h.
Proof. rewrite Nat2Z.inj_succ, Z.pow_succ_r; lia. Qed.
Lemma pow2_add1 h : 2 ^ (Z.of_nat h + 1) = 2 * 2 ^ Z.of_nat h.
Proof. rewrite Z.pow_add_r; lia. Qed.
Lemma pow2_pos h : 0 < 2 ^ Z.of_nat h.
Proof. apply Z.pow_pos_nonneg; lia. Qed.

Ltac pow2 := unfold peak_of in *; rewrite ?pow2_add1, ?pow2_succ in *; repeat match goal with
  | h : nat |- _ => lazymatch goal with Hp : 0 < 2 ^ Z.of_nat h |- _ => fail | _ => pose proof (pow2_pos h) end
  end.

Lemma leaf_at_bounds h first i : 0 <= i < 2 ^ Z.of_nat h -> first <= leaf_at h first i <= peak_of first h.
Proof.
  revert first i; induction h as [|h IH]; intros first i Hi; cbn [leaf_at].
  - unfold peak_of. cbn. lia.
  - pow2. destruct (Z.ltb_spec i (2 ^ Z.of_nat h)).
    + specialize (IH first i ltac:(lia)). pow2. lia.
    + specialize (IH (first + 2 * 2 ^ Z.of_nat h - 1) (i - 2 ^ Z.of_nat h) ltac:(lia)). pow2. lia.
Qed.

Lemma wrap64_small z : 0 <= z < 2 ^ 64 -> wrap64 z = z.
Proof. intros. apply Z.mod_small. lia. Qed.

Section indices.
Context `{!MmrHelpers, !OffsetLaws}.

Lemma descend_leaf h first i index :
  0 <= first -> peak_of first h < 2 ^ 64 -> 0 <= i < 2 ^ Z.of_nat h -> 0 <= index -> (index + 1) * 2 ^ Z.of_nat h <= 2 ^ 64 ->
  descend (leaf_at h first i) h (peak_of first h) index = index * 2 ^ Z.of_nat h + i.
Proof.
  revert first i index; induction h as [|h IH]; intros first i index Hf Hp Hi Hx Hw.
  - cbn in *. lia.
  - cbn [descend leaf_at]. rewrite parent_offset_spec, sibling_offset_spec.
    assert (El : peak_of first (S h) - 2 ^ (Z.of_nat h + 1) = peak_of first h) by (pow2; lia).
    assert (Er : peak_of first h + (2 ^ (Z.of_nat h + 1) - 1) = peak_of (first + 2 ^ (Z.of_nat h + 1) - 1) h) by (pow2; lia).
    rewrite El, (wrap64_small (peak_of first h)) by (pow2; lia). rewrite Er, (wrap64_small (peak_of (first + 2 ^ (Z.of_nat h + 1) - 1) h)) by (pow2; lia).
    rewrite (wrap64_small (index * 2)) by (pow2; nia).
    destruct (Z.ltb_spec i (2 ^ Z.of_nat h)) as [Hl|Hl].
    + pose proof (leaf_at_bounds h first i ltac:(lia)). destruct (Z.leb_spec (leaf_at h first i) (peak_of first h)); [|lia].
      rewrite IH; pow2; nia.
    + set (f := first + 2 ^ (Z.of_nat h + 1) - 1) in *.
      assert (Hi' : 0 <= i - 2 ^ Z.of_nat h < 2 ^ Z.of_nat h) by (pow2; lia).
      pose proof (leaf_at_bounds h f _ Hi'). subst f.
      destruct (Z.leb_spec (leaf_at h (first + 2 ^ (Z.of_nat h + 1) - 1) (i - 2 ^ Z.of_nat h)) (peak_of first h)); [pow2; lia|].
      rewrite wrap64_small by (pow2; nia). rewrite IH; pow2; nia.
Qed.

Lemma take_while_vec_app {T} (p : T -> bool) l r :
  Forall (fun x => p x = true) l -> match r with [] => True | x :: _ => p x = false end ->
  take_while_vec p (l ++ r) = (l, r).
Proof.
  intros Hl Hr. induction Hl as [|x l Hx Hl IH]; cbn.
  - destruct r as [|y r]; [done|]. cbn. by rewrite Hr.
  - by rewrite Hx, IH.
Qed.

(** Everything further right lies past the peak. *)
Lemma side_by_side_right first ms x :
  Forall indices_fit ms -> x ∈ concat (mountain_leaves <$> side_by_side first ms) -> first <= x.
Proof.
  revert first; induction ms as [|[h js] ms IH]; intros first Hf Hx; cbn in Hx; [by apply not_elem_of_nil in Hx|].
  apply Forall_cons in Hf as [Hj Hf]. apply elem_of_app in Hx as [Hx|Hx].
  - apply list_elem_of_fmap in Hx as (i & -> & Hi). eapply Forall_forall in Hj; [|done]. by apply leaf_at_bounds.
  - specialize (IH _ Hf Hx). pow2. lia.
Qed.

Lemma k_indices_mountains first ms :
  0 <= first -> Forall indices_fit ms ->
  Forall (fun m => mountain_peak m < 2 ^ 64 /\ pos_height_in_tree (mountain_peak m) = m.1.2) (side_by_side first ms) ->
  k_indices (mountain_peak <$> side_by_side first ms) (concat (mountain_leaves <$> side_by_side first ms))
  = concat (mountain_indices <$> side_by_side first ms).
Proof.
  revert first; induction ms as [|[h js] ms IH]; intros first H0' Hf Hp; [done|].
  apply Forall_cons in Hf as [Hj Hf]. cbn in Hp |- *. apply Forall_cons in Hp as [[Hp Hh] Hps].
  unfold mountain_peak in Hp, Hh. cbn in Hp, Hh.
  rewrite take_while_vec_app; cbn [fst snd].
  - rewrite IH; [|pow2; lia|done|done]. f_equal. unfold mountain_leaves, mountain_indices. cbn.
    rewrite <- list_fmap_compose. apply list_fmap_ext. intros k i Hk. cbn. f_equal.
    apply list_elem_of_lookup_2 in Hk. eapply Forall_forall in Hj; [|done].
    unfold mountain_peak; cbn [fst snd]. rewrite Hh.
    rewrite descend_leaf; [lia|done|done|done|lia|]. pow2. lia.
  - apply Forall_forall. intros x Hx. apply list_elem_of_fmap in Hx as (i & -> & Hi). eapply Forall_forall in Hj; [|done].
    apply Z.leb_le. by apply (leaf_at_bounds h first i).
  - destruct (concat _) as [|x r] eqn:E; [done|]. apply Z.leb_gt.
    pose proof (side_by_side_right (peak_of first h + 1) ms x Hf) as Hr. rewrite E in Hr.
    specialize (Hr ltac:(apply list_elem_of_here)). unfold mountain_peak; cbn. lia.
Qed.

(** the k-index of a leaf is its index in its mountain. For a range whose peaks are those of
    perfect trees side by side, the leaves asked for, given mountain by mountain in any order
    within a mountain, are returned in the same order, each with its number among the leaves of
    its own tree, counted from the left. *)
Theorem k_index_correct ms mmr_size :
  get_peaks mmr_size = mountain_peak <$> side_by_side 0 ms -> Forall indices_fit ms ->
  Forall (fun m => mountain_peak m < 2 ^ 64 /\ pos_height_in_tree (mountain_peak m) = m.1.2) (side_by_side 0 ms) ->
  mmr_position_to_k_index (concat (mountain_leaves <$> side_by_side 0 ms)) mmr_size
  = concat (mountain_indices <$> side_by_side 0 ms).
Proof.
  intros Hg Hf Hp. unfold mmr_position_to_k_index. rewrite Hg. by apply k_indices_mountains.
Qed.
End indices.

(** ** The peaks on chain *)

(** What is documented of mountain ranges: a range without leaves has no nodes; the leaf that is
    appended next goes to the position after the last node; it merges with the last mountains
    into one, whose peak is the last node. The keys of the off-chain database are encodings. *)
Class RangeLaws `{!MmrHelpers} : Prop := {
  nodes_size_zero : nodes_size 0 = 0;
  nodes_size_grows n : 0 <= n -> 0 <= nodes_size n < nodes_size (n + 1);
  leaf_pos_next n : 0 <= n -> leaf_index_to_pos n = nodes_size n;
  peaks_in_range n : 0 < n -> NoDup (get_peaks (nodes_size n)) /\ Forall (fun p => 0 <= p < nodes_size n) (get_peaks (nodes_size n));
  peaks_step n : 0 <= n -> exists kept merged,
    (if n =? 0 then [] else get_peaks (nodes_size n)) = kept ++ merged /\
    get_peaks (nodes_size (n + 1)) = kept ++ [nodes_size (n + 1) - 1];
  temp_key_inj prefix i j f g : 0 <= i -> 0 <= j ->
    temp_offchain_key prefix i f = temp_offchain_key prefix j g -> i = j /\ f = g
}.

Section peaks.
Context `{HK : Keccak256} `{!Codec Leaf, !Codec bytes} `{!MmrHelpers, !RangeLaws}.
Variable INDEXING_PREFIX : bytes.
Variable fork_identifier : H256.
Implicit Types t : MmrPallet.

Abbreviation append := (append INDEXING_PREFIX fork_identifier).
Abbreviation append_elems := (append_elems INDEXING_PREFIX fork_identifier).
Abbreviation temp_key pos := (temp_offchain_key INDEXING_PREFIX pos fork_identifier).

(** The peaks of a range with [n] leaves. *)
Definition peaks_of (n : Z) : list Z := if n =? 0 then [] else get_peaks (nodes_size n).

(** The state between blocks: the chain holds exactly the peaks. *)
Definition tree_ok t : Prop := 0 <= NumberOfLeaves t /\ dom (Nodes t) = list_to_set (peaks_of (NumberOfLeaves t)).

Lemma peaks_of_range n : 0 <= n -> NoDup (peaks_of n) /\ Forall (fun p => 0 <= p < nodes_size n) (peaks_of n).
Proof.
  intros Hn. unfold peaks_of. destruct (Z.eqb_spec n 0); [|apply peaks_in_range; lia]. split; constructor.
Qed.

Lemma consume_prefix_app kept before after :
  (match before, after with [], [] => False | p :: _, q :: _ => p <> q | _, _ => True end) ->
  consume_prefix (kept ++ before) (kept ++ after) = Some (before, after).
Proof.
  intros Hd. induction kept as [|p kept IH]; cbn.
  - destruct before as [|p before], after as [|q after]; try done. cbn. by destruct (Z.eqb_spec p q).
  - by rewrite Z.eqb_refl.
Qed.

(** The loop that drops the common prefix ends, with the merged peaks and the new one. *)
Lemma peaks_split n : 0 <= n -> exists kept merged,
  peaks_of n = kept ++ merged /\ peaks_of (n + 1) = kept ++ [nodes_size (n + 1) - 1] /\
  peaks_to_prune_and_store (nodes_size n) (nodes_size (n + 1)) = Some (merged, [nodes_size (n + 1) - 1]).
Proof.
  intros Hn. destruct (peaks_step n Hn) as (kept & merged & Hb & Ha). exists kept, merged.
  assert (Ezero : (nodes_size n =? 0) = (n =? 0)).
  { destruct (Z.eqb_spec n 0) as [->|Hne]; [by rewrite nodes_size_zero|]. apply Z.eqb_neq.
    pose proof (nodes_size_grows (n - 1)) as Hg. rewrite Z.sub_add in Hg. lia. }
  assert (Ea : peaks_of (n + 1) = kept ++ [nodes_size (n + 1) - 1])
    by (unfold peaks_of; destruct (Z.eqb_spec (n + 1) 0); [lia|done]).
  split; [done|]. split; [done|]. unfold peaks_to_prune_and_store. rewrite Ezero, Hb, Ha. apply consume_prefix_app.
  destruct merged as [|p merged]; [done|]. pose proof (proj2 (peaks_of_range n Hn)) as Hr. unfold peaks_of in Hr.
  rewrite Hb in Hr. apply Forall_app in Hr as [_ Hr]. apply Forall_cons in Hr as [Hr _].
  pose proof (nodes_size_grows n Hn). lia.
Qed.

(** What the loop of [append] writes. *)
Fixpoint put_nodes (node_index : Z) (elems : list DataOrHash) (db : gmap bytes bytes) : gmap bytes bytes :=
  match elems with
  | [] => db
  | e :: elems => put_nodes (node_index + 1) elems (<[temp_key node_index := encode_node e]> db)
  end.
Fixpoint count_data (elems : list DataOrHash) : Z :=
  match elems with [] => 0 | Data _ :: r => 1 + count_data r | Hash _ :: r => count_data r end.

Lemma append_elems_run elems e h leaf_index node_index t :
  node_hash e = Some h ->
  append_elems (elems ++ [e]) [node_index + Z.of_nat (length elems)] leaf_index node_index t
  = (Some (leaf_index + count_data (elems ++ [e])),
     on_mmr_offchain (put_nodes node_index (elems ++ [e])) (on_Nodes <[node_index + Z.of_nat (length elems) := h]> t)).
Proof.
  intros He. revert leaf_index node_index t; induction elems as [|x elems IH]; intros leaf_index node_index t; cbn [app].
  - cbn [Mmr.append_elems next_if_eq length]. rewrite Z.add_0_r, Z.eqb_refl, He. cbn. unfold ret. repeat f_equal.
    destruct e; lia.
  - cbn [Mmr.append_elems next_if_eq length]. destruct (Z.eqb_spec (node_index + Z.of_nat (S (length elems))) node_index); [lia|].
    cbn [fst snd]. replace (node_index + Z.of_nat (S (length elems))) with (node_index + 1 + Z.of_nat (length elems)) by lia.
    unfold bind at 1 2; cbn [ret store_to_offchain modify]. rewrite IH. cbn [put_nodes]. f_equal. f_equal. destruct x; cbn; lia.
Qed.

Lemma put_nodes_app i a b db : put_nodes i (a ++ b) db = put_nodes (i + Z.of_nat (length a)) b (put_nodes i a db).
Proof.
  revert i db; induction a as [|x a IH]; intros i db; cbn [app put_nodes length]; [by rewrite Z.add_0_r|].
  rewrite IH. f_equal. lia.
Qed.

(** Only keys of this fork, from the given position on, are written. *)
Lemma put_nodes_other i elems db k :
  (forall j, i <= j < i + Z.of_nat (length elems) -> k <> temp_key j) -> put_nodes i elems db !! k = db !! k.
Proof.
  revert i db; induction elems as [|x elems IH]; intros i db Hk; [done|]. cbn [put_nodes length] in *.
  rewrite IH by (intros j Hj; apply Hk; lia). apply lookup_insert_ne. symmetry. apply Hk. lia.
Qed.

Lemma put_nodes_first i e elems db : 0 <= i -> put_nodes i (e :: elems) db !! temp_key i = Some (encode_node e).
Proof.
  intros Hi. cbn [put_nodes]. rewrite put_nodes_other; [by rewrite lookup_insert_eq|].
  intros j Hj E. apply temp_key_inj in E as [E _]; lia.
Qed.

Lemma delete_all_dom (m : gmap Z H256) l : dom (foldl (fun m pos => delete pos m) m l) = dom m ∖ list_to_set l.
Proof.
  revert m; induction l as [|p l IH]; intros m; cbn [foldl list_to_set]; [set_solver|].
  rewrite IH, dom_delete_L. set_solver.
Qed.

(** One leaf with the nodes it completes. *)
Lemma append_leaf n l hs t :
  tree_ok t -> NumberOfLeaves t = n -> is_Some (preimage l) ->
  Z.of_nat (length hs) + 1 = nodes_size (n + 1) - nodes_size n ->
  exists nodes, dom nodes = list_to_set (peaks_of (n + 1)) /\
    append (nodes_size n) (Data l :: (Hash <$> hs)) t
    = (Some (Ok tt), mkMmrPallet (RootHash t) (n + 1) (InitialHeight t) (IntermediateLeaves t) nodes
        (put_nodes (nodes_size n) (Data l :: (Hash <$> hs)) (mmr_offchain t))).
Proof.
  intros [Hn Hd] <- [pre Hpre] Hlen. set (n := NumberOfLeaves t) in *.
  destruct (peaks_split n Hn) as (kept & merged & Eb & Ea & Esplit).
  destruct (exists_last (l := Data l :: (Hash <$> hs))) as (front & e & El); [done|].
  assert (Hfront : Z.of_nat (length front) = Z.of_nat (length hs)).
  { apply (f_equal length) in El. cbn in El. rewrite length_fmap, length_app in El. cbn in El. lia. }
  assert (He : exists h, node_hash e = Some h).
  { destruct front as [|x front]; injection El as <- El.
    - exists (keccak256 pre). cbn. by rewrite Hpre.
    - assert (Hin : e ∈ Hash <$> hs) by (rewrite El; set_solver). apply list_elem_of_fmap in Hin as (h & -> & _). by exists h. }
  destruct He as (h & He).
  exists (foldl (fun m pos => delete pos m) (<[nodes_size (n + 1) - 1 := h]> (Nodes t)) merged). split.
  - rewrite delete_all_dom, dom_insert_L, Hd, Eb, Ea, !list_to_set_app_L. cbn.
    pose proof (peaks_of_range n Hn) as [Hnd Hr]. rewrite Eb in Hnd, Hr. apply NoDup_app in Hnd as (_ & Hdis & _).
    apply Forall_app in Hr as [_ Hr]. pose proof (nodes_size_grows n Hn) as Hg.
    assert (Hlast : nodes_size (n + 1) - 1 ∉ merged) by (intros Hin; eapply Forall_forall in Hr; [|done]; lia).
    set_solver.
  - unfold Mmr.append. rewrite El.
    unfold bind at 1; cbn [gets]. fold n. rewrite Z.eqb_refl. cbn [negb].
    replace (nodes_size n + Z.of_nat (length (front ++ [e]))) with (nodes_size (n + 1)) by (rewrite length_app; cbn; lia).
    rewrite Esplit. unfold bind at 1; cbn [or_panic ret].
    replace (nodes_size (n + 1) - 1) with (nodes_size n + Z.of_nat (length front)) by lia.
    unfold bind at 1. rewrite (append_elems_run front e h n (nodes_size n) t He). cbn. unfold ret. repeat f_equal.
    rewrite <- El. cbn [count_data]. assert (Hz : forall l, count_data (Hash <$> l) = 0) by (by induction l0).
    by rewrite Hz.
Qed.


(** ** Blocks *)

(** What is documented of [MMR]: pushing leaves onto a range whose peaks are in the store always
    works and returns the position of the leaf, and so does taking the root; the batch has an
    entry for each leaf that was pushed, with the nodes it completed. *)
Context `{!MmrLib}.

Definition store_has (get_elem : Z -> result bytes (option DataOrHash)) (n : Z) : Prop :=
  forall p, p ∈ peaks_of n -> exists h, get_elem p = Ok (Some (Hash h)).

Inductive built (get_elem : Z -> result bytes (option DataOrHash)) (n : Z) : list Leaf -> MMR -> Prop :=
| built_new : built get_elem n [] (mmr_new (nodes_size n))
| built_push ls mmr l pos mmr' :
    built get_elem n ls mmr -> lib_push merge get_elem (Data l) mmr = Some (Ok (pos, mmr')) ->
    built get_elem n (ls ++ [l]) mmr'.

Fixpoint batch_ok (n : Z) (ls : list Leaf) (batch : list (Z * list DataOrHash)) : Prop :=
  match ls, batch with
  | [], [] => True
  | l :: ls, (pos, elems) :: batch =>
      pos = nodes_size n /\ (exists hs, elems = Data l :: (Hash <$> hs) /\
        Z.of_nat (length hs) + 1 = nodes_size (n + 1) - nodes_size n) /\ batch_ok (n + 1) ls batch
  | _, _ => False
  end.

Class MmrLaws : Prop := {
  push_works get_elem n ls mmr l :
    0 <= n -> store_has get_elem n -> Forall (fun l => is_Some (preimage l)) (ls ++ [l]) -> built get_elem n ls mmr ->
    exists mmr', lib_push merge get_elem (Data l) mmr = Some (Ok (nodes_size (n + Z.of_nat (length ls)), mmr'));
  root_works get_elem n ls mmr :
    0 <= n -> store_has get_elem n -> ls <> [] -> Forall (fun l => is_Some (preimage l)) ls -> built get_elem n ls mmr ->
    exists root h, lib_get_root merge get_elem mmr = Some (Ok root) /\ node_hash root = Some h;
  batch_works get_elem n ls mmr : 0 <= n -> built get_elem n ls mmr -> batch_ok n ls (lib_batch mmr)
}.
Context `{!MmrLaws}.

Abbreviation finalize := (finalize INDEXING_PREFIX fork_identifier).

(** What is written off chain for the leaves of a block. *)
Definition leaf_stored (db : gmap bytes bytes) (n : Z) (l : Leaf) : Prop :=
  db !! temp_key (leaf_index_to_pos n) = Some (encode_node (Data l)).

(** Keys that are not of this fork from the given position on. *)
Definition foreign (n : Z) (k : bytes) : Prop := forall j, nodes_size n <= j -> k <> temp_key j.

Lemma size_mono n k : 0 <= n -> nodes_size n <= nodes_size (n + Z.of_nat k).
Proof.
  intros Hn. induction k as [|k IH]; [by rewrite Z.add_0_r|].
  pose proof (nodes_size_grows (n + Z.of_nat k) ltac:(lia)) as [_ Hg].
  replace (n + Z.of_nat (S k)) with (n + Z.of_nat k + 1) by lia. lia.
Qed.

(** [commit]: piece by piece. *)
Lemma commit_works ls batch t :
  tree_ok t -> Forall (fun l => is_Some (preimage l)) ls -> batch_ok (NumberOfLeaves t) ls batch ->
  let n := NumberOfLeaves t in
  exists t', for_each batch (fun e => append e.1 e.2) t = (Some (Ok tt), t') /\ tree_ok t' /\
    NumberOfLeaves t' = n + Z.of_nat (length ls) /\ IntermediateLeaves t' = IntermediateLeaves t /\
    InitialHeight t' = InitialHeight t /\
    (forall i l, ls !! i = Some l -> leaf_stored (mmr_offchain t') (n + Z.of_nat i) l) /\
    (forall k, foreign n k -> mmr_offchain t' !! k = mmr_offchain t !! k).
Proof.
  revert batch t; induction ls as [|l ls IH]; intros batch t Hok Hp Hb n; destruct batch as [|[pos elems] batch]; try done.
  - exists t. rewrite Z.add_0_r. split; [done|]. done.
  - apply Forall_cons in Hp as [Hl Hp]. destruct Hb as (-> & (hs & -> & Hlen) & Hb). pose proof (proj1 Hok) as Hn.
    destruct (append_leaf n l hs t Hok eq_refl Hl Hlen) as (nodes & Hdom & Hrun).
    set (t1 := mkMmrPallet _ _ _ _ _ _) in Hrun.
    assert (Hok1 : tree_ok t1) by (split; [cbn; fold n; lia|done]).
    destruct (IH batch t1 Hok1 Hp Hb) as (t' & Hrest & Hok' & Hn' & Hi & Hh & Hs & Hf). exists t'.
    cbn [for_each fst snd]. rewrite (try_ok _ _ t tt t1) by exact Hrun. split; [done|]. split; [done|].
    split; [rewrite Hn'; cbn; lia|]. split; [by rewrite Hi|]. split; [by rewrite Hh|].
    pose proof (nodes_size_grows n Hn) as Hg. split.
    + intros [|i] x Hx.
      * injection Hx as <-. rewrite Z.add_0_r. unfold leaf_stored. rewrite leaf_pos_next by done. rewrite Hf.
        -- cbn [mmr_offchain t1]. apply put_nodes_first. lia.
        -- intros j Hj E. cbn in Hj. fold n in Hj. apply temp_key_inj in E as [E _]; lia.
      * replace (n + Z.of_nat (S i)) with (n + 1 + Z.of_nat i) by lia. by apply Hs.
    + intros k Hk. rewrite Hf by (intros j Hj; apply Hk; cbn in Hj; fold n in Hj; lia).
      cbn [mmr_offchain t1]. apply put_nodes_other. intros j Hj. apply Hk. lia.
Qed.

Definition holds_buffer t (ls : list Leaf) : Prop :=
  forall i, IntermediateLeaves t !! i = (if (0 <=? i) then ls !! Z.to_nat i else None).

Lemma holds_buffer_size t ls : holds_buffer t ls -> buffered t = Z.of_nat (length ls).
Proof.
  intros Hb. unfold buffered. f_equal.
  assert (E : dom (IntermediateLeaves t) = list_to_set (Z.of_nat <$> seq 0 (length ls)) :> gset Z).
  { apply set_eq. intros i. rewrite elem_of_dom, elem_of_list_to_set, list_elem_of_fmap, Hb. split.
    - intros [x Hx]. destruct (Z.leb_spec 0 i); [|done]. exists (Z.to_nat i). split; [lia|].
      apply elem_of_seq. apply lookup_lt_Some in Hx. lia.
    - intros (k & -> & Hk%elem_of_seq). destruct (Z.leb_spec 0 (Z.of_nat k)); [|lia]. rewrite Nat2Z.id.
      apply lookup_lt_is_Some. lia. }
  rewrite <- size_dom, E, size_list_to_set; [by rewrite length_fmap, length_seq|].
  apply NoDup_fmap_2; [intros a b; lia|apply NoDup_seq].
Qed.

Lemma store_has_peaks t : tree_ok t -> store_has (runtime_get_elem t) (NumberOfLeaves t).
Proof.
  intros [_ Hd] p Hp. assert (Hin : p ∈ dom (Nodes t)) by (rewrite Hd; by apply elem_of_list_to_set).
  apply elem_of_dom in Hin as [h Hh]. exists h. unfold runtime_get_elem. by rewrite Hh.
Qed.

Lemma push_all_works t ls m j mmr :
  tree_ok t -> holds_buffer t ls -> Forall (fun l => is_Some (preimage l)) ls -> (j + m <= length ls)%nat ->
  built (runtime_get_elem t) (NumberOfLeaves t) (take j ls) mmr ->
  exists mmr', try_fold_m push_buffered mmr (Z.of_nat <$> seq j m) t = (Some (Ok mmr'), t) /\
    built (runtime_get_elem t) (NumberOfLeaves t) (take (j + m) ls) mmr'.
Proof.
  intros Hok Hb Hp. revert j mmr; induction m as [|m IH]; intros j mmr Hlen Hbuilt.
  - exists mmr. split; [done|]. by rewrite Nat.add_0_r.
  - destruct (lookup_lt_is_Some_2 ls j) as [l Hl]; [lia|].
    assert (Etake : take (S j) ls = take j ls ++ [l]) by (by apply take_S_r).
    destruct (push_works (runtime_get_elem t) (NumberOfLeaves t) (take j ls) mmr l (proj1 Hok) (store_has_peaks t Hok)) as (mmr1 & Hpush).
    { rewrite <- Etake. by apply Forall_take. }
    { done. }
    destruct (IH (S j) mmr1) as (mmr' & Hrun & Hbuilt').
    { lia. }
    { rewrite Etake. by eapply built_push. }
    exists mmr'. split; [|by replace (j + S m)%nat with (S j + m)%nat by lia].
    cbn [seq fmap list_fmap try_fold_m]. rewrite (try_ok _ _ t mmr1 t); [done|].
    unfold push_buffered, wrapper_push, bind, ask. rewrite (Hb (Z.of_nat j)).
    destruct (Z.leb_spec 0 (Z.of_nat j)); [|lia]. rewrite Nat2Z.id, Hl, Hpush. done.
Qed.

(** What a block leaves when it ends: the buffered leaves [ls] are appended to the tree. *)
Definition appended (ls : list Leaf) (root : H256) t t' : Prop :=
  let n := NumberOfLeaves t in
  tree_ok t' /\ NumberOfLeaves t' = n + Z.of_nat (length ls) /\ IntermediateLeaves t' = ∅ /\ RootHash t' = root /\
  (forall i l, ls !! i = Some l -> leaf_stored (mmr_offchain t') (n + Z.of_nat i) l) /\
  (forall k, foreign n k -> mmr_offchain t' !! k = mmr_offchain t !! k).

Lemma finalize_works t ls :
  tree_ok t -> holds_buffer t ls -> Forall (fun l => is_Some (preimage l)) ls ->
  exists root t', finalize t = (Some (Ok root), t') /\ appended ls root t t'.
Proof.
  intros Hok Hb Hp. pose proof (holds_buffer_size t ls Hb) as Hsize. unfold Mmr.finalize. unfold bind at 1; cbn [gets].
  rewrite Hsize. destruct (Z.eqb_spec (Z.of_nat (length ls)) 0) as [E|E].
  - destruct ls; [|cbn in E; lia]. exists (RootHash t), t. split; [done|]. unfold appended. rewrite Z.add_0_r.
    split; [done|]. split; [done|]. split; [|done].
    apply map_eq. intros i. rewrite Hb. by destruct (0 <=? i).
  - set (n := NumberOfLeaves t).
    destruct (push_all_works t ls (length ls) 0 (mmr_new (nodes_size n)) Hok Hb Hp ltac:(lia)) as (mmr & Hrun & Hbuilt).
    { constructor. }
    rewrite firstn_all2 in Hbuilt by lia.
    unfold bind at 1; cbn [gets]. fold n. unfold range. rewrite Nat2Z.id.
    rewrite (try_ok _ _ t mmr t) by exact Hrun.
    assert (Hne : ls <> []) by (intros ->; done).
    destruct (root_works _ _ _ _ (proj1 Hok) (store_has_peaks t Hok) Hne Hp Hbuilt) as (root & h & Hroot & Hh).
    destruct (commit_works ls (lib_batch mmr) t Hok Hp (batch_works _ _ _ _ (proj1 Hok) Hbuilt))
      as (t1 & Hc & [Hn1 Hd1] & Hcount & Hi & Hin & Hs & Hf).
    assert (Hw : wrapper_finalize INDEXING_PREFIX fork_identifier mmr t = (Some (Ok h), t1)).
    { unfold wrapper_finalize. unfold bind at 1, ask. rewrite Hroot. rewrite (try_ok _ _ t root t) by done.
      unfold bind at 1. rewrite Hc. rewrite (try_ok _ _ t1 tt t1) by done. unfold bind. by rewrite Hh. }
    unfold bind at 1. rewrite Hw. rewrite (try_ok _ _ t1 h t1) by done. cbn.
    eexists h, _. split; [done|]. unfold appended; cbn. fold n. rewrite Hcount in Hd1.
    split; [split; cbn; [pose proof (proj1 Hok); lia|done]|]. done.
Qed.

(** Leaves are buffered in the order they are pushed. *)
Lemma push_buffers leaf t ls :
  holds_buffer t ls -> exists t', pallet_push leaf t
    = (Some (mkLeafIndexAndPos (wrap64 (NumberOfLeaves t + Z.of_nat (length ls)))
        (leaf_index_to_pos (wrap64 (NumberOfLeaves t + Z.of_nat (length ls))))), t') /\
    holds_buffer t' (ls ++ [leaf]) /\ t' = on_IntermediateLeaves (fun _ => IntermediateLeaves t') t.
Proof.
  intros Hb. unfold pallet_push, bind; cbn. rewrite (holds_buffer_size t ls Hb). eexists. split; [done|]. split; [|done].
  intros i. cbn. destruct (decide (i = Z.of_nat (length ls))) as [->|Hne].
  - rewrite lookup_insert_eq. destruct (Z.leb_spec 0 (Z.of_nat (length ls))); [|lia]. rewrite Nat2Z.id.
    by rewrite list_lookup_middle.
  - rewrite lookup_insert_ne by done. rewrite Hb. destruct (Z.leb_spec 0 i); [|done].
    destruct (decide (Z.to_nat i < length ls)%nat).
    + by rewrite lookup_app_l.
    + rewrite !lookup_ge_None_2; [done|rewrite length_app; cbn; lia|lia].
Qed.

Lemma pushes_buffer leaves t ls :
  holds_buffer t ls -> is_u64 (NumberOfLeaves t + Z.of_nat (length (ls ++ leaves))) -> 0 <= NumberOfLeaves t ->
  exists t', map_m pallet_push leaves t
    = (Some ((fun i => let n := NumberOfLeaves t + Z.of_nat i in mkLeafIndexAndPos n (leaf_index_to_pos n))
        <$> seq (length ls) (length leaves)), t') /\
    holds_buffer t' (ls ++ leaves) /\ t' = on_IntermediateLeaves (fun _ => IntermediateLeaves t') t.
Proof.
  revert t ls; induction leaves as [|l leaves IH]; intros t ls Hb Hu Hn.
  - exists t. rewrite app_nil_r. split; [done|]. split; [done|]. by destruct t.
  - destruct (push_buffers l t ls Hb) as (t1 & Hrun & Hb1 & Ht1).
    assert (En : NumberOfLeaves t1 = NumberOfLeaves t) by (by rewrite Ht1).
    destruct (IH t1 (ls ++ [l]) Hb1) as (t2 & Hrun2 & Hb2 & Ht2).
    { rewrite En. by rewrite <- app_assoc. }
    { by rewrite En. }
    exists t2. rewrite <- app_assoc in Hb2. split; [|split; [done|]].
    + cbn [map_m]. unfold bind at 1. rewrite Hrun. unfold bind at 1. rewrite Hrun2. cbn. unfold ret.
      rewrite wrap64_small by (unfold is_u64, u64_max in Hu; rewrite length_app in Hu; cbn in Hu; lia).
      rewrite En, length_app, Nat.add_comm. done.
    + rewrite Ht2, Ht1. done.
Qed.

(** C32: a block commits exactly the messages that were pushed in it, at the places it announced.
    Between blocks the chain holds the hashes of the peaks of the tree and nothing else. When
    leaves are pushed one after the other in a block, each is given the next index and its
    position at once; at the end of the block the tree has grown by these leaves, in order, its
    new root is stored, the buffer is empty and the chain again holds exactly the peaks. Each leaf
    is then in the off-chain database at the position that was announced for it, and no entry of
    another fork, or of an earlier block, has changed. *)
Theorem block_commits_leaves t ls :
  tree_ok t -> IntermediateLeaves t = ∅ -> Forall (fun l => is_Some (preimage l)) ls ->
  is_u64 (NumberOfLeaves t + Z.of_nat (length ls)) ->
  let n := NumberOfLeaves t in
  exists t1 root t2,
    map_m pallet_push ls t
    = (Some ((fun i => mkLeafIndexAndPos (n + Z.of_nat i) (leaf_index_to_pos (n + Z.of_nat i))) <$> seq 0 (length ls)), t1) /\
    finalize t1 = (Some (Ok root), t2) /\ appended ls root t t2.
Proof.
  intros Hok He Hp Hu n.
  assert (Hb : holds_buffer t []) by (intros i; rewrite He; by destruct (0 <=? i)).
  destruct (pushes_buffer ls t [] Hb Hu (proj1 Hok)) as (t1 & Hrun & Hb1 & Ht1). cbn [app] in Hb1.
  assert (Hok1 : tree_ok t1) by (by rewrite Ht1).
  destruct (finalize_works t1 ls Hok1 Hb1 Hp) as (root & t2 & Hfin & Happ).
  exists t1, root, t2. split; [done|]. split; [done|]. by rewrite Ht1 in Happ.
Qed.
End peaks.
