(* ===== verification/MmrGadget.v ===== *)
(** * The MMR gadget

    [trees/mmr/gadget/src/{offchain_mmr, aux_schema, lib}.rs]: a task of the node that moves the
    nodes of the tree, once the block that added them is final, from the key of their fork to
    their canonical key, and clears those of stale forks. *)

From S2P Require Import Prelude StateMachine Router Messaging Host ChildTrie PalletTypes Mmr MmrProps.

(** [CachedHeaderMetadata] *)
Record HeaderMetadata : Type := mkHeaderMetadata {
  hm_hash : H256;
  hm_parent : H256;
  hm_number : Z
}.

(** The client and the backend of the node. A runtime call that fails, in any of the ways it can,
    is [None]; [cl_aux_works] tells whether the auxiliary store can be read and written. *)
Record MmrClient : Type := mkMmrClient {
  cl_header_metadata : H256 -> option HeaderMetadata;
  cl_mmr_leaf_count : H256 -> option Z;
  cl_fork_identifier : H256 -> option H256;
  cl_pallet_genesis : H256 -> option (option Z);
  cl_expand_forks : list H256 -> option (list H256);
  cl_aux_works : bool
}.

(** [FinalityNotification] *)
Record FinalityNotification : Type := mkFinalityNotification {
  fn_hash : H256;
  fn_tree_route : list H256;
  fn_stale_heads : list H256
}.

(** [NodesUtils::right_branch_ending_in_leaf] *)
Class GadgetLib : Type := right_branch_ending_in_leaf : Z -> list Z.

(** The off-chain database, the auxiliary store and the fields of [OffchainMmr] that change. *)
Record OffchainMmr : Type := mkOffchainMmr {
  og_db : gmap bytes bytes;
  og_aux : gmap bytes bytes;
  first_mmr_block : Z;
  best_canonicalized : Z
}.

Definition on_db f (s : OffchainMmr) := mkOffchainMmr (f (og_db s)) (og_aux s) (first_mmr_block s) (best_canonicalized s).
Definition on_aux f (s : OffchainMmr) := mkOffchainMmr (og_db s) (f (og_aux s)) (first_mmr_block s) (best_canonicalized s).
Definition on_first f (s : OffchainMmr) := mkOffchainMmr (og_db s) (og_aux s) (f (first_mmr_block s)) (best_canonicalized s).
Definition on_best f (s : OffchainMmr) := mkOffchainMmr (og_db s) (og_aux s) (first_mmr_block s) (f (best_canonicalized s)).

Definition VERSION_KEY : bytes := lit "mmr_auxschema_version".
Definition GADGET_STATE : bytes := lit "mmr_gadget_state".
Definition CURRENT_VERSION : Z := 1.

(** [saturating_sub(One::one())] on block numbers. *)
Definition pred_block (n : Z) : Z := Z.max 0 (n - 1).

Section gadget.
Context `{!Codec Z, !MmrHelpers, !GadgetLib}.
Variable client : MmrClient.
Variable indexing_prefix : bytes.

(** ** [aux_schema.rs] *)

Definition insert_aux (key value : bytes) : M OffchainMmr (result bytes unit) :=
  if cl_aux_works client then let* _ := modify (on_aux <[key := value]>) in ret (Ok tt)
  else ret (Err (lit "aux store")).

Definition write_current_version : M OffchainMmr (result bytes unit) := insert_aux VERSION_KEY (encode CURRENT_VERSION).
Definition write_gadget_state (state : Z) : M OffchainMmr (result bytes unit) := insert_aux GADGET_STATE (encode state).

Definition load_decode (key : bytes) (s : OffchainMmr) : result bytes (option Z) :=
  if cl_aux_works client then
    match og_aux s !! key with
    | None => Ok None
    | Some t => result_map Some (ok_or (decode t) (lit "MMR aux DB is corrupted"))
    end
  else Err (lit "aux store").

Definition load_state (s : OffchainMmr) : result bytes (option Z) :=
  match load_decode VERSION_KEY s with
  | Err e => Err e
  | Ok None => Ok None
  | Ok (Some v) => if v =? 1 then load_decode GADGET_STATE s else Err (lit "Unsupported MMR aux DB version")
  end.

Definition load_or_init_state (default_state : Z) : M OffchainMmr (result bytes Z) :=
  let? state := gets load_state in
  match state with
  | Some best => ret (Ok best)
  | None =>
      let? _ := write_current_version in
      let? _ := write_gadget_state default_state in
      ret (Ok default_state)
  end.

(** ** [offchain_mmr.rs] *)

(** [OffchainMmr::new], on the databases of the node: whether the gadget could be built. *)
Definition new_offchain_mmr (first : Z) : M OffchainMmr bool :=
  let* loaded := load_or_init_state (pred_block first) in
  match loaded with
  | Err _ => ret false
  | Ok best => let* _ := modify (on_first (fun _ => first)) in let* _ := modify (on_best (fun _ => best)) in ret true
  end.

Abbreviation temp_key pos fork := (temp_offchain_key indexing_prefix pos fork).
Abbreviation canon_key pos := (canon_offchain_key indexing_prefix pos).

Definition write_gadget_state_or_log : M OffchainMmr unit :=
  let* best := gets best_canonicalized in
  let* _ := write_gadget_state best in
  ret tt.

(** [old_leaf_count..new_leaf_count] *)
Definition leaf_range (old_count new_count : Z) : list Z :=
  (fun i => old_count + Z.of_nat i) <$> seq 0 (Z.to_nat (new_count - old_count)).

Definition nodes_added_by_new_leaves (old_count new_count : Z) : list Z :=
  concat (right_branch_ending_in_leaf <$> leaf_range old_count new_count).

(** What both branches ask the runtime: the leaves before and after a block, and its fork. *)
Definition branch_info (header : HeaderMetadata) : option (Z * Z * H256) :=
  parent_leaf_count ← cl_mmr_leaf_count client (hm_parent header);
  current_leaf_count ← cl_mmr_leaf_count client (hm_hash header);
  fork_identifier ← cl_fork_identifier client (hm_hash header);
  Some (parent_leaf_count, current_leaf_count, fork_identifier).

Definition prune_node (fork : H256) (db : gmap bytes bytes) (pos : Z) : gmap bytes bytes :=
  if bool_decide (is_Some (db !! canon_key pos)) then delete (temp_key pos fork) db else db.

Definition prune_branch (block_hash : H256) : M OffchainMmr unit :=
  match cl_header_metadata client block_hash ≫= branch_info with
  | None => ret tt
  | Some (parent_count, current_count, fork) =>
      modify (on_db (fun db => foldl (prune_node fork) db (nodes_added_by_new_leaves parent_count current_count)))
  end.

Definition canonicalize_node (fork : H256) (db : gmap bytes bytes) (pos : Z) : gmap bytes bytes :=
  match db !! temp_key pos fork with
  | Some elem => delete (temp_key pos fork) (<[canon_key pos := elem]> db)
  | None => db
  end.

(** The walk towards the ancestors: the oldest comes first. Numbers decrease on the way, so that
    as many steps as the number of the block are enough. *)
Fixpoint walk_up (fuel : nat) (best : Z) (header : HeaderMetadata) (to_canon : list H256) : option (list H256) :=
  match fuel with
  | O => None
  | S fuel =>
      match cl_header_metadata client (hm_parent header) with
      | None => Some to_canon
      | Some header =>
          if hm_number header <=? best then Some to_canon
          else walk_up fuel best header (hm_hash header :: to_canon)
      end
  end.

Definition walk_fuel (header : HeaderMetadata) : nat := S (Z.to_nat (hm_number header)).

Definition catch_up_with (canonicalize : H256 -> M OffchainMmr unit) (first : H256) : M OffchainMmr unit :=
  match cl_header_metadata client first with
  | None => ret tt
  | Some header =>
      let* best := gets best_canonicalized in
      let* to_canon := or_panic (walk_up (walk_fuel header) best header []) in
      let* _ := map_m canonicalize to_canon in
      write_gadget_state_or_log
  end.

(** [fuel] bounds how deep catching up is nested. *)
Fixpoint canonicalize_branch (fuel : nat) (block_hash : H256) : M OffchainMmr unit :=
  match fuel with
  | O => panic
  | S fuel =>
      match cl_header_metadata client block_hash with
      | None => ret tt
      | Some header =>
          let* first := gets first_mmr_block in
          let* best := gets best_canonicalized in
          if (hm_number header <? first) || (hm_number header <=? best) then ret tt
          else
            match branch_info header with
            | None => ret tt
            | Some (parent_count, current_count, fork) =>
                let* _ := modify (on_db (fun db =>
                    foldl (canonicalize_node fork) db (nodes_added_by_new_leaves parent_count current_count))) in
                let* _ := (if negb (best =? pred_block (hm_number header))
                           then catch_up_with (canonicalize_branch fuel) (hm_parent header) else ret tt) in
                modify (on_best (fun _ => hm_number header))
            end
      end
  end.

Definition canonicalize_catch_up (fuel : nat) (first : H256) : M OffchainMmr unit :=
  catch_up_with (canonicalize_branch fuel) first.

(** [MmrClient::first_mmr_block_num] *)
Definition first_mmr_block_num (n : FinalityNotification) : option Z := default None (cl_pallet_genesis client (fn_hash n)).

Definition handle_potential_pallet_reset (n : FinalityNotification) : M OffchainMmr unit :=
  match first_mmr_block_num n with
  | None => ret tt
  | Some num =>
      let* first := gets first_mmr_block in
      if num =? first then ret tt
      else
        let* _ := modify (on_first (fun _ => num)) in
        let* _ := modify (on_best (fun _ => pred_block num)) in
        write_gadget_state_or_log
  end.

Definition canonicalize_and_prune (fuel : nat) (n : FinalityNotification) : M OffchainMmr unit :=
  let* _ := handle_potential_pallet_reset n in
  let* _ := canonicalize_catch_up fuel (fn_hash n) in
  let* _ := map_m (canonicalize_branch fuel) (fn_tree_route n ++ [fn_hash n]) in
  let* _ := write_gadget_state_or_log in
  match cl_expand_forks client (fn_stale_heads n) with
  | None => ret tt
  | Some stale_forks => let* _ := map_m prune_branch stale_forks in ret tt
  end.

(** ** [lib.rs] *)

(** [try_build] and [run], on the notifications as they come. *)
Definition first_of (n : FinalityNotification) : H256 := default (fn_hash n) (head (fn_tree_route n)).

Fixpoint run_gadget (fuel : nat) (ready : bool) (ns : list FinalityNotification) : M OffchainMmr unit :=
  match ns with
  | [] => ret tt
  | n :: ns =>
      if ready then let* _ := canonicalize_and_prune fuel n in run_gadget fuel true ns
      else
        match first_mmr_block_num n with
        | None => run_gadget fuel false ns
        | Some num =>
            let* built := new_offchain_mmr num in
            if built then
              let* _ := canonicalize_catch_up fuel (first_of n) in
              let* _ := canonicalize_and_prune fuel n in
              run_gadget fuel true ns
            else ret tt
        end
  end.

End gadget.

(** * Properties of the MMR gadget

    On a node that has the headers and states it is asked for, every node that a final block added
    reaches its canonical key, from where the leaves can be read; a block that is skipped is not
    made up for. *)

(** The keys are encodings; the right branch that ends in a leaf consists of the nodes that the
    leaf added. *)
Class GadgetLaws `{!MmrHelpers, !GadgetLib} : Prop := {
  canon_key_inj prefix i j : 0 <= i -> 0 <= j -> canon_offchain_key prefix i = canon_offchain_key prefix j -> i = j;
  canon_not_temp prefix i j f : canon_offchain_key prefix i <> temp_offchain_key prefix j f;
  right_branch_nodes i p : 0 <= i -> p ∈ right_branch_ending_in_leaf i <-> nodes_size i <= p < nodes_size (i + 1)
}.

Section gadget.
Context `{HK : Keccak256} `{!Codec Leaf, !Codec bytes, !Codec Z}.
Context `{!MmrHelpers, !GadgetLib, !RangeLaws, !GadgetLaws}.
Variable client : MmrClient.
Variable indexing_prefix : bytes.
Implicit Types s : OffchainMmr.

Abbreviation temp_key pos fork := (temp_offchain_key indexing_prefix pos fork).
Abbreviation canon_key pos := (canon_offchain_key indexing_prefix pos).
Abbreviation canonicalize_node := (canonicalize_node indexing_prefix).
Abbreviation prune_node := (prune_node indexing_prefix).
Abbreviation canonicalize_branch := (canonicalize_branch client indexing_prefix).
Abbreviation canonicalize_catch_up := (canonicalize_catch_up client indexing_prefix).

(** ** The chain *)

(** The hash, the number of leaves and the fork identifier of the block at each height. *)
Variable chain : Z -> H256.
Variable leaves_at : Z -> Z.
Variable fork_at : Z -> H256.

Definition header_at (n : Z) : HeaderMetadata := mkHeaderMetadata (chain n) (chain (n - 1)) n.

(** The node knows the blocks from [lo] to [hi]. *)
Definition healthy (lo hi : Z) : Prop :=
  0 <= lo /\ (forall n, lo <= n <= hi ->
    cl_header_metadata client (chain n) = Some (header_at n) /\ cl_mmr_leaf_count client (chain n) = Some (leaves_at n) /\
    cl_fork_identifier client (chain n) = Some (fork_at n) /\ 0 <= leaves_at n) /\
  (forall n, lo < n <= hi -> leaves_at (n - 1) <= leaves_at n).

Definition block_nodes (n : Z) : list Z := nodes_added_by_new_leaves (leaves_at (n - 1)) (leaves_at n).
Definition canon_block (db : gmap bytes bytes) (n : Z) : gmap bytes bytes := foldl (canonicalize_node (fork_at n)) db (block_nodes n).
Definition blocks (from to : Z) : list Z := (fun i => from + Z.of_nat i) <$> seq 0 (Z.to_nat (to - from + 1)).

Lemma blocks_snoc from to : from <= to -> blocks from to = blocks from (to - 1) ++ [to].
Proof.
  intros Hle. unfold blocks. replace (Z.to_nat (to - from + 1)) with (S (Z.to_nat (to - 1 - from + 1))) by lia.
  rewrite seq_S, fmap_app. cbn. do 2 f_equal. lia.
Qed.
Lemma blocks_nil from to : to < from -> blocks from to = [].
Proof. intros. unfold blocks. by replace (Z.to_nat (to - from + 1)) with 0%nat by lia. Qed.
Lemma blocks_cons from to : from <= to -> blocks from to = from :: blocks (from + 1) to.
Proof.
  intros Hle. unfold blocks. replace (Z.to_nat (to - from + 1)) with (S (Z.to_nat (to - (from + 1) + 1))) by lia.
  cbn [seq fmap list_fmap]. f_equal; [lia|]. rewrite <- seq_shift. rewrite <- list_fmap_compose.
  apply list_fmap_ext. intros i x _. cbn. lia.
Qed.
Lemma elem_of_blocks n from to : n ∈ blocks from to <-> from <= n <= to.
Proof.
  unfold blocks. rewrite list_elem_of_fmap. split.
  - intros (i & -> & Hi%elem_of_seq). lia.
  - intros Hn. exists (Z.to_nat (n - from)). split; [lia|]. apply elem_of_seq. lia.
Qed.

(** ** Running *)

Lemma branch_info_at lo hi n : healthy lo hi -> lo < n <= hi ->
  branch_info client (header_at n) = Some (leaves_at (n - 1), leaves_at n, fork_at n).
Proof.
  intros (H0' & Hh & _) Hn. destruct (Hh n ltac:(lia)) as (_ & Hl & Hf & _).
  destruct (Hh (n - 1) ltac:(lia)) as (_ & Hl' & _). unfold branch_info. cbn. by rewrite Hl', Hl, Hf.
Qed.

Lemma branch_old fuel lo hi n s : healthy lo hi -> lo <= n <= hi -> n <= best_canonicalized s ->
  canonicalize_branch (S fuel) (chain n) s = (Some tt, s).
Proof.
  intros Hh Hn Hb. cbn [MmrGadget.canonicalize_branch]. rewrite (proj1 (proj1 (proj2 Hh) n Hn)). unfold bind; cbn.
  destruct (Z.leb_spec n (best_canonicalized s)); [|lia]. by rewrite orb_true_r.
Qed.

(** A block that is not skipped over. *)
Lemma branch_next fuel lo hi n s : healthy lo hi -> lo < n <= hi -> first_mmr_block s <= n -> best_canonicalized s = n - 1 ->
  canonicalize_branch (S fuel) (chain n) s = (Some tt, on_best (fun _ => n) (on_db (fun db => canon_block db n) s)).
Proof.
  intros Hh Hn Hf Hb. cbn [MmrGadget.canonicalize_branch]. rewrite (proj1 (proj1 (proj2 Hh) n ltac:(lia))). unfold bind at 1 2; cbn [gets].
  cbn [hm_number header_at]. destruct (Z.ltb_spec n (first_mmr_block s)); [lia|]. destruct (Z.leb_spec n (best_canonicalized s)); [lia|].
  cbn [orb]. rewrite (branch_info_at lo hi n Hh Hn). unfold bind; cbn. unfold pred_block.
  destruct (Z.eqb_spec (best_canonicalized s) (Z.max 0 (n - 1))); [done|]. destruct Hh. lia.
Qed.

Lemma blocks_run fuel lo hi from to s : healthy lo hi -> lo < from -> to <= hi -> from <= to + 1 ->
  first_mmr_block s <= from -> best_canonicalized s = from - 1 ->
  exists l, map_m (canonicalize_branch (S fuel)) (chain <$> blocks from to) s
    = (Some l, on_best (fun _ => to) (on_db (fun db => foldl canon_block db (blocks from to)) s)).
Proof.
  intros Hh Hlo. remember (Z.to_nat (to - from + 1)) as k eqn:Ek. revert from s Hlo Ek.
  induction k as [|k IH]; intros from s Hlo Ek Hto Hle Hf Hb.
  - rewrite blocks_nil by lia. exists []. cbn. replace to with (best_canonicalized s) by lia. by destruct s.
  - rewrite (blocks_cons from to) by lia. cbn [fmap list_fmap map_m].
    unfold bind at 1. rewrite (branch_next fuel lo hi from s Hh) by (lia || done). set (s1 := on_best _ _).
    destruct (IH (from + 1) s1) as (l & Hl); [lia|lia|done|lia|cbn; lia|cbn; lia|].
    exists (tt :: l). unfold bind. rewrite Hl. done.
Qed.

Lemma walk_up_blocks lo hi best n fuel acc : healthy lo hi -> lo <= best -> best < n <= hi -> (Z.to_nat (n - best) <= fuel)%nat ->
  walk_up client fuel best (header_at n) acc = Some ((chain <$> blocks (best + 1) (n - 1)) ++ acc).
Proof.
  intros Hh Hlo. revert n acc; induction fuel as [|fuel IH]; intros n acc Hn Hfuel; [lia|]. cbn [walk_up hm_parent header_at].
  rewrite (proj1 (proj1 (proj2 Hh) (n - 1) ltac:(lia))). cbn [hm_number header_at hm_hash].
  destruct (Z.leb_spec (n - 1) best) as [Hb|Hb]; [by rewrite blocks_nil by lia|].
  rewrite IH by lia. rewrite (blocks_snoc (best + 1) (n - 1)) by lia. rewrite fmap_app, <- app_assoc. done.
Qed.

(** Catching up stops before the block it starts from. *)
Lemma catch_up_run fuel lo hi n s : healthy lo hi -> lo <= best_canonicalized s -> best_canonicalized s < n <= hi ->
  first_mmr_block s <= best_canonicalized s + 1 ->
  exists aux, canonicalize_catch_up (S fuel) (chain n) s
    = (Some tt, mkOffchainMmr (foldl canon_block (og_db s) (blocks (best_canonicalized s + 1) (n - 1))) aux (first_mmr_block s) (n - 1)).
Proof.
  intros Hh Hlo Hn Hf. pose proof (proj1 Hh) as Hz. unfold MmrGadget.canonicalize_catch_up, catch_up_with. rewrite (proj1 (proj1 (proj2 Hh) n ltac:(lia))).
  unfold bind at 1; cbn [gets]. rewrite (walk_up_blocks lo hi (best_canonicalized s) n) by (lia || done || (unfold walk_fuel; cbn; lia)).
  rewrite app_nil_r. unfold bind at 1; cbn [or_panic ret].
  destruct (blocks_run fuel lo hi (best_canonicalized s + 1) (n - 1) s) as (l & Hl); [done|lia..|].
  unfold bind at 1. rewrite Hl. unfold write_gadget_state_or_log, write_gadget_state, insert_aux, bind. cbn.
  destruct (cl_aux_works client); cbn; eexists; done.
Qed.

(** ** What is moved *)

Implicit Types db : gmap bytes bytes.

(** A node is in place: canonical, and no longer under the key of its fork. *)
Definition in_place (p : Z) (fork : H256) (e : bytes) db : Prop := db !! canon_key p = Some e /\ db !! temp_key p fork = None.
Definition same_at (p : Z) db db' : Prop := db' !! canon_key p = db !! canon_key p /\ forall f, db' !! temp_key p f = db !! temp_key p f.

Lemma canonicalize_node_other fork db pos p : 0 <= p -> 0 <= pos -> p <> pos -> same_at p db (canonicalize_node fork db pos).
Proof.
  intros Hp Hpos Hne. unfold MmrGadget.canonicalize_node. destruct (db !! temp_key pos fork); [|done]. split; [|intros f].
  - rewrite lookup_delete_ne by (intros E; by apply (canon_not_temp indexing_prefix p pos fork)).
    apply lookup_insert_ne. intros E. by apply canon_key_inj in E.
  - rewrite lookup_delete_ne by (intros E; apply temp_key_inj in E as [E _]; lia).
    apply lookup_insert_ne. apply canon_not_temp.
Qed.

Lemma canonicalize_node_moves fork db p e : db !! temp_key p fork = Some e -> in_place p fork e (canonicalize_node fork db p).
Proof.
  intros He. unfold MmrGadget.canonicalize_node. rewrite He. split; [|apply lookup_delete_eq].
  rewrite lookup_delete_ne by (intros E; by apply (canon_not_temp indexing_prefix p p fork)). apply lookup_insert_eq.
Qed.

Lemma canonicalize_node_keeps g db pos p fork e : 0 <= p -> 0 <= pos -> (p = pos -> g = fork) ->
  in_place p fork e db -> in_place p fork e (canonicalize_node g db pos).
Proof.
  intros Hp Hpos Hg [Hc Ht]. destruct (decide (p = pos)) as [<-|Hne].
  - rewrite (Hg eq_refl). unfold MmrGadget.canonicalize_node. by rewrite Ht.
  - destruct (canonicalize_node_other g db pos p Hp Hpos Hne) as [E1 E2]. split; [by rewrite E1|by rewrite E2].
Qed.

Lemma fold_nodes_keeps g l db p fork e : 0 <= p -> Forall (fun x => 0 <= x) l -> (p ∈ l -> g = fork) ->
  in_place p fork e db -> in_place p fork e (foldl (canonicalize_node g) db l).
Proof.
  intros Hp Hl. revert db; induction Hl as [|x l Hx Hl IH]; intros db Hg Hin; [done|]. cbn. apply IH; [set_solver|].
  apply canonicalize_node_keeps; [done|done|set_solver|done].
Qed.

Lemma fold_nodes_other g l db p : 0 <= p -> Forall (fun x => 0 <= x) l -> p ∉ l -> same_at p db (foldl (canonicalize_node g) db l).
Proof.
  intros Hp Hl. revert db; induction Hl as [|x l Hx Hl IH]; intros db Hg; [done|]. cbn.
  destruct (IH (canonicalize_node g db x) ltac:(set_solver)) as [E1 E2].
  destruct (canonicalize_node_other g db x p Hp Hx ltac:(set_solver)) as [F1 F2].
  split; [by rewrite E1|intros f; by rewrite E2].
Qed.

Lemma fold_nodes_moves fork l db p e : 0 <= p -> Forall (fun x => 0 <= x) l -> p ∈ l -> db !! temp_key p fork = Some e ->
  in_place p fork e (foldl (canonicalize_node fork) db l).
Proof.
  intros Hp Hl. revert db; induction Hl as [|x l Hx Hl IH]; intros db Hin He; [by apply not_elem_of_nil in Hin|]. cbn.
  destruct (decide (p = x)) as [<-|Hne].
  - apply fold_nodes_keeps; [done|done|done|]. by apply canonicalize_node_moves.
  - apply IH; [set_solver|]. by rewrite (proj2 (canonicalize_node_other fork db x p Hp Hx Hne)).
Qed.

(** ** Blocks *)

Lemma size_le i j : 0 <= i -> i <= j -> nodes_size i <= nodes_size j.
Proof. intros Hi Hj. replace j with (i + Z.of_nat (Z.to_nat (j - i))) by lia. by apply size_mono. Qed.

Lemma block_nodes_range lo hi n p : healthy lo hi -> lo < n <= hi -> p ∈ block_nodes n ->
  nodes_size (leaves_at (n - 1)) <= p < nodes_size (leaves_at n) /\ 0 <= p.
Proof.
  intros (_ & Hh & Hm) Hn Hp. unfold block_nodes, nodes_added_by_new_leaves in Hp.
  apply list_elem_of_In, in_concat in Hp as (l & Hl & Hp). apply list_elem_of_In in Hl, Hp.
  apply list_elem_of_fmap in Hl as (i & -> & Hi). apply list_elem_of_fmap in Hi as (k & -> & Hk%elem_of_seq).
  destruct (Hh (n - 1) ltac:(lia)) as (_ & _ & _ & H0'). specialize (Hm n Hn).
  apply right_branch_nodes in Hp; [|lia]. pose proof (size_le (leaves_at (n - 1)) (leaves_at (n - 1) + Z.of_nat k)).
  pose proof (size_le (leaves_at (n - 1) + Z.of_nat k + 1) (leaves_at n)). pose proof (nodes_size_grows (leaves_at (n - 1)) H0'). lia.
Qed.

Lemma leaves_mono lo hi n m : healthy lo hi -> lo <= n -> n <= m <= hi -> leaves_at n <= leaves_at m.
Proof.
  intros (_ & _ & Hm) Hlo [Hn Hhi]. replace m with (n + Z.of_nat (Z.to_nat (m - n))) in * by lia.
  induction (Z.to_nat (m - n)) as [|k IH]; [by rewrite Z.add_0_r|]. specialize (IH ltac:(lia) ltac:(lia)).
  specialize (Hm (n + Z.of_nat (S k)) ltac:(lia)). replace (n + Z.of_nat (S k) - 1) with (n + Z.of_nat k) in Hm by lia. lia.
Qed.

(** A node belongs to one block. *)
Lemma block_nodes_disjoint lo hi n m p : healthy lo hi -> lo < n <= hi -> lo < m <= hi ->
  p ∈ block_nodes n -> p ∈ block_nodes m -> m = n.
Proof.
  intros Hh Hn Hm Hpn Hpm. pose proof (block_nodes_range lo hi n p Hh Hn Hpn) as [Rn _].
  pose proof (block_nodes_range lo hi m p Hh Hm Hpm) as [Rm _]. pose proof Hh as (_ & Hl & _).
  destruct (Hl n ltac:(lia)) as (_ & _ & _ & Hn0). destruct (Hl m ltac:(lia)) as (_ & _ & _ & Hm0).
  destruct (Z.lt_trichotomy n m) as [Hlt|[->|Hlt]]; [|done|].
  - pose proof (leaves_mono lo hi n (m - 1) Hh ltac:(lia) ltac:(lia)).
    pose proof (size_le (leaves_at n) (leaves_at (m - 1)) ltac:(lia) ltac:(lia)). lia.
  - pose proof (leaves_mono lo hi m (n - 1) Hh ltac:(lia) ltac:(lia)).
    pose proof (size_le (leaves_at m) (leaves_at (n - 1)) ltac:(lia) ltac:(lia)). lia.
Qed.

Lemma block_nodes_nonneg lo hi n : healthy lo hi -> lo < n <= hi -> Forall (fun x => 0 <= x) (block_nodes n).
Proof. intros Hh Hn. apply Forall_forall. intros x Hx. by apply (block_nodes_range lo hi n x Hh Hn). Qed.

Lemma canon_blocks_moves lo hi ms n db p e : healthy lo hi -> lo < n <= hi -> Forall (fun m => lo < m <= hi) ms ->
  p ∈ block_nodes n -> n ∈ ms -> db !! temp_key p (fork_at n) = Some e -> in_place p (fork_at n) e (foldl canon_block db ms).
Proof.
  intros Hh Hn Hms Hp Hin He. pose proof (proj2 (block_nodes_range lo hi n p Hh Hn Hp)) as H0'.
  assert (Hkeep : forall ms db, Forall (fun m => lo < m <= hi) ms -> in_place p (fork_at n) e db -> in_place p (fork_at n) e (foldl canon_block db ms)).
  { clear Hms Hin He ms db. intros ms db Hms. revert db; induction Hms as [|m ms Hm Hms IH]; intros db Hpl; [done|]. cbn. apply IH.
    apply fold_nodes_keeps; [done|by eapply block_nodes_nonneg| |done]. intros Hpm. f_equal. by eapply block_nodes_disjoint. }
  revert db He; induction Hms as [|m ms Hm Hms IH]; intros db He; [by apply not_elem_of_nil in Hin|]. cbn.
  destruct (decide (m = n)) as [->|Hne].
  - apply Hkeep; [done|]. apply fold_nodes_moves; [done|by eapply block_nodes_nonneg|done|done].
  - apply IH; [set_solver|]. unfold canon_block at 1.
    rewrite (proj2 (fold_nodes_other (fork_at m) (block_nodes m) db p H0' ltac:(by eapply block_nodes_nonneg)
      ltac:(intros Hpm; apply Hne; by eapply block_nodes_disjoint))). done.
Qed.

Lemma canon_blocks_other lo hi ms n db p : healthy lo hi -> lo < n <= hi -> Forall (fun m => lo < m <= hi) ms ->
  p ∈ block_nodes n -> n ∉ ms -> same_at p db (foldl canon_block db ms).
Proof.
  intros Hh Hn Hms Hp. pose proof (proj2 (block_nodes_range lo hi n p Hh Hn Hp)) as H0'.
  revert db; induction Hms as [|m ms Hm Hms IH]; intros db Hin; [done|]. cbn.
  destruct (IH (canon_block db m) ltac:(set_solver)) as [E1 E2].
  destruct (fold_nodes_other (fork_at m) (block_nodes m) db p H0' ltac:(by eapply block_nodes_nonneg)) as [F1 F2].
  { intros Hpm. apply Hin. rewrite (block_nodes_disjoint lo hi n m p); [set_solver|done..]. }
  split; [by rewrite E1|intros f; by rewrite E2].
Qed.

(** Pruning does not touch what is canonical. *)
Lemma prune_node_keeps g db pos p fork e : in_place p fork e db -> in_place p fork e (prune_node g db pos).
Proof.
  intros [Hc Ht]. unfold MmrGadget.prune_node. case_bool_decide; [|done]. split.
  - rewrite lookup_delete_ne; [done|]. intros E. by apply (canon_not_temp indexing_prefix p pos g).
  - by apply lookup_delete_None; right.
Qed.

Lemma prune_branches_keep hs s : exists l s', map_m (prune_branch client indexing_prefix) hs s = (Some l, s') /\
  best_canonicalized s' = best_canonicalized s /\
  forall p fork e, in_place p fork e (og_db s) -> in_place p fork e (og_db s').
Proof.
  revert s; induction hs as [|h hs IH]; intros s; [exists [], s; split; [done|]; split; [done|auto]|]. cbn [map_m].
  assert (Hone : exists s1, prune_branch client indexing_prefix h s = (Some tt, s1) /\ best_canonicalized s1 = best_canonicalized s /\
    forall p fork e, in_place p fork e (og_db s) -> in_place p fork e (og_db s1)).
  { unfold prune_branch. destruct (_ ≫= _) as [[[a b] g]|]; [|exists s; split; [done|]; split; [done|auto]]. eexists. split; [done|]. split; [done|].
    intros p fork e. cbn. generalize (og_db s). induction (nodes_added_by_new_leaves a b) as [|x l IHl]; intros db Hin; [done|].
    cbn. apply IHl. by apply prune_node_keeps. }
  destruct Hone as (s1 & Hr1 & Hb1 & Hk1). destruct (IH s1) as (l & s2 & Hr2 & Hb2 & Hk2).
  exists (tt :: l), s2. unfold bind. rewrite Hr1, Hr2. split; [done|]. split; [congruence|auto].
Qed.

Lemma write_state_or_log s : exists aux, write_gadget_state_or_log client s
  = (Some tt, mkOffchainMmr (og_db s) aux (first_mmr_block s) (best_canonicalized s)).
Proof.
  unfold write_gadget_state_or_log, write_gadget_state, insert_aux, bind. cbn.
  destruct (cl_aux_works client); cbn; [by eexists|]. exists (og_aux s). by destruct s.
Qed.

Lemma branches_old fuel lo hi hs s : healthy lo hi ->
  Forall (fun h => exists m, lo <= m <= hi /\ m <= best_canonicalized s /\ h = chain m) hs ->
  exists l, map_m (canonicalize_branch (S fuel)) hs s = (Some l, s).
Proof.
  intros Hh Hs. induction Hs as [|h hs (m & Hm & Hb & ->) Hs IH]; [by exists []|]. destruct IH as (l & Hl).
  exists (tt :: l). cbn [map_m]. unfold bind. by rewrite (branch_old fuel lo hi m s Hh Hm Hb), Hl.
Qed.

Lemma map_m_app {S A B} (f : A -> M S B) l r (s s1 s2 : S) a b :
  map_m f l s = (Some a, s1) -> map_m f r s1 = (Some b, s2) -> map_m f (l ++ r) s = (Some (a ++ b), s2).
Proof.
  revert s a; induction l as [|x l IH]; intros s a Hl Hr; cbn [map_m app] in *.
  - apply ret_inv in Hl as [<- <-]. done.
  - apply bind_inv in Hl as (y & s' & Hy & Hl). apply bind_inv in Hl as (ys & s'' & Hys & Hl).
    apply ret_inv in Hl as [<- <-]. unfold bind at 1. rewrite Hy. unfold bind. by rewrite (IH s' ys Hys Hr).
Qed.

(** A notification on a node that knows the chain. *)
Lemma notification_run fuel lo hi note s :
  healthy lo hi -> lo <= best_canonicalized s < hi -> first_mmr_block s <= best_canonicalized s + 1 ->
  fn_hash note = chain hi -> Forall (fun h => exists m, lo <= m < hi /\ h = chain m) (fn_tree_route note) ->
  (forall num, first_mmr_block_num client note = Some num -> num = first_mmr_block s) ->
  exists s', canonicalize_and_prune client indexing_prefix (S fuel) note s = (Some tt, s') /\ best_canonicalized s' = hi /\
    forall p fork e, in_place p fork e (foldl canon_block (og_db s) (blocks (best_canonicalized s + 1) hi)) -> in_place p fork e (og_db s').
Proof.
  intros Hh Hb Hf Ehash Hroute Hgen. unfold canonicalize_and_prune, handle_potential_pallet_reset.
  assert (Hreset : forall s0, match first_mmr_block_num client note with
    | None => ret tt
    | Some num => let* first := gets first_mmr_block in
        if num =? first then ret tt
        else let* _ := modify (on_first (fun _ => num)) in let* _ := modify (on_best (fun _ => pred_block num)) in write_gadget_state_or_log client
    end s0 = (Some tt, s0) \/ first_mmr_block s0 <> first_mmr_block s).
  { intros s0. destruct (first_mmr_block_num client note) as [num|]; [|by left]. specialize (Hgen num eq_refl). unfold bind; cbn.
    destruct (Z.eqb_spec num (first_mmr_block s0)); [by left|right; congruence]. }
  unfold bind at 1. destruct (Hreset s) as [->|]; [|done].
  destruct (catch_up_run fuel lo hi hi s Hh ltac:(lia) ltac:(lia) Hf) as (aux & Hcatch).
  unfold bind at 1. rewrite Ehash, Hcatch. set (s1 := mkOffchainMmr _ _ _ _).
  destruct (branches_old fuel lo hi (fn_tree_route note) s1 Hh) as (l & Hl).
  { eapply Forall_impl; [exact Hroute|]. intros h (m & Hm & ->). exists m. cbn. split; [lia|]. split; [lia|done]. }
  pose proof (branch_next fuel lo hi hi s1 Hh ltac:(lia) ltac:(cbn; lia) eq_refl) as Hlast. set (s2 := on_best _ _) in Hlast.
  assert (Hall : map_m (canonicalize_branch (S fuel)) (fn_tree_route note ++ [chain hi]) s1 = (Some (l ++ [tt]), s2)).
  { apply (map_m_app _ _ _ _ s1 _ _ _ Hl). cbn [map_m]. unfold bind. by rewrite Hlast. }
  unfold bind at 1. rewrite Hall. destruct (write_state_or_log s2) as (aux2 & Hw). unfold bind at 1. rewrite Hw. set (s3 := mkOffchainMmr _ _ _ _).
  assert (Edb : og_db s3 = foldl canon_block (og_db s) (blocks (best_canonicalized s + 1) hi)).
  { cbn. rewrite (blocks_snoc (best_canonicalized s + 1) hi) by lia. by rewrite foldl_app. }
  destruct (cl_expand_forks client (fn_stale_heads note)) as [stale|].
  - destruct (prune_branches_keep stale s3) as (l' & s4 & Hr & Hb4 & Hk). exists s4. unfold bind. rewrite Hr.
    split; [done|]. split; [by rewrite Hb4|]. intros p fork e Hp. apply Hk. by rewrite Edb.
  - exists s3. split; [done|]. split; [done|]. intros p fork e Hp. by rewrite Edb.
Qed.

Lemma decode_leaf_node l : decode_node (encode_node (Data l)) = Some (Data l).
Proof. cbn. rewrite decode_encode. cbn. by rewrite decode_encode. Qed.

Lemma leaf_in_block lo hi n i : healthy lo hi -> lo < n <= hi -> leaves_at (n - 1) <= i < leaves_at n ->
  leaf_index_to_pos i ∈ block_nodes n.
Proof.
  intros (_ & Hh & _) Hn Hi. destruct (Hh (n - 1) ltac:(lia)) as (_ & _ & _ & H0'). rewrite leaf_pos_next by lia.
  unfold block_nodes, nodes_added_by_new_leaves. apply list_elem_of_In, in_concat. exists (right_branch_ending_in_leaf i).
  split; apply list_elem_of_In.
  - apply list_elem_of_fmap. exists i. split; [done|]. apply list_elem_of_fmap. exists (Z.to_nat (i - leaves_at (n - 1))).
    split; [lia|]. apply elem_of_seq. lia.
  - apply right_branch_nodes; [lia|]. pose proof (nodes_size_grows i ltac:(lia)). lia.
Qed.

(** C33: what a final block committed can be read. On a node that has the headers and states of the
    chain from the last block it canonicalised on, a finality notification moves every node that
    the blocks up to the final one stored under their own fork to its canonical key, whatever was
    stale, and remembers how far it got; every leaf that was stored by a block after the last one
    canonicalised is then read back at its position. The pallet is assumed not to have been reset;
    blocks before are left as they are, see [skipped_parent_lost]. *)
Theorem finalized_leaves_readable fuel lo hi note s :
  healthy lo hi -> lo <= best_canonicalized s < hi -> first_mmr_block s <= best_canonicalized s + 1 ->
  fn_hash note = chain hi -> Forall (fun h => exists m, lo <= m < hi /\ h = chain m) (fn_tree_route note) ->
  (forall num, first_mmr_block_num client note = Some num -> num = first_mmr_block s) ->
  exists s', canonicalize_and_prune client indexing_prefix (S fuel) note s = (Some tt, s') /\ best_canonicalized s' = hi /\
    forall n, best_canonicalized s < n <= hi ->
      (forall p e, p ∈ block_nodes n -> og_db s !! temp_key p (fork_at n) = Some e -> in_place p (fork_at n) e (og_db s')) /\
      (forall i l t, leaves_at (n - 1) <= i < leaves_at n ->
        og_db s !! temp_key (leaf_index_to_pos i) (fork_at n) = Some (encode_node (Data l)) ->
        mmr_offchain t = og_db s' -> pallet_get_leaf indexing_prefix (leaf_index_to_pos i) t = Ok (Some l)).
Proof.
  intros Hh Hb Hf Ehash Hroute Hgen.
  destruct (notification_run fuel lo hi note s Hh Hb Hf Ehash Hroute Hgen) as (s' & Hrun & Hbest & Hk).
  exists s'. split; [done|]. split; [done|]. intros n Hn.
  assert (Hmove : forall p e, p ∈ block_nodes n -> og_db s !! temp_key p (fork_at n) = Some e -> in_place p (fork_at n) e (og_db s')).
  { intros p e Hp He. apply Hk. apply (canon_blocks_moves lo hi); [done|lia| |done|by apply elem_of_blocks; lia|done].
    apply Forall_forall. intros m Hm%elem_of_blocks. lia. }
  split; [done|]. intros i l t Hi Hl Ht.
  destruct (Hmove _ _ (leaf_in_block lo hi n i Hh ltac:(lia) Hi) Hl) as [Hc _].
  unfold pallet_get_leaf, offchain_get_elem. rewrite Ht, Hc. cbn [result_map map_err]. by rewrite decode_leaf_node.
Qed.

(** a block that was skipped is not made up for. When the gadget canonicalises a block beyond
    the one after the best, it catches up with the blocks in between except the last: catching up
    starts from the parent, which is left out. The best block is set all the same, so that the
    nodes of the parent stay under the key of their fork, where no leaf is read, and the gadget
    does nothing about that block any more. *)
Theorem skipped_parent_lost fuel lo hi n s :
  healthy lo hi -> lo <= best_canonicalized s -> best_canonicalized s + 1 < n <= hi -> first_mmr_block s <= best_canonicalized s + 1 ->
  exists s', canonicalize_branch (S (S fuel)) (chain n) s = (Some tt, s') /\ best_canonicalized s' = n /\
    (forall p, p ∈ block_nodes (n - 1) -> same_at p (og_db s) (og_db s')) /\
    canonicalize_branch (S (S fuel)) (chain (n - 1)) s' = (Some tt, s').
Proof.
  intros Hh Hlo Hn Hf. pose proof (proj1 Hh) as Hz.
  set (s1 := on_db (fun db => canon_block db n) s).
  destruct (catch_up_run fuel lo hi (n - 1) s1 Hh) as (aux & Hcatch); [cbn; lia..|].
  set (s2 := mkOffchainMmr _ _ _ _) in Hcatch. exists (on_best (fun _ => n) s2).
  assert (Hrun : canonicalize_branch (S (S fuel)) (chain n) s = (Some tt, on_best (fun _ => n) s2)).
  { unfold MmrGadget.canonicalize_catch_up in Hcatch. remember (S fuel) as f eqn:Efuel in Hcatch |- *.
    cbn [MmrGadget.canonicalize_branch]. rewrite (proj1 (proj1 (proj2 Hh) n ltac:(lia))). unfold bind at 1 2; cbn [gets].
    cbn [hm_number hm_parent header_at]. destruct (Z.ltb_spec n (first_mmr_block s)); [lia|]. destruct (Z.leb_spec n (best_canonicalized s)); [lia|].
    cbn [orb]. rewrite (branch_info_at lo hi n Hh) by lia. unfold bind at 1; cbn [modify]. fold s1. unfold pred_block.
    destruct (Z.eqb_spec (best_canonicalized s) (Z.max 0 (n - 1))); [lia|]. cbn [negb].
    unfold bind at 1. change (on_db _ s) with s1. rewrite Hcatch. done. }
  split; [done|]. split; [done|]. split.
  - intros p Hp. pose proof (canon_blocks_other lo hi (n :: blocks (best_canonicalized s + 1) (n - 1 - 1)) (n - 1) (og_db s) p Hh ltac:(lia)) as Ho.
    cbn [foldl] in Ho. apply Ho; [|done|].
    + constructor; [lia|]. apply Forall_forall. intros m Hm%elem_of_blocks. lia.
    + rewrite not_elem_of_cons, elem_of_blocks. lia.
  - apply (branch_old _ lo hi); [done|lia|cbn; lia].
Qed.
End gadget.
