(* ===== verification/MmrDemo.v ===== *)
(** * A mountain range at work

    An implementation of the library of mountain ranges, by the heights of the mountains, with
    proofs that it behaves as documented; on it, the theorems on the pallet and on the gadget are
    applied to concrete blocks. *)

From S2P Require Import Prelude StateMachine Router Messaging Host ChildTrie PalletTypes RefHost PalletDemo DemoCodec Mmr MmrProps MmrGadget.

Module MmrDemo.

#[local] Existing Instances Demo.keccak PalletDemo.leaf_codec PalletDemo.bytes_codec.
#[local] Instance number_codec : Codec Z := z_codec.

(** ** Heights *)

(** The heights of the mountains over a number of leaves, the last mountain first. *)
Fixpoint mountains (p : positive) (h : nat) : list nat :=
  match p with
  | xH => [h]
  | xO p => mountains p (S h)
  | xI p => h :: mountains p (S h)
  end.
Definition heights (n : Z) : list nat := match n with Zpos p => mountains p 0 | _ => [] end.

Definition mountain_size (h : nat) : Z := 2 ^ (Z.of_nat h + 1) - 1.
Fixpoint total (hs : list nat) : Z := match hs with [] => 0 | h :: r => mountain_size h + total r end.
Fixpoint peaks_asc (hs : list nat) : list Z := match hs with [] => [] | h :: r => (total r + mountain_size h - 1) :: peaks_asc r end.

(** A mountain of height [h] is put at the end and merges with those of the same height. *)
Fixpoint add (h : nat) (hs : list nat) : list nat :=
  match hs with
  | [] => [h]
  | h' :: r => if (h' =? h)%nat then add (S h) r else h :: hs
  end.

Lemma mountains_above p h : Forall (fun x => (h <= x)%nat) (mountains p h).
Proof.
  revert h; induction p as [p IH|p IH|]; intros h; cbn.
  - constructor; [lia|]. eapply Forall_impl; [apply IH|]. cbn. lia.
  - eapply Forall_impl; [apply IH|]. cbn. lia.
  - by repeat constructor.
Qed.

Lemma mountains_succ p h : mountains (Pos.succ p) h = add h (mountains p h).
Proof.
  revert h; induction p as [p IH|p IH|]; intros h.
  - change (mountains (Pos.succ p~1) h) with (mountains (Pos.succ p) (S h)). cbn [mountains add]. by rewrite Nat.eqb_refl, IH.
  - change (mountains (Pos.succ p~0) h) with (h :: mountains p (S h)). cbn [mountains].
    pose proof (mountains_above p (S h)) as Ha. destruct (mountains p (S h)) as [|x r]; [done|].
    apply Forall_cons in Ha as [Ha _]. cbn [add]. destruct (Nat.eqb_spec x h); [lia|done].
  - change (mountains (Pos.succ 1) h) with [S h]. cbn. by rewrite Nat.eqb_refl.
Qed.

Lemma heights_succ n : 0 <= n -> heights (n + 1) = add 0 (heights n).
Proof.
  intros Hn. destruct n as [|p|p]; [done| |lia]. cbn [heights]. replace (Z.pos p + 1) with (Z.pos (Pos.succ p)) by lia.
  apply mountains_succ.
Qed.

Lemma mountain_size_pos h : 0 < mountain_size h.
Proof. unfold mountain_size. rewrite pow2_add1. pose proof (pow2_pos h). lia. Qed.
Lemma mountain_size_succ h : mountain_size (S h) = 2 * mountain_size h + 1.
Proof. unfold mountain_size. rewrite !pow2_add1, pow2_succ. lia. Qed.
Lemma total_nonneg hs : 0 <= total hs.
Proof. induction hs as [|h r IH]; cbn; [lia|]. pose proof (mountain_size_pos h). lia. Qed.

(** What is kept and what is merged. *)
Lemma add_split h hs : exists merged last kept, hs = merged ++ kept /\ add h hs = last :: kept /\
  total hs + mountain_size h + Z.of_nat (length merged) = total (add h hs).
Proof.
  revert h; induction hs as [|x r IH]; intros h; cbn [add].
  - exists [], h, []. cbn. split; [done|]. split; [done|lia].
  - destruct (Nat.eqb_spec x h) as [->|Hne].
    + destruct (IH (S h)) as (merged & last & kept & E & Ea & Et). exists (h :: merged), last, kept.
      split; [by rewrite E|]. split; [done|]. cbn [total length]. rewrite mountain_size_succ in Et. lia.
    + exists [], h, (x :: r). cbn. split; [done|]. split; [done|lia].
Qed.

Lemma peaks_asc_app a b : exists front, peaks_asc (a ++ b) = front ++ peaks_asc b.
Proof. induction a as [|x a [front IH]]; cbn; [by exists []|]. rewrite IH. by eexists (_ :: front). Qed.

Lemma peaks_asc_range hs : Forall (fun p => 0 <= p < total hs) (peaks_asc hs) /\ NoDup (peaks_asc hs).
Proof.
  induction hs as [|h r [IH IHn]]; cbn; [split; constructor|]. pose proof (mountain_size_pos h). pose proof (total_nonneg r). split.
  - constructor; [lia|]. eapply Forall_impl; [exact IH|]. cbn. lia.
  - constructor; [|done]. intros Hin. eapply Forall_forall in IH; [|done]. lia.
Qed.

(** ** The helpers *)

Definition size_of_leaves (n : Z) : Z := total (heights n).

Lemma size_grows n : 0 <= n -> 0 <= size_of_leaves n < size_of_leaves (n + 1).
Proof.
  intros Hn. unfold size_of_leaves. rewrite heights_succ by done. split; [apply total_nonneg|].
  destruct (add_split 0 (heights n)) as (merged & last & kept & _ & _ & Et). rewrite <- Et. pose proof (mountain_size_pos 0). lia.
Qed.

Lemma size_strict n m : 0 <= n < m -> size_of_leaves n + (m - n) <= size_of_leaves m.
Proof.
  intros [Hn Hm]. replace m with (n + Z.of_nat (Z.to_nat (m - n))) by lia. induction (Z.to_nat (m - n)) as [|k IH]; [rewrite Z.add_0_r; lia|].
  pose proof (size_grows (n + Z.of_nat k) ltac:(lia)). replace (n + Z.of_nat (S k)) with (n + Z.of_nat k + 1) by lia. lia.
Qed.

(** The number of leaves under a number of nodes, by search. *)
Definition leaves_of_size (size : Z) : Z :=
  default 0 (find_map (fun i => if size_of_leaves (Z.of_nat i) =? size then Some (Z.of_nat i) else None) (seq 0 (S (Z.to_nat size)))).

Lemma find_map_first {A B} (f : A -> option B) a x b y : Forall (fun z => f z = None) a -> f x = Some y -> find_map f (a ++ x :: b) = Some y.
Proof. intros Ha Hx. induction Ha as [|z a Hz Ha IH]; cbn; [by rewrite Hx|by rewrite Hz]. Qed.

Lemma leaves_of_size_of n : 0 <= n -> leaves_of_size (size_of_leaves n) = n.
Proof.
  intros Hn. unfold leaves_of_size. assert (Hle : n <= size_of_leaves n).
  { destruct (decide (n = 0)) as [->|]; [done|]. pose proof (size_strict 0 n). cbn in *. lia. }
  replace (S (Z.to_nat (size_of_leaves n))) with (Z.to_nat n + S (Z.to_nat (size_of_leaves n) - Z.to_nat n))%nat by lia.
  rewrite seq_app. cbn [seq]. rewrite (find_map_first _ _ _ _ n); [done| |].
  - apply Forall_forall. intros i Hi%elem_of_seq. destruct (Z.eqb_spec (size_of_leaves (Z.of_nat i)) (size_of_leaves n)) as [E|]; [|done].
    pose proof (size_strict (Z.of_nat i) n). lia.
  - rewrite Nat.add_0_l, Z2Nat.id by done. by rewrite Z.eqb_refl.
Qed.

(** [pos_height_in_tree]: jump left until the position is a leftmost node. *)
Fixpoint height_of (fuel : nat) (q : Z) : nat :=
  match fuel with
  | O => 0
  | S fuel => if q + 1 =? 2 ^ (Z.log2 q + 1) then Z.to_nat (Z.log2 q) else height_of fuel (q - (2 ^ Z.log2 q - 1))
  end.

#[local] Instance helpers : MmrHelpers := {|
  get_peaks size := reverse (peaks_asc (heights (leaves_of_size size)));
  pos_height_in_tree pos := height_of 64 (pos + 1);
  parent_offset h := 2 ^ (Z.of_nat h + 1);
  sibling_offset h := 2 ^ (Z.of_nat h + 1) - 1;
  leaf_index_to_pos := size_of_leaves;
  nodes_size := size_of_leaves;
  temp_offchain_key prefix pos fork := Byte.x00 :: write_strings [prefix; encode pos; fork];
  canon_offchain_key prefix pos := Byte.x01 :: write_strings [prefix; encode pos]
|}.
#[local] Instance gadget_lib : GadgetLib := fun i =>
  (fun k => size_of_leaves i + Z.of_nat k) <$> seq 0 (Z.to_nat (size_of_leaves (i + 1) - size_of_leaves i)).

#[local] Instance offset_laws : OffsetLaws.
Proof. by split. Qed.

Lemma write_strings_inj a b : write_strings a = write_strings b -> a = b.
Proof. intros E. apply (f_equal (read_strings [])) in E. rewrite !read_write_strings in E. by injection E. Qed.
Lemma encode_inj (i j : Z) : encode i = encode j -> i = j.
Proof. intros E. apply (f_equal decode) in E. rewrite !decode_encode in E. by injection E. Qed.

#[local] Instance range_laws : RangeLaws.
Proof.
  split.
  - done.
  - exact size_grows.
  - done.
  - intros n Hn. cbn [get_peaks nodes_size helpers]. rewrite leaves_of_size_of by lia. destruct (peaks_asc_range (heights n)) as [Hr Hnd].
    split; by rewrite reverse_Permutation.
  - intros n Hn. cbn [get_peaks nodes_size helpers]. rewrite !leaves_of_size_of by lia. unfold size_of_leaves. rewrite heights_succ by done.
    destruct (add_split 0 (heights n)) as (merged & last & kept & E & Ea & _). rewrite Ea. cbn [peaks_asc total].
    destruct (peaks_asc_app merged kept) as (front & Ef). exists (reverse (peaks_asc kept)), (reverse front). split.
    + destruct (Z.eqb_spec n 0) as [->|].
      * cbn in E. symmetry in E. apply app_eq_nil in E as [-> ->]. cbn in Ef. destruct front; [done|by destruct front].
      * by rewrite E, Ef, reverse_app.
    + rewrite reverse_cons. do 2 f_equal. lia.
  - intros prefix i j f g _ _ E. injection E as E. apply write_strings_inj in E. injection E as E ->. split; [|done]. by apply encode_inj.
Qed.

#[local] Instance gadget_laws : GadgetLaws.
Proof.
  split.
  - intros prefix i j _ _ E. injection E as E. apply write_strings_inj in E. injection E as E. by apply encode_inj.
  - done.
  - intros i p Hi. unfold right_branch_ending_in_leaf, gadget_lib. rewrite list_elem_of_fmap. pose proof (size_grows i Hi). cbn [nodes_size helpers]. split.
    + intros (k & -> & Hk%elem_of_seq). lia.
    + intros Hp. exists (Z.to_nat (p - size_of_leaves i)). split; [lia|]. apply elem_of_seq. lia.
Qed.

(** ** The library *)

Record Range : Type := mkRange { range_size : Z; range_batch : list (Z * list DataOrHash) }.

(** A node is looked for in the batch, then in the store. *)
Definition in_entry (pos : Z) (e : Z * list DataOrHash) : option DataOrHash :=
  if e.1 <=? pos then e.2 !! Z.to_nat (pos - e.1) else None.
Definition find_elem (get_elem : Z -> result bytes (option DataOrHash)) (batch : list (Z * list DataOrHash)) (pos : Z) :
    result bytes DataOrHash :=
  match find_map (in_entry pos) batch with
  | Some e => Ok e
  | None => match get_elem pos with
            | Ok (Some e) => Ok e
            | Ok None => Err (lit "InconsistentStore")
            | Err e => Err e
            end
  end.

(** The parents that a new node of height [h] at [pos] completes. *)
Fixpoint climb (mg : DataOrHash -> DataOrHash -> option DataOrHash) (find : Z -> result bytes DataOrHash)
    (hs : list nat) (h : nat) (cur : DataOrHash) (pos : Z) : option (result bytes (list DataOrHash)) :=
  match hs with
  | [] => Some (Ok [])
  | h' :: r =>
      if (h' =? h)%nat then
        match find (pos - mountain_size h) with
        | Err e => Some (Err e)
        | Ok lft =>
            parent ← mg lft cur;
            rest ← climb mg find r (S h) parent (pos + 1);
            Some (result_map (cons parent) rest)
        end
      else Some (Ok [])
  end.

(** The peaks are bagged from the right. *)
Fixpoint bag (mg : DataOrHash -> DataOrHash -> option DataOrHash) (find : Z -> result bytes DataOrHash)
    (acc : DataOrHash) (peaks : list Z) : option (result bytes DataOrHash) :=
  match peaks with
  | [] => Some (Ok acc)
  | p :: peaks =>
      match find p with
      | Err e => Some (Err e)
      | Ok lft => acc' ← mg acc lft; bag mg find acc' peaks
      end
  end.

(** Proofs are not exercised here. *)
#[local] Instance library : MmrLib := {|
  MMR := Range;
  mmr_new size := mkRange size [];
  lib_size := range_size;
  lib_batch := range_batch;
  lib_push mg ge elem r :=
    parents ← climb mg (find_elem ge (range_batch r)) (heights (leaves_of_size (range_size r))) 0 elem (range_size r);
    Some (result_map (fun parents => (range_size r,
      mkRange (range_size r + 1 + Z.of_nat (length parents)) (range_batch r ++ [(range_size r, elem :: parents)]))) parents);
  lib_get_root mg ge r :=
    match peaks_asc (heights (leaves_of_size (range_size r))) with
    | [] => Some (Err (lit "GetRootOnEmpty"))
    | p :: peaks =>
        match find_elem ge (range_batch r) p with
        | Err e => Some (Err e)
        | Ok last => bag mg (find_elem ge (range_batch r)) last peaks
        end
    end;
  lib_gen_proof _ _ _ _ := Some (Err (lit "GenProofForInvalidLeaves"));
  lib_verify _ _ _ _ _ := Some (Ok false)
|}.

Definition hashable (find : Z -> result bytes DataOrHash) (p : Z) : Prop := exists e h, find p = Ok e /\ node_hash e = Some h.

Lemma merge_hashable l r : is_Some (node_hash l) -> is_Some (node_hash r) -> exists h, merge l r = Some (Hash h).
Proof. intros [a Ha] [b Hb]. unfold merge. rewrite Ha, Hb. by eexists. Qed.
Lemma merge_hash l r n : merge l r = Some n -> exists h, n = Hash h.
Proof. unfold merge. destruct (node_hash l), (node_hash r); cbn; try done. intros [= <-]. by eexists. Qed.

Lemma climb_works find hs h cur :
  is_Some (node_hash cur) -> (forall p, p ∈ peaks_asc hs -> hashable find p) ->
  exists ps, climb merge find hs h cur (total hs + mountain_size h - 1) = Some (Ok ps).
Proof.
  revert h cur; induction hs as [|x r IH]; intros h cur Hcur Hf; cbn [climb]; [by eexists|].
  destruct (Nat.eqb_spec x h) as [->|]; [|by eexists]. cbn [total].
  replace (mountain_size h + total r + mountain_size h - 1 - mountain_size h) with (total r + mountain_size h - 1) by lia.
  destruct (Hf (total r + mountain_size h - 1)) as (lft & lh & -> & Hl); [by left|].
  destruct (merge_hashable lft cur) as (ph & Hm); [by eexists|done|]. rewrite Hm. cbn [mbind option_bind].
  replace (mountain_size h + total r + mountain_size h - 1 + 1) with (total r + mountain_size (S h) - 1) by (rewrite mountain_size_succ; lia).
  destruct (IH (S h) (Hash ph)) as (ps & Hps); [by eexists| |].
  { intros p Hp. apply Hf. by right. }
  rewrite Hps. by eexists.
Qed.

Lemma climb_shape find hs h cur pos ps : climb merge find hs h cur pos = Some (Ok ps) ->
  (exists l, ps = Hash <$> l) /\ total hs + mountain_size h + Z.of_nat (length ps) = total (add h hs) /\
  (forall x, last (cur :: ps) = Some x -> is_Some (node_hash cur) -> is_Some (node_hash x)).
Proof.
  revert h cur pos ps; induction hs as [|x r IH]; intros h cur pos ps Hc; cbn [climb add] in *.
  - injection Hc as <-. split; [by exists []|]. split; [cbn; lia|]. by intros y [= <-].
  - destruct (Nat.eqb_spec x h) as [->|].
    + destruct (find _) as [lft|]; [|done]. destruct (merge lft cur) as [parent|] eqn:Em; [|done]. cbn in Hc.
      destruct (climb _ _ r _ _ _) as [[rest|]|] eqn:Er; try done. injection Hc as <-.
      destruct (IH _ _ _ _ Er) as ((l & ->) & Hlen & Hlast). apply merge_hash in Em as (ph & ->). split; [by exists (ph :: l)|]. split.
      * rewrite <- Hlen. cbn [total length]. rewrite mountain_size_succ. lia.
      * intros y Hy _. apply (Hlast y); [done|by eexists].
    + injection Hc as <-. split; [by exists []|]. split; [cbn; lia|]. by intros y [= <-].
Qed.

Lemma batch_ok_snoc n ls b l hs :
  batch_ok n ls b -> let k := n + Z.of_nat (length ls) in Z.of_nat (length hs) + 1 = nodes_size (k + 1) - nodes_size k ->
  batch_ok n (ls ++ [l]) (b ++ [(nodes_size k, Data l :: (Hash <$> hs))]).
Proof.
  revert n b; induction ls as [|x ls IH]; intros n [|[pos es] b] Hb k Hlen; try done.
  - subst k. rewrite Z.add_0_r in *. cbn [app batch_ok]. split; [done|]. split; [|done]. by exists hs.
  - destruct Hb as (-> & Hes & Hb). cbn [app batch_ok]. split; [done|]. split; [done|].
    subst k. cbn [length] in *. replace (n + Z.of_nat (S (length ls))) with (n + 1 + Z.of_nat (length ls)) in * by lia. by apply IH.
Qed.

Lemma push_shape ge l r pos r' k : 0 <= k -> range_size r = size_of_leaves k ->
  lib_push merge ge (Data l) r = Some (Ok (pos, r')) ->
  exists hs, range_batch r' = range_batch r ++ [(size_of_leaves k, Data l :: (Hash <$> hs))] /\
    range_size r' = size_of_leaves (k + 1) /\ Z.of_nat (length hs) + 1 = size_of_leaves (k + 1) - size_of_leaves k /\
    (is_Some (preimage l) -> forall x, last (Data l :: (Hash <$> hs)) = Some x -> is_Some (node_hash x)).
Proof.
  intros Hk Hs Hp. cbn [lib_push library] in Hp. rewrite Hs, leaves_of_size_of in Hp by done.
  destruct (climb _ _ _ _ _ _) as [[ps|]|] eqn:Ec; try done. cbn in Hp. injection Hp as _ <-.
  destruct (climb_shape _ _ _ _ _ _ Ec) as ((hs & ->) & Hlen & Hlast). rewrite <- heights_succ in Hlen by done.
  fold (size_of_leaves k) (size_of_leaves (k + 1)) in Hlen. change (mountain_size 0) with 1 in Hlen.
  exists hs. cbn [range_batch range_size]. rewrite length_fmap in *. split; [done|]. split; [exact Hlen|].
  split; [change (size_of_leaves k + 1 + Z.of_nat (length (hs : list H256)) = size_of_leaves (k + 1)) in Hlen; lia|].
  intros [pre Hpre] x Hx. apply (Hlast x Hx). cbn. rewrite Hpre. by eexists.
Qed.

Lemma built_shape ge n ls r : 0 <= n -> built ge n ls r ->
  range_size r = size_of_leaves (n + Z.of_nat (length ls)) /\ batch_ok n ls (range_batch r).
Proof.
  intros Hn Hb. induction Hb as [|ls r l pos r' Hb [IHs IHb] Hp]; [cbn; by rewrite Z.add_0_r|].
  destruct (push_shape ge l r pos r' (n + Z.of_nat (length ls)) ltac:(lia) IHs Hp) as (hs & Eb & Es & Hlen & _).
  rewrite length_app. cbn [length]. replace (n + Z.of_nat (length ls + 1)) with (n + Z.of_nat (length ls) + 1) by lia.
  split; [done|]. rewrite Eb. by apply batch_ok_snoc.
Qed.

(** A new entry of the batch hides nothing. *)
Lemma find_elem_snoc ge b pos es p e : p < pos -> find_elem ge b p = Ok e -> find_elem ge (b ++ [(pos, es)]) p = Ok e.
Proof.
  intros Hp. unfold find_elem. assert (E : find_map (in_entry p) (b ++ [(pos, es)]) = find_map (in_entry p) b); [|by rewrite E].
  induction b as [|x b IH]; cbn; [|by rewrite IH]. unfold in_entry. cbn. destruct (Z.leb_spec pos p); [lia|done].
Qed.

Lemma find_elem_last ge b pos es p e : (forall x, x ∈ b -> x.1 + Z.of_nat (length x.2) <= p) -> pos <= p -> es !! Z.to_nat (p - pos) = Some e ->
  find_elem ge (b ++ [(pos, es)]) p = Ok e.
Proof.
  intros Hb Hp He. unfold find_elem.
  assert (E : find_map (in_entry p) (b ++ [(pos, es)]) = Some e); [|by rewrite E].
  induction b as [|x b IH]; cbn.
  - unfold in_entry. cbn. destruct (Z.leb_spec pos p); [|lia]. by rewrite He.
  - assert (Hx : in_entry p x = None).
    { unfold in_entry. destruct (Z.leb_spec x.1 p); [|done]. apply lookup_ge_None. specialize (Hb x ltac:(by left)). lia. }
    rewrite Hx. apply IH. intros y Hy. apply Hb. by right.
Qed.

Lemma batch_before n ls b : 0 <= n -> batch_ok n ls b ->
  forall x, x ∈ b -> x.1 + Z.of_nat (length x.2) <= size_of_leaves (n + Z.of_nat (length ls)).
Proof.
  revert n b; induction ls as [|l ls IH]; intros n [|[pos es] b] Hn Hb x Hx; try done; [by apply not_elem_of_nil in Hx|].
  destruct Hb as (-> & (hs & -> & Hlen) & Hb). cbn [nodes_size helpers] in *. apply elem_of_cons in Hx as [->|Hx].
  - cbn [fst snd length]. rewrite length_fmap. pose proof (size_mono (n + 1) (length ls) ltac:(lia)) as Hs. cbn [nodes_size helpers] in Hs.
    replace (n + Z.of_nat (S (length ls))) with (n + 1 + Z.of_nat (length ls)) by lia. lia.
  - specialize (IH (n + 1) b ltac:(lia) Hb x Hx). cbn [length]. by replace (n + Z.of_nat (S (length ls))) with (n + 1 + Z.of_nat (length ls)) by lia.
Qed.

Lemma built_findable ge n ls r : 0 <= n -> store_has ge n -> Forall (fun l => is_Some (preimage l)) ls -> built ge n ls r ->
  forall p, p ∈ peaks_asc (heights (n + Z.of_nat (length ls))) -> hashable (find_elem ge (range_batch r)) p.
Proof.
  intros Hn Hs Hp Hb. induction Hb as [|ls r l pos r' Hb IH Hpush].
  - cbn [length]. rewrite Z.add_0_r. intros p Hin. destruct (Hs p) as (h & Eh).
    { unfold peaks_of. destruct (Z.eqb_spec n 0) as [->|]; [by apply not_elem_of_nil in Hin|].
      cbn [get_peaks nodes_size helpers]. rewrite leaves_of_size_of by done. by apply elem_of_reverse. }
    exists (Hash h), h. unfold find_elem. cbn [range_batch mmr_new library find_map]. by rewrite Eh.
  - apply Forall_app in Hp as [Hp Hl]. apply Forall_cons in Hl as [Hl _]. specialize (IH Hp).
    set (k := n + Z.of_nat (length ls)) in *. destruct (built_shape ge n ls r Hn Hb) as [Hsz Hbatch]. fold k in Hsz.
    destruct (push_shape ge l r pos r' k ltac:(lia) Hsz Hpush) as (hs & Eb & _ & Hlen & Hlast). specialize (Hlast Hl).
    rewrite length_app. cbn [length]. replace (n + Z.of_nat (length ls + 1)) with (k + 1) by lia.
    destruct (add_split 0 (heights k)) as (merged & lst & kept & E & Ea & _). rewrite heights_succ, Ea by lia. cbn [peaks_asc].
    intros p Hin. rewrite Eb. apply elem_of_cons in Hin as [->|Hin].
    + assert (Epos : total kept + mountain_size lst - 1 = size_of_leaves k + Z.of_nat (length hs)).
      { unfold size_of_leaves at 1. assert (Et : size_of_leaves (k + 1) = total kept + mountain_size lst).
        { unfold size_of_leaves. rewrite heights_succ, Ea by lia. cbn. lia. }
        fold (size_of_leaves k). lia. }
      rewrite Epos. destruct (last (Data l :: (Hash <$> hs))) as [x|] eqn:Ex; [|by apply last_None in Ex].
      destruct (Hlast x eq_refl) as [h Hh]. exists x, h. split; [|done]. apply find_elem_last.
      * intros y Hy. pose proof (batch_before n ls _ Hn Hbatch y Hy). fold k in H. lia.
      * lia.
      * replace (Z.to_nat (size_of_leaves k + Z.of_nat (length hs) - size_of_leaves k)) with (length hs) by lia.
        rewrite last_lookup in Ex. cbn [length Nat.pred] in Ex. by rewrite length_fmap in Ex.
    + assert (Hk : p ∈ peaks_asc (heights k)).
      { rewrite E. destruct (peaks_asc_app merged kept) as (front & ->). apply elem_of_app. by right. }
      destruct (IH p Hk) as (e & h & He & Hh). exists e, h. split; [|done]. apply find_elem_snoc; [|done].
      pose proof (proj1 (peaks_asc_range (heights k))) as Hr. eapply Forall_forall in Hr; [|exact Hk]. unfold size_of_leaves. lia.
Qed.

Lemma bag_works find peaks acc : is_Some (node_hash acc) -> (forall p, p ∈ peaks -> hashable find p) ->
  exists root, bag merge find acc peaks = Some (Ok root) /\ is_Some (node_hash root).
Proof.
  revert acc; induction peaks as [|p peaks IH]; intros acc Ha Hf; cbn [bag]; [by exists acc|].
  destruct (Hf p ltac:(by left)) as (e & h & -> & He). destruct (merge_hashable acc e) as (m & Hm); [done|by eexists|].
  rewrite Hm. cbn [mbind option_bind]. apply IH; [by eexists|]. intros q Hq. apply Hf. by right.
Qed.

#[local] Instance mmr_laws : MmrLaws.
Proof.
  split.
  - intros ge n ls r l Hn Hs Hp Hb. destruct (built_shape ge n ls r Hn Hb) as [Hsz _]. cbn [lib_push library].
    apply Forall_app in Hp as [Hp Hl]. apply Forall_cons in Hl as [[pre Hl] _].
    rewrite Hsz, leaves_of_size_of by lia.
    destruct (climb_works (find_elem ge (range_batch r)) (heights (n + Z.of_nat (length ls))) 0 (Data l)) as (ps & Hps).
    { cbn. rewrite Hl. by eexists. }
    { by apply (built_findable ge n ls r). }
    change (mountain_size 0) with 1 in Hps. rewrite Z.add_simpl_r in Hps.
    fold (size_of_leaves (n + Z.of_nat (length ls))) in Hps. rewrite Hps. by eexists.
  - intros ge n ls r Hn Hs Hne Hp Hb. destruct (built_shape ge n ls r Hn Hb) as [Hsz _]. cbn [lib_get_root library].
    rewrite Hsz, leaves_of_size_of by lia. pose proof (built_findable ge n ls r Hn Hs Hp Hb) as Hf.
    destruct (peaks_asc (heights (n + Z.of_nat (length ls)))) as [|p peaks] eqn:E.
    { exfalso. destruct ls as [|x ls]; [done|]. cbn [length] in E.
      replace (n + Z.of_nat (S (length ls))) with (n + Z.of_nat (length ls) + 1) in E by lia. rewrite heights_succ in E by lia.
      destruct (add_split 0 (heights (n + Z.of_nat (length ls)))) as (? & ? & ? & _ & Ea & _). by rewrite Ea in E. }
    destruct (Hf p ltac:(by left)) as (e & h & -> & He).
    destruct (bag_works (find_elem ge (range_batch r)) peaks e) as (root & Hr & [rh Hrh]).
    { by eexists. }
    { intros q Hq. apply Hf. by right. }
    exists root, rh. done.
  - intros ge n ls r Hn Hb. by apply (built_shape ge n ls r).
Qed.

(** ** Runs *)

Lemma k_index_correct_witness : mmr_position_to_k_index [0; 4; 7] 8 = [(0, 0); (4, 3); (7, 0)].
Proof.
  apply (k_index_correct [(2%nat, [0; 3]); (0%nat, [0])] 8).
  - vm_compute. reflexivity.
  - repeat constructor; cbn; lia.
  - repeat constructor; vm_compute; reflexivity.
Defined.

Definition message (n : Z) : Leaf := LeafRequest (RequestPost (Demo.post (lit "to") n)).
Definition prefix : bytes := lit "mmr".
Definition fork : H256 := lit "fork".
Definition no_tree : MmrPallet := mkMmrPallet (replicate 32 Byte.x00) 0 None ∅ ∅ ∅.
Definition messages : list Leaf := [message 1; message 2; message 3].

Lemma messages_hash : Forall (fun l => is_Some (preimage l)) messages.
Proof. repeat constructor; eexists; vm_compute; reflexivity. Defined.

Lemma block_commits_leaves_witness : exists t1 root t2,
  finalize prefix fork t1 = (Some (Ok root), t2) /\ NumberOfLeaves t2 = 3 /\
  dom (Nodes t2) = list_to_set (peaks_of 3) /\ leaf_stored prefix fork (mmr_offchain t2) 2 (message 3).
Proof.
  destruct (block_commits_leaves prefix fork no_tree messages) as (t1 & root & t2 & _ & Hf & [_ Hd] & Hn & _ & _ & Hs & _).
  - split; [done|]. reflexivity.
  - reflexivity.
  - exact messages_hash.
  - unfold is_u64, u64_max. cbn. lia.
  - exists t1, root, t2. rewrite Hn in Hd. split; [exact Hf|]. split; [exact Hn|]. split; [exact Hd|]. by apply (Hs 2%nat).
Defined.

(** Blocks 1 to 9 of a chain that commits one message in each. *)
Definition hash_at (n : Z) : H256 := encode n.
Definition client : MmrClient := mkMmrClient
  (fun h => n ← decode h; if (1 <=? n) && (n <=? 9) then Some (mkHeaderMetadata h (hash_at (n - 1)) n) else None)
  (fun h => decode h) (fun h => Some h) (fun _ => None) Some true.
Definition at_block (best : Z) : OffchainMmr := mkOffchainMmr
  {[ temp_offchain_key prefix (leaf_index_to_pos 2) (hash_at 3) := encode_node (Data (message 3));
     temp_offchain_key prefix (leaf_index_to_pos 3) (hash_at 4) := encode_node (Data (message 4)) ]} ∅ 1 best.

Lemma chain_healthy hi : hi <= 9 -> healthy client hash_at (fun n => n) hash_at 1 hi.
Proof.
  intros Hhi. split; [lia|]. split; [|intros; lia]. intros n Hn. unfold hash_at. cbn [cl_header_metadata cl_mmr_leaf_count cl_fork_identifier client].
  rewrite decode_encode. cbn [mbind option_bind].
  destruct (Z.leb_spec 1 n), (Z.leb_spec n 9); try lia. cbn [andb].
  split; [done|]. split; [done|]. split; [done|lia].
Qed.

Lemma finalized_leaves_readable_witness : exists s',
  canonicalize_and_prune client prefix 1 (mkFinalityNotification (hash_at 4) [hash_at 3] []) (at_block 2) = (Some tt, s') /\
  forall t, mmr_offchain t = og_db s' -> pallet_get_leaf prefix (leaf_index_to_pos 2) t = Ok (Some (message 3)).
Proof.
  destruct (finalized_leaves_readable client prefix hash_at (fun n => n) hash_at 0 1 4
    (mkFinalityNotification (hash_at 4) [hash_at 3] []) (at_block 2)) as (s' & Hrun & _ & Hread).
  - apply chain_healthy. lia.
  - cbn. lia.
  - cbn. lia.
  - reflexivity.
  - repeat constructor. exists 3. split; [lia|reflexivity].
  - cbn. discriminate.
  - exists s'. split; [exact Hrun|]. intros t Ht. destruct (Hread 3 ltac:(cbn; lia)) as [_ H]. apply H; [lia| |exact Ht].
    vm_compute. reflexivity.
Defined.

Lemma skipped_parent_lost_witness : exists s',
  canonicalize_branch client prefix 2 (hash_at 5) (at_block 2) = (Some tt, s') /\ best_canonicalized s' = 5 /\
  og_db s' !! canon_offchain_key prefix (leaf_index_to_pos 3) = None.
Proof.
  destruct (skipped_parent_lost client prefix hash_at (fun n => n) hash_at 0 1 5 5 (at_block 2)) as (s' & Hrun & Hb & Hsame & _).
  - apply chain_healthy. lia.
  - cbn. lia.
  - cbn. lia.
  - cbn. lia.
  - exists s'. split; [exact Hrun|]. split; [exact Hb|].
    destruct (Hsame (leaf_index_to_pos 3)) as [Hc _]; [vm_compute; repeat constructor|]. rewrite Hc. vm_compute. reflexivity.
Defined.
End MmrDemo.
