(* ===== verification/Tesseract.v ===== *)
(** * The relayer: providers, profit and messages

    [tesseract/primitives/src/{lib, config}.rs] and [tesseract/messaging/src/events.rs]. A relayer
    talks to chains through the trait [IsmpProvider]. It watches for messages that a chain has
    sent, asks the chain they are for what their delivery would cost, and submits those for
    which it is paid.

    A provider is a record of operations on the world [W] behind it. Every query may find the
    world changed by others, so that a query is a program of [M W]. Queries that the source makes
    concurrently are made in the order in which their results are collected. A stream is the
    list of the items it yields before it ends. *)

From S2P Require Import Prelude StateMachine Router Messaging Apps.

(** ** Money

    [Cost] is an amount in units of [10 ^ -18] dollars. [U256] panics when it overflows. *)

Definition u256_mul (x y : Z) : option Z := if x * y <=? u256_max then Some (x * y) else None.

Record Cost : Type := mkCost { cost : Z }.

(** [impl Mul<U256>], [impl Add<Cost>], [impl Add<U256>] *)
Definition cost_mul (c : Cost) (rhs : Z) : option Cost := mkCost <$> u256_mul (cost c) rhs.
Definition cost_add (c d : Cost) : option Cost := mkCost <$> u256_add (cost c) (cost d).
Definition cost_add_u256 (c : Cost) (rhs : Z) : option Cost := mkCost <$> u256_add (cost c) rhs.

(** [U256::to_string]: at most 78 digits. *)
Definition show_u256 (n : Z) : bytes := show_dec_go 78 n [].

(** [Vec::insert] *)
Definition insert_at {A} (i : nat) (x : A) (l : list A) : list A := take i l ++ x :: drop i l.

Definition cost_display (c : Cost) : bytes :=
  let characters := show_u256 (cost c) in
  let characters :=
    if (length characters <=? 18)%nat
    then Nat.iter (S (18 - length characters)) (insert_at 0 (digit_byte 0)) characters
    else characters in
  let pointer := (length characters - 18)%nat in
  insert_at pointer Byte.x2e characters.

(** ** Queries and receipts *)

Record EstimateGasReturnParams : Type := mkEstimate {
  execution_cost : Cost;
  successful_execution : bool
}.

Record Query : Type := mkQuery {
  qy_source_chain : StateMachine;
  qy_dest_chain : StateMachine;
  qy_nonce : Z;
  qy_commitment : H256
}.

Inductive TxReceipt : Type :=
| TxRequest (query : Query) (height : Z)
| TxResponse (query : Query) (request_commitment : H256) (height : Z).

Definition tx_height (r : TxReceipt) : Z :=
  match r with TxRequest _ height => height | TxResponse _ _ height => height end.
Definition tx_query (r : TxReceipt) : Query :=
  match r with TxRequest query _ => query | TxResponse query _ _ => query end.
Definition tx_source (r : TxReceipt) : StateMachine := qy_source_chain (tx_query r).

Inductive StateProofQueryType : Type :=
| QueryIsmp (keys : list bytes)
| QueryArbitrary (keys : list bytes).

(** ** Configuration ([config.rs]) *)

Record RelayerConfig : Type := mkRelayerConfig {
  module_filter : option (list bytes);
  minimum_profit_percentage : Z;
  withdrawal_frequency : option Z;
  minimum_withdrawal_amount : option Z;
  unprofitable_retry_frequency : option Z;
  delivery_endpoints : list bytes;
  deliver_failed : option bool;
  fisherman_task : option bool
}.

(** ** The traits of a chain *)

Definition StreamError : Type := bytes.

(** Queries of the network: they end with a value or an error. *)
Abbreviation Net W A := (M W (result AnyError A)).

Record IsmpProvider (W : Type) : Type := mkIsmpProvider {
  query_latest_height : StateMachineId -> Net W Z;
  query_finalized_height : Net W Z;
  query_state_machine_commitment : StateMachineHeight -> Net W StateCommitment;
  query_state_machine_update_time : StateMachineHeight -> Net W Z;
  query_challenge_period : StateMachineId -> Net W Z;
  query_timestamp : Net W Z;
  query_requests_proof : Z -> list Query -> StateMachine -> Net W bytes;
  query_responses_proof : Z -> list Query -> StateMachine -> Net W bytes;
  query_state_proof : Z -> StateProofQueryType -> Net W bytes;
  query_ismp_events : Z -> StateMachineUpdated -> Net W (list Event);
  state_machine_id : StateMachineId;
  initial_height : Z;
  estimate_gas : list Message -> Net W (list EstimateGasReturnParams);
  query_request_fee_metadata : H256 -> Net W Z;
  query_request_receipt : H256 -> Net W bytes;
  query_response_receipt : H256 -> Net W bytes;
  query_response_fee_metadata : H256 -> Net W Z;
  state_machine_update_notification :
    StateMachineId -> Net W (list (result StreamError StateMachineUpdated));
  submit : list Message -> Net W (list TxReceipt);
  request_commitment_full_key : H256 -> list bytes;
  request_receipt_full_key : H256 -> list bytes;
  response_commitment_full_key : H256 -> list bytes;
  response_receipt_full_key : H256 -> list bytes;
  address : bytes;
  veto_state_commitment : StateMachineHeight -> Net W unit;
  max_concurrent_queries : nat
}.

Arguments query_latest_height {W}.
Arguments query_finalized_height {W}.
Arguments query_state_machine_commitment {W}.
Arguments query_state_machine_update_time {W}.
Arguments query_challenge_period {W}.
Arguments query_timestamp {W}.
Arguments query_requests_proof {W}.
Arguments query_responses_proof {W}.
Arguments query_state_proof {W}.
Arguments query_ismp_events {W}.
Arguments state_machine_id {W}.
Arguments initial_height {W}.
Arguments estimate_gas {W}.
Arguments query_request_fee_metadata {W}.
Arguments query_request_receipt {W}.
Arguments query_response_receipt {W}.
Arguments query_response_fee_metadata {W}.
Arguments state_machine_update_notification {W}.
Arguments submit {W}.
Arguments request_commitment_full_key {W}.
Arguments request_receipt_full_key {W}.
Arguments response_commitment_full_key {W}.
Arguments response_receipt_full_key {W}.
Arguments address {W}.
Arguments veto_state_commitment {W}.
Arguments max_concurrent_queries {W}.

(** [state_machine_id().state_id] *)
Definition provider_chain {W} (p : IsmpProvider W) : StateMachine := smi_state_id (state_machine_id p).

(** [HashMap<StateMachine, Arc<dyn IsmpProvider>>] *)
Abbreviation ClientMap W := (gmap StateMachine (IsmpProvider W)).

(** The timer of tokio, and the crate hex. *)
Class Timer (W : Type) : Type := sleep : Duration -> M W unit.
Class Hex : Type := { hex_encode : bytes -> bytes; hex_decode : bytes -> option bytes }.
Class HexLaws `{!Hex} : Prop := hex_roundtrip b : hex_decode (hex_encode b) = Some b.

(** ** Waiting ([primitives/src/lib.rs]) *)

Section waiting.
Context {W : Type} `{!Timer W}.

(** The loop that waits as long as [delay <= challenge_period]. [fuel] bounds the number of times
    it looks at the clock. *)
Fixpoint wait_until_elapsed (fuel : nat) (client : IsmpProvider W)
    (last_consensus_update challenge_period delay : Duration) : Net W unit :=
  if delay <=? challenge_period then
    match fuel with
    | O => panic
    | S fuel =>
        let* _ := sleep (challenge_period - delay) in
        let? current_timestamp := query_timestamp client in
        wait_until_elapsed fuel client last_consensus_update challenge_period
          (saturating_sub current_timestamp last_consensus_update)
    end
  else ret (Ok tt).

Definition wait_for_challenge_period (fuel : nat) (client : IsmpProvider W)
    (last_consensus_update : Duration) (counterparty_state_id : StateMachineId) : Net W unit :=
  let? challenge_period := query_challenge_period client counterparty_state_id in
  let* _ := sleep challenge_period in
  let? current_timestamp := query_timestamp client in
  wait_until_elapsed fuel client last_consensus_update challenge_period
    (saturating_sub current_timestamp last_consensus_update).

Definition observe_challenge_period (fuel : nat) (chain hyperbridge : IsmpProvider W) (height : Z) : Net W unit :=
  let height := mkStateMachineHeight (state_machine_id chain) height in
  let? last_consensus_update := query_state_machine_update_time hyperbridge height in
  let? _ := wait_for_challenge_period fuel hyperbridge last_consensus_update (state_machine_id chain) in
  ret (Ok tt).

(** The first update of the stream that reaches [height]; errors of the stream are logged. *)
Definition reaches (height : Z) (item : result StreamError StateMachineUpdated) : option Z :=
  match item with
  | Ok event => if height <=? smu_latest_height event then Some (smu_latest_height event) else None
  | Err _ => None
  end.

Definition wait_for_state_machine_update (fuel : nat) (state_id : StateMachineId)
    (hyperbridge counterparty : IsmpProvider W) (height : Z) : Net W Z :=
  let? latest_height := query_latest_height hyperbridge state_id in
  if height <=? latest_height then
    let? _ := observe_challenge_period fuel counterparty hyperbridge latest_height in
    ret (Ok latest_height)
  else
    let? stream := state_machine_update_notification hyperbridge state_id in
    ret (ok_or (find_map (reaches height) stream)
      (AnyMessage (lit "State Machine update stream returned None"))).

End waiting.

(** ** Filters ([events.rs]) *)

(** [str::replace("0x", "")]: the text without the occurrences of [0x]. *)
Fixpoint without_0x (s : bytes) : bytes :=
  match s with
  | Byte.x30 :: Byte.x78 :: rest => without_0x rest
  | c :: rest => c :: without_0x rest
  | [] => []
  end.

Section filters.
Context `{!Hex}.

(** [find] stops at the first filter that matches; [expect] panics on one that is not hex. *)
Fixpoint matches_filter (filters : list bytes) (module : bytes) : option bool :=
  match filters with
  | [] => Some false
  | filter :: rest =>
      id ← hex_decode (without_0x filter);
      if bool_decide (id = module) then Some true else matches_filter rest module
  end.

Definition is_allowed_module (config : RelayerConfig) (module : bytes) : option bool :=
  match module_filter config with
  | Some filters => match filters with [] => Some true | _ => matches_filter filters module end
  | None => Some true
  end.

(** A module that is listed, not merely allowed because nothing is filtered. *)
Definition allow_module (config : RelayerConfig) (module : bytes) : option bool :=
  match module_filter config with
  | Some (_ :: _) => is_allowed_module config module
  | _ => Some false
  end.

(** The clause for requests and responses: the operators are lazy, so that the filter is only
    looked at for messages of the routing chain. *)
Definition designated (config : RelayerConfig) (router_id counterparty source dest : StateMachine)
    (module : bytes) : option bool :=
  let is_router := bool_decide (router_id = counterparty) in
  if bool_decide (dest = counterparty) then
    if negb (bool_decide (source = router_id)) then Some true
    else allowed ← allow_module config module; Some (allowed || is_router)
  else Some is_router.

Definition filter_events (config : RelayerConfig) (router_id counterparty : StateMachine) (ev : Event) :
    option bool :=
  match ev with
  | EvPostRequest post => designated config router_id counterparty (post_source post) (post_dest post) (post_from post)
  | EvPostResponse resp =>
      designated config router_id counterparty (pr_source_chain resp) (pr_dest_chain resp) (pr_source_module resp)
  | _ => Some false
  end.

End filters.

(** [events::Event]: the events of a chain without the contents of messages. *)
Inductive RelayEvent : Type :=
| ReStateMachineUpdated (e : StateMachineUpdated)
| RePostRequest (m : Meta)
| RePostResponse (m : Meta)
| ReGetRequest (m : Meta)
| ReGetResponse (m : Meta)
| RePostRequestHandled (e : RequestResponseHandled)
| RePostResponseHandled (e : RequestResponseHandled)
| RePostRequestTimeoutHandled (e : TimeoutHandled)
| RePostResponseTimeoutHandled (e : TimeoutHandled)
| ReGetRequestHandled (e : RequestResponseHandled)
| ReGetRequestTimeoutHandled (e : TimeoutHandled)
| ReStateCommitmentVetoed.

Definition meta_of_post (p : PostRequest) : Meta := mkMeta (post_source p) (post_dest p) (post_nonce p).
Definition meta_of_get (g : GetRequest) : Meta := mkMeta (get_source g) (get_dest g) (get_nonce g).

Definition relay_event (ev : Event) : RelayEvent :=
  match ev with
  | EvStateMachineUpdated e => ReStateMachineUpdated e
  | EvPostRequest e => RePostRequest (meta_of_post e)
  | EvPostResponse e => RePostResponse (meta_of_post (pr_post e))
  | EvGetRequest e => ReGetRequest (meta_of_get e)
  | EvGetResponse e => ReGetResponse (meta_of_get (gr_get e))
  | EvPostRequestHandled e => RePostRequestHandled e
  | EvPostResponseHandled e => RePostResponseHandled e
  | EvPostRequestTimeoutHandled e => RePostRequestTimeoutHandled e
  | EvPostResponseTimeoutHandled e => RePostResponseTimeoutHandled e
  | EvGetRequestHandled e => ReGetRequestHandled e
  | EvGetRequestTimeoutHandled e => ReGetRequestTimeoutHandled e
  | EvStateCommitmentVetoed _ => ReStateCommitmentVetoed
  end.

(** ** Sorting *)

(** [sort_by_key] is stable. *)
Fixpoint insert_by {A} (key : A -> Z) (x : A) (l : list A) : list A :=
  match l with
  | [] => [x]
  | y :: l' => if key x <? key y then x :: l else y :: insert_by key x l'
  end.
Definition sort_by_key {A} (key : A -> Z) (l : list A) : list A := foldl (fun acc x => insert_by key x acc) [] l.

(** ** Batches *)

(** [slice::chunks], which panics for a size of zero. *)
Fixpoint chunks_go {A} (fuel size : nat) (l : list A) : list (list A) :=
  match fuel, l with
  | O, _ | _, [] => []
  | S fuel, _ => take size l :: chunks_go fuel size (drop size l)
  end.
Definition chunks {A} (size : nat) (l : list A) : option (list (list A)) :=
  match size with O => None | _ => Some (chunks_go (length l) size l) end.

Definition chunk_size (state_machine : StateMachine) : nat :=
  match state_machine with Evm _ => 100%nat | _ => 200%nat end.

(** Tasks that run chunk by chunk, the results of each chunk collected in order. *)
Definition in_chunks {W A B} (size : nat) (task : A -> Net W B) (l : list A) : Net W (list B) :=
  let* batches := or_panic (chunks size l) in
  let? results := try_map_m (try_map_m task) batches in
  ret (Ok (concat results)).

(** ** Profit *)

Record ProfitabilityResult : Type := mkProfitability {
  pf_queries : list (option Query);
  pf_retriable_messages : list Message
}.

Definition H160_zero : bytes := replicate 20 Byte.x00.

Section messages.
Context `{Keccak256, !Hex} {W : Type}.

(** What the delivery is worth, and whether that is enough. A percentage of zero means that
    messages are relayed for free. *)
Definition profitable (minimum_profit_percentage : Z) (total fee_metadata : Z) : option bool :=
  product ← u256_mul minimum_profit_percentage total;
  fee_with_profit ← cost_add_u256 (mkCost total) (product / 100);
  let fee_metadata := if minimum_profit_percentage =? 0 then u256_max else fee_metadata in
  Some (negb (fee_metadata <? cost fee_with_profit)).

(** One message: the query if it is to be relayed, the message if it is to be tried again. *)
Definition assess (sink : IsmpProvider W) (minimum_profit_percentage : Z) (coprocessor : StateMachine)
    (client_map : ClientMap W) (deliver_failed : bool)
    (item : EstimateGasReturnParams * Message * Query) : Net W (option Query * option Message) :=
  let '(est, msg, query) := item in
  if negb (successful_execution est) && negb deliver_failed then
    let? relayer := match msg with
                    | MsgRequest _ => query_request_receipt sink (qy_commitment query)
                    | MsgResponse _ => query_response_receipt sink (qy_commitment query)
                    | _ => panic
                    end in
    if bool_decide (relayer = H160_zero) && negb (bool_decide (coprocessor = provider_chain sink))
    then ret (Ok (None, Some msg)) else ret (Ok (None, None))
  else if negb (bool_decide (coprocessor = provider_chain sink)) then
    match client_map !! qy_source_chain query with
    | None => ret (Ok (None, None))
    | Some og_source =>
        let? fee_metadata := match msg with
                             | MsgRequest _ => query_request_fee_metadata og_source (qy_commitment query)
                             | MsgResponse _ => query_response_fee_metadata og_source (qy_commitment query)
                             | _ => ret (Err (AnyMessage (lit "Unexpected message")))
                             end in
        let* enough := or_panic (profitable minimum_profit_percentage (cost (execution_cost est)) fee_metadata) in
        ret (Ok (if enough then (Some query, None) else (None, Some msg)))
    end
  else ret (Ok (Some query, None)).

(** The least number of concurrent queries that a client allows. *)
Definition batch_size (client_map : ClientMap W) : nat :=
  match (fun e => max_concurrent_queries e.2) <$> map_to_list client_map with
  | [] => 1%nat
  | n :: ns => foldr Nat.min n ns
  end.

Definition return_successful_queries (sink : IsmpProvider W) (messages : list Message) (queries : list Query)
    (minimum_profit_percentage : Z) (coprocessor : StateMachine) (client_map : ClientMap W)
    (deliver_failed : bool) : Net W ProfitabilityResult :=
  match messages with
  | [] => ret (Ok (mkProfitability [] []))
  | _ =>
      let? gas_estimates := estimate_gas sink messages in
      let? results := in_chunks (batch_size client_map)
        (assess sink minimum_profit_percentage coprocessor client_map deliver_failed)
        (zip (zip gas_estimates messages) queries) in
      ret (Ok (mkProfitability results.*1 (omap snd results)))
  end.

(** ** From events to messages *)

Definition query_of_request (req : Request) : option Query :=
  commitment ← hash_request req;
  Some (mkQuery (request_source_chain req) (request_dest_chain req) (request_nonce req) commitment).
Definition query_of_response (resp : Response) : option Query :=
  commitment ← hash_response resp;
  Some (mkQuery (response_source_chain resp) (response_dest_chain resp) (response_nonce resp) commitment).

(** [timeout_timestamp != 0 && timeout_timestamp <= counterparty_timestamp.as_secs()] *)
Definition expired_at (timeout_timestamp : Z) (counterparty_timestamp : Duration) : bool :=
  negb (timeout_timestamp =? 0) && (timeout_timestamp <=? as_secs counterparty_timestamp).

(** A message with the proof of one request or response, from which its cost is estimated. *)
Definition message_of_event (source sink : IsmpProvider W) (config : RelayerConfig)
    (counterparty_timestamp : Duration) (height : StateMachineHeight) (event : Event) :
    Net W (option (Message * Query)) :=
  match event with
  | EvPostRequest post =>
      if expired_at (post_timeout_timestamp post) counterparty_timestamp then ret (Ok None)
      else
        let* allowed := or_panic (is_allowed_module config (post_from post)) in
        if negb allowed then ret (Ok None)
        else
          let* query := or_panic (query_of_request (RequestPost post)) in
          let? proof := query_requests_proof source (smh_height height) [query] (provider_chain sink) in
          ret (Ok (Some (MsgRequest (mkRequestMessage [post] (mkProof height proof) (address sink)), query)))
  | EvPostResponse response =>
      if expired_at (pr_timeout_timestamp response) counterparty_timestamp then ret (Ok None)
      else
        let* allowed := or_panic (is_allowed_module config (pr_source_module response)) in
        if negb allowed then ret (Ok None)
        else
          let resp := ResponsePost response in
          let* query := or_panic (query_of_response resp) in
          let? proof := query_responses_proof source (smh_height height) [query] (provider_chain sink) in
          ret (Ok (Some (MsgResponse (mkResponseMessage (RRResponse [resp]) (mkProof height proof) (address sink)), query)))
  | _ => ret (Ok None)
  end.

(** The messages by kind: what is in them, how to ask for them, and the messages themselves. *)
Record SortedMessages : Type := mkSorted {
  so_post_requests : list PostRequest;
  so_post_request_queries : list Query;
  so_request_messages : list Message;
  so_post_responses : list Response;
  so_response_queries : list Query;
  so_response_messages : list Message
}.
Definition nothing_sorted : SortedMessages := mkSorted [] [] [] [] [] [].

Definition sort_message (acc : SortedMessages) (item : Message * Query) : result AnyError SortedMessages :=
  let '(msg, query) := item in
  let 'mkSorted posts post_queries request_messages responses response_queries response_messages := acc in
  match msg with
  | MsgRequest req_msg =>
      match head (rm_requests req_msg) with
      | None => Err (AnyMessage (lit "Expected a post to be present"))
      | Some post => Ok (mkSorted (posts ++ [post]) (post_queries ++ [query]) (request_messages ++ [msg])
                           responses response_queries response_messages)
      end
  | MsgResponse resp_msg =>
      match rsm_datagram resp_msg with
      | RRResponse resps =>
          match head resps with
          | None => Err (AnyMessage (lit "Expected a response to be present"))
          | Some response => Ok (mkSorted posts post_queries request_messages
                                   (responses ++ [response]) (response_queries ++ [query]) (response_messages ++ [msg]))
          end
      | RRRequest _ => Err (AnyMessage (lit "Expected Response found posts"))
      end
  | _ => Err (AnyMessage (lit "Unexpected message"))
  end.

(** [zip] with the queries, keeping what has one. *)
Definition relayed {A} (items : list A) (queries : list (option Query)) : list A :=
  omap (fun x => match x.2 with Some _ => Some x.1 | None => None end) (zip items queries).

(** Batches with one proof each. *)
Definition prove_batches {A} (prove : list Query -> Net W bytes) (build : list A -> bytes -> Message)
    (size : nat) (queries : list Query) (items : list A) : Net W (list Message) :=
  match queries with
  | [] => ret (Ok [])
  | _ =>
      let* query_chunks := or_panic (chunks size queries) in
      let* item_chunks := or_panic (chunks size items) in
      try_map_m (fun batch =>
        let? proof := prove batch.1 in ret (Ok (build batch.2 proof))) (zip query_chunks item_chunks)
  end.

Definition request_batch (height : StateMachineHeight) (signer : bytes) (posts : list PostRequest) (proof : bytes) : Message :=
  MsgRequest (mkRequestMessage posts (mkProof height proof) signer).
Definition response_batch (height : StateMachineHeight) (signer : bytes) (responses : list Response) (proof : bytes) : Message :=
  MsgResponse (mkResponseMessage (RRResponse responses) (mkProof height proof) signer).

Definition translate_events_to_messages (source sink : IsmpProvider W) (events : list Event)
    (height : StateMachineHeight) (config : RelayerConfig) (coprocessor : StateMachine)
    (client_map : ClientMap W) : Net W (list Message * list Message) :=
  let deliver := default false (deliver_failed config) in
  let? counterparty_timestamp := query_timestamp sink in
  let? translated := in_chunks (max_concurrent_queries source)
    (message_of_event source sink config counterparty_timestamp height) events in
  let? sorted := try_fold_m (fun acc item => ret (sort_message acc item)) nothing_sorted (omap id translated) in
  let? requests := return_successful_queries sink (so_request_messages sorted) (so_post_request_queries sorted)
    (minimum_profit_percentage config) coprocessor client_map deliver in
  let? responses := return_successful_queries sink (so_response_messages sorted) (so_response_queries sorted)
    (minimum_profit_percentage config) coprocessor client_map deliver in
  let size := chunk_size (provider_chain sink) in
  let? request_messages := prove_batches
    (fun queries => query_requests_proof source (smh_height height) queries (provider_chain sink))
    (request_batch height (address sink)) size
    (omap id (pf_queries requests)) (relayed (so_post_requests sorted) (pf_queries requests)) in
  let? response_messages := prove_batches
    (fun queries => query_responses_proof source (smh_height height) queries (provider_chain sink))
    (response_batch height (address sink)) size
    (omap id (pf_queries responses)) (relayed (so_post_responses sorted) (pf_queries responses)) in
  ret (Ok (request_messages ++ response_messages,
           pf_retriable_messages requests ++ pf_retriable_messages responses)).

End messages.
