(* ===== verification/TesseractProps.v ===== *)
(** * The relayer: theorems

    What amounts look like, which events are relayed and at what price, and how long the
    relayer waits. *)

From S2P Require Import Prelude StateMachine Router Messaging Apps Tesseract.

(** ** Sorting *)

Lemma insert_by_perm {A} (key : A -> Z) x l : insert_by key x l ≡ₚ x :: l.
Proof. induction l as [|y l IH]; cbn [insert_by]; [done|]. destruct (_ <? _); [done|]. rewrite IH. by apply Permutation_swap. Qed.

Lemma insert_by_sorted {A} (key : A -> Z) x l :
  StronglySorted (fun a b => key a <= key b) l -> StronglySorted (fun a b => key a <= key b) (insert_by key x l).
Proof.
  induction 1 as [|y l Hs IH Hf]; cbn [insert_by]; [by repeat constructor|]. destruct (Z.ltb_spec (key x) (key y)).
  - constructor; [by constructor|]. constructor; [lia|]. eapply Forall_impl; [exact Hf|]. intros; cbn in *; lia.
  - constructor; [done|]. rewrite insert_by_perm. constructor; [done|done].
Qed.

Lemma sort_by_key_ok {A} (key : A -> Z) l :
  sort_by_key key l ≡ₚ l /\ StronglySorted (fun a b => key a <= key b) (sort_by_key key l).
Proof.
  unfold sort_by_key. enough (forall acc, StronglySorted (fun a b => key a <= key b) acc ->
    foldl (fun acc x => insert_by key x acc) acc l ≡ₚ l ++ acc /\
    StronglySorted (fun a b => key a <= key b) (foldl (fun acc x => insert_by key x acc) acc l)) as Hgen.
  { destruct (Hgen [] ltac:(constructor)) as [Hp Hs]. by rewrite app_nil_r in Hp. }
  induction l as [|x l IH]; intros acc Ha; [done|]. cbn [foldl]. destruct (IH (insert_by key x acc)) as [Hp Hs]; [by apply insert_by_sorted|].
  split; [|done]. rewrite Hp, insert_by_perm. by rewrite <- Permutation_middle.
Qed.

(** ** Batches *)

Lemma chunks_go_concat {A} fuel size (l : list A) :
  (length l <= fuel)%nat -> size <> 0%nat -> concat (chunks_go fuel size l) = l.
Proof.
  intros Hl Hs. revert l Hl; induction fuel as [|fuel IH]; intros l Hl.
  - by destruct l; cbn in *; [|lia].
  - destruct l as [|x l]; [done|]. cbn [chunks_go concat]. rewrite IH; [apply take_drop|].
    rewrite length_drop. cbn in *. lia.
Qed.

Lemma chunks_go_size {A} fuel size (l b : list A) :
  b ∈ chunks_go fuel size l -> size <> 0%nat -> b <> [] /\ (length b <= size)%nat.
Proof.
  intros Hb Hs. revert l Hb; induction fuel as [|fuel IH]; intros [|x l]; cbn [chunks_go]; try by intros ?%elem_of_nil.
  intros [->|Hb]%elem_of_cons; [|by eapply IH]. split; [by destruct size|]. rewrite length_take. lia.
Qed.

Lemma chunks_some {A} size (l : list A) : size <> 0%nat -> chunks size l = Some (chunks_go (length l) size l).
Proof. by destruct size. Qed.

Lemma chunks_concat {A} size (l : list A) bs : chunks size l = Some bs -> concat bs = l.
Proof. destruct size; [done|]. intros [= <-]. by apply chunks_go_concat. Qed.

Section loops.
Context {W : Type}.

Lemma try_map_app {A B} (f : A -> Net W B) l1 l2 w :
  try_map_m f (l1 ++ l2) w
  = (let? x := try_map_m f l1 in let? y := try_map_m f l2 in ret (Ok (x ++ y))) w.
Proof.
  revert w; induction l1 as [|a l1 IH]; intros w; cbn [app try_map_m].
  - unfold try_bind, bind, ret. destruct (try_map_m f l2 w) as [[[y|e]|] w']; done.
  - unfold try_bind, bind, ret in *. destruct (f a w) as [[[b|e]|] w1]; try done.
    rewrite IH. destruct (try_map_m f l1 w1) as [[[x|e]|] w2]; try done.
    destruct (try_map_m f l2 w2) as [[[y|e]|] w3]; done.
Qed.

Lemma try_map_concat {A B} (f : A -> Net W B) ls w :
  (let? results := try_map_m (try_map_m f) ls in ret (Ok (concat results))) w = try_map_m f (concat ls) w.
Proof.
  revert w; induction ls as [|l ls IH]; intros w; [done|]. cbn [concat]. rewrite try_map_app. cbn [try_map_m].
  unfold try_bind, bind, ret in *. destruct (try_map_m f l w) as [[[x|e]|] w1]; try done.
  rewrite <- IH. destruct (try_map_m (try_map_m f) ls w1) as [[[y|e]|] w2]; done.
Qed.

(** Chunks only bound how much runs at a time. *)
Lemma in_chunks_all {A B} size (f : A -> Net W B) l w : size <> 0%nat -> in_chunks size f l w = try_map_m f l w.
Proof.
  intros Hs. unfold in_chunks. rewrite (chunks_some _ _ Hs). cbn [or_panic].
  unfold bind at 1, ret at 1. rewrite try_map_concat. by rewrite chunks_go_concat.
Qed.

(** Where every step succeeds without changing the world, the loop is [fmap]. *)
Lemma try_map_pure {A B} (f : A -> Net W B) (g : A -> B) l w :
  Forall (fun x => f x w = (Some (Ok (g x)), w)) l -> try_map_m f l w = (Some (Ok (g <$> l)), w).
Proof.
  induction 1 as [|x l Hx _ IH]; [done|]. cbn [try_map_m fmap list_fmap].
  rewrite (try_ok _ _ _ _ _ Hx), (try_ok _ _ _ _ _ IH). done.
Qed.

(** What each result of a loop comes from. *)
Lemma try_map_each {A B} (f : A -> Net W B) l ys w w' : try_map_m f l w = (Some (Ok ys), w') ->
  Forall2 (fun x y => exists w1 w2, f x w1 = (Some (Ok y), w2)) l ys.
Proof.
  revert ys w; induction l as [|x l IH]; intros ys w; cbn [try_map_m].
  - intros [= <- <-]. constructor.
  - intros (y & w1 & Hy & Hr)%try_ok_inv. apply try_ok_inv in Hr as (ys' & w2 & Hys & Hr).
    apply ret_inv in Hr as [[= <-] <-]. constructor; eauto.
Qed.

End loops.

(** ** Profit *)

Section profit.
Context `{Keccak256, !Hex} {W : Type}.
Implicit Types (sink : IsmpProvider W) (clients : ClientMap W).

(** The price at which the relayer delivers: the cost and the percentage of it. *)
Definition asking_price (pct total : Z) : Z := total + pct * total / 100.

Lemma profitable_price pct total fee b : profitable pct total fee = Some b ->
  b = (pct =? 0) || (asking_price pct total <=? fee).
Proof.
  unfold profitable, u256_mul, cost_add_u256, u256_add. intros Hb.
  destruct (Z.leb_spec (pct * total) u256_max) as [_|]; [|discriminate]. cbn in Hb.
  destruct (Z.leb_spec (total + pct * total / 100) u256_max) as [Hm|]; [|discriminate]. cbn in Hb. injection Hb as <-.
  destruct (Z.eqb_spec pct 0) as [->|_]; cbn [orb].
  - apply negb_true_iff, Z.ltb_ge. done.
  - unfold asking_price. destruct (Z.ltb_spec fee (total + pct * total / 100)), (Z.leb_spec (total + pct * total / 100) fee); (done || lia).
Qed.

(** The fee of a message, as some query of the chain it came from has reported it. *)
Definition fee_reported clients (msg : Message) (query : Query) (fee : Z) : Prop :=
  exists source w w', clients !! qy_source_chain query = Some source /\
    match msg with
    | MsgRequest _ => query_request_fee_metadata source (qy_commitment query) w = (Some (Ok fee), w')
    | MsgResponse _ => query_response_fee_metadata source (qy_commitment query) w = (Some (Ok fee), w')
    | _ => False
    end.

(** Why a message is relayed. *)
Definition paid_for sink pct coprocessor clients deliver (est : EstimateGasReturnParams) msg query : Prop :=
  (successful_execution est = true \/ deliver = true) /\
  (coprocessor = provider_chain sink \/
   exists fee, fee_reported clients msg query fee /\
     (pct = 0 \/ asking_price pct (cost (execution_cost est)) <= fee)).

Lemma assess_sound sink pct coprocessor clients deliver est msg query q retry w w' :
  assess sink pct coprocessor clients deliver (est, msg, query) w = (Some (Ok (q, retry)), w') ->
  (forall q', q = Some q' -> q' = query /\ retry = None /\ paid_for sink pct coprocessor clients deliver est msg query) /\
  (forall m, retry = Some m -> m = msg /\ q = None /\ coprocessor <> provider_chain sink).
Proof.
  unfold assess, paid_for. destruct (negb (successful_execution est) && negb deliver) eqn:Efail.
  - intros (relayer & w1 & _ & Hr)%try_ok_inv. destruct (bool_decide_reflect (coprocessor = provider_chain sink)) as [Ec|Ec].
    + rewrite andb_false_r in Hr. injection Hr as <- <- <-. done.
    + rewrite andb_true_r in Hr. destruct (bool_decide _); injection Hr as <- <- <-; [|done]. split; [done|]. by intros m [= <-].
  - assert (Hok : successful_execution est = true \/ deliver = true) by (destruct (successful_execution est), deliver; auto; done).
    destruct (bool_decide_reflect (coprocessor = provider_chain sink)) as [Ec|Ec]; cbn [negb].
    + intros [= <- <- <-]. split; [|done]. intros q' [= <-]. auto.
    + destruct (clients !! qy_source_chain query) as [source|] eqn:Es; [|by intros [= <- <- <-]].
      intros (fee & w1 & Hfee & Hr)%try_ok_inv. apply bind_inv in Hr as (enough & w2 & Hp & Hr).
      apply or_panic_inv in Hp as [Hp ->]. apply profitable_price in Hp as ->. injection Hr as Hr <-.
      destruct (_ || _) eqn:Eb; injection Hr as <- <-; split; try done.
      * intros q' [= <-]. split; [done|]. split; [done|]. split; [done|]. right. exists fee. split.
        -- exists source, w, w1. split; [done|]. by destruct msg.
        -- apply orb_true_iff in Eb as [Eb%Z.eqb_eq|Eb%Z.leb_le]; auto.
      * by intros m [= <-].
Qed.

Lemma zip_lookup {A B} (l : list A) (k : list B) i x y :
  zip l k !! i = Some (x, y) <-> l !! i = Some x /\ k !! i = Some y.
Proof. rewrite lookup_zip_with_Some. naive_solver. Qed.

Lemma batch_size_pos clients : (forall m p, clients !! m = Some p -> max_concurrent_queries p <> 0%nat) -> batch_size clients <> 0%nat.
Proof.
  intros Hc. unfold batch_size. assert (Hall : Forall (fun n => n <> 0%nat) ((fun e => max_concurrent_queries e.2) <$> map_to_list clients)).
  { apply Forall_fmap, Forall_forall. intros [m p] Hm%elem_of_map_to_list. by apply Hc in Hm. }
  destruct (_ <$> _) as [|n ns]; [done|]. apply Forall_cons in Hall as [Hn Hns]. induction Hns; cbn; lia.
Qed.

(** What the relayer delivers is paid for. In the answer for a batch of messages, the query of a
    message is kept only if its delivery was estimated to succeed, or failed ones are wanted, and,
    unless it goes to the coprocessor, the chain it came from has reported a fee of at least its
    cost and the wanted percentage, or that percentage is zero. No message is both relayed and
    kept for later, and nothing is kept for later that goes to the coprocessor. *)
Theorem relayed_is_paid sink messages queries pct coprocessor clients deliver r w w' :
  return_successful_queries sink messages queries pct coprocessor clients deliver w = (Some (Ok r), w') ->
  (forall i q, pf_queries r !! i = Some (Some q) ->
    exists msg est ests w1, queries !! i = Some q /\ messages !! i = Some msg /\
      estimate_gas sink messages w = (Some (Ok ests), w1) /\ ests !! i = Some est /\
      paid_for sink pct coprocessor clients deliver est msg q) /\
  (forall m, m ∈ pf_retriable_messages r -> coprocessor <> provider_chain sink /\
    exists i, messages !! i = Some m /\ pf_queries r !! i = Some None).
Proof.
  unfold return_successful_queries. destruct messages as [|m0 ms]; [intros [= <- <-]; split; [done|by intros m ?%elem_of_nil]|].
  set (messages := m0 :: ms). intros (ests & w1 & He & Hr)%try_ok_inv. apply try_ok_inv in Hr as (results & w2 & Hin & Hr).
  apply ret_inv in Hr as [[= <-] <-].
  assert (Hs : batch_size clients <> 0%nat).
  { intros E. unfold in_chunks in Hin. rewrite E in Hin. discriminate. }
  rewrite in_chunks_all in Hin by done. apply try_map_each in Hin. cbn [pf_queries pf_retriable_messages]. split.
  - intros i q Hi. apply list_lookup_fmap_Some in Hi as ([q0 retry] & Eq & Hi). cbn in Eq. subst q0.
    destruct (Forall2_lookup_r _ _ _ _ _ Hin Hi) as ([[est msg] query] & Hz & wa & wb & Ha).
    apply zip_lookup in Hz as [Hz Hq]. apply zip_lookup in Hz as [Hest Hm].
    destruct (proj1 (assess_sound _ _ _ _ _ _ _ _ _ _ _ _ Ha) q eq_refl) as (<- & _ & Hp). exists msg, est, ests, w1. done.
  - intros m ([q retry] & Hel & Em)%list_elem_of_omap. cbn in Em. subst retry.
    apply list_elem_of_lookup in Hel as (i & Hi). destruct (Forall2_lookup_r _ _ _ _ _ Hin Hi) as ([[est msg] query] & Hz & wa & wb & Ha).
    apply zip_lookup in Hz as [Hz Hq]. apply zip_lookup in Hz as [Hest Hm].
    destruct (proj2 (assess_sound _ _ _ _ _ _ _ _ _ _ _ _ Ha) m eq_refl) as (-> & -> & Hc). split; [done|].
    exists i. split; [done|]. by rewrite list_lookup_fmap, Hi.
Qed.

End profit.

(** ** A steady world

    How the relayer sorts messages is exact when the chains give the same answers throughout. *)

Record Answers : Type := mkAnswers {
  an_timestamp : Z;
  an_requests_proof : Z -> list Query -> StateMachine -> bytes;
  an_responses_proof : Z -> list Query -> StateMachine -> bytes;
  an_estimate : Message -> EstimateGasReturnParams;
  an_receipt : bool -> H256 -> bytes;
  an_fee : bool -> H256 -> Z
}.

Definition steady {W} (p : IsmpProvider W) (a : Answers) : Prop := forall w,
  query_timestamp p w = (Some (Ok (an_timestamp a)), w) /\
  (forall at_ qs m, query_requests_proof p at_ qs m w = (Some (Ok (an_requests_proof a at_ qs m)), w)) /\
  (forall at_ qs m, query_responses_proof p at_ qs m w = (Some (Ok (an_responses_proof a at_ qs m)), w)) /\
  (forall msgs, estimate_gas p msgs w = (Some (Ok (an_estimate a <$> msgs)), w)) /\
  (forall h, query_request_receipt p h w = (Some (Ok (an_receipt a true h)), w)) /\
  (forall h, query_response_receipt p h w = (Some (Ok (an_receipt a false h)), w)) /\
  (forall h, query_request_fee_metadata p h w = (Some (Ok (an_fee a true h)), w)) /\
  (forall h, query_response_fee_metadata p h w = (Some (Ok (an_fee a false h)), w)).

Inductive Outcome : Type := Relay | Retry | Drop.
#[global] Instance Outcome_eq_dec : EqDecision Outcome.
Proof. solve_decision. Defined.

Lemma chunks_go_fmap {A B} (f : A -> B) fuel size (l : list A) : chunks_go fuel size (f <$> l : list B) = (fun c : list A => f <$> c : list B) <$> chunks_go fuel size l.
Proof.
  revert l; induction fuel as [|fuel IH]; intros [|x l]; [done..|]. cbn [chunks_go fmap list_fmap].
  change (f x :: (f <$> l)) with (f <$> (x :: l)). by rewrite <- fmap_take, <- fmap_drop, IH.
Qed.

Lemma relayed_filter {A B} (g : A -> B) (q : A -> Query) (P : A -> Prop) `{forall x, Decision (P x)} (items : list A) :
  relayed (g <$> items) ((fun x => if decide (P x) then Some (q x) else None) <$> items) = g <$> filter P items.
Proof.
  unfold relayed. induction items as [|x l IH]; [done|]. cbn [fmap list_fmap zip zip_with omap list_omap]. rewrite filter_cons.
  cbn [fst snd]. destruct (decide (P x)); cbn; [by f_equal|done].
Qed.

Lemma queries_filter {A} (q : A -> Query) (P : A -> Prop) `{forall x, Decision (P x)} (items : list A) :
  omap id ((fun x => if decide (P x) then Some (q x) else None) <$> items) = q <$> filter P items.
Proof.
  induction items as [|x l IH]; [done|]. cbn [fmap list_fmap omap list_omap]. rewrite filter_cons.
  destruct (decide (P x)); cbn; [by f_equal|done].
Qed.

(** One message for every batch of at most [size] items. *)
Definition batched {A B} (build : list B -> bytes -> Message) (prove : list Query -> bytes) (g : A -> B) (q : A -> Query)
    (size : nat) (items : list A) : list Message :=
  (fun c => build (g <$> c) (prove (q <$> c))) <$> chunks_go (length items) size items.

Lemma prove_batches_steady {W A B} (prove : list Query -> Net W bytes) (pf : list Query -> bytes)
    (build : list B -> bytes -> Message) (g : A -> B) (q : A -> Query) size (items : list A) w :
  size <> 0%nat -> (forall qs, prove qs w = (Some (Ok (pf qs)), w)) ->
  prove_batches prove build size (q <$> items) (g <$> items) w = (Some (Ok (batched build pf g q size items)), w).
Proof.
  intros Hs Hp. destruct items as [|x l] eqn:Ei; [done|]. rewrite <- Ei. unfold prove_batches.
  assert (Hne : exists a b, q <$> items = a :: b) by (rewrite Ei; cbn; eauto). destruct Hne as (a & b & Hne). rewrite Hne, <- Hne.
  rewrite !chunks_some by done. cbn [or_panic]. unfold bind at 1, ret at 1. unfold bind at 1, ret at 1.
  rewrite !length_fmap, !chunks_go_fmap. unfold batched. generalize (chunks_go (length items) size items). intros cs.
  induction cs as [|c cs IH]; [done|]. rewrite !fmap_cons. cbn [zip zip_with try_map_m fst snd].
  erewrite try_ok; [|by rewrite (try_ok _ _ _ _ _ (Hp _))]. by rewrite (try_ok _ _ _ _ _ IH).
Qed.

Section steady.
Context `{Keccak256, !Hex} {W : Type}.
Context (source sink : IsmpProvider W) (clients : ClientMap W) (sa oa : Answers) (ca : StateMachine -> Answers).
Context (config : RelayerConfig) (coprocessor : StateMachine) (height : StateMachineHeight) (allowed : bytes -> bool).
Context (rq : PostRequest -> Query) (pq : PostResponse -> Query).

Let pct := minimum_profit_percentage config.
Let deliver := default false (deliver_failed config).

(** The answers of the chains are fixed, the filter of modules can be read, and no amount
    overflows. *)
Record fixed_answers : Prop := {
  fa_sink : steady sink sa;
  fa_source : steady source oa;
  fa_clients m p : clients !! m = Some p -> steady p (ca m) /\ max_concurrent_queries p <> 0%nat;
  fa_concurrent : max_concurrent_queries source <> 0%nat;
  fa_allowed module : is_allowed_module config module = Some (allowed module);
  fa_profit msg fee : is_Some (profitable pct (cost (execution_cost (an_estimate sa msg))) fee)
}.

(** What becomes of a message: [k] tells requests from responses. *)
Definition outcome (k : bool) (msg : Message) (query : Query) : Outcome :=
  let est := an_estimate sa msg in
  let to_coprocessor := bool_decide (coprocessor = provider_chain sink) in
  if negb (successful_execution est) && negb deliver then
    if bool_decide (an_receipt sa k (qy_commitment query) = H160_zero) && negb to_coprocessor then Retry else Drop
  else if to_coprocessor then Relay
  else match clients !! qy_source_chain query with
       | None => Drop
       | Some _ =>
           if (pct =? 0) || (asking_price pct (cost (execution_cost est)) <=? an_fee (ca (qy_source_chain query)) k (qy_commitment query))
           then Relay else Retry
       end.

Context (FA : fixed_answers).

Definition of_kind (k : bool) (msg : Message) : Prop :=
  match msg with MsgRequest _ => k = true | MsgResponse _ => k = false | _ => False end.

Lemma assess_steady k msg query w : of_kind k msg ->
  assess sink pct coprocessor clients deliver (an_estimate sa msg, msg, query) w
  = (Some (Ok (match outcome k msg query with
               | Relay => (Some query, None) | Retry => (None, Some msg) | Drop => (None, None) end)), w).
Proof.
  intros Hk. unfold assess, outcome. destruct (fa_sink FA w) as (_ & _ & _ & _ & Hrr & Hsr & _).
  destruct (negb _ && negb deliver).
  - assert (Hm : (match msg with MsgRequest _ => query_request_receipt sink (qy_commitment query)
        | MsgResponse _ => query_response_receipt sink (qy_commitment query) | _ => panic end) w
        = (Some (Ok (an_receipt sa k (qy_commitment query))), w)) by (destruct msg; try done; rewrite Hk; auto).
    rewrite (try_ok _ _ _ _ _ Hm). by destruct (_ && _).
  - destruct (bool_decide (coprocessor = provider_chain sink)); [done|]. cbn [negb].
    destruct (clients !! qy_source_chain query) as [p|] eqn:Ep; [|done].
    destruct (fa_clients FA _ _ Ep) as [Hp _]. destruct (Hp w) as (_ & _ & _ & _ & _ & _ & Hrf & Hsf).
    set (fee := an_fee (ca (qy_source_chain query)) k (qy_commitment query)).
    assert (Hm : (match msg with MsgRequest _ => query_request_fee_metadata p (qy_commitment query)
        | MsgResponse _ => query_response_fee_metadata p (qy_commitment query)
        | _ => ret (Err (AnyMessage (lit "Unexpected message"))) end) w = (Some (Ok fee), w))
      by (destruct msg; try done; unfold fee; rewrite Hk; auto).
    rewrite (try_ok _ _ _ _ _ Hm). destruct (fa_profit FA msg fee) as [b Hb]. rewrite Hb. cbn [or_panic].
    unfold bind, ret. rewrite (profitable_price _ _ _ _ Hb). fold fee. by destruct (_ || _).
Qed.

(** The answer for a list of items, each with its message and its query. *)
Lemma successful_steady {A} k (msg : A -> Message) (query : A -> Query) items w :
  Forall (fun x => of_kind k (msg x)) items ->
  return_successful_queries sink (msg <$> items) (query <$> items) pct coprocessor clients deliver w
  = (Some (Ok (mkProfitability
      ((fun x => if decide (outcome k (msg x) (query x) = Relay) then Some (query x) else None) <$> items)
      (msg <$> filter (fun x => outcome k (msg x) (query x) = Retry) items))), w).
Proof.
  intros Hk. destruct items as [|x0 items0] eqn:Ei; [done|]. rewrite <- Ei in Hk |- *. unfold return_successful_queries.
  assert (Hne : exists m ms, msg <$> items = m :: ms) by (rewrite Ei; cbn; eauto). destruct Hne as (m & ms & Hne).
  rewrite Hne, <- Hne. destruct (fa_sink FA w) as (_ & _ & _ & He & _). rewrite (try_ok _ _ _ _ _ (He _)).
  set (verdict x := match outcome k (msg x) (query x) with
               | Relay => (Some (query x), None) | Retry => (None, Some (msg x)) | Drop => (None, None) end).
  assert (Hz : zip (zip (an_estimate sa <$> (msg <$> items)) (msg <$> items)) (query <$> items)
    = (fun x => (an_estimate sa (msg x), msg x, query x)) <$> items).
  { clear. induction items as [|x l IH]; [done|]. cbn. by f_equal. }
  rewrite Hz. assert (Hs : batch_size clients <> 0%nat).
  { apply batch_size_pos. intros m' p Hp. by apply (fa_clients FA) in Hp as [_ ?]. }
  assert (Hall : try_map_m (assess sink pct coprocessor clients deliver)
      ((fun x => (an_estimate sa (msg x), msg x, query x)) <$> items) w = (Some (Ok (verdict <$> items)), w)).
  { clear -FA Hk. induction Hk as [|x l Hx _ IH]; [done|]. cbn [fmap list_fmap try_map_m].
    rewrite (try_ok _ _ _ _ _ (assess_steady k (msg x) (query x) w Hx)), (try_ok _ _ _ _ _ IH). done. }
  rewrite <- (in_chunks_all _ _ _ _ Hs) in Hall. rewrite (try_ok _ _ _ _ _ Hall). unfold ret. do 4 f_equal.
  - rewrite <- list_fmap_compose. apply list_fmap_ext. intros i x _. unfold compose, verdict.
    destruct (outcome k (msg x) (query x)); cbn; by case_decide.
  - clear. induction items as [|x l IH]; [done|]. cbn [fmap list_fmap omap list_omap]. rewrite filter_cons. unfold verdict at 1.
    destruct (outcome k (msg x) (query x)); cbn [snd]; case_decide; try done. cbn. by f_equal.
Qed.

(** The requests and responses that are worth a look: not expired on the counterparty, of a module
    that the relayer serves. *)
Definition live_posts (events : list Event) : list PostRequest :=
  omap (fun ev => match ev with
    | EvPostRequest p =>
        if expired_at (post_timeout_timestamp p) (an_timestamp sa) || negb (allowed (post_from p)) then None else Some p
    | _ => None end) events.
Definition live_responses (events : list Event) : list PostResponse :=
  omap (fun ev => match ev with
    | EvPostResponse r =>
        if expired_at (pr_timeout_timestamp r) (an_timestamp sa) || negb (allowed (pr_source_module r)) then None else Some r
    | _ => None end) events.

Definition prove_requests (qs : list Query) : bytes := an_requests_proof oa (smh_height height) qs (provider_chain sink).
Definition prove_responses (qs : list Query) : bytes := an_responses_proof oa (smh_height height) qs (provider_chain sink).

Definition request_alone (p : PostRequest) : Message := request_batch height (address sink) [p] (prove_requests [rq p]).
Definition response_alone (r : PostResponse) : Message :=
  response_batch height (address sink) [ResponsePost r] (prove_responses [pq r]).

Definition request_outcome (p : PostRequest) : Outcome := outcome true (request_alone p) (rq p).
Definition response_outcome (r : PostResponse) : Outcome := outcome false (response_alone r) (pq r).

(** The queries of the requests and responses, which hash them, do not panic. *)
Definition hashed (ev : Event) : Prop :=
  match ev with
  | EvPostRequest p => query_of_request (RequestPost p) = Some (rq p)
  | EvPostResponse r => query_of_response (ResponsePost r) = Some (pq r)
  | _ => True
  end.

Definition alone (ev : Event) : option (Message * Query) :=
  match live_posts [ev], live_responses [ev] with
  | [p], _ => Some (request_alone p, rq p)
  | _, [r] => Some (response_alone r, pq r)
  | _, _ => None
  end.

Lemma message_of_event_steady ev w : hashed ev ->
  message_of_event source sink config (an_timestamp sa) height ev w = (Some (Ok (alone ev)), w).
Proof.
  intros Hh. destruct (fa_source FA w) as (_ & Hrp & Hsp & _). unfold alone, live_posts, live_responses.
  destruct ev as [| |p|r| | | | | | | |]; try done; cbn [message_of_event omap list_omap].
  - destruct (expired_at _ _); [done|]. rewrite (fa_allowed FA). cbn [or_panic]. unfold bind at 1, ret at 1.
    destruct (allowed (post_from p)); [|done]. cbn [negb orb]. cbn [hashed] in Hh. rewrite Hh. cbn [or_panic]. unfold bind at 1, ret at 1.
    by rewrite (try_ok _ _ _ _ _ (Hrp _ _ _)).
  - destruct (expired_at _ _); [done|]. rewrite (fa_allowed FA). cbn [or_panic]. unfold bind at 1, ret at 1.
    destruct (allowed (pr_source_module r)); [|done]. cbn [negb orb]. cbn [hashed] in Hh. rewrite Hh. cbn [or_panic]. unfold bind at 1, ret at 1.
    by rewrite (try_ok _ _ _ _ _ (Hsp _ _ _)).
Qed.

Lemma sort_messages_steady events ps rs (w : W) :
  try_fold_m (fun acc item => ret (sort_message acc item))
    (mkSorted ps (rq <$> ps) (request_alone <$> ps) (ResponsePost <$> rs) (pq <$> rs) (response_alone <$> rs))
    (omap id (alone <$> events)) w
  = (let ps' := ps ++ live_posts events in let rs' := rs ++ live_responses events in
     Some (Ok (mkSorted ps' (rq <$> ps') (request_alone <$> ps') (ResponsePost <$> rs') (pq <$> rs') (response_alone <$> rs'))), w).
Proof.
  revert ps rs; induction events as [|ev events IH]; intros ps rs; [by rewrite !app_nil_r|].
  cbn [fmap list_fmap omap list_omap]. change (live_posts (ev :: events)) with (omap (fun ev => match ev with
    | EvPostRequest p =>
        if expired_at (post_timeout_timestamp p) (an_timestamp sa) || negb (allowed (post_from p)) then None else Some p
    | _ => None end) ([ev] ++ events)). rewrite omap_app. change (live_responses (ev :: events)) with (live_responses ([ev] ++ events)).
  unfold live_responses. rewrite omap_app. fold (live_posts [ev]) (live_posts events) (live_responses [ev]) (live_responses events).
  assert (Hcase : (exists p, live_posts [ev] = [p] /\ live_responses [ev] = []) \/
    (exists r, live_posts [ev] = [] /\ live_responses [ev] = [r]) \/ (live_posts [ev] = [] /\ live_responses [ev] = [])).
  { unfold live_posts, live_responses. destruct ev; cbn; auto; destruct (_ || _); eauto 6. }
  unfold alone at 1. destruct Hcase as [(p & -> & ->)|[(r & -> & ->)|[-> ->]]]; cbn [id app]; [| |apply IH].
  - cbn [try_fold_m]. unfold try_bind at 1, bind at 1, ret at 1. cbn [sort_message head rm_requests request_alone request_batch].
    specialize (IH (ps ++ [p]) rs). rewrite !fmap_app in IH. rewrite <- (app_assoc ps [p]) in IH. exact IH.
  - cbn [try_fold_m]. unfold try_bind at 1, bind at 1, ret at 1.
    cbn [sort_message head rsm_datagram response_alone response_batch].
    specialize (IH ps (rs ++ [r])). rewrite !fmap_app in IH. rewrite <- (app_assoc rs [r]) in IH. exact IH.
Qed.

(** how events become messages. When the chains give steady answers, the messages for the
    counterparty carry, in the order of their events, exactly the requests and responses that are
    live there, of a served module, and worth their delivery; in batches of bounded size, each with
    one proof at the given height. Those that are not yet worth it, or not yet executable, are kept
    one by one for later; the rest is dropped, and nothing is in two places. *)
Theorem translate_selects events w :
  Forall hashed events ->
  let posts := live_posts events in
  let responses := live_responses events in
  let size := chunk_size (provider_chain sink) in
  translate_events_to_messages source sink events height config coprocessor clients w
  = (Some (Ok
      (batched (request_batch height (address sink)) prove_requests id rq size
         (filter (fun p => request_outcome p = Relay) posts)
       ++ batched (response_batch height (address sink)) prove_responses ResponsePost pq size
         (filter (fun r => response_outcome r = Relay) responses),
       (request_alone <$> filter (fun p => request_outcome p = Retry) posts)
       ++ (response_alone <$> filter (fun r => response_outcome r = Retry) responses))), w).
Proof.
  intros Hh posts responses size. unfold translate_events_to_messages. destruct (fa_sink FA w) as (Ht & _).
  rewrite (try_ok _ _ _ _ _ Ht).
  assert (Htr : in_chunks (max_concurrent_queries source) (message_of_event source sink config (an_timestamp sa) height) events w
    = (Some (Ok (alone <$> events)), w)).
  { rewrite in_chunks_all by apply (fa_concurrent FA). apply try_map_pure. eapply Forall_impl; [exact Hh|].
    intros ev Hev. by apply message_of_event_steady. }
  rewrite (try_ok _ _ _ _ _ Htr). rewrite (try_ok _ _ _ _ _ (sort_messages_steady events [] [] w)). cbn [app].
  cbn [so_request_messages so_post_request_queries so_response_messages so_response_queries so_post_requests so_post_responses].
  rewrite (try_ok _ _ _ _ _ (successful_steady true request_alone rq posts w (Forall_true _ _ (fun _ => eq_refl)))).
  rewrite (try_ok _ _ _ _ _ (successful_steady false response_alone pq responses w (Forall_true _ _ (fun _ => eq_refl)))).
  cbn [pf_queries pf_retriable_messages]. destruct (fa_source FA w) as (_ & Hrp & Hsp & _).
  assert (Hs : chunk_size (provider_chain sink) <> 0%nat) by (by destruct (provider_chain sink)).
  replace (live_posts events) with (id <$> posts) at 1 by apply list_fmap_id.
  rewrite !relayed_filter, !queries_filter.
  rewrite (try_ok _ _ _ _ _ (prove_batches_steady _ prove_requests _ id rq _ _ w Hs (fun qs => Hrp _ qs _))).
  rewrite (try_ok _ _ _ _ _ (prove_batches_steady _ prove_responses _ ResponsePost pq _ _ w Hs (fun qs => Hsp _ qs _))).
  done.
Qed.

End steady.

(** ** Amounts as text *)

(** The last [k] decimal digits of [n]. *)
Fixpoint digits (k : nat) (n : Z) : bytes :=
  match k with O => [] | S k => digits k (n / 10) ++ [digit_byte (n mod 10)] end.

Lemma length_digits k n : length (digits k n) = k.
Proof. revert n; induction k as [|k IH]; intros n; [done|]. cbn [digits]. rewrite length_app, IH. cbn. lia. Qed.

Lemma digits_zero k : digits k 0 = replicate k (digit_byte 0).
Proof.
  induction k as [|k IH]; [done|]. cbn [digits]. change (0 / 10) with 0. change (0 mod 10) with 0. rewrite IH.
  change [digit_byte 0] with (replicate 1 (digit_byte 0)). rewrite <- replicate_add. by rewrite Nat.add_comm.
Qed.

Lemma show_go_step fuel n : 10 <= n -> show_dec_go (S fuel) n [] = show_dec_go fuel (n / 10) [] ++ [digit_byte (n mod 10)].
Proof. intros Hn. cbn [show_dec_go]. destruct (Z.ltb_spec n 10); [lia|]. apply show_dec_go_app. Qed.

(** Enough fuel is enough. *)
Lemma show_go_fuel f g n : 0 <= n < 10 ^ Z.of_nat (S f) -> n < 10 ^ Z.of_nat (S g) ->
  show_dec_go (S f) n [] = show_dec_go (S g) n [].
Proof.
  revert g n; induction f as [|f IH]; intros g n Hf Hg; (destruct (Z.lt_ge_cases n 10) as [Hn|Hn];
    [cbn [show_dec_go]; destruct (Z.ltb_spec n 10); [done|lia]|]).
  - change (10 ^ Z.of_nat 1) with 10 in Hf. lia.
  - destruct g as [|g]; [change (10 ^ Z.of_nat 1) with 10 in Hg; lia|]. rewrite !(show_go_step _ n) by done. f_equal.
    rewrite (Nat2Z.inj_succ (S f)), Z.pow_succ_r in Hf by lia. rewrite (Nat2Z.inj_succ (S g)), Z.pow_succ_r in Hg by lia.
    apply IH; [split; [apply Z.div_pos; lia|]|]; apply Z.div_lt_upper_bound; lia.
Qed.

(** A number with more than [k] digits ends with its last [k] digits. *)
Lemma show_go_split k fuel n : 10 ^ Z.of_nat k <= n -> (k <= fuel)%nat ->
  show_dec_go fuel n [] = show_dec_go (fuel - k) (n / 10 ^ Z.of_nat k) [] ++ digits k n.
Proof.
  revert fuel n; induction k as [|k IH]; intros fuel n Hn Hf.
  - change (10 ^ Z.of_nat 0) with 1. rewrite Z.div_1_r, Nat.sub_0_r. by rewrite app_nil_r.
  - destruct fuel as [|fuel]; [lia|]. rewrite Nat2Z.inj_succ, Z.pow_succ_r in Hn by lia.
    pose proof (Z.pow_pos_nonneg 10 (Z.of_nat k) ltac:(lia) ltac:(lia)) as Hp. rewrite show_go_step by lia.
    rewrite IH; [|apply Z.div_le_lower_bound; lia|lia]. rewrite Nat2Z.inj_succ, Z.pow_succ_r by lia.
    rewrite Z.div_div by lia. cbn [digits]. by rewrite app_assoc.
Qed.

(** A number with at most [k] digits, padded with zeros. *)
Lemma show_go_pad k fuel n : 0 <= n < 10 ^ Z.of_nat (S k) -> n < 10 ^ Z.of_nat (S fuel) ->
  let shown := show_dec_go (S fuel) n [] in
  (length shown <= S k)%nat /\ replicate (S k - length shown) (digit_byte 0) ++ shown = digits (S k) n.
Proof.
  revert fuel n; induction k as [|k IH]; intros fuel n Hn Hf shown; (destruct (Z.lt_ge_cases n 10) as [Hs|Hs];
    [assert (shown = [digit_byte (n mod 10)]) as -> by (unfold shown; cbn [show_dec_go]; destruct (Z.ltb_spec n 10); [done|lia])|]).
  - done.
  - change (10 ^ Z.of_nat 1) with 10 in Hn. lia.
  - split; [cbn; lia|]. cbn [length]. replace (S (S k) - 1)%nat with (S k) by lia. change (digits (S (S k)) n) with (digits (S k) (n / 10) ++ [digit_byte (n mod 10)]).
    rewrite Z.div_small by lia. by rewrite digits_zero.
  - destruct fuel as [|fuel]; [change (10 ^ Z.of_nat 1) with 10 in Hf; lia|].
    rewrite (Nat2Z.inj_succ (S k)), Z.pow_succ_r in Hn by lia. rewrite (Nat2Z.inj_succ (S fuel)), Z.pow_succ_r in Hf by lia.
    destruct (IH fuel (n / 10)) as [Hl Hd]; [split; [apply Z.div_pos; lia|]; apply Z.div_lt_upper_bound; lia|apply Z.div_lt_upper_bound; lia|].
    unfold shown. rewrite show_go_step by done. rewrite length_app. cbn [length]. split; [lia|].
    change (digits (S (S k)) n) with (digits (S k) (n / 10) ++ [digit_byte (n mod 10)]). rewrite <- Hd, app_assoc. do 2 f_equal. f_equal. lia.
Qed.

Lemma iter_insert_zero n (l : bytes) : Nat.iter n (insert_at 0 (digit_byte 0)) l = replicate n (digit_byte 0) ++ l.
Proof. induction n as [|n IH]; [done|]. rewrite Nat.iter_succ, IH. done. Qed.

Lemma insert_at_app {A} (x : A) l1 l2 : insert_at (length l1) x (l1 ++ l2) = l1 ++ x :: l2.
Proof. unfold insert_at. by rewrite take_app_length, drop_app_length. Qed.

(** A cost is printed in dollars: the whole part, a point, and the eighteen decimals. *)
Theorem cost_display_decimal c : 0 <= cost c <= u256_max ->
  cost_display c = show_u256 (cost c / 10 ^ 18) ++ Byte.x2e :: digits 18 (cost c).
Proof.
  intros Hc. unfold cost_display. set (n := cost c) in *. assert (H256 : n < 10 ^ Z.of_nat 78) by (unfold u256_max in Hc; cbn; lia).
  destruct (Z.lt_ge_cases n (10 ^ 18)) as [Hs|Hs].
  - destruct (show_go_pad 17 77 n ltac:(cbn; lia) H256) as [Hl Hd]. fold (show_u256 n) in *. rewrite (proj2 (Nat.leb_le _ _) Hl).
    rewrite iter_insert_zero, Z.div_small by lia. change (show_u256 0) with [digit_byte 0].
    rewrite replicate_S. cbn [app]. rewrite Hd. rewrite length_cons, length_digits. apply (insert_at_app _ [digit_byte 0]).
  - assert (Hsplit := show_go_split 18 78 n ltac:(cbn; lia) ltac:(lia)). fold (show_u256 n) in Hsplit.
    change (10 ^ Z.of_nat 18) with (10 ^ 18) in Hsplit. rewrite Hsplit.
    pose proof (show_dec_go_nonempty 59 (n / 10 ^ 18) []) as Hne. change (78 - 18)%nat with 60%nat.
    set (w := show_dec_go 60 (n / 10 ^ 18) []) in *. assert (Hw : (0 < length w)%nat) by (destruct w; [done|cbn; lia]).
    rewrite (proj2 (Nat.leb_gt _ _)) by (rewrite length_app, length_digits; lia).
    replace (length (w ++ digits 18 n) - 18)%nat with (length w) by (rewrite length_app, length_digits; lia). rewrite insert_at_app.
    assert (w = show_u256 (n / 10 ^ 18)) as <-; [|reflexivity].
    apply (show_go_fuel 59 77); [split; [apply Z.div_pos; lia|]|]; apply Z.div_lt_upper_bound; cbn in *; lia.
Qed.

(** ** Waiting *)

Section waiting.
Context {W : Type} `{!Timer W} (client : IsmpProvider W).

(** Whatever the clock does: the wait ends when the client has reported a time at which the
    challenge period is over. *)
Lemma wait_until_elapsed_sound fuel last period delay w w' :
  wait_until_elapsed fuel client last period delay w = (Some (Ok tt), w') ->
  period < delay \/ exists t w1 w2, query_timestamp client w1 = (Some (Ok t), w2) /\ period < saturating_sub t last.
Proof.
  revert delay w; induction fuel as [|fuel IH]; intros delay w; cbn [wait_until_elapsed];
    (destruct (Z.leb_spec delay period); [|by left]); [done|].
  intros (u & w1 & _ & Hr)%bind_inv. apply try_ok_inv in Hr as (t & w2 & Ht & Hr). apply IH in Hr as [Hr|Hr]; [|by right].
  right. by exists t, w1, w2.
Qed.

Context (clock : W -> Z).

(** The client reads a clock that does not go back, and sleeping takes its time. *)
Definition clock_runs : Prop := forall w,
  (exists w', query_timestamp client w = (Some (Ok (clock w')), w') /\ clock w <= clock w') /\
  forall d, exists w', sleep d w = (Some tt, w') /\ clock w + Z.max d 1 <= clock w'.

Lemma wait_once last period w fuel : clock_runs -> last <= clock w -> period < clock w - last ->
  wait_until_elapsed fuel client last period (saturating_sub (clock w) last) w = (Some (Ok tt), w).
Proof. intros _ Hl Hp. destruct fuel; cbn [wait_until_elapsed]; unfold saturating_sub; (destruct (Z.leb_spec (Z.max 0 (clock w - last)) period); [lia|done]). Qed.

Lemma wait_runs fuel last period delay w : clock_runs -> 0 <= period -> last <= clock w -> delay <= clock w - last ->
  period < clock w - last + Z.max (period - delay) 1 ->
  exists w', wait_until_elapsed (S fuel) client last period delay w = (Some (Ok tt), w') /\ (period < delay \/ period < clock w' - last).
Proof.
  intros Hc Hp Hl Hd Hs. cbn [wait_until_elapsed]. destruct (Z.leb_spec delay period) as [Hle|]; [|exists w; split; [done|lia]].
  destruct (proj2 (Hc w) (period - delay)) as (w1 & Hsl & H1). rewrite (bind_some _ _ _ _ _ Hsl).
  destruct (proj1 (Hc w1)) as (w2 & Hq & H2). rewrite (try_ok _ _ _ _ _ Hq). exists w2.
  assert (period < clock w2 - last) by lia. split; [|lia]. apply wait_once; [done|lia|done].
Qed.

(** The relayer waits for the challenge period and no longer than it must: if the client's clock
    runs and the update is not in the future, the wait ends, after at most one more look at the
    clock, at a time when strictly more than the period has passed since the update. *)
Theorem challenge_period_observed fuel last id period w w1 :
  clock_runs -> 0 <= period -> query_challenge_period client id w = (Some (Ok period), w1) -> last <= clock w1 ->
  exists w', wait_for_challenge_period (S fuel) client last id w = (Some (Ok tt), w') /\ period < clock w' - last.
Proof.
  intros Hc Hp Hq Hl. unfold wait_for_challenge_period. rewrite (try_ok _ _ _ _ _ Hq).
  destruct (proj2 (Hc w1) period) as (w2 & Hs & H2). rewrite (bind_some _ _ _ _ _ Hs).
  destruct (proj1 (Hc w2)) as (w3 & Ht & H3). rewrite (try_ok _ _ _ _ _ Ht).
  assert (Hd : saturating_sub (clock w3) last = clock w3 - last) by (unfold saturating_sub; lia). rewrite Hd.
  destruct (wait_runs fuel last period (clock w3 - last) w3 Hc Hp) as (w4 & Hw & Hr); [lia..|].
  exists w4. split; [done|]. destruct Hr as [Hr|Hr]; [|done].
  assert (Hdone : wait_until_elapsed (S fuel) client last period (clock w3 - last) w3 = (Some (Ok tt), w3)).
  { rewrite <- Hd. apply wait_once; [done|lia|done]. }
  rewrite Hdone in Hw. by injection Hw as <-.
Qed.

End waiting.
