(* ===== verification/RelayerDb.v ===== *)
(** * The relayer's database

    [tesseract/fees/src/lib.rs]: what the relayer remembers of its deliveries, until it has been
    paid for them, of withdrawals that are not delivered yet, and of messages that were not worth
    their delivery. The tables are those of [fees/prisma/schema.prisma]. A batch of statements is a
    transaction: it fails as a whole. Which statements fail is decided by the list [db_faults]. *)

From S2P Require Import Prelude StateMachine Router Messaging ChildTrie Apps Tesseract TesseractProps.

(** ** Tables *)

Record Delivery : Type := mkDelivery {
  de_id : Z;
  de_hash : bytes;
  de_source_chain : bytes;
  de_dest_chain : bytes;
  de_delivery_type : Z;
  de_created_at : Z;
  de_height : Z
}.

(** A row of the tables of pending withdrawals and of unprofitable messages. *)
Record Row : Type := mkRow { row_id : Z; row_dest : bytes; row_encoded : bytes }.

(** A table with the identifier of the next row ([autoincrement]). *)
Record Table (R : Type) : Type := mkTable { rows : list R; next_id : Z }.
Arguments mkTable {R}.
Arguments rows {R}.
Arguments next_id {R}.

Record Db : Type := mkDb {
  deliveries : Table Delivery;
  pending_withdrawal : Table Row;
  unprofitable_messages_ : Table Row;
  db_now : Z;
  db_faults : list (option AnyError)
}.

Definition on_deliveries (f : Table Delivery -> Table Delivery) (d : Db) : Db :=
  mkDb (f (deliveries d)) (pending_withdrawal d) (unprofitable_messages_ d) (db_now d) (db_faults d).
Definition on_pending (f : Table Row -> Table Row) (d : Db) : Db :=
  mkDb (deliveries d) (f (pending_withdrawal d)) (unprofitable_messages_ d) (db_now d) (db_faults d).
Definition on_unprofitable (f : Table Row -> Table Row) (d : Db) : Db :=
  mkDb (deliveries d) (pending_withdrawal d) (f (unprofitable_messages_ d)) (db_now d) (db_faults d).
Definition on_faults (f : list (option AnyError) -> list (option AnyError)) (d : Db) : Db :=
  mkDb (deliveries d) (pending_withdrawal d) (unprofitable_messages_ d) (db_now d) (f (db_faults d)).

(** Rows are created with consecutive identifiers. *)
Fixpoint create {R} (new : list (Z -> R)) (t : Table R) : Table R :=
  match new with
  | [] => t
  | row :: new => create new (mkTable (rows t ++ [row (next_id t)]) (next_id t + 1))
  end.
Definition keep_rows {R} (P : R -> bool) (t : Table R) : Table R := mkTable (filter (fun r => P r = true) (rows t)) (next_id t).

(** One batch of statements, or one query. *)
Definition execute : M Db (result AnyError unit) := fun d =>
  match db_faults d with
  | Some e :: rest => (Some (Err e), on_faults (fun _ => rest) d)
  | None :: rest => (Some (Ok tt), on_faults (fun _ => rest) d)
  | [] => (Some (Ok tt), d)
  end.

(** [as i32] and [as u64] *)
Definition as_i32 (z : Z) : Z := (z + 2 ^ 31) mod 2 ^ 32 - 2 ^ 31.
Definition i32_as_u64 (z : Z) : Z := z mod 2 ^ 64.

Definition PostRequestDelivery : Z := 0.
Definition PostResponseDelivery : Z := 1.

(** [DeliveryType::try_from] *)
Definition delivery_type_try_from (z : Z) : result AnyError Z :=
  if (z =? 0) || (z =? 1) then Ok z else Err (AnyMessage (lit "Unknown delivery type")).

Record WithdrawFundsResult : Type := mkWithdrawFundsResult { wf_post : PostRequest; wf_block : Z }.

Section database.
Context `{!Hex} `{!Codec Message, !Codec WithdrawFundsResult}.

Definition tx_hash (receipt : TxReceipt) : bytes :=
  match receipt with
  | TxRequest query _ => qy_commitment query
  | TxResponse query request_commitment _ => qy_commitment query ++ request_commitment
  end.

(** A statement that records a receipt; the names of chains may panic. *)
Definition delivery_of (now : Z) (receipt : TxReceipt) : option (Z -> Delivery) :=
  source ← to_string (qy_source_chain (tx_query receipt));
  dest ← to_string (qy_dest_chain (tx_query receipt));
  let kind := match receipt with TxRequest _ _ => PostRequestDelivery | TxResponse _ _ _ => PostResponseDelivery end in
  Some (fun id => mkDelivery id (hex_encode (tx_hash receipt)) source dest kind (as_i32 now) (as_i32 (tx_height receipt))).

Definition store_messages (receipts : list TxReceipt) : M Db (result AnyError unit) :=
  let* now := gets db_now in
  let* actions := or_panic (mapM (delivery_of now) receipts) in
  let? _ := execute in
  let* _ := modify (on_deliveries (create actions)) in
  ret (Ok tt).

Definition delete_entries (reqs : list bytes) : M Db (result AnyError unit) :=
  let? _ := execute in
  let* _ := modify (on_deliveries (keep_rows (fun r => negb (bool_decide (de_hash r ∈ hex_encode <$> reqs))))) in
  ret (Ok tt).

Definition entry_of_key (key : Key) : bytes :=
  match key with
  | KeyRequest req => req
  | KeyResponse request_commitment response_commitment => response_commitment ++ request_commitment
  end.

Definition delete_claimed_entries (commitments : list Key) : M Db (result AnyError unit) :=
  match commitments with
  | [] => ret (Ok tt)
  | _ => let? _ := delete_entries (entry_of_key <$> commitments) in ret (Ok tt)
  end.

(** ** Deliveries *)

Definition of_pair (source dest : bytes) (kind : Z) (r : Delivery) : bool :=
  bool_decide (de_source_chain r = source) && bool_decide (de_dest_chain r = dest) && (de_delivery_type r =? kind).

(** [find_many] with the filters on the chains and the type. *)
Definition find_deliveries (source_chain dest_chain : StateMachine) (kind : Z) : M Db (result AnyError (list Delivery)) :=
  let* source := or_panic (to_string source_chain) in
  let* dest := or_panic (to_string dest_chain) in
  let? _ := execute in
  let* all := gets (fun d => rows (deliveries d)) in
  ret (Ok (filter (fun r => of_pair source dest kind r = true) all)).

(** [order_by(Height(Asc))] *)
Definition order_by_height (l : list Delivery) : list Delivery := sort_by_key de_height l.

(** [entries.get(entries.len() - 1)]: for no entries the index wraps around and is out of range. *)
Definition last_height (entries : list Delivery) : option Z :=
  i32_as_u64 ∘ de_height <$> last entries.

Definition highest_delivery_height (source_chain dest_chain : StateMachine) : M Db (result AnyError (option Z)) :=
  let? requests := find_deliveries source_chain dest_chain PostRequestDelivery in
  let? responses := find_deliveries source_chain dest_chain PostResponseDelivery in
  let dest_height := Z.max (default 0 (last_height (order_by_height requests)))
                           (default 0 (last_height (order_by_height responses))) in
  ret (Ok (if dest_height =? 0 then None else Some dest_height)).

(** [unique_by] the sorted pair of chains: the first row of each pair stays. *)
Definition pair_key (r : Delivery) : bytes :=
  match compare_bytes (de_dest_chain r) (de_source_chain r) with
  | Lt => de_dest_chain r ++ de_source_chain r
  | _ => de_source_chain r ++ de_dest_chain r
  end.
Fixpoint unique_pairs (seen : list bytes) (l : list Delivery) : list Delivery :=
  match l with
  | [] => []
  | r :: l => if bool_decide (pair_key r ∈ seen) then unique_pairs seen l else r :: unique_pairs (pair_key r :: seen) l
  end.
Definition distinct_deliveries : M Db (result AnyError (list Delivery)) :=
  let? _ := execute in
  let* all := gets (fun d => rows (deliveries d)) in
  ret (Ok (unique_pairs [] all)).

(** ** Pending withdrawals and unprofitable messages *)

(** [delete] of rows by their identifier fails if one is missing. *)
Definition delete_rows (table : Db -> Table Row) (on_table : (Table Row -> Table Row) -> Db -> Db) (ids : list Z) :
    M Db (result AnyError unit) :=
  let? _ := execute in
  let* present := gets (fun d => row_id <$> rows (table d)) in
  if bool_decide (ids ⊆ present) && bool_decide (NoDup ids) then
    let* _ := modify (on_table (keep_rows (fun r => negb (bool_decide (row_id r ∈ ids))))) in ret (Ok tt)
  else ret (Err (AnyMessage (lit "RecordNotFound"))).

Definition create_rows (table : Db -> Table Row) (on_table : (Table Row -> Table Row) -> Db -> Db) (new : list (bytes * bytes)) :
    M Db (result AnyError (list Z)) :=
  let? _ := execute in
  let* next := gets (fun d => next_id (table d)) in
  let* _ := modify (on_table (create ((fun x id => mkRow id x.1 x.2) <$> new))) in
  ret (Ok ((fun i => next + Z.of_nat i) <$> seq 0 (length new))).

Definition find_rows (table : Db -> Table Row) (dest : StateMachine) : M Db (result AnyError (list Row)) :=
  let* name := or_panic (to_string dest) in
  let? _ := execute in
  let* all := gets (fun d => rows (table d)) in
  ret (Ok (filter (fun r => row_dest r = name) all)).

Definition bad_encoding : AnyError := AnyMessage (lit "Could not decode").

Definition pending_withdrawals (dest : StateMachine) : M Db (result AnyError (list (WithdrawFundsResult * Z))) :=
  let? found := find_rows pending_withdrawal dest in
  ret (collect_results ((fun r => match decode (row_encoded r) with
                                  | Some w => Ok (w, row_id r) | None => Err bad_encoding end) <$> found)).

Definition delete_pending_withdrawals (pending : list Z) : M Db (result AnyError unit) :=
  delete_rows pending_withdrawal on_pending pending.

Definition store_pending_withdrawals (pending : list WithdrawFundsResult) : M Db (result AnyError (list Z)) :=
  let* new := or_panic (mapM (fun item => dest ← to_string (post_dest (wf_post item)); Some (dest, encode item)) pending) in
  create_rows pending_withdrawal on_pending new.

Definition delete_unprofitable_messages (unprofitable : list Z) : M Db (result AnyError unit) :=
  delete_rows unprofitable_messages_ on_unprofitable unprofitable.

(** The set of encodings, the identifiers of the rows that were new to it, and of the others. *)
Definition dedup (acc : list (bytes * unit) * list Z * list Z) (r : Row) : list (bytes * unit) * list Z * list Z :=
  let '(data_set, ids, duplicates) := acc in
  match btree_get compare_bytes (row_encoded r) data_set with
  | None => (btree_insert compare_bytes (row_encoded r) tt data_set, ids ++ [row_id r], duplicates)
  | Some _ => (data_set, ids, duplicates ++ [row_id r])
  end.

(** The duplicates are deleted by a task in the background, whose failure is ignored. *)
Definition unprofitable_messages (dest : StateMachine) : M Db (result AnyError (list (Message * Z))) :=
  let? data := find_rows unprofitable_messages_ dest in
  let '(data_set, ids, duplicates) := foldl dedup ([], [], []) data in
  let* _ := delete_unprofitable_messages duplicates in
  ret (collect_results ((fun x => match decode x.1 with Some m => Ok (m, x.2) | None => Err bad_encoding end)
                          <$> zip data_set.*1 ids)).

Definition store_unprofitable_messages (unprofitable : list Message) (dest : StateMachine) : M Db (result AnyError (list Z)) :=
  let* new := or_panic (mapM (fun item => name ← to_string dest; Some (name, encode item)) unprofitable) in
  create_rows unprofitable_messages_ on_unprofitable new.

End database.

(** ** Claims *)

(** [HyperbridgeClaim] and [HandleGetResponse]: what hyperbridge offers on top of a provider. *)
Record HyperbridgeClaim (W : Type) : Type := mkHyperbridgeClaim {
  available_amount : IsmpProvider W -> StateMachine -> Net W Z;
  submit_accumulate_fees : WithdrawalProof -> Net W unit;
  withdraw_funds : IsmpProvider W -> StateMachine -> Net W WithdrawFundsResult;
  check_claimed : Key -> Net W bool
}.
Arguments available_amount {W}.
Arguments submit_accumulate_fees {W}.
Arguments withdraw_funds {W}.
Arguments check_claimed {W}.

(** The state of the relayer: the world, the database, and the channels between its tasks.
    [None] is a channel whose receiver is gone. *)
Record Relayer (W : Type) : Type := mkRelayer {
  rl_net : W;
  rl_db : Db;
  fee_acc_channel : option (list (list TxReceipt));
  get_request_channel : option (list (list GetRequest * StateMachineUpdated))
}.
Arguments mkRelayer {W}.
Arguments rl_net {W}.
Arguments rl_db {W}.
Arguments fee_acc_channel {W}.
Arguments get_request_channel {W}.

Section claims.
Context `{!Hex} `{!Codec Message, !Codec WithdrawFundsResult} {W : Type}.

Definition on_net {A} (m : M W A) : M (Relayer W) A := fun s =>
  let '(r, w) := m (rl_net s) in (r, mkRelayer w (rl_db s) (fee_acc_channel s) (get_request_channel s)).
Definition on_db {A} (m : M Db A) : M (Relayer W) A := fun s =>
  let '(r, d) := m (rl_db s) in (r, mkRelayer (rl_net s) d (fee_acc_channel s) (get_request_channel s)).

(** What is asked of the two chains for one delivery. *)
Record ClaimKey : Type := mkClaimKey { ck_key : Key; ck_source : list bytes; ck_dest : list bytes }.

Definition CLAIM_CHUNK : nat := 50.

Definition query_state_proofs (source dest : IsmpProvider W) (source_height dest_height : Z) (keys : list ClaimKey) :
    Net W (list WithdrawalProof) :=
  let* batches := or_panic (chunks CLAIM_CHUNK keys) in
  try_map_m (fun chunk =>
    let? source_proof := query_state_proof source source_height (QueryIsmp (concat (ck_source <$> chunk))) in
    let? dest_proof := query_state_proof dest dest_height (QueryIsmp (concat (ck_dest <$> chunk))) in
    ret (Ok (mkWithdrawalProof (ck_key <$> chunk)
      (mkProof (mkStateMachineHeight (state_machine_id source) source_height) source_proof)
      (mkProof (mkStateMachineHeight (state_machine_id dest) dest_height) dest_proof)))) batches.

Definition request_claim (source dest : IsmpProvider W) (commitment : H256) : ClaimKey :=
  mkClaimKey (KeyRequest commitment) (request_commitment_full_key source commitment) (request_receipt_full_key dest commitment).
Definition response_claim (source dest : IsmpProvider W) (request_commitment response_commitment : H256) : ClaimKey :=
  mkClaimKey (KeyResponse request_commitment response_commitment)
    (response_commitment_full_key source response_commitment) (response_receipt_full_key dest request_commitment).

Definition claim_of_receipt (source dest : IsmpProvider W) (receipt : TxReceipt) : ClaimKey :=
  match receipt with
  | TxRequest query _ => request_claim source dest (qy_commitment query)
  | TxResponse query request_commitment _ => response_claim source dest request_commitment (qy_commitment query)
  end.

Definition create_proof_from_receipts (source_height dest_height : Z) (source dest : IsmpProvider W) (receipts : list TxReceipt) :
    Net W (list WithdrawalProof) :=
  query_state_proofs source dest source_height dest_height (claim_of_receipt source dest <$> receipts).

(** [H256::from_slice] panics unless there are 32 bytes. *)
Definition h256_from_slice (b : bytes) : option H256 := if (length b =? 32)%nat then Some b else None.

(** A row of the table; one that is not hex is left out. *)
Definition claim_of_request (source dest : IsmpProvider W) (data : Delivery) : option (option ClaimKey) :=
  match hex_decode (de_hash data) with
  | None => Some None
  | Some b => hash ← h256_from_slice b; Some (Some (request_claim source dest hash))
  end.
Definition claim_of_response (source dest : IsmpProvider W) (data : Delivery) : option (option ClaimKey) :=
  match hex_decode (de_hash data) with
  | None => Some None
  | Some concat_hash =>
      if (length concat_hash <? 32)%nat then None
      else request_commitment ← h256_from_slice (drop 32 concat_hash);
           Some (Some (response_claim source dest request_commitment (take 32 concat_hash)))
  end.

(** The loop over the entries: what is to be deleted, and what to be proved. *)
Definition sort_claim (hyperbridge : HyperbridgeClaim W) (acc : list Key * list ClaimKey) (entry : option (option ClaimKey)) :
    M (Relayer W) (result AnyError (list Key * list ClaimKey)) :=
  let* found := or_panic entry in
  match found with
  | None => ret (Ok acc)
  | Some key =>
      let? claimed := on_net (check_claimed hyperbridge (ck_key key)) in
      ret (Ok (if claimed then (acc.1 ++ [ck_key key], acc.2) else (acc.1, acc.2 ++ [key])))
  end.

(** The claimed keys are deleted by a task in the background, whose failure is logged. *)
Definition create_claim_proof (source_height dest_height : Z) (source dest : IsmpProvider W) (hyperbridge : HyperbridgeClaim W) :
    M (Relayer W) (result AnyError (list WithdrawalProof)) :=
  let source_chain := provider_chain source in
  let dest_chain := provider_chain dest in
  let? request_entries := on_db (find_deliveries source_chain dest_chain PostRequestDelivery) in
  let? response_entries := on_db (find_deliveries source_chain dest_chain PostResponseDelivery) in
  match request_entries, response_entries with
  | [], [] => ret (Ok [])
  | _, _ =>
      let? (keys_to_delete, keys_to_prove) := try_fold_m (sort_claim hyperbridge) ([], [])
        ((claim_of_request source dest <$> request_entries) ++ (claim_of_response source dest <$> response_entries)) in
      let* _ := on_db (delete_claimed_entries keys_to_delete) in
      on_net (query_state_proofs source dest source_height dest_height keys_to_prove)
  end.

End claims.

(** ** Theorems *)

(** A table that gains and loses rows. *)
Lemma create_rows_app {R} (new : list (Z -> R)) t :
  rows (create new t) = rows t ++ imap (fun i f => f (next_id t + Z.of_nat i)) new /\ next_id (create new t) = next_id t + Z.of_nat (length new).
Proof.
  revert t; induction new as [|f new IH]; intros t; cbn [create length imap].
  - rewrite app_nil_r. split; [done|]. lia.
  - destruct (IH (mkTable (rows t ++ [f (next_id t)]) (next_id t + 1))) as [-> ->]. cbn [rows next_id]. rewrite <- app_assoc. split; [|lia].
    cbn [app imap]. do 2 f_equal; [by rewrite Z.add_0_r|]. apply imap_ext. intros i g _. unfold compose. cbn. f_equal. lia.
Qed.

Lemma filter_all {A} (P : A -> Prop) `{forall x, Decision (P x)} (l : list A) : (forall x, x ∈ l -> P x) -> filter P l = l.
Proof.
  induction l as [|x l IH]; intros Hl; [done|]. rewrite filter_cons, decide_True by (apply Hl; left). f_equal. apply IH. intros y Hy. apply Hl. by right.
Qed.

Section ledger.
Context `{!Hex, !HexLaws} `{!Codec Message, !Codec WithdrawFundsResult} {W : Type}.

(** What a row records, and the table as the list of receipts it stands for. *)
Definition tx_kind (rc : TxReceipt) : Z := match rc with TxRequest _ _ => PostRequestDelivery | TxResponse _ _ _ => PostResponseDelivery end.
Definition records (r : Delivery) (rc : TxReceipt) : Prop :=
  de_hash r = hex_encode (tx_hash rc) /\ to_string (qy_source_chain (tx_query rc)) = Some (de_source_chain r) /\
  to_string (qy_dest_chain (tx_query rc)) = Some (de_dest_chain r) /\ de_delivery_type r = tx_kind rc /\
  de_height r = as_i32 (tx_height rc).
Definition ledger (d : Db) (rcs : list TxReceipt) : Prop := Forall2 records (rows (deliveries d)) rcs.

(** Commitments are hashes. *)
Definition receipt_wf (rc : TxReceipt) : Prop :=
  match rc with
  | TxRequest q _ => length (qy_commitment q) = 32%nat
  | TxResponse q c _ => length (qy_commitment q) = 32%nat /\ length c = 32%nat
  end.
Definition key_wf (k : Key) : Prop :=
  match k with KeyRequest c => length c = 32%nat | KeyResponse c1 c2 => length c1 = 32%nat /\ length c2 = 32%nat end.

Definition key_of (rc : TxReceipt) : Key :=
  match rc with TxRequest q _ => KeyRequest (qy_commitment q) | TxResponse q c _ => KeyResponse c (qy_commitment q) end.

#[local] Instance Key_eq_dec : EqDecision Key.
Proof. solve_decision. Defined.

Lemma entry_inj k rc : key_wf k -> receipt_wf rc -> hex_encode (entry_of_key k) = hex_encode (tx_hash rc) <-> k = key_of rc.
Proof.
  intros Hk Hr. split; [|intros ->; by destruct rc]. intros E. apply (f_equal hex_decode) in E. rewrite !hex_roundtrip in E. injection E as E.
  pose proof (f_equal length E) as El. destruct k as [c|c1 c2], rc as [q h|q c' h]; cbn in *; rewrite ?length_app in El; try lia; [by subst|].
  apply app_inj_1 in E as [-> ->]; [done|lia].
Qed.

Lemma execute_ok d : db_faults d = [] -> execute d = (Some (Ok tt), d).
Proof. unfold execute. by intros ->. Qed.

Lemma delivery_of_records now rc row id : delivery_of now rc = Some row -> records (row id) rc.
Proof.
  unfold delivery_of. intros (s & Hs & Hr)%bind_Some. apply bind_Some in Hr as (t & Ht & [= <-]). by destruct rc.
Qed.

(** Receipts are stored at the end of the ledger. *)
Lemma store_messages_run receipts d rcs : ledger d rcs -> db_faults d = [] ->
  Forall (fun rc => is_Some (to_string (qy_source_chain (tx_query rc))) /\ is_Some (to_string (qy_dest_chain (tx_query rc)))) receipts ->
  exists d', store_messages receipts d = (Some (Ok tt), d') /\ ledger d' (rcs ++ receipts) /\ db_faults d' = [] /\
    unprofitable_messages_ d' = unprofitable_messages_ d.
Proof.
  intros Hl Hf Hn. unfold store_messages. unfold bind at 1, gets.
  assert (Ha : exists actions, mapM (delivery_of (db_now d)) receipts = Some actions).
  { apply mapM_is_Some. eapply Forall_impl; [exact Hn|]. intros rc [[s Hs] [t Ht]]. exists (fun id => mkDelivery id (hex_encode (tx_hash rc)) s t (tx_kind rc) (as_i32 (db_now d)) (as_i32 (tx_height rc))).
    unfold delivery_of. apply bind_Some. exists s. split; [done|]. apply bind_Some. by exists t. }
  destruct Ha as [actions Ha]. rewrite Ha. cbn [or_panic]. unfold bind at 1, ret at 1. rewrite (try_ok _ _ _ _ _ (execute_ok d Hf)).
  unfold bind, modify, ret. eexists. split; [done|]. split_and!; [|done..]. unfold ledger. cbn [deliveries on_deliveries].
  rewrite (proj1 (create_rows_app _ _)). apply Forall2_app; [done|]. apply mapM_Some in Ha. clear -Ha.
  generalize (next_id (deliveries d)). induction Ha as [|rc f rcs fs Hrc _ IH]; intros n; cbn [imap]; constructor; [by eapply delivery_of_records|].
  erewrite imap_ext; [apply (IH (n + 1))|]. intros i g _. unfold compose. cbn. f_equal. lia.
Qed.

(** Entries are deleted by their key. *)
Lemma delete_entries_run keys d rcs : ledger d rcs -> db_faults d = [] -> Forall receipt_wf rcs -> Forall key_wf keys ->
  exists d', delete_entries (entry_of_key <$> keys) d = (Some (Ok tt), d') /\
    ledger d' (filter (fun rc => key_of rc ∉ keys) rcs) /\ db_faults d' = [].
Proof.
  intros Hl Hf Hw Hk. unfold delete_entries. rewrite (try_ok _ _ _ _ _ (execute_ok d Hf)). unfold bind, modify, ret.
  eexists. split; [done|]. split; [|done]. unfold ledger in *. cbn [deliveries on_deliveries keep_rows rows].
  induction Hl as [|r rc rs rcs Hr _ IH]; [done|]. apply Forall_cons in Hw as [Hw Hws]. specialize (IH Hws). rewrite !filter_cons.
  assert (Hiff : de_hash r ∈ hex_encode <$> (entry_of_key <$> keys) <-> key_of rc ∈ keys).
  { destruct Hr as (-> & _). rewrite <- list_fmap_compose, list_elem_of_fmap. unfold compose. split.
    - intros (k & E & Hel). rewrite Forall_forall in Hk. symmetry in E. apply entry_inj in E as ->; auto.
    - intros Hel. exists (key_of rc). split; [|done]. symmetry. apply entry_inj; [|done..]. rewrite Forall_forall in Hk. auto. }
  destruct (decide (key_of rc ∉ keys)) as [Hn|Hn], (decide (negb (bool_decide (de_hash r ∈ hex_encode <$> (entry_of_key <$> keys))) = true)) as [Hb|Hb].
  - by constructor.
  - exfalso. apply Hb, negb_true_iff, bool_decide_eq_false. by rewrite Hiff.
  - exfalso. apply Hn. apply negb_true_iff, bool_decide_eq_false in Hb. by rewrite <- Hiff.
  - done.
Qed.

Lemma delete_claimed_run keys d rcs : ledger d rcs -> db_faults d = [] -> Forall receipt_wf rcs -> Forall key_wf keys ->
  exists d', delete_claimed_entries keys d = (Some (Ok tt), d') /\
    ledger d' (filter (fun rc => key_of rc ∉ keys) rcs) /\ db_faults d' = [].
Proof.
  intros Hl Hf Hw Hk. destruct keys as [|k keys].
  - exists d. split; [done|]. split; [|done]. rewrite filter_all; [done|]. intros rc _. apply not_elem_of_nil.
  - destruct (delete_entries_run (k :: keys) d rcs Hl Hf Hw Hk) as (d' & Hd & Hr). exists d'. split; [|done].
    unfold delete_claimed_entries. by rewrite (try_ok _ _ _ _ _ Hd).
Qed.

(** The receipts of one kind between two chains. *)
Definition between (source dest : bytes) (kind : Z) (rc : TxReceipt) : Prop :=
  to_string (qy_source_chain (tx_query rc)) = Some source /\ to_string (qy_dest_chain (tx_query rc)) = Some dest /\ tx_kind rc = kind.

Lemma of_pair_between r rc source dest kind : records r rc -> of_pair source dest kind r = true <-> between source dest kind rc.
Proof.
  intros (_ & Hs & Hd & Hk & _). unfold of_pair, between. rewrite Hs, Hd, <- Hk, !andb_true_iff, !bool_decide_eq_true, Z.eqb_eq. naive_solver.
Qed.

Lemma ledger_filter rs rcs source dest kind : Forall2 records rs rcs ->
  Forall2 records (filter (fun r => of_pair source dest kind r = true) rs) (filter (between source dest kind) rcs).
Proof.
  induction 1 as [|r rc rs rcs Hr _ IH]; [done|]. rewrite !filter_cons. pose proof (of_pair_between r rc source dest kind Hr) as Hiff.
  destruct (decide (of_pair source dest kind r = true)), (decide (between source dest kind rc)); try done; [by constructor|tauto..].
Qed.

Lemma find_deliveries_run source_chain dest_chain source dest kind d rcs :
  to_string source_chain = Some source -> to_string dest_chain = Some dest -> ledger d rcs -> db_faults d = [] ->
  exists found, find_deliveries source_chain dest_chain kind d = (Some (Ok found), d) /\
    Forall2 records found (filter (between source dest kind) rcs).
Proof.
  intros Hs Hd Hl Hf. unfold find_deliveries. rewrite Hs, Hd. cbn [or_panic]. unfold bind at 1, ret at 1. unfold bind at 1, ret at 1.
  rewrite (try_ok _ _ _ _ _ (execute_ok d Hf)). unfold bind, gets, ret. eexists. split; [done|]. by apply ledger_filter.
Qed.

Lemma claim_of_request_row (source dest : IsmpProvider W) r rc : records r rc -> receipt_wf rc -> tx_kind rc = PostRequestDelivery ->
  claim_of_request source dest r = Some (Some (claim_of_receipt source dest rc)).
Proof.
  intros (Hh & _) Hw Hk. destruct rc as [q h|]; [|done]. unfold claim_of_request, h256_from_slice. rewrite Hh, hex_roundtrip. cbn in *.
  by rewrite Hw.
Qed.

Lemma claim_of_response_row (source dest : IsmpProvider W) r rc : records r rc -> receipt_wf rc -> tx_kind rc = PostResponseDelivery ->
  claim_of_response source dest r = Some (Some (claim_of_receipt source dest rc)).
Proof.
  intros (Hh & _) Hw Hk. destruct rc as [|q c h]; [done|]. unfold claim_of_response, h256_from_slice. rewrite Hh, hex_roundtrip. cbn in *.
  destruct Hw as [Hq Hc]. rewrite length_app, Hq. cbn [Nat.ltb Nat.leb Nat.add]. rewrite drop_app_length', take_app_length' by done. by rewrite Hc.
Qed.

Lemma claims_of_rows (claim_row : Delivery -> option (option ClaimKey)) (source dest : IsmpProvider W) rs rcs (P : TxReceipt -> Prop) :
  Forall2 records rs rcs -> Forall P rcs ->
  (forall r rc, records r rc -> P rc -> claim_row r = Some (Some (claim_of_receipt source dest rc))) ->
  claim_row <$> rs = (fun rc => Some (Some (claim_of_receipt source dest rc))) <$> rcs.
Proof.
  intros Hl HP Hrow. induction Hl as [|r rc rs rcs Hr _ IH]; [done|]. apply Forall_cons in HP as [HP HPs]. cbn. f_equal; eauto.
Qed.

Context (source dest : IsmpProvider W) (hyperbridge : HyperbridgeClaim W) (claimed : Key -> bool).
Context (source_proof dest_proof : Z -> StateProofQueryType -> bytes).

(** The chains and hyperbridge answer, and their answers do not change. *)
Definition claims_answered : Prop := forall w,
  (forall k, check_claimed hyperbridge k w = (Some (Ok (claimed k)), w)) /\
  (forall at_ q, query_state_proof source at_ q w = (Some (Ok (source_proof at_ q)), w)) /\
  (forall at_ q, query_state_proof dest at_ q w = (Some (Ok (dest_proof at_ q)), w)).

Lemma on_net_run {A} (m : M W A) s r : m (rl_net s) = (r, rl_net s) -> on_net m s = (r, s).
Proof. unfold on_net. intros ->. by destruct s. Qed.

Lemma on_db_run {A} (m : M Db A) (s : Relayer W) r : m (rl_db s) = (r, rl_db s) -> on_db m s = (r, s).
Proof. unfold on_db. intros ->. by destruct s. Qed.

Lemma key_of_claim rc : ck_key (claim_of_receipt source dest rc) = key_of rc.
Proof. by destruct rc. Qed.

Lemma sort_claims_run rcs acc s : claims_answered ->
  try_fold_m (sort_claim hyperbridge) acc ((fun rc => Some (Some (claim_of_receipt source dest rc))) <$> rcs) s
  = (Some (Ok (acc.1 ++ (key_of <$> filter (fun rc => claimed (key_of rc) = true) rcs),
               acc.2 ++ (claim_of_receipt source dest <$> filter (fun rc => claimed (key_of rc) = false) rcs))), s).
Proof.
  intros Hc. revert acc; induction rcs as [|rc rcs IH]; intros [ks cs]; [cbn; by rewrite !app_nil_r|].
  cbn [fmap list_fmap try_fold_m]. destruct (Hc (rl_net s)) as (Hk & _).
  assert (Hstep : sort_claim hyperbridge (ks, cs) (Some (Some (claim_of_receipt source dest rc))) s
    = (Some (Ok (if claimed (key_of rc) then (ks ++ [key_of rc], cs) else (ks, cs ++ [claim_of_receipt source dest rc]))), s)).
  { unfold sort_claim. cbn [or_panic]. unfold bind at 1, ret at 1. rewrite key_of_claim. by rewrite (try_ok _ _ _ _ _ (on_net_run _ s _ (Hk _))). }
  rewrite (try_ok _ _ _ _ _ Hstep). destruct (claimed (key_of rc)) eqn:Ec; rewrite IH, !filter_cons, Ec; cbn [fst snd];
    do 2 case_decide; try done; cbn [fmap list_fmap]; by rewrite <- ?app_assoc.
Qed.

(** The proofs for a list of receipts. *)
Definition claim_proof (source_height dest_height : Z) (chunk : list ClaimKey) : WithdrawalProof :=
  mkWithdrawalProof (ck_key <$> chunk)
    (mkProof (mkStateMachineHeight (state_machine_id source) source_height)
       (source_proof source_height (QueryIsmp (concat (ck_source <$> chunk)))))
    (mkProof (mkStateMachineHeight (state_machine_id dest) dest_height)
       (dest_proof dest_height (QueryIsmp (concat (ck_dest <$> chunk))))).

Lemma query_state_proofs_run source_height dest_height keys w : claims_answered ->
  query_state_proofs source dest source_height dest_height keys w
  = (Some (Ok (claim_proof source_height dest_height <$> chunks_go (length keys) CLAIM_CHUNK keys)), w).
Proof.
  intros Hc. unfold query_state_proofs. rewrite chunks_some by done. cbn [or_panic]. unfold bind at 1, ret at 1.
  apply try_map_pure, Forall_forall. intros chunk _. destruct (Hc w) as (_ & Hs & Hd).
  by rewrite (try_ok _ _ _ _ _ (Hs _ _)), (try_ok _ _ _ _ _ (Hd _ _)).
Qed.

Lemma proofs_cover source_height dest_height rcs :
  let keys := claim_of_receipt source dest <$> rcs in
  let proofs := claim_proof source_height dest_height <$> chunks_go (length keys) CLAIM_CHUNK keys in
  concat (wp_commitments <$> proofs) = key_of <$> rcs /\
  Forall (fun p => wp_commitments p <> [] /\ (length (wp_commitments p) <= CLAIM_CHUNK)%nat) proofs.
Proof.
  intros keys proofs. split.
  - unfold proofs. rewrite <- list_fmap_compose. transitivity (ck_key <$> concat (chunks_go (length keys) CLAIM_CHUNK keys)).
    + rewrite concat_fmap || idtac. generalize (chunks_go (length keys) CLAIM_CHUNK keys). intros cs.
      induction cs as [|c cs IH]; [done|]. cbn. by rewrite fmap_app, <- IH.
    + rewrite chunks_go_concat by done. unfold keys. rewrite <- list_fmap_compose. apply list_fmap_ext. intros i rc _. apply key_of_claim.
  - apply Forall_fmap, Forall_forall. intros c Hc. destruct (chunks_go_size _ _ _ _ Hc ltac:(done)) as [Hne Hle]. unfold compose. cbn.
    rewrite length_fmap. split; [|done]. by destruct c.
Qed.

(** C12: the relayer claims what it has delivered. The table of deliveries stands for a list of
    receipts. The claims that are made from it between two chains are those of the receipts
    themselves, first the requests, then the responses; they name every delivery that hyperbridge has
    not paid for, and no other, in proofs of at most fifty. Those that it has paid for are forgotten. *)
Theorem claims_cover_deliveries source_height dest_height sname dname s rcs :
  claims_answered -> ledger (rl_db s) rcs -> db_faults (rl_db s) = [] -> Forall receipt_wf rcs ->
  to_string (provider_chain source) = Some sname -> to_string (provider_chain dest) = Some dname ->
  let delivered := filter (between sname dname PostRequestDelivery) rcs ++ filter (between sname dname PostResponseDelivery) rcs in
  let unpaid := filter (fun rc => claimed (key_of rc) = false) delivered in
  let paid := key_of <$> filter (fun rc => claimed (key_of rc) = true) delivered in
  exists s' proofs,
    create_claim_proof source_height dest_height source dest hyperbridge s = (Some (Ok proofs), s') /\
    create_proof_from_receipts source_height dest_height source dest unpaid (rl_net s) = (Some (Ok proofs), rl_net s) /\
    concat (wp_commitments <$> proofs) = key_of <$> unpaid /\
    Forall (fun p => wp_commitments p <> [] /\ (length (wp_commitments p) <= CLAIM_CHUNK)%nat) proofs /\
    ledger (rl_db s') (filter (fun rc => key_of rc ∉ paid) rcs) /\ rl_net s' = rl_net s.
Proof.
  intros Hc Hl Hf Hw Hs Hd delivered unpaid paid. unfold create_claim_proof.
  destruct (find_deliveries_run _ _ _ _ PostRequestDelivery _ _ Hs Hd Hl Hf) as (reqs & Hreq & Fr).
  destruct (find_deliveries_run _ _ _ _ PostResponseDelivery _ _ Hs Hd Hl Hf) as (resps & Hresp & Fs).
  rewrite (try_ok _ _ _ _ _ (on_db_run _ s _ Hreq)), (try_ok _ _ _ _ _ (on_db_run _ s _ Hresp)).
  assert (Hkeys : (claim_of_request source dest <$> reqs) ++ (claim_of_response source dest <$> resps)
    = (fun rc => Some (Some (claim_of_receipt source dest rc))) <$> delivered).
  { unfold delivered. rewrite fmap_app. f_equal.
    - apply (claims_of_rows _ source dest reqs _ (fun rc => receipt_wf rc /\ tx_kind rc = PostRequestDelivery) Fr).
      + apply Forall_forall. intros rc [[_ [_ Hk]] Hin]%list_elem_of_filter. rewrite Forall_forall in Hw. auto.
      + intros r rc Hr [Hwf Hk]. by apply claim_of_request_row.
    - apply (claims_of_rows _ source dest resps _ (fun rc => receipt_wf rc /\ tx_kind rc = PostResponseDelivery) Fs).
      + apply Forall_forall. intros rc [[_ [_ Hk]] Hin]%list_elem_of_filter. rewrite Forall_forall in Hw. auto.
      + intros r rc Hr [Hwf Hk]. by apply claim_of_response_row. }
  assert (Hproofs : forall w, query_state_proofs source dest source_height dest_height (claim_of_receipt source dest <$> unpaid) w
    = (Some (Ok (claim_proof source_height dest_height <$> chunks_go (length (claim_of_receipt source dest <$> unpaid)) CLAIM_CHUNK
        (claim_of_receipt source dest <$> unpaid))), w)) by (intros w; by apply query_state_proofs_run).
  set (proofs := claim_proof source_height dest_height <$> _) in Hproofs.
  assert (Hcov : concat (wp_commitments <$> proofs) = key_of <$> unpaid /\
    Forall (fun p => wp_commitments p <> [] /\ (length (wp_commitments p) <= CLAIM_CHUNK)%nat) proofs).
  { apply proofs_cover. }
  destruct Hcov as [Hcov Hsize]. unfold create_proof_from_receipts.
  destruct delivered as [|rc0 delivered'] eqn:Edel.
  - assert (Hnil : reqs = [] /\ resps = []).
    { apply app_eq_nil in Hkeys as [Hk1 Hk2]. by apply fmap_nil_inv in Hk1, Hk2. }
    destruct Hnil as [-> ->]. exists s, []. subst unpaid paid. split_and!; try done. rewrite filter_all; [done|]. intros rc _. apply not_elem_of_nil.
  - destruct (delete_claimed_run paid (rl_db s) rcs Hl Hf Hw) as (d' & Hdel & Hl' & Hf').
    { apply Forall_forall. intros k (rc & -> & [_ Hin]%list_elem_of_filter)%list_elem_of_fmap. rewrite <- Edel in Hin.
      assert (rc ∈ rcs) as Hrc by (unfold delivered in Hin; apply elem_of_app in Hin as [[_ ?]%list_elem_of_filter|[_ ?]%list_elem_of_filter]; done).
      rewrite Forall_forall in Hw. specialize (Hw rc Hrc). destruct rc; cbn in *; tauto. }
    exists (mkRelayer (rl_net s) d' (fee_acc_channel s) (get_request_channel s)), proofs. rewrite <- Edel in Hkeys.
    split_and!; try done.
    assert (Hrest : (let? (keys_to_delete, keys_to_prove) := try_fold_m (sort_claim hyperbridge) ([], [])
        ((claim_of_request source dest <$> reqs) ++ (claim_of_response source dest <$> resps)) in
      let* _ := on_db (delete_claimed_entries keys_to_delete) in
      on_net (query_state_proofs source dest source_height dest_height keys_to_prove)) s
      = (Some (Ok proofs), mkRelayer (rl_net s) d' (fee_acc_channel s) (get_request_channel s))).
    { rewrite Hkeys, (try_ok _ _ _ _ _ (sort_claims_run delivered ([], []) s Hc)). cbn [fst snd app]. rewrite Edel. fold unpaid. fold paid.
      unfold on_db, on_net, bind. rewrite Hdel. cbn [rl_net rl_db fee_acc_channel get_request_channel]. by rewrite Hproofs. }
    destruct reqs as [|]; [destruct resps as [|]|]; [|exact Hrest..]. by rewrite Edel in Hkeys.
Qed.
End ledger.

(** ** Heights *)

Definition height_le (a b : Delivery) : Prop := de_height a <= de_height b.

Lemma last_is_max l r : StronglySorted height_le l -> last l = Some r -> r ∈ l /\ Forall (fun x => de_height x <= de_height r) l.
Proof.
  induction 1 as [|x l Hs IH Hf]; [done|]. destruct l as [|y l].
  - intros [= <-]. split; [left|]. by constructor.
  - intros Hl. change (last (x :: y :: l)) with (last (y :: l)) in Hl. destruct (IH Hl) as [Hin Hall]. split; [by right|].
    constructor; [|done]. rewrite Forall_forall in Hf. by apply Hf.
Qed.

Lemma as_i32_small h : 0 <= h < 2 ^ 31 -> as_i32 h = h.
Proof. intros. unfold as_i32. rewrite Z.mod_small; lia. Qed.

Lemma i32_roundtrip h : is_u64 h -> i32_as_u64 (as_i32 h) = h <-> h < 2 ^ 31 \/ 2 ^ 64 - 2 ^ 31 <= h.
Proof.
  intros Hh. unfold is_u64, u64_max in Hh. unfold i32_as_u64, as_i32. pose proof (Z.div_mod (h + 2 ^ 31) (2 ^ 32) ltac:(lia)) as Hd.
  pose proof (Z.mod_pos_bound (h + 2 ^ 31) (2 ^ 32) ltac:(lia)) as Hm. set (m := (h + 2 ^ 31) mod 2 ^ 32) in *. set (q := (h + 2 ^ 31) / 2 ^ 32) in *.
  destruct (Z.lt_ge_cases m (2 ^ 31)) as [Hs|Hs].
  - rewrite <- (Z.mod_unique (m - 2 ^ 31) (2 ^ 64) (-1) (m - 2 ^ 31 + 2 ^ 64)) by lia. split; [lia|]. intros [?|?]; [|].
    + assert (q = 0) by lia. lia.
    + assert (q = 2 ^ 32) by lia. lia.
  - rewrite Z.mod_small by lia. split; [lia|]. intros [?|?]; [|]; [assert (q = 0) by lia; lia|].
    assert (q = 2 ^ 32) by lia. lia.
Qed.

Section heights.
Context `{!Hex, !HexLaws}.

(** The greatest height, and zero for none. *)
Definition top_height (rcs : list TxReceipt) : Z := foldr Z.max 0 (tx_height <$> rcs).

Lemma top_height_bound rcs rc : rc ∈ rcs -> tx_height rc <= top_height rcs.
Proof.
  unfold top_height. induction rcs as [|x rcs IH]; [by intros ?%elem_of_nil|]. intros [->|Hin]%elem_of_cons; cbn; [lia|].
  specialize (IH Hin). lia.
Qed.

Lemma top_height_in rcs : rcs <> [] -> Forall (fun rc => 0 <= tx_height rc) rcs -> exists rc, rc ∈ rcs /\ tx_height rc = top_height rcs.
Proof.
  unfold top_height. induction rcs as [|x rcs IH]; [done|]. intros _ [Hx Hxs]%Forall_cons. cbn. destruct rcs as [|y rcs].
  - exists x. split; [left|]. cbn. lia.
  - destruct (IH ltac:(done) Hxs) as (rc & Hin & Hrc). destruct (Z.max_spec (tx_height x) (foldr Z.max 0 (tx_height <$> y :: rcs))) as [[_ ->]|[_ ->]].
    + exists rc. split; [by right|done].
    + exists x. split; [left|done].
Qed.

Lemma last_height_top found rcs : Forall2 records found rcs -> Forall (fun rc => 0 <= tx_height rc < 2 ^ 31) rcs ->
  default 0 (last_height (order_by_height found)) = top_height rcs.
Proof.
  intros Hf Hb. destruct (sort_by_key_ok de_height found) as [Hp Hs]. fold (order_by_height found) in Hp, Hs. unfold last_height. destruct (last (order_by_height found)) as [r|] eqn:El.
  - destruct (last_is_max _ _ Hs El) as [Hin Hall]. rewrite Hp in Hin, Hall. cbn.
    assert (Hrow : forall r' rc', records r' rc' -> rc' ∈ rcs -> de_height r' = tx_height rc').
    { intros r' rc' (_ & _ & _ & _ & ->) Hrc. rewrite Forall_forall in Hb. by apply as_i32_small, Hb. }
    apply list_elem_of_lookup in Hin as (i & Hi). destruct (Forall2_lookup_l _ _ _ _ _ Hf Hi) as (rc & Hrc & Hr).
    apply list_elem_of_lookup_2 in Hrc as Hin. rewrite (Hrow r rc Hr Hin). pose proof (proj1 (Forall_forall _ _) Hb rc Hin) as Hrng. cbn in Hrng.
    unfold i32_as_u64. rewrite Z.mod_small by lia. destruct (top_height_in rcs) as (t & Ht & Et).
    { intros ->. by apply elem_of_nil in Hin. } { eapply Forall_impl; [exact Hb|]. cbn. lia. }
    pose proof (top_height_bound rcs rc Hin). rewrite <- Et in *. apply list_elem_of_lookup in Ht as (j & Hj).
    destruct (Forall2_lookup_r _ _ _ _ _ Hf Hj) as (r' & Hr' & Hrec). apply list_elem_of_lookup_2 in Hr' as Hin', Hj as Ht.
    pose proof (proj1 (Forall_forall _ _) Hall r' Hin') as Hle. cbn in Hle. rewrite (Hrow r' t Hrec Ht), (Hrow r rc Hr Hin) in Hle. lia.
  - apply last_None in El. rewrite El in Hp. apply Permutation_nil in Hp as ->. by inversion Hf; subst.
Qed.

(** The height up to which a chain must be known before its deliveries can be claimed is the greatest
    height at which one was recorded, as long as heights fit 31 bits. A height is only read back as it
    was written in that range, or within [2 ^ 31] of the end of the range of [u64]. *)
Theorem delivery_height_found source_chain dest_chain sname dname d rcs :
  ledger d rcs -> db_faults d = [] -> to_string source_chain = Some sname -> to_string dest_chain = Some dname ->
  Forall (fun rc => 0 <= tx_height rc < 2 ^ 31) rcs ->
  let top := top_height (filter (between sname dname PostRequestDelivery) rcs ++ filter (between sname dname PostResponseDelivery) rcs) in
  highest_delivery_height source_chain dest_chain d = (Some (Ok (if top =? 0 then None else Some top)), d) /\
  (forall h, is_u64 h -> i32_as_u64 (as_i32 h) = h <-> h < 2 ^ 31 \/ 2 ^ 64 - 2 ^ 31 <= h).
Proof.
  intros Hl Hf Hs Hd Hb top. split; [|by apply i32_roundtrip]. unfold highest_delivery_height.
  destruct (find_deliveries_run _ _ _ _ PostRequestDelivery _ _ Hs Hd Hl Hf) as (reqs & Hreq & Fr).
  destruct (find_deliveries_run _ _ _ _ PostResponseDelivery _ _ Hs Hd Hl Hf) as (resps & Hresp & Fs).
  rewrite (try_ok _ _ _ _ _ Hreq), (try_ok _ _ _ _ _ Hresp).
  rewrite (last_height_top _ _ Fr), (last_height_top _ _ Fs) 
    by (apply Forall_forall; intros rc [_ Hrc]%list_elem_of_filter; by apply (proj1 (Forall_forall _ _) Hb)).
  assert (top = Z.max (top_height (filter (between sname dname PostRequestDelivery) rcs)) (top_height (filter (between sname dname PostResponseDelivery) rcs))) as <-; [|done].
  unfold top, top_height. rewrite fmap_app. generalize (tx_height <$> filter (between sname dname PostResponseDelivery) rcs). intros l2.
  induction (tx_height <$> filter (between sname dname PostRequestDelivery) rcs) as [|x l IH]; cbn.
  - assert (0 <= foldr Z.max 0 l2) by (induction l2; cbn; lia). lia.
  - rewrite IH. lia.
Qed.

End heights.

(** ** Messages to try again *)

Lemma btree_insert_length {V} (k : bytes) (v : V) m :
  btree_get compare_bytes k m = None -> length (btree_insert compare_bytes k v m) = S (length m).
Proof. induction m as [|[k' v'] m IH]; cbn; [done|]. destruct (compare_bytes k k'); cbn; [done|done|]. intros Hn. by rewrite IH. Qed.

Lemma btree_get_keys {V} (k : bytes) (m : list (bytes * V)) : btree_get compare_bytes k m = None <-> k ∉ m.*1.
Proof.
  induction m as [|[k' v'] m IH]; cbn; [split; [intros _; apply not_elem_of_nil|done]|]. rewrite not_elem_of_cons.
  destruct (compare_bytes k k') eqn:E.
  - split; [done|]. intros [Hne _]. by apply (cmp_eq _ compare_bytes_lawful) in E.
  - rewrite IH. split; [|tauto]. intros ?. split; [|done]. intros ->. by rewrite (lawful_refl _ _ compare_bytes_lawful) in E.
  - rewrite IH. split; [|tauto]. intros ?. split; [|done]. intros ->. by rewrite (lawful_refl _ _ compare_bytes_lawful) in E.
Qed.

Lemma nodup_fmap_inj {A B} (f : A -> B) l x y : NoDup (f <$> l) -> x ∈ l -> y ∈ l -> f x = f y -> x = y.
Proof.
  intros Hn Hx Hy E. apply list_elem_of_lookup in Hx as (i & Hi), Hy as (j & Hj).
  assert (i = j) as ->; [|congruence]. apply (NoDup_lookup (f <$> l) i j (f x)); [done|by rewrite list_lookup_fmap, Hi|by rewrite list_lookup_fmap, Hj, E].
Qed.

Lemma images_exist {A B} (f : A -> B) (l : list B) : Forall (fun y => exists x, y = f x) l -> exists xs, l = f <$> xs.
Proof. induction 1 as [|y l [x ->] _ [xs ->]]; [by exists []|]. by exists (x :: xs). Qed.

Lemma list_filter_iff_in {A} (P Q : A -> Prop) `{forall x, Decision (P x), forall x, Decision (Q x)} (l : list A) :
  (forall x, x ∈ l -> P x <-> Q x) -> filter P l = filter Q l.
Proof.
  induction l as [|x l IH]; intros Hl; [done|]. rewrite !filter_cons. rewrite (IH (fun y Hy => Hl y (list_elem_of_further _ _ _ Hy))).
  pose proof (Hl x (list_elem_of_here _ _)). repeat case_decide; tauto || done.
Qed.

Section retries.
Context `{!Hex} `{!Codec Message, !Codec WithdrawFundsResult}.

Definition dedup_ok (l : list Row) (acc : list (bytes * unit) * list Z * list Z) : Prop :=
  let '(data_set, ids, duplicates) := acc in
  btree_sorted compare_bytes data_set /\ (forall k, k ∈ data_set.*1 <-> k ∈ row_encoded <$> l) /\
  length ids = length data_set /\ ids ++ duplicates ≡ₚ row_id <$> l.

Lemma dedup_run l l' acc : dedup_ok l acc -> dedup_ok (l ++ l') (foldl dedup acc l').
Proof.
  revert l acc; induction l' as [|r l' IH]; intros l [[ds ids] dups] Hok; [by rewrite app_nil_r|].
  replace (l ++ r :: l') with ((l ++ [r]) ++ l') by (by rewrite <- app_assoc). cbn [foldl]. apply IH.
  destruct Hok as (Hs & Hk & Hlen & Hp). unfold dedup_ok, dedup. destruct (btree_get compare_bytes (row_encoded r) ds) as [u|] eqn:Eg.
  - split_and!; [done| |done|].
    + intros k. rewrite Hk, fmap_app, elem_of_app. cbn. rewrite list_elem_of_singleton. split; [by left|]. intros [?| ->]; [done|].
      apply (btree_get_elem _ compare_bytes_lawful) in Eg. apply Hk. apply list_elem_of_fmap. eexists. by split; [|exact Eg].
    + rewrite fmap_app, app_assoc, Hp. done.
  - split_and!.
    + apply btree_insert_sorted; [apply compare_bytes_lawful|done].
    + intros k. rewrite btree_insert_keys, Hk, fmap_app, elem_of_app by apply compare_bytes_lawful. cbn. rewrite list_elem_of_singleton. tauto.
    + rewrite length_app, btree_insert_length by done. cbn. lia.
    + rewrite fmap_app, <- Hp. cbn. rewrite <- !app_assoc. apply Permutation_app_head. apply Permutation_app_comm.
Qed.

Lemma find_rows_run table dest name d : to_string dest = Some name -> db_faults d = [] ->
  find_rows table dest d = (Some (Ok (filter (fun r => row_dest r = name) (rows (table d)))), d).
Proof.
  intros Hn Hf. unfold find_rows. rewrite Hn. cbn [or_panic]. unfold bind at 1, ret at 1. by rewrite (try_ok _ _ _ _ _ (execute_ok d Hf)).
Qed.

(** The rows of the table of messages without those of some identifiers. *)
Definition without (ids : list Z) (d : Db) : Db :=
  on_unprofitable (keep_rows (fun r => negb (bool_decide (row_id r ∈ ids)))) d.

Lemma delete_rows_run ids d : db_faults d = [] -> ids ⊆ row_id <$> rows (unprofitable_messages_ d) -> NoDup ids ->
  delete_unprofitable_messages ids d = (Some (Ok tt), without ids d).
Proof.
  intros Hf Hi Hn. unfold delete_unprofitable_messages, delete_rows. rewrite (try_ok _ _ _ _ _ (execute_ok d Hf)). unfold bind at 1, gets.
  rewrite (bool_decide_eq_true_2 _ Hi), (bool_decide_eq_true_2 _ Hn). done.
Qed.

(** What is fetched for a chain is what is stored for it, each message once, however often it was
    stored; and deleting what was fetched, after anything else was done with the database, leaves
    nothing for that chain, and everything for others. *)
Theorem unprofitable_fetched dest name d :
  to_string dest = Some name -> db_faults d = [] -> NoDup (row_id <$> rows (unprofitable_messages_ d)) ->
  Forall (fun r => row_dest r = name -> exists m, row_encoded r = encode (m : Message)) (rows (unprofitable_messages_ d)) ->
  exists d1 found,
    unprofitable_messages dest d = (Some (Ok found), d1) /\ deliveries d1 = deliveries d /\ db_faults d1 = [] /\
    (forall m, m ∈ found.*1 <-> exists r, r ∈ rows (unprofitable_messages_ d) /\ row_dest r = name /\ row_encoded r = encode m) /\
    NoDup found.*1 /\
    forall d', unprofitable_messages_ d' = unprofitable_messages_ d1 -> db_faults d' = [] -> exists d2,
      delete_unprofitable_messages found.*2 d' = (Some (Ok tt), d2) /\ deliveries d2 = deliveries d' /\ db_faults d2 = [] /\
      rows (unprofitable_messages_ d2) = filter (fun r => row_dest r <> name) (rows (unprofitable_messages_ d)).
Proof.
  intros Hn Hf Hnd He. set (mine := filter (fun r => row_dest r = name) (rows (unprofitable_messages_ d))).
  pose proof (dedup_run [] mine ([], [], [])) as Hok. cbn [app] in Hok.
  unfold unprofitable_messages. rewrite (try_ok _ _ _ _ _ (find_rows_run _ dest name d Hn Hf)). fold mine.
  destruct (foldl dedup ([], [], []) mine) as [[ds ids] dups].
  destruct Hok as (Hs & Hk & Hlen & Hp); [split_and!; try done; constructor|].
  assert (Hin : forall r, r ∈ rows (unprofitable_messages_ d) -> row_id r ∈ ids ++ dups <-> row_dest r = name).
  { intros r Hr. rewrite Hp. split.
    - intros (r' & E & [Hname Hr']%list_elem_of_filter)%list_elem_of_fmap. by rewrite (nodup_fmap_inj _ _ _ _ Hnd Hr Hr' E).
    - intros Hname. apply list_elem_of_fmap. exists r. split; [done|]. by apply list_elem_of_filter. }
  assert (Hsub : ids ++ dups ⊆ row_id <$> rows (unprofitable_messages_ d)).
  { intros i. rewrite Hp. intros (r & -> & [_ Hr]%list_elem_of_filter)%list_elem_of_fmap. apply list_elem_of_fmap. eauto. }
  assert (Hnd2 : NoDup (ids ++ dups)).
  { rewrite Hp. apply NoDup_fmap_2_strong; [|by apply NoDup_filter, (NoDup_fmap_1 row_id)].
    intros x y [_ Hx]%list_elem_of_filter [_ Hy]%list_elem_of_filter. by apply (nodup_fmap_inj row_id _ _ _ Hnd). }
  apply NoDup_app in Hnd2 as (Hni & Hdisj & Hnu).
  assert (Hms : exists ms : list Message, ds.*1 = encode <$> ms).
  { apply images_exist. apply Forall_forall. intros k (r & -> & [Hname Hr]%list_elem_of_filter)%Hk%list_elem_of_fmap.
    rewrite Forall_forall in He. by apply He. }
  destruct Hms as [ms Hms]. rewrite Hms in *. assert (Hl : length ms = length ids) by (rewrite Hlen, <- (length_fmap fst ds), Hms; by rewrite length_fmap).
  exists (without dups d), (zip ms ids).
  assert (Hz1 : (zip ms ids).*1 = ms) by (apply fst_zip; lia). assert (Hz2 : (zip ms ids).*2 = ids) by (apply snd_zip; lia).
  rewrite Hz1, Hz2. split_and!.
  - erewrite bind_some; [|apply delete_rows_run; [done| |done]]. 2:{ intros i Hi. apply Hsub, elem_of_app. by right. }
    unfold ret. do 2 f_equal. apply collect_results_ok. clear. revert ids; induction ms as [|m ms IH]; intros [|i ids]; cbn; [done..|].
    rewrite decode_encode. f_equal. apply IH.
  - done.
  - done.
  - intros m. assert (Hm : m ∈ ms <-> encode m ∈ encode <$> ms).
    { rewrite list_elem_of_fmap. split; [by exists m|]. intros (m' & E & Hm'). apply (f_equal (decode (A := Message))) in E. rewrite !decode_encode in E. by injection E as ->. }
    rewrite Hm, (Hk (encode m)), list_elem_of_fmap. unfold mine. setoid_rewrite list_elem_of_filter. naive_solver.
  - apply (NoDup_fmap_1 encode). rewrite <- Hms. by apply (btree_sorted_nodup _ compare_bytes_lawful).
  - intros d' Hd' Hf'. exists (without ids d'). split; [|split; [done|split; [done|]]].
    + apply delete_rows_run; [done| |done]. rewrite Hd'. intros i Hi. assert (i ∈ row_id <$> rows (unprofitable_messages_ d)) as (r & -> & Hr)%list_elem_of_fmap
        by (apply Hsub, elem_of_app; by left).
      apply list_elem_of_fmap. exists r. split; [done|]. cbn. apply list_elem_of_filter. split; [|done].
      apply negb_true_iff, bool_decide_eq_false. by apply Hdisj.
    + cbn. rewrite Hd'. cbn. rewrite list_filter_filter. apply list_filter_iff_in. intros r Hr. rewrite !negb_true_iff, !bool_decide_eq_false, <- (Hin r Hr), elem_of_app. tauto.
Qed.
End retries.
