(* ===== verification/RelayTasks.v ===== *)
(** * The tasks of the relayer

    [tesseract/messaging/src/{lib, retries, get_requests}.rs], [tesseract/relayer/src/fees.rs],
    [tesseract/fisherman/src/lib.rs] and the [ByzantineHandler]s of [tesseract/{evm, substrate}/src/byzantine.rs].
    Each task runs for ever; the definitions are the bodies of their loops, and the loops over the
    items of a stream or a channel. Tasks share the database and the channels of the relayer. What
    the source runs concurrently within a task is run in order. *)

From S2P Require Import Prelude StateMachine Router Messaging ChildTrie PalletTypes SubstrateMachine Apps Tesseract TesseractProps RelayerDb Coprocessor.

Section tasks.
Context `{Keccak256, !Hex} `{!Codec Message, !Codec WithdrawFundsResult} {W : Type} `{!Timer W}.

Abbreviation Task A := (M (Relayer W) (result AnyError A)).

(** ** Channels *)

(** [send] gives the value back when the receiver is gone, which the tasks only log. *)
Definition send_receipts (receipts : list TxReceipt) : M (Relayer W) unit :=
  modify (fun s => mkRelayer (rl_net s) (rl_db s) (option_map (fun q => q ++ [receipts]) (fee_acc_channel s)) (get_request_channel s)).
Definition send_get_requests (item : list GetRequest * StateMachineUpdated) : M (Relayer W) unit :=
  modify (fun s => mkRelayer (rl_net s) (rl_db s) (fee_acc_channel s) (option_map (fun q => q ++ [item]) (get_request_channel s))).

(** ** Messages between two chains ([messaging/src/lib.rs]) *)

(** [filter] with a predicate that may panic. *)
Fixpoint filter_or_panic {A} (p : A -> option bool) (l : list A) : option (list A) :=
  match l with
  | [] => Some []
  | x :: l =>
      match p x with
      | None => None
      | Some keep => (fun rest => if keep then x :: rest else rest) <$> filter_or_panic p l
      end
  end.

Definition get_requests_of (events : list Event) : list GetRequest :=
  omap (fun e => match e with EvGetRequest req => Some req | _ => None end) events.

(** Deliveries are stored before their fees are claimed; failures are logged. *)
Definition record_deliveries (receipts : list TxReceipt) : M (Relayer W) unit :=
  match receipts with
  | [] => ret tt
  | _ => let* _ := on_db (store_messages receipts) in send_receipts receipts
  end.

Definition deliver_messages (chain_a : IsmpProvider W) (coprocessor : StateMachine) (fee_acc_sender : bool)
    (messages : list Message) : M (Relayer W) unit :=
  match messages with
  | [] => ret tt
  | _ =>
      let* res := on_net (submit chain_a messages) in
      match res with
      | Err _ => ret tt
      | Ok receipts =>
          if fee_acc_sender && negb (bool_decide (provider_chain chain_a = coprocessor))
          then record_deliveries (filter (fun r => tx_source r <> coprocessor) receipts) else ret tt
      end
  end.

Definition store_unprofitable (config : RelayerConfig) (unprofitable : list Message) (dest : StateMachine) : M (Relayer W) unit :=
  match unprofitable, unprofitable_retry_frequency config with
  | _ :: _, Some _ => let* _ := on_db (store_unprofitable_messages unprofitable dest) in ret tt
  | _, _ => ret tt
  end.

(** Chain B was updated to a new height on chain A: what it has sent since [previous_height] is
    delivered to chain A. The new [previous_height] is returned whatever happens. *)
Definition handle_update (chain_a chain_b : IsmpProvider W) (update : StateMachineUpdated) (previous_height : Z)
    (config : RelayerConfig) (coprocessor : StateMachine) (client_map : ClientMap W)
    (fee_acc_sender get_request_sender : bool) : M (Relayer W) (Z * result AnyError unit) :=
  let* result := on_net (query_ismp_events chain_b previous_height update) in
  let* events := match result with
    | Ok events =>
        let* _ := match get_request_sender, get_requests_of events with
                  | true, _ :: _ => send_get_requests (get_requests_of events, update)
                  | _, _ => ret tt
                  end in
        or_panic (filter_or_panic (filter_events config coprocessor (provider_chain chain_a)) events)
    | Err _ => ret []
    end in
  match events with
  | [] => ret (smu_latest_height update, Ok tt)
  | _ =>
      let height := mkStateMachineHeight (smu_state_machine_id update) (smu_latest_height update) in
      let* r :=
        let? (messages, unprofitable) := on_net (translate_events_to_messages chain_b chain_a events height config coprocessor client_map) in
        let* _ := deliver_messages chain_a coprocessor fee_acc_sender messages in
        let* _ := store_unprofitable config unprofitable (provider_chain chain_a) in
        ret (Ok tt) in
      ret (smu_latest_height update, r)
  end.

(** Errors of an update and of the stream are logged. *)
Fixpoint handle_updates (chain_a chain_b : IsmpProvider W) (config : RelayerConfig) (coprocessor : StateMachine)
    (client_map : ClientMap W) (fee_acc_sender get_request_sender : bool) (previous_height : Z)
    (items : list (result StreamError StateMachineUpdated)) : M (Relayer W) Z :=
  match items with
  | [] => ret previous_height
  | Err _ :: items => handle_updates chain_a chain_b config coprocessor client_map fee_acc_sender get_request_sender previous_height items
  | Ok update :: items =>
      let* (previous_height, _) := handle_update chain_a chain_b update previous_height config coprocessor client_map
        fee_acc_sender get_request_sender in
      handle_updates chain_a chain_b config coprocessor client_map fee_acc_sender get_request_sender previous_height items
  end.

(** The task ends, with an error, when the stream does. *)
Definition handle_notification (chain_a chain_b : IsmpProvider W) (config : RelayerConfig) (coprocessor : StateMachine)
    (client_map : ClientMap W) (fee_acc_sender get_request_sender : bool) : Task unit :=
  let? stream := on_net (state_machine_update_notification chain_a (state_machine_id chain_b)) in
  let* _ := handle_updates chain_a chain_b config coprocessor client_map fee_acc_sender get_request_sender (initial_height chain_b) stream in
  ret (Err (AnyMessage (lit "messaging task has failed, Please restart relayer"))).

(** ** Fees *)

(** [HashMap] of the receipts by the chain they came from, in its order of iteration. *)
Definition group_receipts (receipts : list TxReceipt) : gmap StateMachine (list TxReceipt) :=
  foldl (fun groups r => <[tx_source r := default [] (groups !! tx_source r) ++ [r]]> groups) ∅ receipts.

Definition accumulate_group (fuel : nat) (hyperbridge : IsmpProvider W) (claims : HyperbridgeClaim W) (dest : IsmpProvider W)
    (client_map : ClientMap W) (dest_height : Z) (group : StateMachine * list TxReceipt) : Task unit :=
  match client_map !! group.1 with
  | None => ret (Err (AnyMessage (lit "Client not found in config, fees cannot be accumulated")))
  | Some source_chain =>
      let? source_height := on_net (query_latest_height hyperbridge (state_machine_id source_chain)) in
      let? proofs := on_net (create_proof_from_receipts source_height dest_height source_chain dest group.2) in
      let? _ := on_net (observe_challenge_period fuel source_chain hyperbridge source_height) in
      let? _ := on_net (observe_challenge_period fuel dest hyperbridge dest_height) in
      let? _ := for_each proofs (fun proof => on_net (submit_accumulate_fees claims proof)) in
      let* _ := on_db (delete_claimed_entries (concat (wp_commitments <$> proofs))) in
      ret (Ok tt)
  end.

(** The receipts of one message of the channel. *)
Definition accumulate_receipts (fuel : nat) (hyperbridge : IsmpProvider W) (claims : HyperbridgeClaim W) (dest : IsmpProvider W)
    (client_map : ClientMap W) (receipts : list TxReceipt) : M (Relayer W) unit :=
  match receipts with
  | [] => ret tt
  | _ =>
      let delivery_height := foldr Z.max 0 (tx_height <$> receipts) in
      let* waited := on_net (wait_for_state_machine_update fuel (state_machine_id dest) hyperbridge dest delivery_height) in
      match waited with
      | Err _ => let* _ := on_db (store_messages receipts) in ret tt
      | Ok dest_height =>
          let* _ := map_m (accumulate_group fuel hyperbridge claims dest client_map dest_height) (map_to_list (group_receipts receipts)) in
          ret tt
      end
  end.

(** ** Retries ([messaging/src/retries.rs]) *)

Definition higher (acc : option StateMachineHeight) (height : StateMachineHeight) : option StateMachineHeight :=
  match acc with
  | Some h => if smh_height h <? smh_height height then Some height else Some h
  | None => Some height
  end.

(** A stored message: what it carries, its query, and its height; malformed ones panic. *)
Definition sort_stored (acc : SortedMessages * list Z * option StateMachineHeight) (item : Message * Z) :
    option (SortedMessages * list Z * option StateMachineHeight) :=
  let '(mkSorted posts post_queries request_messages responses response_queries response_messages, ids, height) := acc in
  let '(message, id) := item in
  match message with
  | MsgRequest msg =>
      post ← head (rm_requests msg);
      query ← query_of_request (RequestPost post);
      Some (mkSorted (posts ++ [post]) (post_queries ++ [query]) (request_messages ++ [message]) responses response_queries response_messages,
            ids ++ [id], higher height (proof_height (rm_proof msg)))
  | MsgResponse msg =>
      match rsm_datagram msg with
      | RRResponse resps =>
          first ← head resps;
          match first with
          | ResponsePost _ =>
              query ← query_of_response first;
              Some (mkSorted posts post_queries request_messages (responses ++ [first]) (response_queries ++ [query]) (response_messages ++ [message]),
                    ids ++ [id], higher height (proof_height (rsm_proof msg)))
          | ResponseGet _ => None
          end
      | RRRequest _ => None
      end
  | _ => None
  end.

Fixpoint sort_all_stored (acc : SortedMessages * list Z * option StateMachineHeight) (items : list (Message * Z)) :
    option (SortedMessages * list Z * option StateMachineHeight) :=
  match items with [] => Some acc | item :: items => acc' ← sort_stored acc item; sort_all_stored acc' items end.

(** Batches whose proof cannot be had are left out. *)
Definition prove_available {A} (prove : Z -> list Query -> Net W bytes) (build : StateMachineHeight -> list A -> bytes -> Message)
    (size : nat) (height : option StateMachineHeight) (queries : list Query) (items : list A) : M W (list Message) :=
  match queries with
  | [] => ret []
  | _ =>
      let* query_chunks := or_panic (chunks size queries) in
      let* item_chunks := or_panic (chunks size items) in
      let* messages := map_m (fun batch =>
        match height with
        | None => ret None
        | Some height =>
            let* proof := prove (smh_height height) batch.1 in
            ret (match proof with Ok proof => Some (build height batch.2 proof) | Err _ => None end)
        end) (zip query_chunks item_chunks) in
      ret (omap id messages)
  end.

(** One kind of messages: what goes out, and what stays unprofitable. An error is logged. *)
Definition retry_kind {A} (dest : IsmpProvider W) (config : RelayerConfig) (coprocessor : StateMachine) (client_map : ClientMap W)
    (prove : Z -> list Query -> Net W bytes) (build : StateMachineHeight -> list A -> bytes -> Message)
    (height : option StateMachineHeight) (messages : list Message) (queries : list Query) (items : list A) :
    M W (list Message * list Message) :=
  let* r := return_successful_queries dest messages queries (minimum_profit_percentage config) coprocessor client_map
    (default false (deliver_failed config)) in
  match r with
  | Err _ => ret ([], [])
  | Ok profitability =>
      let* outgoing := prove_available prove build (chunk_size (provider_chain dest)) height
        (omap id (pf_queries profitability)) (relayed items (pf_queries profitability)) in
      ret (outgoing, pf_retriable_messages profitability)
  end.

(** Messages that time out are not stored again. *)
Definition still_live (dest_timestamp : Duration) (msg : Message) : option bool :=
  match msg with
  | MsgRequest req_msg => post ← head (rm_requests req_msg); Some (negb (request_timed_out (RequestPost post) dest_timestamp))
  | MsgResponse res_msg =>
      match rsm_datagram res_msg with
      | RRRequest _ => None
      | RRResponse responses => res ← head responses; Some (negb (response_timed_out res dest_timestamp))
      end
  | _ => Some false
  end.

Definition submit_again (dest : IsmpProvider W) (outgoing : list Message) : M (Relayer W) unit :=
  match outgoing with
  | [] => ret tt
  | _ =>
      let* res := on_net (submit dest outgoing) in
      match res with Ok receipts => record_deliveries receipts | Err _ => ret tt end
  end.

(** One tick of the interval. *)
Definition retry_unprofitable_messages (dest hyperbridge : IsmpProvider W) (client_map : ClientMap W) (config : RelayerConfig)
    (coprocessor : StateMachine) : Task unit :=
  let* fetched := on_db (unprofitable_messages (provider_chain dest)) in
  match fetched with
  | Err _ | Ok [] => ret (Ok tt)
  | Ok unprofitables =>
      let* (sorted, ids, height) := or_panic (sort_all_stored (nothing_sorted, [], None) unprofitables) in
      let* (outgoing_requests, unprofitable_requests) := on_net (retry_kind dest config coprocessor client_map
        (fun at_ queries => query_requests_proof hyperbridge at_ queries (provider_chain dest))
        (fun height => request_batch height (address dest)) height
        (so_request_messages sorted) (so_post_request_queries sorted) (so_post_requests sorted)) in
      let* (outgoing_responses, unprofitable_responses) := on_net (retry_kind dest config coprocessor client_map
        (fun at_ queries => query_responses_proof hyperbridge at_ queries (provider_chain dest))
        (fun height => response_batch height (address dest)) height
        (so_response_messages sorted) (so_response_queries sorted) (so_post_responses sorted)) in
      let* _ := submit_again dest (outgoing_requests ++ outgoing_responses) in
      let* _ := on_db (delete_unprofitable_messages ids) in
      match unprofitable_requests ++ unprofitable_responses with
      | [] => ret (Ok tt)
      | new_unprofitable =>
          let? dest_timestamp := on_net (query_timestamp dest) in
          let* retriable := or_panic (filter_or_panic (still_live dest_timestamp) new_unprofitable) in
          let* _ := on_db (store_unprofitable_messages retriable (provider_chain dest)) in
          ret (Ok tt)
      end
  end.

(** ** GET requests ([messaging/src/get_requests.rs]) *)

(** [HandleGetResponse] of hyperbridge. *)
Record GetResponder : Type := mkGetResponder {
  dry_run_submission : GetRequestsWithProof -> Net W unit;
  submit_get_response : GetRequestsWithProof -> Net W unit
}.

(** [HashMap] of the requests that are not timed out, by chain and height, in its order of
    iteration. *)
Definition group_gets (hyperbridge_timestamp : Duration) (requests : list GetRequest) : gmap (StateMachine * Z) (list GetRequest) :=
  foldl (fun groups req =>
    if request_timed_out (RequestGet req) hyperbridge_timestamp then groups
    else <[(get_dest req, get_height req) := default [] (groups !! (get_dest req, get_height req)) ++ [req]]> groups) ∅ requests.

(** The message for one group, if the chain is known and both proofs can be had. *)
Definition get_message (source : IsmpProvider W) (client_map : ClientMap W) (update : StateMachineUpdated)
    (group : StateMachine * Z * list GetRequest) : M W (option GetRequestsWithProof) :=
  let '(state_machine, height, requests) := group in
  match client_map !! state_machine with
  | None => ret None
  | Some client =>
      let* commitments := or_panic (mapM (fun req => hash_request (RequestGet req)) requests) in
      let* source_proof := query_state_proof source (smu_latest_height update)
        (QueryIsmp (concat (request_commitment_full_key source <$> commitments))) in
      match source_proof with
      | Err _ => ret None
      | Ok source_proof =>
          let* storage_proof := query_state_proof client height (QueryArbitrary (concat (get_keys <$> requests))) in
          ret (match storage_proof with
               | Err _ => None
               | Ok storage_proof => Some (mkGetRequestsWithProof requests
                   (mkProof (mkStateMachineHeight (smu_state_machine_id update) (smu_latest_height update)) source_proof)
                   (mkProof (mkStateMachineHeight (state_machine_id client) height) storage_proof) (address source))
               end)
      end
  end.

(** [expect] panics if the client that made the proof is not found by the chain it reports. *)
Definition submit_get_message (fuel : nat) (source hyperbridge : IsmpProvider W) (responder : GetResponder) (client_map : ClientMap W)
    (msg : GetRequestsWithProof) : M W unit :=
  let* dest := or_panic (client_map !! smi_state_id (smh_id (proof_height (gp_response msg)))) in
  let* _ :=
    let? _ := observe_challenge_period fuel source hyperbridge (smh_height (proof_height (gp_source msg))) in
    let? _ := observe_challenge_period fuel dest hyperbridge (smh_height (proof_height (gp_response msg))) in
    let? _ := dry_run_submission responder msg in
    submit_get_response responder msg in
  ret tt.

(** The requests of one message of the channel. *)
Definition process_get_requests (fuel : nat) (source hyperbridge : IsmpProvider W) (responder : GetResponder) (client_map : ClientMap W)
    (item : list GetRequest * StateMachineUpdated) : M W unit :=
  let '(get_requests, update) := item in
  match get_requests with
  | [] => ret tt
  | _ =>
      let* timestamp := query_timestamp hyperbridge in
      match timestamp with
      | Err _ => ret tt
      | Ok hyperbridge_timestamp =>
          let* messages := map_m (fun group => get_message source client_map update (group.1.1, group.1.2, group.2))
            (map_to_list (group_gets hyperbridge_timestamp get_requests)) in
          let* _ := map_m (submit_get_message fuel source hyperbridge responder client_map) (omap id messages) in
          ret tt
      end
  end.

(** ** Withdrawals ([relayer/src/fees.rs]) *)

(** [while count != 0]: as many attempts as [count]. *)
Fixpoint submit_up_to (count : nat) (dest_chain : IsmpProvider W) (message : Message) : Net W unit :=
  match count with
  | O => ret (Err (AnyMessage (lit "Failed to deliver post request")))
  | S count =>
      let* res := submit dest_chain [message] in
      match res with Ok _ => ret (Ok tt) | Err _ => submit_up_to count dest_chain message end
  end.

Definition deliver_post_request (dest_chain hyperbridge : IsmpProvider W) (result : WithdrawFundsResult) : Net W unit :=
  let? known_height := query_latest_height dest_chain (state_machine_id hyperbridge) in
  let? latest_height :=
    if known_height <? wf_block result then
      let? stream := state_machine_update_notification dest_chain (state_machine_id hyperbridge) in
      ret (ok_or (find_map (reaches (wf_block result)) stream) (AnyMessage (lit "Error waiting for state machine update")))
    else ret (Ok known_height) in
  let* query := or_panic (query_of_request (RequestPost (wf_post result))) in
  let? proof := query_requests_proof hyperbridge latest_height [query] (provider_chain dest_chain) in
  submit_up_to 5 dest_chain
    (request_batch (mkStateMachineHeight (state_machine_id hyperbridge) latest_height) (address dest_chain) [wf_post result] proof).

(** The body of [withdraw] and of [auto_withdraw] for one chain: they differ in the least amount. *)
Definition withdraw_chain (hyperbridge : IsmpProvider W) (claims : HyperbridgeClaim W) (minimum : Z) (chain : StateMachine)
    (client : IsmpProvider W) : Task unit :=
  let? pending := on_db (pending_withdrawals chain) in
  let? _ := for_each pending.*1 (fun p => on_net (deliver_post_request client hyperbridge p)) in
  let* _ := on_db (delete_pending_withdrawals pending.*2) in
  let? amount := on_net (available_amount claims client chain) in
  if amount <? minimum then ret (Ok tt)
  else
    let? result := on_net (withdraw_funds claims client chain) in
    let? ids := on_db (store_pending_withdrawals [result]) in
    let* delivered := on_net (deliver_post_request client hyperbridge result) in
    match delivered with
    | Ok _ => let* _ := on_db (delete_pending_withdrawals ids) in ret (Ok tt)
    | Err _ => ret (Ok tt)
    end.

Definition MANUAL_MINIMUM : Z := 10 * 10 ^ 18.
Definition auto_minimum (config : RelayerConfig) : Z :=
  match minimum_withdrawal_amount config with Some val => Z.max val 10 | None => 100 end * 10 ^ 18.

(** Claims for the deliveries of one direction, up to the height to which the chain is known. *)
Definition claim_direction (fuel : nat) (wait : bool) (hyperbridge : IsmpProvider W) (claims : HyperbridgeClaim W)
    (source dest : IsmpProvider W) (source_height dest_height : Z) (delivery_height : option Z) : Task unit :=
  match delivery_height with
  | None => ret (Ok tt)
  | Some height =>
      let? known :=
        if (dest_height <? height) && wait then
          let? h := on_net (wait_for_state_machine_update fuel (state_machine_id dest) hyperbridge dest height) in ret (Ok (Some h))
        else ret (Ok (if height <=? dest_height then Some dest_height else None)) in
      match known with
      | None => ret (Ok tt)
      | Some height =>
          let? proofs := create_claim_proof source_height height source dest claims in
          let? _ := match proofs with [] => ret (Ok tt) | _ => on_net (observe_challenge_period fuel dest hyperbridge height) end in
          for_each proofs (fun proof =>
            let? _ := on_net (submit_accumulate_fees claims proof) in
            let* _ := on_db (delete_claimed_entries (wp_commitments proof)) in
            ret (Ok tt))
      end
  end.

(** The body of [accumulate_fees] for a pair of chains. *)
Definition accumulate_pair (fuel : nat) (wait : bool) (hyperbridge : IsmpProvider W) (claims : HyperbridgeClaim W)
    (source dest : IsmpProvider W) : Task unit :=
  let? source_height := on_net (query_latest_height hyperbridge (state_machine_id source)) in
  let? dest_height := on_net (query_latest_height hyperbridge (state_machine_id dest)) in
  let? to_dest := on_db (highest_delivery_height (provider_chain source) (provider_chain dest)) in
  let? to_source := on_db (highest_delivery_height (provider_chain dest) (provider_chain source)) in
  let? _ := claim_direction fuel wait hyperbridge claims source dest source_height dest_height to_dest in
  claim_direction fuel wait hyperbridge claims dest source dest_height source_height to_source.

(** ** Fishermen *)

(** A chain seen by its own node: the state root of a block, [None] for a block it does not have. For
    the coprocessor it is the root of the child trie. *)
Record ByzantineHandler : Type := mkByzantineHandler {
  bh_provider : IsmpProvider W;
  bh_state_root : Z -> Net W (option H256)
}.

Definition check_for_byzantine_attack (chain : ByzantineHandler) (counterparty : IsmpProvider W) (event : StateMachineUpdated) : Net W unit :=
  let height := mkStateMachineHeight (state_machine_id (bh_provider chain)) (smu_latest_height event) in
  let? header := bh_state_root chain (smu_latest_height event) in
  match header with
  | None => let? _ := veto_state_commitment counterparty height in ret (Ok tt)
  | Some state_root =>
      let? commitment := query_state_machine_commitment counterparty height in
      if bool_decide (sc_state_root commitment = state_root) then ret (Ok tt)
      else let? _ := veto_state_commitment counterparty height in ret (Ok tt)
  end.

(** The handlers differ in how they read the root. An EVM node returns it with the block. *)
Definition evm_handler (provider : IsmpProvider W) (get_block : Z -> Net W (option H256)) : ByzantineHandler :=
  mkByzantineHandler provider get_block.

(** The RPC of a substrate node: the hash of a block, and a header by hash. *)
Record SubstrateNode : Type := mkSubstrateNode {
  sn_block_hash : Z -> Net W (option H256);
  sn_header : H256 -> Net W (option (H256 * list DigestItem))
}.

Definition substrate_state_root `{!TrieDb, !SlotCodec, !Codec ConsensusDigest} (provider : IsmpProvider W) (coprocessor : StateMachine)
    (node : SubstrateNode) (height : Z) : Net W (option H256) :=
  let? block_hash := sn_block_hash node height in
  match block_hash with
  | None => ret (Ok None)
  | Some block_hash =>
      let? found := sn_header node block_hash in
      match found with
      | None => ret (Err (AnyMessage (lit "Failed to get block header in byzantine handler")))
      | Some (root, digest) =>
          let* digest_result := or_panic (fetch_overlay_root_and_timestamp digest 0) in
          match digest_result with
          | Err _ => ret (Err (AnyMessage (lit "Failed to extract disgest logs in byzantine handler")))
          | Ok d => ret (Ok (Some (if bool_decide (provider_chain provider = coprocessor)
                                   then cd_child_trie_root (dr_ismp_digest d) else root)))
          end
      end
  end.
Definition substrate_handler `{!TrieDb, !SlotCodec, !Codec ConsensusDigest} (provider : IsmpProvider W) (coprocessor : StateMachine)
    (node : SubstrateNode) : ByzantineHandler := mkByzantineHandler provider (substrate_state_root provider coprocessor node).

(** The updates of the stream one by one; errors are logged. *)
Definition fish (chain : ByzantineHandler) (counterparty : IsmpProvider W) (items : list (result StreamError (list StateMachineUpdated))) :
    M W unit :=
  let* _ := map_m (fun item => match item with
                               | Ok updates => let* _ := map_m (check_for_byzantine_attack chain counterparty) updates in ret tt
                               | Err _ => ret tt
                               end) items in
  ret tt.

(** Which events a fisherman gets to see: the one for EVM chains does not look at the chain. *)
Definition evm_updates (counterparty : StateMachineId) (events : list Event) : list StateMachineUpdated :=
  omap (fun e => match e with EvStateMachineUpdated u => Some u | _ => None end) events.
Definition substrate_updates (counterparty : StateMachineId) (events : list Event) : list StateMachineUpdated :=
  omap (fun e => match e with
                 | EvStateMachineUpdated u => if bool_decide (smu_state_machine_id u = counterparty) then Some u else None
                 | _ => None end) events.

End tasks.
