(* ===== verification/TaskProps.v ===== *)
(** * The tasks of the relayer: theorems

    What one update delivers and records, what a retry does with what was stored, that
    withdrawals are not forgotten, and what fishermen achieve against the pallet. *)

From S2P Require Import Prelude StateMachine Router Messaging Host Handlers HostSpec ChildTrie PalletTypes PalletHost PalletRefines Pallet PalletFrames Apps Fishermen Tesseract TesseractProps RelayerDb RelayTasks.

(** ** Steps on parts of the relayer *)

Definition set_net {W} (w : W) (s : Relayer W) : Relayer W := mkRelayer w (rl_db s) (fee_acc_channel s) (get_request_channel s).
Definition set_db {W} (d : Db) (s : Relayer W) : Relayer W := mkRelayer (rl_net s) d (fee_acc_channel s) (get_request_channel s).

Lemma on_net_step {W A} (m : M W A) (s : Relayer W) r w : m (rl_net s) = (r, w) -> on_net m s = (r, set_net w s).
Proof. unfold on_net. by intros ->. Qed.

Lemma on_db_step {W A} (m : M Db A) (s : Relayer W) r d : m (rl_db s) = (r, d) -> on_db m s = (r, set_db d s).
Proof. unfold on_db. by intros ->. Qed.

(** The messages that are stored: the chain they are for, and their encoding. *)
Definition stored (t : Table Row) : list (bytes * bytes) := (fun r => (row_dest r, row_encoded r)) <$> rows t.

Lemma stored_create new t :
  stored (create ((fun x id => mkRow id x.1 x.2) <$> new) t) = stored t ++ new.
Proof.
  revert t; induction new as [|[dest e] new IH]; intros t; cbn [fmap list_fmap create]; [by rewrite app_nil_r|].
  rewrite IH. unfold stored. cbn [rows]. rewrite fmap_app, <- app_assoc. done.
Qed.

Section storing.
Context `{!Hex} `{!Codec Message, !Codec WithdrawFundsResult}.

Lemma store_unprofitable_run ms dest name d : to_string dest = Some name -> db_faults d = [] ->
  exists ids d', store_unprofitable_messages ms dest d = (Some (Ok ids), d') /\ deliveries d' = deliveries d /\
    pending_withdrawal d' = pending_withdrawal d /\ db_faults d' = [] /\
    stored (unprofitable_messages_ d') = stored (unprofitable_messages_ d) ++ ((fun m => (name, encode m)) <$> ms).
Proof.
  intros Hn Hf. unfold store_unprofitable_messages, create_rows.
  assert (Hm : mapM (fun item : Message => name ← to_string dest; Some (name, encode item)) ms = Some ((fun m => (name, encode m)) <$> ms)).
  { rewrite Hn. apply mapM_Some. apply Forall2_fmap_r, Forall_Forall2_diag, Forall_true. done. }
  rewrite Hm. cbn [or_panic]. unfold bind at 1, ret at 1. rewrite (try_ok _ _ _ _ _ (execute_ok d Hf)).
  unfold bind, gets, modify, ret. do 2 eexists. split; [done|]. split_and!; try done. cbn. by rewrite stored_create.
Qed.

End storing.

(** ** One update *)

Section update.
Context `{Keccak256, !Hex, !HexLaws} `{!Codec Message, !Codec WithdrawFundsResult} {W : Type} `{!Timer W}.

(** A batch goes to a chain: an empty one is not sent. *)
Definition sent (p : IsmpProvider W) (msgs : list Message) (w : W) (receipts : list TxReceipt) (w' : W) : Prop :=
  match msgs with
  | [] => receipts = [] /\ w' = w
  | _ => submit p msgs w = (Some (Ok receipts), w')
  end.

Definition named (rc : TxReceipt) : Prop :=
  is_Some (to_string (qy_source_chain (tx_query rc))) /\ is_Some (to_string (qy_dest_chain (tx_query rc))).

(** The queue of a channel after a value was sent, which is not done for an empty one. *)
Definition queued {A B} (l : list A) (x : B) (q : option (list B)) : option (list B) :=
  match l with [] => q | _ => (fun q => q ++ [x]) <$> q end.

Lemma record_deliveries_run receipts (s : Relayer W) rcs : ledger (rl_db s) rcs -> db_faults (rl_db s) = [] -> Forall named receipts ->
  exists d', record_deliveries receipts s
    = (Some tt, mkRelayer (rl_net s) d' (queued receipts receipts (fee_acc_channel s)) (get_request_channel s)) /\
    ledger d' (rcs ++ receipts) /\ db_faults d' = [] /\ unprofitable_messages_ d' = unprofitable_messages_ (rl_db s).
Proof.
  intros Hl Hf Hn. destruct receipts as [|rc receipts].
  - exists (rl_db s). rewrite app_nil_r. split; [by destruct s|done].
  - destruct (store_messages_run (rc :: receipts) (rl_db s) rcs Hl Hf Hn) as (d' & Hst & Hl' & Hf' & Hu).
    exists d'. split; [|done]. unfold record_deliveries. rewrite (bind_some _ _ _ _ _ (on_db_step _ s _ _ Hst)). done.
Qed.

Context (chain_a chain_b : IsmpProvider W) (clients : ClientMap W) (sa oa : Answers) (ca : StateMachine -> Answers).
Context (config : RelayerConfig) (coprocessor : StateMachine) (allowed : bytes -> bool).
Context (rq : PostRequest -> Query) (pq : PostResponse -> Query) (update : StateMachineUpdated).

Let height : StateMachineHeight := mkStateMachineHeight (smu_state_machine_id update) (smu_latest_height update).

(** What the events of an update come to: the batches to send, and the messages to keep. *)
Definition to_relay (events : list Event) : list Message :=
  let size := chunk_size (provider_chain chain_a) in
  batched (request_batch height (address chain_a)) (prove_requests chain_a oa height) id rq size
    (filter (fun p => request_outcome chain_a clients sa oa ca config coprocessor height rq p = Relay) (live_posts sa allowed events))
  ++ batched (response_batch height (address chain_a)) (prove_responses chain_a oa height) ResponsePost pq size
    (filter (fun r => response_outcome chain_a clients sa oa ca config coprocessor height pq r = Relay) (live_responses sa allowed events)).
Definition to_keep (events : list Event) : list Message :=
  (request_alone chain_a oa height rq
     <$> filter (fun p => request_outcome chain_a clients sa oa ca config coprocessor height rq p = Retry) (live_posts sa allowed events))
  ++ (response_alone chain_a oa height pq
     <$> filter (fun r => response_outcome chain_a clients sa oa ca config coprocessor height pq r = Retry) (live_responses sa allowed events)).

Lemma deliver_run msgs fee_acc_sender (s : Relayer W) rcs receipts w' :
  ledger (rl_db s) rcs -> db_faults (rl_db s) = [] -> sent chain_a msgs (rl_net s) receipts w' -> Forall named receipts ->
  let recorded := if fee_acc_sender && negb (bool_decide (provider_chain chain_a = coprocessor))
                  then filter (fun r => tx_source r <> coprocessor) receipts else [] in
  exists d', deliver_messages chain_a coprocessor fee_acc_sender msgs s
    = (Some tt, mkRelayer w' d' (queued recorded recorded (fee_acc_channel s)) (get_request_channel s)) /\
    ledger d' (rcs ++ recorded) /\ db_faults d' = [] /\ unprofitable_messages_ d' = unprofitable_messages_ (rl_db s).
Proof.
  intros Hl Hf Hs Hn recorded. destruct msgs as [|m msgs].
  - destruct Hs as [-> ->]. assert (recorded = []) as -> by (subst recorded; by destruct (_ && _)). exists (rl_db s).
    rewrite app_nil_r. split; [by destruct s|done].
  - unfold deliver_messages. rewrite (bind_some _ _ _ _ _ (on_net_step _ s _ _ Hs)). subst recorded. destruct (_ && _).
    + destruct (record_deliveries_run (filter (fun r => tx_source r <> coprocessor) receipts) (set_net w' s) rcs Hl Hf) as (d' & Hr & Hrest).
      { apply Forall_forall. intros rc [_ Hrc]%list_elem_of_filter. rewrite Forall_forall in Hn. auto. }
      exists d'. by rewrite Hr.
    + exists (rl_db s). rewrite app_nil_r. by split.
Qed.

(** C11: what an update of chain B on chain A does. When the chains give steady answers, the query of
    events and the submission succeed, the database has no faults and retries are configured, the events
    since the last height that chain A is to have are translated; the batches that are worth their
    delivery are submitted to chain A once; the receipts of messages that were not sent by the
    coprocessor are written to the table of deliveries and handed to the task that claims fees,
    unless chain A is the coprocessor; messages that are not worth it yet are stored for chain A; GET
    requests go to their task; and the next update continues from the new height. *)
Theorem update_relayed previous_height fee_acc_sender get_request_sender retry_every name s rcs found events receipts w1 w2 :
  fixed_answers chain_b chain_a clients sa oa ca config allowed ->
  query_ismp_events chain_b previous_height update (rl_net s) = (Some (Ok found), w1) ->
  filter_or_panic (filter_events config coprocessor (provider_chain chain_a)) found = Some events ->
  Forall (hashed rq pq) events ->
  sent chain_a (to_relay events) w1 receipts w2 -> Forall named receipts ->
  ledger (rl_db s) rcs -> db_faults (rl_db s) = [] ->
  unprofitable_retry_frequency config = Some retry_every -> to_string (provider_chain chain_a) = Some name ->
  let recorded := if fee_acc_sender && negb (bool_decide (provider_chain chain_a = coprocessor))
                  then filter (fun r => tx_source r <> coprocessor) receipts else [] in
  exists d',
    handle_update chain_a chain_b update previous_height config coprocessor clients fee_acc_sender get_request_sender s
    = (Some (smu_latest_height update, Ok tt),
       mkRelayer w2 d' (queued recorded recorded (fee_acc_channel s))
         (if get_request_sender then queued (get_requests_of found) (get_requests_of found, update) (get_request_channel s)
          else get_request_channel s)) /\
    ledger d' (rcs ++ recorded) /\
    stored (unprofitable_messages_ d') = stored (unprofitable_messages_ (rl_db s)) ++ ((fun m => (name, encode m)) <$> to_keep events).
Proof.
  intros FA Hq Hfil Hh Hs Hn Hl Hf Hfreq Hname recorded. unfold handle_update. rewrite (bind_some _ _ _ _ _ (on_net_step _ s _ _ Hq)).
  set (channel := if get_request_sender then queued (get_requests_of found) (get_requests_of found, update) (get_request_channel s)
    else get_request_channel s). set (s1 := mkRelayer w1 (rl_db s) (fee_acc_channel s) channel).
  assert (Hev : (let* _ := match get_request_sender, get_requests_of found with
                  | true, _ :: _ => send_get_requests (get_requests_of found, update)
                  | _, _ => ret tt
                  end in or_panic (filter_or_panic (filter_events config coprocessor (provider_chain chain_a)) found)) (set_net w1 s)
    = (Some events, s1)).
  { rewrite Hfil. subst s1 channel. destruct get_request_sender; [|done]. by destruct (get_requests_of found). }
  rewrite (bind_some _ _ _ _ _ Hev). clear Hev.
  destruct (deliver_run (to_relay events) fee_acc_sender s1 rcs receipts w2 Hl Hf Hs Hn) as (d1 & Hd & Hl1 & Hf1 & Hu1). fold recorded in Hd, Hl1.
  destruct (store_unprofitable_run (to_keep events) (provider_chain chain_a) name d1 Hname Hf1) as (ids & d2 & Hst & Hd2 & _ & _ & Hr2).
  assert (Hkeep : exists d', store_unprofitable config (to_keep events) (provider_chain chain_a)
      (mkRelayer w2 d1 (queued recorded recorded (fee_acc_channel s)) channel)
    = (Some tt, mkRelayer w2 d' (queued recorded recorded (fee_acc_channel s)) channel) /\ ledger d' (rcs ++ recorded) /\
      stored (unprofitable_messages_ d') = stored (unprofitable_messages_ d1) ++ ((fun m => (name, encode m)) <$> to_keep events)).
  { unfold store_unprofitable. rewrite Hfreq. destruct (to_keep events) as [|m ms] eqn:Ek.
    - exists d1. cbn. by rewrite app_nil_r.
    - exists d2. split; [by rewrite (bind_some _ _ _ _ _ (on_db_step _ (mkRelayer w2 d1 _ _) _ _ Hst))|]. split; [|done]. unfold ledger. by rewrite Hd2. }
  destruct Hkeep as (d' & Hk & Hl' & Hr'). exists d'. rewrite Hr', Hu1. split; [|done].
  destruct events as [|ev evs] eqn:Ee; rewrite <- ?Ee in *.
  - subst events. change (ret tt s1 = (Some tt, mkRelayer w2 d1 (queued recorded recorded (fee_acc_channel s)) channel)) in Hd.
    change (ret tt (mkRelayer w2 d1 (queued recorded recorded (fee_acc_channel s)) channel)
      = (Some tt, mkRelayer w2 d' (queued recorded recorded (fee_acc_channel s)) channel)) in Hk.
    apply ret_inv in Hd as [_ Hd], Hk as [_ Hk]. by rewrite <- Hk, <- Hd.
  - fold height. unfold bind at 1.
    erewrite (try_ok _ _ _ _ _ (on_net_step _ s1 _ _ (translate_selects _ _ _ _ _ _ _ _ height _ _ _ FA events w1 Hh))).
    change (set_net w1 s1) with s1. fold (to_relay events) (to_keep events). rewrite (bind_some _ _ _ _ _ Hd). by rewrite (bind_some _ _ _ _ _ Hk).
Qed.

End update.

(** ** Withdrawals *)

Lemma on_net_inv {W A} (m : M W A) (s : Relayer W) o s' : on_net m s = (o, s') -> exists w, m (rl_net s) = (o, w) /\ s' = set_net w s.
Proof. unfold on_net. destruct (m (rl_net s)) as [r w]. intros [= <- <-]. by exists w. Qed.

Lemma on_db_inv {W A} (m : M Db A) (s : Relayer W) o s' : on_db m s = (o, s') -> exists d, m (rl_db s) = (o, d) /\ s' = set_db d s.
Proof. unfold on_db. destruct (m (rl_db s)) as [r d]. intros [= <- <-]. by exists d. Qed.

(** Identifiers are unique, and those of later rows are new. *)
Definition table_wf (t : Table Row) : Prop := NoDup (row_id <$> rows t) /\ Forall (fun r => row_id r < next_id t) (rows t).

Section withdrawals.
Context `{Keccak256, !Hex} `{!Codec Message, !Codec WithdrawFundsResult} {W : Type} `{!Timer W}.
Implicit Types (client hyperbridge : IsmpProvider W) (s : Relayer W).

(** Some message with the request of a withdrawal was submitted with success. *)
Definition delivered_to client (p : WithdrawFundsResult) : Prop :=
  exists h proof w1 w2 receipts,
    submit client [request_batch h (address client) [wf_post p] proof] w1 = (Some (Ok receipts), w2).

Lemma submit_up_to_ok n client msg w w' : submit_up_to n client msg w = (Some (Ok tt), w') ->
  exists w1 w2 receipts, submit client [msg] w1 = (Some (Ok receipts), w2).
Proof.
  revert w; induction n as [|n IH]; intros w; [done|]. cbn [submit_up_to]. intros ([r|e] & w1 & Hs & Hr)%bind_inv; eauto.
Qed.

Lemma deliver_post_ok client hyperbridge p w w' : deliver_post_request client hyperbridge p w = (Some (Ok tt), w') -> delivered_to client p.
Proof.
  intros (known & w1 & _ & Hr)%try_ok_inv. apply try_ok_inv in Hr as (latest & w2 & _ & Hr). apply bind_inv in Hr as (q & w3 & _ & Hr).
  apply try_ok_inv in Hr as (proof & w4 & _ & Hr). apply submit_up_to_ok in Hr as (wa & wb & rs & Hr). by repeat eexists.
Qed.

Lemma deliver_all_ok client hyperbridge ps s s' :
  for_each ps (fun p => on_net (deliver_post_request client hyperbridge p)) s = (Some (Ok tt), s') ->
  Forall (delivered_to client) ps.
Proof.
  revert s; induction ps as [|p ps IH]; intros s; [by constructor|]. cbn [for_each]. intros ([] & s1 & Hp & Hr)%try_ok_inv.
  apply on_net_inv in Hp as (w & Hp & ->). constructor; [by eapply deliver_post_ok|by eapply IH].
Qed.

Lemma deliver_all_db client hyperbridge ps s o s' :
  for_each ps (fun p => on_net (deliver_post_request client hyperbridge p)) s = (o, s') -> rl_db s' = rl_db s.
Proof.
  revert s; induction ps as [|p ps IH]; intros s; [by intros [= <- <-]|]. cbn [for_each].
  intros [(u & s1 & Hp & Hr)|(o1 & Hp & _)]%try_split; apply on_net_inv in Hp as (w & _ & ->); [|done]. by rewrite (IH _ Hr).
Qed.

(** Deleting removes rows of the given identifiers, and no other. *)
Lemma delete_pending_run ids d : db_faults d = [] -> exists r d', delete_pending_withdrawals ids d = (Some r, d') /\
  db_faults d' = [] /\ next_id (pending_withdrawal d') = next_id (pending_withdrawal d) /\
  rows (pending_withdrawal d') `sublist_of` rows (pending_withdrawal d) /\
  forall x, x ∈ rows (pending_withdrawal d) -> x ∈ rows (pending_withdrawal d') \/ row_id x ∈ ids.
Proof.
  intros Hf. unfold delete_pending_withdrawals, delete_rows. rewrite (try_ok _ _ _ _ _ (execute_ok d Hf)). unfold bind at 1, gets.
  destruct (_ && _); (do 2 eexists; split; [done|]; split; [done|]; split; [done|]); cbn.
  - split; [apply sublist_filter|]. intros x Hx. destruct (decide (row_id x ∈ ids)); [by right|]. left. apply list_elem_of_filter. split; [|done].
    by apply negb_true_iff, bool_decide_eq_false.
  - split; [done|]. auto.
Qed.

Lemma pending_run chain name d : to_string chain = Some name -> db_faults d = [] ->
  exists r, pending_withdrawals chain d = (Some r, d) /\
    forall found, r = Ok found -> Forall (fun x => exists row, row ∈ rows (pending_withdrawal d) /\ row_dest row = name /\
      row_id row = x.2 /\ decode (row_encoded row) = Some x.1) found.
Proof.
  intros Hn Hf. unfold pending_withdrawals. rewrite (try_ok _ _ _ _ _ (find_rows_run _ chain name d Hn Hf)).
  unfold ret. eexists. split; [done|]. intros found Hc.
  set (mine := filter _ _) in Hc. assert (Hmine : Forall (fun r => r ∈ rows (pending_withdrawal d) /\ row_dest r = name) mine).
  { apply Forall_forall. intros r [? ?]%list_elem_of_filter. auto. }
  clearbody mine. revert found Hc. induction Hmine as [|r mine [Hr Hd] _ IH]; intros found; cbn [fmap list_fmap collect_results]; [by intros [= <-]|].
  destruct (decode (row_encoded r)) as [p|] eqn:Ep; [|done]. destruct (collect_results _) as [rest|e]; [|done]. intros [= <-].
  constructor; [|by apply IH]. by exists r.
Qed.

Lemma store_pending_run result name d : to_string (post_dest (wf_post result)) = Some name -> db_faults d = [] ->
  let n := next_id (pending_withdrawal d) in
  store_pending_withdrawals [result] d
  = (Some (Ok [n]), on_pending (fun t => mkTable (rows t ++ [mkRow n name (encode result)]) (n + 1)) d).
Proof.
  intros Hn Hf n. unfold store_pending_withdrawals, create_rows.
  assert (Hm : mapM (fun item => dest ← to_string (post_dest (wf_post item)); Some (dest, encode item)) [result] = Some [(name, encode result)])
    by (cbn; by rewrite Hn).
  rewrite Hm. cbn [or_panic]. unfold bind at 1, ret at 1. rewrite (try_ok _ _ _ _ _ (execute_ok d Hf)). unfold bind, gets, modify, ret. cbn. by rewrite Z.add_0_r.
Qed.

(** C13: a withdrawal is not forgotten. Whatever happens in a round of withdrawals, even an error or a
    panic half way, a row of the table of pending withdrawals only goes when a message with its request
    was submitted with success to the chain it is for. When the round ends well, either there was less
    to withdraw than the minimum, or funds were withdrawn, and the request for them was submitted with
    success, or waits in the table. *)
Theorem withdrawals_kept hyperbridge claims minimum chain client name s out s' :
  to_string chain = Some name -> db_faults (rl_db s) = [] -> table_wf (pending_withdrawal (rl_db s)) ->
  (forall w result w', withdraw_funds claims client chain w = (Some (Ok result), w') -> is_Some (to_string (post_dest (wf_post result)))) ->
  withdraw_chain hyperbridge claims minimum chain client s = (out, s') ->
  (forall r, r ∈ rows (pending_withdrawal (rl_db s)) -> r ∈ rows (pending_withdrawal (rl_db s')) \/
     (row_dest r = name /\ exists p, decode (row_encoded r) = Some p /\ delivered_to client p)) /\
  (out = Some (Ok tt) ->
     (exists amount w1 w2, available_amount claims client chain w1 = (Some (Ok amount), w2) /\ amount < minimum) \/
     (exists result w1 w2, withdraw_funds claims client chain w1 = (Some (Ok result), w2) /\
        (delivered_to client result \/ exists r, r ∈ rows (pending_withdrawal (rl_db s')) /\ row_encoded r = encode result))).
Proof.
  intros Hn Hf [Hnd Hlt] Hdest. set (d0 := rl_db s) in *. unfold withdraw_chain.
  destruct (pending_run chain name d0 Hn Hf) as (r & Hp & Hfound). intros [(found & s1 & Hr1 & Hrun)|(o1 & Hr1 & _ & Hno)]%try_split;
    rewrite (on_db_run _ s _ Hp) in Hr1; [|injection Hr1 as <- <-; split; [by left|by intros ->; destruct (Hno tt)]].
  injection Hr1 as -> <-. specialize (Hfound found eq_refl).
  apply try_split in Hrun as [(u & s2 & Hall & Hrun)|(o1 & Hall & _ & Hno)];
    [|apply deliver_all_db in Hall as Hdb; rewrite Hdb; split; [by left|by intros ->; destruct (Hno tt)]].
  apply deliver_all_db in Hall as Hdb. destruct u. apply deliver_all_ok in Hall.
  destruct (delete_pending_run found.*2 d0 Hf) as (rd & d1 & Hdel & Hf1 & Hnext & Hsub & Hkeep).
  rewrite (bind_some _ _ _ _ _ (on_db_step _ s2 _ d1 ltac:(by rewrite Hdb))) in Hrun.
  assert (Hold : forall r, r ∈ rows (pending_withdrawal d0) -> r ∈ rows (pending_withdrawal d1) \/
     (row_dest r = name /\ exists p, decode (row_encoded r) = Some p /\ delivered_to client p)).
  { intros x Hx. destruct (Hkeep x Hx) as [?|Hid]; [by left|right]. apply list_elem_of_fmap in Hid as ([p id] & Eid & Hin).
    rewrite Forall_forall in Hfound. destruct (Hfound _ Hin) as (row & Hrow & Hname & Hrid & Hdec).
    assert (row = x) as -> by (apply (nodup_fmap_inj row_id (rows (pending_withdrawal d0))); [done..|congruence]).
    split; [done|]. exists p. split; [done|]. rewrite Forall_forall in Hall. apply Hall. apply list_elem_of_fmap. by exists (p, id). }
  apply try_split in Hrun as [(amount & s3 & Ha & Hrun)|(o1 & Ha & _ & Hno)];
    apply on_net_inv in Ha as (w3 & Ha & ->); [|split; [done|by intros ->; destruct (Hno tt)]].
  destruct (Z.ltb_spec amount minimum) as [Hmin|_]; [injection Hrun as <- <-; split; [done|]; intros _; left; by repeat eexists|].
  apply try_split in Hrun as [(result & s4 & Hw & Hrun)|(o1 & Hw & _ & Hno)];
    apply on_net_inv in Hw as (w4 & Hw & ->); [|split; [done|by intros ->; destruct (Hno tt)]].
  destruct (Hdest _ _ _ Hw) as [dname Hdn]. pose proof (store_pending_run result dname d1 Hdn Hf1) as Hst. cbn zeta in Hst.
  set (n := next_id (pending_withdrawal d1)) in *. set (d2 := on_pending _ d1) in Hst.
  rewrite (try_ok _ _ _ _ _ (on_db_step _ (set_net w4 (set_net w3 (set_db d1 s2))) _ d2 Hst)) in Hrun.
  assert (Hrows : rows (pending_withdrawal d2) = rows (pending_withdrawal d1) ++ [mkRow n dname (encode result)]) by done.
  assert (Hold2 : forall x, x ∈ rows (pending_withdrawal d1) -> x ∈ rows (pending_withdrawal d2)) by (intros x ?; rewrite Hrows; apply elem_of_app; by left).
  apply bind_split in Hrun as [(dr & s5 & Hdv & Hrun)|[Hdv ->]]; apply on_net_inv in Hdv as (w5 & Hdv & ->);
    [|split; [|done]; intros x Hx; destruct (Hold x Hx); auto].
  destruct dr as [[]|e].
  - destruct (delete_pending_run [n] d2 Hf1) as (rd2 & d3 & Hdel2 & _ & _ & _ & Hkeep3).
    unfold bind, on_db in Hrun. cbn [rl_db set_net set_db] in Hrun. rewrite Hdel2 in Hrun. injection Hrun as <- <-. split.
    + intros x Hx. destruct (Hold x Hx) as [Hx1|]; [|by right]. left. destruct (Hkeep3 x (Hold2 x Hx1)) as [?|Hid]; [done|].
      apply list_elem_of_singleton in Hid. rewrite Forall_forall in Hlt. specialize (Hlt x Hx). cbn in Hlt. rewrite Hid, Hnext in Hlt. lia.
    + intros _. right. exists result, w3, w4. split; [done|]. left. by eapply deliver_post_ok.
  - injection Hrun as <- <-. split; [intros x Hx; destruct (Hold x Hx); auto|]. intros _. right. exists result, w3, w4. split; [done|]. right.
    exists (mkRow n dname (encode result)). split; [|done]. cbn. apply elem_of_app. right. apply list_elem_of_singleton. done.
Qed.

End withdrawals.

(** ** Retries *)

(** What a stored message carries. *)
Definition request_in (m : Message) : option (Message * PostRequest) :=
  match m with MsgRequest req => p ← head (rm_requests req); Some (m, p) | _ => None end.
Definition response_in (m : Message) : option (Message * PostResponse) :=
  match m with
  | MsgResponse resp =>
      match rsm_datagram resp with RRResponse (ResponsePost r :: _) => Some (m, r) | _ => None end
  | _ => None
  end.

(** Whether the time after which it is of no use is still to come. *)
Definition expires (m : Message) : option Duration :=
  match request_in m, response_in m with
  | Some (_, p), _ => Some (get_timeout (post_timeout_timestamp p))
  | _, Some (_, r) => Some (get_timeout (pr_timeout_timestamp r))
  | _, _ => None
  end.
Definition outlasts (t : Duration) (m : Message) : bool := match expires m with Some e => t <? e | None => false end.

Lemma request_in_kind m p : request_in m = Some (m, p) -> of_kind true m.
Proof. by destruct m. Qed.

Section retries.
Context `{Keccak256, !Hex, !HexLaws} `{!Codec Message, !Codec WithdrawFundsResult} {W : Type} `{!Timer W}.
Context (dest hyperbridge : IsmpProvider W) (clients : ClientMap W) (sa oa : Answers) (ca : StateMachine -> Answers).
Context (config : RelayerConfig) (coprocessor : StateMachine) (allowed : bytes -> bool).
Context (rq : PostRequest -> Query) (pq : PostResponse -> Query).

(** A message that is stored: one request or response, whose query does not panic. *)
Definition retriable (m : Message) : Prop :=
  (exists p, request_in m = Some (m, p) /\ query_of_request (RequestPost p) = Some (rq p)) \/
  (exists r, response_in m = Some (m, r) /\ query_of_response (ResponsePost r) = Some (pq r)).

Definition proof_height_of (m : Message) : option StateMachineHeight :=
  match m with MsgRequest r => Some (proof_height (rm_proof r)) | MsgResponse r => Some (proof_height (rsm_proof r)) | _ => None end.

Lemma sort_all_stored_run items posts rqs rms resps pqs sms ids h :
  Forall (fun x => retriable x.1) items ->
  exists h', sort_all_stored (mkSorted posts rqs rms resps pqs sms, ids, h) items
  = (let requests := omap request_in items.*1 in let responses := omap response_in items.*1 in
     Some (mkSorted (posts ++ requests.*2) (rqs ++ (rq <$> requests.*2)) (rms ++ requests.*1)
       (resps ++ (ResponsePost <$> responses.*2)) (pqs ++ (pq <$> responses.*2)) (sms ++ responses.*1), ids ++ items.*2, h')) /\
    (is_Some h \/ items <> [] -> is_Some h').
Proof.
  intros Hi. revert posts rqs rms resps pqs sms ids h. induction Hi as [|[m id] items Hm _ IH]; intros posts rqs rms resps pqs sms ids h.
  - exists h. cbn. rewrite !app_nil_r. split; [done|]. by intros [?|].
  - cbn in Hm. destruct Hm as [(p & Hp & Hq)|(r & Hr & Hq)].
    + destruct m as [| |req| |]; try done. cbn in Hp. destruct (head (rm_requests req)) as [p'|] eqn:Eh; [|done]. cbn in Hp. injection Hp as ->.
      destruct (IH (posts ++ [p]) (rqs ++ [rq p]) (rms ++ [MsgRequest req]) resps pqs sms (ids ++ [id]) (higher h (proof_height (rm_proof req)))) as (h' & Hs & Hh).
      exists h'. cbn [sort_all_stored sort_stored]. rewrite Eh. cbn [mbind option_bind]. rewrite Hq. cbn [mbind option_bind]. rewrite Hs. split.
      * cbn. rewrite Eh. cbn. by rewrite <- !app_assoc.
      * intros _. apply Hh. left. destruct h; cbn; [destruct (_ <? _)|]; eauto.
    + destruct m as [| | |resp|]; try done. cbn in Hr. destruct (rsm_datagram resp) as [|[|[r'|] rest]] eqn:Eh; try done. injection Hr as ->.
      destruct (IH posts rqs rms (resps ++ [ResponsePost r]) (pqs ++ [pq r]) (sms ++ [MsgResponse resp]) (ids ++ [id]) (higher h (proof_height (rsm_proof resp)))) as (h' & Hs & Hh).
      exists h'. cbn [sort_all_stored sort_stored]. rewrite Eh. cbn [head mbind option_bind]. rewrite Hq. cbn [mbind option_bind]. rewrite Hs. split.
      * cbn. rewrite Eh. cbn. by rewrite <- !app_assoc.
      * intros _. apply Hh. left. destruct h; cbn; [destruct (_ <? _)|]; eauto.
Qed.

Lemma prove_available_run {A B} (prove : Z -> list Query -> Net W bytes) (pf : list Query -> bytes)
    (build : StateMachineHeight -> list B -> bytes -> Message) (g : A -> B) (q : A -> Query) size h (items : list A) w :
  size <> 0%nat -> (forall qs, prove (smh_height h) qs w = (Some (Ok (pf qs)), w)) ->
  prove_available prove build size (Some h) (q <$> items) (g <$> items) w = (Some (batched (build h) pf g q size items), w).
Proof.
  intros Hs Hp. destruct items as [|x l] eqn:Ei; [done|]. rewrite <- Ei. unfold prove_available.
  assert (Hne : exists a b, q <$> items = a :: b) by (rewrite Ei; cbn; eauto). destruct Hne as (a & b & Hne). rewrite Hne, <- Hne.
  rewrite !chunks_some by done. cbn [or_panic]. unfold bind at 1, ret at 1. unfold bind at 1, ret at 1.
  rewrite !length_fmap, !chunks_go_fmap. unfold batched. generalize (chunks_go (length items) size items). intros cs.
  assert (Hm : map_m (fun batch => let* proof := prove (smh_height h) batch.1 in
      ret (match proof with Ok proof => Some (build h batch.2 proof) | Err _ => None end))
      (zip ((fun c : list A => q <$> c : list Query) <$> cs) ((fun c : list A => g <$> c : list B) <$> cs)) w
    = (Some ((fun c => Some (build h (g <$> c) (pf (q <$> c)))) <$> cs), w)).
  { induction cs as [|c cs IH]; [done|]. rewrite !fmap_cons. cbn [zip zip_with map_m fst snd].
    erewrite bind_some; [|by rewrite (bind_some _ _ _ _ _ (Hp _))]. by rewrite (bind_some _ _ _ _ _ IH). }
  rewrite (bind_some _ _ _ _ _ Hm). unfold ret. do 2 f_equal. clear. induction cs as [|c cs IH]; [done|]. cbn. by f_equal.
Qed.

Context (FA : fixed_answers hyperbridge dest clients sa oa ca config allowed).

Let verdict := outcome dest clients sa ca config coprocessor.

Lemma retry_kind_run {B C} k (prove : Z -> list Query -> Net W bytes) (pf : list Query -> bytes)
    (build : StateMachineHeight -> list C -> bytes -> Message) (g : B -> C) (q : B -> Query) h (items : list (Message * B)) w :
  Forall (fun x => of_kind k x.1) items -> (forall qs, prove (smh_height h) qs w = (Some (Ok (pf qs)), w)) ->
  retry_kind dest config coprocessor clients prove build (Some h) items.*1 (q <$> items.*2) (g <$> items.*2) w
  = (Some (batched (build h) pf (g ∘ snd) (q ∘ snd) (chunk_size (provider_chain dest)) (filter (fun x => verdict k x.1 (q x.2) = Relay) items),
           (filter (fun x => verdict k x.1 (q x.2) = Retry) items).*1), w).
Proof.
  intros Hk Hp. unfold retry_kind. rewrite <- !list_fmap_compose.
  rewrite (bind_some _ _ _ _ _ (successful_steady _ _ _ _ _ _ _ _ _ FA k fst (q ∘ snd) items w Hk)). cbn [pf_queries pf_retriable_messages].
  rewrite relayed_filter, queries_filter. assert (Hs : chunk_size (provider_chain dest) <> 0%nat) by (by destruct (provider_chain dest)).
  by rewrite (bind_some _ _ _ _ _ (prove_available_run prove pf build (g ∘ snd) (q ∘ snd) _ h _ w Hs Hp)).
Qed.

(** Submissions succeed. *)
Definition accepts : Prop := forall msgs w, exists receipts w', submit dest msgs w = (Some (Ok receipts), w') /\ Forall named receipts.

Lemma submit_again_run msgs s rcs : accepts -> ledger (rl_db s) rcs -> db_faults (rl_db s) = [] ->
  exists receipts s', sent dest msgs (rl_net s) receipts (rl_net s') /\ submit_again dest msgs s = (Some tt, s') /\
    ledger (rl_db s') (rcs ++ receipts) /\ db_faults (rl_db s') = [] /\ unprofitable_messages_ (rl_db s') = unprofitable_messages_ (rl_db s).
Proof.
  intros Ha Hl Hf. destruct msgs as [|m msgs]; [exists [], s; rewrite app_nil_r; by cbn|].
  destruct (Ha (m :: msgs) (rl_net s)) as (receipts & w' & Hs & Hn). unfold submit_again.
  rewrite (bind_some _ _ _ _ _ (on_net_step _ s _ _ Hs)). destruct (record_deliveries_run receipts (set_net w' s) rcs Hl Hf Hn) as (d' & Hr & Hrest).
  eexists receipts, _. split; [|split; [exact Hr|exact Hrest]]. exact Hs.
Qed.

Lemma filter_or_panic_run {A} (p : A -> option bool) (b : A -> bool) l : Forall (fun x => p x = Some (b x)) l ->
  filter_or_panic p l = Some (filter (fun x => b x = true) l).
Proof.
  induction 1 as [|x l Hb _ IH]; [done|]. cbn [filter_or_panic]. rewrite filter_cons, Hb, IH. cbn. by destruct (b x).
Qed.

Lemma still_live_outlasts t m : retriable m -> still_live t m = Some (outlasts t m).
Proof.
  unfold outlasts, expires. intros [(p & Hp & _)|(r & Hr & _)]; destruct m as [| |req|resp|]; try done; cbn in *.
  - destruct (head (rm_requests req)) as [p0|]; [|done]. cbn. unfold request_timed_out. cbn. by rewrite Z.leb_antisym, negb_involutive.
  - destruct (rsm_datagram resp) as [|[|[res|] rest]]; try done. cbn. unfold pr_timeout. by rewrite Z.leb_antisym, negb_involutive.
Qed.

(** The end of a retry: what was fetched is deleted, and what is left to try is stored. *)
Lemma store_again_run name (msgs : list Message) (s : Relayer W) : Forall retriable msgs ->
  to_string (provider_chain dest) = Some name -> db_faults (rl_db s) = [] -> exists d',
  (match msgs with
   | [] => ret (Ok tt)
   | new_unprofitable =>
       let? dest_timestamp := on_net (query_timestamp dest) in
       let* retriable := or_panic (filter_or_panic (still_live dest_timestamp) new_unprofitable) in
       let* _ := on_db (store_unprofitable_messages retriable (provider_chain dest)) in
       ret (Ok tt)
   end : M (Relayer W) (result AnyError unit)) s = (Some (Ok tt), set_db d' s) /\ deliveries d' = deliveries (rl_db s) /\
  stored (unprofitable_messages_ d') = stored (unprofitable_messages_ (rl_db s))
    ++ ((fun m => (name, encode m)) <$> filter (fun m => outlasts (an_timestamp sa) m = true) msgs).
Proof.
  intros Hm Hn Hf. set (live := filter _ msgs). destruct (store_unprofitable_run live (provider_chain dest) name (rl_db s) Hn Hf) as (ids & d' & Hst & Hd & _ & _ & Hs).
  destruct msgs as [|m0 ms] eqn:Em; [exists (rl_db s); cbn; rewrite app_nil_r; split; [by destruct s|done]|]. rewrite <- Em in *. exists d'. split; [|done].
  destruct (fa_sink _ _ _ _ _ _ _ _ FA (rl_net s)) as (Ht & _). rewrite (try_ok _ _ _ _ _ (on_net_run _ s _ Ht)).
  rewrite (filter_or_panic_run _ (outlasts (an_timestamp sa))) by (eapply Forall_impl; [exact Hm|]; apply still_live_outlasts).
  cbn [or_panic]. unfold bind at 1, ret at 1. rewrite Em. fold live. by rewrite (bind_some _ _ _ _ _ (on_db_step _ s _ _ Hst)).
Qed.

Lemma requests_kind l : Forall (fun x => of_kind true x.1) (omap request_in l).
Proof. apply Forall_forall. intros [m p] (m' & _ & Hm)%list_elem_of_omap. destruct m'; try done. cbn in Hm. destruct (head _); by simplify_eq/=. Qed.

Lemma responses_kind l : Forall (fun x => of_kind false x.1) (omap response_in l).
Proof. apply Forall_forall. intros [m p] (m' & _ & Hm)%list_elem_of_omap. destruct m' as [| | |resp|]; try done. cbn in Hm. destruct (rsm_datagram resp) as [|[|[]]]; by simplify_eq/=. Qed.

(** What a retry fetches, and what is left when it is deleted. *)
Lemma fetched_run name d :
  to_string (provider_chain dest) = Some name -> db_faults d = [] -> NoDup (row_id <$> rows (unprofitable_messages_ d)) ->
  Forall (fun r => row_dest r = name -> exists m, row_encoded r = encode m /\ retriable m) (rows (unprofitable_messages_ d)) ->
  exists d1 found,
    unprofitable_messages (provider_chain dest) d = (Some (Ok found), d1) /\ deliveries d1 = deliveries d /\ db_faults d1 = [] /\
    (forall m, m ∈ found.*1 <-> (name, encode m) ∈ stored (unprofitable_messages_ d)) /\ Forall retriable found.*1 /\ NoDup found.*1 /\
    forall d', unprofitable_messages_ d' = unprofitable_messages_ d1 -> db_faults d' = [] -> exists d2,
      delete_unprofitable_messages found.*2 d' = (Some (Ok tt), d2) /\ deliveries d2 = deliveries d' /\ db_faults d2 = [] /\
      stored (unprofitable_messages_ d2) = filter (fun x => x.1 <> name) (stored (unprofitable_messages_ d)).
Proof.
  intros Hn Hf Hnd He. destruct (unprofitable_fetched (provider_chain dest) name d Hn Hf Hnd) as (d1 & found & Hfetch & Hd1 & Hf1 & Hin & Hnf & Hdel).
  { eapply Forall_impl; [exact He|]. intros r Hr Hd. destruct (Hr Hd) as (m & Hm & _). by exists m. }
  exists d1, found. split; [done|]. split; [done|]. split; [done|]. split.
  { intros m. rewrite Hin. unfold stored. rewrite list_elem_of_fmap. split; [intros (r & ? & <- & Hm); exists r; by rewrite Hm|].
    intros (r & [= Hd Hm] & ?). by exists r. }
  split.
  { apply Forall_forall. intros m (r & Hr & Hd & Hm)%Hin. rewrite Forall_forall in He. destruct (He r Hr Hd) as (m' & Hm' & Hret).
    rewrite Hm in Hm'. apply (f_equal (decode (A := Message))) in Hm'. rewrite !decode_encode in Hm'. by injection Hm' as ->. }
  split; [done|]. intros d' Hu Hf'. destruct (Hdel d' Hu Hf') as (d2 & Hd & Hdl & Hf2 & Hr). exists d2. split_and!; try done.
  unfold stored. rewrite Hr. clear. induction (rows (unprofitable_messages_ d)) as [|r l IH]; [done|].
  cbn [fmap list_fmap]. rewrite !filter_cons. cbn [fst]. case_decide; cbn; by rewrite IH.
Qed.

(** When there is nothing for the chain, nothing is done. *)
Lemma nothing_fetched name d d1 : db_faults d1 = [] ->
  (forall d', unprofitable_messages_ d' = unprofitable_messages_ d1 -> db_faults d' = [] -> exists d2,
      delete_unprofitable_messages [] d' = (Some (Ok tt), d2) /\ deliveries d2 = deliveries d' /\ db_faults d2 = [] /\
      stored (unprofitable_messages_ d2) = filter (fun x => x.1 <> name) (stored (unprofitable_messages_ d))) ->
  stored (unprofitable_messages_ d1) = filter (fun x => x.1 <> name) (stored (unprofitable_messages_ d)).
Proof.
  intros Hf Hdel. destruct (Hdel d1 eq_refl Hf) as (d2 & Hd & _ & _ & <-). rewrite delete_rows_run in Hd; [|done|by intros i ?%elem_of_nil|constructor].
  injection Hd as <-. unfold stored. cbn. rewrite filter_all; [done|]. intros r _. apply negb_true_iff, bool_decide_eq_false, not_elem_of_nil.
Qed.

(** The batches that go out, and the messages that stay, of those that were fetched. *)
Definition going_out (h : StateMachineHeight) (found : list Message) : list Message :=
  let size := chunk_size (provider_chain dest) in
  batched (request_batch h (address dest)) (prove_requests dest oa h) snd (rq ∘ snd) size
    (filter (fun x => verdict true x.1 (rq x.2) = Relay) (omap request_in found))
  ++ batched (response_batch h (address dest)) (prove_responses dest oa h) (ResponsePost ∘ snd) (pq ∘ snd) size
    (filter (fun x => verdict false x.1 (pq x.2) = Relay) (omap response_in found)).
Definition staying (found : list Message) : list Message :=
  (filter (fun x => verdict true x.1 (rq x.2) = Retry) (omap request_in found)).*1
  ++ (filter (fun x => verdict false x.1 (pq x.2) = Retry) (omap response_in found)).*1.

Lemma staying_in found : Forall retriable found -> Forall retriable (staying found).
Proof.
  rewrite !Forall_forall. intros Hf m [Hm|Hm]%elem_of_app; apply list_elem_of_fmap in Hm as ([m' x] & -> & [_ Hm]%list_elem_of_filter);
    apply list_elem_of_omap in Hm as (m0 & Hin & E); apply Hf; cbn.
  - destruct m0; try done. cbn in E. destruct (head _); by simplify_eq/=.
  - destruct m0 as [| | |resp|]; try done. cbn in E. destruct (rsm_datagram resp) as [|[|[]]]; by simplify_eq/=.
Qed.

(** C14: what becomes of the messages that were stored for later. When the chains give steady answers,
    the chain accepts submissions and the database has no faults, a retry considers every message that is stored for the chain,
    each once. Those that are worth their delivery by now go out, in batches with one proof each, and
    what was delivered is recorded. Those that are still not worth it stay, unless they have timed out;
    and nothing else is left for that chain, while the rows for others are untouched. When an
    estimation, a query of proofs or the submission fails, messages are lost ([retry_loses_messages]). *)
Theorem retry_settles name s rcs :
  accepts -> to_string (provider_chain dest) = Some name -> ledger (rl_db s) rcs -> db_faults (rl_db s) = [] ->
  NoDup (row_id <$> rows (unprofitable_messages_ (rl_db s))) ->
  Forall (fun r => row_dest r = name -> exists m, row_encoded r = encode m /\ retriable m) (rows (unprofitable_messages_ (rl_db s))) ->
  exists found h receipts s',
    NoDup found /\ (forall m, m ∈ found <-> (name, encode m) ∈ stored (unprofitable_messages_ (rl_db s))) /\
    sent dest (going_out h found) (rl_net s) receipts (rl_net s') /\
    retry_unprofitable_messages dest hyperbridge clients config coprocessor s = (Some (Ok tt), s') /\
    ledger (rl_db s') (rcs ++ receipts) /\
    stored (unprofitable_messages_ (rl_db s')) = filter (fun x => x.1 <> name) (stored (unprofitable_messages_ (rl_db s)))
      ++ ((fun m => (name, encode m)) <$> filter (fun m => outlasts (an_timestamp sa) m = true) (staying found)).
Proof.
  intros Ha Hn Hl Hf Hnd He.
  destruct (fetched_run name (rl_db s) Hn Hf Hnd He) as (d1 & found & Hfetch & Hd1 & Hf1 & Hst & Hfound & Hnf & Hdel).
  unfold retry_unprofitable_messages. rewrite (bind_some _ _ _ _ _ (on_db_step _ s _ _ Hfetch)).
  destruct found as [|x0 found0] eqn:Efound.
  { exists [], (mkStateMachineHeight (state_machine_id dest) 0), [], (set_db d1 s). cbn. rewrite !app_nil_r.
    split_and!; try done; [by unfold ledger; rewrite Hd1|]. by apply nothing_fetched. }
  rewrite <- Efound in *. destruct (sort_all_stored_run found [] [] [] [] [] [] [] None) as (h' & Hsort & Hh); [exact (proj1 (Forall_fmap fst _ _) Hfound)|].
  destruct Hh as [h ->]; [right; by rewrite Efound|]. cbn [app] in Hsort. unfold nothing_sorted. rewrite Hsort. cbn zeta.
  cbn [or_panic]. unfold bind at 1, ret at 1.
  cbn [so_request_messages so_post_request_queries so_post_requests so_response_messages so_response_queries so_post_responses]. set (s1 := set_db d1 s). destruct (fa_source _ _ _ _ _ _ _ _ FA (rl_net s1)) as (_ & Hrp & Hsp & _).
  pose proof (retry_kind_run true (fun at_ queries => query_requests_proof hyperbridge at_ queries (provider_chain dest)) (prove_requests dest oa h)
    (fun height => request_batch height (address dest)) id rq h _ _ (requests_kind found.*1) (fun qs => Hrp _ qs _)) as Hreq.
  rewrite list_fmap_id in Hreq. rewrite (bind_some _ _ _ _ _ (on_net_run _ s1 _ Hreq)).
  rewrite (bind_some _ _ _ _ _ (on_net_run _ s1 _ (retry_kind_run false _ (prove_responses dest oa h) _ ResponsePost pq h _ _ (responses_kind _) (fun qs => Hsp _ qs _)))).
  change (id ∘ snd) with (@snd Message PostRequest). fold (going_out h found.*1). fold (staying found.*1).
  destruct (submit_again_run (going_out h found.*1) s1 rcs Ha) as (receipts & s2 & Hsent & Hsub & Hl2 & Hf2 & Hu2); [by unfold ledger; cbn; rewrite Hd1|done|].
  rewrite (bind_some _ _ _ _ _ Hsub). destruct (Hdel (rl_db s2) Hu2 Hf2) as (d3 & Hd3 & Hdl3 & Hf3 & Hr3).
  rewrite (bind_some _ _ _ _ _ (on_db_step _ s2 _ _ Hd3)).
  destruct (store_again_run name (staying found.*1) (set_db d3 s2) (staying_in _ Hfound) Hn Hf3) as (d4 & Hrun & Hd4 & Hs4).
  exists found.*1, h, receipts, (set_db d4 (set_db d3 s2)). split; [done|]. split; [done|]. split; [exact Hsent|]. split; [by destruct (staying found.*1)|]. split.
  - unfold ledger. cbn [rl_db set_db]. rewrite Hd4. cbn [rl_db set_db]. by rewrite Hdl3.
  - cbn [rl_db set_db] in Hs4 |- *. by rewrite Hs4, Hr3.
Qed.

Lemma retry_kind_failed {A} (prove : Z -> list Query -> Net W bytes) (build : StateMachineHeight -> list A -> bytes -> Message) h messages queries
    (items : list A) w : (forall msgs w, exists e, estimate_gas dest msgs w = (Some (Err e), w)) ->
  retry_kind dest config coprocessor clients prove build h messages queries items w = (Some ([], []), w).
Proof.
  intros He. unfold retry_kind, return_successful_queries. destruct messages as [|m ms]; [by destruct items, h|]. destruct (He (m :: ms) w) as [e Hm].
  unfold bind. by rewrite (try_err _ _ _ _ _ Hm).
Qed.

(** Retrying does not survive a failure: if the chain cannot estimate costs for the moment, everything that
    is stored for it is deleted, and nothing is submitted or kept. *)
Theorem retry_loses_messages name s :
  (forall msgs w, exists e, estimate_gas dest msgs w = (Some (Err e), w)) ->
  to_string (provider_chain dest) = Some name -> db_faults (rl_db s) = [] ->
  NoDup (row_id <$> rows (unprofitable_messages_ (rl_db s))) ->
  Forall (fun r => row_dest r = name -> exists m, row_encoded r = encode m /\ retriable m) (rows (unprofitable_messages_ (rl_db s))) ->
  exists d', retry_unprofitable_messages dest hyperbridge clients config coprocessor s = (Some (Ok tt), set_db d' s) /\
    deliveries d' = deliveries (rl_db s) /\
    stored (unprofitable_messages_ d') = filter (fun x => x.1 <> name) (stored (unprofitable_messages_ (rl_db s))).
Proof.
  intros Hest Hn Hf Hnd He. destruct (fetched_run name (rl_db s) Hn Hf Hnd He) as (d1 & found & Hfetch & Hd1 & Hf1 & Hst & Hfound & Hnf & Hdel).
  unfold retry_unprofitable_messages. rewrite (bind_some _ _ _ _ _ (on_db_step _ s _ _ Hfetch)). destruct found as [|x0 found0] eqn:Efound.
  { exists d1. split_and!; try done. by apply nothing_fetched. }
  rewrite <- Efound in *. destruct (sort_all_stored_run found [] [] [] [] [] [] [] None) as (h' & Hsort & _); [exact (proj1 (Forall_fmap fst _ _) Hfound)|].
  cbn [app] in Hsort. unfold nothing_sorted. rewrite Hsort. cbn zeta. cbn [or_panic]. unfold bind at 1, ret at 1. set (s1 := set_db d1 s).
  rewrite (bind_some _ _ _ _ _ (on_net_run _ s1 _ (retry_kind_failed _ _ _ _ _ _ _ Hest))).
  rewrite (bind_some _ _ _ _ _ (on_net_run _ s1 _ (retry_kind_failed _ _ _ _ _ _ _ Hest))). cbn [app submit_again]. unfold bind at 1, ret at 1.
  destruct (Hdel d1 eq_refl Hf1) as (d2 & Hd & Hdl & _ & Hr). rewrite (bind_some _ _ _ _ _ (on_db_step _ s1 _ _ Hd)). exists d2.
  by rewrite Hdl, Hd1.
Qed.

End retries.

(** ** Fishermen and the pallet *)

Section fishing.
Context `{Keccak256, Codecs, !HeightKeys, !HeightSort} {Acc Tree : Type}.
Context `{!Currency Acc, !Mmr Tree, !Config (Apps Acc) Tree}.

Abbreviation St := (Chain (Apps Acc) Tree).
Implicit Types c : St.

Definition commitments c : gmap StateMachineHeight StateCommitment := c_commitments (a_cons (pallet_abs c)).

(** [veto_state_commitment] of the provider for substrate chains: unless the relayer is listed, there is
    nothing to do; otherwise it signs the call. *)
Definition substrate_veto (conv : CallError FishermenError -> AnyError) (who : bytes) (height : StateMachineHeight) : Net St unit :=
  let* listed := gets (app_read (fun k => bool_decide (who ∈ fm_Fishermen k))) in
  if negb listed then ret (Ok tt)
  else
    let* sent := Fishermen.veto_state_commitment (OriginSigned who) height in
    ret (map_err conv sent).

(** The counterparty runs the pallet: it is asked for commitments, and vetoes are calls that the
    fisherman signs. *)
Record watched (counterparty : IsmpProvider St) (who : bytes) : Prop := {
  wt_read : exists conv, forall h c, query_state_machine_commitment counterparty h c = (Some (map_err conv (state_machine_commitment h c)), c);
  wt_veto : exists conv, forall h c, veto_state_commitment counterparty h c = substrate_veto conv who h c
}.

Lemma commitment_read h c : pallet_inv c -> exists r, state_machine_commitment h c = r /\
  match r with Ok cm => commitments c !! h = Some cm | Err _ => commitments c !! h = None end.
Proof.
  intros Hc. eexists. split; [done|]. change (state_machine_commitment h c) with
    (ok_or (state_commitments_get h (storage c)) (StateCommitmentNotFound h)).
  rewrite state_commitments_get_ok by done. change (commitments c !! h) with (StateCommitments (storage c) !! h).
  by destruct (StateCommitments (storage c) !! h).
Qed.

Lemma delete_keeps_bank h c c1 : delete_state_commitment h c = (Some (Ok tt), c1) -> bank c1 = bank c.
Proof.
  intros Hd. change (pallet_delete_state_commitment h c = (Some (Ok tt), c1)) in Hd.
  unfold pallet_delete_state_commitment, bind, modify_storage, modify, gets, ret in Hd. cbn in Hd.
  destruct (read _ _) as [n|]; [destruct (n =? _)|]; by injection Hd as <-.
Qed.

Lemma veto_total who h c : exists r c', Fishermen.veto_state_commitment (OriginSigned who) h c = (Some r, c').
Proof.
  unfold Fishermen.veto_state_commitment, try_bind, bind, ret, gets, ensure_not. cbn.
  destruct (negb _); [by do 2 eexists|]. destruct (map_err _ _) as [cm|e]; [|by do 2 eexists].
  destruct (read _ _) as [n|]; [destruct (n =? _)|]; by do 2 eexists.
Qed.

(** A veto by a fisherman: the commitment is gone, and all others stay. *)
Lemma veto_works who h c : pallet_inv c -> who ∈ fm_Fishermen (bank c) ->
  exists r c', Fishermen.veto_state_commitment (OriginSigned who) h c = (Some r, c') /\ pallet_inv c' /\
    fm_Fishermen (bank c') = fm_Fishermen (bank c) /\ commitments c' = delete h (commitments c).
Proof.
  intros Hc Hw. destruct (veto_total who h c) as (r & c' & Hv). exists r, c'. split; [done|].
  destruct (veto_run _ _ _ _ _ Hc Hv) as [(who' & cm & c1 & -> & [= <-] & _ & Hcm & Hd & ->)|(_ & -> & Hno)].
  - destruct (delete_commitment_run _ _ _ Hc Hd) as (Hi & _ & _ & Hdel & _). split; [exact Hi|]. split; [|exact Hdel].
    cbn. by rewrite (delete_keeps_bank _ _ _ Hd).
  - split; [done|]. split; [done|]. rewrite delete_id; [done|]. destruct (commitments c !! h) as [cm|] eqn:E; [|done]. destruct Hno. by exists who, cm.
Qed.

Context (chain : ByzantineHandler (W := St)) (counterparty : IsmpProvider St) (who : bytes) (truth : Z -> option H256).

(** The node of the watched chain knows its own state roots. *)
Definition honest_node : Prop := forall n c, bh_state_root chain n c = (Some (Ok (truth n)), c).
Definition height_of (n : Z) : StateMachineHeight := mkStateMachineHeight (state_machine_id (bh_provider chain)) n.

(** A commitment that the chain itself would not make. *)
Definition forged (h : StateMachineHeight) (cm : StateCommitment) : Prop :=
  smh_id h = state_machine_id (bh_provider chain) /\ truth (smh_height h) <> Some (sc_state_root cm).

Definition fisherman_ready c : Prop := pallet_inv c /\ who ∈ fm_Fishermen (bank c).

(** One check removes the commitment at the height of the update if it is forged, and nothing else. *)
Definition cleaned (hs : list StateMachineHeight) c c' : Prop :=
  fisherman_ready c' /\
  forall h cm, commitments c' !! h = Some cm <-> commitments c !! h = Some cm /\ ~ (h ∈ hs /\ forged h cm).

Lemma check_cleans event c : watched counterparty who -> honest_node -> fisherman_ready c ->
  exists r c', check_for_byzantine_attack chain counterparty event c = (Some r, c') /\ cleaned [height_of (smu_latest_height event)] c c'.
Proof.
  intros [[conv Hr] [conv' Hv]] Hn [Hc Hw]. set (h := height_of _). unfold check_for_byzantine_attack. rewrite (try_ok _ _ _ _ _ (Hn _ _)). fold h.
  destruct (veto_works who h c Hc Hw) as (rv & cv & Hveto & Hi & Hfm & Hdel).
  assert (Hvetoed : (forall cm, commitments c !! h = Some cm -> forged h cm) ->
    exists r c', ((let? _ := veto_state_commitment counterparty h in ret (Ok tt)) : Net St unit) c = (Some r, c') /\ cleaned [h] c c').
  { intros Hforged. specialize (Hv h c). unfold substrate_veto in Hv. unfold bind at 1, gets, app_read in Hv. rewrite bool_decide_true in Hv by done.
    cbn [negb] in Hv. rewrite (bind_some _ _ _ _ _ Hveto) in Hv. cbn in Hv. exists (match rv with Ok _ => Ok tt | Err e => Err (conv' e) end), cv. split.
    - destruct rv as [[]|e]; [by rewrite (try_ok _ _ _ _ _ Hv)|by rewrite (try_err _ _ _ _ _ Hv)].
    - split; [split; [done|by rewrite Hfm]|]. intros h' cm. rewrite Hdel, lookup_delete_Some, list_elem_of_singleton. split.
      + intros [Hne Hcm]. split; [done|]. by intros [<- _].
      + intros [Hcm Hno]. split; [|done]. intros <-. apply Hno. split; [done|]. by apply Hforged. }
  destruct (truth (smu_latest_height event)) as [root|] eqn:Et.
  2:{ apply Hvetoed. intros cm _. split; [done|]. cbn. by rewrite Et. }
  destruct (commitment_read h c Hc) as (r & Hrd & Hcm). specialize (Hr h c). rewrite Hrd in Hr. destruct r as [cm|e]; cbn in Hr.
  - rewrite (try_ok _ _ _ _ _ Hr). destruct (bool_decide_reflect (sc_state_root cm = root)) as [Heq|Hne].
    + exists (Ok tt), c. split; [done|]. split; [done|]. intros h' cm'. rewrite list_elem_of_singleton. split; [|by intros [? _]].
      intros Hcm'. split; [done|]. intros [-> [_ Hf]]. apply Hf. cbn. rewrite Et. congruence.
    + apply Hvetoed. intros cm' Hcm'. split; [done|]. cbn. rewrite Et. congruence.
  - rewrite (try_err _ _ _ _ _ Hr). do 2 eexists. split; [done|]. split; [done|]. intros h' cm'. rewrite list_elem_of_singleton. split; [|by intros [? _]].
    intros Hcm'. split; [done|]. intros [-> _]. congruence.
Qed.

Lemma cleaned_trans hs1 hs2 c c1 c2 : cleaned hs1 c c1 -> cleaned hs2 c1 c2 -> cleaned (hs1 ++ hs2) c c2.
Proof. intros [_ H1'] [Hr H2']. split; [done|]. intros h cm. rewrite H2', H1', elem_of_app. tauto. Qed.

Lemma checks_clean updates c : watched counterparty who -> honest_node -> fisherman_ready c ->
  exists rs c', map_m (check_for_byzantine_attack chain counterparty) updates c = (Some rs, c') /\
    cleaned (height_of ∘ smu_latest_height <$> updates) c c'.
Proof.
  intros Hw Hn. revert c; induction updates as [|u us IH]; intros c Hc.
  - exists [], c. split; [done|]. split; [done|]. intros h cm. split; [|by intros [? _]]. intros ?. split; [done|]. by intros [?%elem_of_nil _].
  - destruct (check_cleans u c Hw Hn Hc) as (r & c1 & Hr & Hc1). destruct (IH c1 (proj1 Hc1)) as (rs & c2 & Hrs & Hc2).
    exists (r :: rs), c2. cbn [map_m]. rewrite (bind_some _ _ _ _ _ Hr), (bind_some _ _ _ _ _ Hrs). split; [done|].
    exact (cleaned_trans [_] _ _ _ _ Hc1 Hc2).
Qed.

(** The heights that a fisherman hears of. *)
Definition announced (items : list (result StreamError (list StateMachineUpdated))) : list StateMachineHeight :=
  concat ((fun item => match item with Ok us => height_of ∘ smu_latest_height <$> us | Err _ => [] end) <$> items).

(** C15: fishermen keep forged commitments out. A fisherman with an honest node of the watched chain
    follows the updates of a counterparty that runs the pallet and lists it. When it has gone
    through them, the commitments of the pallet are those from before, without exactly the forged
    ones at the heights that were announced; no honest commitment, and none of another chain, is
    lost. No request, response or timeout that is proved at such a height is handled any more. *)
Theorem fishermen_clean items c : watched counterparty who -> honest_node -> fisherman_ready c ->
  exists c', fish chain counterparty items c = (Some tt, c') /\ cleaned (announced items) c c' /\
    forall h cm msg o c2, commitments c !! h = Some cm -> h ∈ announced items -> forged h cm -> proved_at msg = Some h ->
      handle_incoming_message msg c' = (o, c2) -> pallet_abs c2 = pallet_abs c' /\ forall x, o <> Some (Ok x).
Proof.
  intros Hw Hn Hc. assert (Hrun : exists c', fish chain counterparty items c = (Some tt, c') /\ cleaned (announced items) c c').
  { unfold fish, announced. revert c Hc; induction items as [|item items IH]; intros c Hc.
    - exists c. split; [done|]. split; [done|]. intros h cm. split; [|by intros [? _]]. intros ?. split; [done|]. by intros [?%elem_of_nil _].
    - cbn [map_m fmap list_fmap concat]. destruct item as [us|e].
      + destruct (checks_clean us c Hw Hn Hc) as (rs & c1 & Hrs & Hc1). destruct (IH c1 (proj1 Hc1)) as (c2 & Hrest & Hc2). exists c2.
        split; [|by eapply cleaned_trans]. unfold bind in *. rewrite Hrs. unfold ret in *. by destruct (map_m _ items c1) as [[]].
      + destruct (IH c Hc) as (c2 & Hrest & Hc2). exists c2. split; [|done]. unfold bind, ret in *. by destruct (map_m _ items c) as [[]]. }
  destruct Hrun as (c' & Hrun & Hcl). exists c'. split; [done|]. split; [done|]. intros h cm msg o c2 Hcm Hh Hf Hp Hm.
  refine (unproved_refused h msg c' o c2 (proj1 (proj1 Hcl)) _ Hp Hm). change (commitments c' !! h = None).
  destruct (commitments c' !! h) as [cm'|] eqn:E; [|done]. apply (proj2 Hcl) in E as [E Hno]. destruct Hno. split; [done|]. congruence.
Qed.

End fishing.
