(* ===== verification/EvmProvider.v ===== *)
(** * The relayer's provider for EVM chains

    [tesseract/evm/src/{lib, provider, tx}.rs] and [trees/ethereum/src/storage_proof.rs]: reading the
    host contract of an EVM chain through the JSON-RPC of a node, proving its storage to hyperbridge,
    and turning messages into calls of the handler contract. The node and the contract are the record
    [EvmNode]; a value of the contract is a [U256], of which the provider takes the low 64 bits. *)

From S2P Require Import Prelude StateMachine Router Messaging ChildTrie PalletTypes Apps EvmKeys EvmMachine Mmr Relayer Tesseract TesseractProps RelayerDb.

(** ** Sets of trie nodes ([storage_proof.rs]) *)

Definition StorageProof : Type := list (bytes * unit).

Definition proof_insert (set : StorageProof) (node : bytes) : StorageProof := btree_insert compare_bytes node tt set.
Definition storage_proof_new (trie_nodes : list bytes) : StorageProof := foldl proof_insert [] trie_nodes.
Definition into_nodes (proof : StorageProof) : list bytes := proof.*1.
Definition storage_proof_merge (proofs : list StorageProof) : StorageProof :=
  storage_proof_new (concat (into_nodes <$> proofs)).

(** ** The node *)

(** [eth_getProof]: the path to the account, and one path for every slot. *)
Record EthProof : Type := mkEthProof { ep_account_proof : list bytes; ep_storage_proof : list (list bytes) }.

(** A transaction that was sent, and what is known of it after five minutes. *)
Record TxLog : Type := mkTxLog { tl_topics : list H256; tl_data : bytes }.
Record EthReceipt : Type := mkEthReceipt { er_status : option Z; er_logs : list TxLog }.
Inductive Awaited : Type :=
| TimedOut
| Mined (receipt : option EthReceipt)
| BroadcastError (e : AnyError).

(** What goes wrong when a call is sent: status 429 asks to try again. *)
Inductive SendError : Type := RateLimited | SendFailed (e : AnyError).

(** ** Calls of the handler contract *)

Record RequestLeaf_ : Type := mkRequestLeaf_ { rl_request : PostRequest; rl_index : Z; rl_k_index : Z }.
Record ResponseLeaf_ : Type := mkResponseLeaf_ { sl_response : PostResponse; sl_index : Z; sl_k_index : Z }.
Record SolidityProof : Type := mkSolidityProof {
  sp_state_machine_id : Z;
  sp_height : Z;
  sp_multiproof : list H256;
  sp_leaf_count : Z
}.

Inductive Payload : Type :=
| HandleConsensus (proof : bytes)
| HandlePostRequests (proof : SolidityProof) (requests : list RequestLeaf_)
| HandlePostResponses (proof : SolidityProof) (responses : list ResponseLeaf_).

Record ContractCall : Type := mkContractCall { cc_payload : Payload; cc_gas_price : option Z; cc_gas : Z }.

Record EvmNode (W : Type) : Type := mkEvmNode {
  en_block_number : Net W Z;
  en_get_storage_at : H160 -> H256 -> Net W H256;
  en_get_proof : H160 -> list H256 -> Z -> Net W EthProof;
  en_events : Z -> Z -> Net W (list Event);
  en_latest_height : Z -> Net W Z;
  en_update_time : StateMachineHeight -> Net W Z;
  en_challenge_period : Net W Z;
  en_timestamp : Net W Z;
  en_request_receipts : H256 -> Net W H160;
  en_response_receipts : H256 -> Net W H160;
  en_request_fee : H256 -> Net W Z;
  en_response_fee : H256 -> Net W Z;
  en_handler : Net W H160;
  en_gas_price : Net W Z;
  en_estimate_call : Payload -> Net W Z;
  en_send : ContractCall -> M W (result SendError nat);
  en_await : nat -> M W Awaited;
  en_cancel : option Z -> M W unit
}.
Arguments en_block_number {W}.
Arguments en_get_storage_at {W}.
Arguments en_get_proof {W}.
Arguments en_events {W}.
Arguments en_latest_height {W}.
Arguments en_update_time {W}.
Arguments en_challenge_period {W}.
Arguments en_timestamp {W}.
Arguments en_request_receipts {W}.
Arguments en_response_receipts {W}.
Arguments en_request_fee {W}.
Arguments en_response_fee {W}.
Arguments en_handler {W}.
Arguments en_gas_price {W}.
Arguments en_estimate_call {W}.
Arguments en_send {W}.
Arguments en_await {W}.
Arguments en_cancel {W}.

(** [EvmClient] and the part of [EvmConfig] that it uses. *)
Record EvmClient : Type := mkEvmClient {
  ec_state_machine : StateMachine;
  ec_consensus_state_id : ConsensusStateId;
  ec_address : bytes;
  ec_ismp_host : H160;
  ec_erigon : bool;
  ec_query_batch_size : option Z
}.

Definition low_u64 (x : Z) : Z := x mod 2 ^ 64.

Section provider.
Context `{Keccak256} {W : Type} (client : EvmClient) (node : EvmNode W).

(** ** Keys ([lib.rs]) *)

(** [derive_map_key] of this crate does not hash twice. The second slot may panic. *)
Definition evm_request_commitment_key (key : H256) : option (H256 * H256) :=
  let key := derive_unhashed_map_key key REQUEST_COMMITMENTS_SLOT in
  number ← u256_add (of_be_bytes 0 key) 1; Some (key, to_be_bytes 32 number).
Definition evm_response_commitment_key (key : H256) : option (H256 * H256) :=
  let key := derive_unhashed_map_key key RESPONSE_COMMITMENTS_SLOT in
  number ← u256_add (of_be_bytes 0 key) 1; Some (key, to_be_bytes 32 number).
Definition evm_request_receipt_key (key : H256) : H256 := derive_unhashed_map_key key REQUEST_RECEIPTS_SLOT.
Definition evm_response_receipt_key (key : H256) : option (list bytes) :=
  let key := derive_unhashed_map_key key RESPONSE_RECEIPTS_SLOT in
  number ← u256_add (of_be_bytes 0 key) 1; Some [key; to_be_bytes 32 number].

Definition evm_request_commitment_full_key (commitment : H256) : option (list bytes) :=
  (fun k => [k.1; k.2]) <$> evm_request_commitment_key commitment.
Definition evm_request_receipt_full_key (commitment : H256) : list bytes := [evm_request_receipt_key commitment].
Definition evm_response_commitment_full_key (commitment : H256) : option (list bytes) :=
  (fun k => [k.1; k.2]) <$> evm_response_commitment_key commitment.
Definition evm_response_receipt_full_key (commitment : H256) : option (list bytes) := evm_response_receipt_key commitment.

(** ** Reading the contract ([provider.rs]) *)

Definition para_id (m : StateMachine) : option Z :=
  match m with Polkadot id => Some id | Kusama id => Some id | _ => None end.

Definition evm_query_latest_height (id : StateMachineId) : Net W Z :=
  match para_id (smi_state_id id) with
  | None => ret (Err (AnyMessage (lit "Unexpected state machine")))
  | Some id => let? v := en_latest_height node id in ret (Ok (low_u64 v mod 2 ^ 32))
  end.

Definition evm_query_finalized_height : Net W Z := let? v := en_block_number node in ret (Ok (low_u64 v)).

Definition evm_query_state_machine_commitment (height : StateMachineHeight) : Net W StateCommitment :=
  match para_id (smi_state_id (smh_id height)) with
  | None => ret (Err (AnyMessage (lit "Unknown State Machine")))
  | Some id =>
      let* (timestamp_key, overlay_key, state_root_key) := or_panic (state_comitment_key id (smh_height height)) in
      let? timestamp := en_get_storage_at node (ec_ismp_host client) timestamp_key in
      let? overlay_root := en_get_storage_at node (ec_ismp_host client) overlay_key in
      let? state_root := en_get_storage_at node (ec_ismp_host client) state_root_key in
      ret (Ok (mkStateCommitment (low_u64 (of_be_bytes 0 timestamp)) (Some overlay_root) state_root))
  end.

(** [height.try_into()]: other chains have no identifier on the host. *)
Definition evm_query_state_machine_update_time (height : StateMachineHeight) : Net W Duration :=
  match para_id (smi_state_id (smh_id height)) with
  | None => ret (Err (AnyMessage (lit "Unsupported state machine")))
  | Some _ => let? v := en_update_time node height in ret (Ok (from_secs (low_u64 v)))
  end.
Definition evm_query_challenge_period (_ : StateMachineId) : Net W Duration :=
  let? v := en_challenge_period node in ret (Ok (from_secs (low_u64 v))).
Definition evm_query_timestamp : Net W Duration := let? v := en_timestamp node in ret (Ok (from_secs (low_u64 v))).

(** ** Proofs *)

Definition proof_of (contract : H160) (proof : EthProof) : EvmStateProof :=
  mkEvmStateProof (ep_account_proof proof)
    [(contract, into_nodes (storage_proof_merge (storage_proof_new <$> ep_storage_proof proof)))].

Context `{!Codec EvmStateProof}.

Definition evm_query_requests_proof (at_ : Z) (keys : list Query) (_ : StateMachine) : Net W bytes :=
  let* keys := or_panic (mapM (fun query => snd <$> evm_request_commitment_key (qy_commitment query)) keys) in
  let? proof := en_get_proof node (ec_ismp_host client) keys at_ in
  ret (Ok (encode (proof_of (ec_ismp_host client) proof))).
Definition evm_query_responses_proof (at_ : Z) (keys : list Query) (_ : StateMachine) : Net W bytes :=
  let* keys := or_panic (mapM (fun query => snd <$> evm_response_commitment_key (qy_commitment query)) keys) in
  let? proof := en_get_proof node (ec_ismp_host client) keys at_ in
  ret (Ok (encode (proof_of (ec_ismp_host client) proof))).

(** [H256::from_slice] panics unless there are 32 bytes. *)
Definition slot_of (key : bytes) : option H256 := if (length key =? 32)%nat then Some key else None.

(** The slots of every contract, by its address. *)
Definition add_slot (acc : list (bytes * list H256)) (key : bytes) : result AnyError (list (bytes * list H256)) :=
  if negb (length key =? 20)%nat && negb (length key =? 52)%nat
  then Err (AnyMessage (lit "All arbitrary keys must have a length of 52 bytes or 20 bytes when querying state proofs"))
  else
    let contract := take 20 key in
    let entry := default [] (btree_get compare_bytes contract acc) in
    Ok (btree_insert compare_bytes contract (if (length key =? 52)%nat then entry ++ [drop 20 key] else entry) acc).

(** One contract: its account, and its slots if there are any. *)
Definition prove_contract (at_ : Z) (acc : list StorageProof * list (bytes * list bytes)) (entry : bytes * list H256) :
    Net W (list StorageProof * list (bytes * list bytes)) :=
  let '(contract_proofs, map) := acc in
  let? proof := en_get_proof node entry.1 entry.2 at_ in
  let contract_proofs := contract_proofs ++ [storage_proof_new (ep_account_proof proof)] in
  ret (Ok (contract_proofs,
    match ep_storage_proof proof with
    | [] => map
    | proofs => btree_insert compare_bytes entry.1 (into_nodes (storage_proof_merge (storage_proof_new <$> proofs))) map
    end)).

Definition evm_query_state_proof (at_ : Z) (keys : StateProofQueryType) : Net W bytes :=
  match keys with
  | QueryIsmp keys =>
      let* locations := or_panic (mapM slot_of keys) in
      let? proof := en_get_proof node (ec_ismp_host client) locations at_ in
      ret (Ok (encode (proof_of (ec_ismp_host client) proof)))
  | QueryArbitrary keys =>
      let? contracts := try_fold_m (fun acc key => ret (add_slot acc key)) [] keys in
      let? (contract_proofs, map) := try_fold_m (prove_contract at_) ([], []) contracts in
      ret (Ok (encode (mkEvmStateProof (into_nodes (storage_proof_merge contract_proofs)) map)))
  end.

(** ** Events *)

(** The ranges of blocks that are asked for, one after the other. A batch size of zero panics. *)
Definition block_ranges (chunk_size first last : Z) : option (list (Z * Z)) :=
  if last <? first then Some []
  else if chunk_size =? 0 then None
  else
    let chunks := saturating_sub last first / chunk_size in
    Some ((fun i => let start := Z.of_nat i * chunk_size + first in
                    (start, if Z.of_nat i =? chunks then last else start + chunk_size - 1))
            <$> seq 0 (S (Z.to_nat chunks))).

(** Ranges that cannot be read are logged and left out. *)
Definition evm_query_ismp_events (previous_height : Z) (event : StateMachineUpdated) : Net W (list Event) :=
  let* ranges := or_panic (block_ranges (default 1000000000 (ec_query_batch_size client))
    (wrap64 (previous_height + 1)) (smu_latest_height event)) in
  let* batches := map_m (fun r => en_events node r.1 r.2) ranges in
  ret (Ok (concat ((fun b => match b with Ok events => events | Err _ => [] end) <$> batches))).

Definition evm_query_request_receipt (hash : H256) : Net W bytes := en_request_receipts node hash.
Definition evm_query_response_receipt (hash : H256) : Net W bytes := en_response_receipts node hash.
Definition evm_query_request_fee_metadata (hash : H256) : Net W Z := en_request_fee node hash.
Definition evm_query_response_fee_metadata (hash : H256) : Net W Z := en_response_fee node hash.
Definition evm_veto_state_commitment (_ : StateMachineHeight) : Net W unit := ret (Ok tt).

End provider.

(** ** Transactions ([tx.rs]) *)

Definition ARBITRUM_CHAIN_ID : Z := 42161.
Definition ARBITRUM_SEPOLIA_CHAIN_ID : Z := 421614.
Definition GNOSIS_CHAIN_ID : Z := 100.
Definition CHIADO_CHAIN_ID : Z := 10200.

Definition get_chain_gas_limit (state_machine : StateMachine) : Z :=
  match state_machine with
  | Evm id =>
      if (id =? ARBITRUM_CHAIN_ID) || (id =? ARBITRUM_SEPOLIA_CHAIN_ID) then 32000000
      else if (id =? GNOSIS_CHAIN_ID) || (id =? CHIADO_CHAIN_ID) then 16000000
      else 20000000
  | _ => 0
  end.

Section calls.
Context `{Keccak256} `{!MmrHelpers} `{!Codec MmrProof} {W : Type} (client : EvmClient) (node : EvmNode W).

(** [mmr_position_to_k_index(vec![pos], mmr_size)[0].1] panics for a position beyond the peaks. *)
Definition k_and_leaf_index (mmr_size : Z) (leaf : LeafIndexAndPos) : option (Z * Z) :=
  found ← head (mmr_position_to_k_index [pos leaf] mmr_size); Some (found.2, leaf_index leaf).

Definition solidity_proof (id height : Z) (proof : MmrProof) : SolidityProof :=
  mkSolidityProof id height (PalletTypes.items proof) (PalletTypes.leaf_count proof).

Definition request_leaves (posts : list PostRequest) (indices : list (Z * Z)) : list RequestLeaf_ :=
  sort_by_key rl_index ((fun x => mkRequestLeaf_ x.1 x.2.2 x.2.1) <$> zip posts indices).
Definition response_leaves (responses : list Response) (indices : list (Z * Z)) : list ResponseLeaf_ :=
  sort_by_key sl_index (omap (fun x => match x.1 with
    | ResponsePost res => Some (mkResponseLeaf_ res x.2.2 x.2.1) | ResponseGet _ => None end) (zip responses indices)).

(** The payload of a message; [None] is a response from a chain that is not supported, which is
    skipped with a log. *)
Definition payload_of (message : Message) : M W (result AnyError (option Payload)) :=
  let decoded proof := ret (ok_or (decode (A := MmrProof) proof) (AnyMessage (lit "Could not decode"))) in
  let indices p := or_panic (mapM (k_and_leaf_index (nodes_size (PalletTypes.leaf_count p))) (PalletTypes.leaf_indices_and_pos p)) in
  match message with
  | MsgConsensus msg => ret (Ok (Some (HandleConsensus (cm_consensus_proof msg))))
  | MsgRequest msg =>
      let? membership_proof := decoded (proof_bytes (rm_proof msg)) in
      let* k_and_leaf_indices := indices membership_proof in
      let* id := or_panic (para_id (smi_state_id (smh_id (proof_height (rm_proof msg))))) in
      ret (Ok (Some (HandlePostRequests (solidity_proof id (smh_height (proof_height (rm_proof msg))) membership_proof)
        (request_leaves (rm_requests msg) k_and_leaf_indices))))
  | MsgResponse msg =>
      let? membership_proof := decoded (proof_bytes (rsm_proof msg)) in
      let* k_and_leaf_indices := indices membership_proof in
      match rsm_datagram msg with
      | RRResponse responses =>
          match para_id (smi_state_id (smh_id (proof_height (rsm_proof msg)))) with
          | Some id => ret (Ok (Some (HandlePostResponses (solidity_proof id (smh_height (proof_height (rsm_proof msg))) membership_proof)
              (response_leaves responses k_and_leaf_indices))))
          | None => ret (Ok None)
          end
      | RRRequest _ => ret (Err (AnyMessage (lit "Get requests are not supported by relayer")))
      end
  | MsgTimeout _ => ret (Err (AnyMessage (lit "Timeout messages not supported by relayer")))
  | MsgFraudProof _ => ret (Err (AnyMessage (lit "Unexpected fraud proof message")))
  end.

(** The gas price is always set on calls with consensus proofs. *)
Definition call_of (set_gas_price : bool) (gas_price : Z) (payload : Payload) : M W ContractCall :=
  match payload with
  | HandleConsensus _ =>
      let* estimate := en_estimate_call node payload in
      ret (mkContractCall payload (Some gas_price)
        (match estimate with Ok gas => gas | Err _ => get_chain_gas_limit (ec_state_machine client) end))
  | _ => ret (mkContractCall payload (if set_gas_price then Some gas_price else None) (get_chain_gas_limit (ec_state_machine client)))
  end.

Definition generate_contract_calls (messages : list Message) (debug_trace : bool) : Net W (list ContractCall) :=
  let? _ := en_handler node in
  let set_gas_price := negb debug_trace || ec_erigon client in
  let? gas_price := if set_gas_price then en_gas_price node else ret (Ok 0) in
  try_fold_m (fun calls message =>
    let? payload := payload_of message in
    match payload with
    | None => ret (Ok calls)
    | Some payload => let* call := call_of set_gas_price gas_price payload in ret (Ok (calls ++ [call]))
    end) [] messages.

(** [parse_log] of the events that the handler emits for requests and responses. *)
Context (parse_request_handled parse_response_handled : TxLog -> option H256).

Definition commitment_of_log (l : TxLog) : option H256 :=
  match parse_request_handled l with Some c => Some c | None => parse_response_handled l end.

(** A transaction that is not mined in time is sent once more, at twice the price, if it carries a
    consensus proof; otherwise it is cancelled at ten times its price. *)
Definition send_error (e : SendError) : AnyError :=
  match e with RateLimited => AnyMessage (lit "429") | SendFailed e => e end.

Definition mined (receipt : EthReceipt) : result AnyError (list H256) :=
  match er_status receipt with
  | Some 1 => Ok (omap commitment_of_log (er_logs receipt))
  | _ => Err (AnyMessage (lit "Transaction reverted"))
  end.

Definition wait_without_retry (tx : nat) (gas_price : option Z) : Net W (list H256) :=
  let* awaited := en_await node tx in
  match awaited with
  | Mined (Some receipt) => ret (mined receipt)
  | BroadcastError e => ret (Err e)
  | Mined None | TimedOut =>
      let* price := or_panic (match gas_price with Some price => Some <$> u256_mul price 10 | None => Some None end) in
      let* _ := en_cancel node price in
      ret (Err (AnyMessage (lit "Transaction was cancelled!")))
  end.

Definition wait_for_success (tx : nat) (gas_price : option Z) (retry : option ContractCall) : Net W (list H256) :=
  match retry with
  | None => wait_without_retry tx gas_price
  | Some call =>
      let* awaited := en_await node tx in
      match awaited with
      | Mined (Some receipt) => ret (mined receipt)
      | BroadcastError e => ret (Err e)
      | Mined None | TimedOut =>
          let? current := en_gas_price node in
          let* gas_price := or_panic (u256_mul current 2) in
          let* pending := en_send node (mkContractCall (cc_payload call) (Some gas_price) (cc_gas call)) in
          match pending with
          | Ok tx => wait_without_retry tx (Some gas_price)
          | Err e => ret (Err (send_error e))
          end
      end
  end.

(** The calls one by one, with the set of the commitments that were handled; a call that was rate limited starts the whole submission again. [None] in
    the place of a result asks for that. [messages[index]] panics if there are fewer messages. *)
Fixpoint send_calls (messages : list Message) (calls : list ContractCall) (index : nat) (events : list H256) :
    Net W (option (list H256)) :=
  match calls with
  | [] => ret (Ok (Some events))
  | call :: calls =>
      let* sent := en_send node call in
      match sent with
      | Err RateLimited => ret (Ok None)
      | Err (SendFailed e) => ret (Err e)
      | Ok tx =>
          let* message := or_panic (messages !! index) in
          let retry := match message with MsgConsensus _ => Some call | _ => None end in
          let? evs := wait_for_success tx (cc_gas_price call) retry in
          send_calls messages calls (S index) (events ++ evs)
      end
  end.

(** [fuel] bounds how often the node limits the rate. *)
Fixpoint submit_messages (fuel : nat) (messages : list Message) : Net W (list H256) :=
  let? calls := generate_contract_calls messages false in
  let? sent := send_calls messages calls 0 [] in
  match sent, fuel with
  | Some events, _ => ret (Ok events)
  | None, S fuel => submit_messages fuel messages
  | None, O => panic
  end.

(** The receipt of a request or response whose commitment is among those that were handled. *)
Definition request_receipt (handled : list H256) (height : Z) (req : Request) : option (option TxReceipt) :=
  query ← query_of_request req;
  Some (if bool_decide (qy_commitment query ∈ handled) then Some (TxRequest query height) else None).
Definition response_receipt (handled : list H256) (height : Z) (res : Response) : option (option TxReceipt) :=
  query ← query_of_response res;
  request_commitment ← hash_request (response_request res);
  Some (if bool_decide (qy_commitment query ∈ handled) then Some (TxResponse query request_commitment height) else None).

Definition receipts_of (handled : list H256) (height : Z) (msg : Message) : option (list TxReceipt) :=
  match msg with
  | MsgRequest req_msg => omap id <$> mapM (fun post => request_receipt handled height (RequestPost post)) (rm_requests req_msg)
  | MsgResponse resp_msg =>
      match rsm_datagram resp_msg with
      | RRResponse resp => omap id <$> mapM (response_receipt handled height) resp
      | RRRequest _ => Some []
      end
  | _ => Some []
  end.

Definition handle_message_submission (fuel : nat) (messages : list Message) : Net W (list TxReceipt) :=
  let? receipts := submit_messages fuel messages in
  let? height := en_block_number node in
  let* results := or_panic (mapM (receipts_of receipts (low_u64 height)) messages) in
  ret (Ok (concat results)).

End calls.

(** ** Theorems *)

(** *** Events *)

Definition blocks (r : Z * Z) : list Z := seqZ r.1 (r.2 - r.1 + 1).

Lemma ranges_concat chunk first last n : 0 < chunk -> (n <= Z.to_nat ((last - first) / chunk))%nat -> first <= last ->
  concat ((fun i => blocks (Z.of_nat i * chunk + first,
      if Z.of_nat i =? (last - first) / chunk then last else Z.of_nat i * chunk + first + chunk - 1)) <$> seq 0 n)
  = seqZ first (Z.of_nat n * chunk).
Proof.
  intros Hc Hn Hl. induction n as [|n IH]; [done|]. rewrite seq_S, fmap_app, concat_app, IH by lia. cbn [fmap list_fmap concat]. rewrite app_nil_r. cbn [Nat.add].
  assert (Hne : (Z.of_nat n =? (last - first) / chunk) = false) by (apply Z.eqb_neq; lia). rewrite Hne. unfold blocks. cbn [fst snd].
  rewrite Nat2Z.inj_succ, Z.mul_succ_l, (seqZ_app first (Z.of_nat n * chunk) chunk) by nia. f_equal. f_equal; lia.
Qed.

Lemma block_ranges_cover chunk first last : 0 < chunk ->
  exists ranges, block_ranges chunk first last = Some ranges /\ concat (blocks <$> ranges) = seqZ first (last - first + 1) /\
    Forall (fun r => first <= r.1 <= r.2 /\ r.2 <= last /\ r.2 - r.1 < chunk) ranges.
Proof.
  intros Hc. unfold block_ranges. destruct (Z.ltb_spec last first) as [Hl|Hl].
  { exists []. rewrite seqZ_nil by lia. done. }
  destruct (Z.eqb_spec chunk 0) as [?|_]; [lia|]. unfold saturating_sub. rewrite Z.max_r by lia. eexists. split; [done|].
  set (q := (last - first) / chunk). pose proof (Z.div_mod (last - first) chunk ltac:(lia)) as Hd. fold q in Hd.
  pose proof (Z.mod_pos_bound (last - first) chunk Hc) as Hm. assert (Hq : 0 <= q) by (apply Z.div_pos; lia). split.
  - rewrite <- list_fmap_compose. unfold compose. rewrite seq_S, fmap_app, concat_app. cbn [fmap list_fmap concat]. rewrite app_nil_r.
    rewrite (ranges_concat chunk first last) by (fold q; lia). cbn [Nat.add]. rewrite !Z2Nat.id by done. rewrite (proj2 (Z.eqb_eq q q) eq_refl).
    unfold blocks. cbn [fst snd]. replace (last - first + 1) with (q * chunk + (last - (q * chunk + first) + 1)) by lia.
    rewrite (seqZ_app first (q * chunk)) by nia. f_equal. f_equal; lia.
  - apply Forall_fmap, Forall_forall. intros i Hi%elem_of_seq. cbn [fst snd compose]. destruct (Z.eqb_spec (Z.of_nat i) q) as [->|Hne]; [nia|].
    assert (Z.of_nat i + 1 <= q) by lia. nia.
Qed.

Section events.
Context {W : Type} (client : EvmClient) (node : EvmNode W) (logs : Z -> list Event).

(** The node answers with the events of the blocks, in order. *)
Definition logs_answered : Prop := forall a b w, en_events node a b w = (Some (Ok (concat (logs <$> seqZ a (b - a + 1)))), w).

(** The events that a provider reports for an update are those of all blocks after the previous height, up
    to that of the update, each block once and in order, whatever the size of the batches in which
    they are asked for. *)
Theorem evm_events_complete previous event w :
  logs_answered -> 0 < default 1000000000 (ec_query_batch_size client) -> 0 <= previous < u64_max ->
  evm_query_ismp_events client node previous event w
  = (Some (Ok (concat (logs <$> seqZ (previous + 1) (smu_latest_height event - previous)))), w).
Proof.
  intros Ha Hc Hp. unfold evm_query_ismp_events. assert (Hw : wrap64 (previous + 1) = previous + 1) by (unfold wrap64, u64_max in *; rewrite Z.mod_small; lia).
  rewrite Hw. destruct (block_ranges_cover _ (previous + 1) (smu_latest_height event) Hc) as (ranges & Hr & Hb & _). rewrite Hr. cbn [or_panic].
  unfold bind at 1, ret at 1.
  assert (Hm : forall l, map_m (fun r => en_events node r.1 r.2) l w = (Some ((fun r => Ok (concat (logs <$> blocks r))) <$> l), w)).
  { induction l as [|r l IH]; [done|]. cbn [map_m fmap list_fmap]. rewrite (bind_some _ _ _ _ _ (Ha _ _ _)). by rewrite (bind_some _ _ _ _ _ IH). }
  rewrite (bind_some _ _ _ _ _ (Hm ranges)). unfold ret. do 3 f_equal. rewrite <- list_fmap_compose. unfold compose. cbn.
  replace (smu_latest_height event - previous) with (smu_latest_height event - (previous + 1) + 1) by lia. rewrite <- Hb. clear.
  induction ranges as [|r l IH]; [done|]. cbn. by rewrite fmap_app, concat_app, IH.
Qed.

End events.

(** *** Proofs *)

(** More nodes do not hide what fewer nodes show: they are found by their hash. *)
Class EvmTrieMono `{!EvmTrie} : Prop := eth_trie_get_mono nodes nodes' root key v :
  eth_trie_get nodes root key = Ok v -> nodes ⊆ nodes' -> eth_trie_get nodes' root key = Ok v.

Lemma proof_new_nodes nodes n : n ∈ into_nodes (storage_proof_new nodes) <-> n ∈ nodes.
Proof.
  unfold storage_proof_new. enough (forall acc, n ∈ into_nodes (foldl proof_insert acc nodes) <-> n ∈ into_nodes acc \/ n ∈ nodes) as Hgen.
  { rewrite Hgen. split; [intros [?%elem_of_nil|?]; done|by right]. }
  induction nodes as [|x nodes IH]; intros acc; cbn [foldl]; [split; [by left|intros [?|?%elem_of_nil]; done]|].
  rewrite IH. unfold proof_insert, into_nodes. rewrite btree_insert_keys by apply compare_bytes_lawful. rewrite elem_of_cons. tauto.
Qed.

(** A merged proof has the nodes of its parts, sorted, each once. *)
Lemma proof_merge_nodes proofs n : n ∈ into_nodes (storage_proof_merge proofs) <-> exists p, p ∈ proofs /\ n ∈ into_nodes p.
Proof.
  unfold storage_proof_merge. rewrite proof_new_nodes, list_elem_of_In, in_concat. split.
  - intros (l & Hl & Hn). apply list_elem_of_In in Hl, Hn. apply list_elem_of_fmap in Hl as (p & -> & Hp). by exists p.
  - intros (p & Hp & Hn). exists (into_nodes p). rewrite <- !list_elem_of_In. split; [|done]. apply list_elem_of_fmap. by exists p.
Qed.

Section proofs.
Context `{Keccak256} `{!Codec EvmStateProof} `{!EvmTrie} `{!EvmTrieMono} {W : Type} (client : EvmClient) (node : EvmNode W).
Context (root : StateCommitment) (at_ : Z) (account : Account) (storage : H256 -> option bytes).

(** The node proves the account of the host, under the root of the block, and its slots. *)
Definition proofs_answered : Prop := forall keys w, exists pf raw,
  en_get_proof node (ec_ismp_host client) keys at_ w = (Some (Ok pf), w) /\
  eth_trie_get (ep_account_proof pf) (sc_state_root root) (keccak256 (ec_ismp_host client)) = Ok (Some raw) /\
  rlp_decode_account raw = Some account /\
  Forall2 (fun key nodes => eth_trie_get nodes (acc_storage_root account) (keccak256 key) = Ok (storage key)) keys (ep_storage_proof pf).

Lemma merged_proves keys proofs :
  Forall2 (fun key nodes => eth_trie_get nodes (acc_storage_root account) (keccak256 key) = Ok (storage key)) keys proofs ->
  forall key, key ∈ keys ->
  eth_trie_get (into_nodes (storage_proof_merge (storage_proof_new <$> proofs))) (acc_storage_root account) (keccak256 key) = Ok (storage key).
Proof.
  intros Hf key Hk. apply list_elem_of_lookup in Hk as (i & Hi). destruct (Forall2_lookup_l _ _ _ _ _ Hf Hi) as (nodes & Hn & Hg).
  eapply eth_trie_get_mono; [exact Hg|]. intros n Hin. apply proof_merge_nodes. exists (storage_proof_new nodes). split; [|by apply proof_new_nodes].
  apply list_elem_of_fmap. exists nodes. split; [done|]. by eapply list_elem_of_lookup_2.
Qed.

Lemma values_proved keys nodes : (forall key, key ∈ keys -> eth_trie_get nodes (acc_storage_root account) (keccak256 key) = Ok (storage key)) ->
  get_values_from_proof (keccak256 <$> keys) (acc_storage_root account) nodes = Some (Ok (storage <$> keys)).
Proof.
  unfold get_values_from_proof. induction keys as [|k keys IH]; intros Hk; [done|]. cbn [fmap list_fmap vmap].
  rewrite (Hk k (list_elem_of_here _ _)). cbn. rewrite IH; [done|]. intros key Hin. apply Hk. by right.
Qed.

(** Of what the account and the slots of the contract prove, the client on hyperbridge accepts what is stored. *)
Lemma proof_accepted item keys pf raw h :
  req_res_commitment_key item = Some (keccak256 <$> keys) ->
  eth_trie_get (ep_account_proof pf) (sc_state_root root) (keccak256 (ec_ismp_host client)) = Ok (Some raw) ->
  rlp_decode_account raw = Some account ->
  Forall2 (fun key nodes => eth_trie_get nodes (acc_storage_root account) (keccak256 key) = Ok (storage key)) keys (ep_storage_proof pf) ->
  evm_verify_membership item root (mkProof h (encode (proof_of (ec_ismp_host client) pf))) (ec_ismp_host client) = Some (Ok tt) <->
  Forall (fun key => is_Some (storage key)) keys.
Proof.
  intros Hk Ha Hd Hs. unfold evm_verify_membership, decode_evm_state_proof. cbn [proof_bytes]. rewrite decode_encode.
  cbn -[get_values_from_proof get_contract_account req_res_commitment_key into_nodes storage_proof_merge compare_bytes].
  rewrite (lawful_refl _ _ compare_bytes_lawful). cbn -[get_values_from_proof get_contract_account req_res_commitment_key into_nodes storage_proof_merge].
  rewrite Hk. unfold get_contract_account. rewrite Ha, Hd. cbn -[get_values_from_proof into_nodes storage_proof_merge].
  rewrite (values_proved keys) by (by apply merged_proves). cbn. clear -keys. unfold vguard.
  assert (existsb (fun val => bool_decide (val = None)) (storage <$> keys) = false <-> Forall (fun key => is_Some (storage key)) keys) as <-.
  2: { destruct (existsb _ _); cbn; split; congruence. }
  induction keys as [|k keys IH]; [done|]. cbn. rewrite Forall_cons, <- IH. destruct (storage k) as [v|]; cbn; [by split; [|intros []]|].
  split; [done|]. intros [[] _]; done.
Qed.

(** The slot of a commitment, after the one that the mapping gives. *)
Definition slot_key (slot : Z) (c : H256) : option bytes :=
  number ← u256_add (of_be_bytes 0 (derive_unhashed_map_key c slot)) 1; Some (to_be_bytes 32 number).

Lemma commitment_keys_hashed slot (cs : list H256) (vkeys : list bytes) :
  mapM (fun c => derive_map_key_with_offset c slot 1) cs = Some vkeys ->
  exists keys : list bytes, mapM (slot_key slot) cs = Some keys /\ vkeys = keccak256 <$> keys.
Proof.
  intros Hm. apply mapM_Some in Hm. induction Hm as [|c v cs vs Hc _ (keys & Hk & ->)]; [by exists []|].
  unfold derive_map_key_with_offset, add_off_set_to_map_key in Hc. fold (derive_unhashed_map_key c slot) in Hc.
  destruct (_ <=? 32)%nat; [|done]. apply bind_Some in Hc as (b & Hb & [= <-]). exists (b :: keys). split; [|done]. cbn [mapM].
  change (slot_key slot c) with (number ← u256_add (of_be_bytes 0 (derive_unhashed_map_key c slot)) 1; Some (to_be_bytes 32 number)).
  by rewrite Hb, Hk.
Qed.

Lemma proof_built item slot (queries : list Query) h w :
  proofs_answered -> is_Some (req_res_commitment_key item) ->
  req_res_commitment_key item = mapM (fun q => derive_map_key_with_offset (qy_commitment q) slot 1) queries ->
  exists keys pf, mapM (fun q => slot_key slot (qy_commitment q)) queries = Some keys /\
    en_get_proof node (ec_ismp_host client) keys at_ w = (Some (Ok pf), w) /\
    (evm_verify_membership item root (mkProof h (encode (proof_of (ec_ismp_host client) pf))) (ec_ismp_host client) = Some (Ok tt) <->
     Forall (fun q => forall k, slot_key slot (qy_commitment q) = Some k -> is_Some (storage k)) queries).
Proof.
  intros Hn [vkeys Hv] Hi. rewrite Hv in Hi. symmetry in Hi.
  assert (Hm : mapM (fun c => derive_map_key_with_offset c slot 1) (qy_commitment <$> queries) = Some vkeys).
  { rewrite <- Hi. clear. induction queries as [|q qs IH]; [done|]. cbn. by rewrite IH. }
  apply commitment_keys_hashed in Hm as (keys & Hk & ->). destruct (Hn keys w) as (pf & raw & Hpf & Ha & Hd & Hst). exists keys, pf.
  assert (Hk' : mapM (fun q => slot_key slot (qy_commitment q)) queries = Some keys).
  { rewrite <- Hk. clear. induction queries as [|q qs IH]; [done|]. cbn. by rewrite IH. }
  split; [done|]. split; [done|]. etransitivity; [by eapply proof_accepted|]. apply mapM_Some in Hk'. clear -Hk'.
  induction Hk' as [|q k qs ks Hq _ IH]; [done|]. rewrite !Forall_cons, IH. split; intros [Hq' ?]; (split; [|done]).
  - intros k' Hk'. by assert (k' = k) as -> by congruence.
  - by apply Hq'.
Qed.

Lemma stored_iff (f : H256 -> option (bytes * bytes)) slot (queries : list Query) :
  (forall c, slot_key slot c = snd <$> f c) ->
  Forall (fun q => forall k, slot_key slot (qy_commitment q) = Some k -> is_Some (storage k)) queries <->
  Forall (fun q => forall k, f (qy_commitment q) = Some k -> is_Some (storage k.2)) queries.
Proof.
  intros Hf. rewrite !Forall_forall. split; intros Hq q Hin k Hk.
  - apply (Hq q Hin). by rewrite Hf, Hk.
  - rewrite Hf in Hk. apply fmap_Some in Hk as (x & Hx & ->). by apply (Hq q Hin).
Qed.

(** C16: what the relayer proves about an EVM chain is judged by what the contract stores. If the
    node proves the slots of the host contract that it is asked for, the provider always builds a
    proof for requests or responses, and the check that the EVM state machine client makes of it
    passes if and only if the contract has a value in the slot of each of their commitments: the
    provider asks for the slots that the client will look up, and merging the paths loses none of
    them and adds none. *)
Theorem evm_proofs_accepted requests responses rqs pqs machine h w :
  proofs_answered ->
  Forall2 (fun req q => query_of_request req = Some q) requests rqs ->
  Forall2 (fun res q => query_of_response res = Some q) responses pqs ->
  is_Some (req_res_commitment_key (RRRequest requests)) -> is_Some (req_res_commitment_key (RRResponse responses)) ->
  (exists proof, evm_query_requests_proof client node at_ rqs machine w = (Some (Ok proof), w) /\
     (evm_verify_membership (RRRequest requests) root (mkProof h proof) (ec_ismp_host client) = Some (Ok tt) <->
      Forall (fun q => forall k, evm_request_commitment_key (qy_commitment q) = Some k -> is_Some (storage k.2)) rqs)) /\
  (exists proof, evm_query_responses_proof client node at_ pqs machine w = (Some (Ok proof), w) /\
     (evm_verify_membership (RRResponse responses) root (mkProof h proof) (ec_ismp_host client) = Some (Ok tt) <->
      Forall (fun q => forall k, evm_response_commitment_key (qy_commitment q) = Some k -> is_Some (storage k.2)) pqs)).
Proof.
  intros Hn Hr Hp Hrk Hpk.
  assert (Hreq : forall c, slot_key REQUEST_COMMITMENTS_SLOT c = snd <$> evm_request_commitment_key c)
    by (intros c; unfold evm_request_commitment_key, slot_key; by destruct (u256_add _ _)).
  assert (Hres : forall c, slot_key RESPONSE_COMMITMENTS_SLOT c = snd <$> evm_response_commitment_key c)
    by (intros c; unfold evm_response_commitment_key, slot_key; by destruct (u256_add _ _)).
  split.
  - destruct (proof_built (RRRequest requests) REQUEST_COMMITMENTS_SLOT rqs h w Hn Hrk) as (keys & pf & Hk & Hpf & Hv).
    { cbn [req_res_commitment_key]. clear -Hr. induction Hr as [|req q reqs qs Hq _ IH]; [done|]. cbn [mapM]. rewrite IH.
      unfold query_of_request in Hq. apply bind_Some in Hq as (c & Hc & [= <-]). by rewrite Hc. }
    exists (encode (proof_of (ec_ismp_host client) pf)). rewrite (stored_iff _ _ _ Hreq) in Hv. split; [|done]. unfold evm_query_requests_proof.
    rewrite (mapM_ext _ (fun q => slot_key REQUEST_COMMITMENTS_SLOT (qy_commitment q))), Hk; [cbn [or_panic]; unfold bind, ret; cbn; by rewrite (try_ok _ _ _ _ _ Hpf)|].
    intros q. by rewrite Hreq.
  - destruct (proof_built (RRResponse responses) RESPONSE_COMMITMENTS_SLOT pqs h w Hn Hpk) as (keys & pf & Hk & Hpf & Hv).
    { cbn [req_res_commitment_key]. clear -Hp. induction Hp as [|res q ress qs Hq _ IH]; [done|]. cbn [mapM]. rewrite IH.
      unfold query_of_response in Hq. apply bind_Some in Hq as (c & Hc & [= <-]). by rewrite Hc. }
    exists (encode (proof_of (ec_ismp_host client) pf)). rewrite (stored_iff _ _ _ Hres) in Hv. split; [|done]. unfold evm_query_responses_proof.
    rewrite (mapM_ext _ (fun q => slot_key RESPONSE_COMMITMENTS_SLOT (qy_commitment q))), Hk; [cbn [or_panic]; unfold bind, ret; cbn; by rewrite (try_ok _ _ _ _ _ Hpf)|].
    intros q. by rewrite Hres.
Qed.

End proofs.

(** *** Receipts *)

Section receipts.
Context `{Keccak256} `{!MmrHelpers} `{!Codec MmrProof} {W : Type} (client : EvmClient) (node : EvmNode W).
Context (parse_request_handled parse_response_handled : TxLog -> option H256).

Abbreviation logged_commitment := (commitment_of_log parse_request_handled parse_response_handled).

(** A transaction was mined with success, and one of its logs has the commitment. *)
Definition logged (c : H256) : Prop := exists tx w1 w2 receipt l,
  en_await node tx w1 = (Some (Mined (Some receipt)), w2) /\ er_status receipt = Some 1 /\ l ∈ er_logs receipt /\ logged_commitment l = Some c.

Lemma mined_logged tx receipt evs w1 w2 : en_await node tx w1 = (Some (Mined (Some receipt)), w2) ->
  mined parse_request_handled parse_response_handled receipt = Ok evs -> Forall logged evs.
Proof.
  unfold mined. intros Ha. destruct (er_status receipt) as [[|[| |]|]|] eqn:Es; try done. intros [= <-].
  apply Forall_forall. intros c (l & Hl & Hc)%list_elem_of_omap. by exists tx, w1, w2, receipt, l.
Qed.

Lemma wait_without_retry_ok tx price evs w w' :
  wait_without_retry node parse_request_handled parse_response_handled tx price w = (Some (Ok evs), w') -> Forall logged evs.
Proof.
  unfold wait_without_retry. intros ([|[receipt|]|e] & w1 & Ha & Hr)%bind_inv; try done.
  - apply bind_inv in Hr as (p & w2 & _ & Hr). by apply bind_inv in Hr as (u & w3 & _ & Hr).
  - apply ret_inv in Hr as [Hr _]. by eapply mined_logged.
  - apply bind_inv in Hr as (p & w2 & _ & Hr). by apply bind_inv in Hr as (u & w3 & _ & Hr).
Qed.

Lemma wait_for_success_ok tx price retry evs w w' :
  wait_for_success node parse_request_handled parse_response_handled tx price retry w = (Some (Ok evs), w') -> Forall logged evs.
Proof.
  assert (Hagain : forall (call : ContractCall) w, (let? current := en_gas_price node in
      let* gas_price := or_panic (u256_mul current 2) in
      let* pending := en_send node (mkContractCall (cc_payload call) (Some gas_price) (cc_gas call)) in
      match pending with
      | Ok tx => wait_without_retry node parse_request_handled parse_response_handled tx (Some gas_price)
      | Err e => ret (Err (send_error e))
      end) w = (Some (Ok evs), w') -> Forall logged evs).
  { intros call w0 (cur & w1 & _ & Hr)%try_ok_inv. apply bind_inv in Hr as (p & w2 & _ & Hr). apply bind_inv in Hr as ([tx'|e] & w3 & _ & Hr); [|done].
    by eapply wait_without_retry_ok. }
  unfold wait_for_success. destruct retry as [call|]; [|apply wait_without_retry_ok].
  intros ([|[receipt|]|e] & w1 & Ha & Hr)%bind_inv; [by eapply Hagain| |by eapply Hagain|done].
  apply ret_inv in Hr as [Hr _]. by eapply mined_logged.
Qed.

Lemma send_calls_ok messages calls index events r w w' : Forall logged events ->
  send_calls node parse_request_handled parse_response_handled messages calls index events w = (Some (Ok (Some r)), w') -> Forall logged r.
Proof.
  revert index events w. induction calls as [|call calls IH]; intros index events w He; cbn [send_calls]; [by intros [= <- <-]|].
  intros ([tx|[|e]] & w1 & _ & Hr)%bind_inv; try done. apply bind_inv in Hr as (m & w2 & _ & Hr). apply try_ok_inv in Hr as (evs & w3 & Hw & Hr).
  eapply IH; [|exact Hr]. apply Forall_app. split; [done|]. by eapply wait_for_success_ok.
Qed.

Lemma submit_messages_ok fuel messages r w w' :
  submit_messages client node parse_request_handled parse_response_handled fuel messages w = (Some (Ok r), w') -> Forall logged r.
Proof.
  revert w. induction fuel as [|fuel IH]; intros w; cbn [submit_messages]; intros (calls & w1 & _ & Hr)%try_ok_inv;
    apply try_ok_inv in Hr as ([events|] & w2 & Hs & Hr); try done; try (injection Hr as <- <-; eapply send_calls_ok; [|exact Hs]; done).
  by eapply IH.
Qed.

(** The receipt of something that a message carries. *)
Definition carries (msg : Message) (height : Z) (rc : TxReceipt) : Prop :=
  (exists req post q, msg = MsgRequest req /\ post ∈ rm_requests req /\ query_of_request (RequestPost post) = Some q /\ rc = TxRequest q height) \/
  (exists resp resps res q c, msg = MsgResponse resp /\ rsm_datagram resp = RRResponse resps /\ res ∈ resps /\
     query_of_response res = Some q /\ hash_request (response_request res) = Some c /\ rc = TxResponse q c height).

Lemma mapM_elem_iff {A B} (f : A -> option B) l k y : mapM f l = Some k -> y ∈ k <-> exists x, x ∈ l /\ f x = Some y.
Proof.
  intros Hm%mapM_Some. split.
  - intros (i & Hi)%list_elem_of_lookup. destruct (Forall2_lookup_r _ _ _ _ _ Hm Hi) as (x & Hx & E). exists x. split; [by eapply list_elem_of_lookup_2|done].
  - intros (x & (i & Hi)%list_elem_of_lookup & Hx). destruct (Forall2_lookup_l _ _ _ _ _ Hm Hi) as (y' & Hy & E). rewrite Hx in E. injection E as <-.
    by eapply list_elem_of_lookup_2.
Qed.

Lemma elem_of_omap_id {A} (l : list (option A)) x : x ∈ omap id l <-> Some x ∈ l.
Proof. rewrite list_elem_of_omap. split; [intros (o & Ho & E); by destruct o; simplify_eq/=|]. intros Hx. by exists (Some x). Qed.

Lemma receipts_of_ok handled height msg rcs : receipts_of handled height msg = Some rcs ->
  forall rc, rc ∈ rcs <-> carries msg height rc /\ qy_commitment (tx_query rc) ∈ handled.
Proof.
  intros Hr rc. unfold carries. destruct msg as [m|m|m|m|m]; cbn [receipts_of] in Hr; try (injection Hr as <-; rewrite elem_of_nil; naive_solver).
  - apply fmap_Some in Hr as (os & Hm & ->). rewrite elem_of_omap_id, (mapM_elem_iff _ _ _ _ Hm). unfold request_receipt. split.
    + intros (post & Hp & E). apply bind_Some in E as (q & Hq & E). case_bool_decide; [|done]. injection E as <-.
      split; [left; by exists m, post, q|done].
    + intros [[(req & post & q & [= <-] & Hp & Hq & ->)|(? & ? & ? & ? & ? & ? & _)] Hin]; [|done]. exists post. split; [done|].
      rewrite Hq. cbn. cbn in Hin. by rewrite bool_decide_true.
  - destruct (rsm_datagram m) as [reqs|resps] eqn:Ed.
    { injection Hr as <-. rewrite elem_of_nil. split; [done|]. intros [[(? & ? & ? & [=] & _)|(? & ? & ? & ? & ? & [= <-] & Ed' & _)] _]. congruence. }
    apply fmap_Some in Hr as (os & Hm & ->). rewrite elem_of_omap_id, (mapM_elem_iff _ _ _ _ Hm). unfold response_receipt. split.
    + intros (res & Hp & E). apply bind_Some in E as (q & Hq & E). apply bind_Some in E as (c & Hc & E). case_bool_decide; [|done]. injection E as <-.
      split; [right; by exists m, resps, res, q, c|done].
    + intros [[(? & ? & ? & ? & _)|(resp & resps' & res & q & c & [= <-] & Ed' & Hp & Hq & Hc & ->)] Hin]; [done|]. rewrite Ed in Ed'. injection Ed' as <-.
      exists res. split; [done|]. rewrite Hq. cbn. rewrite Hc. cbn. cbn in Hin. by rewrite bool_decide_true.
Qed.

(** a delivery is recorded only if it happened. The receipts that a submission returns are those of
    exactly the requests and responses of its messages whose commitment was found in the logs of
    a transaction that was mined with success, at the height of the chain afterwards. *)
Theorem submission_receipts fuel messages results w w' :
  handle_message_submission client node parse_request_handled parse_response_handled fuel messages w = (Some (Ok results), w') ->
  exists handled height w1 w2,
    submit_messages client node parse_request_handled parse_response_handled fuel messages w = (Some (Ok handled), w1) /\
    Forall logged handled /\ en_block_number node w1 = (Some (Ok height), w2) /\
    forall rc, rc ∈ results <-> exists msg, msg ∈ messages /\ carries msg (low_u64 height) rc /\ qy_commitment (tx_query rc) ∈ handled.
Proof.
  intros (handled & w1 & Hs & Hr)%try_ok_inv. apply try_ok_inv in Hr as (height & w2 & Hb & Hr). apply bind_inv in Hr as (rs & w3 & Hm & Hr).
  apply or_panic_inv in Hm as [Hm _]. injection Hr as <- _. exists handled, height, w1, w2. split; [done|]. split; [by eapply submit_messages_ok|].
  split; [done|]. intros rc. rewrite list_elem_of_In, in_concat. split.
  - intros (l & Hl & Hrc). apply list_elem_of_In in Hl, Hrc. apply (mapM_elem_iff _ _ _ _ Hm) in Hl as (msg & Hmsg & E).
    exists msg. split; [done|]. by apply (receipts_of_ok _ _ _ _ E).
  - intros (msg & Hmsg & Hc). destruct (receipts_of handled (low_u64 height) msg) as [l|] eqn:E.
    + exists l. rewrite <- !list_elem_of_In. split; [apply (mapM_elem_iff _ _ _ _ Hm); eauto|]. by apply (receipts_of_ok _ _ _ _ E).
    + apply mapM_Some in Hm. apply list_elem_of_lookup in Hmsg as (i & Hi). destruct (Forall2_lookup_l _ _ _ _ _ Hm Hi) as (? & _ & E'). congruence.
Qed.

End receipts.

(** *** Calls *)

Section calls_follow.
Context `{Keccak256} `{!MmrHelpers} `{!Codec MmrProof} {W : Type} (client : EvmClient) (node : EvmNode W).

(** The index of each leaf within its mountain, and its index among all leaves. *)
Definition indexed (p : MmrProof) (indices : list (Z * Z)) : Prop :=
  Forall2 (fun leaf i => k_and_leaf_index (nodes_size (PalletTypes.leaf_count p)) leaf = Some i) (PalletTypes.leaf_indices_and_pos p) indices.

(** The call that delivers a message. *)
Definition call_for (msg : Message) (call : ContractCall) : Prop :=
  match msg with
  | MsgConsensus m => cc_payload call = HandleConsensus (cm_consensus_proof m)
  | MsgRequest m => exists p indices id leaves,
      decode (proof_bytes (rm_proof m)) = Some p /\ indexed p indices /\ para_id (smi_state_id (smh_id (proof_height (rm_proof m)))) = Some id /\
      cc_payload call = HandlePostRequests (solidity_proof id (smh_height (proof_height (rm_proof m))) p) leaves /\
      leaves ≡ₚ ((fun x => mkRequestLeaf_ x.1 x.2.2 x.2.1) <$> zip (rm_requests m) indices) /\
      StronglySorted (fun a b => rl_index a <= rl_index b) leaves /\ cc_gas call = get_chain_gas_limit (ec_state_machine client)
  | MsgResponse m => exists p indices id resps leaves,
      decode (proof_bytes (rsm_proof m)) = Some p /\ indexed p indices /\ para_id (smi_state_id (smh_id (proof_height (rsm_proof m)))) = Some id /\
      rsm_datagram m = RRResponse resps /\
      cc_payload call = HandlePostResponses (solidity_proof id (smh_height (proof_height (rsm_proof m))) p) leaves /\
      leaves ≡ₚ omap (fun x => match x.1 with ResponsePost res => Some (mkResponseLeaf_ res x.2.2 x.2.1) | ResponseGet _ => None end) (zip resps indices) /\
      StronglySorted (fun a b => sl_index a <= sl_index b) leaves /\ cc_gas call = get_chain_gas_limit (ec_state_machine client)
  | _ => False
  end.

(** Responses from chains that have no identifier on the host contract. *)
Definition skipped (msg : Message) : bool :=
  match msg with
  | MsgResponse m => bool_decide (para_id (smi_state_id (smh_id (proof_height (rsm_proof m)))) = None)
  | _ => false
  end.

Lemma payload_of_ok set_price price msg o (w w' : W) : payload_of msg w = (Some (Ok o), w') ->
  match o with
  | None => skipped msg = true
  | Some payload => skipped msg = false /\ forall call w1 w2, call_of client node set_price price payload w1 = (Some call, w2) -> call_for msg call
  end.
Proof.
  assert (Hcall : forall payload call w1 w2, match payload with HandleConsensus _ => False | _ => True end ->
    call_of client node set_price price payload w1 = (Some call, w2) -> cc_payload call = payload /\ cc_gas call = get_chain_gas_limit (ec_state_machine client)).
  { intros [| |] call w1 w2 Hp; [done|intros [= <- _]; done..]. }
  destruct msg as [m|m|m|m|m]; try done; cbn [payload_of skipped call_for].
  - intros [= <- <-]. split; [done|]. intros call w1 w2 (est & w3 & _ & [= <- _])%bind_inv. done.
  - intros (p & w1 & Hd & Hr)%try_ok_inv. apply bind_inv in Hr as (indices & w2 & Hi & Hr). apply bind_inv in Hr as (id & w3 & Hid & [= <- _]).
    apply ret_inv in Hd as [Hd _]. apply or_panic_inv in Hi as [Hi _], Hid as [Hid _]. split; [done|]. intros call wa wb Hc.
    apply Hcall in Hc as [Hp Hg]; [|done]. destruct (sort_by_key_ok rl_index ((fun x => mkRequestLeaf_ x.1 x.2.2 x.2.1) <$> zip (rm_requests m) indices)) as [Hperm Hs].
    exists p, indices, id, (request_leaves (rm_requests m) indices). split; [by destruct (decode _); simplify_eq/=|].
    split; [by apply mapM_Some|]. done.
  - intros (p & w1 & Hd & Hr)%try_ok_inv. apply bind_inv in Hr as (indices & w2 & Hi & Hr). apply ret_inv in Hd as [Hd _]. apply or_panic_inv in Hi as [Hi _].
    destruct (rsm_datagram m) as [|resps] eqn:Ed; [done|]. destruct (para_id _) as [id|] eqn:Eid; injection Hr as <- _; [|done]. split; [done|]. intros call wa wb Hc.
    apply Hcall in Hc as [Hp Hg]; [|done].
    destruct (sort_by_key_ok sl_index (omap (fun x => match x.1 with
      | ResponsePost res => Some (mkResponseLeaf_ res x.2.2 x.2.1) | ResponseGet _ => None end) (zip resps indices))) as [Hperm Hs].
    exists p, indices, id, resps, (response_leaves resps indices). split; [by destruct (decode _); simplify_eq/=|]. split; [by apply mapM_Some|]. done.
Qed.

(** The calls are made from the messages in order: each carries the requests or responses of its
    message with the positions of their leaves, sorted by index as the contract expects them, and the
    gas limit of the chain. A message is only left out if it has responses of a chain that the contract
    does not know. *)
Theorem calls_follow_messages messages debug_trace calls w w' :
  generate_contract_calls client node messages debug_trace w = (Some (Ok calls), w') ->
  Forall2 call_for (filter (fun m => skipped m = false) messages) calls.
Proof.
  intros (hd_ & w1 & _ & Hr)%try_ok_inv. apply try_ok_inv in Hr as (price & w2 & _ & Hr). set (set_price := negb debug_trace || ec_erigon client) in Hr.
  enough (Hgen : forall acc w, try_fold_m (E := AnyError) (fun calls message =>
      let? payload := payload_of message in
      match payload with
      | None => ret (Ok calls)
      | Some payload => let* call := call_of client node set_price price payload in ret (Ok (calls ++ [call]))
      end) acc messages w = (Some (Ok calls), w') -> exists rest, calls = acc ++ rest /\ Forall2 call_for (filter (fun m => skipped m = false) messages) rest).
  { destruct (Hgen [] w2 Hr) as (rest & -> & Hf). done. }
  clear Hr. induction messages as [|m ms IH]; intros acc wa; cbn [try_fold_m]; [intros [= <- _]; exists []; by rewrite app_nil_r|].
  intros (acc' & wb & Hm & Hr)%try_ok_inv. apply try_ok_inv in Hm as (o & wc & Hp & Hm). apply (payload_of_ok set_price price) in Hp.
  rewrite filter_cons. destruct o as [payload|].
  - destruct Hp as [Hsk Hcall]. apply bind_inv in Hm as (call & wd & Hc & [= <- _]). destruct (IH _ _ Hr) as (rest & -> & Hf).
    rewrite decide_True by done. exists (call :: rest). split; [by rewrite <- app_assoc|]. constructor; [by eapply Hcall|done].
  - injection Hm as <- _. rewrite decide_False by (by rewrite Hp). by eapply IH.
Qed.

End calls_follow.

(** *** Keys of claims *)

(** [tesseract/substrate/src/{lib, provider}.rs]: the keys of a substrate chain. *)
Definition substrate_request_commitment_full_key (commitment : H256) : list bytes := [request_commitment_storage_key commitment].
Definition substrate_request_receipt_full_key (commitment : H256) : list bytes := [request_receipt_storage_key commitment].
Definition substrate_response_commitment_full_key (commitment : H256) : list bytes := [response_commitment_storage_key commitment].
Definition substrate_response_receipt_full_key (commitment : H256) : list bytes := [response_receipt_storage_key commitment].

Section claim_keys.
Context `{Keccak256} {W : Type}.
Implicit Types (p source dest : IsmpProvider W).

(** A provider of either kind, where the next slot of a key does not overflow. *)
Definition full_keys p (c : H256) : Prop :=
  if is_evm (provider_chain p) then
    evm_request_commitment_full_key c = Some (request_commitment_full_key p c) /\
    request_receipt_full_key p c = evm_request_receipt_full_key c /\
    evm_response_commitment_full_key c = Some (response_commitment_full_key p c) /\
    evm_response_receipt_full_key c = Some (response_receipt_full_key p c)
  else is_substrate (provider_chain p) = true ->
    request_commitment_full_key p c = substrate_request_commitment_full_key c /\
    request_receipt_full_key p c = substrate_request_receipt_full_key c /\
    response_commitment_full_key p c = substrate_response_commitment_full_key c /\
    response_receipt_full_key p c = substrate_response_receipt_full_key c.

(** The commitments of a receipt. *)
Definition claim_commitments (rc : TxReceipt) : list H256 :=
  match rc with TxRequest q _ => [qy_commitment q] | TxResponse q c _ => [qy_commitment q; c] end.

Lemma commitment_key_asked source dest rc k : Forall (full_keys source) (claim_commitments rc) ->
  commitment_key (provider_chain source) (key_of rc) = Some k -> k ∈ ck_source (claim_of_receipt source dest rc).
Proof.
  intros Hf Hk. unfold full_keys in Hf. destruct rc as [q h|q c h]; cbn in *; apply Forall_cons in Hf as [Hf _];
    (destruct (is_evm (provider_chain source)); [|destruct (is_substrate (provider_chain source)); [|done]; destruct (Hf eq_refl) as (E1 & _ & E2 & _);
      injection Hk as <-; rewrite ?E1, ?E2; left]); injection Hk as <-.
  - destruct Hf as (Hf & _). apply fmap_Some in Hf as ([k1 k2] & E & ->). unfold evm_request_commitment_key in E.
    apply bind_Some in E as (n & _ & [= <- _]). left.
  - destruct Hf as (_ & _ & Hf & _). apply fmap_Some in Hf as ([k1 k2] & E & ->). unfold evm_response_commitment_key in E.
    apply bind_Some in E as (n & _ & [= <- _]). left.
Qed.

Lemma receipt_key_asked source dest rc k : Forall (full_keys dest) (claim_commitments rc) ->
  receipt_key (provider_chain dest) (key_of rc) = Some k -> k ∈ ck_dest (claim_of_receipt source dest rc).
Proof.
  intros Hf Hk. unfold full_keys in Hf. destruct rc as [q h|q c h]; cbn in *; apply Forall_cons in Hf as [Hf Hf2].
  - destruct (is_evm (provider_chain dest)); [|destruct (is_substrate (provider_chain dest)); [|done]; destruct (Hf eq_refl) as (_ & E & _)];
      injection Hk as <-; [destruct Hf as (_ & E & _)|]; rewrite E; left.
  - apply Forall_cons in Hf2 as [Hf2 _]. destruct (is_evm (provider_chain dest)).
    + injection Hk as <-. destruct Hf2 as (_ & _ & _ & E). unfold evm_response_receipt_full_key, evm_response_receipt_key in E.
      apply bind_Some in E as (n & _ & [= <-]). left.
    + destruct (is_substrate (provider_chain dest)); [|done]. destruct (Hf2 eq_refl) as (_ & _ & _ & E). injection Hk as <-. rewrite E. left.
Qed.

(** The second slot of the receipt of a response. *)
Lemma second_slot_asked source dest rc k k2 : Forall (full_keys dest) (claim_commitments rc) -> is_evm (provider_chain dest) = true ->
  receipt_key (provider_chain dest) (key_of rc) = Some k -> add_off_set_to_map_key k 1 = Some k2 ->
  match key_of rc with KeyResponse _ _ => k2 ∈ ck_dest (claim_of_receipt source dest rc) | KeyRequest _ => True end.
Proof.
  intros Hf He Hk Hk2. unfold full_keys in Hf. rewrite He in Hf. destruct rc as [q h|q c h]; [done|]. cbn in *. apply Forall_cons in Hf as [_ Hf].
  apply Forall_cons in Hf as [(_ & _ & _ & E) _]. rewrite He in Hk. injection Hk as <-. unfold evm_response_receipt_full_key, evm_response_receipt_key in E.
  apply bind_Some in E as (n & Hn & [= <-]). unfold add_off_set_to_map_key in Hk2. destruct (_ <=? 32)%nat; [|done]. rewrite Hn in Hk2. injection Hk2 as <-.
  right. left.
Qed.

Lemma receipt_keys_all dest rcs : is_evm (provider_chain dest) = true ->
  Forall2 (fun rc k => receipt_key (provider_chain dest) (key_of rc) = Some k) rcs (omap (receipt_key (provider_chain dest)) (key_of <$> rcs)).
Proof.
  intros He. induction rcs as [|rc rcs IH]; [constructor|]. cbn [fmap list_fmap omap list_omap].
  assert (exists k, receipt_key (provider_chain dest) (key_of rc) = Some k) as [k Hk] by (destruct rc; cbn; rewrite He; eauto).
  rewrite Hk. by constructor.
Qed.

(** The relayer asks for what hyperbridge will read. For a claim of deliveries between chains with the
    keys of the EVM or of the substrate provider, every key that the relayer pallet looks up in the
    two proofs is among those that the relayer has had proved: the commitments on the
    source, and on the destination the receipts, and for responses on an EVM chain the slots after
    them. *)
Theorem claim_keys_asked source dest source_proof dest_proof source_height dest_height rcs :
  Forall (fun rc => Forall (full_keys source) (claim_commitments rc) /\ Forall (full_keys dest) (claim_commitments rc)) rcs ->
  let keys := claim_of_receipt source dest <$> rcs in
  let proof := claim_proof source dest source_proof dest_proof source_height dest_height keys in
  get_commitment_keys proof ⊆ concat (ck_source <$> keys) /\
  get_receipt_keys proof ⊆ concat (ck_dest <$> keys) /\
  forall slot_2, slot_2_keys proof (get_receipt_keys proof) = Some slot_2 -> slot_2 ⊆ concat (ck_dest <$> keys).
Proof.
  intros Hf keys proof. rewrite Forall_forall in Hf.
  assert (Hcov : forall (side : ClaimKey -> list bytes) rc k, rc ∈ rcs -> k ∈ side (claim_of_receipt source dest rc) -> k ∈ concat (side <$> keys)).
  { intros side rc k Hrc Hk. apply list_elem_of_In, in_concat. exists (side (claim_of_receipt source dest rc)). rewrite <- !list_elem_of_In.
    split; [|done]. unfold keys. rewrite <- list_fmap_compose. apply list_elem_of_fmap. by exists rc. }
  assert (Hc : wp_commitments proof = key_of <$> rcs).
  { unfold proof, claim_proof, keys. cbn. rewrite <- list_fmap_compose. apply list_fmap_ext. intros i rc _. apply key_of_claim. }
  unfold get_commitment_keys, get_receipt_keys, slot_2_keys. rewrite Hc. cbn [wp_source_proof wp_dest_proof proof claim_proof proof_height smh_id].
  change (smi_state_id (state_machine_id source)) with (provider_chain source). change (smi_state_id (state_machine_id dest)) with (provider_chain dest).
  split_and!.
  - intros k (key & (rc & -> & Hrc)%list_elem_of_fmap & Hk)%list_elem_of_omap. eapply Hcov; [exact Hrc|]. apply commitment_key_asked; [by apply Hf|done].
  - intros k (key & (rc & -> & Hrc)%list_elem_of_fmap & Hk)%list_elem_of_omap. eapply Hcov; [exact Hrc|]. apply receipt_key_asked; [by apply Hf|done].
  - intros slot_2. destruct (is_evm (provider_chain dest)) eqn:He; [|intros [= <-]; by intros k ?%elem_of_nil].
    intros Hm k2 Hk2. apply mapM_Some in Hm. apply list_elem_of_lookup in Hk2 as (i & Hi). destruct (Forall2_lookup_r _ _ _ _ _ Hm Hi) as (k & Hk & Hoff).
    apply list_elem_of_lookup_2, list_elem_of_omap in Hk as ([k' key] & Hz & Ek). apply list_elem_of_lookup in Hz as (j & Hj).
    apply zip_lookup in Hj as [Hj1 Hj2]. destruct (Forall2_lookup_r _ _ _ _ _ (receipt_keys_all dest rcs He) Hj1) as (rc & Hrc & Hkey).
    rewrite list_lookup_fmap, Hrc in Hj2. injection Hj2 as <-. apply list_elem_of_lookup_2 in Hrc as Hin.
    assert (k' = k) as -> by (cbn in Ek; destruct (key_of rc); [done|by injection Ek]).
    pose proof (second_slot_asked source dest rc k k2 (proj2 (Hf rc Hin)) He Hkey Hoff) as Hs. cbn in Ek. destruct (key_of rc); [done|]. by eapply Hcov.
Qed.

End claim_keys.
