(* ===== verification/RelayDemo.v ===== *)
(** * A concrete relayer

    An EVM chain, hyperbridge and a few messages between them. The theorems on the relayer are
    applied to it. The world of the relayer is the list of the batches that were submitted. *)

From S2P Require Import Prelude StateMachine Router Messaging Host Handlers HostSpec RefHost ChildTrie PalletTypes PalletHost Pallet PalletDemo Apps EvmKeys DemoCodec EvmMachine Fishermen AppsDemo EvmDemo Relayer Mmr Tesseract TesseractProps RelayerDb RelayTasks TaskProps EvmProvider.

Module RelayDemo.

(** ** Hexadecimal digits *)

Definition hex_digit (n : Z) : byte := byte_of_Z (if n <? 10 then 48 + n else 87 + n).
Definition hex_value (b : byte) : option Z :=
  let n := byte_val b in
  if (48 <=? n) && (n <? 58) then Some (n - 48) else if (97 <=? n) && (n <? 103) then Some (n - 87) else None.
Definition encode_hex (b : bytes) : bytes := concat ((fun x => [hex_digit (byte_val x / 16); hex_digit (byte_val x mod 16)]) <$> b).
Fixpoint decode_hex (b : bytes) : option bytes :=
  match b with
  | [] => Some []
  | x :: y :: r => h ← hex_value x; l ← hex_value y; cons (byte_of_Z (16 * h + l)) <$> decode_hex r
  | _ => None
  end.
#[local] Instance hex : Hex := {| hex_encode := encode_hex; hex_decode := decode_hex |}.

Lemma hex_byte x : (h ← hex_value (hex_digit (byte_val x / 16)); l ← hex_value (hex_digit (byte_val x mod 16)); Some (byte_of_Z (16 * h + l))) = Some x.
Proof. destruct x; vm_compute; reflexivity. Qed.

#[local] Instance hex_laws : HexLaws.
Proof.
  intros b. cbn. induction b as [|x b IH]; [done|]. cbn [encode_hex fmap list_fmap concat app decode_hex]. pose proof (hex_byte x) as Hx.
  destruct (hex_value (hex_digit (byte_val x / 16))) as [h|]; [|done]. cbn in *. destruct (hex_value (hex_digit (byte_val x mod 16))) as [l|]; [|done].
  cbn in *. injection Hx as ->. unfold encode_hex in IH. by rewrite IH.
Qed.

(** ** Codecs *)

#[local] Notation "a *c b" := (pair_codec a b) (at level 40, left associativity).
Definition machine_codec : Codec StateMachine := PalletDemo.countable_codec.
Definition id_codec : Codec ConsensusStateId := PalletDemo.countable_codec.
Definition height_codec : Codec StateMachineHeight := PalletDemo.countable_codec.
Definition post_codec : Codec PostRequest :=
  via_codec (machine_codec *c machine_codec *c z_codec *c string_codec *c string_codec *c z_codec *c string_codec)
    (fun p => (post_source p, post_dest p, post_nonce p, post_from p, post_to p, post_timeout_timestamp p, post_body p))
    (fun x => let '(a, b, c, d, e, f, g) := x in mkPostRequest a b c d e f g) ltac:(by intros []).
Definition get_codec : Codec GetRequest :=
  via_codec (machine_codec *c machine_codec *c z_codec *c string_codec *c list_codec string_codec *c z_codec *c string_codec *c z_codec)
    (fun p => (get_source p, get_dest p, get_nonce p, get_from p, get_keys p, get_height p, get_context p, get_timeout_timestamp p))
    (fun x => let '(a, b, c, d, e, f, g, h) := x in mkGetRequest a b c d e f g h) ltac:(by intros []).
Definition request_codec : Codec Request :=
  via_codec (sum_codec post_codec get_codec)
    (fun r => match r with RequestPost p => inl p | RequestGet g => inr g end)
    (fun x => match x with inl p => RequestPost p | inr g => RequestGet g end) ltac:(by intros []).
Definition post_response_codec : Codec PostResponse :=
  via_codec (post_codec *c string_codec *c z_codec) (fun r => (pr_post r, pr_response r, pr_timeout_timestamp r))
    (fun x => let '(a, b, c) := x in mkPostResponse a b c) ltac:(by intros []).
Definition storage_value_codec : Codec StorageValue :=
  via_codec (string_codec *c option_codec string_codec) (fun v => (sv_key v, sv_value v)) (fun x => mkStorageValue x.1 x.2) ltac:(by intros []).
Definition response_codec : Codec Response :=
  via_codec (sum_codec post_response_codec (get_codec *c list_codec storage_value_codec))
    (fun r => match r with ResponsePost p => inl p | ResponseGet g => inr (gr_get g, gr_values g) end)
    (fun x => match x with inl p => ResponsePost p | inr g => ResponseGet (mkGetResponse g.1 g.2) end) ltac:(by intros [|[]]).
Definition proof_codec : Codec Proof_ :=
  via_codec (height_codec *c string_codec) (fun p => (proof_height p, proof_bytes p)) (fun x => mkProof x.1 x.2) ltac:(by intros []).

Definition consensus_codec : Codec (ConsensusMessage + FraudProofMessage) :=
  via_codec (sum_codec (string_codec *c id_codec *c string_codec) (string_codec *c string_codec *c id_codec))
    (fun m => match m with
              | inl m => inl (cm_consensus_proof m, cm_consensus_state_id m, cm_signer m)
              | inr m => inr (fpm_proof_1 m, fpm_proof_2 m, fpm_consensus_state_id m) end)
    (fun x => match x with inl (a, b, c) => inl (mkConsensusMessage a b c) | inr (a, b, c) => inr (mkFraudProofMessage a b c) end)
    ltac:(by intros [[]|[]]).
Definition request_message_codec : Codec RequestMessage :=
  via_codec (list_codec post_codec *c proof_codec *c string_codec) (fun m => (rm_requests m, rm_proof m, rm_signer m))
    (fun x => let '(a, b, c) := x in mkRequestMessage a b c) ltac:(by intros []).
Definition response_message_codec : Codec ResponseMessage :=
  via_codec (sum_codec (list_codec request_codec) (list_codec response_codec) *c proof_codec *c string_codec)
    (fun m => (match rsm_datagram m with RRRequest l => inl l | RRResponse l => inr l end, rsm_proof m, rsm_signer m))
    (fun x => let '(a, b, c) := x in mkResponseMessage (match a with inl l => RRRequest l | inr l => RRResponse l end) b c)
    ltac:(by intros [[] ? ?]).
Definition timeout_codec : Codec TimeoutMessage :=
  via_codec (sum_codec (list_codec request_codec *c proof_codec) (sum_codec (list_codec post_response_codec *c proof_codec) (list_codec request_codec)))
    (fun m => match m with TMPost l p => inl (l, p) | TMPostResponse l p => inr (inl (l, p)) | TMGet l => inr (inr l) end)
    (fun x => match x with inl (l, p) => TMPost l p | inr (inl (l, p)) => TMPostResponse l p | inr (inr l) => TMGet l end) ltac:(by intros []).
#[local] Instance message_codec : Codec Message :=
  via_codec (sum_codec consensus_codec (sum_codec request_message_codec (sum_codec response_message_codec timeout_codec)))
    (fun m => match m with
              | MsgConsensus m => inl (inl m) | MsgFraudProof m => inl (inr m) | MsgRequest m => inr (inl m)
              | MsgResponse m => inr (inr (inl m)) | MsgTimeout m => inr (inr (inr m)) end)
    (fun x => match x with
              | inl (inl m) => MsgConsensus m | inl (inr m) => MsgFraudProof m | inr (inl m) => MsgRequest m
              | inr (inr (inl m)) => MsgResponse m | inr (inr (inr m)) => MsgTimeout m end) ltac:(by intros []).
#[local] Instance withdrawal_codec : Codec WithdrawFundsResult :=
  via_codec (post_codec *c z_codec) (fun w => (wf_post w, wf_block w)) (fun x => mkWithdrawFundsResult x.1 x.2) ltac:(by intros []).

(** ** The chains *)

#[local] Existing Instance EvmDemo.hash32.

Definition W : Type := list (list Message).
#[local] Instance timer : Timer W := fun _ => ret tt.

Definition origin : StateMachine := Evm 56.
Definition target : StateMachine := Evm 1.
Definition hyper : StateMachine := Polkadot 3367.
Definition id_of (m : StateMachine) : StateMachineId := mkStateMachineId m Demo.csid.

(** Two requests from the origin to the target, of which the first pays enough. *)
Definition post (n : Z) : PostRequest := mkPostRequest origin target n (lit "from") (lit "to") 0 (lit "body").
Definition query (n : Z) : Query := default (mkQuery origin target 0 []) (query_of_request (RequestPost (post n))).
Definition wanted_get : GetRequest := mkGetRequest target origin 7 (lit "from") [lit "key"] 3 [] 0.

Definition fee (c : H256) : Z := if decide (c = qy_commitment (query 1)) then 150 else 50.
Definition answers : Answers := mkAnswers (from_secs 1000) (fun _ _ _ => lit "proof") (fun _ _ _ => lit "proof")
  (fun _ => mkEstimate (mkCost 100) true) (fun _ _ => H160_zero) (fun _ => fee).

Definition answer {A} (a : A) : Net W A := ret (Ok a).
Definition delivered : TxReceipt := TxRequest (query 1) 20.

(** A chain that gives the same answers throughout, and accepts what is submitted to it. *)
Definition provider (m : StateMachine) : IsmpProvider W := mkIsmpProvider W
  (fun _ => answer 9) (answer 9) (fun _ => answer (mkStateCommitment 1 None [])) (fun _ => answer 0) (fun _ => answer 0)
  (answer (from_secs 1000)) (fun _ _ _ => answer (lit "proof")) (fun _ _ _ => answer (lit "proof")) (fun _ _ => answer (lit "proof"))
  (fun _ _ => answer [EvPostRequest (post 1); EvGetRequest wanted_get; EvPostRequest (post 2)])
  (id_of m) 3 (fun msgs => answer ((fun _ => mkEstimate (mkCost 100) true) <$> msgs))
  (fun c => answer (fee c)) (fun _ => answer H160_zero) (fun _ => answer H160_zero) (fun c => answer (fee c))
  (fun _ => answer []) (fun msgs w => (Some (Ok [delivered]), w ++ [msgs]))
  (fun c => [c]) (fun c => [c]) (fun c => [c]) (fun c => [c]) (lit "relayer") (fun _ => answer tt) 2.

Definition chains : ClientMap W := {[ origin := provider origin ]}.
Definition config : RelayerConfig := mkRelayerConfig None 10 None None (Some 60) [] None None.

Definition rq (p : PostRequest) : Query := default (mkQuery origin target 0 []) (query_of_request (RequestPost p)).
Definition pq (r : PostResponse) : Query := default (mkQuery origin target 0 []) (query_of_response (ResponsePost r)).

Lemma provider_steady m : steady (provider m) answers.
Proof. intros w. repeat split. Qed.

Lemma chains_fixed : fixed_answers (provider hyper) (provider target) chains answers answers (fun _ => answers) config (fun _ => true).
Proof.
  split; try done. unfold chains. intros m p [<- <-]%lookup_singleton_Some. split; [apply provider_steady|done].
Qed.

Definition update : StateMachineUpdated := mkStateMachineUpdated (id_of hyper) 9.
Definition no_rows : Db := mkDb (mkTable [] 1) (mkTable [] 1) (mkTable [] 1) 100 [].
Definition start : Relayer W := mkRelayer [] no_rows (Some []) (Some []).
Definition events : list Event := [EvPostRequest (post 1); EvPostRequest (post 2)].
Definition at_update : StateMachineHeight := mkStateMachineHeight (id_of hyper) 9.
Definition batch : Message := request_batch at_update (lit "relayer") [post 1] (lit "proof").
Definition kept : Message := request_batch at_update (lit "relayer") [post 2] (lit "proof").

(** The request that pays is delivered and recorded, the other is kept, and the GET request goes on. *)
Lemma update_relayed_witness : exists d',
  handle_update (provider target) (provider hyper) update 3 config hyper chains true true start
  = (Some (9, Ok tt), mkRelayer [[batch]] d' (Some [[delivered]]) (Some [([wanted_get], update)])) /\
  ledger d' [delivered] /\ stored (unprofitable_messages_ d') = [(lit "EVM-1", encode kept)].
Proof.
  destruct (update_relayed (provider target) (provider hyper) chains answers answers (fun _ => answers) config hyper (fun _ => true) rq pq update
    3 true true 60 (lit "EVM-1") start [] [EvPostRequest (post 1); EvGetRequest wanted_get; EvPostRequest (post 2)] events [delivered] [] [[batch]]
    chains_fixed) as (d' & Hrun & Hl & Hs).
  - reflexivity.
  - vm_compute. reflexivity.
  - repeat constructor; vm_compute; reflexivity.
  - vm_compute. reflexivity.
  - repeat constructor; vm_compute; eauto.
  - constructor.
  - reflexivity.
  - reflexivity.
  - vm_compute. reflexivity.
  - exists d'. split; [|split].
    + vm_compute in Hrun |- *. exact Hrun.
    + exact Hl.
    + etransitivity; [exact Hs|]. vm_compute. reflexivity.
Defined.

(** ** Claims *)

(** Two deliveries from the origin to the target, of which hyperbridge has paid for the first. *)
Definition row (id n h : Z) : Delivery :=
  mkDelivery id (encode_hex (qy_commitment (query n))) (lit "EVM-56") (lit "EVM-1") PostRequestDelivery 100 h.
Definition recorded : Db := mkDb (mkTable [row 1 1 20; row 2 2 21] 3) (mkTable [] 1) (mkTable [] 1) 100 [].
Definition receipts : list TxReceipt := [TxRequest (query 1) 20; TxRequest (query 2) 21].
Definition paid (k : Key) : bool := match k with KeyRequest c => bool_decide (c = qy_commitment (query 1)) | KeyResponse _ _ => false end.

Definition withdrawn : WithdrawFundsResult :=
  mkWithdrawFundsResult (mkPostRequest hyper target 4 (lit "from") (lit "to") 0 (lit "withdrawal")) 8.
Definition claims : HyperbridgeClaim W := mkHyperbridgeClaim W
  (fun _ _ => answer (20 * 10 ^ 18)) (fun _ => answer tt) (fun _ _ => answer withdrawn) (fun k => answer (paid k)).

Lemma recorded_ledger : ledger recorded receipts.
Proof. repeat constructor; vm_compute; reflexivity. Qed.

Lemma claims_cover_deliveries_witness : exists s' proofs,
  create_claim_proof 5 6 (provider origin) (provider target) claims (mkRelayer [] recorded None None) = (Some (Ok proofs), s') /\
  concat (wp_commitments <$> proofs) = [KeyRequest (qy_commitment (query 2))] /\ ledger (rl_db s') [TxRequest (query 2) 21].
Proof.
  destruct (claims_cover_deliveries (provider origin) (provider target) claims paid (fun _ _ => lit "proof") (fun _ _ => lit "proof")
    5 6 (lit "EVM-56") (lit "EVM-1") (mkRelayer [] recorded None None) receipts) as (s' & proofs & Hrun & _ & Hk & _ & Hl & _).
  - intros w. repeat split.
  - exact recorded_ledger.
  - reflexivity.
  - repeat constructor; vm_compute; reflexivity.
  - vm_compute. reflexivity.
  - vm_compute. reflexivity.
  - exists s', proofs. split; [exact Hrun|]. split.
    + etransitivity; [exact Hk|]. vm_compute. reflexivity.
    + match goal with |- ledger _ ?l => match type of Hl with ledger _ ?l' => assert (Hll : l' = l) by (vm_compute; reflexivity) end end.
      rewrite Hll in Hl. exact Hl.
Defined.

(** The height that hyperbridge must know before these deliveries are claimed. *)
Lemma delivery_height_found_witness : highest_delivery_height origin target recorded = (Some (Ok (Some 21)), recorded).
Proof.
  destruct (delivery_height_found origin target (lit "EVM-56") (lit "EVM-1") recorded receipts) as [Hh _].
  - exact recorded_ledger.
  - reflexivity.
  - vm_compute. reflexivity.
  - vm_compute. reflexivity.
  - repeat constructor; vm_compute; congruence.
  - etransitivity; [exact Hh|]. vm_compute. reflexivity.
Defined.

(** ** Withdrawals *)

Definition pending_before : Relayer W := mkRelayer [] (mkDb (mkTable [] 1) (mkTable [mkRow 1 (lit "EVM-1") (encode withdrawn)] 2) (mkTable [] 1) 100 []) None None.
Definition round : option (result AnyError unit) * Relayer W := withdraw_chain (provider hyper) claims MANUAL_MINIMUM target (provider target) pending_before.

(** The row of an earlier round is gone: what it asked for was delivered. *)
Lemma withdrawals_kept_witness : rows (pending_withdrawal (rl_db (snd round))) = [] /\ delivered_to (provider target) withdrawn.
Proof.
  assert (Hrows : rows (pending_withdrawal (rl_db (snd round))) = []) by (vm_compute; reflexivity). split; [exact Hrows|].
  destruct (withdrawals_kept (provider hyper) claims MANUAL_MINIMUM target (provider target) (lit "EVM-1") pending_before (fst round) (snd round)) as [Hold _].
  - vm_compute. reflexivity.
  - reflexivity.
  - split; [apply NoDup_singleton|]. repeat constructor; vm_compute; congruence.
  - intros w result w' [= <- _]. vm_compute. eauto.
  - apply surjective_pairing.
  - destruct (Hold (mkRow 1 (lit "EVM-1") (encode withdrawn))) as [Hin|(_ & p & Hp & Hd)].
    + apply list_elem_of_singleton. reflexivity.
    + rewrite Hrows in Hin. apply elem_of_nil in Hin as [].
    + cbn [row_encoded] in Hp. rewrite decode_encode in Hp. injection Hp as <-. exact Hd.
Defined.

(** ** Retries *)

(** Both requests were stored for the target, the first one twice, and a message for another chain. *)
Definition waiting : Db := mkDb (mkTable [] 1) (mkTable [] 1)
  (mkTable [mkRow 1 (lit "EVM-1") (encode batch); mkRow 2 (lit "EVM-1") (encode kept); mkRow 3 (lit "EVM-1") (encode batch);
            mkRow 4 (lit "EVM-56") (lit "other")] 5) 100 [].
Definition before_retry : Relayer W := mkRelayer [] waiting None None.

Lemma waiting_retriable : Forall (fun r => row_dest r = lit "EVM-1" -> exists m, row_encoded r = encode m /\ retriable rq pq m)
  (rows (unprofitable_messages_ waiting)).
Proof.
  assert (Hm : forall n, query_of_request (RequestPost (post n)) = Some (rq (post n)) ->
    retriable rq pq (request_batch at_update (lit "relayer") [post n] (lit "proof"))) by (intros n Hn; left; by exists (post n)).
  repeat constructor; cbn [row_dest row_encoded]; intros Hd; try (vm_compute in Hd; discriminate); eexists; (split; [reflexivity|]);
    apply Hm; vm_compute; reflexivity.
Qed.

Lemma waiting_nodup : NoDup (row_id <$> rows (unprofitable_messages_ waiting)).
Proof. apply (bool_decide_eq_true_1 _). vm_compute. reflexivity. Qed.

Lemma target_accepts : accepts (provider target).
Proof.
  intros msgs w. exists [delivered], (w ++ [msgs]). split; [reflexivity|]. repeat constructor; vm_compute; eauto.
Qed.

Lemma retry_settles_witness : exists found h receipts s',
  NoDup found /\ sent (provider target) (going_out (provider target) chains answers answers (fun _ => answers) config hyper rq pq h found) [] receipts (rl_net s') /\
  retry_unprofitable_messages (provider target) (provider hyper) chains config hyper before_retry = (Some (Ok tt), s').
Proof.
  destruct (retry_settles (provider target) (provider hyper) chains answers answers (fun _ => answers) config hyper (fun _ => true) rq pq chains_fixed
    (lit "EVM-1") before_retry [] target_accepts) as (found & h & rcs & s' & Hn & _ & Hs & Hrun & _).
  - vm_compute. reflexivity.
  - constructor.
  - reflexivity.
  - exact waiting_nodup.
  - exact waiting_retriable.
  - exists found, h, rcs, s'. split; [exact Hn|]. split; [exact Hs|exact Hrun].
Defined.

(** What is left after the retry: the request that does not pay, and what was there for others. *)
Example retry_result : let s' := snd (retry_unprofitable_messages (provider target) (provider hyper) chains config hyper before_retry) in
  rl_net s' = [[batch]] /\ stored (unprofitable_messages_ (rl_db s')) = [(lit "EVM-56", lit "other"); (lit "EVM-1", encode kept)].
Proof. vm_compute. split; reflexivity. Qed.

(** A target that cannot estimate costs for the moment. *)
Definition failing : IsmpProvider W :=
  let p := provider target in
  mkIsmpProvider W (query_latest_height p) (query_finalized_height p) (query_state_machine_commitment p) (query_state_machine_update_time p)
    (query_challenge_period p) (query_timestamp p) (query_requests_proof p) (query_responses_proof p) (query_state_proof p) (query_ismp_events p)
    (state_machine_id p) (initial_height p) (fun _ => ret (Err (AnyMessage (lit "busy")))) (query_request_fee_metadata p) (query_request_receipt p)
    (query_response_receipt p) (query_response_fee_metadata p) (state_machine_update_notification p) (submit p) (request_commitment_full_key p)
    (request_receipt_full_key p) (response_commitment_full_key p) (response_receipt_full_key p) (address p) (Tesseract.veto_state_commitment p)
    (max_concurrent_queries p).

Lemma retry_loses_messages_witness : exists d',
  retry_unprofitable_messages failing (provider hyper) chains config hyper before_retry = (Some (Ok tt), set_db d' before_retry) /\
  stored (unprofitable_messages_ d') = [(lit "EVM-56", lit "other")].
Proof.
  destruct (retry_loses_messages failing (provider hyper) chains config hyper rq pq (lit "EVM-1") before_retry) as (d' & Hrun & _ & Hs).
  - intros msgs w. eexists. reflexivity.
  - vm_compute. reflexivity.
  - reflexivity.
  - exact waiting_nodup.
  - exact waiting_retriable.
  - exists d'. split; [exact Hrun|]. etransitivity; [exact Hs|]. vm_compute. reflexivity.
Defined.

(** Messages are fetched in the order of their encodings, but with the identifiers in the order of the
    rows: whichever of two messages was stored first, the same message is said to be row 1. *)
Definition two_rows (a b : Message) : Db := mkDb (mkTable [] 1) (mkTable [] 1)
  (mkTable [mkRow 1 (lit "EVM-1") (encode a); mkRow 2 (lit "EVM-1") (encode b)] 3) 100 [].

Example fetched_with_wrong_ids :
  (unprofitable_messages target (two_rows batch kept)).1 = Some (Ok [(kept, 1); (batch, 2)]) /\
  (unprofitable_messages target (two_rows kept batch)).1 = Some (Ok [(kept, 1); (batch, 2)]).
Proof. split; vm_compute; reflexivity. Qed.

(** ** Profit and waiting *)

Lemma relayed_is_paid_witness : exists est,
  paid_for (provider target) 10 hyper chains false est (request_batch at_update (lit "relayer") [post 1] (lit "proof")) (query 1).
Proof.
  destruct (relayed_is_paid (provider target) [batch; kept] [query 1; query 2] 10 hyper chains false
    (mkProfitability [Some (query 1); None] [kept]) [] []) as [Hr _].
  - vm_compute. reflexivity.
  - destruct (Hr 0%nat (query 1) eq_refl) as (msg & est & ests & w1 & _ & Hm & _ & _ & Hp). injection Hm as <-. exists est. exact Hp.
Defined.

Lemma cost_display_decimal_witness : cost_display (mkCost 1250000000000000000) = lit "1.250000000000000000".
Proof.
  rewrite cost_display_decimal; [vm_compute; reflexivity|]. vm_compute. split; congruence.
Defined.

(** A chain whose world is its clock. *)
Section clock.
#[local] Instance clock_timer : Timer Z := fun d c => (Some tt, c + Z.max d 1).

Definition clock_client : IsmpProvider Z :=
  let ok {A} (a : A) : Net Z A := ret (Ok a) in
  mkIsmpProvider Z (fun _ => ok 9) (ok 9) (fun _ => ok (mkStateCommitment 1 None [])) (fun _ => ok 0) (fun _ => ok 60)
    (fun c => (Some (Ok c), c)) (fun _ _ _ => ok []) (fun _ _ _ => ok []) (fun _ _ => ok []) (fun _ _ => ok []) (id_of target) 3
    (fun _ => ok []) (fun _ => ok 0) (fun _ => ok []) (fun _ => ok []) (fun _ => ok 0) (fun _ => ok []) (fun _ => ok [])
    (fun _ => []) (fun _ => []) (fun _ => []) (fun _ => []) [] (fun _ => ok tt) 1.

Lemma challenge_period_observed_witness : exists w', wait_for_challenge_period 1 clock_client 100 (id_of hyper) 100 = (Some (Ok tt), w') /\ 60 < w' - 100.
Proof.
  apply (challenge_period_observed clock_client (fun c => c) 0 100 (id_of hyper) 60 100 100).
  - intros w. split; [exists w; split; [reflexivity|lia]|]. intros d. eexists. split; [reflexivity|]. lia.
  - lia.
  - reflexivity.
  - lia.
Defined.
End clock.

(** ** Fishermen *)

Section fishing.
#[local] Existing Instances Demo.keccak Demo.sort PalletDemo.codecs PalletDemo.height_keys PalletDemo.leaf_codec PalletDemo.currency PalletDemo.text PalletDemo.root AppsDemo.config.

Definition call_error {E} (e : CallError E) : AnyError := AnyMessage (lit "call").
Definition host_error (e : Error) : AnyError := AnyMessage (lit "not found").

(** Hyperbridge as the counterparty of the first chain. *)
Definition pallet_provider : IsmpProvider AppsDemo.St :=
  let ok {A} (a : A) : Net AppsDemo.St A := ret (Ok a) in
  mkIsmpProvider AppsDemo.St (fun _ => ok 9) (ok 9) (fun h c => (Some (map_err host_error (state_machine_commitment h c)), c))
    (fun _ => ok 0) (fun _ => ok 0) (ok 0) (fun _ _ _ => ok []) (fun _ _ _ => ok []) (fun _ _ => ok []) (fun _ _ => ok []) (id_of hyper) 3
    (fun _ => ok []) (fun _ => ok 0) (fun _ => ok []) (fun _ => ok []) (fun _ => ok 0) (fun _ => ok []) (fun _ => ok [])
    (fun _ => []) (fun _ => []) (fun _ => []) (fun _ => []) (lit "fisher") (substrate_veto call_error (lit "fisher")) 1.

(** The first chain does not have the state that is recorded for it. *)
Definition first_chain : ByzantineHandler (W := AppsDemo.St) :=
  mkByzantineHandler (mkIsmpProvider AppsDemo.St (query_latest_height pallet_provider) (query_finalized_height pallet_provider)
    (query_state_machine_commitment pallet_provider) (query_state_machine_update_time pallet_provider) (query_challenge_period pallet_provider)
    (query_timestamp pallet_provider) (query_requests_proof pallet_provider) (query_responses_proof pallet_provider) (query_state_proof pallet_provider)
    (query_ismp_events pallet_provider) AppsDemo.first_id 3 (estimate_gas pallet_provider) (query_request_fee_metadata pallet_provider)
    (query_request_receipt pallet_provider) (query_response_receipt pallet_provider) (query_response_fee_metadata pallet_provider)
    (state_machine_update_notification pallet_provider) (submit pallet_provider) (request_commitment_full_key pallet_provider)
    (request_receipt_full_key pallet_provider) (response_commitment_full_key pallet_provider) (response_receipt_full_key pallet_provider)
    (address pallet_provider) (Tesseract.veto_state_commitment pallet_provider) 1)
    (fun n => ret (Ok (Some (replicate 32 Byte.x07)))).

Definition heard : list (result StreamError (list StateMachineUpdated)) := [Err (lit "lagged"); Ok [mkStateMachineUpdated AppsDemo.first_id 3]].

Lemma fishermen_clean_witness : exists c', fish first_chain pallet_provider heard AppsDemo.init = (Some tt, c') /\ commitments c' !! AppsDemo.at_first 3 = None.
Proof.
  destruct (fishermen_clean first_chain pallet_provider (lit "fisher") (fun _ => Some (replicate 32 Byte.x07)) heard AppsDemo.init) as (c' & Hrun & [_ Hcl] & _).
  - split; [exists host_error; reflexivity|exists call_error; reflexivity].
  - intros n c. reflexivity.
  - split; [exact AppsDemo.apps_init_ok|]. apply (bool_decide_eq_true_1 _). vm_compute. reflexivity.
  - exists c'. split; [exact Hrun|]. destruct (commitments c' !! AppsDemo.at_first 3) as [cm|] eqn:E; [|reflexivity]. exfalso.
    apply Hcl in E as [E Hno]. apply Hno. split; [apply list_elem_of_singleton; reflexivity|]. split; [reflexivity|].
    assert (Hroot : commitments AppsDemo.init !! AppsDemo.at_first 3 = Some (mkStateCommitment 30 None [Byte.x64])) by (vm_compute; reflexivity).
    rewrite Hroot in E. injection E as <-. vm_compute. congruence.
Defined.
End fishing.

(** ** The EVM chain of [EvmDemo] *)

Section evm.
#[local] Existing Instances EvmDemo.hash32 EvmDemo.evm_proof_codec.
Definition held : gmap bytes bytes := {[ EvmDemo.sent_key := lit "meta" ]}.
#[local] Instance evm_lib : EvmTrie := EvmDemo.library held.
#[local] Instance evm_mono : EvmTrieMono.
Proof. intros nodes nodes' root key v Hg _. exact Hg. Qed.

Definition evm_client : EvmClient := mkEvmClient (Evm 1) Demo.csid (lit "relayer") EvmDemo.contract false (Some 3).

(** A node with a log in every block, that proves the storage of the contract. Every transaction is mined,
    and its log has the commitment of the request. *)
Definition request_log (c : H256) : TxLog := mkTxLog [lit "PostRequestHandled"] c.
Definition parse_request (l : TxLog) : option H256 := if decide (tl_topics l = [lit "PostRequestHandled"]) then Some (tl_data l) else None.
Definition block_log (n : Z) : list Event := [EvStateMachineUpdated (mkStateMachineUpdated (id_of hyper) n)].
Definition evm_node : EvmNode W := mkEvmNode W
  (answer 20) (fun _ _ => answer []) (fun _ keys _ => answer (mkEthProof [] (replicate (length keys) [])))
  (fun a b => answer (concat (block_log <$> seqZ a (b - a + 1)))) (fun _ => answer 9) (fun _ => answer 0) (answer 0) (answer 0)
  (fun _ => answer []) (fun _ => answer []) (fun _ => answer 0) (fun _ => answer 0) (answer []) (answer 30) (fun _ => answer 21000)
  (fun _ => ret (Ok 1%nat)) (fun _ => ret (Mined (Some (mkEthReceipt (Some 1) [request_log (qy_commitment (query 1))])))) (fun _ => ret tt).

Definition sent_query : Query := default (query 1) (query_of_request EvmDemo.sent).

Lemma evm_proofs_accepted_witness : exists proof,
  evm_query_requests_proof evm_client evm_node 12 [sent_query] hyper [] = (Some (Ok proof), []) /\
  evm_verify_membership (RRRequest [EvmDemo.sent]) (EvmDemo.committed 30) (mkProof EvmDemo.height proof) EvmDemo.contract = Some (Ok tt).
Proof.
  destruct (evm_proofs_accepted evm_client evm_node (EvmDemo.committed 30) 12 EvmDemo.account (fun key => held !! keccak256 key)
    [EvmDemo.sent] [] [sent_query] [] hyper EvmDemo.height []) as [(proof & Hp & Hr) _].
  - intros keys w. exists (mkEthProof [] (replicate (length keys) [])), EvmDemo.account_raw. split; [reflexivity|]. split; [vm_compute; reflexivity|].
    split; [vm_compute; reflexivity|]. cbn [ep_storage_proof]. induction keys as [|k keys IH]; cbn [length replicate]; constructor; [reflexivity|exact IH].
  - repeat constructor; vm_compute; reflexivity.
  - constructor.
  - vm_compute. eauto.
  - vm_compute. eauto.
  - exists proof. split; [exact Hp|]. apply Hr.
    repeat constructor. intros k Hk. vm_compute in Hk. injection Hk as <-. vm_compute. eauto.
Defined.

Lemma evm_events_complete_witness :
  evm_query_ismp_events evm_client evm_node 3 (mkStateMachineUpdated (id_of target) 9) [] = (Some (Ok (concat (block_log <$> [4; 5; 6; 7; 8; 9]))), []).
Proof.
  rewrite (evm_events_complete evm_client evm_node block_log); [reflexivity|intros a b w; reflexivity|cbn; lia|vm_compute; split; congruence].
Defined.

(** The messages of one submission: a batch with two requests, of which the chain has handled one. *)
#[local] Instance no_mountains : MmrHelpers := {|
  get_peaks _ := [10]; pos_height_in_tree _ := 0%nat; parent_offset _ := 0; sibling_offset _ := 0;
  leaf_index_to_pos n := n; nodes_size n := n; temp_offchain_key _ _ _ := []; canon_offchain_key _ _ := []
|}.
#[local] Instance mmr_proof_codec : Codec MmrProof :=
  via_codec (list_codec (pair_codec z_codec z_codec) *c z_codec *c list_codec string_codec)
    (fun p => ((fun l => (ChildTrie.leaf_index l, ChildTrie.pos l)) <$> PalletTypes.leaf_indices_and_pos p, PalletTypes.leaf_count p, PalletTypes.items p))
    (fun x => let '(a, b, c) := x in mkMmrProof ((fun l => mkLeafIndexAndPos l.1 l.2) <$> a) b c)
    ltac:(intros [l ? ?]; cbn; f_equal; rewrite <- list_fmap_compose; etransitivity; [|apply list_fmap_id]; apply list_fmap_ext; by intros ? []).

Definition two_leaves : bytes := encode (mkMmrProof [mkLeafIndexAndPos 5 8; mkLeafIndexAndPos 2 3] 7 []).
Definition delivery : Message := request_batch at_update (lit "relayer") [post 1; post 2] two_leaves.
Definition submission : option (result AnyError (list TxReceipt)) * W :=
  handle_message_submission evm_client evm_node parse_request (fun _ => None) 0 [delivery] [].

Lemma submission_receipts_witness : logged evm_node parse_request (fun _ => None) (qy_commitment (query 1)).
Proof.
  destruct (submission_receipts evm_client evm_node parse_request (fun _ => None) 0 [delivery] [delivered] [] [])
    as (handled & height & w1 & w2 & _ & Hl & _ & Hrc).
  - vm_compute. reflexivity.
  - destruct (proj1 (Hrc delivered)) as (msg & _ & _ & Hin); [left|]. rewrite Forall_forall in Hl. apply Hl. exact Hin.
Defined.

(** The leaves of a call are in the order of their index. *)
Lemma calls_follow_messages_witness : exists calls,
  generate_contract_calls evm_client evm_node [delivery] false [] = (Some (Ok calls), []) /\ Forall2 (call_for evm_client) [delivery] calls.
Proof.
  eexists. split; [vm_compute; reflexivity|]. apply (calls_follow_messages evm_client evm_node [delivery] false _ [] []). vm_compute. reflexivity.
Defined.

End evm.

End RelayDemo.
