(* ===== verification/Hyperclient.v ===== *)
(** * The hyperclient: the status of messages in flight

    [modules/hyperclient/src/{types, indexing, internals}.rs], [internals/*.rs] and [providers/*.rs].
    An application follows a message from its source through hyperbridge to its destination, and
    times it out if it is not delivered in time. What the application sees is a stream of statuses,
    unfolded from a state machine whose steps look at the three chains and at an indexer.

    A chain is the record [Client] of the trait's operations, on the world [W] behind it. A stream
    of a chain is the list of the items it yields before it ends. *)

From S2P Require Import Prelude StateMachine Router Messaging ChildTrie PalletTypes SubstrateMachine EvmMachine Apps Relayer Tesseract Mmr EvmProvider.

(** ** Types ([types.rs]) *)

Record EventMetadata : Type := mkEventMetadata {
  em_block_hash : H256;
  em_transaction_hash : H256;
  em_block_number : Z
}.

(** [Default::default()] *)
Definition no_meta : EventMetadata := mkEventMetadata (replicate 32 Byte.x00) (replicate 32 Byte.x00) 0.

Record WithMetadata (T : Type) : Type := mkWithMetadata { wm_meta : EventMetadata; wm_event : T }.
Arguments mkWithMetadata {T}.
Arguments wm_meta {T}.
Arguments wm_event {T}.

Inductive TimeoutStreamState : Type :=
| ToPending
| ToDestinationFinalized (height : Z)
| ToHyperbridgeVerified (height : Z)
| ToHyperbridgeFinalized (height : Z)
| ToEnd.

Inductive MessageStatusStreamState : Type :=
| MsDispatched (height : Z)
| MsSourceFinalized (height : Z)
| MsHyperbridgeVerified (height : Z)
| MsHyperbridgeFinalized (height : Z)
| MsDestinationDelivered
| MsEnd.

Inductive MessageStatusWithMetadata : Type :=
| StPending
| StSourceFinalized (finalized_height : Z) (meta : EventMetadata)
| StHyperbridgeVerified (meta : EventMetadata)
| StHyperbridgeFinalized (finalized_height : Z) (meta : EventMetadata) (calldata : bytes)
| StDestinationDelivered (meta : EventMetadata)
| StError (description : bytes)
| StTimeout.

Inductive TimeoutStatus : Type :=
| TsPending
| TsDestinationFinalized (meta : EventMetadata)
| TsHyperbridgeVerified (meta : EventMetadata)
| TsHyperbridgeFinalized (meta : EventMetadata)
| TsError (description : bytes)
| TsTimeoutMessage (calldata : bytes).

(** ** The interface of a chain ([providers/interface.rs]) *)

Abbreviation Stream A := (list (result AnyError (WithMetadata A))).

Record Client (W : Type) : Type := mkClient {
  cl_query_latest_block_height : Net W Z;
  cl_state_machine_id : StateMachineId;
  cl_query_timestamp : Net W Duration;
  cl_query_request_receipt : H256 -> Net W H160;
  cl_query_state_proof : Z -> list bytes -> Net W bytes;
  cl_query_requests_proof : Z -> list H256 -> StateMachine -> Net W bytes;
  cl_query_responses_proof : Z -> list H256 -> StateMachine -> Net W bytes;
  cl_query_response_receipt : H256 -> Net W H160;
  cl_ismp_events_stream : H256 -> Z -> Net W (Stream Event);
  cl_query_ismp_event : Z -> Z -> Net W (list (WithMetadata Event));
  cl_post_request_handled_stream : H256 -> Z -> Net W (Stream H256);
  cl_query_latest_state_machine_height : StateMachineId -> Net W Z;
  cl_query_state_machine_commitment : StateMachineHeight -> Net W StateCommitment;
  cl_state_machine_update_notification : StateMachineId -> Net W (Stream StateMachineUpdated);
  cl_request_receipt_full_key : H256 -> bytes;
  cl_encode : Message -> Net W bytes;
  cl_submit : Message -> Net W EventMetadata;
  cl_query_state_machine_update_time : StateMachineHeight -> Net W Duration;
  cl_query_challenge_period : StateMachineId -> Net W Duration
}.
Arguments cl_query_latest_block_height {W}.
Arguments cl_state_machine_id {W}.
Arguments cl_query_timestamp {W}.
Arguments cl_query_request_receipt {W}.
Arguments cl_query_state_proof {W}.
Arguments cl_query_requests_proof {W}.
Arguments cl_query_responses_proof {W}.
Arguments cl_query_response_receipt {W}.
Arguments cl_ismp_events_stream {W}.
Arguments cl_query_ismp_event {W}.
Arguments cl_post_request_handled_stream {W}.
Arguments cl_query_latest_state_machine_height {W}.
Arguments cl_query_state_machine_commitment {W}.
Arguments cl_state_machine_update_notification {W}.
Arguments cl_request_receipt_full_key {W}.
Arguments cl_encode {W}.
Arguments cl_submit {W}.
Arguments cl_query_state_machine_update_time {W}.
Arguments cl_query_challenge_period {W}.

Definition client_chain {W} (c : Client W) : StateMachine := smi_state_id (cl_state_machine_id c).

(** ** The indexer ([indexing.rs]) *)

Inductive IndexerStatus : Type := SOURCE | MESSAGE_RELAYED | DEST | TIMED_OUT | OtherStatus (name : bytes).

Record StatusMetadataNode : Type := mkStatusNode {
  sn_status : IndexerStatus;
  sn_block_number : bytes;
  sn_transaction_hash : bytes;
  sn_block_hash : bytes
}.

(** A state machine update: [block_number] is a [U256]. *)
Record UpdateNode : Type := mkUpdateNode {
  un_block_hash : bytes;
  un_block_number : Z;
  un_height : Z;
  un_transaction_hash : bytes
}.

(** The answers to the three queries. [None] is a body without data. *)
Record Indexer (W : Type) : Type := mkIndexer {
  ix_request : bytes -> Net W (option (list StatusMetadataNode));
  ix_response : bytes -> Net W (option (list StatusMetadataNode));
  ix_updates : bytes -> bytes -> Z -> Net W (option (option (list UpdateNode)))
}.
Arguments ix_request {W}.
Arguments ix_response {W}.
Arguments ix_updates {W}.

(** [header] is the latest header of hyperbridge's node, by RPC. *)
Record HyperClient (W : Type) : Type := mkHyperClient {
  hy_source : Client W;
  hy_dest : Client W;
  hy_hyperbridge : Client W;
  hy_header : Net W (option Z);
  hy_indexer : option (Indexer W)
}.
Arguments hy_source {W}.
Arguments hy_dest {W}.
Arguments hy_hyperbridge {W}.
Arguments hy_header {W}.
Arguments hy_indexer {W}.

(** [u64::from_str] *)
Fixpoint parse_u64_go (acc : Z) (l : bytes) : option Z :=
  match l with
  | [] => Some acc
  | x :: r =>
      match byte_digit x with
      | Some d => let acc' := acc * 10 + d in
                  if acc' <=? u64_max then parse_u64_go acc' r else None
      | None => None
      end
  end.
Definition parse_u64 (l : bytes) : option Z :=
  match l with
  | [] => None
  | x :: r =>
      if decide (x = Byte.x2b)
      then match r with [] => None | _ => parse_u64_go 0 r end
      else parse_u64_go 0 l
  end.

Definition status_weight (status : IndexerStatus) : Z :=
  match status with
  | SOURCE => 1
  | MESSAGE_RELAYED => 2
  | DEST => 3
  | TIMED_OUT => 4
  | OtherStatus _ => 4
  end.

Section client.
Context `{Keccak256, !Hex} {W : Type} `{!Timer W}.

(** [sp_core::bytes::from_hex] *)
Context (from_hex : bytes -> option bytes).

(** ** Messages as call data ([internals.rs]) *)

Definition encode_request_call_data (hyperbridge dest_client : Client W) (post : PostRequest) (commitment : H256)
    (height : Z) : Net W bytes :=
  let? proof := cl_query_requests_proof hyperbridge height [commitment] (client_chain dest_client) in
  let proof_height := mkStateMachineHeight (cl_state_machine_id hyperbridge) height in
  cl_encode dest_client (MsgRequest (mkRequestMessage [post] (mkProof proof_height proof) H160_zero)).

Definition encode_response_call_data (hyperbridge dest_client : Client W) (response : Response) (height : Z) : Net W bytes :=
  let* commitment := or_panic (hash_response response) in
  let? proof := cl_query_responses_proof hyperbridge height [commitment] (client_chain dest_client) in
  let proof_height := mkStateMachineHeight (cl_state_machine_id hyperbridge) height in
  cl_encode dest_client (MsgResponse (mkResponseMessage (RRResponse [response]) (mkProof proof_height proof) H160_zero)).

(** [wait_for_challenge_period] of [providers/interface.rs]; [fuel] bounds how often the loop looks
    at the clock. *)
Fixpoint wait_until_over (fuel : nat) (client : Client W) (last_consensus_update challenge_period delay : Duration) : Net W unit :=
  if delay <=? challenge_period then
    match fuel with
    | O => panic
    | S fuel =>
        let* _ := sleep (saturating_sub challenge_period delay) in
        let? current_timestamp := cl_query_timestamp client in
        wait_until_over fuel client last_consensus_update challenge_period
          (saturating_sub current_timestamp last_consensus_update)
    end
  else ret (Ok tt).

Definition wait_for_period (fuel : nat) (client : Client W) (last_consensus_update challenge_period : Duration) : Net W unit :=
  let* _ := sleep challenge_period in
  let? current_timestamp := cl_query_timestamp client in
  wait_until_over fuel client last_consensus_update challenge_period
    (saturating_sub current_timestamp last_consensus_update).

(** What follows the encoding of a message: the wait for the challenge period of its proof. *)
Definition wait_after_encoding (fuel : nat) (hyperbridge dest_client : Client W) (height : Z) : Net W unit :=
  let proof_height := mkStateMachineHeight (cl_state_machine_id hyperbridge) height in
  let? challenge_period := cl_query_challenge_period dest_client (cl_state_machine_id hyperbridge) in
  let? update_time := cl_query_state_machine_update_time dest_client proof_height in
  wait_for_period fuel dest_client update_time challenge_period.

Definition encode_request_message_and_wait_for_challenge_period (fuel : nat) (hyperbridge dest_client : Client W)
    (post : PostRequest) (commitment : H256) (height : Z) : Net W bytes :=
  let? calldata := encode_request_call_data hyperbridge dest_client post commitment height in
  let? _ := wait_after_encoding fuel hyperbridge dest_client height in
  ret (Ok calldata).
Definition encode_response_message_and_wait_for_challenge_period (fuel : nat) (hyperbridge dest_client : Client W)
    (response : Response) (height : Z) : Net W bytes :=
  let? calldata := encode_response_call_data hyperbridge dest_client response height in
  let? _ := wait_after_encoding fuel hyperbridge dest_client height in
  ret (Ok calldata).

(** ** Statuses from the indexer ([indexing.rs]) *)

Definition bad_number : AnyError := AnyMessage (lit "invalid digit found in string").
Definition bad_hex : AnyError := AnyMessage (lit "invalid hex").

(** [H256::from_slice(&from_hex(s)?)] *)
Definition hash_of_hex (s : bytes) : Net W H256 :=
  let? b := ret (ok_or (from_hex s) bad_hex) in
  let* h := or_panic (slot_of b) in ret (Ok h).

(** The metadata of a status, and of the first of the updates that were found. *)
Definition meta_of_status (node : StatusMetadataNode) : Net W EventMetadata :=
  let? block_hash := hash_of_hex (sn_block_hash node) in
  let? transaction_hash := hash_of_hex (sn_transaction_hash node) in
  let? block_number := ret (ok_or (parse_u64 (sn_block_number node)) bad_number) in
  ret (Ok (mkEventMetadata block_hash transaction_hash block_number)).
Definition meta_of_update (node : UpdateNode) : Net W EventMetadata :=
  let? block_hash := hash_of_hex (un_block_hash node) in
  let? transaction_hash := hash_of_hex (un_transaction_hash node) in
  ret (Ok (mkEventMetadata block_hash transaction_hash (low_u64 (un_block_number node)))).
Definition first_update (body : option (option (list UpdateNode))) : option UpdateNode :=
  nodes ← body; nodes ← nodes; head nodes.

(** The last of the nodes when they are sorted by weight, as a status. For a relayed message the
    update is looked up under the name of the destination, on the destination. *)
Definition status_of_node (indexer : Indexer W) (hyperbridge : Client W) (source dest : StateMachine)
    (calldata : Z -> Net W bytes) (node : StatusMetadataNode) : Net W MessageStatusWithMetadata :=
  match sn_status node with
  | SOURCE =>
      let* chain := or_panic (to_string (client_chain hyperbridge)) in
      let* state_machine_id := or_panic (to_string source) in
      let? height := ret (ok_or (parse_u64 (sn_block_number node)) bad_number) in
      let? body := ix_updates indexer chain state_machine_id height in
      let? meta := match first_update body with Some data => meta_of_update data | None => ret (Ok no_meta) end in
      ret (Ok (StSourceFinalized height meta))
  | MESSAGE_RELAYED =>
      let* chain := or_panic (to_string dest) in
      let? height := ret (ok_or (parse_u64 (sn_block_number node)) bad_number) in
      let? body := ix_updates indexer chain chain height in
      match first_update body with
      | Some data =>
          let? meta := meta_of_update data in
          let? calldata := calldata (un_height data) in
          ret (Ok (StHyperbridgeFinalized (un_height data) meta calldata))
      | None => let? meta := meta_of_status node in ret (Ok (StHyperbridgeVerified meta))
      end
  | DEST => let? meta := meta_of_status node in ret (Ok (StDestinationDelivered meta))
  | TIMED_OUT => ret (Ok StTimeout)
  | OtherStatus _ => ret (Ok StPending)
  end.

(** [metadata.sort_by(..)] and [metadata.last()] *)
Definition latest_node (nodes : list StatusMetadataNode) : option StatusMetadataNode :=
  last (sort_by_key (fun n => status_weight (sn_status n)) nodes).

Definition status_from_body (indexer : Indexer W) (hyperbridge : Client W) (source dest : StateMachine)
    (calldata : Z -> Net W bytes) (body : option (list StatusMetadataNode)) : Net W (option MessageStatusWithMetadata) :=
  let? metadata := ret (ok_or body (AnyMessage (lit "Request not found in indexer db"))) in
  match latest_node metadata with
  | None => ret (Ok None)
  | Some node => let? status := status_of_node indexer hyperbridge source dest calldata node in ret (Ok (Some status))
  end.

(** [format!("{commitment:?}")] *)
Definition commitment_id (commitment : H256) : bytes := lit "0x" ++ hex_encode commitment.

Definition query_request_status_from_indexer (request : Request) (hyperclient : HyperClient W) :
    Net W (option MessageStatusWithMetadata) :=
  let* commitment := or_panic (hash_request request) in
  match hy_indexer hyperclient with
  | None => ret (Ok None)
  | Some indexer =>
      let? body := ix_request indexer (commitment_id commitment) in
      status_from_body indexer (hy_hyperbridge hyperclient) (request_source_chain request) (request_dest_chain request)
        (fun height => match request with
                       | RequestPost post =>
                           encode_request_call_data (hy_hyperbridge hyperclient) (hy_dest hyperclient) post commitment height
                       | RequestGet _ => ret (Ok [])
                       end) body
  end.

Definition query_response_status_from_indexer (response : Response) (hyperclient : HyperClient W) :
    Net W (option MessageStatusWithMetadata) :=
  let* commitment := or_panic (hash_response response) in
  match hy_indexer hyperclient with
  | None => ret (Ok None)
  | Some indexer =>
      let? body := ix_response indexer (commitment_id commitment) in
      status_from_body indexer (hy_hyperbridge hyperclient) (response_source_chain response) (response_dest_chain response)
        (fun height => match response with
                       | ResponsePost post =>
                           encode_response_call_data (hy_hyperbridge hyperclient) (hy_dest hyperclient) (ResponsePost post) height
                       | ResponseGet _ => ret (Ok [])
                       end) body
  end.

(** [.await.ok().flatten()] *)
Definition indexed (query : Net W (option MessageStatusWithMetadata)) : M W (option MessageStatusWithMetadata) :=
  let* answer := query in ret (match answer with Ok status => status | Err _ => None end).
(** [if chain == a.state_id { a } else if chain == b.state_id { b } else { Err }] *)
Definition pick (chain : StateMachine) (a b : Client W) : result AnyError (Client W) :=
  if bool_decide (chain = client_chain a) then Ok a
  else if bool_decide (chain = client_chain b) then Ok b
  else Err (AnyMessage (lit "Unknown client")).

Definition delivered (relayer : H160) : bool := negb (bool_decide (relayer = H160_zero)).

(** ** Statuses at one moment ([internals/*.rs]) *)

Section status.
Context (fuel : nat) (hyperclient : HyperClient W).
Abbreviation hyperbridge := (hy_hyperbridge hyperclient).

Definition query_post_request_status_internal (post : PostRequest) : Net W MessageStatusWithMetadata :=
  let? dest_client := ret (pick (post_dest post) (hy_dest hyperclient) (hy_source hyperclient)) in
  let? destination_current_timestamp := cl_query_timestamp dest_client in
  let* hash := or_panic (hash_request (RequestPost post)) in
  let? relayer_address := cl_query_request_receipt dest_client hash in
  let* status := indexed (query_request_status_from_indexer (RequestPost post) hyperclient) in
  match status with
  | Some status => ret (Ok status)
  | None =>
      if delivered relayer_address then ret (Ok (StDestinationDelivered no_meta))
      else if as_secs (post_timeout post) <=? as_secs destination_current_timestamp then ret (Ok StTimeout)
      else
        let? hyperbridge_current_timestamp := cl_query_timestamp hyperbridge in
        let? relayer := cl_query_request_receipt hyperbridge hash in
        if delivered relayer then ret (Ok (StHyperbridgeVerified no_meta))
        else if as_secs (post_timeout post) <? as_secs hyperbridge_current_timestamp then ret (Ok StTimeout)
        else ret (Ok StPending)
  end.

Definition query_response_status_internal (response : PostResponse) : Net W MessageStatusWithMetadata :=
  let res := ResponsePost response in
  let? dest_client := ret (pick (response_dest_chain res) (hy_dest hyperclient) (hy_source hyperclient)) in
  let? response_destination_timeout := cl_query_timestamp dest_client in
  let* req_hash := or_panic (hash_request (response_request res)) in
  let? response_receipt_relayer := cl_query_response_receipt dest_client req_hash in
  let* status := indexed (query_response_status_from_indexer res hyperclient) in
  match status with
  | Some status => ret (Ok status)
  | None =>
      if delivered response_receipt_relayer then ret (Ok (StDestinationDelivered no_meta))
      else if pr_timeout_timestamp response <? as_secs response_destination_timeout then ret (Ok StTimeout)
      else
        let? relayer := cl_query_response_receipt hyperbridge req_hash in
        if delivered relayer then ret (Ok (StHyperbridgeVerified no_meta))
        else
          let? hyperbridge_current_timestamp := cl_query_timestamp hyperbridge in
          if pr_timeout_timestamp response <? as_secs hyperbridge_current_timestamp then ret (Ok StTimeout)
          else ret (Ok StPending)
  end.

Definition query_get_request_status (get : GetRequest) : Net W MessageStatusWithMetadata :=
  let? source_client := ret (pick (get_source get) (hy_source hyperclient) (hy_dest hyperclient)) in
  let* commitment := or_panic (hash_request (RequestGet get)) in
  let? source_relayer := cl_query_response_receipt source_client commitment in
  if delivered source_relayer then ret (Ok (StDestinationDelivered no_meta))
  else
    let? relayer := cl_query_request_receipt hyperbridge commitment in
    if delivered relayer then ret (Ok (StHyperbridgeVerified no_meta))
    else
      let? timestamp := cl_query_timestamp hyperbridge in
      if as_secs timestamp <? get_timeout_timestamp get then ret (Ok StTimeout)
      else ret (Ok StPending).

(** ** Streams *)

(** [stream::unfold(state, step)], asked for [n] items. *)
Fixpoint unfold {S I} (n : nat) (step : S -> M W (option (I * S))) (state : S) : M W (list I) :=
  match n with
  | O => ret []
  | Datatypes.S n =>
      let* next := step state in
      match next with
      | None => ret []
      | Some (item, state) => let* items := unfold n step state in ret (item :: items)
      end
  end.

(** An error in a step is the last item. *)
Definition or_end {S I} (end_ : S) (lambda : Net W (option (result AnyError I * S))) : M W (option (result AnyError I * S)) :=
  let* next := lambda in
  ret (match next with
       | Ok next => next
       | Err e => Some (Err (AnyMessage (lit "Encountered an error in stream")), end_)
       end).

Definition yield {S I} (item : I) (state : S) : Net W (option (result AnyError I * S)) := ret (Ok (Some (Ok item, state))).
Definition yield_error {S I} (state : S) : Net W (option (result AnyError I * S)) :=
  ret (Ok (Some (Err (AnyMessage (lit "Encountered an error")), state))).

(** The first update of a stream for which [enough] holds; an error of the stream ends the search. *)
Fixpoint await_update (enough : StateMachineUpdated -> Net W bool) (items : Stream StateMachineUpdated) :
    Net W (option (result AnyError (WithMetadata StateMachineUpdated))) :=
  match items with
  | [] => ret (Ok None)
  | Ok ev :: items =>
      let? b := enough (wm_event ev) in
      if b then ret (Ok (Some (Ok ev))) else await_update enough items
  | Err e :: _ => ret (Ok (Some (Err e)))
  end.

Definition at_height (height : Z) (update : StateMachineUpdated) : Net W bool :=
  ret (Ok (height <=? smu_latest_height update)).

(** The first item of a stream; its errors are logged. *)
Definition first_ok {A} (items : Stream A) : option (WithMetadata A) :=
  find_map (fun item => match item with Ok ev => Some ev | Err _ => None end) items.

(** *** The status of a POST request *)

Definition stage (state : MessageStatusStreamState) : Z :=
  match state with
  | MsDispatched _ => 0
  | MsSourceFinalized _ => 1
  | MsHyperbridgeVerified _ => 2
  | MsHyperbridgeFinalized _ => 3
  | MsDestinationDelivered => 4
  | MsEnd => 4
  end.

(** Every state accepts from the indexer the statuses that come after it. *)
Definition state_of_status (status : MessageStatusWithMetadata) : option MessageStatusStreamState :=
  match status with
  | StSourceFinalized finalized_height _ => Some (MsSourceFinalized finalized_height)
  | StHyperbridgeVerified meta => Some (MsHyperbridgeVerified (em_block_number meta))
  | StHyperbridgeFinalized finalized_height _ _ => Some (MsHyperbridgeFinalized finalized_height)
  | StDestinationDelivered _ => Some MsDestinationDelivered
  | _ => None
  end.
Definition further (from : MessageStatusStreamState) (status : option MessageStatusWithMetadata) :
    option (MessageStatusWithMetadata * MessageStatusStreamState) :=
  status ← status; state ← state_of_status status;
  if stage from <? stage state then Some (status, state) else None.

Abbreviation Lambda := (Net W (option (result AnyError MessageStatusWithMetadata * MessageStatusStreamState))).

(** The update on hyperbridge that finalises the source, for POST and GET requests. *)
Definition await_source (source_client : Client W) (height : Z) : Lambda :=
  let? updates := cl_state_machine_update_notification hyperbridge (cl_state_machine_id source_client) in
  let? found := await_update (at_height height) updates in
  match found with
  | None => ret (Ok None)
  | Some (Err _) => yield_error (MsDispatched height)
  | Some (Ok ev) => yield (StSourceFinalized (smu_latest_height (wm_event ev)) (wm_meta ev))
                      (MsSourceFinalized (em_block_number (wm_meta ev)))
  end.

(** The event on hyperbridge with the commitment. *)
Definition await_hyperbridge (commitment : H256) (finalized_height : Z) : Lambda :=
  let? events := cl_ismp_events_stream hyperbridge commitment finalized_height in
  match first_ok events with
  | Some ev => yield (StHyperbridgeVerified (wm_meta ev)) (MsHyperbridgeVerified (em_block_number (wm_meta ev)))
  | None => ret (Ok None)
  end.

Section post.
Context (source_client dest_client : Client W) (post : PostRequest) (hash : H256).

Definition ask_indexer (from : MessageStatusStreamState) : M W (option (MessageStatusWithMetadata * MessageStatusStreamState)) :=
  let* status := indexed (query_request_status_from_indexer (RequestPost post) hyperclient) in ret (further from status).

Definition post_dispatched (height : Z) : Lambda :=
  let? destination_current_timestamp := cl_query_timestamp dest_client in
  let? relayer_address := cl_query_request_receipt dest_client hash in
  let* next := ask_indexer (MsDispatched height) in
  match next with
  | Some (status, state) => yield status state
  | None =>
      if delivered relayer_address then yield (StDestinationDelivered no_meta) MsEnd
      else if as_secs (post_timeout post) <=? as_secs destination_current_timestamp then yield StTimeout MsEnd
      else
        let? hyperbridge_current_timestamp := cl_query_timestamp hyperbridge in
        let? relayer := cl_query_request_receipt hyperbridge hash in
        if delivered relayer then
          let? latest := cl_query_latest_block_height hyperbridge in
          yield (StHyperbridgeVerified no_meta) (MsHyperbridgeVerified latest)
        else if as_secs (post_timeout post) <=? as_secs hyperbridge_current_timestamp then yield StTimeout MsEnd
        else await_source source_client height
  end.

(** The event of the request is searched on the destination, at heights of hyperbridge. *)
Definition is_this_request (event : WithMetadata Event) : option EventMetadata :=
  match wm_event event with
  | EvPostRequest p =>
      if bool_decide (post_source post = post_source p) && (post_nonce post =? post_nonce p)
      then Some (wm_meta event) else None
  | _ => None
  end.

Definition post_source_finalized (finalized_height : Z) : Lambda :=
  let? relayer := cl_query_request_receipt hyperbridge hash in
  let* next := ask_indexer (MsSourceFinalized finalized_height) in
  match next with
  | Some (status, state) => yield status state
  | None =>
      if delivered relayer then
        let? latest_height := cl_query_latest_block_height hyperbridge in
        let? events := cl_query_ismp_event dest_client finalized_height latest_height in
        let meta := find_map is_this_request events in
        yield (StHyperbridgeVerified (default no_meta meta))
          (MsHyperbridgeVerified (match meta with Some m => em_block_number m | None => latest_height end))
      else await_hyperbridge hash finalized_height
  end.

(** The first update in a list of events that reaches [height]. *)
Definition updated_to (height : Z) (event : WithMetadata Event) : option (EventMetadata * StateMachineUpdated) :=
  match wm_event event with
  | EvStateMachineUpdated updated =>
      if height <=? smu_latest_height updated then Some (wm_meta event, updated) else None
  | _ => None
  end.

Definition calldata_at (height : Z) : Net W bytes :=
  encode_request_message_and_wait_for_challenge_period fuel hyperbridge dest_client post hash height.

Definition post_hyperbridge_verified (height : Z) : Lambda :=
  let? res := cl_query_request_receipt dest_client hash in
  let* next := ask_indexer (MsHyperbridgeVerified height) in
  match next with
  | Some (status, state) => yield status state
  | None =>
      if delivered res then yield (StDestinationDelivered no_meta) MsEnd
      else
        let? latest_hyperbridge_height :=
          cl_query_latest_state_machine_height dest_client (cl_state_machine_id hyperbridge) in
        if height <=? latest_hyperbridge_height then
          let? latest_height := cl_query_latest_block_height dest_client in
          let? events := cl_query_ismp_event dest_client (wrap64 (latest_height - 500)) latest_height in
          match find_map (updated_to height) events with
          | None =>
              let? calldata := calldata_at latest_hyperbridge_height in
              yield (StHyperbridgeFinalized height no_meta calldata) (MsHyperbridgeFinalized latest_height)
          | Some (meta, update) =>
              let? calldata := calldata_at (smu_latest_height update) in
              yield (StHyperbridgeFinalized (smu_latest_height update) meta calldata)
                (MsHyperbridgeFinalized (em_block_number meta))
          end
        else
          let? updates := cl_state_machine_update_notification dest_client (cl_state_machine_id hyperbridge) in
          let? found := await_update (at_height height) updates in
          match found with
          | None => ret (Ok None)
          | Some (Err _) => yield_error (MsHyperbridgeVerified height)
          | Some (Ok ev) =>
              let? calldata := calldata_at (smu_latest_height (wm_event ev)) in
              yield (StHyperbridgeFinalized (smu_latest_height (wm_event ev)) (wm_meta ev) calldata)
                (MsHyperbridgeFinalized (em_block_number (wm_meta ev)))
          end
  end.

Definition handled_here (event : WithMetadata Event) : option EventMetadata :=
  match wm_event event with
  | EvPostRequestHandled e => if bool_decide (rrh_commitment e = hash) then Some (wm_meta event) else None
  | _ => None
  end.

Definition post_hyperbridge_finalized (finalized_height : Z) : Lambda :=
  let? res := cl_query_request_receipt dest_client hash in
  let* next := ask_indexer (MsHyperbridgeFinalized finalized_height) in
  match next with
  | Some (status, state) => yield status state
  | None =>
      if delivered res then
        let? latest_height := cl_query_latest_block_height dest_client in
        let? events := cl_query_ismp_event dest_client finalized_height latest_height in
        yield (StDestinationDelivered (default no_meta (find_map handled_here events))) MsDestinationDelivered
      else
        let? events := cl_post_request_handled_stream dest_client hash finalized_height in
        match first_ok events with
        | Some ev => yield (StDestinationDelivered (wm_meta ev)) MsDestinationDelivered
        | None => ret (Ok None)
        end
  end.

Definition post_step (state : MessageStatusStreamState) :
    M W (option (result AnyError MessageStatusWithMetadata * MessageStatusStreamState)) :=
  or_end MsEnd
    (match state with
     | MsDispatched height => post_dispatched height
     | MsSourceFinalized height => post_source_finalized height
     | MsHyperbridgeVerified height => post_hyperbridge_verified height
     | MsHyperbridgeFinalized height => post_hyperbridge_finalized height
     | MsDestinationDelivered => ret (Ok None)
     | MsEnd => ret (Ok None)
     end).

End post.

(** The first [n] items of the stream. *)
Definition post_request_status_stream (post : PostRequest) (state : MessageStatusStreamState) (n : nat) :
    Net W (list (result AnyError MessageStatusWithMetadata)) :=
  let? source_client := ret (pick (post_source post) (hy_dest hyperclient) (hy_source hyperclient)) in
  let? dest_client := ret (pick (post_dest post) (hy_dest hyperclient) (hy_source hyperclient)) in
  let* hash := or_panic (hash_request (RequestPost post)) in
  let* items := unfold n (post_step source_client dest_client post hash) state in
  ret (Ok items).

(** *** The status of a GET request *)

Section get.
Context (source_client : Client W) (commitment : H256).

(** [find_map] over the events: the answer to the request. Hashing an event may panic. *)
Fixpoint find_answer (events : list (WithMetadata Event)) : option (option GetResponse) :=
  match events with
  | [] => Some None
  | event :: events =>
      match wm_event event with
      | EvGetResponse response =>
          event_hash ← hash_request (RequestGet (gr_get response));
          if bool_decide (event_hash = commitment) then Some (Some response) else find_answer events
      | _ => find_answer events
      end
  end.

Definition get_hyperbridge_verified (height : Z) : Lambda :=
  let? updates := cl_state_machine_update_notification source_client (cl_state_machine_id hyperbridge) in
  let? events := cl_query_ismp_event hyperbridge (wrap64 (height - 1)) height in
  let* answer := or_panic (find_answer events) in
  let* response := or_panic answer in
  let? found := await_update (at_height height) updates in
  match found with
  | None => ret (Ok None)
  | Some (Err _) => yield_error (MsHyperbridgeVerified height)
  | Some (Ok ev) =>
      let? calldata := encode_response_message_and_wait_for_challenge_period fuel hyperbridge source_client
                         (ResponseGet response) (smu_latest_height (wm_event ev)) in
      yield (StHyperbridgeFinalized (smu_latest_height (wm_event ev)) (wm_meta ev) calldata) MsEnd
  end.

Definition get_step (state : MessageStatusStreamState) :
    M W (option (result AnyError MessageStatusWithMetadata * MessageStatusStreamState)) :=
  or_end MsEnd
    (match state with
     | MsDispatched tx_height => await_source source_client tx_height
     | MsSourceFinalized finalized_height => await_hyperbridge commitment finalized_height
     | MsHyperbridgeVerified height => get_hyperbridge_verified height
     | _ => ret (Ok None)
     end).

End get.

Definition get_request_status_stream (get : GetRequest) (state : MessageStatusStreamState) (n : nat) :
    Net W (list (result AnyError MessageStatusWithMetadata)) :=
  let? source_client := ret (pick (get_source get) (hy_dest hyperclient) (hy_source hyperclient)) in
  let* commitment := or_panic (hash_request (RequestGet get)) in
  let* items := unfold n (get_step source_client commitment) state in
  ret (Ok items).

(** *** The timeout of a POST request *)

Abbreviation TimeoutLambda := (Net W (option (result AnyError TimeoutStatus * TimeoutStreamState))).

Section timeout.
Context (source_client dest_client : Client W) (post : PostRequest) (hash : H256).

Definition past_timeout (commitment : StateCommitment) : bool := as_secs (post_timeout post) <? sc_timestamp commitment.

(** Whether the chain as it is known to [client] at an update has passed the timeout. *)
Definition times_out_at (client : Client W) (update : StateMachineUpdated) : Net W bool :=
  let? commitment := cl_query_state_machine_commitment client
    (mkStateMachineHeight (smu_state_machine_id update) (smu_latest_height update)) in
  ret (Ok (past_timeout commitment)).

Definition timeout_pending : TimeoutLambda :=
  let? height := cl_query_latest_state_machine_height hyperbridge (cl_state_machine_id dest_client) in
  let? state_commitment := cl_query_state_machine_commitment hyperbridge
    (mkStateMachineHeight (cl_state_machine_id dest_client) height) in
  if past_timeout state_commitment then yield (TsDestinationFinalized no_meta) (ToDestinationFinalized height)
  else
    let? updates := cl_state_machine_update_notification hyperbridge (cl_state_machine_id dest_client) in
    let? found := await_update (times_out_at hyperbridge) updates in
    match found with
    | None => ret (Ok None)
    | Some (Err _) => yield_error ToPending
    | Some (Ok ev) => yield (TsDestinationFinalized (wm_meta ev))
                        (ToDestinationFinalized (smu_latest_height (wm_event ev)))
    end.

(** The message with which [client] is told that the request was not received by [prover] at a height. *)
Definition timeout_message (prover : Client W) (proof_height : Z) : Net W (StateMachineHeight * Message) :=
  let? proof := cl_query_state_proof prover proof_height [cl_request_receipt_full_key prover hash] in
  let height := mkStateMachineHeight (cl_state_machine_id prover) proof_height in
  ret (Ok (height, MsgTimeout (TMPost [RequestPost post] (mkProof height proof)))).

Definition await_challenge (client prover : Client W) (height : StateMachineHeight) : Net W unit :=
  let? challenge_period := cl_query_challenge_period client (cl_state_machine_id prover) in
  let? update_time := cl_query_state_machine_update_time client height in
  wait_for_period fuel client update_time challenge_period.

Definition timeout_destination_finalized (proof_height : Z) : TimeoutLambda :=
  let? relayer := cl_query_request_receipt hyperbridge hash in
  if negb (delivered relayer) then
    let? header := hy_header hyperclient in
    let? latest_height := ret (ok_or header (AnyMessage (lit "Failed to query latest hyperbridge height!"))) in
    yield (TsHyperbridgeVerified no_meta) (ToHyperbridgeVerified latest_height)
  else
    let? (height, message) := timeout_message dest_client proof_height in
    let? _ := await_challenge hyperbridge dest_client height in
    let? meta := cl_submit hyperbridge message in
    yield (TsHyperbridgeVerified meta) (ToHyperbridgeVerified (em_block_number meta)).

Definition timeout_hyperbridge_verified (hyperbridge_height : Z) : TimeoutLambda :=
  let? latest_hyperbridge_height :=
    cl_query_latest_state_machine_height source_client (cl_state_machine_id hyperbridge) in
  if hyperbridge_height <=? latest_hyperbridge_height then
    let? latest_height := cl_query_latest_block_height source_client in
    let? events := cl_query_ismp_event source_client (wrap64 (latest_height - 500)) latest_height in
    match find_map (updated_to hyperbridge_height) events with
    | None => yield (TsHyperbridgeFinalized no_meta) (ToHyperbridgeFinalized latest_height)
    | Some (meta, _) => yield (TsHyperbridgeFinalized meta) (ToHyperbridgeFinalized (em_block_number meta))
    end
  else
    let? updates := cl_state_machine_update_notification source_client (cl_state_machine_id hyperbridge) in
    let? found := await_update (fun update =>
      let? b := times_out_at source_client update in
      ret (Ok (b && (hyperbridge_height <=? smu_latest_height update)))) updates in
    match found with
    | None => ret (Ok None)
    | Some (Err _) => yield_error (ToHyperbridgeVerified hyperbridge_height)
    | Some (Ok ev) => yield (TsHyperbridgeFinalized (wm_meta ev))
                        (ToHyperbridgeFinalized (smu_latest_height (wm_event ev)))
    end.

Definition timeout_hyperbridge_finalized (proof_height : Z) : TimeoutLambda :=
  let? (height, message) := timeout_message hyperbridge proof_height in
  let? _ := await_challenge source_client hyperbridge height in
  let? calldata := cl_encode source_client message in
  yield (TsTimeoutMessage calldata) ToEnd.

Definition timeout_step (state : TimeoutStreamState) :
    M W (option (result AnyError TimeoutStatus * TimeoutStreamState)) :=
  or_end ToEnd
    (match state with
     | ToPending => timeout_pending
     | ToDestinationFinalized proof_height => timeout_destination_finalized proof_height
     | ToHyperbridgeVerified hyperbridge_height => timeout_hyperbridge_verified hyperbridge_height
     | ToHyperbridgeFinalized proof_height => timeout_hyperbridge_finalized proof_height
     | ToEnd => ret (Ok None)
     end).

End timeout.

Definition timeout_post_request_stream (post : PostRequest) (state : TimeoutStreamState) (n : nat) :
    Net W (list (result AnyError TimeoutStatus)) :=
  let? source_client := ret (pick (post_source post) (hy_dest hyperclient) (hy_source hyperclient)) in
  let? dest_client := ret (pick (post_dest post) (hy_dest hyperclient) (hy_source hyperclient)) in
  let* hash := or_panic (hash_request (RequestPost post)) in
  let* items := unfold n (timeout_step source_client dest_client post hash) state in
  ret (Ok items).

(** *** Waiting for the timeout itself *)

Definition timeout_poll (timeout : Z) (client : Client W) : M W (option (result AnyError MessageStatusWithMetadata)) :=
  let* response :=
    (let? current_timestamp := cl_query_timestamp client in
     if timeout <? as_secs current_timestamp then ret (Ok true)
     else let* _ := sleep (from_secs (timeout - as_secs current_timestamp)) in ret (Ok false)) in
  ret (match response with
       | Ok true => Some (Ok StTimeout)
       | Ok false => None
       | Err _ => Some (Err (AnyMessage (lit "Encountered an error in timeout stream")))
       end).

(** What the stream yields in [polls] polls; without a timeout it is [stream::pending()]. *)
Definition message_timeout_stream (polls : nat) (timeout : Z) (client : Client W) :
    M W (list (result AnyError MessageStatusWithMetadata)) :=
  if timeout =? 0 then ret []
  else let* items := map_m (fun _ => timeout_poll timeout client) (seq 0 polls) in ret (omap id items).

End status.
End client.

(** ** Substrate chains ([providers/substrate.rs]) *)

(** The RPC of a node: the next finalised header of the subscription, the events of a range of
    blocks with their metadata, proofs, and the child trie. *)
Record SubstrateRpc (W : Type) : Type := mkSubstrateRpc {
  sr_next_header : M W (option (result AnyError Z));
  sr_events : Z -> Z -> Net W (list (WithMetadata Event));
  sr_mmr_proof : Z -> ProofKeys -> Net W bytes;
  sr_child_trie_proof : Z -> list bytes -> Net W bytes;
  sr_child_storage : bytes -> Net W (option bytes)
}.
Arguments sr_next_header {W}.
Arguments sr_events {W}.
Arguments sr_mmr_proof {W}.
Arguments sr_child_trie_proof {W}.
Arguments sr_child_storage {W}.

Section substrate.
Context `{Keccak256} `{!Codec (list bytes), !Codec SubstrateStateProof, !Codec bytes, !Codec ResponseReceipt} {W : Type} (rpc : SubstrateRpc W).
Context (hashing : HashAlgorithm).

(** The blocks after [previous_height], up to [latest_height]. *)
Definition substrate_query_ismp_events (previous_height latest_height : Z) : Net W (list (WithMetadata Event)) :=
  if latest_height <? wrap64 (previous_height + 1) then ret (Ok [])
  else sr_events rpc (saturating_add_u64 previous_height 1 mod 2 ^ 32) (latest_height mod 2 ^ 32).

(** The range is given to [query_ismp_events], which leaves out its first block. *)
Definition substrate_query_ismp_event (first last : Z) : Net W (list (WithMetadata Event)) :=
  substrate_query_ismp_events first last.

(** [H160::from_slice(&relayer[..20])] *)
Definition first_20 (relayer : bytes) : option H160 := if (20 <=? length relayer)%nat then Some (take 20 relayer) else None.

Definition substrate_query_request_receipt (request_hash : H256) : Net W H160 :=
  let? response := sr_child_storage rpc (request_receipt_storage_key request_hash) in
  match response with
  | None => ret (Ok H160_zero)
  | Some data =>
      let? relayer := ret (ok_or (decode (A := bytes) data) (AnyMessage (lit "Could not decode"))) in
      let* relayer := or_panic (first_20 relayer) in ret (Ok relayer)
  end.
Definition substrate_query_response_receipt (request_commitment : H256) : Net W H160 :=
  let? response := sr_child_storage rpc (response_receipt_storage_key request_commitment) in
  match response with
  | None => ret (Ok H160_zero)
  | Some data =>
      let? receipt := ret (ok_or (decode (A := ResponseReceipt) data) (AnyMessage (lit "Could not decode"))) in
      let* relayer := or_panic (first_20 (receipt_relayer receipt)) in ret (Ok relayer)
  end.

(** Nodes of the child trie, as a proof of the overlay root. *)
Definition substrate_query_state_proof (at_ : Z) (keys : list bytes) : Net W bytes :=
  let? response := sr_child_trie_proof rpc at_ keys in
  let? storage_proof := ret (ok_or (decode (A := list bytes) response) (AnyMessage (lit "Could not decode"))) in
  ret (Ok (encode (OverlayProof (mkStateMachineProof hashing storage_proof)))).

(** Proofs for EVM chains are of the mountain range, those for substrate chains of the child trie. *)
Definition substrate_query_proof (at_ : Z) (commitments : list H256) (counterparty : StateMachine)
    (mmr_keys : list H256 -> ProofKeys) (storage_key : H256 -> bytes) : Net W bytes :=
  match commitments with
  | [] => ret (Err (AnyMessage (lit "No queries provided")))
  | _ =>
      if is_evm counterparty then sr_mmr_proof rpc at_ (mmr_keys commitments)
      else if is_substrate counterparty then substrate_query_state_proof at_ (storage_key <$> commitments)
      else ret (Err (AnyMessage (lit "Unsupported state machine")))
  end.
Definition substrate_query_requests_proof (at_ : Z) (keys : list H256) (counterparty : StateMachine) : Net W bytes :=
  substrate_query_proof at_ keys counterparty ProofRequests request_commitment_storage_key.
Definition substrate_query_responses_proof (at_ : Z) (keys : list H256) (counterparty : StateMachine) : Net W bytes :=
  substrate_query_proof at_ keys counterparty ProofResponses response_commitment_storage_key.

(** One turn of the streams: the events since the last height that was read, if they can be read. *)
Definition substrate_poll {A} (select : list (WithMetadata Event) -> option (option A)) (latest_height : Z) :
    M W (option (option A * Z)) :=
  let* header := sr_next_header rpc in
  match header with
  | None => ret None
  | Some (Err _) => ret (Some (None, latest_height))
  | Some (Ok number) =>
      let* events := substrate_query_ismp_events latest_height number in
      match events with
      | Err _ => ret (Some (None, latest_height))
      | Ok events => let* found := or_panic (select events) in ret (Some (found, number))
      end
  end.

(** What a stream yields in [n] turns. *)
Fixpoint substrate_stream {A} (n : nat) (select : list (WithMetadata Event) -> option (option A)) (latest_height : Z) : M W (list A) :=
  match n with
  | O => ret []
  | S n =>
      let* next := substrate_poll select latest_height in
      match next with
      | None => ret []
      | Some (found, latest_height) =>
          let* rest := substrate_stream n select latest_height in
          ret (match found with Some x => x :: rest | None => rest end)
      end
  end.

Definition event_commitment (event : Event) : option (option H256) :=
  match event with
  | EvPostRequest post => Some <$> hash_request (RequestPost post)
  | EvPostResponse resp => Some <$> hash_response (ResponsePost resp)
  | EvGetResponse response => Some <$> hash_request (RequestGet (gr_get response))
  | _ => Some None
  end.
Fixpoint find_event (commitment : H256) (events : list (WithMetadata Event)) : option (option (WithMetadata Event)) :=
  match events with
  | [] => Some None
  | event :: events =>
      value ← event_commitment (wm_event event);
      if bool_decide (value = Some commitment) then Some (Some event) else find_event commitment events
  end.
Definition substrate_ismp_events_stream (n : nat) (commitment : H256) (initial_height : Z) : M W (list (WithMetadata Event)) :=
  substrate_stream n (find_event commitment) initial_height.

(** The updates of a state machine, and [max_by]: the last of the greatest. *)
Definition updates_of (id : StateMachineId) (events : list (WithMetadata Event)) : list (WithMetadata StateMachineUpdated) :=
  omap (fun event => match wm_event event with
    | EvStateMachineUpdated e => if bool_decide (smu_state_machine_id e = id) then Some (mkWithMetadata (wm_meta event) e) else None
    | _ => None end) events.
Definition later {T} (height : T -> Z) (best : option T) (x : T) : option T :=
  match best with Some y => if height x <? height y then best else Some x | None => Some x end.
Definition max_by {T} (height : T -> Z) (l : list T) : option T := foldl (later height) None l.
Definition substrate_update_notification (n : nat) (id : StateMachineId) (initial_height : Z) : M W (list (WithMetadata StateMachineUpdated)) :=
  substrate_stream n (fun events => Some (max_by (fun u => smu_latest_height (wm_event u)) (updates_of id events))) initial_height.

End substrate.

(** ** EVM chains ([providers/evm.rs]) *)

(** Calls of the handler; call data is their ABI encoding. *)
Record GetLeaf : Type := mkGetLeaf { gl_response : GetResponse; gl_index : Z; gl_k_index : Z }.
Inductive HandlerCall : Type :=
| CallPostRequestTimeouts (timeouts : list PostRequest) (state_machine_id height : Z) (proof : list bytes)
| CallPostResponseTimeouts (timeouts : list PostResponse) (state_machine_id height : Z) (proof : list bytes)
| CallPostRequests (proof : SolidityProof) (requests : list RequestLeaf_)
| CallPostResponses (proof : SolidityProof) (responses : list ResponseLeaf_)
| CallGetResponses (proof : SolidityProof) (responses : list GetLeaf).

(** The node, and the events of the host contract: those that are no events of ISMP do not convert. *)
Record EvmRpc (W : Type) : Type := mkEvmRpc {
  er_block_number : Net W Z;
  er_events : Z -> Z -> Net W (list (WithMetadata (result AnyError Event)))
}.
Arguments er_block_number {W}.
Arguments er_events {W}.

Section evm.
Context `{Keccak256} `{!MmrHelpers} `{!Codec MmrProof, !Codec SubstrateStateProof} {W : Type} `{!Timer W} (rpc : EvmRpc W).
Context (abi : HandlerCall -> bytes).

Definition get_leaves (responses : list Response) (indices : list (Z * Z)) : list GetLeaf :=
  sort_by_key gl_index (omap (fun x => match x.1 with
    | ResponseGet res => Some (mkGetLeaf res x.2.2 x.2.1) | ResponsePost _ => None end) (zip responses indices)).

Definition posts_of (requests : list Request) : list PostRequest :=
  omap (fun req => match req with RequestPost post => Some post | RequestGet _ => None end) requests.

(** [match state_id { Polkadot(id) | Kusama(id) => id, _ => Err(..)? }] *)
Definition expected_para_id (height : StateMachineHeight) : result AnyError Z :=
  ok_or (para_id (smi_state_id (smh_id height))) (AnyMessage (lit "Expected polkadot or kusama state machines")).
Definition decoded_nodes (proof : bytes) : result AnyError (list bytes) :=
  result_map storage_proof (ok_or (decode (A := SubstrateStateProof) proof) (AnyMessage (lit "Error decoding proof"))).

Definition evm_encode (msg : Message) : Net W bytes :=
  let membership proof := ret (ok_or (decode (A := MmrProof) proof) (AnyMessage (lit "Could not decode"))) in
  let indices p := or_panic (mapM (k_and_leaf_index (nodes_size (PalletTypes.leaf_count p))) (PalletTypes.leaf_indices_and_pos p)) in
  match msg with
  | MsgTimeout (TMPost requests timeout_proof) =>
      let? nodes := ret (decoded_nodes (proof_bytes timeout_proof)) in
      let? id := ret (expected_para_id (proof_height timeout_proof)) in
      ret (Ok (abi (CallPostRequestTimeouts (posts_of requests) id (smh_height (proof_height timeout_proof)) nodes)))
  | MsgTimeout (TMPostResponse responses timeout_proof) =>
      let? nodes := ret (decoded_nodes (proof_bytes timeout_proof)) in
      let? id := ret (expected_para_id (proof_height timeout_proof)) in
      ret (Ok (abi (CallPostResponseTimeouts responses id (smh_height (proof_height timeout_proof)) nodes)))
  | MsgRequest msg =>
      let? p := membership (proof_bytes (rm_proof msg)) in
      let* k_and_leaf_indices := indices p in
      let? id := ret (expected_para_id (proof_height (rm_proof msg))) in
      ret (Ok (abi (CallPostRequests (solidity_proof id (smh_height (proof_height (rm_proof msg))) p)
        (request_leaves (rm_requests msg) k_and_leaf_indices))))
  | MsgResponse msg =>
      let? p := membership (proof_bytes (rsm_proof msg)) in
      let* k_and_leaf_indices := indices p in
      match rsm_datagram msg with
      | RRRequest _ => ret (Err (AnyMessage (lit "Get requests cannot be relayed")))
      | RRResponse responses =>
          let* first := or_panic (head responses) in
          let? id := ret (expected_para_id (proof_height (rsm_proof msg))) in
          let proof := solidity_proof id (smh_height (proof_height (rsm_proof msg))) p in
          ret (Ok (abi (match first with
                        | ResponsePost _ => CallPostResponses proof (response_leaves responses k_and_leaf_indices)
                        | ResponseGet _ => CallGetResponses proof (get_leaves responses k_and_leaf_indices)
                        end)))
      end
  | _ => ret (Err (AnyMessage (lit "Unsupported message")))
  end.

Definition converted (event : WithMetadata (result AnyError Event)) : result AnyError (WithMetadata Event) :=
  result_map (mkWithMetadata (wm_meta event)) (wm_event event).
Definition evm_query_ismp_event (first last : Z) : Net W (list (WithMetadata Event)) :=
  let? events := er_events rpc first last in ret (collect_results (converted <$> events)).

(** One turn of the streams: what is new since the last turn. A height below the last one is taken
    as the new one. *)
Definition evm_poll {A} (seconds : Z) (select : list (WithMetadata (result AnyError Event)) -> option A) (latest_height : Z) :
    M W (result AnyError (option A) * Z) :=
  let* _ := sleep (from_secs seconds) in
  let* number := er_block_number rpc in
  match number with
  | Err e => ret (Err e, latest_height)
  | Ok number =>
      let block_number := low_u64 number in
      if block_number <? latest_height then ret (Ok None, block_number)
      else
        let* results := er_events rpc latest_height block_number in
        match results with
        | Err e => ret (Err e, latest_height)
        | Ok events => ret (Ok (select events), wrap64 (block_number + 1))
        end
  end.

(** What a stream yields in [n] turns; it never ends. *)
Fixpoint evm_stream {A} (n : nat) (seconds : Z) (select : list (WithMetadata (result AnyError Event)) -> option A) (latest_height : Z) :
    M W (list (result AnyError A)) :=
  match n with
  | O => ret []
  | S n =>
      let* (found, latest_height) := evm_poll seconds select latest_height in
      let* rest := evm_stream n seconds select latest_height in
      ret (match found with Ok None => rest | Ok (Some x) => Ok x :: rest | Err e => Err e :: rest end)
  end.

Definition handled_events (commitment : H256) (events : list (WithMetadata (result AnyError Event))) : list (WithMetadata H256) :=
  omap (fun event => match wm_event event with
    | Ok (EvPostRequestHandled e) => if bool_decide (rrh_commitment e = commitment) then Some (mkWithMetadata (wm_meta event) (rrh_commitment e)) else None
    | _ => None end) events.
Definition evm_post_request_handled_stream (n : nat) (commitment : H256) (initial_height : Z) : M W (Stream H256) :=
  evm_stream n 12 (fun events => last (handled_events commitment events)) initial_height.

Definition all_updates (events : list (WithMetadata (result AnyError Event))) : list (WithMetadata StateMachineUpdated) :=
  omap (fun event => match wm_event event with
    | Ok (EvStateMachineUpdated e) => Some (mkWithMetadata (wm_meta event) e) | _ => None end) events.
Definition evm_update_notification (n : nat) (initial_height : Z) : M W (Stream StateMachineUpdated) :=
  evm_stream n 30 (fun events => last (sort_by_key (fun u => smu_latest_height (wm_event u)) (all_updates events))) initial_height.

End evm.
