(* ===== verification/HyperclientProps.v ===== *)
(** * Theorems on the hyperclient

    Nothing is assumed of the chains and of the indexer here, unless a theorem says so: a stream
    may be asked at any time, and every query may be answered by anything. What is said of a status
    is what was answered on the way to it. *)

From S2P Require Import Prelude StateMachine Router Messaging ChildTrie PalletTypes SubstrateMachine EvmMachine Apps Relayer Tesseract TesseractProps Mmr EvmProvider Hyperclient RefHost EvmDemo RelayDemo.

(** ** What was answered *)

(** The program has returned [a] at some time, and what holds of every value it returns. *)
Definition returned {W A} (m : M W A) (a : A) : Prop := exists w w', m w = (Some a, w').
Abbreviation answered m a := (returned m (Ok a)).
Definition post {W A} (P : A -> Prop) (m : M W A) : Prop := forall a, returned m a -> P a.

Create HintDb answers.

Section triples.
Context {W : Type}.

Lemma post_ret {A} (P : A -> Prop) (a : A) : P a -> post P (ret a : M W A).
Proof. by intros HP b (w & w' & [= <- _]). Qed.

Lemma post_bind {A B} (P : B -> Prop) (m : M W A) (k : A -> M W B) :
  (forall a, returned m a -> post P (k a)) -> post P (bind m k).
Proof. intros Hk b (w & w' & (a & w1 & Hm & Hr)%bind_inv). eapply Hk; [by exists w, w1|by exists w1, w']. Qed.

Lemma post_try {A B E F} `{From E F} (P : result F B -> Prop) (m : M W (result E A)) (k : A -> M W (result F B)) :
  (forall e, P (Err e)) -> (forall a, answered m a -> post P (k a)) -> post P (try_bind m k).
Proof.
  intros He Hk. apply post_bind. intros [a|e] Hm; [by apply Hk|by apply post_ret].
Qed.

Lemma post_weaken {A} (P Q : A -> Prop) (m : M W A) : post P m -> (forall a, returned m a -> P a -> Q a) -> post Q m.
Proof. intros HP HQ a Ha. by apply HQ, HP. Qed.

Lemma returned_ret {A} (a b : A) : returned (ret a : M W A) b -> a = b.
Proof. by intros (w & w' & [= ? _]). Qed.
Lemma returned_or_panic {A} (o : option A) (b : A) : returned (or_panic o : M W A) b -> o = Some b.
Proof. by intros (w & w' & [? _]%or_panic_inv). Qed.
Lemma returned_bind {A B} (m : M W A) (k : A -> M W B) b : returned (bind m k) b -> exists a, returned m a /\ returned (k a) b.
Proof. intros (w & w' & (a & w1 & Hm & Hk)%bind_inv). exists a. split; [by exists w, w1|by exists w1, w']. Qed.
Lemma answered_try {A B E F} `{From E F} (m : M W (result E A)) (k : A -> M W (result F B)) b :
  answered (try_bind m k) b -> exists a, answered m a /\ answered (k a) b.
Proof. intros (w & w' & (a & w1 & Hm & Hk)%try_ok_inv). exists a. split; [by exists w, w1|by exists w1, w']. Qed.

End triples.

#[export] Hint Resolve post_ret : answers.

(** Takes a program apart: an answer for every query, and the cases of every choice. *)
Ltac post_step :=
  lazymatch goal with
  | |- post _ (bind _ _) => apply post_bind; intros ? ?
  | |- post _ (try_bind _ _) => apply post_try; [intros ?|intros ? ?]
  | |- post _ (ret _) => apply post_ret
  | |- post _ (yield _ _) => apply post_ret
  | |- post _ (yield_error _) => apply post_ret
  | |- post _ (if ?b then _ else _) => let E := fresh "Hif" in destruct b eqn:E
  | |- post _ (match ?x with _ => _ end) => let E := fresh "Hcase" in destruct x eqn:E
  end.

(** ** Streams go forward *)

Section forward.
Context {W S I : Type} (rank : S -> Z) (item_rank : I -> option Z) (top : Z).

(** A step yields a status of the stage it moves to, which is a later one, or an error, after which it
    stays where it is or ends. At the last stage there are no more steps. *)
Definition advances (state : S) (next : option (result AnyError I * S)) : Prop :=
  match next with
  | None => True
  | Some (Ok item, state') => item_rank item = Some (rank state') /\ rank state < rank state'
  | Some (Err _, state') => state' = state \/ rank state' = top
  end /\ (rank state = top -> next = None).

Definition stage_of_item (item : result AnyError I) : option Z := match item with Ok i => item_rank i | Err _ => None end.

(** What is seen of a stream: statuses of later and later stages, none of which comes after one of
    the last stage. *)
Record goes_forward (from : Z) (items : list (result AnyError I)) : Prop := {
  gf_sorted : StronglySorted Z.lt (from :: omap stage_of_item items);
  gf_known : Forall (fun item => match item with Ok i => is_Some (item_rank i) | Err _ => True end) items;
  gf_last l item r : items = l ++ item :: r -> stage_of_item item = Some top -> r = []
}.

Lemma goes_forward_nil from : goes_forward from [].
Proof. split; [repeat constructor|constructor|]. by intros [] ? ?. Qed.

Lemma goes_forward_ok from i s items : item_rank i = Some s -> from < s -> goes_forward s items -> (s = top -> items = []) ->
  goes_forward from (Ok i :: items).
Proof.
  intros Hi Hlt [Hs Hk Hl] Ht. split.
  - cbn [omap list_omap stage_of_item]. rewrite Hi. constructor; [done|]. apply StronglySorted_inv in Hs as [_ Hf].
    constructor; [done|]. eapply Forall_impl; [exact Hf|]. cbn. lia.
  - constructor; [by rewrite Hi|done].
  - intros [|x l] item r [= <- Hr] E; [|subst; by eapply Hl]. cbn in E. rewrite Hi in E. injection E as ->. rewrite <- Hr. by apply Ht.
Qed.

Lemma goes_forward_err from e items : goes_forward from items -> goes_forward from (Err e :: items).
Proof.
  intros [Hs Hk Hl]. split; [done|by constructor|]. intros [|x l] item r [= <- Hr] E; [done|]. by eapply Hl.
Qed.

Lemma unfold_top n (step : S -> M W (option (result AnyError I * S))) state items :
  (forall state, post (advances state) (step state)) -> rank state = top -> returned (unfold n step state) items -> items = [].
Proof.
  intros Hstep Htop. destruct n as [|n]; cbn [unfold]; [by intros <-%returned_ret|].
  intros (next & Hn & Hr)%returned_bind. destruct (Hstep _ _ Hn) as [_ Hend]. rewrite (Hend Htop) in Hr. by apply returned_ret in Hr.
Qed.

Lemma unfold_forward n (step : S -> M W (option (result AnyError I * S))) state :
  (forall state, post (advances state) (step state)) -> post (goes_forward (rank state)) (unfold n step state).
Proof.
  intros Hstep. revert state; induction n as [|n IH]; intros state; cbn [unfold]; [apply post_ret, goes_forward_nil|].
  apply post_bind. intros next Hn. destruct (Hstep _ _ Hn) as [Hadv _].
  destruct next as [[[i|e] state']|]; [..|apply post_ret, goes_forward_nil]; apply post_bind; intros items Hi; apply post_ret; cbn in Hadv.
  - destruct Hadv as [Hr Hlt]. eapply goes_forward_ok; [exact Hr|exact Hlt|by apply IH|]. intros Ht. by eapply unfold_top.
  - apply goes_forward_err. destruct Hadv as [->|Ht]; [by apply IH|]. rewrite (unfold_top _ _ _ _ Hstep Ht Hi). apply goes_forward_nil.
Qed.

End forward.

(** The stages of statuses and of the states of the two machines. *)
Definition status_stage (status : MessageStatusWithMetadata) : option Z :=
  match status with
  | StSourceFinalized _ _ => Some 1
  | StHyperbridgeVerified _ => Some 2
  | StHyperbridgeFinalized _ _ _ => Some 3
  | StDestinationDelivered _ => Some 4
  | StTimeout => Some 4
  | StPending | StError _ => None
  end.
(** A GET request ends with the call data for its answer. *)
Definition get_stage (state : MessageStatusStreamState) : Z :=
  match state with MsDispatched _ => 0 | MsSourceFinalized _ => 1 | MsHyperbridgeVerified _ => 2 | _ => 3 end.
Definition get_status_stage (status : MessageStatusWithMetadata) : option Z :=
  match status with StSourceFinalized _ _ => Some 1 | StHyperbridgeVerified _ => Some 2 | StHyperbridgeFinalized _ _ _ => Some 3 | _ => None end.
Definition timeout_stage (state : TimeoutStreamState) : Z :=
  match state with
  | ToPending => 0
  | ToDestinationFinalized _ => 1
  | ToHyperbridgeVerified _ => 2
  | ToHyperbridgeFinalized _ => 3
  | ToEnd => 4
  end.
Definition timeout_status_stage (status : TimeoutStatus) : option Z :=
  match status with
  | TsDestinationFinalized _ => Some 1
  | TsHyperbridgeVerified _ => Some 2
  | TsHyperbridgeFinalized _ => Some 3
  | TsTimeoutMessage _ => Some 4
  | TsPending | TsError _ => None
  end.

Section streams.
Context `{Keccak256, !Hex} {W : Type} `{!Timer W} (from_hex : bytes -> option bytes) (fuel : nat) (hyperclient : HyperClient W).

Definition lambda_ok {A} (P : A -> Prop) (r : result AnyError A) : Prop := match r with Ok a => P a | Err _ => True end.

Lemma or_end_advances {S I} (rank : S -> Z) (item_rank : I -> option Z) (top : Z) state end_ (m : Net W (option (result AnyError I * S))) :
  rank end_ = top -> rank state <> top -> post (lambda_ok (fun next => advances rank item_rank top state next)) m ->
  post (advances rank item_rank top state) (or_end end_ m).
Proof.
  intros He Hs Hm. apply post_bind. intros r Hr. apply post_ret. specialize (Hm r Hr). destruct r as [next|e]; [done|].
  split; [by right|done].
Qed.

Lemma or_end_stopped {S I} (rank : S -> Z) (item_rank : I -> option Z) (top : Z) state end_ :
  post (advances rank item_rank top state) (or_end end_ (ret (Ok None)) : M W (option (result AnyError I * S))).
Proof. apply post_bind. intros r <-%returned_ret. by apply post_ret. Qed.

Lemma further_advances from status st state' : further from status = Some (st, state') ->
  status_stage st = Some (stage state') /\ stage from < stage state'.
Proof.
  unfold further. destruct status as [s|]; [|done]. cbn. destruct s; cbn [state_of_status mbind option_bind]; try done;
    lazymatch goal with |- context [stage from <? stage ?s] => destruct (Z.ltb_spec (stage from) (stage s)) end; intros [= <- <-]; done.
Qed.

Lemma ask_indexer_advances p from : post (fun next => forall st state', next = Some (st, state') ->
  status_stage st = Some (stage state') /\ stage from < stage state') (ask_indexer from_hex hyperclient p from).
Proof. unfold ask_indexer. repeat post_step. intros st state'. apply further_advances. Qed.

Ltac advances :=
  repeat (lazymatch goal with
          | Hn : returned (ask_indexer _ _ _ _) ?x |- post _ (match ?x with _ => _ end) =>
              pose proof (ask_indexer_advances _ _ _ Hn); clear Hn
          | _ => idtac
          end; post_step); unfold lambda_ok, advances; try (split; [|done]); try (split; [done|cbn; lia]); eauto.

Lemma await_source_advances source_client height rank' item_rank' top : rank' (MsDispatched height) = 0 -> top <> 0 ->
  (forall h, rank' (MsSourceFinalized h) = 1) -> (forall h m, item_rank' (StSourceFinalized h m) = Some 1) ->
  post (lambda_ok (fun next => advances rank' item_rank' top (MsDispatched height) next)) (await_source hyperclient source_client height).
Proof.
  intros Ha Ht Hb Hc. unfold await_source. repeat post_step; unfold lambda_ok, advances; rewrite ?Ha, ?Hb, ?Hc; try done; (split; [try done|congruence]).
  all: first [by left|split; [done|lia]].
Qed.

Lemma await_hyperbridge_advances commitment height rank' item_rank' top : rank' (MsSourceFinalized height) = 1 -> top <> 1 ->
  (forall h, rank' (MsHyperbridgeVerified h) = 2) -> (forall m, item_rank' (StHyperbridgeVerified m) = Some 2) ->
  post (lambda_ok (fun next => advances rank' item_rank' top (MsSourceFinalized height) next)) (await_hyperbridge hyperclient commitment height).
Proof.
  intros Ha Ht Hb Hc. unfold await_hyperbridge. repeat post_step; unfold lambda_ok, advances; rewrite ?Ha, ?Hb, ?Hc; try done; (split; [try done|congruence]).
  all: split; [done|lia].
Qed.

Lemma post_step_advances source_client dest_client p hash state :
  post (advances stage status_stage 4 state) (post_step from_hex fuel hyperclient source_client dest_client p hash state).
Proof.
  destruct state as [h|h|h|h| |]; [..|apply or_end_stopped|apply or_end_stopped]; (apply or_end_advances; [done|cbn; lia|]).
  - unfold post_dispatched. advances. by apply await_source_advances.
  - unfold post_source_finalized. advances. by apply await_hyperbridge_advances.
  - unfold post_hyperbridge_verified. advances.
  - unfold post_hyperbridge_finalized. advances.
Qed.

Lemma get_step_advances source_client commitment state :
  post (advances get_stage get_status_stage 3 state) (get_step fuel hyperclient source_client commitment state).
Proof.
  destruct state as [h|h|h|h| |]; [..|apply or_end_stopped|apply or_end_stopped|apply or_end_stopped]; (apply or_end_advances; [done|cbn; lia|]).
  - by apply await_source_advances.
  - by apply await_hyperbridge_advances.
  - unfold get_hyperbridge_verified. advances.
Qed.

Lemma timeout_step_advances source_client dest_client p hash state :
  post (advances timeout_stage timeout_status_stage 4 state) (timeout_step fuel hyperclient source_client dest_client p hash state).
Proof.
  destruct state as [|h|h|h|]; [..|apply or_end_stopped]; (apply or_end_advances; [done|cbn; lia|]).
  - unfold timeout_pending. advances.
  - unfold timeout_destination_finalized. advances.
  - unfold timeout_hyperbridge_verified. advances.
  - unfold timeout_hyperbridge_finalized. advances.
Qed.

(** C19: the streams of the hyperclient go forward. Whatever the chains and the indexer answer, and
    whenever they fail, the statuses that a stream reports are of later and later stages, all after
    that of the state it was started in; and after a status of the last stage (a delivery or a
    timeout, the call data for a GET response, the call data for a timeout) nothing follows. *)
Theorem streams_go_forward n :
  (forall p state, post (lambda_ok (goes_forward status_stage 4 (stage state)))
    (post_request_status_stream from_hex fuel hyperclient p state n)) /\
  (forall g state, post (lambda_ok (goes_forward get_status_stage 3 (get_stage state)))
    (get_request_status_stream fuel hyperclient g state n)) /\
  (forall p state, post (lambda_ok (goes_forward timeout_status_stage 4 (timeout_stage state)))
    (timeout_post_request_stream fuel hyperclient p state n)).
Proof.
  unfold post_request_status_stream, get_request_status_stream, timeout_post_request_stream.
  split_and!; intros x state; repeat (post_step; try done); cbn [lambda_ok];
    (eapply unfold_forward; [|eassumption]); [apply post_step_advances|apply get_step_advances|apply timeout_step_advances].
Qed.

(** ** Statuses are justified *)

(** A property of the states that the steps preserve, and of the items that they yield. *)
Lemma unfold_invariant {S I} (Inv : S -> Prop) (Q : I -> Prop) n (step : S -> M W (option (result AnyError I * S))) state :
  (forall state, Inv state -> post (fun next => forall item state', next = Some (item, state') ->
     Inv state' /\ forall i, item = Ok i -> Q i) (step state)) ->
  Inv state -> post (fun items => forall i, Ok i ∈ items -> Q i) (unfold n step state).
Proof.
  intros Hstep. revert state; induction n as [|n IH]; intros state Hs; cbn [unfold]; [apply post_ret; by intros i ?%elem_of_nil|].
  apply post_bind. intros next Hn. pose proof (Hstep _ Hs _ Hn) as Hnext. destruct next as [[item state']|]; [|apply post_ret; by intros i ?%elem_of_nil].
  destruct (Hnext _ _ eq_refl) as [Hs' Hq]. apply post_bind. intros items Hi. apply post_ret. intros i [E|Hin]%elem_of_cons; [by apply Hq|].
  exact (IH _ Hs' _ Hi i Hin).
Qed.

Lemma wait_until_over_sound (client : Client W) f last period delay (P : Prop) : (period < delay -> P) ->
  (forall t, answered (cl_query_timestamp client) t -> period < saturating_sub t last -> P) ->
  post (lambda_ok (fun _ => P)) (wait_until_over f client last period delay).
Proof.
  intros Hd Ht. revert delay Hd; induction f as [|f IH]; intros delay Hd; cbn [wait_until_over];
    (destruct (Z.leb_spec delay period); [|by apply post_ret, Hd]); [by intros a (w & w' & ?)|].
  apply post_bind. intros _ _. apply post_try; [done|]. intros t Hq. apply IH. by apply Ht.
Qed.

(** The wait ends when the chain has said that more than the period has passed. *)
Definition challenge_over (client : Client W) (last period : Duration) : Prop :=
  exists t, answered (cl_query_timestamp client) t /\ period < saturating_sub t last.

Lemma wait_for_period_sound (client : Client W) last period :
  post (lambda_ok (fun _ => challenge_over client last period)) (wait_for_period fuel client last period).
Proof.
  apply post_bind. intros _ _. apply post_try; [done|]. intros t Ht. apply wait_until_over_sound; [|intros t' Ht'; by exists t'].
  intros ?. by exists t.
Qed.

Section justified.
Context (source_client dest_client : Client W) (p : PostRequest) (hash : H256).
Abbreviation bridge := (hy_hyperbridge hyperclient).
Abbreviation bridge_at h := (mkStateMachineHeight (cl_state_machine_id bridge) h).

(** Call data with which the request can be delivered: a message with a proof of hyperbridge at a
    height that the destination has known for longer than the challenge period. *)
Definition ready (h : Z) (calldata : bytes) : Prop := exists proof period update_time,
  answered (cl_query_requests_proof bridge h [hash] (client_chain dest_client)) proof /\
  answered (cl_encode dest_client (MsgRequest (mkRequestMessage [p] (mkProof (bridge_at h) proof) H160_zero))) calldata /\
  answered (cl_query_challenge_period dest_client (cl_state_machine_id bridge)) period /\
  answered (cl_query_state_machine_update_time dest_client (bridge_at h)) update_time /\
  challenge_over dest_client update_time period.

Lemma calldata_ready h : post (lambda_ok (ready h)) (calldata_at fuel hyperclient dest_client p hash h).
Proof.
  unfold calldata_at, encode_request_message_and_wait_for_challenge_period. apply post_try; [done|]. intros calldata Hc.
  apply post_try; [done|]. intros u Hw. apply post_ret. apply answered_try in Hc as (proof & Hp & He).
  unfold wait_after_encoding in Hw. apply answered_try in Hw as (period & Hper & Hw). apply answered_try in Hw as (ut & Hut & Hw).
  exists proof, period, ut. split_and!; try done. exact (wait_for_period_sound _ _ _ _ Hw).
Qed.

(** What the chains have said for a status to be reported in a state. *)
Definition justified (state : MessageStatusStreamState) (status : MessageStatusWithMetadata) : Prop :=
  match status with
  | StSourceFinalized h meta => exists height items update,
      state = MsDispatched height /\
      answered (cl_state_machine_update_notification bridge (cl_state_machine_id source_client)) items /\
      Ok (mkWithMetadata meta update) ∈ items /\ smu_latest_height update = h /\ height <= h
  | StHyperbridgeVerified meta =>
      (exists relayer, answered (cl_query_request_receipt bridge hash) relayer /\ relayer <> H160_zero) \/
      exists height items event, answered (cl_ismp_events_stream bridge hash height) items /\ Ok (mkWithMetadata meta event) ∈ items
  | StHyperbridgeFinalized _ _ calldata => exists height h, state = MsHyperbridgeVerified height /\ height <= h /\ ready h calldata
  | StDestinationDelivered meta =>
      (exists relayer, answered (cl_query_request_receipt dest_client hash) relayer /\ relayer <> H160_zero) \/
      exists height items event, answered (cl_post_request_handled_stream dest_client hash height) items /\ Ok (mkWithMetadata meta event) ∈ items
  | StTimeout => answered (cl_query_request_receipt dest_client hash) H160_zero /\
      exists chain t, chain ∈ [dest_client; bridge] /\ answered (cl_query_timestamp chain) t /\ as_secs (post_timeout p) <= as_secs t
  | StPending | StError _ => False
  end.

Lemma await_update_found (enough : StateMachineUpdated -> Net W bool) items :
  post (lambda_ok (fun r => match r with Some (Ok ev) => Ok ev ∈ items /\ answered (enough (wm_event ev)) true | _ => True end))
    (await_update enough items).
Proof.
  induction items as [|[ev|e] items IH]; cbn [await_update]; [by apply post_ret| |by apply post_ret].
  apply post_try; [done|]. intros [] Hb; [apply post_ret; cbn; split; [left|done]|].
  eapply post_weaken; [exact IH|]. intros [[[ev'|]|]|] _; cbn; try done. intros [Hin ?]. by split; [right|].
Qed.

Lemma await_height_found h items ev : answered (await_update (at_height h) items : Net W _) (Some (Ok ev)) ->
  Ok ev ∈ items /\ h <= smu_latest_height (wm_event ev).
Proof. intros Ha. destruct (await_update_found _ _ _ Ha) as [Hin Hh]. apply returned_ret in Hh as [= Hle%Z.leb_le]. done. Qed.

Lemma first_ok_in {A} (items : Stream A) ev : first_ok items = Some ev -> Ok ev ∈ items.
Proof.
  unfold first_ok. induction items as [|[x|e] items IH]; cbn; [done|intros [= ->]; left|]. intros ?. right. by apply IH.
Qed.

Lemma delivered_true r : delivered r = true -> r <> H160_zero.
Proof. unfold delivered. by rewrite negb_true_iff, bool_decide_eq_false. Qed.
Lemma delivered_false r : delivered r = false -> r = H160_zero.
Proof. unfold delivered. by rewrite negb_false_iff, bool_decide_eq_true. Qed.

Lemma updated_to_found h events meta u : find_map (updated_to h) events = Some (meta, u) ->
  mkWithMetadata meta (EvStateMachineUpdated u) ∈ events /\ h <= smu_latest_height u.
Proof.
  induction events as [|[m ev] events IH]; cbn; [done|]. destruct (updated_to h (mkWithMetadata m ev)) as [[m' u']|] eqn:E.
  - intros [= -> ->]. unfold updated_to in E. cbn in E. destruct ev; try done. destruct (Z.leb_spec h (smu_latest_height e)); simplify_eq. split; [left|done].
  - intros Hf. destruct (IH Hf) as [Hin ?]. split; [by right|done].
Qed.

Lemma ask_indexer_none state : hy_indexer hyperclient = None -> post (fun next => next = None) (ask_indexer from_hex hyperclient p state).
Proof.
  intros Hn. unfold ask_indexer, indexed, query_request_status_from_indexer. rewrite Hn. apply post_bind. intros st Hst. apply post_ret.
  apply returned_bind in Hst as (r & Hr & <-%returned_ret). apply returned_bind in Hr as (c & _ & <-%returned_ret). done.
Qed.

Definition yields (P : MessageStatusWithMetadata -> Prop) (next : option (result AnyError MessageStatusWithMetadata * MessageStatusStreamState)) : Prop :=
  forall st state', next = Some (Ok st, state') -> P st.

Lemma await_source_justified height :
  post (lambda_ok (yields (justified (MsDispatched height)))) (await_source hyperclient source_client height).
Proof.
  unfold await_source. apply post_try; [done|]. intros items Hi. apply post_try; [done|]. intros found Hf.
  destruct found as [[[meta u]|e]|]; apply post_ret; try done.
  intros st state' [= <- _]. apply await_height_found in Hf as [Hin Hh]. by exists height, items, u.
Qed.

Lemma await_hyperbridge_justified state height :
  post (lambda_ok (yields (justified state))) (await_hyperbridge hyperclient hash height).
Proof.
  unfold await_hyperbridge. apply post_try; [done|]. intros items Hi. destruct (first_ok items) as [[meta ev]|] eqn:E; apply post_ret; [|done].
  intros st state' [= <- _]. right. exists height, items, ev. split; [done|by apply first_ok_in].
Qed.

Hypothesis no_indexer : hy_indexer hyperclient = None.

Ltac justify :=
  repeat (lazymatch goal with
          | Hn : returned (ask_indexer _ _ _ _) ?x |- post _ (match ?x with _ => _ end) => apply (ask_indexer_none _ no_indexer) in Hn; subst x
          | _ => post_step
          end; try done);
  try (intros ? ? [= <- _]);
  repeat lazymatch goal with
         | E : delivered _ = true |- _ => apply delivered_true in E
         | E : delivered _ = false |- _ => apply delivered_false in E; subst
         | E : (_ <=? _) = true |- _ => apply Z.leb_le in E
         end; cbn [justified]; eauto 10.

Lemma post_step_justified state :
  post (yields (justified state)) (post_step from_hex fuel hyperclient source_client dest_client p hash state).
Proof.
  unfold post_step. apply post_bind. intros r Hr. apply post_ret. destruct r as [next|e]; [|by intros ? ? [=]].
  revert next Hr. enough (Hl : post (lambda_ok (yields (justified state)))
    match state with
    | MsDispatched h => post_dispatched from_hex hyperclient source_client dest_client p hash h
    | MsSourceFinalized h => post_source_finalized from_hex hyperclient dest_client p hash h
    | MsHyperbridgeVerified h => post_hyperbridge_verified from_hex fuel hyperclient dest_client p hash h
    | MsHyperbridgeFinalized h => post_hyperbridge_finalized from_hex hyperclient dest_client p hash h
    | _ => ret (Ok None) end) by (intros next Hr; exact (Hl _ Hr)).
  destruct state as [h|h|h|h| |]; [| | | |by apply post_ret..].
  - unfold post_dispatched. justify. all: try apply await_source_justified.
    all: (split; [done|]); first [by exists dest_client; eexists; split; [set_solver|eauto]|by exists bridge; eexists; split; [set_solver|eauto]].
  - unfold post_source_finalized. justify. apply await_hyperbridge_justified.
  - unfold post_hyperbridge_verified. justify; exists h.
    + eexists. split; [done|]. split; [by eapply updated_to_found|]. by eapply (calldata_ready _ (Ok _)).
    + eexists. split; [done|]. split; [eassumption|]. by eapply (calldata_ready _ (Ok _)).
    + eexists. split; [done|]. split; [by eapply await_height_found|by eapply (calldata_ready _ (Ok _))].
  - unfold post_hyperbridge_finalized. justify. right. apply first_ok_in in Hcase.
    lazymatch goal with E : Ok ?w ∈ ?items |- _ => exists h, items, (wm_event w); by destruct w end.
Qed.

End justified.

(** The chains of a message, as the streams choose them. *)
Definition parties (p : PostRequest) (source_client dest_client : Client W) (hash : H256) : Prop :=
  pick (post_source p) (hy_dest hyperclient) (hy_source hyperclient) = Ok source_client /\
  pick (post_dest p) (hy_dest hyperclient) (hy_source hyperclient) = Ok dest_client /\
  hash_request (RequestPost p) = Some hash.


(** ** Timeouts *)

Section timeouts.
Context (source_client dest_client : Client W) (p : PostRequest) (hash : H256).
Abbreviation bridge := (hy_hyperbridge hyperclient).
Abbreviation bridge_at h := (mkStateMachineHeight (cl_state_machine_id bridge) h).
Abbreviation dest_at d := (mkStateMachineHeight (cl_state_machine_id dest_client) d).
Abbreviation timeout_with height proof := (MsgTimeout (TMPost [RequestPost p] (mkProof height proof))).

(** The message was provable: the prover has proved what it has for the key of the receipt, and the
    verifier has known the prover at that height for longer than the challenge period. *)
Definition provable (prover verifier : Client W) (height : Z) (proof : bytes) : Prop :=
  answered (cl_query_state_proof prover height [cl_request_receipt_full_key prover hash]) proof /\
  exists period update_time,
    answered (cl_query_challenge_period verifier (cl_state_machine_id prover)) period /\
    answered (cl_query_state_machine_update_time verifier (mkStateMachineHeight (cl_state_machine_id prover) height)) update_time /\
    challenge_over verifier update_time period.

(** [client] has an update of a chain to height [h], at which the chain has passed the timeout. *)
Definition expired_at (client : Client W) (id : StateMachineId) (h : Z) : Prop :=
  exists commitment, answered (cl_query_state_machine_commitment client (mkStateMachineHeight id h)) commitment /\
    as_secs (post_timeout p) < sc_timestamp commitment.
Definition announced_to (client : Client W) (id : StateMachineId) (update : StateMachineUpdated) : Prop :=
  exists items meta, answered (cl_state_machine_update_notification client id) items /\ Ok (mkWithMetadata meta update) ∈ items.

(** The destination was past the timeout at height [d], as hyperbridge knows it. *)
Definition dest_expired (d : Z) : Prop :=
  expired_at bridge (cl_state_machine_id dest_client) d \/
  exists id, announced_to bridge (cl_state_machine_id dest_client) (mkStateMachineUpdated id d) /\ expired_at bridge id d.

(** Hyperbridge, at its height [hb], has not received the request, or has been told that the
    destination did not receive it. *)
Definition confirmed (hb : Z) : Prop :=
  (answered (cl_query_request_receipt bridge hash) H160_zero /\ answered (hy_header hyperclient) (Some hb)) \/
  exists d proof meta, dest_expired d /\ provable dest_client bridge d proof /\
    answered (cl_submit bridge (timeout_with (dest_at d) proof)) meta /\ em_block_number meta = hb.

(** The source knows hyperbridge at height [h]: it was announced, and past the timeout; or hyperbridge
    was known to the source in time, and [h] is the number of a block of the source. *)
Definition source_knows (h : Z) : Prop := exists hb, confirmed hb /\
  ((exists id, announced_to source_client (cl_state_machine_id bridge) (mkStateMachineUpdated id h) /\ expired_at source_client id h /\ hb <= h) \/
   ((exists latest, answered (cl_query_latest_state_machine_height source_client (cl_state_machine_id bridge)) latest /\ hb <= latest) /\
    (answered (cl_query_latest_block_height source_client) h \/
     exists first last events meta update, answered (cl_query_ismp_event source_client first last) events /\
       mkWithMetadata meta (EvStateMachineUpdated update) ∈ events /\ hb <= smu_latest_height update /\ em_block_number meta = h))).

Definition timeout_inv (state : TimeoutStreamState) : Prop :=
  match state with
  | ToPending | ToEnd => True
  | ToDestinationFinalized d => dest_expired d
  | ToHyperbridgeVerified hb => confirmed hb
  | ToHyperbridgeFinalized h => source_knows h
  end.

Definition timeout_ready (status : TimeoutStatus) : Prop :=
  match status with
  | TsTimeoutMessage calldata => exists h proof, source_knows h /\ provable bridge source_client h proof /\
      answered (cl_encode source_client (timeout_with (bridge_at h) proof)) calldata
  | _ => True
  end.

Definition timeout_sound (next : option (result AnyError TimeoutStatus * TimeoutStreamState)) : Prop :=
  forall item state', next = Some (item, state') -> timeout_inv state' /\ forall i, item = Ok i -> timeout_ready i.

Lemma times_out_expired client u : answered (times_out_at p client u) true -> expired_at client (smu_state_machine_id u) (smu_latest_height u).
Proof. intros (cm & Hc & E)%answered_try. apply returned_ret in E as [= Hlt%Z.ltb_lt]. by exists cm. Qed.

Lemma timeout_message_provable prover verifier h message height :
  answered (timeout_message p hash prover h) (height, message) -> answered (await_challenge fuel verifier prover height) tt ->
  exists proof, provable prover verifier h proof /\ height = mkStateMachineHeight (cl_state_machine_id prover) h /\
    message = timeout_with height proof.
Proof.
  intros (proof & Hp & E)%answered_try Hw. apply returned_ret in E as [= <- <-]. exists proof. split; [|done]. split; [done|].
  unfold await_challenge in Hw. apply answered_try in Hw as (period & Hper & Hw). apply answered_try in Hw as (ut & Hut & Hw).
  exists period, ut. split_and!; try done. exact (wait_for_period_sound _ _ _ _ Hw).
Qed.

Lemma found_announced client id (enough : StateMachineUpdated -> Net W bool) items ev :
  answered (cl_state_machine_update_notification client id) items -> answered (await_update enough items) (Some (Ok ev)) ->
  announced_to client id (mkStateMachineUpdated (smu_state_machine_id (wm_event ev)) (smu_latest_height (wm_event ev))) /\
  answered (enough (wm_event ev)) true.
Proof.
  intros Hi Ha. destruct (await_update_found _ _ _ Ha) as [Hin Hb]. split; [|done]. destruct ev as [m [i h]]. by exists items, m.
Qed.

Ltac sound := repeat (post_step; try done); try (intros ? ? [= <- <-]; split; [|intros ? [= <-]]; try done); cbn [timeout_inv timeout_ready].

Lemma timeout_step_sound state : timeout_inv state -> post timeout_sound (timeout_step fuel hyperclient source_client dest_client p hash state).
Proof.
  intros Hinv. unfold timeout_step. apply post_bind. intros r Hr. apply post_ret.
  destruct r as [next|e]; [|intros item s [= <- <-]; by split].
  revert next Hr. enough (Hl : post (lambda_ok timeout_sound)
    match state with
    | ToPending => timeout_pending hyperclient dest_client p
    | ToDestinationFinalized h => timeout_destination_finalized fuel hyperclient dest_client p hash h
    | ToHyperbridgeVerified h => timeout_hyperbridge_verified hyperclient source_client p h
    | ToHyperbridgeFinalized h => timeout_hyperbridge_finalized fuel hyperclient source_client p hash h
    | ToEnd => ret (Ok None) end) by (intros next Hr; exact (Hl _ Hr)).
  destruct state as [|d|hb|h|]; [| | | |by apply post_ret].
  - unfold timeout_pending. apply post_try; [done|]. intros height Hh. apply post_try; [done|]. intros cm Hcm.
    destruct (past_timeout p cm) eqn:E; [apply Z.ltb_lt in E; sound; left; by exists cm|].
    apply post_try; [done|]. intros items Hi. apply post_try; [done|]. intros found Hf. sound.
    destruct (found_announced _ _ _ _ _ Hi Hf) as [Hann Hb%times_out_expired]. right. eauto.
  - unfold timeout_destination_finalized. apply post_try; [done|]. intros relayer Hr. destruct (delivered relayer) eqn:E; cbn [negb].
    + apply post_try; [done|]. intros [height message] Hm. apply post_try; [done|]. intros [] Hc. apply post_try; [done|]. intros meta Hs. sound.
      destruct (timeout_message_provable _ _ _ _ _ Hm Hc) as (proof & Hp & -> & ->). right. by exists d, proof, meta.
    + apply delivered_false in E as ->. apply post_try; [done|]. intros header Hh. apply post_try; [done|]. intros n Hn%returned_ret. sound.
      left. destruct header; by simplify_eq/=.
  - unfold timeout_hyperbridge_verified. apply post_try; [done|]. intros latest Hl. destruct (Z.leb_spec hb latest) as [Hle|_].
    + apply post_try; [done|]. intros block Hb. apply post_try; [done|]. intros events He.
      destruct (find_map (updated_to hb) events) as [[meta u]|] eqn:E; sound; exists hb; (split; [done|]); right; (split; [by exists latest|]).
      * right. apply updated_to_found in E as [Hin Hh]. by exists (wrap64 (block - 500)), block, events, meta, u.
      * by left.
    + apply post_try; [done|]. intros items Hi. apply post_try; [done|]. intros found Hf. destruct found as [[ev|e]|]; sound.
      destruct (found_announced _ _ _ _ _ Hi Hf) as [Hann (b & Hb & Hret)%answered_try]. apply returned_ret in Hret as [= [-> Hlt%Z.leb_le]%andb_true_iff].
      exists hb. split; [done|]. left. eexists. split; [exact Hann|]. split; [by apply times_out_expired|done].
  - unfold timeout_hyperbridge_finalized. apply post_try; [done|]. intros [height message] Hm. apply post_try; [done|]. intros [] Hc.
    apply post_try; [done|]. intros calldata He. sound. destruct (timeout_message_provable _ _ _ _ _ Hm Hc) as (proof & Hp & -> & ->). by exists h, proof.
Qed.

End timeouts.

(** C18: the call data with which a request is timed out. Whatever the chains answer, a stream that starts
    with a request that has timed out ends with call data for a timeout message that carries a proof of
    hyperbridge, for the key of the request's receipt, at a height for which the source's challenge
    period is over. Before, at some height of hyperbridge, one of two things was the case: hyperbridge
    answered that it has no receipt of the request, which is all that is asked then; or it accepted
    the proof of the destination at a height at which the destination was past the timeout. The height of
    the proof is one that was announced to the source, not before that height, and past the timeout;
    except that, if the source knew hyperbridge at that height already, the code takes the number of a block
    of the source for a height of hyperbridge, which is a mistake ([timeout_at_block_of_source]). *)
Theorem timeout_calldata_proved n p :
  post (lambda_ok (fun items => forall status, Ok status ∈ items -> exists source_client dest_client hash,
    parties p source_client dest_client hash /\ timeout_ready source_client dest_client p hash status))
    (timeout_post_request_stream fuel hyperclient p ToPending n).
Proof.
  unfold timeout_post_request_stream. apply post_try; [done|]. intros source_client Hs%returned_ret. apply post_try; [done|]. intros dest_client Hd%returned_ret.
  apply post_bind. intros hash Hh%returned_or_panic. apply post_bind. intros items Hi. apply post_ret. cbn [lambda_ok]. intros status Hin.
  exists source_client, dest_client, hash. split; [done|].
  refine (unfold_invariant (timeout_inv source_client dest_client p hash) _ n _ ToPending _ I items Hi status Hin).
  intros s Hinv. by apply timeout_step_sound.
Qed.

(** ** Statuses at one moment *)

Lemma as_secs_lt t s : as_secs t < s <-> t < from_secs s.
Proof.
  unfold as_secs, from_secs, nanos_per_sec. split; intros Hlt.
  - pose proof (Z.div_mod t (10 ^ 9) ltac:(lia)). pose proof (Z.mod_pos_bound t (10 ^ 9) ltac:(lia)). nia.
  - apply Z.div_lt_upper_bound; lia.
Qed.

(** The status of a GET request is the wrong way round: a request that nobody has answered and that hyperbridge
    has not handled is reported as timed out as long as it has not timed out, and as pending
    afterwards. *)
Theorem get_status_inverted get hash source_client t w w1 w2 w3 :
  pick (get_source get) (hy_source hyperclient) (hy_dest hyperclient) = Ok source_client ->
  hash_request (RequestGet get) = Some hash -> 0 < get_timeout_timestamp get ->
  cl_query_response_receipt source_client hash w = (Some (Ok H160_zero), w1) ->
  cl_query_request_receipt (hy_hyperbridge hyperclient) hash w1 = (Some (Ok H160_zero), w2) ->
  cl_query_timestamp (hy_hyperbridge hyperclient) w2 = (Some (Ok t), w3) ->
  query_get_request_status hyperclient get w
  = (Some (Ok (if request_timed_out (RequestGet get) t then StPending else StTimeout)), w3).
Proof.
  intros Hp Hh Ht H1 H2 H3. unfold query_get_request_status. rewrite Hp, Hh. cbn [or_panic].
  rewrite (try_ok (ret (Ok source_client)) _ w source_client w) by done. unfold bind at 1, ret at 1.
  assert (Hz : delivered H160_zero = false) by done. rewrite (try_ok _ _ _ _ _ H1), Hz, (try_ok _ _ _ _ _ H2), Hz, (try_ok _ _ _ _ _ H3).
  unfold request_timed_out, request_timeout, get_request_timeout, get_timeout. rewrite (proj2 (Z.eqb_neq _ _)) by lia.
  assert (E : (as_secs t <? get_timeout_timestamp get) = negb (from_secs (get_timeout_timestamp get) <=? t)).
  { apply eq_iff_eq_true. rewrite negb_true_iff, Z.ltb_lt, Z.leb_gt. apply as_secs_lt. }
  rewrite E. by destruct (_ <=? t).
Qed.

(** A response without a timeout never times out, but it is reported as timed out as soon as the
    clock of its destination shows a second. *)
Theorem response_without_timeout_expires response hash dest_client t w w1 w2 :
  hy_indexer hyperclient = None -> is_Some (hash_response (ResponsePost response)) ->
  pick (response_dest_chain (ResponsePost response)) (hy_dest hyperclient) (hy_source hyperclient) = Ok dest_client ->
  hash_request (response_request (ResponsePost response)) = Some hash -> pr_timeout_timestamp response = 0 ->
  cl_query_timestamp dest_client w = (Some (Ok t), w1) -> from_secs 1 <= t < from_secs u64_max ->
  cl_query_response_receipt dest_client hash w1 = (Some (Ok H160_zero), w2) ->
  query_response_status_internal from_hex hyperclient response w = (Some (Ok StTimeout), w2) /\
  response_timed_out (ResponsePost response) t = false.
Proof.
  intros Hn [c Hc] Hp Hh Ht H1 Hr H2. split.
  - unfold query_response_status_internal. rewrite Hp, Hh. cbn [or_panic]. rewrite (try_ok (ret (Ok dest_client)) _ w dest_client w) by done.
    rewrite (try_ok _ _ _ _ _ H1). unfold bind at 1, ret at 1. rewrite (try_ok _ _ _ _ _ H2).
    unfold indexed, query_response_status_from_indexer. rewrite Hn, Hc. cbn [or_panic]. unfold bind, ret. cbn [delivered negb].
    assert (Hz : delivered H160_zero = false) by done. rewrite Hz, Ht. rewrite (proj2 (Z.ltb_lt _ _)); [done|]. unfold as_secs, from_secs, nanos_per_sec in *.
    apply Z.div_str_pos. lia.
  - cbn. unfold pr_timeout, get_timeout. rewrite Ht. apply Z.leb_gt. cbn. lia.
Qed.

End streams.

(** ** Polling *)

Section polls.
Context {W : Type} `{!Timer W} (rpc : EvmRpc W) (logs : Z -> list (WithMetadata (result AnyError Event))) (commitment : H256).

(** When the node answers, it is with the events of the blocks that were asked for. *)
Definition faithful_logs : Prop := forall first last events,
  answered (er_events rpc first last) events -> events = concat (logs <$> seqZ first (last - first + 1)).

Definition delivered_in (block : Z) : Prop := handled_events commitment (logs block) <> [].

Lemma handled_events_concat blocks block : block ∈ blocks -> delivered_in block -> exists x,
  last (handled_events commitment (concat (logs <$> blocks))) = Some x.
Proof.
  intros Hin Hd. apply last_is_Some. intros E. apply Hd. unfold handled_events in *.
  destruct (omap _ (logs block)) as [|x l] eqn:Ex; [done|]. assert (x ∈ x :: l) as Hx by left. rewrite <- Ex in Hx.
  apply list_elem_of_omap in Hx as (ev & Hev & Hf). exfalso. apply (not_elem_of_nil x). rewrite <- E. apply list_elem_of_omap. exists ev. split; [|done].
  apply list_elem_of_In, in_concat. exists (logs block). rewrite <- !list_elem_of_In. split; [|done]. apply list_elem_of_fmap. by exists block.
Qed.

Abbreviation select := (fun events => last (handled_events commitment events)).

(** A turn does not go past a delivery without reporting it. *)
Lemma evm_poll_covers latest block : faithful_logs -> 0 <= latest <= block -> delivered_in block ->
  post (fun r : result AnyError (option (WithMetadata H256)) * Z => (exists x, r.1 = Ok (Some x)) \/ 0 <= r.2 <= block) (evm_poll rpc 12 select latest).
Proof.
  intros Hf Hb Hd. unfold evm_poll. apply post_bind. intros _ _. apply post_bind. intros [number|e] _; [|apply post_ret; by right].
  assert (Hn : 0 <= low_u64 number < 2 ^ 64) by (apply Z.mod_pos_bound; lia).
  destruct (Z.ltb_spec (low_u64 number) latest) as [Hlt|Hge]; [apply post_ret; right; cbn; lia|].
  apply post_bind. intros [events|e] He; [|apply post_ret; by right]. apply post_ret. cbn. rewrite (Hf _ _ _ He).
  destruct (Z.le_gt_cases block (low_u64 number)) as [Hle|Hgt].
  - left. destruct (handled_events_concat (seqZ latest (low_u64 number - latest + 1)) block) as [x Hx]; [apply elem_of_seqZ; lia|done|].
    exists x. by rewrite Hx.
  - right. unfold wrap64. pose proof (Z.mod_le (low_u64 number + 1) (2 ^ 64)). pose proof (Z.mod_pos_bound (low_u64 number + 1) (2 ^ 64)). lia.
Qed.

(** no delivery on an EVM chain is missed. If the node tells the truth whenever it answers, and a
    request was delivered in a block that is not before the height from which the stream was started, then as
    long as the stream has not reported the delivery (whatever number of turns it has made, and
    however many of them have failed), the next turn that sees a block as high and can read its events
    does report it. *)
Theorem delivery_noticed n initial block items w w' : faithful_logs -> 0 <= initial <= block -> delivered_in block ->
  evm_post_request_handled_stream rpc n commitment initial w = (Some items, w') -> (forall x, Ok x ∉ items) ->
  exists latest, 0 <= latest <= block /\ forall number w1 w2 w3 events,
    sleep (from_secs 12) w' = (Some tt, w1) -> er_block_number rpc w1 = (Some (Ok number), w2) -> block <= low_u64 number ->
    er_events rpc latest (low_u64 number) w2 = (Some (Ok events), w3) ->
    exists x, evm_post_request_handled_stream rpc (S n) commitment initial w = (Some (items ++ [Ok x]), w3) /\ wm_event x = commitment.
Proof.
  intros Hf Hb Hd. unfold evm_post_request_handled_stream. revert initial w items Hb; induction n as [|n IH]; intros initial w items Hb Hrun Hno.
  - injection Hrun as <- <-. exists initial. split; [done|]. intros number w1 w2 w3 events Hs Hn Hle He. cbn [evm_stream]. unfold evm_poll.
    unfold bind at 1. unfold bind at 1. rewrite Hs. unfold bind at 1. rewrite Hn. rewrite (proj2 (Z.ltb_ge _ _)) by lia.
    unfold bind at 1. rewrite He. unfold ret at 1. assert (Hev : answered (er_events rpc initial (low_u64 number)) events) by (by exists w2, w3).
    destruct (handled_events_concat (seqZ initial (low_u64 number - initial + 1)) block) as [x Hx]; [apply elem_of_seqZ; lia|done|].
    rewrite <- (Hf _ _ _ Hev) in Hx. exists x. rewrite Hx. split; [done|]. apply last_Some_elem_of in Hx. unfold handled_events in Hx.
    apply list_elem_of_omap in Hx as (ev & _ & Ex). destruct (wm_event ev) as [[]|]; try done. by case_bool_decide; simplify_eq/=.
  - cbn [evm_stream] in Hrun. apply bind_inv in Hrun as ([found latest] & w1 & Hp & Hrun). apply bind_inv in Hrun as (rest & w2 & Hr & E). injection E as <- <-.
    destruct (evm_poll_covers initial block Hf Hb Hd (found, latest)) as [[x Hx]|Hl]; [by exists w, w1| |].
    { cbn in Hx. subst. destruct (Hno x). by left. }
    destruct (IH latest w1 rest Hl Hr) as (latest' & Hl' & Hnext).
    { intros x Hin. apply (Hno x). destruct found as [[]|]; [by right|done|by right]. }
    exists latest'. split; [done|]. intros number w3 w4 w5 events Hs Hn Hle He. destruct (Hnext _ _ _ _ _ Hs Hn Hle He) as (x & Hx & Ex). exists x. split; [|done].
    change (evm_stream rpc (S (S n)) 12 select initial w) with (bind (evm_poll rpc 12 select initial) (fun '(found, latest_height) =>
      bind (evm_stream rpc (S n) 12 select latest_height) (fun rest =>
        ret (match found with Ok None => rest | Ok (Some x) => Ok x :: rest | Err e => Err e :: rest end))) w).
    rewrite (bind_some _ _ _ _ _ Hp), (bind_some _ _ _ _ _ Hx). unfold ret. by destruct found as [[]|].
Qed.

End polls.

(** ** A message in flight *)

Module HyperDemo.
Import RelayDemo(origin, target, hyper, id_of, hex).

#[local] Existing Instance EvmDemo.hash32.
#[local] Existing Instance RelayDemo.hex.

(** The world is a clock, in nanoseconds, which all chains show. *)
#[local] Instance clock : Timer Z := fun d c => (Some tt, c + Z.max d 1).
Definition answer {A} (a : A) : Net Z A := ret (Ok a).
Definition meta (n : Z) : EventMetadata := mkEventMetadata (replicate 32 Byte.x01) (replicate 32 Byte.x02) n.
Definition update (m : StateMachine) (block h : Z) : result AnyError (WithMetadata StateMachineUpdated) :=
  Ok (mkWithMetadata (meta block) (mkStateMachineUpdated (id_of m) h)).
Definition lagged {A} : result AnyError A := Err (AnyMessage (lit "lagged")).

Definition message (timeout : Z) : PostRequest := mkPostRequest origin target 1 (lit "from") (lit "to") timeout (lit "body").
Definition hash_of_message (timeout : Z) : H256 := default [] (hash_request (RequestPost (message timeout))).

(** Call data and proofs that show what they were made of. *)
Definition shown (m : Message) : bytes :=
  match m with
  | MsgRequest r => lit "request" ++ show_dec (smh_height (proof_height (rm_proof r))) ++ proof_bytes (rm_proof r)
  | MsgTimeout (TMPost _ proof) => lit "timeout" ++ show_dec (smh_height (proof_height proof)) ++ proof_bytes proof
  | _ => lit "other"
  end.

(** A chain that has no receipt of the message. [known] is the height at which it knows the others, and
    [news] what is announced to it. *)
Definition chain (m : StateMachine) (relayer : H160) (block known : Z) (news : StateMachineId -> Stream StateMachineUpdated) : Client Z := mkClient Z
  (answer block) (id_of m) (fun c => (Some (Ok c), c)) (fun _ => answer relayer)
  (fun at_ _ => answer (lit "@" ++ show_dec at_)) (fun at_ _ _ => answer (lit "@" ++ show_dec at_)) (fun at_ _ _ => answer (lit "@" ++ show_dec at_))
  (fun _ => answer H160_zero)
  (fun _ _ => answer [lagged; Ok (mkWithMetadata (meta 20) (EvPostRequest (message 0)))])
  (fun _ _ => answer [mkWithMetadata (meta 88) (EvStateMachineUpdated (mkStateMachineUpdated (id_of hyper) known))])
  (fun _ _ => answer [lagged; Ok (mkWithMetadata (meta 30) (hash_of_message 0))])
  (fun _ => answer known) (fun h => answer (mkStateCommitment (100 * smh_height h) None (replicate 32 Byte.x00)))
  (fun id => answer (news id)) (fun c => lit "receipt" ++ c) (fun msg => answer (shown msg)) (fun _ => answer (meta 21))
  (fun _ => answer (from_secs 1000)) (fun _ => answer (from_secs 60)).

Definition three (relayer : H160) (known : Z) : HyperClient Z := mkHyperClient Z
  (chain origin H160_zero 90 known (fun _ => [update hyper 91 20; update hyper 92 23]))
  (chain target H160_zero 70 0 (fun _ => [update hyper 71 19; update hyper 72 22]))
  (chain hyper relayer 20 7 (fun _ => [update origin 11 4; update origin 12 6])) (answer (Some 20)) None.

Definition now : Z := from_secs 1000.

(** A message without a timeout passes through all stages. *)
Definition followed : option (result AnyError (list (result AnyError MessageStatusWithMetadata))) * Z :=
  post_request_status_stream (fun _ => None) 3 (three H160_zero 0) (message 0) (MsDispatched 5) 9 now.
Example followed_result : followed = (Some (Ok
  [Ok (StSourceFinalized 6 (meta 12)); Ok (StHyperbridgeVerified (meta 20));
   Ok (StHyperbridgeFinalized 22 (meta 72) (lit "request22@22")); Ok (StDestinationDelivered (meta 30))]), from_secs 1060 + 1).
Proof. vm_compute. reflexivity. Qed.

(** One that hyperbridge has received and that has timed out is timed out there, and on the source
    with a proof at a height of hyperbridge. *)
Definition timed_out (known : Z) : option (result AnyError (list (result AnyError TimeoutStatus))) * Z :=
  timeout_post_request_stream 3 (three (replicate 20 Byte.x01) known) (message 650) ToPending 9 now.
Example timed_out_result : timed_out 0 = (Some (Ok
  [Ok (TsDestinationFinalized no_meta); Ok (TsHyperbridgeVerified (meta 21)); Ok (TsHyperbridgeFinalized (meta 92));
   Ok (TsTimeoutMessage (lit "timeout23@23"))]), from_secs 1120 + 1).
Proof. vm_compute. reflexivity. Qed.

(** If the source knows hyperbridge at height 23 already, the proof is at height 88: the number
    of the block of the source in which hyperbridge was updated. *)
Example timeout_at_block_of_source : timed_out 23 = (Some (Ok
  [Ok (TsDestinationFinalized no_meta); Ok (TsHyperbridgeVerified (meta 21)); Ok (TsHyperbridgeFinalized (meta 88));
   Ok (TsTimeoutMessage (lit "timeout88@88"))]), from_secs 1120 + 1).
Proof. vm_compute. reflexivity. Qed.


Lemma timeout_calldata_proved_witness : exists items, (timed_out 0).1 = Some (Ok items) /\
  Ok (TsTimeoutMessage (lit "timeout23@23")) ∈ items /\
  forall status, Ok status ∈ items -> exists source_client dest_client hash,
    parties (three (replicate 20 Byte.x01) 0) (message 650) source_client dest_client hash /\
    timeout_ready (three (replicate 20 Byte.x01) 0) source_client dest_client (message 650) hash status.
Proof.
  eexists. split; [by rewrite timed_out_result|]. split; [do 3 right; left|].
  refine (timeout_calldata_proved 3 (three (replicate 20 Byte.x01) 0) 9 (message 650) (Ok _) _).
  exists now. eexists. exact timed_out_result.
Defined.

(** A delivery in block 5, which the stream looks for from block 3 on. The first turn fails, the second
    sees block 4. *)
Definition node_log (block : Z) : list (WithMetadata (result AnyError Event)) :=
  if block =? 5 then [mkWithMetadata (meta 5) (Ok (EvPostRequestHandled (mkRequestResponseHandled (hash_of_message 0) (lit "relayer"))))] else [].
Definition node : EvmRpc Z := mkEvmRpc Z
  (fun c => (Some (if c <? 20 * 10 ^ 9 then Err (AnyMessage (lit "down")) else Ok (4 + c / (36 * 10 ^ 9))), c))
  (fun first last => answer (concat (node_log <$> seqZ first (last - first + 1)))).

Lemma node_faithful : faithful_logs node node_log.
Proof. by intros first last events (w & w' & [= <- _]). Qed.

Lemma delivery_noticed_witness : exists items w' x w3, evm_post_request_handled_stream node 2 (hash_of_message 0) 3 0 = (Some items, w') /\
  (forall y, Ok y ∉ items) /\ length items = 1%nat /\
  evm_post_request_handled_stream node 3 (hash_of_message 0) 3 0 = (Some (items ++ [Ok x]), w3) /\ wm_event x = hash_of_message 0.
Proof.
  exists [Err (AnyMessage (lit "down"))], (24 * 10 ^ 9), (mkWithMetadata (meta 5) (hash_of_message 0)), (36 * 10 ^ 9).
  destruct (delivery_noticed node node_log (hash_of_message 0) 2 3 5 [Err (AnyMessage (lit "down"))] 0 (24 * 10 ^ 9)) as (latest & Hl & Hnext).
  - exact node_faithful.
  - lia.
  - vm_compute. discriminate.
  - vm_compute. reflexivity.
  - intros x [[=]|[]%elem_of_nil]%elem_of_cons.
  - split; [vm_compute; reflexivity|]. split; [intros x [[=]|[]%elem_of_nil]%elem_of_cons|]. split; [done|].
    destruct (Hnext 5 (36 * 10 ^ 9) (36 * 10 ^ 9) (36 * 10 ^ 9) (concat (node_log <$> seqZ latest (low_u64 5 - latest + 1)))) as (x & Hx & Ex);
      [vm_compute; reflexivity|vm_compute; reflexivity|vm_compute; discriminate|done|].
    assert (Hrun : evm_post_request_handled_stream node 3 (hash_of_message 0) 3 0
      = (Some [Err (AnyMessage (lit "down")); Ok (mkWithMetadata (meta 5) (hash_of_message 0))], 36 * 10 ^ 9)) by (vm_compute; reflexivity).
    rewrite Hrun in Hx |- *. split; [done|reflexivity].
Defined.

Definition asked : GetRequest := mkGetRequest origin target 7 (lit "from") [lit "key"] 3 [] 2000.
Lemma get_status_inverted_witness : query_get_request_status (three H160_zero 0) asked now = (Some (Ok StTimeout), now) /\
  request_timed_out (RequestGet asked) now = false.
Proof.
  split; [|vm_compute; reflexivity].
  assert (Hh : hash_request (RequestGet asked) = Some (default [] (hash_request (RequestGet asked)))) by (vm_compute; reflexivity).
  rewrite (get_status_inverted (three H160_zero 0) asked _ (hy_source (three H160_zero 0)) now now now now now eq_refl Hh ltac:(done) eq_refl eq_refl eq_refl).
  vm_compute. reflexivity.
Defined.

Definition reply : PostResponse := mkPostResponse (message 0) (lit "reply") 0.
Lemma response_without_timeout_expires_witness :
  query_response_status_internal (fun _ => None) (three H160_zero 0) reply now = (Some (Ok StTimeout), now) /\
  response_timed_out (ResponsePost reply) now = false.
Proof.
  assert (Hh : hash_request (response_request (ResponsePost reply)) = Some (hash_of_message 0)) by (vm_compute; reflexivity).
  assert (Hr : is_Some (hash_response (ResponsePost reply))) by (vm_compute; eauto).
  refine (response_without_timeout_expires (fun _ => None) (three H160_zero 0) reply (hash_of_message 0) (hy_source (three H160_zero 0)) now now now now
    eq_refl Hr eq_refl Hh eq_refl eq_refl _ eq_refl). split; vm_compute; done.
Defined.

End HyperDemo.
