(* ===== verification/Provers.v ===== *)
(** * Provers: what the verifiers are given

    [modules/consensus/{grandpa, bsc, sync-committee}/prover/src/lib.rs], and the rest of
    [modules/consensus/sync-committee/primitives/src/{consensus_types, types}.rs]. A prover asks a
    node of a chain for blocks, states and justifications and puts together the update that the
    verifier of that chain checks.

    A node is a record of the requests that a prover makes of it, on the world [W] behind it. The
    loops that walk from a block to its parents have fuel for the number of blocks they may visit:
    nothing bounds it in the code. *)

From S2P Require Import Prelude StateMachine Router Messaging ChildTrie SubstrateMachine Grandpa EvmMachine Rollups SyncCommittee Bsc Tesseract.

(** ** Blocks and states of the beacon chain ([consensus_types.rs]) *)

Record Eth1Data : Type := mkEth1Data {
  e1_deposit_root : Root;
  e1_deposit_count : Z;
  e1_block_hash : bytes
}.

Record Validator : Type := mkValidator {
  vl_public_key : bytes;
  vl_withdrawal_credentials : bytes;
  vl_effective_balance : Z;
  vl_slashed : bool;
  vl_activation_eligibility_epoch : Z;
  vl_activation_epoch : Z;
  vl_exit_epoch : Z;
  vl_withdrawable_epoch : Z
}.

Record SignedBeaconBlockHeader : Type := mkSignedBeaconBlockHeader {
  sh_message : BeaconBlockHeader;
  sh_signature : bytes
}.

Record ProposerSlashing : Type := mkProposerSlashing {
  ps_signed_header_1 : SignedBeaconBlockHeader;
  ps_signed_header_2 : SignedBeaconBlockHeader
}.

Record AttestationData : Type := mkAttestationData {
  ad_slot : Z;
  ad_index : Z;
  ad_beacon_block_root : Root;
  ad_source : Checkpoint;
  ad_target : Checkpoint
}.

Record IndexedAttestation : Type := mkIndexedAttestation {
  ia_attesting_indices : list Z;
  ia_data : AttestationData;
  ia_signature : bytes
}.

Record AttesterSlashing : Type := mkAttesterSlashing {
  as_attestation_1 : IndexedAttestation;
  as_attestation_2 : IndexedAttestation
}.

Record Attestation : Type := mkAttestation {
  at_aggregation_bits : list bool;
  at_data : AttestationData;
  at_signature : bytes
}.

Record DepositData : Type := mkDepositData {
  dd_public_key : bytes;
  dd_withdrawal_credentials : bytes;
  dd_amount : Z;
  dd_signature : bytes
}.

Record BeaconDeposit : Type := mkBeaconDeposit { bd_proof : list bytes; bd_data : DepositData }.

Record VoluntaryExit : Type := mkVoluntaryExit { ve_epoch : Z; ve_validator_index : Z }.

Record SignedVoluntaryExit : Type := mkSignedVoluntaryExit {
  sv_message : VoluntaryExit;
  sv_signature : bytes
}.

Record Withdrawal : Type := mkWithdrawal {
  wd_index : Z;
  wd_validator_index : Z;
  wd_address : bytes;
  wd_amount : Z
}.

Record BlsToExecutionChange : Type := mkBlsToExecutionChange {
  be_validator_index : Z;
  be_from_bls_public_key : bytes;
  be_to_execution_address : bytes
}.

Record SignedBlsToExecutionChange : Type := mkSignedBlsToExecutionChange {
  sb_message : BlsToExecutionChange;
  sb_signature : bytes
}.

Record ExecutionPayload : Type := mkExecutionPayload {
  xp_parent_hash : bytes;
  xp_fee_recipient : bytes;
  xp_state_root : bytes;
  xp_receipts_root : bytes;
  xp_logs_bloom : bytes;
  xp_prev_randao : bytes;
  xp_block_number : Z;
  xp_gas_limit : Z;
  xp_gas_used : Z;
  xp_timestamp : Z;
  xp_extra_data : bytes;
  xp_base_fee_per_gas : Z;
  xp_block_hash : bytes;
  xp_transactions : list bytes;
  xp_withdrawals : list Withdrawal;
  xp_blob_gas_used : Z;
  xp_excess_blob_gas : Z
}.

Record ExecutionPayloadHeader : Type := mkExecutionPayloadHeader {
  xh_parent_hash : bytes;
  xh_fee_recipient : bytes;
  xh_state_root : bytes;
  xh_receipts_root : bytes;
  xh_logs_bloom : bytes;
  xh_prev_randao : bytes;
  xh_block_number : Z;
  xh_gas_limit : Z;
  xh_gas_used : Z;
  xh_timestamp : Z;
  xh_extra_data : bytes;
  xh_base_fee_per_gas : Z;
  xh_block_hash : bytes;
  xh_transactions_root : Root;
  xh_withdrawals_root : Root;
  xh_blob_gas_used : Z;
  xh_excess_blob_gas : Z
}.

Record BeaconBlockBody : Type := mkBeaconBlockBody {
  bb_randao_reveal : bytes;
  bb_eth1_data : Eth1Data;
  bb_graffiti : bytes;
  bb_proposer_slashings : list ProposerSlashing;
  bb_attester_slashings : list AttesterSlashing;
  bb_attestations : list Attestation;
  bb_deposits : list BeaconDeposit;
  bb_voluntary_exits : list SignedVoluntaryExit;
  bb_sync_aggregate : SyncAggregate;
  bb_execution_payload : ExecutionPayload;
  bb_bls_to_execution_changes : list SignedBlsToExecutionChange;
  bb_blob_kzg_commitments : list bytes
}.

Record BeaconBlock : Type := mkBeaconBlock {
  blk_slot : Z;
  blk_proposer_index : Z;
  blk_parent_root : Root;
  blk_state_root : Root;
  blk_body : BeaconBlockBody
}.

Record Fork : Type := mkFork {
  fk_previous_version : bytes;
  fk_current_version : bytes;
  fk_epoch : Z
}.

Record HistoricalSummary : Type := mkHistoricalSummary {
  hs_block_summary_root : Root;
  hs_state_summary_root : Root
}.

Record BeaconState : Type := mkBeaconState {
  st_genesis_time : Z;
  st_genesis_validators_root : Root;
  st_slot : Z;
  st_fork : Fork;
  st_latest_block_header : BeaconBlockHeader;
  st_block_roots : list Root;
  st_state_roots : list Root;
  st_historical_roots : list Root;
  st_eth1_data : Eth1Data;
  st_eth1_data_votes : list Eth1Data;
  st_eth1_deposit_index : Z;
  st_validators : list Validator;
  st_balances : list Z;
  st_randao_mixes : list bytes;
  st_slashings : list Z;
  st_previous_epoch_participation : list Z;
  st_current_epoch_participation : list Z;
  st_justification_bits : list bool;
  st_previous_justified_checkpoint : Checkpoint;
  st_current_justified_checkpoint : Checkpoint;
  st_finalized_checkpoint : Checkpoint;
  st_inactivity_scores : list Z;
  st_current_sync_committee : SyncCommittee;
  st_next_sync_committee : SyncCommittee;
  st_latest_execution_payload_header : ExecutionPayloadHeader;
  st_next_withdrawal_index : Z;
  st_next_withdrawal_validator_index : Z;
  st_historical_summaries : list HistoricalSummary
}.

(** [types.rs]: proofs that a header is an ancestor of another. *)
Record BlockRootsProof : Type := mkBlockRootsProof {
  br_block_header_index : Z;
  br_block_header_branch : list Root
}.

Inductive AncestryProof : Type :=
| BlockRoots (block_roots_proof : BlockRootsProof) (block_roots_branch : list Root)
| HistoricalRoots (block_roots_proof : BlockRootsProof) (historical_batch_proof : list Root)
    (historical_roots_proof : list Root) (historical_roots_index : Z) (historical_roots_branch : list Root).

Definition SLOTS_PER_HISTORICAL_ROOT : Z := 8192.
Definition BLOCK_ROOTS_INDEX : Z := 37.

(** ** The prover of the beacon chain ([sync-committee/prover]) *)

(** [responses/*.rs] *)
Record FinalityCheckpoint : Type := mkFinalityCheckpoint {
  fc_previous_justified : Checkpoint;
  fc_current_justified : Checkpoint;
  fc_finalized : Checkpoint
}.

Record NodeSyncCommittee : Type := mkNodeSyncCommittee {
  nsc_validators : list bytes;
  nsc_validator_aggregates : list (list bytes)
}.

(** The requests of a node, by their address: what its answer holds, or the error of the request or
    of the parsing of its answer. *)
Record BeaconNode (W : Type) : Type := mkBeaconNode {
  bn_checkpoint : bytes -> Net W FinalityCheckpoint;
  bn_header : bytes -> Net W BeaconBlockHeader;
  bn_block : bytes -> Net W BeaconBlock;
  bn_committee : bytes -> Net W NodeSyncCommittee;
  bn_validator : bytes -> Net W Validator;
  bn_state : bytes -> Net W BeaconState
}.
Arguments bn_checkpoint {W}.
Arguments bn_header {W}.
Arguments bn_block {W}.
Arguments bn_committee {W}.
Arguments bn_validator {W}.
Arguments bn_state {W}.

(** [ssz_rs]: the roots of states and payloads, and [generate_proof]. *)
Class SszProver : Type := {
  root_of_state : BeaconState -> option Root;
  root_of_payload : ExecutionPayloadHeader -> option Root;
  prove_state : BeaconState -> list Z -> option (list Root);
  prove_payload : ExecutionPayloadHeader -> list Z -> option (list Root);
  prove_roots : list Root -> list Z -> option (list Root)
}.

(** [url::Url::parse] *)
Class UrlLib : Type := url_parse : bytes -> option bytes.

(** [routes.rs] *)
Definition header_route (block_id : bytes) : bytes := lit "/eth/v1/beacon/headers/" ++ block_id.
Definition block_route (block_id : bytes) : bytes := lit "/eth/v2/beacon/blocks/" ++ block_id.
Definition sync_committee_route (state_id : bytes) : bytes :=
  lit "/eth/v1/beacon/states/" ++ state_id ++ lit "/sync_committees".
Definition validator_route (state_id validator_index : bytes) : bytes :=
  lit "/eth/v1/beacon/states/" ++ state_id ++ lit "/validators/" ++ validator_index.
Definition beacon_state_route (state_id : bytes) : bytes := lit "/eth/v2/debug/beacon/states/" ++ state_id.
Definition finality_checkpoints (state_id : bytes) : bytes :=
  lit "/eth/v1/beacon/states/" ++ state_id ++ lit "/finality_checkpoints".

Definition merkleization : AnyError := AnyMessage (lit "merkleization error").
Definition map_net_err {W A} (text : bytes) (m : Net W A) : Net W A :=
  let* r := m in ret (map_err (fun _ => AnyMessage text) r).

Section sync_committee.
Context `{!Hex, !Ssz, !SszProver, !UrlLib} {W : Type} (primary_url : bytes) (node : BeaconNode W).
Variable C : BeaconConfig.

Definition generate_route (path : bytes) : result AnyError bytes :=
  ok_or (url_parse (primary_url ++ path)) (AnyMessage (lit "invalid url")).

Definition fetch_finalized_checkpoint (state_id : option bytes) : Net W FinalityCheckpoint :=
  let? full_url := ret (generate_route (finality_checkpoints (default (lit "head") state_id))) in
  map_net_err (lit "Failed to fetch finalized checkpoint due to error") (bn_checkpoint node full_url).

Definition fetch_header (block_id : bytes) : Net W BeaconBlockHeader :=
  let? full_url := ret (generate_route (header_route block_id)) in
  map_net_err (lit "Failed to fetch header with id due to error") (bn_header node full_url).

Definition fetch_block (block_id : bytes) : Net W BeaconBlock :=
  let? full_url := ret (generate_route (block_route block_id)) in
  map_net_err (lit "Failed to fetch block with id due to error") (bn_block node full_url).

Definition fetch_sync_committee (state_id : bytes) : Net W NodeSyncCommittee :=
  let? full_url := ret (generate_route (sync_committee_route state_id)) in bn_committee node full_url.

Definition fetch_validator (state_id validator_index : bytes) : Net W Validator :=
  let? full_url := ret (generate_route (validator_route state_id validator_index)) in
  bn_validator node full_url.

Definition fetch_beacon_state (state_id : bytes) : Net W BeaconState :=
  let? full_url := ret (generate_route (beacon_state_route state_id)) in
  map_net_err (lit "Failed to fetch beacon state with id due to error") (bn_state node full_url).

Definition get_block_id (root : Root) : bytes := lit "0x" ++ hex_encode root.

(** *** Proofs *)

Definition prove_execution_payload (beacon_state : BeaconState) : result AnyError ExecutionPayloadProof :=
  let payload := st_latest_execution_payload_header beacon_state in
  let indices := [EXECUTION_PAYLOAD_STATE_ROOT_INDEX C; EXECUTION_PAYLOAD_BLOCK_NUMBER_INDEX C;
    EXECUTION_PAYLOAD_TIMESTAMP_INDEX C] in
  match prove_payload payload indices with
  | None => Err merkleization
  | Some multi_proof =>
      match prove_state beacon_state [EXECUTION_PAYLOAD_INDEX] with
      | None => Err merkleization
      | Some branch => Ok (mkExecutionPayloadProof (xh_state_root payload) (xh_block_number payload)
          multi_proof branch (xh_timestamp payload))
      end
  end.

Definition prove_sync_committee_update (state : BeaconState) : result AnyError (list Root) :=
  ok_or (prove_state state [NEXT_SYNC_COMMITTEE_INDEX]) merkleization.

Definition prove_finalized_header (state : BeaconState) : result AnyError (list Root) :=
  ok_or (prove_state state [FINALIZED_ROOT_INDEX]) merkleization.

(** [position]: the first place of [root]. *)
Definition position (root : Root) (roots : list Root) : option Z :=
  Z.of_nat ∘ fst <$> list_find (fun r => r = root) roots.

Definition prove_block_roots_proof (state : BeaconState) (header : BeaconBlockHeader) : V AnyError AncestryProof :=
  let epoch_for_header := compute_epoch_at_slot C (bh_slot header) in
  let epoch_for_state := compute_epoch_at_slot C (st_slot state) in
  if SLOTS_PER_HISTORICAL_ROOT / SLOTS_PER_EPOCH C <=? Z.max 0 (epoch_for_state - epoch_for_header) then None
  else
    get! block_root := root_of_header header in
    get! block_index := position block_root (st_block_roots state) in
    let! proof := vlift (ok_or (prove_roots (st_block_roots state) [block_index]) merkleization) in
    let! block_roots_branch := vlift (ok_or (prove_state state [BLOCK_ROOTS_INDEX]) merkleization) in
    vret (BlockRoots (mkBlockRootsProof block_index proof) block_roots_branch).

(** *** Updates *)

Definition min_signatures : Z := 2 * SYNC_COMMITTEE_SIZE / 3 + 1.
Definition num_signatures (block : BeaconBlock) : Z :=
  count_ones (sa_sync_committee_bits (bb_sync_aggregate (blk_body block))).

(** From [block] down to the first block that an update can be made from; none when the finality
    that the parent knows of is not news. *)
Fixpoint find_signature_block (fuel : nat) (client_state : VerifierState) (block : BeaconBlock) :
    Net W (option BeaconBlock) :=
  match fuel with
  | O => panic
  | S fuel =>
      let? parent_block := fetch_block (get_block_id (blk_parent_root block)) in
      let? checkpoint := fetch_finalized_checkpoint (Some (get_block_id (blk_state_root parent_block))) in
      let finalized_epoch := cp_epoch (fc_finalized checkpoint) in
      if finalized_epoch <=? vs_latest_finalized_epoch client_state then ret (Ok None)
      else
        let signature_period := compute_sync_committee_period_at_slot C (blk_slot block) in
        let state_period := vs_state_period client_state in
        if (min_signatures <=? num_signatures block)
            && ((state_period <=? signature_period) && (signature_period <=? wrap64 (state_period + 1)))
            && (vs_latest_finalized_epoch client_state <? finalized_epoch)
        then ret (Ok (Some block))
        else find_signature_block fuel client_state parent_block
  end.

Definition no_root : Root := replicate 32 Byte.x00.

(** The header that [block] signs, and the state behind it. *)
Definition attested_by (block : BeaconBlock) : Net W (BeaconBlockHeader * BeaconState) :=
  let? attested_header := fetch_header (get_block_id (blk_parent_root block)) in
  let? attested_state := fetch_beacon_state (get_block_id (bh_state_root attested_header)) in
  ret (Ok (attested_header, attested_state)).

(** What the attested state finalises, with its proofs. *)
Definition finalized_by (attested_state : BeaconState) :
    Net W (BeaconBlockHeader * FinalityBranch * ExecutionPayloadProof) :=
  let checkpoint := st_finalized_checkpoint attested_state in
  let? finalized_header := fetch_header (get_block_id (cp_root checkpoint)) in
  let? finalized_state := fetch_beacon_state (get_block_id (bh_state_root finalized_header)) in
  let? finality_branch := ret (prove_finalized_header attested_state) in
  let? execution_payload_proof := ret (prove_execution_payload finalized_state) in
  ret (Ok (finalized_header, mkFinalityBranch (cp_epoch checkpoint) finality_branch, execution_payload_proof)).

Definition committee_update (attested_state : BeaconState) : result AnyError SyncCommitteeUpdate :=
  result_map (mkSyncCommitteeUpdate (st_next_sync_committee attested_state))
    (prove_sync_committee_update attested_state).

Definition root_or (root : option Root) : result AnyError Root := ok_or root merkleization.

Definition update_from (client_state : VerifierState) (block : BeaconBlock) : Net W (option VerifierStateUpdate) :=
  let? (attested_header, attested_state) := attested_by block in
  if bool_decide (cp_root (st_finalized_checkpoint attested_state) = no_root) then ret (Ok None)
  else
    let? (finalized_header, finality_proof, execution_payload) := finalized_by attested_state in
    let signature_period := compute_sync_committee_period_at_slot C (blk_slot block) in
    let? next_root := ret (root_or (root_of_committee (vs_next_sync_committee client_state))) in
    let? current_root := ret (root_or (root_of_committee (st_current_sync_committee attested_state))) in
    let? sync_committee_update := ret
      (if should_have_sync_committee_update (vs_state_period client_state) signature_period
           && bool_decide (next_root = current_root)
       then result_map Some (committee_update attested_state) else Ok None) in
    ret (Ok (Some (mkVerifierStateUpdate attested_header sync_committee_update finalized_header
      execution_payload finality_proof (bb_sync_aggregate (blk_body block)) (blk_slot block)))).

Definition fetch_light_client_update (fuel : nat) (client_state : VerifierState)
    (finality_checkpoint : Checkpoint) (latest_block_id : option bytes) : Net W (option VerifierStateUpdate) :=
  if bool_decide (cp_root finality_checkpoint = no_root)
      || (cp_epoch finality_checkpoint <=? vs_latest_finalized_epoch client_state)
  then ret (Ok None)
  else
    let? latest_header := fetch_header (default (lit "head") latest_block_id) in
    let? latest_root := ret (root_or (root_of_header latest_header)) in
    let? block := fetch_block (get_block_id latest_root) in
    let? found := find_signature_block fuel client_state block in
    match found with
    | None => ret (Ok None)
    | Some block => update_from client_state block
    end.

(** *** The last update of a period *)

(** The block of the highest slot that has one, from [slot] down, of [count] slots. *)
Fixpoint highest_block (count : nat) (slot : Z) : Net W BeaconBlock :=
  match count with
  | O => ret (Err (AnyMessage (lit "Error fetching blocks from selected epoch")))
  | S count =>
      let* block := fetch_block (show_dec slot) in
      match block with
      | Ok block => ret (Ok block)
      | Err _ => highest_block count (wrap64 (slot - 1))
      end
  end.

Fixpoint find_signed_block (fuel : nat) (block : BeaconBlock) : Net W BeaconBlock :=
  match fuel with
  | O => panic
  | S fuel =>
      if min_signatures <=? num_signatures block then ret (Ok block)
      else
        let? parent_block := fetch_block (get_block_id (blk_parent_root block)) in
        find_signed_block fuel parent_block
  end.

Definition last_slot (period : Z) : Z :=
  let slots := EPOCHS_PER_SYNC_COMMITTEE_PERIOD C * SLOTS_PER_EPOCH C in
  wrap64 (period * slots + slots - 1).

Definition latest_update_for_period (fuel : nat) (period : Z) : Net W VerifierStateUpdate :=
  let? block := highest_block 100 (last_slot period) in
  let? block := find_signed_block fuel block in
  let? (attested_header, attested_state) := attested_by block in
  let? (finalized_header, finality_proof, execution_payload) := finalized_by attested_state in
  let? update := ret (committee_update attested_state) in
  ret (Ok (mkVerifierStateUpdate attested_header (Some update) finalized_header execution_payload
    finality_proof (bb_sync_aggregate (blk_body block)) (blk_slot block))).

End sync_committee.

(** [pubkey_to_projective] of every key, as [collect] does. *)
Definition eth_aggregate_public_keys `{!Bls, !BscLib} (points : list bytes) : result AnyError bytes :=
  match pubkeys_to_points points with
  | Err e => Err (AnyMessage e)
  | Ok points =>
      let aggregate := fold_left g1_plus points g1_default in
      ok_or (bls_public_key (point_to_pubkey aggregate)) (AnyMessage (lit "invalid public key"))
  end.

(** *** Several nodes ([middleware.rs])

    A request that fails is sent to the next provider. *)

(** [str::split_inclusive]: the pieces that end with [pattern], and what is left. [skip] characters
    of an occurrence are still to come. *)
Fixpoint split_inclusive_go (pattern acc : bytes) (skip : nat) (text : bytes) : list bytes :=
  match text with
  | [] => match acc with [] => [] | _ => [reverse acc] end
  | c :: rest =>
      let pending := match skip with O => if bool_decide (pattern `prefix_of` text) then length pattern else O | _ => skip end in
      match pending with
      | O => split_inclusive_go pattern (c :: acc) O rest
      | 1%nat => reverse (c :: acc) :: split_inclusive_go pattern [] O rest
      | S pending => split_inclusive_go pattern (c :: acc) pending rest
      end
  end.

Definition split_inclusive (pattern text : bytes) : list bytes := split_inclusive_go pattern [] O text.

Record LocalState : Type := mkLocalState {
  active_url_index : nat;
  prev_stat : gmap nat (option Z)
}.

Definition HTTP_OK : Z := 200.
Definition HTTP_NOT_FOUND : Z := 404.

Section middleware.
Context `{!UrlLib} {R : Type} (status_of : R -> Z) (providers : list bytes).

(** The url of the same resource at another provider. *)
Definition url_at (provider url : bytes) : result AnyError bytes :=
  match split_inclusive (lit "/eth") url !! 1%nat with
  | None => Err (AnyMessage (lit "Invalid path in url"))
  | Some path => ok_or (url_parse (provider ++ lit "/eth" ++ path)) (AnyMessage (lit "invalid url"))
  end.

(** The state and the url for the next attempt. *)
Definition next_state (state : LocalState) (url : bytes) (status : option Z) : V AnyError (LocalState * bytes) :=
  let stats := <[active_url_index state := status]> (prev_stat state) in
  let next_index := S (active_url_index state) in
  let exhausted := (length providers <=? next_index)%nat in
  let! _ := vguard (exhausted && bool_decide (map_Forall (fun _ s => s = Some HTTP_NOT_FOUND) stats))
      (AnyMessage (lit "All providers returned 404 Not Found")) in
  let next_index := if exhausted then O else next_index in
  get! next_provider := providers !! next_index in
  let! url := vlift (url_at next_provider url) in
  vret (mkLocalState next_index stats, url).

(** The answer, or none with what to try next. *)
Definition chain (answer : result AnyError R) (state : LocalState) (url : bytes) :
    V AnyError (option R * LocalState * bytes) :=
  match answer with
  | Ok response =>
      if status_of response =? HTTP_OK then vret (Some response, state, url)
      else let! (state, url) := next_state state url (Some (status_of response)) in vret (None, state, url)
  | Err _ => let! (state, url) := next_state state url None in vret (None, state, url)
  end.

End middleware.

(** ** The prover of BSC ([bsc/prover/src/lib.rs]) *)

(** An Ethereum node: blocks as headers. *)
Record BscNode (W : Type) : Type := mkBscNode {
  sn_block_by_hash : H256 -> Net W (option CodecHeader);
  sn_block_by_number : Z -> Net W (option CodecHeader);
  sn_block_number : Net W Z
}.
Arguments sn_block_by_hash {W}.
Arguments sn_block_by_number {W}.
Arguments sn_block_number {W}.

(** The loop looks at one number after the other; [fuel] of them. *)
Fixpoint rotation_block_go (fuel : nat) (block validator_size : Z) : option Z :=
  match fuel with
  | O => None
  | S fuel =>
      if block mod EPOCH_LENGTH =? validator_size / 2 then Some block
      else rotation_block_go fuel (wrap64 (block + 1)) validator_size
  end.

(** Two epochs are enough: a remainder that occurs does so within one, and the numbers wrap around
    at most once. *)
Definition get_rotation_block (block validator_size : Z) : option Z :=
  rotation_block_go 400 block validator_size.

Section bsc.
Context `{Keccak256} `{!RollupLib} `{!Bls, !BscLib} {W : Type} (node : BscNode W).
Variable C : BscConfig.

Definition found (header : Net W (option CodecHeader)) : Net W CodecHeader :=
  let? header := header in ret (ok_or header (AnyMessage (lit "header block could not be fetched"))).

Definition latest_header : Net W CodecHeader :=
  let? block_number := sn_block_number node in found (sn_block_by_number node block_number).

Definition parsed_extra (header : CodecHeader) (text : bytes) : Net W ExtraData :=
  let* extra := or_panic (parse_extra C header) in ret (map_err (fun _ => AnyMessage text) extra).

(** The headers from the epoch header to [header], before those in [ancestry]. *)
Fixpoint header_ancestry (fuel : nat) (epoch_header_number : Z) (header : CodecHeader)
    (ancestry : list CodecHeader) : Net W (list CodecHeader) :=
  match fuel with
  | O => panic
  | S fuel =>
      if epoch_header_number <? low_u64 (ch_number header) then
        let? header := found (sn_block_by_hash node (ch_parent_hash header)) in
        header_ancestry fuel epoch_header_number header (header :: ancestry)
      else ret (Ok ancestry)
  end.

Definition MAX_ANCESTRY : nat := 200.

Definition fetch_bsc_update (fuel : nat) (attested_header : CodecHeader) (validator_size epoch : Z)
    (fetch_val_set_change : bool) : Net W (option BscClientUpdate) :=
  let? extra := parsed_extra attested_header (lit "Extra data not found in header") in
  let source_hash := vd_source_hash (ed_vote_data extra) in
  let target_hash := vd_target_hash (ed_vote_data extra) in
  if bool_decide (source_hash = H256_zero) || bool_decide (target_hash = H256_zero) then ret (Ok None)
  else
    let? source_header := found (sn_block_by_hash node source_hash) in
    let? target_header := found (sn_block_by_hash node target_hash) in
    let epoch_header_number := wrap64 (epoch * EPOCH_LENGTH) in
    let* rotation := or_panic (get_rotation_block epoch_header_number validator_size) in
    let rotation_block := wrap64 (rotation - 1) in
    let attested_number := low_u64 (ch_number attested_header) in
    let source_number := low_u64 (ch_number source_header) in
    let? ancestry :=
      if ((wrap64 (epoch_header_number + 2) <=? attested_number) && (attested_number <=? rotation_block)
           && (epoch_header_number <? source_number))
         || (fetch_val_set_change && (epoch_header_number <? source_number))
      then
        let? header := found (sn_block_by_hash node (ch_parent_hash source_header)) in
        header_ancestry fuel epoch_header_number header [header]
      else ret (Ok []) in
    if (MAX_ANCESTRY <? length ancestry)%nat then ret (Err (AnyMessage (lit "Epoch ancestry too large")))
    else ret (Ok (Some (mkBscClientUpdate source_header target_header attested_header ancestry))).

Definition fetch_finalized_state : Net W (CodecHeader * list bytes) :=
  let? latest_header := latest_header in
  let current_epoch := compute_epoch (low_u64 (ch_number latest_header)) in
  let? current_epoch_header := found (sn_block_by_number node (current_epoch * EPOCH_LENGTH)) in
  let? extra := parsed_extra current_epoch_header (lit "Extra data set not found in header") in
  let* current_validators := or_panic (mapM (fun val => bls_public_key (vi_bls_public_key val)) (ed_validators extra)) in
  ret (Ok (current_epoch_header, current_validators)).

End bsc.

(** ** The prover of GRANDPA ([grandpa/prover/src/lib.rs]) *)

(** A node of a relay chain or of a standalone chain: its headers, of the type [TH] of the chain's
    client, its state and the proofs it gives. *)
Record GrandpaNode (W TH : Type) : Type := mkGrandpaNode {
  gn_block_hash : Z -> Net W (option H256);
  gn_header : H256 -> Net W (option TH);
  gn_fetch_raw : H256 -> bytes -> Net W (option bytes);
  gn_state_call : bytes -> bytes -> H256 -> Net W bytes;
  gn_prove_finality : Z -> Net W (option bytes);
  gn_read_proof : list bytes -> H256 -> Net W (list bytes);
  gn_constant : bytes -> bytes -> Net W (option bytes)
}.
Arguments gn_block_hash {W TH}.
Arguments gn_header {W TH}.
Arguments gn_fetch_raw {W TH}.
Arguments gn_state_call {W TH}.
Arguments gn_prove_finality {W TH}.
Arguments gn_read_proof {W TH}.
Arguments gn_constant {W TH}.

Record GrandpaProver (W TH : Type) : Type := mkGrandpaProver {
  gp_client : GrandpaNode W TH;
  gp_para_ids : list Z;
  gp_state_machine : StateMachine;
  gp_babe_epoch_start : bytes;
  gp_current_set_id : bytes
}.
Arguments gp_client {W TH}.
Arguments gp_para_ids {W TH}.
Arguments gp_state_machine {W TH}.
Arguments gp_babe_epoch_start {W TH}.
Arguments gp_current_set_id {W TH}.

(** The SCALE encoding of integers: little endian; what follows is ignored. *)
Definition decode_le (n : nat) (data : bytes) : option Z :=
  if (n <=? length data)%nat then Some (of_be_bytes 0 (reverse (take n data))) else None.

Definition wrap32 (z : Z) : Z := z mod 2 ^ 32.

(** [Number]s of blocks: [first..=last]. *)
Definition heights (first last : Z) : list Z := seqZ first (last - first + 1).

Section grandpa.
Context {H TH W : Type} `{!HeaderT TH, !Codec TH, !Codec H, !Codec (FinalityProof H), !Codec (GrandpaJustification H)}.
Context `{!Codec AuthorityList, !Hex, !Twox}.
Variable self : GrandpaProver W TH.

Definition bad_encoding : AnyError := AnyMessage (lit "codec error").

Definition initialize_consensus_state (slot_duration : Z) (hash : H256) : Net W ConsensusState :=
  let? header := gn_header (gp_client self) hash in
  let? header := ret (ok_or header (AnyMessage (lit "Header not found for hash"))) in
  let* raw := gn_fetch_raw (gp_client self) hash (gp_current_set_id self) in
  let* raw_id := or_panic (mjoin (ok raw)) in
  let? set_id := ret (ok_or (decode_le 8 raw_id) bad_encoding) in
  let? res := gn_state_call (gp_client self) (lit "GrandpaApi_grandpa_authorities") (lit "0x") hash in
  let* digits := or_panic (slice_from 2 res) in
  let? data := ret (ok_or (hex_decode digits) (AnyMessage (lit "invalid hex"))) in
  let? authorities := ret (ok_or (decode (A := AuthorityList) data) bad_encoding) in
  if bool_decide (NoDup authorities.*1) then
    ret (Ok (mkConsensusState authorities (wrap64 (set_id + 1)) (header_number header) hash slot_duration
      (gp_state_machine self)))
  else ret (Err (AnyMessage (lit "Duplicate entries found in current authority set"))).

Definition header_at (height : Z) : Net W H :=
  let? hash := gn_block_hash (gp_client self) height in
  let? hash := ret (ok_or hash (AnyMessage (lit "Failed to fetch block has for height"))) in
  let? header := gn_header (gp_client self) hash in
  let? header := ret (ok_or header (AnyMessage (lit "Header with hash not found!"))) in
  ret (ok_or (decode (A := H) (encode header)) bad_encoding).

Definition query_finality_proof (previous_finalized_height latest_finalized_height : Z) : Net W (FinalityProof H) :=
  let? encoded := gn_prove_finality (gp_client self) latest_finalized_height in
  let? encoded := ret (ok_or encoded (AnyMessage (lit "No justification found for block"))) in
  let? finality_proof := ret (ok_or (decode (A := FinalityProof H) encoded) bad_encoding) in
  let? justification := ret (ok_or (decode (A := GrandpaJustification H) (fp_justification finality_proof)) bad_encoding) in
  let commit := gj_commit justification in
  let? unknown_headers := try_map_m header_at (heights previous_finalized_height (commit_target_number commit)) in
  ret (Ok (mkFinalityProof (commit_target_hash commit) (fp_justification finality_proof) unknown_headers)).

Definition query_finalized_parachain_headers_with_proof (latest_finalized_height : Z)
    (finality_proof : FinalityProof H) : Net W (ParachainHeadersWithFinalityProof H) :=
  let keys := parachain_header_storage_key <$> gp_para_ids self in
  let? hash := gn_block_hash (gp_client self) latest_finalized_height in
  let? hash := ret (ok_or hash (AnyMessage (lit "Failed to fetch previous finalized hash + 1"))) in
  let? state_proof := gn_read_proof (gp_client self) keys hash in
  ret (Ok (mkParachainHeadersWithFinalityProof finality_proof
    [(hash, mkParachainHeaderProofs state_proof (gp_para_ids self))])).

Definition session_start_and_end_for_block (block : Z) : Net W (Z * Z) :=
  let? block_hash := gn_block_hash (gp_client self) block in
  let? block_hash := ret (ok_or block_hash (AnyMessage (lit "Failed to fetch block hash"))) in
  let? data := gn_fetch_raw (gp_client self) block_hash (gp_babe_epoch_start self) in
  let? data := ret (ok_or data (AnyMessage (lit "Failed to fetch epoch information"))) in
  let? previous_epoch_start := ret (ok_or (decode_le 4 data) bad_encoding) in
  let? current_epoch_start := ret (ok_or (decode_le 4 (drop 4 data)) bad_encoding) in
  ret (Ok (current_epoch_start, wrap32 (current_epoch_start + wrap32 (current_epoch_start - previous_epoch_start)))).

Definition session_length : Net W Z :=
  let? value := gn_constant (gp_client self) (lit "Babe") (lit "EpochDuration") in
  let? value := ret (ok_or value (AnyMessage (lit "Failed to fetch constant"))) in
  ret (ok_or (decode_le 4 value) bad_encoding).

End grandpa.
