(* ===== verification/ProverProps.v ===== *)
(** * What provers produce, verifiers accept

    The theorems on [Provers]: with an honest node, a prover returns an update, and the verifier of
    its chain accepts it. They join the provers to [Grandpa], [Bsc] and [SyncCommittee]. *)

From S2P Require Import Prelude StateMachine Router Messaging Host RefHost ChildTrie PalletTypes PalletDemo DemoCodec SubstrateMachine EvmMachine Rollups EvmDemo SyncCommittee SyncProps BeaconDemo Bsc BscProps BscDemo Tesseract TesseractProps RelayerDb Grandpa GrandpaClient GrandpaProps GrandpaDemo Provers.

(** ** Steady answers *)

(** The program always returns [a], and changes nothing. *)
Definition gives {W A} (m : Net W A) (a : A) : Prop := forall w, m w = (Some (Ok a), w).

Section gives.
Context {W : Type}.

Lemma gives_ret {A} (a : A) : gives (ret (Ok a) : Net W A) a.
Proof. by intros w. Qed.

Lemma gives_try {A B} (m : Net W A) (k : A -> Net W B) a b :
  gives m a -> gives (k a) b -> gives (try_bind m k) b.
Proof. intros Hm Hk w. rewrite (try_ok _ _ _ _ _ (Hm w)). apply Hk. Qed.

Lemma gives_some {A B} (m : option A) (e : AnyError) (k : A -> Net W B) a b :
  m = Some a -> gives (k a) b -> gives (try_bind (ret (ok_or m e)) k) b.
Proof. intros ->. apply gives_try, gives_ret. Qed.

Lemma gives_panic {A B} (m : option A) (k : A -> Net W B) a b :
  m = Some a -> gives (k a) b -> gives (bind (or_panic m) k) b.
Proof. intros -> Hk w. apply Hk. Qed.

Lemma gives_map {A B} (f : A -> Net W B) (g : A -> B) l :
  Forall (fun x => gives (f x) (g x)) l -> gives (try_map_m f l) (g <$> l).
Proof. intros Hf w. apply try_map_pure. eapply Forall_impl; [exact Hf|]. intros x Hx. apply Hx. Qed.

End gives.

(** One request whose answer is known, and one step that takes a value out of an option. *)
Ltac answer H := eapply gives_try; [apply H|].
Tactic Notation "known" uconstr(H) := eapply gives_some; [refine H|].

(** One step of a computation whose next value is known. *)
Ltac vrun := cbn [vtry vlift ok_or vguard vret vget negb orb andb].

(** ** GRANDPA *)

Lemma elem_of_heights first last n : n ∈ heights first last <-> first <= n <= last.
Proof. unfold heights. rewrite elem_of_seqZ. lia. Qed.

Lemma heights_snoc first last : first <= last + 1 -> heights first (last + 1) = heights first last ++ [last + 1].
Proof.
  intros Hl. unfold heights. replace (last + 1 - first + 1) with ((last - first + 1) + 1) by lia.
  rewrite seqZ_app by lia. by replace (first + (last - first + 1)) with (last + 1) by lia.
Qed.

Lemma heights_last first last : first <= last -> heights first last = heights first (last - 1) ++ [last].
Proof. intros Hl. replace last with (last - 1 + 1) at 1 3 by lia. apply heights_snoc. lia. Qed.

Section grandpa.
Context {H TH W : Type} `{!HeaderT H, !HeaderT TH, !Codec TH, !Codec H, !Codec (FinalityProof H), !Codec (GrandpaJustification H)}.
Context `{!FinalityGrandpa, !VoteCrypto, !ConsensusLogCodec, !TrieDb, !Codec bytes, !Twox, !DebugError}.
Variables (self : GrandpaProver W TH) (chain : Z -> H) (first top : Z).

(** The headers of the chain by their numbers, each the parent of the next. *)
Record linked : Prop := {
  lk_number n : first <= n <= top -> header_number (chain n) = n;
  lk_parent n : first <= n < top -> parent_hash (chain (n + 1)) = header_hash (chain n);
  lk_hash n m : first <= n <= top -> first <= m <= top -> header_hash (chain n) = header_hash (chain m) -> n = m
}.

(** The node knows them; the type of its headers is another one. *)
Record serves_chain (chain' : Z -> TH) : Prop := {
  sv_hash n : first <= n <= top -> gives (gn_block_hash (gp_client self) n) (Some (header_hash (chain n)));
  sv_header n : first <= n <= top -> gives (gn_header (gp_client self) (header_hash (chain n))) (Some (chain' n));
  sv_decode n : first <= n <= top -> decode (encode (chain' n)) = Some (chain n)
}.

(** The node has a justification of block [target] when it is asked about block [latest]. *)
Definition justifies (latest target : Z) (j : GrandpaJustification H) (justification : bytes) : Prop :=
  (exists encoded fp, gives (gn_prove_finality (gp_client self) latest) (Some encoded) /\
     decode encoded = Some fp /\ fp_justification fp = justification) /\
  decode justification = Some j /\
  commit_target_hash (gj_commit j) = header_hash (chain target) /\ commit_target_number (gj_commit j) = target.

Context (L : linked).

Lemma header_at_given chain' n : serves_chain chain' -> first <= n <= top -> gives (header_at self n) (chain n).
Proof.
  intros S Hn. unfold header_at. answer (sv_hash _ S n Hn). known eq_refl. answer (sv_header _ S n Hn). known eq_refl.
  rewrite (sv_decode _ S n Hn). apply gives_ret.
Qed.

Lemma max_of_chain a b : first <= a <= b -> b <= top -> max_by_key header_number (chain <$> heights a b) = Some (chain b).
Proof.
  intros Ha Hb. replace b with (b - 1 + 1) by lia. rewrite heights_snoc by lia. rewrite fmap_app. unfold max_by_key.
  rewrite foldl_app. cbn [fmap list_fmap foldl]. fold (max_by_key header_number (chain <$> heights a (b - 1))).
  destruct (max_by_key header_number _) as [x|] eqn:E; [|done].
  apply max_by_key_some in E as [(n & -> & Hn%elem_of_heights)%list_elem_of_fmap _].
  rewrite !(lk_number L) by lia. destruct (Z.leb_spec n (b - 1 + 1)); [done|lia].
Qed.

Lemma min_of_chain a b : first <= a <= b -> b <= top -> min_by_key header_number (chain <$> heights a b) = Some (chain a).
Proof.
  intros Ha Hb. unfold heights. rewrite seqZ_cons by lia. cbn [fmap list_fmap]. unfold min_by_key. cbn [foldl].
  assert (Hk : forall n, n ∈ seqZ (Z.succ a) (Z.pred (b - a + 1)) -> a < n <= b) by (intros n ?%elem_of_seqZ; lia).
  revert Hk. generalize (seqZ (Z.succ a) (Z.pred (b - a + 1))). intros l Hk. induction l as [|n l IH]; [done|].
  cbn [fmap list_fmap foldl]. rewrite !(lk_number L) by (try (specialize (Hk n ltac:(left))); lia).
  destruct (Z.ltb_spec n a); [specialize (Hk n ltac:(left)); lia|]. apply IH. intros m Hm. apply Hk. by right.
Qed.

Lemma chain_known a b n : first <= a <= b -> b <= top -> a <= n <= b ->
  ancestry_new (chain <$> heights a b) !! header_hash (chain n) = Some (chain n).
Proof.
  intros Ha Hb Hn. unfold ancestry_new.
  assert (G : forall l (m : gmap H256 H), (forall k, k ∈ l -> first <= k <= top) ->
    n ∈ l \/ m !! header_hash (chain n) = Some (chain n) ->
    foldl (fun m h => <[header_hash h := h]> m) m (chain <$> l) !! header_hash (chain n) = Some (chain n)).
  { induction l as [|k l IH]; intros m Hl Hor; cbn; [by destruct Hor as [[]%elem_of_nil|]|].
    apply IH; [intros; apply Hl; by right|]. destruct (decide (k = n)) as [->|Hne].
    - right. by rewrite lookup_insert_eq.
    - destruct Hor as [[->|?]%elem_of_cons|Hm]; [done|by left|]. right. rewrite lookup_insert_ne; [done|].
      intros E. apply Hne, (lk_hash L); [apply Hl; left|lia|done]. }
  apply G; [intros k ?%elem_of_heights; lia|left; apply elem_of_heights; lia].
Qed.

Lemma route_down a b (k : nat) fuel route : first <= a -> a + Z.of_nat k <= b -> b <= top -> (k <= fuel)%nat ->
  ancestry_go fuel (ancestry_new (chain <$> heights a b)) (header_hash (chain a)) (header_hash (chain (a + Z.of_nat k))) route
  = Some (Ok (route ++ ((fun i => header_hash (chain (a + Z.of_nat i))) <$> reverse (seq 0 k)))).
Proof.
  intros Ha Hk Hb. revert fuel route. induction k as [|k IH]; intros fuel route Hf.
  - replace (a + Z.of_nat 0) with a by lia. destruct fuel; cbn; rewrite decide_True by done; by rewrite app_nil_r.
  - destruct fuel as [|fuel]; [lia|]. cbn [ancestry_go]. rewrite decide_False.
    2:{ intros E. apply (lk_hash L) in E; lia. }
    rewrite chain_known by lia. replace (a + Z.of_nat (S k)) with (a + Z.of_nat k + 1) by lia. rewrite (lk_parent L) by lia.
    rewrite IH by lia. rewrite seq_S, reverse_app, fmap_app. cbn [reverse rev_append fmap list_fmap]. do 2 f_equal. by rewrite <- app_assoc.
Qed.

Lemma size_chain a b : first <= a <= b -> b <= top -> (Z.to_nat (b - a + 1) <= size (ancestry_new (chain <$> heights a b)))%nat.
Proof.
  intros Ha Hb. rewrite <- size_dom. transitivity (size (list_to_set (C := gset H256) ((header_hash ∘ chain) <$> heights a b))).
  - rewrite size_list_to_set; [unfold heights; by rewrite length_fmap, length_seqZ|].
    unfold heights. apply NoDup_fmap_2_strong; [|apply NoDup_seqZ].
    intros n m ?%elem_of_seqZ ?%elem_of_seqZ E. apply (lk_hash L); [lia..|exact E].
  - apply subseteq_size. intros x. rewrite elem_of_list_to_set. intros (n & -> & Hn%elem_of_heights)%list_elem_of_fmap.
    apply elem_of_dom. eexists. apply (chain_known a b n); lia.
Qed.

(** The hashes from block [b] down to block [a]. *)
Definition route (a b : Z) : list H256 := header_hash ∘ chain <$> reverse (heights a b).

Lemma ancestry_of_chain a b : first <= a <= b -> b <= top ->
  ancestry (ancestry_new (chain <$> heights a b)) (header_hash (chain a)) (header_hash (chain b)) = Some (Ok (route a b)).
Proof.
  intros Ha Hb. unfold ancestry. replace b with (a + Z.of_nat (Z.to_nat (b - a))) at 2 3 by lia.
  rewrite route_down; [|lia..|].
  2:{ pose proof (size_chain a b Ha Hb). lia. }
  do 2 f_equal. unfold route, heights, seqZ. replace (Z.to_nat (b - a + 1)) with (S (Z.to_nat (b - a))) by lia.
  rewrite seq_S, fmap_app, reverse_app, fmap_app. cbn. f_equal; [do 2 f_equal; lia|].
  rewrite <- fmap_reverse, <- list_fmap_compose. apply list_fmap_ext. intros i x _. cbn. do 2 f_equal. lia.
Qed.

Lemma route_in a b : a <= b -> header_hash (chain b) ∈ route a b.
Proof.
  intros Hab. apply list_elem_of_fmap. exists b. split; [done|]. apply elem_of_reverse, elem_of_heights. lia.
Qed.

Lemma query_finality_proof_given chain' prev latest target j justification :
  serves_chain chain' -> first <= prev -> target <= top -> justifies latest target j justification ->
  gives (query_finality_proof self prev latest)
    (mkFinalityProof (header_hash (chain target)) justification (chain <$> heights prev target)).
Proof.
  intros S Hp Ht ((encoded & fp & He & Hd & <-) & Hj & Hh & Hn). unfold query_finality_proof.
  answer He. known eq_refl. known Hd. known Hj. cbv zeta. rewrite Hh, Hn.
  eapply gives_try; [|apply gives_ret]. apply gives_map, Forall_forall. intros n Hin%elem_of_heights.
  apply (header_at_given chain'); [done|lia].
Qed.

Lemma chain_proof_verified state prev target j justification :
  first <= prev <= target -> target <= top -> latest_hash state = header_hash (chain prev) -> latest_height state = prev ->
  decode justification = Some j -> commit_target_hash (gj_commit j) = header_hash (chain target) ->
  verify_grandpa_finality_proof state
    (mkFinalityProof (header_hash (chain target)) justification (chain <$> heights prev target))
  = (let! _ := justification_verify j (current_set_id state) (current_authorities state) in
     vret (advance state (chain target), chain target, route prev target, ancestry_new (chain <$> heights prev target))).
Proof.
  intros Hp Ht Hs Hl Hj Hh. unfold verify_grandpa_finality_proof. cbn [fp_unknown_headers fp_block fp_justification].
  rewrite max_of_chain, min_of_chain by lia. cbv zeta. vrun. rewrite bool_decide_true by done. vrun. rewrite Hj. vrun.
  rewrite bool_decide_true by done. vrun. rewrite (lk_number L) by lia. rewrite Hl, Z.ltb_irrefl, Hs. vrun.
  rewrite ancestry_of_chain by lia. cbn [route_or]. vrun. done.
Qed.

(** *** Parachains *)

Lemma get_absent (id : Z) (m : list (Z * list H)) : id ∉ m.*1 -> btree_get Z.compare id m = None.
Proof.
  intros Hid. destruct (btree_get Z.compare id m) as [v|] eqn:E; [|done]. apply (btree_get_elem _ compare_Z_lawful) in E.
  destruct Hid. apply list_elem_of_fmap. by exists (id, v).
Qed.

Section heads.
Context (head : Z -> H) (nodes : list bytes) (root : H256).

(** The node's proof shows the heads of the parachains. *)
Definition proves_heads (ids : list Z) : Prop :=
  trie_contains Blake2 nodes root = true /\
  forall id, id ∈ ids -> exists raw body, trie_get Blake2 nodes root (parachain_header_storage_key id) = Ok (Some raw) /\
    decode raw = Some body /\ decode (A := H) body = Some (head id).

Definition push_head (m : list (Z * list H)) (e : bytes * Z) : list (Z * list H) := push_header m e.2 (head e.2).

Lemma push_heads l m : NoDup l.*2 -> (forall id, id ∈ l.*2 -> id ∉ m.*1) ->
  (forall id, id ∈ l.*2 -> (id, [head id]) ∈ foldl push_head m l) /\
  (forall x, x ∈ m -> x.1 ∉ l.*2 -> x ∈ foldl push_head m l).
Proof.
  revert m; induction l as [|[key id] l IH]; intros m Hd Hm; cbn in *.
  { split; [by intros ? []%elem_of_nil|done]. }
  apply NoDup_cons in Hd as [Hid Hd]. destruct (IH (push_head m (key, id)) Hd) as [H1' H2'].
  { intros i Hi. unfold push_head, push_header. rewrite (btree_insert_keys _ compare_Z_lawful).
    intros [->|Hin]; [done|]. apply (Hm i); [by right|done]. }
  split.
  - intros i [->|Hi]%elem_of_cons; [|by apply H1']. apply H2'; [|done]. unfold push_head, push_header. cbn.
    rewrite get_absent by (apply Hm; left). apply btree_insert_here.
  - intros x Hx [Hne Hn]%not_elem_of_cons. apply H2'; [|done]. by apply (btree_insert_there _ compare_Z_lawful).
Qed.

Lemma read_heads ids keys : proves_heads ids -> (forall e, e ∈ keys -> exists id, id ∈ ids /\ e = (parachain_header_storage_key id, id)) ->
  exists values, read_proof_check Blake2 root nodes keys.*1 = Some (Ok values) /\
    forall m l, (forall e, e ∈ l -> e ∈ keys) -> vfold (read_parachain_header values) m l = Some (Ok (foldl push_head m l)).
Proof.
  intros [Hc Hp] Hk.
  set (value := fun key => match trie_get Blake2 nodes root key with Ok (Some raw) => decode (A := bytes) raw | _ => None end).
  exists (btree_collect compare_bytes ((fun k => (k, value k)) <$> keys.*1)). split.
  - unfold read_proof_check. rewrite Hc. vrun.
    assert (Hv : forall ks, (forall k, k ∈ ks -> k ∈ keys.*1) -> vmap (E := Error) (fun key =>
      let! value := vlift (map_err (fun e => Custom (lit "Error reading from trie: " ++ e)) (trie_get Blake2 nodes root key)) in
      vret (key, value ≫= decode)) ks = Some (Ok ((fun k => (k, value k)) <$> ks))).
    { intros ks Hin. apply vmap_ok, Forall2_fmap_r, Forall_Forall2_diag, Forall_forall. intros k Hks.
      apply Hin, list_elem_of_fmap in Hks as ((k' & id) & -> & (id' & Hid & [= -> ->])%Hk).
      destruct (Hp id' Hid) as (raw & body & Hg & Hb & _). unfold value. cbn [fst]. rewrite Hg. cbn. by rewrite Hg. }
    apply vtry_ok. eexists. split; [by apply (Hv keys.*1)|done].
  - intros m l. revert m; induction l as [|e l IH]; intros m Hl; [done|]. cbn [vfold foldl].
    destruct (Hk e (Hl e ltac:(left))) as (id & Hid & E). destruct (Hp id Hid) as (raw & body & Hg & Hb & Hh).
    assert (Hf : btree_get compare_bytes e.1 (btree_collect compare_bytes ((fun k => (k, value k)) <$> keys.*1)) = Some (Some body)).
    { destruct (btree_get compare_bytes e.1 _) as [v|] eqn:Ef.
      - apply (btree_get_elem _ compare_bytes_lawful), (btree_collect_fun_elem _ compare_bytes_lawful) in Ef as [_ Ef].
        cbn in Ef. subst v e. unfold value. cbn [fst]. by rewrite Hg, Hb.
      - apply btree_get_keys in Ef. destruct Ef. apply (btree_collect_keys _ compare_bytes_lawful).
        rewrite <- list_fmap_compose. cbn. rewrite list_fmap_id. apply list_elem_of_fmap. exists e. split; [done|]. apply Hl. left. }
    unfold read_parachain_header at 1. rewrite Hf. vrun. cbn [mbind option_bind]. vrun. rewrite Hh. vrun.
    rewrite E at 1. rewrite IH by (intros e' He'; apply Hl; by right). rewrite E. done.
Qed.

End heads.

Lemma storage_keys_entries ids e :
  e ∈ btree_collect compare_bytes ((fun id => (parachain_header_storage_key id, id)) <$> ids) ->
  exists id, id ∈ ids /\ e = (parachain_header_storage_key id, id).
Proof. intros (id & -> & Hid)%btree_collect_elem%list_elem_of_fmap. by exists id. Qed.

Lemma storage_keys_ids ids :
  (forall a b, a ∈ ids -> b ∈ ids -> parachain_header_storage_key a = parachain_header_storage_key b -> a = b) ->
  let keys := btree_collect compare_bytes ((fun id => (parachain_header_storage_key id, id)) <$> ids) in
  NoDup keys.*2 /\ forall id, id ∈ ids -> id ∈ keys.*2.
Proof.
  intros Hinj keys. split.
  - assert (Hk : NoDup keys.*1).
    { apply (btree_sorted_nodup _ compare_bytes_lawful). unfold keys, btree_collect.
      assert (Hs : btree_sorted (V := Z) compare_bytes []) by constructor. revert Hs.
      generalize (@nil (bytes * Z)). generalize ((fun id => (parachain_header_storage_key id, id)) <$> ids).
      intros l. induction l as [|x l IH]; intros m Hm; [done|]. apply IH. by apply (btree_insert_sorted _ compare_bytes_lawful). }
    assert (E : keys.*1 = parachain_header_storage_key <$> keys.*2).
    { rewrite <- list_fmap_compose. apply list_fmap_ext. intros i x Hx. apply list_elem_of_lookup_2 in Hx.
      by destruct (storage_keys_entries ids x Hx) as (id & _ & ->). }
    rewrite E in Hk. by apply NoDup_fmap_1 in Hk.
  - intros id Hid. assert (Hin : parachain_header_storage_key id ∈ keys.*1).
    { apply (btree_collect_keys _ compare_bytes_lawful). rewrite <- list_fmap_compose. apply list_elem_of_fmap. by exists id. }
    apply list_elem_of_fmap in Hin as (x & Hx & Hin). destruct (storage_keys_entries ids x Hin) as (id' & Hid' & ->).
    apply list_elem_of_fmap. exists (parachain_header_storage_key id', id'). split; [|done]. by apply Hinj.
Qed.

(** The two requests that a relay chain is proved with. *)
Definition prove_relay_chain (prev latest target : Z) : Net W (ParachainHeadersWithFinalityProof H) :=
  let? finality_proof := query_finality_proof self prev latest in
  query_finalized_parachain_headers_with_proof self target finality_proof.

(** C27: what the GRANDPA prover produces from an honest node stands or falls with the justification.
    The node has the headers of a chain in which the block that the client trusts is followed by
    the one that the justification is for, and proofs of the heads of the parachains in the state
    of that block. Then the prover returns a message, and every check of the verifier passes but
    the one of the justification, which is the node's: if that passes, the client advances to the
    new block and the head of every parachain that is proved is reported; if it does not, its error
    is the verifier's. As it stands the check refuses every justification with a signature that
    verifies, because its test of the signatures is inverted; so a message with an honest
    justification is refused. *)
Theorem grandpa_prover_complete chain' head nodes state prev latest target j justification :
  serves_chain chain' -> first <= prev <= target -> target <= top ->
  latest_hash state = header_hash (chain prev) -> latest_height state = prev ->
  justifies latest target j justification ->
  gives (gn_read_proof (gp_client self) (parachain_header_storage_key <$> gp_para_ids self) (header_hash (chain target))) nodes ->
  proves_heads head nodes (header_state_root (chain target)) (gp_para_ids self) ->
  (forall a b, a ∈ gp_para_ids self -> b ∈ gp_para_ids self ->
    parachain_header_storage_key a = parachain_header_storage_key b -> a = b) ->
  exists message heads, gives (prove_relay_chain prev latest target) message /\
    (forall id, id ∈ gp_para_ids self -> (id, [head id]) ∈ heads) /\
    verify_parachain_headers_with_grandpa_finality_proof state message
      = (let! _ := justification_verify j (current_set_id state) (current_authorities state) in
         vret (advance state (chain target), heads)) /\
    (Exists (fun s => vote_verify (sp_signature s) (encode_vote (MPrecommit (sp_precommit s)) (gj_round j) (current_set_id state))
       (sp_id s) = true) (commit_precommits (gj_commit j)) ->
     forall r, verify_parachain_headers_with_grandpa_finality_proof state message <> Some (Ok r)).
Proof.
  intros S Hp Ht Hs Hl Hj Hn Hh Hinj. pose proof Hj as (_ & Hd & Hc & _).
  destruct (storage_keys_ids _ Hinj) as [Hdup Hall].
  destruct (read_heads _ _ _ _ _ Hh (storage_keys_entries (gp_para_ids self))) as (values & Hr & Hf).
  do 2 eexists. assert (Hver : forall x y : Prop, x -> (x -> y) -> x /\ y) by auto.
  split; [|split; [|apply Hver; clear Hver]].
  - unfold prove_relay_chain. answer (query_finality_proof_given chain' prev latest target j justification S); [lia..|done|].
    unfold query_finalized_parachain_headers_with_proof. answer (sv_hash _ S target); [lia|]. known eq_refl. answer Hn. apply gives_ret.
  - intros id Hid. eapply (proj1 (push_heads head _ [] Hdup ltac:(by intros ?? ?%elem_of_nil))). by apply Hall.
  - unfold verify_parachain_headers_with_grandpa_finality_proof. cbn [phf_finality_proof phf_parachain_headers].
    rewrite (chain_proof_verified state prev target j justification) by done.
    destruct (justification_verify _ _ _) as [[[]|e]|]; [|done|done]. vrun. cbn [vfold]. unfold read_relay_block.
    rewrite bool_decide_false by (intros Hno; apply Hno, route_in; lia). rewrite chain_known by lia. vrun.
    cbv zeta. cbn [php_state_proof php_para_ids]. rewrite Hr, Hf by done. vrun. reflexivity.
  - intros -> (s & Hin & Hsig)%Exists_exists r Hok. apply vtry_ok in Hok as ([] & Hok & _).
    apply accepted_justification_unsigned in Hok as (_ & _ & Hbad). rewrite Forall_forall in Hbad. by rewrite Hbad in Hsig.
Qed.

End grandpa.

(** ** BSC *)

(** The loop stops at the first number with the remainder. *)
Lemma rotation_go half validator_size k fuel block : validator_size / 2 = half -> 0 <= block -> block + Z.of_nat k < 2 ^ 64 ->
  (k < fuel)%nat -> (block + Z.of_nat k) mod EPOCH_LENGTH = half ->
  (forall i : nat, (i < k)%nat -> (block + Z.of_nat i) mod EPOCH_LENGTH <> half) ->
  rotation_block_go fuel block validator_size = Some (block + Z.of_nat k).
Proof.
  intros Eh. revert fuel block. induction k as [|k IH]; intros fuel block Hb Hm Hf Hr Hmin;
    (destruct fuel as [|fuel]; [lia|]); cbn [rotation_block_go]; rewrite Eh.
  - rewrite Z.add_0_r in *. by rewrite Hr, Z.eqb_refl.
  - pose proof (Hmin 0%nat ltac:(lia)) as H0. rewrite Z.add_0_r in H0.
    destruct (Z.eqb_spec (block mod EPOCH_LENGTH) half); [done|]. unfold wrap64. rewrite Z.mod_small by lia.
    rewrite IH; [f_equal; lia|lia..| |].
    + rewrite <- Hr. f_equal. lia.
    + intros i Hi. replace (block + 1 + Z.of_nat i) with (block + Z.of_nat (S i)) by lia. apply Hmin. lia.
Qed.

(** The distance to the first number with a remainder. *)
Lemma first_remainder block half : 0 <= half < EPOCH_LENGTH -> exists k : nat, Z.of_nat k < EPOCH_LENGTH /\
  (block + Z.of_nat k) mod EPOCH_LENGTH = half /\
  forall i : nat, (i < k)%nat -> (block + Z.of_nat i) mod EPOCH_LENGTH <> half.
Proof.
  unfold EPOCH_LENGTH. intros Hh. exists (Z.to_nat ((half - block) mod 200)). pose proof (Z.mod_pos_bound (half - block) 200).
  rewrite Z2Nat.id by lia. split; [lia|]. split.
  - rewrite Zplus_mod_idemp_r. replace (block + (half - block)) with half by lia. apply Z.mod_small. lia.
  - intros i Hi E. assert ((half - block) mod 200 <= Z.of_nat i); [|lia].
    rewrite <- E, Zminus_mod_idemp_l. replace (block + Z.of_nat i - block) with (Z.of_nat i) by lia. apply Z.mod_le; lia.
Qed.

(** the block at which the validators change is found: it is the first from [block] on whose
    remainder is half the number of validators. With four hundred validators or more there is no
    such block, and the loop never ends. *)
Theorem rotation_block_found block validator_size : 0 <= block -> block + EPOCH_LENGTH <= 2 ^ 64 -> 0 <= validator_size ->
  if validator_size / 2 <? EPOCH_LENGTH then
    exists r, get_rotation_block block validator_size = Some r /\ block <= r < block + EPOCH_LENGTH /\
      r mod EPOCH_LENGTH = validator_size / 2 /\
      forall n, block <= n < r -> n mod EPOCH_LENGTH <> validator_size / 2
  else forall fuel, rotation_block_go fuel block validator_size = None.
Proof.
  intros Hb Hm Hv. destruct (Z.ltb_spec (validator_size / 2) EPOCH_LENGTH) as [Hs|Hs].
  - destruct (first_remainder block (validator_size / 2)) as (k & Hk & Hr & Hmin); [split; [apply Z.div_pos|]; lia|].
    unfold EPOCH_LENGTH in Hk. exists (block + Z.of_nat k). split; [|split; [unfold EPOCH_LENGTH; lia|split; [done|]]].
    + apply (rotation_go (validator_size / 2)); [done|done|unfold EPOCH_LENGTH in Hm; lia|lia|done|done].
    + intros n Hn. replace n with (block + Z.of_nat (Z.to_nat (n - block))) by lia. apply Hmin. lia.
  - intros fuel. clear Hm. revert block Hb. induction fuel as [|fuel IH]; intros block Hb; [done|]. cbn [rotation_block_go].
    pose proof (Z.mod_pos_bound block EPOCH_LENGTH eq_refl). destruct (Z.eqb_spec (block mod EPOCH_LENGTH) (validator_size / 2)); [lia|].
    apply IH. unfold wrap64. apply Z.mod_pos_bound. lia.
Qed.

Section bsc.
Context `{Keccak256} `{!RollupLib} `{!Bls, !BscLib} {W : Type} (node : BscNode W) (C : BscConfig).
Variables (chain : Z -> CodecHeader) (first top : Z).

(** A chain of headers that the node knows. *)
Record serves_headers : Prop := {
  sh_range : 0 <= first /\ top < 2 ^ 64;
  sh_number n : first <= n <= top -> low_u64 (ch_number (chain n)) = n;
  sh_parent n : first <= n < top -> ch_parent_hash (chain (n + 1)) = hash_of (chain n);
  sh_block n : first <= n <= top -> gives (sn_block_by_hash node (hash_of (chain n))) (Some (chain n))
}.

Context (S : serves_headers).

Lemma found_given (m : Net W (option CodecHeader)) h : gives m (Some h) -> gives (found m) h.
Proof. intros Hm. unfold found. answer Hm. apply gives_ret. Qed.

Lemma header_ancestry_given fuel e n acc : first <= e <= n -> n <= top -> (Z.to_nat (n - e) < fuel)%nat ->
  gives (header_ancestry node fuel e (chain n) acc) ((chain <$> heights e (n - 1)) ++ acc).
Proof.
  revert n acc; induction fuel as [|fuel IH]; intros n acc He Hn Hf; [lia|]. cbn [header_ancestry].
  rewrite (sh_number S) by lia. destruct (Z.ltb_spec e n) as [Hlt|Hge].
  - eapply gives_try; [apply (found_given _ (chain (n - 1)))|].
    { replace n with (n - 1 + 1) at 1 by lia. rewrite (sh_parent S) by lia. apply (sh_block S). lia. }
    pose proof (IH (n - 1) (chain (n - 1) :: acc) ltac:(lia) ltac:(lia) ltac:(lia)) as Hi.
    rewrite heights_last, fmap_app, <- app_assoc by lia. exact Hi.
  - replace n with e by lia. unfold heights. rewrite seqZ_nil by lia. apply gives_ret.
Qed.

Lemma check_ancestry_chain e n : first <= e <= n -> n <= top ->
  check_ancestry (hash_of (chain e)) (chain <$> heights (e + 1) n) = Some (Ok (hash_of (chain n))).
Proof.
  intros He Hn. remember (Z.to_nat (n - e)) as k eqn:Hk. revert e He Hk. induction k as [|k IH]; intros e He Hk.
  - replace e with n by lia. unfold heights. by rewrite seqZ_nil by lia.
  - unfold heights. rewrite seqZ_cons by lia. cbn [fmap list_fmap]. unfold check_ancestry. cbn [vfold].
    rewrite (sh_parent S) by lia. rewrite bool_decide_true by done. vrun.
    pose proof (IH (e + 1) ltac:(lia) ltac:(lia)) as Hi. unfold check_ancestry, heights in Hi.
    by replace (Z.pred (n - (e + 1) + 1)) with (n - (e + 1 + 1) + 1) by lia.
Qed.

(** The prover adds the headers down to the one of the epoch: in the blocks before the rotation, or
    when it is told to, and if the finalised block comes after that header. *)
Definition with_ancestry (attested s e rotation : Z) (force : bool) : bool :=
  ((wrap64 (e + 2) <=? attested) && (attested <=? wrap64 (rotation - 1)) && (e <? s)) || (force && (e <? s)).

Definition ancestry_of (attested s e rotation : Z) (force : bool) : list CodecHeader :=
  if with_ancestry attested s e rotation force then chain <$> heights e (s - 1) else [].

Lemma fetch_bsc_update_given fuel attested extra validator_size epoch force s t :
  parse_extra C attested = Some (Ok extra) ->
  vd_source_hash (ed_vote_data extra) = hash_of (chain s) -> vd_target_hash (ed_vote_data extra) = hash_of (chain t) ->
  hash_of (chain s) <> H256_zero -> hash_of (chain t) <> H256_zero ->
  first <= s <= top -> first <= t <= top -> first <= epoch * EPOCH_LENGTH -> s - epoch * EPOCH_LENGTH <= 200 ->
  epoch * EPOCH_LENGTH + EPOCH_LENGTH <= 2 ^ 64 -> 0 <= validator_size / 2 < EPOCH_LENGTH -> (200 <= fuel)%nat ->
  exists rotation, get_rotation_block (epoch * EPOCH_LENGTH) validator_size = Some rotation /\
    gives (fetch_bsc_update node C fuel attested validator_size epoch force)
      (Some (mkBscClientUpdate (chain s) (chain t) attested
        (ancestry_of (low_u64 (ch_number attested)) s (epoch * EPOCH_LENGTH) rotation force))).
Proof.
  intros Hx Hsh Hth Hns Hnt Hs Ht He Hlen Hmax Hv Hfuel. destruct (sh_range S) as [Hf0 Htop].
  assert (Hrot : exists rotation, get_rotation_block (epoch * EPOCH_LENGTH) validator_size = Some rotation).
  { pose proof (rotation_block_found (epoch * EPOCH_LENGTH) validator_size ltac:(lia) Hmax) as Hr.
    rewrite (proj2 (Z.ltb_lt _ _)) in Hr by lia. destruct Hr as (r & Hr & _); [|by exists r].
    pose proof (Z.mul_div_le validator_size 2). pose proof (Z.mod_pos_bound validator_size 2). lia. }
  destruct Hrot as (rotation & Hrot). exists rotation. split; [done|].
  unfold fetch_bsc_update, parsed_extra. eapply gives_try; [eapply gives_panic; [exact Hx|apply gives_ret]|].
  rewrite Hsh, Hth, !bool_decide_false by done. cbn [orb].
  eapply gives_try; [apply found_given, (sh_block S); lia|]. eapply gives_try; [apply found_given, (sh_block S); lia|].
  assert (Ew : wrap64 (epoch * EPOCH_LENGTH) = epoch * EPOCH_LENGTH) by (unfold wrap64, EPOCH_LENGTH in *; apply Z.mod_small; lia).
  cbv zeta. rewrite !Ew. eapply gives_panic; [exact Hrot|]. rewrite (sh_number S) by lia.
  set (e := epoch * EPOCH_LENGTH) in *. unfold ancestry_of, with_ancestry.
  eapply gives_try; [|].
  { instantiate (1 := ancestry_of (low_u64 (ch_number attested)) s e rotation force). unfold ancestry_of, with_ancestry.
    destruct (_ || _) eqn:Ec; [|apply gives_ret].
    assert (e < s) by (apply orb_true_iff in Ec as [Ec|Ec]; apply andb_true_iff in Ec as [_ Ec]; lia).
    eapply gives_try; [apply (found_given _ (chain (s - 1)))|].
    { replace s with (s - 1 + 1) at 1 by lia. rewrite (sh_parent S) by lia. apply (sh_block S). lia. }
    rewrite heights_last, fmap_app by lia. apply header_ancestry_given; lia. }
  destruct (Nat.ltb_spec MAX_ANCESTRY (length (ancestry_of (low_u64 (ch_number attested)) s e rotation force))) as [Hl|_]; [|apply gives_ret].
  exfalso. revert Hl. unfold ancestry_of, MAX_ANCESTRY. destruct (with_ancestry _ _ _ _ _); cbn; [|lia].
  rewrite length_fmap. unfold heights. rewrite length_seqZ. lia.
Qed.

(** The header that names the validators of the next epoch, if the update has one. *)
Definition epoch_header_of (attested s e rotation : Z) (force : bool) : option CodecHeader :=
  if with_ancestry attested s e rotation force then Some (chain e)
  else if s mod EPOCH_LENGTH =? 0 then Some (chain s) else None.

Definition next_of (validators : list bytes) (epoch_header : option CodecHeader) (next : option NextValidators) : Prop :=
  match epoch_header with
  | Some h => exists n, validators_of_epoch C validators h = Some (Ok n) /\ next = Some n
  | None => next = None
  end.

Lemma next_of_update validators attested_header t attested s e rotation force next : first <= e -> first <= s <= top ->
  next_of validators (epoch_header_of attested s e rotation force) next ->
  next_validator_addresses C validators
    (mkBscClientUpdate (chain s) (chain t) attested_header (ancestry_of attested s e rotation force)) = Some (Ok next).
Proof.
  intros He Hs Hn. unfold next_validator_addresses, ancestry_of, epoch_header_of in *. cbn [bu_epoch_header_ancestry bu_source_header].
  destruct (with_ancestry _ _ _ _ _) eqn:Ec.
  - assert (e < s) by (apply orb_true_iff in Ec as [Ec|Ec]; apply andb_true_iff in Ec as [_ Ec]; lia).
    destruct Hn as (n & Hn & ->). unfold heights. rewrite seqZ_cons by lia. cbn [fmap list_fmap].
    pose proof (check_ancestry_chain e (s - 1) ltac:(lia) ltac:(lia)) as Hc. unfold heights in Hc.
    replace (Z.pred (s - 1 - e + 1)) with (s - 1 - (e + 1) + 1) by lia. change (Z.succ e) with (e + 1). rewrite Hc. vrun.
    replace (ch_parent_hash (chain s)) with (hash_of (chain (s - 1))).
    2:{ rewrite <- (sh_parent S) by lia. do 2 f_equal. lia. }
    rewrite bool_decide_true by done. vrun. by rewrite Hn.
  - rewrite (sh_number S) by lia. destruct (s mod EPOCH_LENGTH =? 0); cbn in Hn; [|by subst].
    destruct Hn as (n & Hn & ->). by rewrite Hn.
Qed.

(** The attested header has the votes of enough of the validators under a valid signature. *)
Definition voted (validators : list bytes) (extra : ExtraData) : Prop := exists bits key,
  bitvector_64 (reverse (to_be_bytes 8 (ed_vote_address_set extra))) = Some bits /\
  2 * Z.of_nat (length validators) / 3 <= count_ones bits /\
  bls_public_key (aggregate_public_keys (participants validators bits)) = Some key /\
  bsc_verify_aggregate_signature key (keccak256 (rlp_encode_vote_data (ed_vote_data extra))) (ed_agg_signature extra) = Ok tt.

(** C26: what the BSC prover produces from an honest node is accepted. The attested header votes for
    two blocks of a chain whose headers the node has. Then the prover returns an update; if enough
    of the current validators have voted under a valid signature, the verifier accepts it and
    reports the finalised block, and the validators of the next epoch: those in the header of the
    epoch in the blocks before the rotation, or when the prover was told to add it, those in the
    finalised header when it starts an epoch, and none otherwise. *)
Theorem bsc_prover_accepted fuel attested extra validator_size epoch force s t :
  parse_extra C attested = Some (Ok extra) ->
  vd_source_hash (ed_vote_data extra) = hash_of (chain s) -> vd_target_hash (ed_vote_data extra) = hash_of (chain t) ->
  hash_of (chain s) <> H256_zero -> hash_of (chain t) <> H256_zero ->
  first <= s <= top -> first <= t <= top -> first <= epoch * EPOCH_LENGTH -> s - epoch * EPOCH_LENGTH <= 200 ->
  epoch * EPOCH_LENGTH + EPOCH_LENGTH <= 2 ^ 64 -> 0 <= validator_size / 2 < EPOCH_LENGTH -> (200 <= fuel)%nat ->
  exists rotation update, get_rotation_block (epoch * EPOCH_LENGTH) validator_size = Some rotation /\
    gives (fetch_bsc_update node C fuel attested validator_size epoch force) (Some update) /\
    forall validators next, voted validators extra ->
      next_of validators (epoch_header_of (low_u64 (ch_number attested)) s (epoch * EPOCH_LENGTH) rotation force) next ->
      verify_bsc_header C validators update = Some (Ok (mkVerificationResult (hash_of (chain s)) (chain s) next)).
Proof.
  intros Hx Hsh Hth Hns Hnt Hs Ht He Hlen Hmax Hv Hfuel.
  destruct (fetch_bsc_update_given fuel attested extra validator_size epoch force s t) as (rotation & Hr & Hg); try done.
  do 2 eexists. split; [exact Hr|]. split; [exact Hg|]. intros validators next (bits & key & Hb & Hq & Hk & Hsig) Hn.
  unfold verify_bsc_header. cbn [bu_attested_header bu_source_header bu_target_header]. rewrite Hx. vrun. cbn [map_err]. vrun.
  rewrite Hsh, Hth, !(bool_decide_false (_ = H256_zero)) by done. vrun. rewrite Hb. vrun.
  destruct (Z.ltb_spec (count_ones bits) (2 * Z.of_nat (length validators) / 3)); [lia|]. vrun.
  rewrite !bool_decide_true by done. vrun. rewrite Hk. vrun. rewrite Hsig. cbn [map_err]. vrun.
  by rewrite (next_of_update validators attested t _ s _ rotation force next He Hs Hn).
Qed.

End bsc.

(** ** The beacon chain *)

(** The networks the crates are instantiated with. *)
Definition networks : list BeaconConfig := [Sepolia; Mainnet; GnosisMainnet; GnosisTestnet; Devnet].

(** The generalised indices of the third, seventh and tenth of the 17 fields of a payload
    header, the leaves of a tree with 32: [state_root], [block_number] and [timestamp]. *)
Definition payload_indices : list Z := [32 + 2; 32 + 6; 32 + 9].

Lemma network_indices C : C ∈ networks ->
  [EXECUTION_PAYLOAD_STATE_ROOT_INDEX C; EXECUTION_PAYLOAD_BLOCK_NUMBER_INDEX C; EXECUTION_PAYLOAD_TIMESTAMP_INDEX C]
  = payload_indices.
Proof. intros HC. repeat (apply elem_of_cons in HC as [->|HC]; [reflexivity|]). by apply elem_of_nil in HC. Qed.

(** What is documented of SSZ proofs: they verify against the root of what they are taken from,
    for the fields of these containers. *)
Class SszProverLaws `{!Ssz, !SszProver} : Prop := {
  finalized_proved st r : root_of_state st = Some r -> exists b c,
    prove_state st [FINALIZED_ROOT_INDEX] = Some b /\ Z.of_nat (length b) = FINALIZED_ROOT_INDEX_LOG2 /\
    root_of_checkpoint (st_finalized_checkpoint st) = Some c /\
    is_valid_merkle_branch c b FINALIZED_ROOT_INDEX_LOG2 FINALIZED_ROOT_INDEX r = true;
  committee_proved st r : root_of_state st = Some r -> exists b c,
    prove_state st [NEXT_SYNC_COMMITTEE_INDEX] = Some b /\ root_of_committee (st_next_sync_committee st) = Some c /\
    is_valid_merkle_branch c b NEXT_SYNC_COMMITTEE_INDEX_LOG2 NEXT_SYNC_COMMITTEE_INDEX r = true;
  payload_proved st r : root_of_state st = Some r -> exists b p,
    prove_state st [EXECUTION_PAYLOAD_INDEX] = Some b /\ root_of_payload (st_latest_execution_payload_header st) = Some p /\
    is_valid_merkle_branch p b EXECUTION_PAYLOAD_INDEX_LOG2 EXECUTION_PAYLOAD_INDEX r = true;
  payload_fields payload p : root_of_payload payload = Some p -> exists multi n t,
    prove_payload payload payload_indices = Some multi /\
    root_of_u64 (xh_block_number payload) = Some n /\ root_of_u64 (xh_timestamp payload) = Some t /\
    calculate_multi_merkle_root [xh_state_root payload; n; t] multi payload_indices = Some p
}.

Section beacon.
Context `{!Hex, !Ssz, !SszProver, !SszProverLaws, !UrlLib, !Bls} {W : Type} (primary_url : bytes) (node : BeaconNode W).
Variables (C : BeaconConfig) (headers : Root -> option BeaconBlockHeader) (blocks : Root -> option BeaconBlock)
  (states : Root -> option BeaconState) (client : VerifierState).

(** The node answers from a chain: headers and states are those of their roots, and blocks agree
    with their headers. *)
Record serves_beacon : Prop := {
  sb_header r h : headers r = Some h ->
    gives (fetch_header primary_url node (get_block_id r)) h /\ root_of_header h = Some r;
  sb_block r b : blocks r = Some b -> gives (fetch_block primary_url node (get_block_id r)) b /\
    exists h, headers r = Some h /\ bh_slot h = blk_slot b /\ bh_state_root h = blk_state_root b;
  sb_state r st : states r = Some st ->
    gives (fetch_beacon_state primary_url node (get_block_id r)) st /\ root_of_state st = Some r;
  sb_checkpoint r st : states r = Some st -> exists checkpoints,
    gives (fetch_finalized_checkpoint primary_url node (Some (get_block_id r))) checkpoints /\
    fc_finalized checkpoints = st_finalized_checkpoint st
}.

(** The parent of a block and its state, which has finalised something new to the client. *)
Definition news (b p : BeaconBlock) (ps : BeaconState) : Prop :=
  blocks (blk_parent_root b) = Some p /\ states (blk_state_root p) = Some ps /\
  vs_latest_finalized_epoch client < cp_epoch (st_finalized_checkpoint ps).

Definition period_of (b : BeaconBlock) : Z := compute_sync_committee_period_at_slot C (blk_slot b).

(** Enough members have signed, in a period that the client can verify. *)
Definition suitable (b : BeaconBlock) : bool :=
  (min_signatures <=? num_signatures b) &&
  ((vs_state_period client <=? period_of b) && (period_of b <=? wrap64 (vs_state_period client + 1))).

(** From [b], the first suitable block on the way to the parents is [b'], the [n]-th. *)
Inductive search : nat -> BeaconBlock -> BeaconBlock -> Prop :=
| search_here b p ps : news b p ps -> suitable b = true -> search 1 b b
| search_parent n b p ps b' : news b p ps -> suitable b = false -> search n p b' -> search (S n) b b'.

Lemma search_end n b b' : search n b b' -> suitable b' = true /\ exists p ps, news b' p ps.
Proof. induction 1; eauto. Qed.

Context (HC : C ∈ networks) (N : serves_beacon).

Lemma find_signature_block_given n b b' fuel : search n b b' -> (n <= fuel)%nat ->
  gives (find_signature_block primary_url node C fuel client b) (Some b').
Proof.
  intros Hs. revert fuel. induction Hs as [b p ps (Hp & Hps & Hnew) Hsuit|n b p ps b' (Hp & Hps & Hnew) Hsuit _ IH]; intros fuel Hf;
    (destruct fuel as [|fuel]; [lia|]); cbn [find_signature_block]; destruct (sb_block N _ _ Hp) as [Hb _];
    destruct (sb_checkpoint N _ _ Hps) as (cps & Hc & Ec); answer Hb; answer Hc; cbv zeta; rewrite Ec;
    rewrite (proj2 (Z.leb_gt _ _)), (proj2 (Z.ltb_lt _ _)), andb_true_r by lia; unfold suitable, period_of in Hsuit; rewrite Hsuit.
  - apply gives_ret.
  - apply IH. lia.
Qed.

(** What an update is made from: the block with the signatures, its parent with the state behind
    it, and what that state has finalised. *)
Record update_parts : Type := mkUpdateParts {
  up_block : BeaconBlock;
  up_attested : BeaconBlockHeader;
  up_attested_state : BeaconState;
  up_finalized : BeaconBlockHeader;
  up_finalized_state : BeaconState
}.

Record on_chain (u : update_parts) : Prop := {
  oc_attested : headers (blk_parent_root (up_block u)) = Some (up_attested u);
  oc_attested_state : states (bh_state_root (up_attested u)) = Some (up_attested_state u);
  oc_finality : cp_root (st_finalized_checkpoint (up_attested_state u)) <> no_root;
  oc_finalized : headers (cp_root (st_finalized_checkpoint (up_attested_state u))) = Some (up_finalized u);
  oc_finalized_state : states (bh_state_root (up_finalized u)) = Some (up_finalized_state u);
  oc_slots : bh_slot (up_finalized u) < bh_slot (up_attested u) < blk_slot (up_block u)
}.

(** The client's next committee is the current one of the attested state. *)
Definition committees_meet (u : update_parts) : Prop :=
  root_of_committee (vs_next_sync_committee client) = root_of_committee (st_current_sync_committee (up_attested_state u)).

#[local] Instance committees_meet_dec u : Decision (committees_meet u) := decide_rel (=) _ _.

(** What the verifier has to say about the update. *)
Definition outcome (u : update_parts) : result SyncError VerifierState :=
  let epoch := cp_epoch (st_finalized_checkpoint (up_attested_state u)) in
  if period_of (up_block u) =? vs_state_period client then
    Ok (mkVerifierState (up_finalized u) epoch (vs_current_sync_committee client) (vs_next_sync_committee client)
      (vs_state_period client))
  else if bool_decide (committees_meet u) then
    Ok (mkVerifierState (up_finalized u) epoch (vs_next_sync_committee client) (st_next_sync_committee (up_attested_state u))
      (vs_state_period client + 1))
  else Err (InvalidUpdate (lit "Expected sync committee update to be present")).

(** The members of the committee that the client expects have signed the attested header. *)
Definition signed (u : update_parts) : Prop :=
  let committee := if period_of (up_block u) =? vs_state_period client then vs_current_sync_committee client
                   else vs_next_sync_committee client in
  let aggregate := bb_sync_aggregate (blk_body (up_block u)) in
  Z.of_nat (length (sa_sync_committee_bits aggregate)) = SYNC_COMMITTEE_SIZE /\
  exists domain root,
    compute_domain DomainSyncCommittee (Some (compute_fork_version C (compute_epoch_at_slot C (blk_slot (up_block u)))))
      (Some (GENESIS_VALIDATORS_ROOT C)) (GENESIS_FORK_VERSION C) = Some domain /\
    compute_signing_root (up_attested u) domain = Some root /\
    verify_aggregate_signature (sc_aggregate_public_key committee)
      (non_participants (sa_sync_committee_bits aggregate) (sc_public_keys committee)) root
      (sa_sync_committee_signature aggregate) = Ok tt.

Definition attaches (u : update_parts) : bool :=
  should_have_sync_committee_update (vs_state_period client) (period_of (up_block u)) && bool_decide (committees_meet u).

Lemma checkpoint_eta (c : Checkpoint) : mkCheckpoint (cp_epoch c) (cp_root c) = c.
Proof. by destruct c. Qed.

(** Proofs that the verifier accepts for what the update contains. *)
Record proofs_hold (u : update_parts) (branch : list Root) (payload : ExecutionPayloadProof) (next_branch : list Root) : Prop := {
  ph_length : Z.of_nat (length branch) = FINALIZED_ROOT_INDEX_LOG2;
  ph_finality : exists c, root_of_checkpoint (st_finalized_checkpoint (up_attested_state u)) = Some c /\
    is_valid_merkle_branch c branch FINALIZED_ROOT_INDEX_LOG2 FINALIZED_ROOT_INDEX (bh_state_root (up_attested u)) = true;
  ph_payload : exists p n t, root_of_u64 (ep_block_number payload) = Some n /\ root_of_u64 (ep_timestamp payload) = Some t /\
    calculate_multi_merkle_root [ep_state_root payload; n; t] (ep_multi_proof payload)
      [EXECUTION_PAYLOAD_STATE_ROOT_INDEX C; EXECUTION_PAYLOAD_BLOCK_NUMBER_INDEX C; EXECUTION_PAYLOAD_TIMESTAMP_INDEX C] = Some p /\
    is_valid_merkle_branch p (ep_execution_payload_branch payload) EXECUTION_PAYLOAD_INDEX_LOG2 EXECUTION_PAYLOAD_INDEX
      (bh_state_root (up_finalized u)) = true;
  ph_committee : exists c, root_of_committee (st_next_sync_committee (up_attested_state u)) = Some c /\
    is_valid_merkle_branch c next_branch NEXT_SYNC_COMMITTEE_INDEX_LOG2 NEXT_SYNC_COMMITTEE_INDEX (bh_state_root (up_attested u)) = true
}.

Definition the_update (u : update_parts) (branch : list Root) (payload : ExecutionPayloadProof) (next_branch : list Root) : VerifierStateUpdate :=
  mkVerifierStateUpdate (up_attested u)
    (if attaches u then Some (mkSyncCommitteeUpdate (st_next_sync_committee (up_attested_state u)) next_branch) else None)
    (up_finalized u) payload (mkFinalityBranch (cp_epoch (st_finalized_checkpoint (up_attested_state u))) branch)
    (bb_sync_aggregate (blk_body (up_block u))) (blk_slot (up_block u)).

Lemma finalized_given u : on_chain u -> exists branch payload next_branch,
  gives (finalized_by primary_url node C (up_attested_state u))
    (up_finalized u, mkFinalityBranch (cp_epoch (st_finalized_checkpoint (up_attested_state u))) branch, payload) /\
  committee_update (up_attested_state u) = Ok (mkSyncCommitteeUpdate (st_next_sync_committee (up_attested_state u)) next_branch) /\
  proofs_hold u branch payload next_branch.
Proof.
  intros O. destruct (sb_state N _ _ (oc_attested_state u O)) as [_ Ra]. destruct (sb_state N _ _ (oc_finalized_state u O)) as [Gf Rf].
  destruct (sb_header N _ _ (oc_finalized u O)) as [Gh _].
  destruct (finalized_proved _ _ Ra) as (branch & c & Hb & Hlen & Hc & Hv). destruct (payload_proved _ _ Rf) as (xb & xp & Hxb & Hxp & Hxv).
  destruct (payload_fields _ _ Hxp) as (multi & n & t & Hm & Hn & Ht & Hr). rewrite <- (network_indices C HC) in Hm, Hr. destruct (committee_proved _ _ Ra) as (nb & nc & Hnb & Hnc & Hnv).
  do 3 eexists. split; [|split; [|split; [exact Hlen|by exists c| |by exists nc]]].
  - unfold finalized_by. answer Gh. answer Gf. unfold prove_finalized_header. known Hb.
    unfold prove_execution_payload. rewrite Hm, Hxb. eapply gives_try; apply gives_ret.
  - unfold committee_update, prove_sync_committee_update. by rewrite Hnb.
  - cbn. eauto 10.
Qed.

Lemma update_from_given u nr cr : on_chain u -> root_of_committee (vs_next_sync_committee client) = Some nr ->
  root_of_committee (st_current_sync_committee (up_attested_state u)) = Some cr ->
  exists branch payload next_branch, proofs_hold u branch payload next_branch /\
    gives (update_from primary_url node C client (up_block u)) (Some (the_update u branch payload next_branch)).
Proof.
  intros O Hn Hc. destruct (finalized_given u O) as (branch & payload & nb & Hf & Hu & Hp). exists branch, payload, nb. split; [done|].
  unfold update_from, attested_by. eapply gives_try.
  { answer (proj1 (sb_header N _ _ (oc_attested u O))). answer (proj1 (sb_state N _ _ (oc_attested_state u O))). apply gives_ret. }
  cbv beta iota. rewrite bool_decide_false by apply (oc_finality u O). answer Hf. cbv beta iota zeta. rewrite Hn, Hc.
  eapply gives_try; [apply gives_ret|]. eapply gives_try; [apply gives_ret|].
  assert (Ha : attaches u = should_have_sync_committee_update (vs_state_period client) (period_of (up_block u)) && bool_decide (nr = cr)).
  { unfold attaches, committees_meet. f_equal. apply bool_decide_ext. rewrite Hn, Hc. naive_solver. }
  unfold the_update. rewrite Ha. unfold period_of. destruct (_ && _); [rewrite Hu|]; eapply gives_try; apply gives_ret.
Qed.

(** The verifier on such an update. *)
Lemma the_update_verified u branch payload nb : on_chain u -> suitable (up_block u) = true -> signed u ->
  0 <= vs_state_period client < u64_max -> bh_slot (vs_finalized_header client) < bh_slot (up_attested u) ->
  vs_latest_finalized_epoch client < cp_epoch (st_finalized_checkpoint (up_attested_state u)) -> proofs_hold u branch payload nb ->
  verify_sync_committee_attestation C client (the_update u branch payload nb) = Some (outcome u).
Proof.
  intros O Hs (Hbits & domain & sr & Hd & Hsr & Hsig) Hper Hslot Hep [Hl (c & Hc & Hcv) (xp & n & t & Hn & Ht & Hr & Hxv) (nc & Hnc & Hnv)].
  apply andb_true_iff in Hs as [Hnum Hp]. unfold u64_max in Hper.
  assert (Ew : wrap64 (vs_state_period client + 1) = vs_state_period client + 1) by (apply Z.mod_small; lia).
  destruct (sb_header N _ _ (oc_finalized u O)) as [_ Hfr]. pose proof (oc_slots u O) as Hsl.
  unfold verify_sync_committee_attestation, the_update. cbn [vu_finality_proof vu_attested_header vu_sync_committee_update vu_finalized_header
    vu_execution_payload vu_sync_aggregate vu_signature_slot fb_finality_branch fb_epoch]. cbv zeta.
  rewrite Hl, Z.eqb_refl. vrun.
  rewrite Hbits. unfold num_signatures, min_signatures in Hnum. rewrite (proj2 (Z.ltb_ge _ _)) by lia. vrun.
  rewrite !(proj2 (Z.ltb_lt _ _)) by lia. vrun. fold (period_of (up_block u)). rewrite Hp. vrun.
  rewrite (proj2 (Z.leb_gt (bh_slot (up_attested u)) _)), (proj2 (Z.leb_gt (cp_epoch _) _)) by lia. vrun.
  rewrite Hd. vrun. rewrite Hsr. vrun. rewrite Hsig. cbn [map_err]. vrun. rewrite Hfr. vrun. rewrite checkpoint_eta, Hc. vrun.
  rewrite Hcv. vrun. rewrite Hn. vrun. rewrite Ht. vrun. rewrite Hr. vrun. rewrite Hxv. vrun.
  unfold outcome, attaches, should_have_sync_committee_update. rewrite Ew. destruct (Z.eqb_spec (period_of (up_block u)) (vs_state_period client)) as [E|E].
  - rewrite (proj2 (Z.eqb_neq _ (vs_state_period client + 1))) by lia. done.
  - assert (E' : period_of (up_block u) = vs_state_period client + 1) by lia. rewrite E', Z.eqb_refl. cbn [andb].
    destruct (bool_decide _); [|done]. cbn [cu_next_sync_committee cu_next_sync_committee_branch]. rewrite Hnc. vrun. by rewrite Hnv.
Qed.

(** C25: what the prover of the beacon chain produces from an honest node of one of the networks of
    [constants.rs], and what becomes of it. The node answers from a chain on which, going up from its head, a block with enough signatures
    is found, whose parent has finalised something that is new to the client. Then the prover
    returns an update made from the first such block, and if the expected committee has signed it,
    the verifier advances the client to the finalised header, with its committees unless the
    period has changed. When it has, the update is accepted, and the committees move on, if the
    attested state is of the new period too; and refused if it is still of the old one, which the
    prover does not avoid. *)
Theorem beacon_prover_accepted fuel checkpoint latest_block_id head_header head_root head n u nr cr :
  cp_root checkpoint <> no_root -> vs_latest_finalized_epoch client < cp_epoch checkpoint ->
  gives (fetch_header primary_url node (default (lit "head") latest_block_id)) head_header ->
  root_of_header head_header = Some head_root -> blocks head_root = Some head ->
  search n head (up_block u) -> (n <= fuel)%nat -> on_chain u ->
  root_of_committee (vs_next_sync_committee client) = Some nr ->
  root_of_committee (st_current_sync_committee (up_attested_state u)) = Some cr ->
  exists update,
    gives (fetch_light_client_update primary_url node C fuel client checkpoint latest_block_id) (Some update) /\
    (signed u -> 0 <= vs_state_period client < u64_max -> bh_slot (vs_finalized_header client) < bh_slot (up_attested u) ->
     verify_sync_committee_attestation C client update = Some (outcome u)).
Proof.
  intros Hroot Hnew Hh Hr Hb Hs Hf O Hn Hc. destruct (update_from_given u nr cr O Hn Hc) as (branch & payload & nb & Hp & Hu).
  exists (the_update u branch payload nb). split.
  - unfold fetch_light_client_update. rewrite bool_decide_false by done. rewrite (proj2 (Z.leb_gt _ _)) by lia. cbn [orb].
    answer Hh. unfold root_or. known Hr. answer (proj1 (sb_block N _ _ Hb)).
    answer (find_signature_block_given n head (up_block u) fuel Hs Hf). exact Hu.
  - destruct (search_end _ _ _ Hs) as [Hsuit (p & ps & Hpp & Hps & Hep)]. intros Hsig Hper Hslot. apply the_update_verified; try done.
    destruct (sb_block N _ _ Hpp) as [_ (h & Hh' & _ & Est)]. rewrite (oc_attested u O) in Hh'. injection Hh' as <-.
    pose proof (oc_attested_state u O) as Ha. rewrite Est, Hps in Ha. by injection Ha as <-.
Qed.

End beacon.

(** ** Switching nodes *)

(** No occurrence of [pattern] in [text] starts within [part], its beginning. *)
Definition free_of (pattern part rest : bytes) : Prop :=
  forall a b, part = a ++ b -> b <> [] -> ~ pattern `prefix_of` b ++ rest.

Lemma free_of_cons pattern c part rest : free_of pattern (c :: part) rest -> ~ pattern `prefix_of` (c :: part) ++ rest /\ free_of pattern part rest.
Proof. intros Hf. split; [by apply (Hf [])|]. intros a b -> Hb. by apply (Hf (c :: a)). Qed.

Lemma split_free pattern part rest acc : free_of pattern part rest ->
  split_inclusive_go pattern acc 0 (part ++ rest) = split_inclusive_go pattern (reverse part ++ acc) 0 rest.
Proof.
  revert acc; induction part as [|c part IH]; intros acc Hf; [done|]. apply free_of_cons in Hf as [Hp Hf].
  cbn [app split_inclusive_go]. rewrite bool_decide_false by done. cbv beta iota zeta. rewrite (IH (c :: acc) Hf).
  by rewrite reverse_cons, <- app_assoc.
Qed.

Lemma split_path provider path : path <> [] -> free_of (lit "/eth") provider (lit "/eth" ++ path) -> free_of (lit "/eth") path [] ->
  split_inclusive (lit "/eth") (provider ++ lit "/eth" ++ path) = [provider ++ lit "/eth"; path].
Proof.
  intros Hne Hp Hpath. unfold split_inclusive. rewrite split_free by done. rewrite app_nil_r.
  change (lit "/eth" ++ path) with (Byte.x2f :: Byte.x65 :: Byte.x74 :: Byte.x68 :: path). cbn [split_inclusive_go].
  rewrite bool_decide_true by (by exists path). change (length (lit "/eth")) with 4%nat. cbv beta iota zeta.
  f_equal; [rewrite !reverse_cons, reverse_involutive, <- !app_assoc; done|].
  replace path with (path ++ []) at 1 by apply app_nil_r. rewrite split_free by done. cbn [split_inclusive_go].
  rewrite app_nil_r. destruct (reverse path) eqn:E; [|by rewrite <- E, reverse_involutive].
  destruct Hne. by apply (f_equal reverse) in E; rewrite reverse_involutive in E.
Qed.

Section switching.
Context `{!UrlLib} {R : Type} (status_of : R -> Z) (providers : list bytes) (path : bytes) (send : bytes -> result AnyError R).

Definition resource (provider : bytes) : bytes := provider ++ lit "/eth" ++ path.

(** The urls of the providers are valid, and [/eth] occurs in them once. *)
Definition plain_urls : Prop := path <> [] /\ free_of (lit "/eth") path [] /\
  forall p, p ∈ providers -> url_parse (resource p) = Some (resource p) /\ free_of (lit "/eth") p (lit "/eth" ++ path).

(** A request is sent as long as [chain] asks for it. *)
Fixpoint attempts (n : nat) (state : LocalState) (url : bytes) : V AnyError R :=
  match n with
  | O => None
  | S n =>
      let! (answer, state, url) := chain status_of providers (send url) state url in
      match answer with Some response => vret response | None => attempts n state url end
  end.

Definition answer_of (p : bytes) : option Z := status_of <$> ok (send (resource p)).

Context (P : plain_urls).

Lemma url_at_resource p q : p ∈ providers -> q ∈ providers -> url_at p (resource q) = Ok (resource p).
Proof.
  destruct P as (Hne & Hf & Hu). intros Hp Hq. unfold url_at. unfold resource at 1. rewrite split_path; [|done|by apply Hu|done].
  cbn [lookup list_lookup]. fold (resource p). by rewrite (proj1 (Hu p Hp)).
Qed.

(** A failed attempt leads to the next provider, or fails for good. *)
Lemma next_attempt i p stats n (not_ok : answer_of p <> Some HTTP_OK) : providers !! i = Some p ->
  let stats' := <[i := answer_of p]> stats in
  let exhausted := (length providers <=? S i)%nat in
  let next := if exhausted then O else S i in
  attempts (S n) (mkLocalState i stats) (resource p) =
    if exhausted && bool_decide (map_Forall (fun _ s => s = Some HTTP_NOT_FOUND) stats')
    then Some (Err (AnyMessage (lit "All providers returned 404 Not Found")))
    else match providers !! next with
         | Some q => attempts n (mkLocalState next stats') (resource q)
         | None => None
         end.
Proof.
  intros Hp stats' exhausted next. assert (Hn : next_state providers (mkLocalState i stats) (resource p) (answer_of p) =
    if exhausted && bool_decide (map_Forall (fun _ s => s = Some HTTP_NOT_FOUND) stats')
    then Some (Err (AnyMessage (lit "All providers returned 404 Not Found")))
    else match providers !! next with Some q => Some (Ok (mkLocalState next stats', resource q)) | None => None end).
  { unfold next_state. cbn [active_url_index prev_stat]. fold stats' exhausted. unfold vguard. destruct (_ && _); [done|].
    cbn [vtry]. fold next. destruct (providers !! next) as [q|] eqn:Eq; [|done]. cbn [vget].
    rewrite url_at_resource by (by eapply list_elem_of_lookup_2). done. }
  cbn [attempts]. unfold chain, answer_of in *. destruct (send (resource p)) as [r|e]; cbn in *.
  - destruct (Z.eqb_spec (status_of r) HTTP_OK) as [E|_]; [by rewrite E in not_ok|]. rewrite Hn. destruct (_ && _); [done|].
    by destruct (providers !! next).
  - rewrite Hn. destruct (_ && _); [done|]. by destruct (providers !! next).
Qed.

Definition start : LocalState := mkLocalState 0 ∅.

(** The providers before the [k]-th have been tried. *)
Lemma first_round k : (k < length providers)%nat -> (forall i p, (i < k)%nat -> providers !! i = Some p -> answer_of p <> Some HTTP_OK) ->
  exists stats p0 pk, providers !! 0%nat = Some p0 /\ providers !! k = Some pk /\
    (forall i s, stats !! i = Some s <-> (i < k)%nat /\ exists p, providers !! i = Some p /\ s = answer_of p) /\
    forall n, attempts (k + n) start (resource p0) = attempts n (mkLocalState k stats) (resource pk).
Proof.
  induction k as [|k IH]; intros Hk Hno.
  - destruct (lookup_lt_is_Some_2 _ _ Hk) as (p0 & H0). exists ∅, p0, p0. split_and!; [done|done| |done].
    intros i s. rewrite lookup_empty. split; [done|lia].
  - destruct IH as (stats & p0 & pk & H0 & Hpk & Hst & Hrun); [lia|intros; eapply Hno; [|done]; lia|].
    destruct (lookup_lt_is_Some_2 _ _ Hk) as (q & Hq). exists (<[k := answer_of pk]> stats), p0, q. split_and!; [done|done| |].
    + intros i s. destruct (decide (i = k)) as [->|Hne].
      * rewrite lookup_insert_eq. split; [intros [= <-]; split; [lia|by exists pk]|]. intros (_ & p & Hp & ->). by simplify_eq.
      * rewrite lookup_insert_ne by done. rewrite Hst. split; intros [Hi ?]; (split; [lia|done]).
    + intros n. replace (S k + n)%nat with (k + S n)%nat by lia. rewrite Hrun, (next_attempt k pk stats n (Hno k pk ltac:(lia) Hpk) Hpk).
      rewrite (proj2 (Nat.leb_gt _ _)) by lia. cbn [andb]. by rewrite Hq.
Qed.

(** Without an answer, and not all of them without the resource: round and round. *)
Lemma never_answered n i p stats : (forall q, q ∈ providers -> answer_of q <> Some HTTP_OK) ->
  (exists q, q ∈ providers /\ answer_of q <> Some HTTP_NOT_FOUND) -> providers !! i = Some p ->
  (forall j q, (j < i)%nat -> providers !! j = Some q -> stats !! j = Some (answer_of q)) ->
  attempts n (mkLocalState i stats) (resource p) = None.
Proof.
  intros Hno (bad & Hbad & Hnf). revert i p stats. induction n as [|n IH]; intros i p stats Hp Hst; [done|].
  rewrite (next_attempt i p stats n (Hno p (list_elem_of_lookup_2 _ _ _ Hp)) Hp).
  assert (Hst' : forall j q, (j < S i)%nat -> providers !! j = Some q -> (<[i:=answer_of p]> stats) !! j = Some (answer_of q)).
  { intros j q Hj Hq. destruct (decide (j = i)) as [->|]; [rewrite lookup_insert_eq; by simplify_eq|].
    rewrite lookup_insert_ne by done. apply Hst; [lia|done]. }
  pose proof (lookup_lt_Some _ _ _ Hp) as Hlt. destruct (Nat.leb_spec (length providers) (S i)) as [Hle|Hgt].
  - apply list_elem_of_lookup in Hbad as (j & Hj). pose proof (lookup_lt_Some _ _ _ Hj) as Hjl. rewrite bool_decide_false.
    2:{ intros Hall. apply Hnf. by specialize (Hall j (answer_of bad) (Hst' j bad ltac:(lia) Hj)). }
    cbn [andb]. destruct (providers !! 0%nat) as [q|] eqn:E0; [|done]. apply IH; [done|lia].
  - cbn [andb]. destruct (providers !! S i) as [q|] eqn:Eq; [|done]. by apply IH.
Qed.

(** a request is answered by the first provider that has the resource. If no provider has it, the
    request ends after each was asked once. If one of them fails otherwise, the others not having
    the resource, the providers are asked again without end. *)
Theorem providers_tried p0 : providers !! 0%nat = Some p0 ->
  (forall k pk r, providers !! k = Some pk -> send (resource pk) = Ok r -> status_of r = HTTP_OK ->
     (forall i p, (i < k)%nat -> providers !! i = Some p -> answer_of p <> Some HTTP_OK) ->
     attempts (S k) start (resource p0) = Some (Ok r)) /\
  ((forall p, p ∈ providers -> answer_of p = Some HTTP_NOT_FOUND) ->
     attempts (length providers) start (resource p0) = Some (Err (AnyMessage (lit "All providers returned 404 Not Found")))) /\
  ((forall p, p ∈ providers -> answer_of p <> Some HTTP_OK) ->
     (exists p, p ∈ providers /\ answer_of p <> Some HTTP_NOT_FOUND) ->
     forall n, attempts n start (resource p0) = None).
Proof.
  intros H0. pose proof (lookup_lt_Some _ _ _ H0) as Hl0. split_and!.
  - intros k pk r Hpk Hr Hs Hno. destruct (first_round k (lookup_lt_Some _ _ _ Hpk) Hno) as (stats & p & q & Hp & Hq & _ & Hrun). simplify_eq.
    replace (S k) with (k + 1)%nat by lia. rewrite Hrun. cbn [attempts]. unfold chain. rewrite Hr, Hs. done.
  - intros Hall. assert (Hno : forall p, p ∈ providers -> answer_of p <> Some HTTP_OK) by (intros p Hp; by rewrite (Hall p Hp)).
    destruct (first_round (length providers - 1) ltac:(lia)) as (stats & p & q & Hp & Hq & Hst & Hrun).
    { intros i p _ Hp. by eapply Hno, list_elem_of_lookup_2. }
    simplify_eq. replace (length providers) with (length providers - 1 + 1)%nat at 1 by lia. rewrite Hrun.
    rewrite (next_attempt _ q stats 0 (Hno q (list_elem_of_lookup_2 _ _ _ Hq)) Hq). rewrite (proj2 (Nat.leb_le _ _)) by lia.
    rewrite bool_decide_true; [done|]. apply map_Forall_insert_2; [by eapply Hall, list_elem_of_lookup_2|].
    intros i s (_ & p & Hp' & ->)%Hst. by eapply Hall, list_elem_of_lookup_2.
  - intros Hno Hbad n. apply never_answered; try done. lia.
Qed.

End switching.

(** ** Concrete nodes *)

Module ProverDemo.

(** *** GRANDPA *)

Section grandpa_demo.
#[local] Existing Instances GrandpaDemo.header GrandpaDemo.voting GrandpaDemo.signing GrandpaDemo.logs GrandpaDemo.hashing
  GrandpaDemo.texts GrandpaDemo.nodes GrandpaDemo.bytes_codec GrandpaDemo.header_codec GrandpaDemo.justification_codec
  GrandpaDemo.proof_codec.

Definition chain (n : Z) : GrandpaDemo.Header :=
  if n =? 1 then GrandpaDemo.h1 else if n =? 2 then GrandpaDemo.h2 else (GrandpaDemo.genesis, lit "z", 0).

(** Block 1 is asked for, and block 2 is justified. *)
Definition justified : bytes := encode (GrandpaDemo.justification GrandpaDemo.wrong_signature GrandpaDemo.h2).
Definition nodes : list bytes := [encode (encode GrandpaDemo.para_header)].
Definition grandpa_node : GrandpaNode unit GrandpaDemo.Header := {|
  gn_block_hash n := ret (Ok (Some (header_hash (chain n))));
  gn_header hash := ret (Ok (find (fun h => bool_decide (header_hash h = hash)) (chain <$> [0; 1; 2])));
  gn_fetch_raw _ _ := ret (Ok None);
  gn_state_call _ _ _ := ret (Ok []);
  gn_prove_finality _ := ret (Ok (Some (encode (mkFinalityProof (H := GrandpaDemo.Header) [] justified []))));
  gn_read_proof _ _ := ret (Ok nodes);
  gn_constant _ _ := ret (Ok None)
|}.
Definition prover : GrandpaProver unit GrandpaDemo.Header := mkGrandpaProver _ _ grandpa_node [2000] (Polkadot 0) [] [].

Lemma up_to_two n : 0 <= n <= 2 -> n = 0 \/ n = 1 \/ n = 2.
Proof. lia. Qed.

Lemma chain_linked : linked chain 0 2.
Proof.
  split.
  - intros n [->|[->| ->]]%up_to_two; reflexivity.
  - intros n Hn. assert (n = 0 \/ n = 1) as [->| ->] by lia; reflexivity.
  - intros n m [->|[->| ->]]%up_to_two [->|[->| ->]]%up_to_two; vm_compute; congruence.
Qed.

Lemma chain_served : serves_chain prover chain 0 2 chain.
Proof. split; intros n [->|[->| ->]]%up_to_two; try (intros []); vm_compute; reflexivity. Qed.

Lemma grandpa_prover_complete_witness : exists message heads,
  gives (prove_relay_chain prover 0 1 2) message /\
  verify_parachain_headers_with_grandpa_finality_proof GrandpaDemo.state message
    = Some (Ok (advance GrandpaDemo.state GrandpaDemo.h2, heads)) /\
  forall id, id ∈ [2000] -> (id, [GrandpaDemo.para_header]) ∈ heads.
Proof.
  destruct (grandpa_prover_complete prover chain 0 2 chain_linked chain (fun _ => GrandpaDemo.para_header) nodes GrandpaDemo.state 0 1 2
    (GrandpaDemo.justification GrandpaDemo.wrong_signature GrandpaDemo.h2) justified chain_served)
    as (message & heads & Hm & Hh & Hv & _); try done; try lia.
  - split; [do 2 eexists; split; [intros []; reflexivity|split; [apply decode_encode|reflexivity]]|].
    split; [apply decode_encode|]. split; reflexivity.
  - split; [reflexivity|]. intros id _. do 2 eexists. split; [reflexivity|]. split; apply decode_encode.
  - intros a b ->%list_elem_of_singleton ->%list_elem_of_singleton _. reflexivity.
  - exists message, heads. split; [exact Hm|]. split; [|exact Hh]. rewrite Hv. vm_compute. reflexivity.
Defined.

End grandpa_demo.

(** *** BSC *)

Lemma rotation_block_found_witness : exists r, get_rotation_block 400 21 = Some r /\ 400 <= r < 600 /\ r mod 200 = 10.
Proof.
  destruct (rotation_block_found 400 21 ltac:(lia) ltac:(unfold EPOCH_LENGTH; lia) ltac:(lia)) as (r & Hr & Hb & Hm & _).
  exists r. exact (conj Hr (conj Hb Hm)).
Defined.

Section bsc_demo.
#[local] Existing Instances EvmDemo.hash32 BscDemo.bls BscDemo.rlp BscDemo.lib.

(** The epoch header, the finalised block and its child. *)
Definition source : CodecHeader := BscDemo.source (hash_of BscDemo.epoch_header) 401.
Definition target : CodecHeader := BscDemo.source (hash_of source) 402.
Definition bsc_chain (n : Z) : CodecHeader := if n =? 400 then BscDemo.epoch_header else if n =? 401 then source else target.
Definition bsc_node : BscNode unit := {|
  sn_block_by_hash hash := ret (Ok (find (fun h => bool_decide (hash_of h = hash)) (bsc_chain <$> [400; 401; 402])));
  sn_block_by_number n := ret (Ok (Some (bsc_chain n)));
  sn_block_number := ret (Ok 402)
|}.
Definition attested : CodecHeader := BscDemo.attested 402 15 10 source target.
Definition extra : ExtraData := default (mkExtraData [] 0 [] [] [] BscDemo.filler 0) (parse_extra BscMainnet attested ≫= ok).
Definition validators : list bytes := BscDemo.keys [1; 2; 3; 4; 5; 6].

Lemma up_to_three n : 400 <= n <= 402 -> n = 400 \/ n = 401 \/ n = 402.
Proof. lia. Qed.

Lemma bsc_served : serves_headers bsc_node bsc_chain 400 402.
Proof.
  split.
  - lia.
  - intros n [->|[->| ->]]%up_to_three; vm_compute; reflexivity.
  - intros n Hn. assert (n = 400 \/ n = 401) as [->| ->] by lia; vm_compute; reflexivity.
  - intros n [->|[->| ->]]%up_to_three []; vm_compute; reflexivity.
Qed.

Lemma bsc_prover_accepted_witness : exists update,
  gives (fetch_bsc_update bsc_node BscMainnet 200 attested 6 2 false) (Some update) /\
  verify_bsc_header BscMainnet validators update = Some (Ok (mkVerificationResult (hash_of source) source
    (Some (mkNextValidators (BscDemo.keys [11; 12; 13]) 403)))).
Proof.
  destruct (bsc_prover_accepted bsc_node BscMainnet bsc_chain 400 402 bsc_served 200 attested extra 6 2 false 401 402)
    as (rotation & update & Hr & Hu & Hv).
  1-3: vm_compute; reflexivity.
  1-2: intros E; apply (f_equal (fun l => bool_decide (l = H256_zero))) in E; vm_compute in E; discriminate.
  1-6: unfold EPOCH_LENGTH; (lia || (split; [discriminate|reflexivity])).
  - lia.
  - exists update. split; [exact Hu|]. assert (rotation = 403) as -> by (vm_compute in Hr; congruence). apply Hv.
    + do 2 eexists. split; [vm_compute; reflexivity|]. split; [vm_compute; discriminate|]. split; vm_compute; reflexivity.
    + vm_compute. eexists. split; reflexivity.
Defined.

End bsc_demo.

(** *** Several nodes *)

Section switching_demo.
#[local] Instance urls : UrlLib := Some.

Definition providers : list bytes := [lit "http://a"; lit "http://b"].
(** The first provider does not have the resource. *)
Definition send (url : bytes) : result AnyError Z :=
  if bool_decide (url = resource (lit "/v1/x") (lit "http://b")) then Ok 200 else Ok 404.

(** No piece of [part] starts an occurrence, by computation. *)
Definition free_of_b (pattern part rest : bytes) : bool :=
  forallb (fun i => negb (bool_decide (pattern `prefix_of` drop i (part ++ rest)))) (seq 0 (length part)).

Lemma free_of_check pattern part rest : free_of_b pattern part rest = true -> free_of pattern part rest.
Proof.
  intros Hb a b -> Hne Hpre. unfold free_of_b in Hb. rewrite forallb_forall in Hb. specialize (Hb (length a)).
  rewrite in_seq, length_app, <- app_assoc, drop_app_length in Hb. rewrite bool_decide_true in Hb by done.
  destruct b; [done|]. cbn in Hb. discriminate Hb. lia.
Qed.

Lemma urls_plain : plain_urls providers (lit "/v1/x").
Proof.
  split; [discriminate|]. split; [apply free_of_check; vm_compute; reflexivity|].
  intros p [->|[->|[]%elem_of_nil]%elem_of_cons]%elem_of_cons; (split; [reflexivity|apply free_of_check; vm_compute; reflexivity]).
Qed.

Lemma providers_tried_witness : attempts id providers send 2 start (resource (lit "/v1/x") (lit "http://a")) = Some (Ok 200).
Proof.
  apply (proj1 (providers_tried id providers (lit "/v1/x") send urls_plain (lit "http://a") eq_refl) 1%nat (lit "http://b") 200 eq_refl).
  - vm_compute. reflexivity.
  - reflexivity.
  - intros i p Hi Hp. assert (i = 0%nat) as -> by lia. injection Hp as <-. vm_compute. discriminate.
Defined.

End switching_demo.

(** *** The beacon chain *)

Section beacon_demo.
#[local] Existing Instances BeaconDemo.bls BeaconDemo.ssz.
#[local] Instance beacon_urls : UrlLib := Some.
#[local] Instance plain_hex : Hex := {| hex_encode b := b; hex_decode := Some |}.

Definition u64_root (n : Z) : bytes := to_be_bytes 8 n.
Definition cp_part (st : BeaconState) : bytes :=
  u64_root (cp_epoch (st_finalized_checkpoint st)) ++ cp_root (st_finalized_checkpoint st).
Definition next_part (st : BeaconState) : bytes := sc_aggregate_public_key (st_next_sync_committee st).
Definition payload_part (p : ExecutionPayloadHeader) : bytes :=
  xh_state_root p ++ u64_root (xh_block_number p) ++ u64_root (xh_timestamp p).

(** The root of a state lists its parts, and a branch splits the root around the leaf. *)
#[local] Instance ssz_prover : SszProver := {|
  root_of_state st := Some (cp_part st ++ next_part st ++ payload_part (st_latest_execution_payload_header st));
  root_of_payload p := Some (payload_part p);
  prove_state st indices :=
    let xp := payload_part (st_latest_execution_payload_header st) in
    match indices with
    | [52] => Some (BeaconDemo.branch [] (next_part st ++ xp))
    | [55] => Some (BeaconDemo.branch (cp_part st) xp)
    | [56] => Some (BeaconDemo.branch (cp_part st ++ next_part st) [])
    | _ => None
    end;
  prove_payload _ _ := Some [];
  prove_roots _ _ := None
|}.

#[local] Instance ssz_laws : SszProverLaws.
Proof.
  split.
  - intros st r [= <-]. do 2 eexists. split; [reflexivity|]. split; [reflexivity|]. split; [reflexivity|].
    cbn. apply bool_decide_eq_true_2. reflexivity.
  - intros st r [= <-]. do 2 eexists. split; [reflexivity|]. split; [reflexivity|]. cbn. apply bool_decide_eq_true_2. reflexivity.
  - intros st r [= <-]. do 2 eexists. split; [reflexivity|]. split; [reflexivity|]. cbn. apply bool_decide_eq_true_2.
    by rewrite app_nil_r, <- app_assoc.
  - intros p r [= <-]. do 3 eexists. split; [reflexivity|]. split; [reflexivity|]. split; [reflexivity|]. cbn. by rewrite app_nil_r.
Qed.

Definition payload_header : ExecutionPayloadHeader :=
  mkExecutionPayloadHeader [] [] (replicate 32 Byte.x5a) [] [] [] 77 0 0 1650 [] 0 [] [] [] 0 0.
Definition eth1 : Eth1Data := mkEth1Data [] 0 [].
Definition no_header : BeaconBlockHeader := mkBeaconBlockHeader 0 0 [] [] [].

(** A state with the checkpoint and the number of the next committee. *)
Definition beacon_state (slot : Z) (checkpoint : Checkpoint) (current next : Z) : BeaconState :=
  mkBeaconState 0 [] slot (mkFork [] [] 0) no_header [] [] [] eth1 [] 0 [] [] [] [] [] [] [] checkpoint checkpoint checkpoint []
    (BeaconDemo.committee current) (BeaconDemo.committee next) payload_header 0 0 [].
Definition state_root_of (st : BeaconState) : bytes := default [] (root_of_state st).

Definition finalized_state : BeaconState := beacon_state 8224 (mkCheckpoint 256 (u64_root 8192)) 3 5.
Definition finalized_header : BeaconBlockHeader := mkBeaconBlockHeader 8224 0 [] (state_root_of finalized_state) [].
Definition attested_state : BeaconState := beacon_state 8264 (mkCheckpoint 257 (u64_root 8224)) 3 5.
Definition attested_header : BeaconBlockHeader := mkBeaconBlockHeader 8264 0 [] (state_root_of attested_state) [].

(** Committee 3 signs the attested header, in the block after it; hardly anyone signs the next. *)
Definition signing_root : bytes :=
  default [] (domain ← compute_domain DomainSyncCommittee (Some (compute_fork_version Mainnet (compute_epoch_at_slot Mainnet 8265)))
    (Some (GENESIS_VALIDATORS_ROOT Mainnet)) (GENESIS_FORK_VERSION Mainnet); compute_signing_root attested_header domain).
Definition payload_of_block : ExecutionPayload := mkExecutionPayload [] [] [] [] [] [] 0 0 0 0 [] 0 [] [] [] 0 0.
Definition body (bits : list bool) (signature : bytes) : BeaconBlockBody :=
  mkBeaconBlockBody [] eth1 [] [] [] [] [] [] (mkSyncAggregate bits signature) payload_of_block [] [].
Definition attested_block : BeaconBlock := mkBeaconBlock 8264 0 [] (state_root_of attested_state) (body [] []).
Definition signature_block : BeaconBlock := mkBeaconBlock 8265 0 (u64_root 8264) (state_root_of attested_state)
  (body BeaconDemo.bits (to_be_bytes 60 (400 * 3 * of_be_bytes 0 signing_root))).
Definition head_block : BeaconBlock := mkBeaconBlock 8266 0 (u64_root 8265) (state_root_of attested_state) (body [] []).
Definition header_of_block (b : BeaconBlock) : BeaconBlockHeader :=
  mkBeaconBlockHeader (blk_slot b) 0 (blk_parent_root b) (blk_state_root b) [].

Definition beacon_headers (r : Root) : option BeaconBlockHeader :=
  find (fun h => bool_decide (u64_root (bh_slot h) = r))
    [finalized_header; attested_header; header_of_block signature_block; header_of_block head_block].
Definition beacon_blocks (r : Root) : option BeaconBlock :=
  find (fun b => bool_decide (u64_root (blk_slot b) = r)) [attested_block; signature_block; head_block].
Definition beacon_states (r : Root) : option BeaconState :=
  find (fun st => bool_decide (state_root_of st = r)) [finalized_state; attested_state].

(** The node reads the root at the end of the path. *)
Definition after (prefix url : bytes) : bytes := drop (length prefix) url.
Definition or_missing {A} (o : option A) : Net unit A := ret (ok_or o (AnyMessage (lit "missing"))).
Definition state_id_of (url : bytes) : bytes :=
  take (length url - length (lit "/finality_checkpoints") - length (lit "/eth/v1/beacon/states/0x")) (after (lit "/eth/v1/beacon/states/0x") url).
Definition beacon_node : BeaconNode unit := {|
  bn_checkpoint url := or_missing ((fun st => mkFinalityCheckpoint (st_finalized_checkpoint st) (st_finalized_checkpoint st)
    (st_finalized_checkpoint st)) <$> beacon_states (state_id_of url));
  bn_header url := or_missing (if bool_decide (url = header_route (lit "head")) then Some (header_of_block head_block)
    else beacon_headers (after (header_route (lit "0x")) url));
  bn_block url := or_missing (beacon_blocks (after (block_route (lit "0x")) url));
  bn_committee _ := or_missing None;
  bn_validator _ := or_missing None;
  bn_state url := or_missing (beacon_states (after (beacon_state_route (lit "0x")) url))
|}.

Lemma found_in {A} (f : A -> bool) l x : find f l = Some x -> x ∈ l /\ f x = true.
Proof. intros [Hin Hf]%find_some. split; [by apply list_elem_of_In|done]. Qed.

Lemma beacon_served : serves_beacon [] beacon_node beacon_headers beacon_blocks beacon_states.
Proof.
  split.
  - intros r h [Hin <-%bool_decide_eq_true_1]%found_in.
    repeat (apply elem_of_cons in Hin as [->|Hin]; [split; [intros []; vm_compute; reflexivity|reflexivity]|]). by apply elem_of_nil in Hin.
  - intros r b [Hin <-%bool_decide_eq_true_1]%found_in.
    repeat (apply elem_of_cons in Hin as [->|Hin];
      [split; [intros []; vm_compute; reflexivity|eexists; split; [vm_compute; reflexivity|split; vm_compute; reflexivity]]|]).
    by apply elem_of_nil in Hin.
  - intros r st [Hin <-%bool_decide_eq_true_1]%found_in.
    repeat (apply elem_of_cons in Hin as [->|Hin]; [split; [intros []; vm_compute; reflexivity|reflexivity]|]). by apply elem_of_nil in Hin.
  - intros r st [Hin <-%bool_decide_eq_true_1]%found_in.
    repeat (apply elem_of_cons in Hin as [->|Hin]; [eexists; split; [intros []; vm_compute; reflexivity|reflexivity]|]). by apply elem_of_nil in Hin.
Qed.

Definition parts : update_parts := mkUpdateParts signature_block attested_header attested_state finalized_header finalized_state.

Lemma beacon_search : search Mainnet beacon_blocks beacon_states BeaconDemo.trusted 2 head_block signature_block.
Proof.
  eapply search_parent with (p := signature_block) (ps := attested_state); [|vm_compute; reflexivity|].
  - split; [vm_compute; reflexivity|]. split; [vm_compute; reflexivity|reflexivity].
  - eapply search_here with (p := attested_block) (ps := attested_state); [|vm_compute; reflexivity].
    split; [vm_compute; reflexivity|]. split; [vm_compute; reflexivity|reflexivity].
Qed.

Lemma parts_on_chain : on_chain beacon_headers beacon_states parts.
Proof. split; try (vm_compute; reflexivity); [vm_compute; discriminate|split; reflexivity]. Qed.

Lemma beacon_prover_accepted_witness : exists update,
  gives (fetch_light_client_update [] beacon_node Mainnet 100 BeaconDemo.trusted (mkCheckpoint 257 (u64_root 8224)) None) (Some update) /\
  verify_sync_committee_attestation Mainnet BeaconDemo.trusted update
    = Some (Ok (mkVerifierState finalized_header 257 (BeaconDemo.committee 3) (BeaconDemo.committee 5) 1)).
Proof.
  destruct (beacon_prover_accepted [] beacon_node Mainnet beacon_headers beacon_blocks beacon_states BeaconDemo.trusted
    (list_elem_of_further _ _ _ (list_elem_of_here _ _)) beacon_served 100
    (mkCheckpoint 257 (u64_root 8224)) None (header_of_block head_block) (u64_root 8266) head_block 2 parts
    (to_be_bytes 4 2560) (to_be_bytes 4 1536)) as (update & Hu & Hv).
  - vm_compute. discriminate.
  - reflexivity.
  - intros []. vm_compute. reflexivity.
  - reflexivity.
  - vm_compute. reflexivity.
  - exact beacon_search.
  - lia.
  - exact parts_on_chain.
  - reflexivity.
  - reflexivity.
  - exists update. split; [exact Hu|]. rewrite Hv; [vm_compute; reflexivity| |split; [discriminate|reflexivity]|reflexivity].
    split; [vm_compute; reflexivity|]. do 2 eexists. split; [vm_compute; reflexivity|]. split; [vm_compute; reflexivity|]. vm_compute. reflexivity.
Defined.

End beacon_demo.

End ProverDemo.
